(* ===== verification/_CoqProject ===== *)
-Q . S2P
Prelude.v
PyStr.v
HostConfig.v
Subid.v
LockedFile.v
Ipam.v
Json.v
Registry.v
SetupState.v
Walker.v
Executor.v
Images.v
ShellWords.v
Dispatch.v
HelperRecipe.v
Preflight.v
Invoke.v
PhaseRunner.v
SetupGraph.v
SetupFlow.v
Doctor.v
PrivilegeBoundary.v
Locks.v
Journal.v
Backups.v
WorkspaceCopy.v
Secrets.v
Recipes.v
Credentials.v
Interact.v
Cli.v
Lifecycle.v
DryRun.v
Teardown.v
Workspaces.v
HostBatch.v
Scaffold.v
Init.v
OnState.v
BinaryInstall.v
HostPhases.v
DaemonPhases.v
HostIdentity.v
PrivilegeRule.v
Hydration.v
Rendering.v
Base64.v
DispatchBuild.v
DispatcherInstall.v
BridgeChecks.v
TreeChecks.v
InvariantChecks.v
SetupEntry.v
SharedGroup.v
ViewCmd.v
Integrations.v
RotatePins.v
SetupReport.v
ActionExec.v
BackupTools.v
