(* ===== verification/Prelude.v ===== *)
(** * sandbox-ai: a verified model of the orchestrator

    sandbox-ai runs development sandboxes in gVisor containers on a rootless
    Docker daemon.  The Python program (under src/src/) allocates subnets,
    keeps a registry, provisions the host in phases, renders the files of an
    instance, and sends every container operation across a privilege boundary
    to the daemon's owner.  This library models the program: the state it keeps
    in files, the operations and commands that change it, the phases of its
    setup, the checks of its doctor, the text it sends across the boundary and
    recovers from it.  [Prelude] is the root; it also holds the exceptions
    ([exn], one constructor per class the code raises or catches), the fallible
    computations [res], the effects [eff] (state passing in which, as in
    Python, changes made before an exception persist) and shared tactics.

    Code that only computes is a function; code that keeps one small state is a
    function of [eff]; code that makes calls which may all fail is a program of
    [Interact], a tree whose theorems hold under every answer, and where the
    calls act on a machine that the model describes, a program of [OnState].
    A phase of the setup keeps [PhaseContract] of [HostPhases]: a probe and a
    reverify change nothing, what they call correct is converged, and an act
    that returns has converged.

    ** The files and the code they model

    Ground:
    - [PyStr]: the Python strings, [shlex], [int], [os.path] and line functions
      the code uses, with their lemmas; [Json]: JSON values; [Base64].
    - [HostConfig], [Subid]: core/host_config.py and core/setup/subid.py.
      [HostSettings] and [HostConfig] are the classes; [host_env] is what they
      read of the host.
    - [Interact], [OnState]: programs over calls, their runs, weakest
      preconditions, and executable runs.

    State in files:
    - [LockedFile]: processes that update one file under [flock], a step per
      system call ([sys_step]).  Every schedule is equivalent to a sequence of
      atomic operations.  The class [LockedStore] is the interface; [Ipam]
      (core/ipam.py) and [Registry] (core/registry.py) are its instances and
      prove their own contracts.
    - [SetupState]: core/setup_state.py, the marker, written atomically.
    - [Locks]: core/locks.py, the backup lock as a state machine over the lock
      file and the kernel's lock, with crashes.  [Journal]:
      core/journal_audit.py and a reader of the journal's protocol.
    - [Backups], [BackupTools], [WorkspaceCopy]: core/workspace_backups.py and
      core/workspace_copy.py.

    The boundary:
    - [Executor]: core/executor.py.  Output crosses a terminal, so the exit
      status travels in a framed trailer with a nonce; the patterns are
      matchers with Python's semantics.
    - [Images], [ShellWords], [Dispatch], [Preflight], [Invoke]: the image pins
      of core/hydration.py, core/compose.py, core/hashing.py,
      core/helper_container.py and core/dispatch.py.  [Dispatch] has the operation table, the validators, the
      wire formats, the target commands and the crossing; [ShellWords] is a
      reader of POSIX shell words against which the quoting is proved;
      [Preflight] is the parser of the bundle; [Invoke] runs an operation and
      its audit record, on [Executor].
    - [HelperRecipe]: the shell scripts of the helper container, printed by
      [Dispatch], as syntax trees run under [set -e].
    - [DispatchBuild], [DispatcherInstall]: the archive, digest and recipe that
      build the dispatcher, its installation, manifest and drift check
      (core/dispatch.py, l65_dispatcher.py, dispatcher_sha_drift.py).
    - [BinaryInstall]: core/binary_install.py, l6a_runsc.py and its check.
    - [PrivilegeBoundary]: doctor/checks/privilege_boundary.py and the
      preflight gate of start and init.

    The setup (core/setup/ and cli/main.py):
    - [PhaseRunner], [SetupGraph]: phase_runner.py and the [PHASE] objects.
      [apply_row] is the contract of one phase; the apply pass refines it.
    - [HostIdentity] (l0), [HostPhases] (l1, l2, l2a), [PrivilegeRule] (l3, l3a,
      l8), [DaemonPhases] (l5, l6, l7) and, with [BinaryInstall] and
      [DispatcherInstall] (l6a, l65), every phase; [Integrations]: the two
      optional ones of extras/.
    - [HostBatch]: host_batch.py, the privileged batch of operator-rootless
      setup, with the escalated command.
    - [SetupFlow], [SetupReport]: cli_flow.py, the selection of the extras and
      the two setup bodies; [SetupEntry]: the command in front of them, from
      the flags to the exit code, and the escalation.

    An instance (core/ and cli/main.py):
    - [Hydration], [Rendering]: core/hydration.py and core/host_resources.py,
      the configuration model, the template context, the rendered tree.
    - [Scaffold], [Secrets], [Credentials]: core/scaffold.py, the secrets,
      core/crypto.py and the credential and unlink phases.
    - [Walker], [Recipes], [ActionExec], [SharedGroup]: core/walker.py, the
      plans of start and stop over the actions of core/actions, their
      execution, and the recursive recipe of the shared group.
    - [Cli], [Lifecycle], [DryRun], [Init], [Teardown], [Workspaces],
      [ViewCmd]: the commands of cli/main.py: start, stop, attach, the dry run,
      init, destroy, the workspace commands, and status, workspace list and
      doctor, which only look.

    The doctor and the pins:
    - [Doctor]: core/doctor/types.py and registry.py: the registry of checks as
      data, its order, the runner, the subset runs of the commands.
    - [BridgeChecks], [TreeChecks], [InvariantChecks]: the checks of
      core/doctor/checks over a snapshot of the host, and the renderer.
    - [RotatePins]: scripts/rotate_pins.py.

    ** What the theorems show

    The properties are numbered in their doc comments.
    Boundary: the status recovered is the callee's when what an operation prints
    ends its lines, and a success that leaves its last line open is an error;
    without its trailer recovery raises ([framed_recovery],
    [framed_crash_fails_closed]); the commands are what a shell reads back
    ([helper_command_safe], [build_invocation_spec]); the bundle and its gate
    fail closed ([preflight_fails_closed], [preflight_gate_exact]); the rule
    that setup writes grants every crossing the code makes
    ([every_crossing_granted]) and exactly what its specifications list, which
    is any text after an operation that takes arguments
    ([rule_grants_exactly]), through binaries of the
    secure path ([secure_path_resolution]).
    Refinement: the locked files ([ipam_serializable]), the apply pass
    ([apply_pass_refines]), the check runner ([run_checks_spec]), the phases
    ([l2_converges], [daemon_phases_converge], [rule_phases_converge],
    [integrations_converge]).
    Atomicity and error paths: the marker ([write_mode_atomic]), the backups
    ([create_backup_atomic]), the pinned binary and the dispatcher
    ([install_pinned_atomic], [dispatcher_install_atomic]), the actions
    ([execute_exact]).
    Setup: one owner and one mode, which stick ([setup_enters_one_mode],
    [setup_mode_sticks]); nothing without a clean plan and a confirmation
    ([setup_only_confirmed]); the marker of the batch only after all of it
    ([marker_only_after_all]); the report agrees with the gate
    ([report_agrees]); the escalation ([escalates_once]).
    Commands, in every run and under every failure: start carries out one list
    of actions and revokes its grants when a caught failure stops it
    ([start_all_or_revoked]; a part of the plan that cannot be computed ends it
    like a failing action), only after its gates ([start_changes_guarded]);
    destroy removes nothing before the confirmation and the backups
    ([destroy_irreversible_guarded]) and then finishes, where the plan of the
    helper can be made ([destroy_finishes]);
    init does its steps in order ([init_in_order]); the workspace commands keep
    their guards ([workspace_commands_guarded]); what the looking commands show
    is what is there ([status_summary_exact], [workspace_list_exact],
    [age_bounds]); the shared group is given to all and only what is visited
    ([shared_group_exact]); a rotation of the pins is guarded
    ([rotation_guarded]).
    Round trips and types: ids, marker, registry, wires, sandbox.toml
    ([sandbox_toml_reads_back]), secrets ([seeded_secrets_read_back]), the
    configuration ([from_toml_typed], [config_roundtrip]), Base64.  Equivalence:
    the dry run of the rendering ([dry_run_agrees]), the digest of the source
    ([source_reproducible]), the checks and what they scan
    ([instance_scans_exact], [ancestor_traverse_exact],
    [setup_invariants_exact], in both modes).  Termination: the phase order, the check order,
    the ancestor walk, the subid picker.

    Many lemmas state behaviour that the comments of the code do not promise or
    deny, each at a concrete input beside the model it is about: for example a
    failed [l0] does not stop the Docker install in operator-rootless mode, a
    backup of more than a minute counts as not running, a stop leaves some of
    the daemon's ACL entries ([stop_revokes_exact]), the helper script hides
    failures ([helper_status_exact]), a seeded secret can define others
    ([seeding_injects]), a carriage return ends a secret
    ([carriage_return_cuts_value]), a link at the record's name is written
    through ([linked_record_overwrites]), a config file that all can read is not
    found ([config_not_scanned]), a workspace added meanwhile is lost
    ([mutate_loses_concurrent]), an interrupt of the setup is taken for the
    failure of a phase ([interrupt_swallowed]), a link in a workspace opens the
    directory it leads to ([link_target_opened]), a failed reload of the trust
    database is never made up for ([failed_reload_stays]).

    ** Bounds and fuel

    Fuelled loops return [None] when out of fuel, and their theorems exclude
    it, or have a fuel that is proved to be enough: [pick_fuel] exceeds every
    occupied block, the ancestor walk has the code's own depth limit and one,
    [kahn] has the number of phases and [sort_loop] the number of checks, each
    of which places one per round, the directory walk of [SharedGroup] the
    length of the longest path, and a path has no more ancestors than
    characters.  Text is Latin-1: a character is a code point below 256; the
    printed marks outside of it are their bytes.  Integers are unbounded as in
    Python; octets and slots carry their ranges in the theorems, times are in
    microseconds.

    ** Parameters

    The host (passwd and group databases, files read), [subprocess.run],
    [realpath] and [lstat], rsync, the JSON text functions, date formatting and
    the reading of dates, the random tokens, the journal's socket, SHA-512 and
    SHA-256, the formats of tar and gzip, the template engine, pydantic's
    conversions of scalars, the float texts of limits, how sudo matches a
    specification, what visudo and AIDE accept and what fapolicyd trusts after
    a load, and the callbacks of phases and checks are arguments of the
    definitions.  Their assumptions are hypotheses of the theorems that need
    them, with witnesses at concrete functions.

    ** Not modelled

    The registration of the commands with typer and the texts they print on the
    way, but for those of the setup, the views and the previews; colours and
    widths of tables; owners in the trees of the backups (the pass that sets the
    group is modelled over its own files); the byte-level encoding of text files; the
    reading of the Docker output beyond the JSON it holds; and the container
    templates and the Go dispatcher and forwarder, which are in other
    languages. *)
From stdpp Require Export base tactics list gmap sets strings pretty.
From Stdlib Require Export ZArith Lia.

(** ** Python exceptions

    One constructor per exception class that the modelled code raises or
    catches.  [SandboxExecutionError] carries its message and whether its
    [__cause__] is a [subprocess.TimeoutExpired], because code reads both;
    the text of the other exceptions is only printed. *)
Inductive exn : Type :=
  | ValueError
  | TypeError
  | KeyError
  | AttributeError
  | IndexError
  | FileNotFoundError
  | BlockingIOError
  | OSError
  | CrossDeviceError (* OSError with errno EXDEV *)
  | JSONDecodeError
  | SandboxExecutionError (msg : string) (timeout_cause : bool)
  (* core.host_config; all are subclasses of SandboxExecutionError *)
  | NoSubuidRangeError
  | SubuidOutOfRangeError
  | NoSubgidRangeError
  | SubgidOutOfRangeError
  | WorkspaceBridgeGroupMissingError
  | NoFreeGidInSubgidRangeError
  (* core.setup_state *)
  | ModeMarkerMissing
  (* core.ipam *)
  | IPAMExhaustedError
  | IPAMLockException
  (* core.registry *)
  | InstanceNameInUseError
  (* core.walker *)
  | SymlinkInChainError
  | BoundaryPathError
  | DepthExceededError
  (* core.locks *)
  | BackupLockHeldError
  (* core.dispatch; both are subclasses of ValueError *)
  | DispatchValidationError
  | StreamingOpError
  (* core.setup.phase_runner *)
  | PhaseDependencyError
  | PhaseDiscoveryError
  | SandboxUserNotYetCreated
  (* core.workspace_copy, core.workspace_backups *)
  | UnsafeSymlinkError
  | CalledProcessError
  | BackupPathError
  | BackupRsyncError
  | BackupSpecNotFoundError
  | BackupSpecAmbiguousError
  (* core.scaffold *)
  | SecretSeedingError
  (* core.binary_install, core.setup.l3_sudoers, core.setup.l0_identity *)
  | BinarySha512MismatchError
  | RuleRenderError
  | OperatorResolutionError
  | MachinectlResolutionError
  | SystemdRunResolutionError
  | RuntimeError
  (* core.hydration: pydantic's and jinja2's *)
  | TOMLDecodeError
  | ValidationError
  | TemplateNotFound
  | TemplateSyntaxError (msg : string)
  | UndefinedError (msg : string)
  (* cli.main *)
  | SetupModeConflict
  | SetupFlagRefused
  | SetupAborted
  | BadParameter
  (* [typer.Exit(code)] *)
  | Exit (code : Z).

(** [str(exc)] of a [SandboxExecutionError]; the other exceptions keep no text. *)
Definition exn_text (x : exn) : string :=
  match x with SandboxExecutionError msg _ => msg | _ => "" end.

#[export] Instance exn_eq_dec : EqDecision exn.
Proof. solve_decision. Defined.

(** [except SandboxExecutionError] catches the class and its subclasses. *)
Definition is_sandbox_execution_error (e : exn) : bool :=
  match e with
  | SandboxExecutionError _ _
  | NoSubuidRangeError | SubuidOutOfRangeError
  | NoSubgidRangeError | SubgidOutOfRangeError
  | WorkspaceBridgeGroupMissingError | NoFreeGidInSubgidRangeError
  | BinarySha512MismatchError => true
  | _ => false
  end.

(** ** Fallible computations *)
Inductive res (A : Type) : Type :=
  | Ok (a : A)
  | Err (e : exn).
Arguments Ok {A} a.
Arguments Err {A} e.

#[export] Instance res_eq_dec {A} `{EqDecision A} : EqDecision (res A).
Proof. solve_decision. Defined.

#[export] Instance res_ret : MRet res := λ A a, Ok a.
#[export] Instance res_bind : MBind res := λ A B f m,
  match m with Ok a => f a | Err e => Err e end.

Definition is_ok {A} (r : res A) : bool :=
  match r with Ok _ => true | Err _ => false end.

(** [require b e] is the guard [if not b: raise e]. *)
Definition require (b : bool) (e : exn) : res unit :=
  if b then Ok tt else Err e.

(** Run a fallible step on every element, left to right, stopping at the
    first exception: a [for] loop whose body only raises. *)
Fixpoint res_iter {A} (f : A → res unit) (l : list A) : res unit :=
  match l with
  | [] => Ok tt
  | x :: l => f x ≫= λ _, res_iter f l
  end.

(** A list comprehension whose body may raise. *)
Fixpoint res_map {A B} (f : A → res B) (l : list A) : res (list B) :=
  match l with
  | [] => Ok []
  | x :: l => y ← f x; ys ← res_map f l; Ok (y :: ys)
  end.

(** ** Effectful computations

    State passing with exceptions: as in Python, the changes made before an
    exception persist. *)
Definition eff (S A : Type) : Type := S → res A * S.

#[export] Instance eff_ret {S} : MRet (eff S) := λ A a s, (Ok a, s).
#[export] Instance eff_bind {S} : MBind (eff S) := λ A B f m s,
  match m s with
  | (Ok a, s') => f a s'
  | (Err e, s') => (Err e, s')
  end.

Definition throw {S A} (e : exn) : eff S A := λ s, (Err e, s).
Definition lift_res {S A} (r : res A) : eff S A := λ s, (r, s).
Definition get_state {S} : eff S S := λ s, (Ok s, s).
Definition put_state {S} (s : S) : eff S unit := λ _, (Ok tt, s).

(** [try: m finally: fin], where [fin] does not raise. *)
Definition finally {S A} (m : eff S A) (fin : S → S) : eff S A := λ s,
  let '(r, s') := m s in (r, fin s').

(** ** Tactics *)

(** Destruct the scrutinee of the first [match] in the goal, keep the
    equation, and simplify. *)
Ltac split_match :=
  match goal with
  | |- context [match ?x with _ => _ end] =>
      lazymatch x with
      | context [match _ with _ => _ end] => fail
      | _ => let E := fresh "E" in destruct x eqn:E; simplify_eq/=
      end
  end.

Ltac split_match_in H :=
  match type of H with
  | context [match ?x with _ => _ end] =>
      lazymatch x with
      | context [match _ with _ => _ end] => fail
      | _ => let E := fresh "E" in destruct x eqn:E; simplify_eq/=
      end
  end.

(** Turn boolean tests of the code into propositions. *)
Ltac breflect :=
  repeat match goal with
  | H : (_ && _) = true |- _ => apply andb_true_iff in H as [? ?]
  | H : (_ || _) = false |- _ => apply orb_false_iff in H as [? ?]
  | H : (_ <? _)%Z = true |- _ => apply Z.ltb_lt in H
  | H : (_ <? _)%Z = false |- _ => apply Z.ltb_ge in H
  | H : (_ <=? _)%Z = true |- _ => apply Z.leb_le in H
  | H : (_ <=? _)%Z = false |- _ => apply Z.leb_gt in H
  | H : (_ =? _)%Z = true |- _ => apply Z.eqb_eq in H
  | H : (_ =? _)%Z = false |- _ => apply Z.eqb_neq in H
  | H : bool_decide _ = true |- _ => apply bool_decide_eq_true in H
  | H : bool_decide _ = false |- _ => apply bool_decide_eq_false in H
  | H : negb _ = true |- _ => apply negb_true_iff in H
  | H : negb _ = false |- _ => apply negb_false_iff in H
  end.

Create HintDb sandbox.

(** ** Generic lemmas *)

Lemma res_bind_Ok {A B} (m : res A) (f : A → res B) b :
  m ≫= f = Ok b ↔ ∃ a, m = Ok a ∧ f a = Ok b.
Proof. destruct m; simpl; naive_solver. Qed.

Lemma eff_bind_Ok {S A B} (m : eff S A) (f : A → eff S B) s b s' :
  (m ≫= f) s = (Ok b, s') ↔ ∃ a s1, m s = (Ok a, s1) ∧ f a s1 = (Ok b, s').
Proof.
  unfold mbind, eff_bind. destruct (m s) as [[a|e] s1]; [|naive_solver]. split; [eauto|].
  by intros (a' & s1' & [= <- <-] & H).
Qed.

Lemma res_iter_Ok {A} (f : A → res unit) l :
  res_iter f l = Ok tt ↔ Forall (λ x, f x = Ok tt) l.
Proof.
  induction l as [|x l IH]; simpl.
  - split; auto.
  - rewrite Forall_cons, <- IH. destruct (f x) as [[]|e]; simpl; naive_solver.
Qed.

Lemma res_map_length {A B} (f : A → res B) l l' :
  res_map f l = Ok l' → length l' = length l.
Proof.
  revert l'; induction l as [|x l IH]; intros l'; simpl; [naive_solver|].
  destruct (f x) as [y|]; simpl; [|done].
  destruct (res_map f l) as [ys|]; simpl; [|done].
  intros [= <-]; simpl; f_equal; auto.
Qed.

Lemma filter_none {A} (P : A → Prop) `{!∀ x, Decision (P x)} l :
  (∀ x, x ∈ l → ¬ P x) → filter P l = [].
Proof.
  induction l as [|x l IH]; intros Hl; [done|].
  rewrite filter_cons_False by (apply Hl; set_solver). apply IH. set_solver.
Qed.

Lemma require_Ok b e : require b e = Ok tt ↔ b = true.
Proof. destruct b; simpl; naive_solver. Qed.

Create Rewrite HintDb sandbox_rw.
#[export] Hint Rewrite @require_Ok @res_iter_Ok : sandbox_rw.
