(* ===== verification/PyStr.v ===== *)
(** * The Python strings and standard-library text functions the code uses

    A [str] is a [string] whose characters are its code points; the model
    covers code points below 256 (Latin-1), where the character classes of
    Python ([str.isspace], [str.isdigit], [str.lower]) are written out in
    full.  The functions follow the documented behaviour of CPython's [str],
    [shlex], [int], [re] and [os.path] (POSIX). *)
From stdpp Require Import sorting.
From S2P Require Import Prelude.
From Stdlib Require Import Ascii String.
Open Scope string_scope.

#[global] Arguments String.append !_ _ /.

(** ** Character classes *)

Definition code (c : ascii) : N := N_of_ascii c.

Definition in_rangeb (lo hi : N) (c : ascii) : bool :=
  ((lo <=? code c) && (code c <=? hi))%N.

(** Decimal digits [0-9], the only decimal digits of Latin-1. *)
Definition is_dec (c : ascii) : bool := in_rangeb 48 57 c.
(** [str.isdigit] also holds for the superscripts 2, 3 and 1. *)
Definition is_digit (c : ascii) : bool :=
  is_dec c || (code c =? 178)%N || (code c =? 179)%N || (code c =? 185)%N.
Definition is_space (c : ascii) : bool :=
  in_rangeb 9 13 c || in_rangeb 28 32 c || (code c =? 133)%N || (code c =? 160)%N.
Definition is_lower (c : ascii) : bool := in_rangeb 97 122 c.
Definition is_upper (c : ascii) : bool := in_rangeb 65 90 c.
Definition is_octal (c : ascii) : bool := in_rangeb 48 55 c.
Definition is_hex (c : ascii) : bool := is_dec c || in_rangeb 97 102 c.

Definition nl : ascii := ascii_of_N 10.
Definition cr : ascii := ascii_of_N 13.
Definition nul : ascii := ascii_of_N 0.
Definition sq : ascii := ascii_of_N 39.
Definition dq : ascii := ascii_of_N 34.

(** One-character strings for the characters string literals cannot hold. *)
Definition ch (c : ascii) : string := String c "".
Abbreviation NL := (ch nl).
Abbreviation SQ := (ch sq).
Abbreviation DQ := (ch dq).

Definition lower_char (c : ascii) : ascii :=
  if is_upper c || (in_rangeb 192 222 c && negb (code c =? 215)%N)
  then ascii_of_N (code c + 32) else c.

(** ** Traversals *)

Fixpoint str_forall (p : ascii → bool) (s : string) : bool :=
  match s with
  | "" => true
  | String c s => p c && str_forall p s
  end.

Fixpoint str_exists (p : ascii → bool) (s : string) : bool :=
  match s with
  | "" => false
  | String c s => p c || str_exists p s
  end.

(** ["c" in s] for a single character. *)
Definition has_char (c : ascii) (s : string) : bool := str_exists (Ascii.eqb c) s.

Fixpoint str_map (f : ascii → ascii) (s : string) : string :=
  match s with
  | "" => ""
  | String c s => String (f c) (str_map f s)
  end.

Definition lower (s : string) : string := str_map lower_char s.

(** [s.isdigit()] is false on the empty string. *)
Definition isdigit (s : string) : bool :=
  match s with "" => false | _ => str_forall is_digit s end.

Definition str_len (s : string) : nat := String.length s.
Definition nonempty (s : string) : bool := match s with "" => false | _ => true end.

Fixpoint startswith (p s : string) : bool :=
  match p, s with
  | "", _ => true
  | String a p, String b s => Ascii.eqb a b && startswith p s
  | _, "" => false
  end.

Fixpoint sdrop (n : nat) (s : string) : string :=
  match n, s with
  | 0, _ => s
  | S n, String _ s => sdrop n s
  | S _, "" => ""
  end.

Fixpoint stake (n : nat) (s : string) : string :=
  match n, s with
  | 0, _ | _, "" => ""
  | S n, String c s => String c (stake n s)
  end.

Definition endswith (suf s : string) : bool :=
  (str_len suf <=? str_len s)%nat &&
  String.eqb (sdrop (str_len s - str_len suf) s) suf.

(** [s[i:j]] for [0 <= i]. *)
Definition slice (i j : nat) (s : string) : string := stake (j - i) (sdrop i s).

(** [s.find(sub)]; [None] is Python's [-1]. *)
Fixpoint find (sub s : string) : option nat :=
  if startswith sub s then Some 0%nat
  else match s with
       | "" => None
       | String _ s' => S <$> find sub s'
       end.

(** [s.find(sub, i)] for a non-empty [sub]. *)
Definition find_from (sub s : string) (i : nat) : option nat :=
  Nat.add i <$> find sub (sdrop i s).

(** [sub in s] *)
Definition contains (sub s : string) : bool :=
  match find sub s with Some _ => true | None => false end.

(** [s.count(sub)] for a non-empty [sub]: occurrences that do not overlap,
    from the left.  [skip] counts the characters of the current occurrence
    still to be passed. *)
Fixpoint count_skip (sub : string) (skip : nat) (s : string) : nat :=
  match s with
  | "" => 0
  | String _ s' =>
      match skip with
      | S k => count_skip sub k s'
      | O => if startswith sub s
             then S (count_skip sub (str_len sub - 1) s')
             else count_skip sub 0 s'
      end
  end.
Definition count (sub s : string) : nat := count_skip sub 0 s.

(** [s.replace(old, new)] for a non-empty [old]. *)
Fixpoint replace_skip (old new : string) (skip : nat) (s : string) : string :=
  match s with
  | "" => ""
  | String c s' =>
      match skip with
      | S k => replace_skip old new k s'
      | O => if startswith old s
             then new +:+ replace_skip old new (str_len old - 1) s'
             else String c (replace_skip old new 0 s')
      end
  end.
Definition replace (old new s : string) : string := replace_skip old new 0 s.

(** [s.split(c)] for a one-character separator. *)
Fixpoint split_char (c : ascii) (s : string) : list string :=
  match s with
  | "" => [""]
  | String a s' =>
      if Ascii.eqb a c then "" :: split_char c s'
      else match split_char c s' with
           | [] => [String a ""]
           | w :: ws => String a w :: ws
           end
  end.

(** [s.partition(c)] for a one-character separator. *)
Fixpoint partition_char (c : ascii) (s : string) : string * string * string :=
  match s with
  | "" => ("", "", "")
  | String a s' =>
      if Ascii.eqb a c then ("", ch a, s')
      else let '(h, m, t) := partition_char c s' in (String a h, m, t)
  end.

(** [s.rsplit(sub, 1)[0]]: the text before the last occurrence. *)
Fixpoint rfind (sub s : string) : option nat :=
  match s with
  | "" => if startswith sub "" then Some 0 else None
  | String _ s' =>
      match rfind sub s' with
      | Some n => Some (S n)
      | None => if startswith sub s then Some 0 else None
      end
  end.
Definition rsplit1_head (sub s : string) : string :=
  match rfind sub s with Some n => stake n s | None => s end.

Fixpoint span (p : ascii → bool) (s : string) : string * string :=
  match s with
  | "" => ("", "")
  | String c s' => if p c then let '(h, t) := span p s' in (String c h, t) else ("", s)
  end.

Fixpoint lstrip_p (p : ascii → bool) (s : string) : string :=
  match s with
  | "" => ""
  | String c s' => if p c then lstrip_p p s' else s
  end.

Fixpoint rstrip_p (p : ascii → bool) (s : string) : string :=
  match s with
  | "" => ""
  | String c s' =>
      match rstrip_p p s' with
      | "" => if p c then "" else String c ""
      | r => String c r
      end
  end.

Definition strip (s : string) : string := rstrip_p is_space (lstrip_p is_space s).
Definition rstrip (s : string) : string := rstrip_p is_space s.
Definition rstrip_char (c : ascii) (s : string) : string := rstrip_p (Ascii.eqb c) s.
Definition lstrip_char (c : ascii) (s : string) : string := lstrip_p (Ascii.eqb c) s.
Definition strip_char (c : ascii) (s : string) : string := rstrip_char c (lstrip_char c s).

(** Line boundaries of [str.splitlines]. *)
Definition is_line_end (c : ascii) : bool :=
  in_rangeb 10 13 c || in_rangeb 28 30 c || (code c =? 133)%N.

(** [cur] is the current line, [after_cr] whether the last boundary was a
    carriage return, which a line feed completes. *)
Fixpoint splitlines_aux (cur : string) (started after_cr : bool) (s : string) : list string :=
  match s with
  | "" => if started then [cur] else []
  | String c s' =>
      if is_line_end c then
        if after_cr && Ascii.eqb c nl && negb started
        then splitlines_aux "" false false s'
        else cur :: splitlines_aux "" false (Ascii.eqb c cr) s'
      else splitlines_aux (cur +:+ ch c) true false s'
  end.
Definition splitlines (s : string) : list string := splitlines_aux "" false false s.

(** [s.split()]: the maximal runs of non-whitespace. *)
Fixpoint split_ws_aux (cur : string) (s : string) : list string :=
  match s with
  | "" => if nonempty cur then [cur] else []
  | String c s' =>
      if is_space c
      then (if nonempty cur then cons cur else id) (split_ws_aux "" s')
      else split_ws_aux (cur +:+ ch c) s'
  end.
Definition split_ws (s : string) : list string := split_ws_aux "" s.

Definition join (sep : string) (l : list string) : string := String.concat sep l.

(** ** Integers in text *)

Definition digit_val (c : ascii) : Z := Z.of_N (code c) - 48.

(** Digits of [int(s, base)], with the single underscores between digits
    that Python accepts.  [ok] says the last character was a digit. *)
Fixpoint int_digits (base : Z) (isd : ascii → bool) (acc : Z) (ok : bool) (s : string)
    : option Z :=
  match s with
  | "" => if ok then Some acc else None
  | String c s' =>
      if isd c then int_digits base isd (acc * base + digit_val c) true s'
      else if Ascii.eqb c "_" && ok then int_digits base isd acc false s'
      else None
  end.

Definition int_base (base : Z) (isd : ascii → bool) (s : string) : option Z :=
  match strip s with
  | String "-" r => Z.opp <$> int_digits base isd 0 false r
  | String "+" r => int_digits base isd 0 false r
  | r => int_digits base isd 0 false r
  end.

(** [int(s)]; [None] is [ValueError]. *)
Definition py_int (s : string) : option Z := int_base 10 is_dec s.
(** [int(s, 8)] on text without a [0o] prefix. *)
Definition py_int8 (s : string) : option Z := int_base 8 is_octal s.

(** [str(n)] *)
Definition str_of_Z (n : Z) : string := pretty n.

(** [format(n, "o")] and [format(n, "04o")] for [0 <= n]. *)
Fixpoint octal_aux (fuel : nat) (n : Z) (acc : string) : string :=
  match fuel with
  | O => acc
  | S fuel =>
      let acc := String (ascii_of_N (Z.to_N (48 + n mod 8))) acc in
      if n <? 8 then acc else octal_aux fuel (n / 8) acc
  end%Z.
Definition fmt_o (n : Z) : string := octal_aux (S (Z.to_nat (Z.log2 n))) n "".
Definition fmt_04o (n : Z) : string :=
  let s := fmt_o n in String.concat "" (replicate (4 - str_len s) "0") +:+ s.

(** ** shlex *)

(** The characters [shlex.quote] leaves bare: [\w@%+=:,./-] in ASCII. *)
Definition shlex_safe (c : ascii) : bool :=
  is_lower c || is_upper c || is_dec c ||
  existsb (Ascii.eqb c) ["_"; "@"; "%"; "+"; "="; ":"; ","; "."; "/"; "-"]%char.

Definition shlex_quote (s : string) : string :=
  if negb (nonempty s) then SQ +:+ SQ
  else if str_forall shlex_safe s then s
  else SQ +:+ replace SQ (SQ +:+ DQ +:+ SQ +:+ DQ +:+ SQ) s +:+ SQ.

Definition shlex_join (l : list string) : string := join " " (map shlex_quote l).

(** ** os.path (POSIX) *)

Definition slash : ascii := "/".

Definition path_join (a b : string) : string :=
  if startswith "/" b then b
  else if negb (nonempty a) || endswith "/" a then a +:+ b
  else a +:+ "/" +:+ b.

Definition path_join3 (a b c : string) : string := path_join (path_join a b) c.

(** The text up to and including the last ["/"], and the text after it. *)
Fixpoint path_split (s : string) : string * string :=
  match s with
  | "" => ("", "")
  | String c s' =>
      let '(h, t) := path_split s' in
      if nonempty h then (String c h, t)
      else if Ascii.eqb c slash then (ch c, t)
      else ("", String c t)
  end.

Definition dirname (s : string) : string :=
  let h := (path_split s).1 in
  if str_forall (Ascii.eqb slash) h then h else rstrip_char slash h.
Definition basename (s : string) : string := (path_split s).2.

(** ** re

    [$] without [MULTILINE] matches at the end of the text and also just
    before a newline that ends it.  For a pattern [^...$] whose classes do
    not contain the newline, [re.match] therefore decides the text without
    that last newline. *)
Fixpoint dollar_chomp (s : string) : string :=
  match s with
  | "" => ""
  | String c s' => if Ascii.eqb c nl && negb (nonempty s') then ""
                   else String c (dollar_chomp s')
  end.

(** ** repr

    [repr(s)] of a text without quotes, backslashes or control characters. *)
Definition py_repr (s : string) : string := SQ +:+ s +:+ SQ.

(** ** Lemmas *)

Lemma app_nil_r_str s : s +:+ "" = s.
Proof. induction s; simpl; congruence. Qed.

Lemma app_assoc_str s t u : (s +:+ t) +:+ u = s +:+ (t +:+ u).
Proof. induction s; simpl; congruence. Qed.

Lemma str_len_app s t : str_len (s +:+ t) = str_len s + str_len t.
Proof. induction s; simpl; auto. Qed.

Lemma app_inv_l_str s t u : s +:+ t = s +:+ u → t = u.
Proof. induction s; simpl; [done|]. intros [= ]; auto. Qed.

Lemma str_forall_app p s t : str_forall p (s +:+ t) = str_forall p s && str_forall p t.
Proof. induction s; simpl; [done|]. rewrite IHs. by rewrite andb_assoc. Qed.

Lemma str_exists_app p s t : str_exists p (s +:+ t) = str_exists p s || str_exists p t.
Proof. induction s; simpl; [done|]. rewrite IHs. by rewrite orb_assoc. Qed.

Lemma str_forall_impl (p q : ascii → bool) s :
  (∀ c, p c = true → q c = true) → str_forall p s = true → str_forall q s = true.
Proof.
  intros Hpq. induction s as [|c s IH]; simpl; [done|].
  intros [? ?]%andb_true_iff. apply andb_true_iff. auto.
Qed.

(** No character of [s] satisfies a property that all characters refute. *)
Lemma str_forall_not_exists (p q : ascii → bool) s :
  (∀ c, p c = true → q c = false) → str_forall p s = true → str_exists q s = false.
Proof.
  intros Hpq. induction s as [|c s IH]; simpl; [done|].
  intros [? ?]%andb_true_iff. apply orb_false_iff. auto.
Qed.

Lemma startswith_app p s : startswith p (p +:+ s) = true.
Proof. induction p; simpl; [by destruct s|]. by rewrite Ascii.eqb_refl. Qed.

Lemma startswith_spec p s : startswith p s = true ↔ ∃ t, s = p +:+ t.
Proof.
  split.
  - revert s; induction p as [|c p IH]; intros s; [by exists s|].
    destruct s as [|d s]; simpl; [done|].
    intros [->%Ascii.eqb_eq [t ->]%IH]%andb_true_iff. by exists t.
  - intros [t ->]. apply startswith_app.
Qed.

Lemma sdrop_app s t : sdrop (str_len s) (s +:+ t) = t.
Proof. induction s; simpl; auto. Qed.

Lemma sdrop_plus n m s : sdrop (n + m) s = sdrop m (sdrop n s).
Proof. revert s; induction n; intros [|c s]; simpl; auto. by destruct m. Qed.

Lemma stake_app s t : stake (str_len s) (s +:+ t) = s.
Proof. induction s; simpl; [by destruct t|]. by rewrite IHs. Qed.

(** [find] returns the position of an occurrence, and the first one. *)
Lemma find_Some sub s n :
  find sub s = Some n →
  ∃ t u, s = t +:+ sub +:+ u ∧ str_len t = n.
Proof.
  revert n; induction s as [|c s IH]; intros n; simpl.
  - destruct (startswith sub "") eqn:E; [|done]. intros [= <-].
    apply startswith_spec in E as [t Ht]. by exists "", t.
  - destruct (startswith sub (String c s)) eqn:E.
    + intros [= <-]. apply startswith_spec in E as [t Ht]. by exists "", t.
    + destruct (find sub s) as [m|] eqn:F; simpl; [|done]. intros [= <-].
      destruct (IH m eq_refl) as (t & u & -> & <-). by exists (String c t), u.
Qed.

Lemma find_None_app sub s t : find sub (s +:+ t) = None → find sub t = None.
Proof.
  induction s as [|c s IH]; simpl; [done|].
  destruct (startswith _ _); [done|]. destruct (find sub (s +:+ t)); [done|]. auto.
Qed.

Lemma find_None_occurs sub t u : find sub (t +:+ sub +:+ u) ≠ None.
Proof.
  intros H%find_None_app. destruct (sub +:+ u) as [|c s] eqn:E; simpl in H;
    rewrite <- E in H; rewrite startswith_app in H; done.
Qed.

Lemma contains_spec sub s : contains sub s = true ↔ ∃ t u, s = t +:+ sub +:+ u.
Proof.
  unfold contains. split.
  - destruct (find sub s) as [n|] eqn:E; [|done].
    intros _. destruct (find_Some _ _ _ E) as (t & u & ? & _); eauto.
  - intros (t & u & ->). destruct (find sub _) eqn:E; [done|].
    by apply find_None_occurs in E.
Qed.

Lemma contains_app_r sub s t : contains sub t = true → contains sub (s +:+ t) = true.
Proof.
  rewrite !contains_spec. intros (a & b & ->). exists (s +:+ a), b.
  by rewrite app_assoc_str.
Qed.

Lemma sdrop_suffix n s : ∃ t, s = t +:+ sdrop n s.
Proof.
  revert s; induction n as [|n IH]; intros s; [by exists ""|].
  destruct s as [|c s]; [by exists ""|]. simpl.
  destruct (IH s) as [t Ht]. exists (String c t). simpl. by rewrite <- Ht.
Qed.

Lemma dollar_chomp_app_nl s : str_forall (λ c, negb (Ascii.eqb c nl)) s = true →
  dollar_chomp (s +:+ NL) = s.
Proof.
  induction s as [|c s IH]; simpl; [done|].
  intros [Hc Hs]%andb_true_iff. apply negb_true_iff in Hc. rewrite Hc; simpl.
  by rewrite IH.
Qed.

Lemma dollar_chomp_id s : has_char nl s = false → dollar_chomp s = s.
Proof.
  induction s as [|c s IH]; simpl; [done|].
  intros [Hc Hs]%orb_false_iff. rewrite Ascii.eqb_sym in Hc. rewrite Hc; simpl.
  f_equal. by apply IH.
Qed.

Lemma has_char_app c s t : has_char c (s +:+ t) = has_char c s || has_char c t.
Proof. apply str_exists_app. Qed.

(** A separator that occurs in neither head splits a string one way only. *)
Lemma app_sep_inj c s s' t t' : has_char c s = false → has_char c s' = false →
  s +:+ String c t = s' +:+ String c t' → s = s' ∧ t = t'.
Proof.
  revert s'; induction s as [|a s IH]; intros [|b s']; simpl.
  - by intros _ _ [= ->].
  - intros _ [Hb _]%orb_false_iff [= <- _]. by rewrite Ascii.eqb_refl in Hb.
  - intros [Ha _]%orb_false_iff _ [= -> _]. by rewrite Ascii.eqb_refl in Ha.
  - intros [_ Hs]%orb_false_iff [_ Hs']%orb_false_iff [= <- H].
    destruct (IH s' Hs Hs' H) as [-> ->]. done.
Qed.

Lemma partition_char_app c s t : has_char c s = false →
  partition_char c (s +:+ String c t) = (s, ch c, t).
Proof.
  induction s as [|a s IH]; simpl; [by rewrite Ascii.eqb_refl|].
  intros [Ha Hs]%orb_false_iff. rewrite Ascii.eqb_sym in Ha.
  by rewrite Ha, IH.
Qed.

Lemma partition_char_none c s : has_char c s = false → partition_char c s = (s, "", "").
Proof.
  induction s as [|a s IH]; simpl; [done|].
  intros [Ha Hs]%orb_false_iff. rewrite Ascii.eqb_sym in Ha. by rewrite Ha, IH.
Qed.

(** Text order is a strict order. *)
Lemma str_compare_refl s : String.compare s s = Eq.
Proof.
  induction s as [|c s IH]; simpl; [done|]. unfold Ascii.compare. by rewrite N.compare_refl.
Qed.

Lemma str_compare_trans s t u :
  String.compare s t = Lt → String.compare t u = Lt → String.compare s u = Lt.
Proof.
  revert t u; induction s as [|a s IH]; intros [|b t] [|c u]; simpl; try done.
  unfold Ascii.compare.
  destruct (N.compare_spec (N_of_ascii a) (N_of_ascii b)) as [Hab|Hab|Hab]; [|..|done];
  destruct (N.compare_spec (N_of_ascii b) (N_of_ascii c)) as [Hbc|Hbc|Hbc]; try done.
  - rewrite Hab, Hbc, N.compare_refl. eauto.
  - intros _ _. rewrite Hab. by rewrite (proj2 (N.compare_lt_iff _ _)).
  - intros _ _. rewrite <- Hbc. by rewrite (proj2 (N.compare_lt_iff _ _)).
  - intros _ _. rewrite (proj2 (N.compare_lt_iff _ _)); [done|]. lia.
Qed.

Lemma str_compare_gt s t : String.compare s t = Gt ↔ String.compare t s = Lt.
Proof. rewrite String.compare_antisym. by destruct (String.compare t s). Qed.

(** ** Pairs by their text key, as [sorted(d.items())] takes them *)

Definition key_le {A} (x y : string * A) : Prop := String.compare x.1 y.1 ≠ Gt.
#[export] Instance key_le_dec {A} (x y : string * A) : Decision (key_le x y).
Proof. unfold key_le. solve_decision. Defined.

#[export] Instance key_le_total {A} : Total (@key_le A).
Proof.
  intros x y. unfold key_le. destruct (String.compare x.1 y.1) eqn:E; [by left..|].
  right. apply str_compare_gt in E. by rewrite E.
Qed.

#[export] Instance key_le_trans {A} : Transitive (@key_le A).
Proof.
  intros x y z. unfold key_le.
  destruct (String.compare x.1 y.1) eqn:E1; [|intros _|done].
  { apply String.compare_eq_iff in E1. by rewrite E1. }
  destruct (String.compare y.1 z.1) eqn:E2; [|intros _|done].
  { apply String.compare_eq_iff in E2. by rewrite <- E2, E1. }
  by rewrite (str_compare_trans _ _ _ E1 E2).
Qed.

Lemma fst_inj_in {A B} (l : list (A * B)) x y : NoDup (map fst l) → x ∈ l → y ∈ l → x.1 = y.1 → x = y.
Proof.
  induction l as [|z l IH]; [intros _ []%elem_of_nil|]. cbn [map]. intros [Hz Hl]%NoDup_cons.
  assert (∀ w, w ∈ l → w.1 ≠ z.1) as Hne by (intros w Hw E; apply Hz; rewrite <- E; by apply list_elem_of_fmap_2).
  intros [->|Hx]%elem_of_cons [->|Hy]%elem_of_cons E; [done| | |by apply IH]; exfalso.
  - by apply (Hne y).
  - by apply (Hne x).
Qed.

(** Sorting by distinct keys forgets the order. *)
Lemma sort_keys_unique {A} (l1 l2 : list (string * A)) : l1 ≡ₚ l2 → NoDup (map fst l1) →
  merge_sort key_le l1 = merge_sort key_le l2.
Proof.
  intros Hp Hn. apply (StronglySorted_unique_strong key_le).
  - intros x y Hx Hy Hxy Hyx. rewrite merge_sort_Permutation in Hx. rewrite merge_sort_Permutation, <- Hp in Hy.
    apply (fst_inj_in l1); [done..|]. unfold key_le in *.
    destruct (String.compare x.1 y.1) eqn:E; [by apply String.compare_eq_iff| |done].
    by apply str_compare_gt in E.
  - apply (StronglySorted_merge_sort key_le).
  - apply (StronglySorted_merge_sort key_le).
  - by rewrite !merge_sort_Permutation.
Qed.

(** *** Decimal text *)

Lemma pretty_N_char_dec x : is_dec (pretty_N_char x) = true.
Proof. by destruct x as [|[[[[|[]|]|[[]|[]|]|]|[[|[]|]|[[]|[]|]|]|]|[[[|[]|]|[[]|[]|]|]|[[|[]|]|[[]|[]|]|]|]|]]. Qed.

Lemma pretty_N_go_dec x s : str_forall is_dec s = true →
  str_forall is_dec (pretty_N_go x s) = true.
Proof.
  revert s. induction (N.lt_wf_0 x) as [x _ IH]; intros s Hs.
  destruct (decide (x = 0)%N) as [->|]; [by rewrite pretty_N_go_0|].
  rewrite pretty_N_go_step by lia. apply IH; [apply N.div_lt; lia|].
  simpl. by rewrite pretty_N_char_dec.
Qed.

Lemma str_of_Z_dec n : (0 <= n)%Z → str_forall is_dec (str_of_Z n) = true.
Proof.
  intros Hn. destruct n as [|p|p]; [done| |lia].
  unfold str_of_Z, pretty, pretty_Z, pretty, pretty_positive, pretty, pretty_N.
  case_decide; [done|]. by apply pretty_N_go_dec.
Qed.

Lemma dec_no_char c s : is_dec c = false → str_forall is_dec s = true → has_char c s = false.
Proof.
  intros Hc Hs. apply (str_forall_not_exists is_dec); [|done].
  intros a Ha. apply Ascii.eqb_neq. congruence.
Qed.

Lemma str_of_Z_no_char c n : (0 <= n)%Z → is_dec c = false → has_char c (str_of_Z n) = false.
Proof. intros. apply dec_no_char; [done|]. by apply str_of_Z_dec. Qed.

Lemma str_of_Z_inj n m : str_of_Z n = str_of_Z m → n = m.
Proof. apply (inj pretty). Qed.

Lemma rstrip_p_id p s : str_forall (λ c, negb (p c)) s = true → rstrip_p p s = s.
Proof.
  induction s as [|c s IH]; simpl; [done|].
  intros [Hc Hs]%andb_true_iff. apply negb_true_iff in Hc. rewrite IH by done.
  destruct s; [by rewrite Hc|done].
Qed.

Lemma strip_id s : str_forall (λ c, negb (is_space c)) s = true → strip s = s.
Proof.
  intros Hs. unfold strip. replace (lstrip_p is_space s) with s; [by apply rstrip_p_id|].
  destruct s as [|c s]; simpl in *; [done|].
  apply andb_true_iff in Hs as [Hc _]. apply negb_true_iff in Hc. by rewrite Hc.
Qed.

Lemma is_dec_not_space c : is_dec c = true → negb (is_space c) = true.
Proof.
  unfold is_dec, is_space, in_rangeb. rewrite andb_true_iff, !N.leb_le. intros [? ?].
  apply negb_true_iff.
  rewrite !orb_false_iff, !andb_false_iff, !N.leb_gt, !N.eqb_neq. lia.
Qed.

Lemma digit_val_pretty x : (x < 10)%N → digit_val (pretty_N_char x) = Z.of_N x.
Proof.
  intros Hx.
  assert (x = 0 ∨ x = 1 ∨ x = 2 ∨ x = 3 ∨ x = 4 ∨ x = 5 ∨ x = 6 ∨ x = 7 ∨ x = 8 ∨ x = 9)%N
    as H by lia. by destruct_or? H; subst.
Qed.

Lemma int_digits_pretty x : (0 < x)%N → ∃ k, (0 < k)%Z ∧ ∀ acc ok s,
  int_digits 10 is_dec acc ok (pretty_N_go x s) =
  int_digits 10 is_dec (acc * k + Z.of_N x) true s.
Proof.
  induction (N.lt_wf_0 x) as [x _ IH]; intros Hx.
  pose proof (N.div_mod x 10 ltac:(done)) as Hdm. pose proof (N.mod_lt x 10 ltac:(done)).
  destruct (decide (x / 10 = 0)%N) as [H0|H0].
  - exists 10%Z. split; [done|]. intros acc ok s.
    rewrite pretty_N_go_step, H0, pretty_N_go_0 by done. cbn [int_digits].
    rewrite pretty_N_char_dec, digit_val_pretty by done. f_equal. lia.
  - destruct (IH (x / 10)%N) as (k & Hk & Hgo); [apply N.div_lt; lia|lia|].
    exists (k * 10)%Z. split; [lia|]. intros acc ok s.
    rewrite pretty_N_go_step, Hgo by done. cbn [int_digits].
    rewrite pretty_N_char_dec, digit_val_pretty by done. f_equal. lia.
Qed.

(** [int(str(n)) == n] *)
Lemma py_int_str_of_Z n : (0 <= n)%Z → py_int (str_of_Z n) = Some n.
Proof.
  intros Hn. pose proof (str_of_Z_dec n Hn) as Hd.
  unfold py_int, int_base. rewrite strip_id
    by (eapply str_forall_impl; [apply is_dec_not_space|done]).
  assert (int_digits 10 is_dec 0 false (str_of_Z n) = Some n) as Hi.
  { destruct n as [|p|p]; [done| |lia].
    unfold str_of_Z, pretty, pretty_Z, pretty, pretty_positive, pretty, pretty_N.
    rewrite decide_False by done.
    destruct (int_digits_pretty (Npos p)) as (k & Hk & Hgo); [done|].
    rewrite Hgo. simpl. f_equal; lia. }
  destruct (str_of_Z n) as [|c s]; [done|].
  simpl in Hd. apply andb_true_iff in Hd as [Hc _].
  destruct c as [[] [] [] [] [] [] [] []]; try done.
Qed.

Lemma str_of_Z_nonempty n : nonempty (str_of_Z n) = true.
Proof.
  destruct (str_of_Z n) eqn:E; [|done].
  assert (str_of_Z n ≠ str_of_Z n) as []; [|done]. 
  destruct n as [|p|p]; unfold str_of_Z, pretty, pretty_Z in E; [done| |done].
  pose proof (py_int_str_of_Z (Zpos p) ltac:(lia)) as H.
  unfold str_of_Z, pretty, pretty_Z in H. by rewrite E in H.
Qed.

(** The longest prefix whose characters satisfy [p], and the rest. *)
Lemma span_app p s t : str_forall p s = true → (∀ c t', t = String c t' → p c = false) →
  span p (s +:+ t) = (s, t).
Proof.
  intros Hs Ht. induction s as [|c s IH]; simpl in *.
  - destruct t as [|c t]; [done|]. simpl. by rewrite (Ht c t).
  - apply andb_true_iff in Hs as [-> Hs]. by rewrite IH.
Qed.

Lemma span_spec p s : let '(h, t) := span p s in s = h +:+ t ∧ str_forall p h = true.
Proof.
  induction s as [|c s IH]; simpl; [done|].
  destruct (p c) eqn:Hc; [|done]. destruct (span p s) as [h t].
  destruct IH as [-> Hh]. simpl. by rewrite Hc.
Qed.

(** Lengths of concatenations. *)
Ltac len_lia := rewrite ?str_len_app; unfold str_len, ch; cbn [String.length]; lia.

#[export] Hint Rewrite app_nil_r_str app_assoc_str str_len_app sdrop_app stake_app
  startswith_app str_forall_app : sandbox_rw.

(** Lines. *)
Lemma startswith_line sub s t : has_char nl sub = false →
  startswith sub (s +:+ String nl t) = startswith sub s.
Proof.
  revert s; induction sub as [|c sub IH]; intros s; [by destruct s|].
  unfold has_char; cbn [str_exists]. intros [Hc Hs]%orb_false_iff.
  destruct s as [|c' s]; cbn [append startswith].
  - rewrite Ascii.eqb_sym, Hc. done.
  - by rewrite IH.
Qed.

Lemma split_char_none c s : has_char c s = false → split_char c s = [s].
Proof.
  unfold has_char. induction s as [|a s IH]; [done|]. cbn [str_exists split_char].
  intros [Ha Hs]%orb_false_iff. rewrite Ascii.eqb_sym, Ha. by rewrite (IH Hs).
Qed.

Lemma split_char_app c s t : has_char c s = false →
  split_char c (s +:+ String c t) = s :: split_char c t.
Proof.
  unfold has_char. induction s as [|a s IH]; cbn [String.append split_char str_exists].
  { by rewrite Ascii.eqb_refl. }
  intros [Ha Hs]%orb_false_iff. rewrite Ascii.eqb_sym, Ha. by rewrite (IH Hs).
Qed.

Lemma split_char_cat c s t : split_char c (s +:+ String c t) = (split_char c s ++ split_char c t)%list.
Proof.
  induction s as [|d s IH]; simpl.
  - rewrite Ascii.eqb_refl. by destruct (split_char c t).
  - destruct (Ascii.eqb d c); rewrite IH; [done|].
    destruct (split_char c s) eqn:E; [|done].
    exfalso. destruct s; simpl in E; [done|]. destruct (Ascii.eqb a c); [done|].
    by destruct (split_char c s).
Qed.
