(* ===== verification/HostConfig.v ===== *)
(** * core.host_config: host settings and subordinate-id resolution

    The per-host settings sourced from the setup-state marker, the daemon-owner
    resolution, the privilege-crossing prefixes, and the translation between
    in-container and host uids/gids over the /etc/subuid and /etc/subgid
    ranges. *)
From S2P Require Import Prelude PyStr.
From Stdlib Require Import Ascii String.
Open Scope string_scope.
Open Scope Z_scope.

(** ** The host the code observes *)

(** A [pwd] entry (the fields the code reads). *)
Record passwd := Passwd { pw_uid : Z; pw_gid : Z; pw_dir : string }.

(** What the functions read from the host: the passwd and group databases,
    the two subid files ([None] is an absent file), and the invoking user. *)
Record host_env := HostEnv {
  getpwnam : string → option passwd;
  getgrnam : string → option Z;
  getgrall : list Z;
  subuid_text : option string;
  subgid_text : option string;
  getuser : string;
  sandbox_ai_home : string
}.

Definition state_lock_path (h : host_env) : string :=
  path_join3 (sandbox_ai_home h) "state" "state.lock".
Definition ipam_lock_path (h : host_env) : string :=
  path_join3 (sandbox_ai_home h) "state" "ipam.json.lock".
Definition registry_lock_path (h : host_env) : string :=
  path_join3 (sandbox_ai_home h) "state" "instances.json.lock".

(** ** Execution modes and settings *)

Inductive DockerExecutionMode := SEPARATE_USER | OPERATOR_ROOTLESS.

#[export] Instance mode_eq_dec : EqDecision DockerExecutionMode.
Proof. solve_decision. Defined.

Definition mode_value (m : DockerExecutionMode) : string :=
  match m with
  | SEPARATE_USER => "separate-user"
  | OPERATOR_ROOTLESS => "operator-rootless"
  end.

(** [DockerExecutionMode(value)], a [ValueError] on any other text. *)
Definition mode_of_value (s : string) : res DockerExecutionMode :=
  if String.eqb s "separate-user" then Ok SEPARATE_USER
  else if String.eqb s "operator-rootless" then Ok OPERATOR_ROOTLESS
  else Err ValueError.

Definition DEFAULT_PROVISIONING_MODE : DockerExecutionMode := OPERATOR_ROOTLESS.

(** [USERNAME_RE.match(s) is not None] for [^[a-z_][a-z0-9_-]{0,31}$]. *)
Definition username_start (c : ascii) : bool := is_lower c || Ascii.eqb c "_".
Definition username_rest (c : ascii) : bool :=
  is_lower c || is_dec c || Ascii.eqb c "_" || Ascii.eqb c "-".
Definition USERNAME_RE (s : string) : bool :=
  match dollar_chomp s with
  | "" => false
  | String c r => username_start c && str_forall username_rest r && (str_len r <=? 31)%nat
  end.

Record HostSettings := MkHostSettings {
  docker_unprivileged_user : option string;
  docker_execution_mode : DockerExecutionMode;
  workspace_bridge_group : string
}.

#[export] Instance HostSettings_eq_dec : EqDecision HostSettings.
Proof. solve_decision. Defined.

(** The pydantic [mode="after"] validator. *)
Definition validate_docker_unprivileged_user (s : HostSettings) : res HostSettings :=
  match docker_unprivileged_user s with
  | None => match docker_execution_mode s with
            | SEPARATE_USER => Err ValueError
            | OPERATOR_ROOTLESS => Ok s
            end
  | Some u => if USERNAME_RE u then Ok s else Err ValueError
  end.

(** Model construction runs the validator. *)
Definition new_HostSettings (u : option string) (m : DockerExecutionMode) (g : string)
    : res HostSettings :=
  validate_docker_unprivileged_user (MkHostSettings u m g).

(** [HostConfig] has the single field [host]. *)
Record HostConfig := MkHostConfig { host : HostSettings }.

#[export] Instance HostConfig_eq_dec : EqDecision HostConfig.
Proof. solve_decision. Defined.

Definition minimal_host_config (user : string) (mode : DockerExecutionMode) : res HostConfig :=
  s ← new_HostSettings (Some user) mode "sb-ws"; Ok (MkHostConfig s).

Definition is_operator_rootless (c : HostConfig) : bool :=
  bool_decide (docker_execution_mode (host c) = OPERATOR_ROOTLESS).

Definition resolve_daemon_owner_settings (h : host_env) (s : HostSettings) : res string :=
  match docker_execution_mode s with
  | OPERATOR_ROOTLESS => Ok (getuser h)
  | SEPARATE_USER => match docker_unprivileged_user s with
                     | None => Err ValueError
                     | Some u => Ok u
                     end
  end.

Definition workspace_bridge_group_for (operator : string) (mode : DockerExecutionMode) : string :=
  match mode with
  | OPERATOR_ROOTLESS => "sb-ws-" +:+ operator
  | SEPARATE_USER => "sb-ws"
  end.

Definition resolve_daemon_owner (h : host_env) (c : HostConfig) : res string :=
  resolve_daemon_owner_settings h (host c).

(** ** Privilege-crossing prefixes *)

Definition machinectl_cmd (user : string) : list string :=
  ["sudo"; "machinectl"; "shell"; user +:+ "@.host"].
Definition pipe_cmd (user : string) : list string :=
  ["systemd-run"; "-q"; "--pipe"; "--uid=" +:+ user].
Definition sudo_pipe_cmd (user : string) : list string := "sudo" :: pipe_cmd user.
Definition sudo_as_operator (operator : string) : list string := ["sudo"; "-u"; operator].

(** ** Subid files *)

(** One line of a subid file: [None] when the loop [continue]s. *)
Definition parse_subid_line (raw_line : string) : option (string * Z * Z) :=
  let line := strip raw_line in
  if negb (nonempty line) || startswith "#" line then None
  else match split_char ":" line with
       | [user; start_s; count_s] =>
           match py_int start_s, py_int count_s with
           | Some start, Some count => Some (user, start, count)
           | _, _ => None
           end
       | _ => None
       end.

Definition parse_subid_file (text : option string) (host_user : string) : list (Z * Z) :=
  match text with
  | None => []
  | Some content =>
      omap (λ raw_line,
        '(user, start, count) ← parse_subid_line raw_line;
        if String.eqb user host_user then Some (start, count) else None)
      (splitlines content)
  end.

Definition parse_subuid_for_user (h : host_env) (u : string) : list (Z * Z) :=
  parse_subid_file (subuid_text h) u.
Definition parse_subgid_for_user (h : host_env) (u : string) : list (Z * Z) :=
  parse_subid_file (subgid_text h) u.

(** ** In-container to host, and back *)

(** The loop [for first, count in ranges] of the forward maps. *)
Fixpoint forward_walk (ranges : list (Z * Z)) (remaining : Z) : option Z :=
  match ranges with
  | [] => None
  | (first, count) :: ranges =>
      if remaining <=? count then Some (first + remaining - 1)
      else forward_walk ranges (remaining - count)
  end.

Definition host_id_for_in_container (h : host_env) (N : Z) (host_user : string) : res Z :=
  if N =? 0 then
    match getpwnam h host_user with
    | Some pw => Ok (pw_uid pw)
    | None => Err NoSubuidRangeError
    end
  else if N <? 0 then Err SubuidOutOfRangeError
  else match parse_subuid_for_user h host_user with
       | [] => Err NoSubuidRangeError
       | ranges => match forward_walk ranges N with
                   | Some id => Ok id
                   | None => Err SubuidOutOfRangeError
                   end
       end.

Definition host_gid_for_in_container (h : host_env) (N : Z) (host_user : string) : res Z :=
  if N =? 0 then
    match getpwnam h host_user with
    | Some pw => Ok (pw_gid pw)
    | None => Err NoSubgidRangeError
    end
  else if N <? 0 then Err SubgidOutOfRangeError
  else match parse_subgid_for_user h host_user with
       | [] => Err NoSubgidRangeError
       | ranges => match forward_walk ranges N with
                   | Some id => Ok id
                   | None => Err SubgidOutOfRangeError
                   end
       end.

(** The loop of the inverse maps; [accumulated] sums the earlier counts. *)
Fixpoint inverse_walk (ranges : list (Z * Z)) (accumulated host_id : Z) : option Z :=
  match ranges with
  | [] => None
  | (first, count) :: ranges =>
      if (first <=? host_id) && (host_id <? first + count)
      then Some (accumulated + (host_id - first) + 1)
      else inverse_walk ranges (accumulated + count) host_id
  end.

Definition in_container_gid_for_host_gid (h : host_env) (host_gid : Z) (host_user : string)
    : res Z :=
  match parse_subgid_for_user h host_user with
  | [] => Err NoSubgidRangeError
  | ranges => match inverse_walk ranges 0 host_gid with
              | Some n => Ok n
              | None => Err SubgidOutOfRangeError
              end
  end.

Definition in_container_uid_for_host_uid (h : host_env) (host_uid : Z) (host_user : string)
    : res Z :=
  match parse_subuid_for_user h host_user with
  | [] => Err NoSubuidRangeError
  | ranges => match inverse_walk ranges 0 host_uid with
              | Some n => Ok n
              | None => Err SubuidOutOfRangeError
              end
  end.

(** ** The workspace bridge group *)

Definition workspace_bridge_gid (h : host_env) (s : HostSettings) : res Z :=
  match getgrnam h (workspace_bridge_group s) with
  | None => Err WorkspaceBridgeGroupMissingError
  | Some gid =>
      owner ← resolve_daemon_owner_settings h s;
      _ ← in_container_gid_for_host_gid h gid owner;
      Ok gid
  end.

(** The inner loop [for offset in range(count)], from [offset] on. *)
Fixpoint scan_range (used : list Z) (first accumulated in_container_min offset : Z) (n : nat)
    : option Z :=
  match n with
  | O => None
  | S n =>
      let in_container := accumulated + offset + 1 in
      let host_gid := first + offset in
      if in_container <? in_container_min
      then scan_range used first accumulated in_container_min (offset + 1) n
      else if bool_decide (host_gid ∈ used)
      then scan_range used first accumulated in_container_min (offset + 1) n
      else Some host_gid
  end.

Fixpoint scan_ranges (used : list Z) (ranges : list (Z * Z)) (accumulated in_container_min : Z)
    : option Z :=
  match ranges with
  | [] => None
  | (first, count) :: ranges =>
      match scan_range used first accumulated in_container_min 0 (Z.to_nat count) with
      | Some gid => Some gid
      | None => scan_ranges used ranges (accumulated + count) in_container_min
      end
  end.

Definition autodetect_workspace_bridge_gid_recommendation
    (h : host_env) (host_user : string) (in_container_min : Z) : res Z :=
  match parse_subgid_for_user h host_user with
  | [] => Err NoSubgidRangeError
  | ranges => match scan_ranges (getgrall h) ranges 0 in_container_min with
              | Some gid => Ok gid
              | None => Err NoFreeGidInSubgidRangeError
              end
  end.

(** ** Well-formed subid ranges *)

(** Ranges with non-negative sizes, no two of which share an id: what
    [usermod --add-subuids] maintains. *)
Definition range_apart (r r' : Z * Z) : Prop := r.1 + r.2 <= r'.1 ∨ r'.1 + r'.2 <= r.1.

Fixpoint ranges_ok (l : list (Z * Z)) : Prop :=
  match l with
  | [] => True
  | r :: l => 0 <= r.2 ∧ Forall (range_apart r) l ∧ ranges_ok l
  end.

#[export] Instance range_apart_dec r r' : Decision (range_apart r r').
Proof. unfold range_apart. apply _. Defined.
#[export] Instance ranges_ok_dec l : Decision (ranges_ok l).
Proof. induction l as [|r l IH]; simpl; apply _. Defined.

Lemma forward_walk_in l n id :
  ranges_ok l → 1 <= n → forward_walk l n = Some id →
  Exists (λ r, r.1 <= id < r.1 + r.2) l.
Proof.
  revert n; induction l as [|[f c] l IH]; intros n; simpl; [done|].
  intros (Hc & _ & Hl) Hn. case_match eqn:E; breflect.
  - intros [= <-]. left; simpl; lia.
  - intros H. right. apply (IH (n - c)); auto; lia.
Qed.

Lemma forward_then_inverse l acc n id :
  ranges_ok l → 1 <= n → forward_walk l n = Some id →
  inverse_walk l acc id = Some (acc + n).
Proof.
  revert acc n; induction l as [|[f c] l IH]; intros acc n; simpl; [done|].
  intros (Hc & Ha & Hl) Hn. case_match eqn:E; breflect.
  - intros [= <-]. case_match eqn:E2; [f_equal; lia|].
    apply andb_false_iff in E2 as [?|?]; breflect; lia.
  - intros H. pose proof (forward_walk_in l (n - c) id Hl ltac:(lia) H) as Hin.
    case_match eqn:E2; breflect.
    + exfalso. apply Exists_exists in Hin as (r & Hr & Hid).
      rewrite Forall_forall in Ha. specialize (Ha r Hr).
      unfold range_apart in Ha; simpl in *; lia.
    + rewrite (IH (acc + c) (n - c)); [f_equal|done| |done]; lia.
Qed.

Lemma inverse_then_forward l acc m id :
  Forall (λ r, 0 <= r.2) l → inverse_walk l acc id = Some m →
  1 <= m - acc ∧ forward_walk l (m - acc) = Some id.
Proof.
  revert acc m; induction l as [|[f c] l IH]; intros acc m; simpl; [done|].
  intros [Hc Hl]%Forall_cons; simpl in *.
  case_match eqn:E; breflect.
  - intros [= <-]. split; [lia|].
    destruct (Z.leb_spec (acc + (id - f) + 1 - acc) c); [f_equal|]; lia.
  - intros H. destruct (IH (acc + c) m Hl H) as [H1 H2]. split; [lia|].
    destruct (Z.leb_spec (m - acc) c); [lia|].
    by replace (m - acc - c) with (m - (acc + c)) by lia.
Qed.

Lemma ranges_ok_nonneg l : ranges_ok l → Forall (λ r, 0 <= r.2) l.
Proof. induction l as [|r l IH]; simpl; [done|]. intros (? & ? & ?); auto. Qed.

#[export] Hint Resolve ranges_ok_nonneg : sandbox.

(** The two loops are inverse to each other on well-formed ranges. *)
Lemma walk_iff l n id :
  ranges_ok l → 1 <= n → forward_walk l n = Some id ↔ inverse_walk l 0 id = Some n.
Proof.
  intros Hl Hn. split.
  - intros H. by rewrite (forward_then_inverse l 0 n id).
  - intros H. destruct (inverse_then_forward l 0 n id) as [_ H2]; auto with sandbox.
    by rewrite Z.sub_0_r in H2.
Qed.

Lemma host_gid_walk h N u g : 1 <= N →
  host_gid_for_in_container h N u = Ok g ↔ forward_walk (parse_subgid_for_user h u) N = Some g.
Proof.
  intros HN. unfold host_gid_for_in_container.
  destruct (Z.eqb_spec N 0); [lia|]. destruct (Z.ltb_spec N 0); [lia|].
  destruct (parse_subgid_for_user h u) as [|r l]; [done|].
  destruct (forward_walk (r :: l) N); naive_solver.
Qed.

Lemma host_uid_walk h N u i : 1 <= N →
  host_id_for_in_container h N u = Ok i ↔ forward_walk (parse_subuid_for_user h u) N = Some i.
Proof.
  intros HN. unfold host_id_for_in_container.
  destruct (Z.eqb_spec N 0); [lia|]. destruct (Z.ltb_spec N 0); [lia|].
  destruct (parse_subuid_for_user h u) as [|r l]; [done|].
  destruct (forward_walk (r :: l) N); naive_solver.
Qed.

Lemma container_gid_walk h g u n :
  in_container_gid_for_host_gid h g u = Ok n
    ↔ inverse_walk (parse_subgid_for_user h u) 0 g = Some n.
Proof.
  unfold in_container_gid_for_host_gid.
  destruct (parse_subgid_for_user h u) as [|r l]; [done|].
  destruct (inverse_walk (r :: l) 0 g); naive_solver.
Qed.

Lemma container_uid_walk h i u n :
  in_container_uid_for_host_uid h i u = Ok n
    ↔ inverse_walk (parse_subuid_for_user h u) 0 i = Some n.
Proof.
  unfold in_container_uid_for_host_uid.
  destruct (parse_subuid_for_user h u) as [|r l]; [done|].
  destruct (inverse_walk (r :: l) 0 i); naive_solver.
Qed.

(** ** The autodetection scan *)

Lemma scan_range_spec used f acc m off n :
  match scan_range used f acc m off n with
  | Some g => ∃ k, off <= k < off + Z.of_nat n ∧ g = f + k ∧ m <= acc + k + 1 ∧ g ∉ used ∧
                   (∀ j, off <= j < k → m <= acc + j + 1 → f + j ∈ used)
  | None => ∀ j, off <= j < off + Z.of_nat n → m <= acc + j + 1 → f + j ∈ used
  end.
Proof.
  revert off; induction n as [|n IH]; intros off; cbn [scan_range]; [lia|].
  specialize (IH (off + 1)).
  destruct (Z.ltb_spec (acc + off + 1) m) as [Hlt|Hge];
    [|case_bool_decide as Hu; [|exists off; repeat split; auto; lia]];
    destruct (scan_range used f acc m (off + 1) n) as [g|].
  all: try (destruct IH as (k & ? & ? & ? & ? & Hj); exists k; repeat split; auto; try lia).
  all: intros j Hj' Hm; destruct (decide (j = off)) as [->|];
    first [done | lia | apply Hj; lia | apply IH; lia].
Qed.

Lemma scan_ranges_spec used l acc m :
  ranges_ok l →
  match scan_ranges used l acc m with
  | Some g => g ∉ used ∧ ∃ n, 1 <= n ∧ m <= acc + n ∧ forward_walk l n = Some g ∧
                (∀ n' g', 1 <= n' → m <= acc + n' → n' < n →
                          forward_walk l n' = Some g' → g' ∈ used)
  | None => ∀ n g, 1 <= n → m <= acc + n → forward_walk l n = Some g → g ∈ used
  end.
Proof.
  revert acc; induction l as [|[f c] l IH]; intros acc; cbn [scan_ranges forward_walk ranges_ok];
    [done|].
  intros (Hc & _ & Hl); cbn [fst snd] in *.
  pose proof (scan_range_spec used f acc m 0 (Z.to_nat c)) as Hs.
  destruct (scan_range used f acc m 0 (Z.to_nat c)) as [g|].
  - destruct Hs as (k & Hk & -> & Hm & Hu & Hmin). split; [done|].
    exists (k + 1). split_and!; [lia|lia| |].
    + destruct (Z.leb_spec (k + 1) c); [f_equal|]; lia.
    + intros n' g' ???. destruct (Z.leb_spec n' c); [|lia]. intros [= <-].
      replace (f + n' - 1) with (f + (n' - 1)) by lia. apply Hmin; lia.
  - assert (Hfst : ∀ n g, 1 <= n → m <= acc + n → n <= c → Some (f + n - 1) = Some g → g ∈ used).
    { intros n g ??? [= <-]. replace (f + n - 1) with (f + (n - 1)) by lia. apply Hs; lia. }
    specialize (IH (acc + c) Hl). destruct (scan_ranges used l (acc + c) m) as [g|].
    + destruct IH as (Hu & n & ? & ? & Hf & Hmin). split; [done|].
      exists (n + c). split_and!; [lia|lia| |].
      * destruct (Z.leb_spec (n + c) c); [lia|]. by replace (n + c - c) with n by lia.
      * intros n' g' ???. destruct (Z.leb_spec n' c); [by eauto|].
        apply Hmin; lia.
    + intros n g ??. destruct (Z.leb_spec n c); [by eauto|]. apply IH; lia.
Qed.

(** ** Properties *)

(** C19: On well-formed subuid and subgid ranges the forward map (in-container
    id to host id) and the inverse map of [core.host_config] are mutually
    inverse for every in-container id from 1 on: either direction succeeds with
    the value the other one takes back. *)
Theorem subid_maps_inverse (h : host_env) (u : string) :
  ranges_ok (parse_subuid_for_user h u) → ranges_ok (parse_subgid_for_user h u) →
  ∀ N id, 1 <= N →
    (host_id_for_in_container h N u = Ok id ↔ in_container_uid_for_host_uid h id u = Ok N) ∧
    (host_gid_for_in_container h N u = Ok id ↔ in_container_gid_for_host_gid h id u = Ok N).
Proof.
  intros Hu Hg N id HN.
  rewrite host_uid_walk, host_gid_walk, container_uid_walk, container_gid_walk by done.
  split; by apply walk_iff.
Qed.

(** [autodetect_workspace_bridge_gid_recommendation] picks, on well-formed
    ranges, a gid no group uses whose in-container gid is the least one that
    is at least [in_container_min] and free; it fails with
    [NoFreeGidInSubgidRangeError] exactly when every such gid is taken, and
    with [NoSubgidRangeError] when the user has no range. *)
Theorem autodetect_spec (h : host_env) (u : string) (m : Z) :
  ranges_ok (parse_subgid_for_user h u) →
  match autodetect_workspace_bridge_gid_recommendation h u m with
  | Ok g =>
      g ∉ getgrall h ∧
      ∃ n, 1 <= n ∧ m <= n ∧ host_gid_for_in_container h n u = Ok g ∧
        (∀ n' g', 1 <= n' → m <= n' → n' < n →
           host_gid_for_in_container h n' u = Ok g' → g' ∈ getgrall h)
  | Err NoFreeGidInSubgidRangeError =>
      ∀ n g, 1 <= n → m <= n → host_gid_for_in_container h n u = Ok g → g ∈ getgrall h
  | Err e => e = NoSubgidRangeError ∧ parse_subgid_for_user h u = []
  end.
Proof.
  intros Hok. unfold autodetect_workspace_bridge_gid_recommendation.
  pose proof (scan_ranges_spec (getgrall h) (parse_subgid_for_user h u) 0 m Hok) as Hs.
  destruct (parse_subgid_for_user h u) as [|r l] eqn:E; [done|].
  destruct (scan_ranges (getgrall h) (r :: l) 0 m) as [g|].
  - destruct Hs as (Hg & n & ? & ? & Hf & Hmin). split; [done|]. exists n.
    split_and!; [done|lia|by rewrite host_gid_walk, E|].
    intros n' g' ???. rewrite host_gid_walk, E by done. apply Hmin; lia.
  - intros n g ??. rewrite host_gid_walk, E by done. apply Hs; lia.
Qed.

(** A constructed [HostSettings] in separate-user mode names a daemon user
    accepted by [USERNAME_RE], so the owner resolution of either mode never
    raises: the dedicated user in separate-user mode and the invoking user in
    operator-rootless mode, whatever [docker_unprivileged_user] holds. *)
Theorem daemon_owner_resolves (h : host_env) u m g (s : HostSettings) :
  new_HostSettings u m g = Ok s →
  match docker_execution_mode s with
  | OPERATOR_ROOTLESS => resolve_daemon_owner h (MkHostConfig s) = Ok (getuser h)
  | SEPARATE_USER => ∃ user, u = Some user ∧ USERNAME_RE user = true ∧
                             resolve_daemon_owner h (MkHostConfig s) = Ok user
  end.
Proof.
  unfold new_HostSettings, validate_docker_unprivileged_user,
    resolve_daemon_owner, resolve_daemon_owner_settings; simpl.
  destruct u as [user|]; simpl.
  - destruct (USERNAME_RE user) eqn:E; [|done]. intros [= <-]; simpl.
    destruct m; [by exists user|done].
  - destruct m; [done|]. by intros [= <-].
Qed.

(** ** Findings *)

(** [USERNAME_RE] ends in [$], which also matches before a final newline, so
    the grammar accepts a user name that ends in one. *)
Example username_accepts_final_newline :
  USERNAME_RE ("sandbox" +:+ NL) = true ∧
  new_HostSettings (Some ("sandbox" +:+ NL)) SEPARATE_USER "sb-ws" =
    Ok (MkHostSettings (Some ("sandbox" +:+ NL)) SEPARATE_USER "sb-ws").
Proof. split; vm_compute; reflexivity. Qed.

(** ** Witnesses *)

Definition demo_host : host_env := HostEnv
  (λ u, if String.eqb u "sandbox" then Some (Passwd 1001 1001 "/home/sandbox") else None)
  (λ g, if String.eqb g "sb-ws" then Some 167536 else None)
  [100; 10; 166536]
  (Some ("# subuid" +:+ NL +:+ "sandbox:165536:65536" +:+ NL))
  (Some ("sandbox:165536:1001" +:+ NL +:+ "alice:100000:65536" +:+ NL
         +:+ "sandbox:300000:10" +:+ NL))
  "alice" "/home/alice/.sandbox-ai".

Lemma demo_ranges_ok :
  ranges_ok (parse_subuid_for_user demo_host "sandbox") ∧
  ranges_ok (parse_subgid_for_user demo_host "sandbox").
Proof.
  split; (match goal with |- ?P => refine (bool_decide_unpack P _) end);
    vm_compute; exact I.
Defined.

Lemma subid_maps_inverse_witness :
  host_id_for_in_container demo_host 1000 "sandbox" = Ok 166535 ∧
  in_container_uid_for_host_uid demo_host 166535 "sandbox" = Ok 1000.
Proof.
  assert (H : host_id_for_in_container demo_host 1000 "sandbox" = Ok 166535)
    by (vm_compute; reflexivity).
  split; [exact H|].
  apply (proj1 (subid_maps_inverse demo_host "sandbox"
                  (proj1 demo_ranges_ok) (proj2 demo_ranges_ok) 1000 166535 ltac:(lia))).
  exact H.
Defined.

Lemma autodetect_spec_witness :
  autodetect_workspace_bridge_gid_recommendation demo_host "sandbox" 1000 = Ok 166535 ∧
  166535 ∉ getgrall demo_host.
Proof.
  pose proof (autodetect_spec demo_host "sandbox" 1000 (proj2 demo_ranges_ok)) as H.
  assert (E : autodetect_workspace_bridge_gid_recommendation demo_host "sandbox" 1000
              = Ok 166535) by (vm_compute; reflexivity).
  split; [exact E|]. rewrite E in H. exact (proj1 H).
Defined.

Lemma daemon_owner_resolves_witness :
  resolve_daemon_owner demo_host
    (MkHostConfig (MkHostSettings (Some "sandbox") OPERATOR_ROOTLESS "sb-ws")) = Ok "alice".
Proof.
  exact (daemon_owner_resolves demo_host (Some "sandbox") OPERATOR_ROOTLESS "sb-ws"
           (MkHostSettings (Some "sandbox") OPERATOR_ROOTLESS "sb-ws") eq_refl).
Defined.
