(* ===== verification/Subid.v ===== *)
(** * core.setup.subid: the whole-file subid reader and the free-block picker *)
From S2P Require Import Prelude PyStr HostConfig.
From Stdlib Require Import String.
Open Scope Z_scope.

Definition SUBID_BASE : Z := 100000.
Definition SUBID_RANGE_SIZE : Z := 65536.
Definition MIN_SUBID_RANGE : Z := SUBID_RANGE_SIZE.

Definition ranges_overlap (a_start a_size b_start b_size : Z) : bool :=
  (a_start <? b_start + b_size) && (b_start <? a_start + a_size).

(** Every user's entry of one file, in file order. *)
Definition all_users_ranges_by_user (text : option string) : list (string * Z * Z) :=
  match text with
  | None => []
  | Some content => omap parse_subid_line (splitlines content)
  end.

Definition read_all_subid_ranges_by_user (h : host_env) : list (string * Z * Z) :=
  all_users_ranges_by_user (subuid_text h) ++ all_users_ranges_by_user (subgid_text h).

Definition read_all_subid_ranges (h : host_env) : list (Z * Z) :=
  map (λ '(_, start, count), (start, count)) (read_all_subid_ranges_by_user h).

Definition block_start (k : Z) : Z := SUBID_BASE + k * SUBID_RANGE_SIZE.

(** [any(ranges_overlap(start, SUBID_RANGE_SIZE, o_start, o_size) for ...)] *)
Definition block_taken (occupied : list (Z * Z)) (start : Z) : bool :=
  existsb (λ '(o_start, o_size), ranges_overlap start SUBID_RANGE_SIZE o_start o_size) occupied.

(** The [while True] loop, bounded by [fuel] iterations. *)
Fixpoint pick_loop (fuel : nat) (k : Z) (occupied : list (Z * Z)) : option (Z * Z) :=
  match fuel with
  | O => None
  | S fuel =>
      let start := block_start k in
      if negb (block_taken occupied start) then Some (start, SUBID_RANGE_SIZE)
      else pick_loop fuel (k + 1) occupied
  end.

(** No block at or beyond the end of every occupied range is taken, so this
    many iterations are enough ([pick_free_subid_block_spec]). *)
Definition occupied_end (occupied : list (Z * Z)) : Z :=
  foldr (λ r, Z.max (r.1 + r.2)) SUBID_BASE occupied.
Definition pick_fuel (occupied : list (Z * Z)) : nat :=
  S (Z.to_nat ((occupied_end occupied - SUBID_BASE) / SUBID_RANGE_SIZE + 1)).

Definition pick_free_subid_block (h : host_env) (existing : option (list (Z * Z)))
    : option (Z * Z) :=
  let occupied := match existing with None => read_all_subid_ranges h | Some l => l end in
  pick_loop (pick_fuel occupied) 0 occupied.

(** ** Lemmas *)

Lemma ranges_overlap_apart a na b nb :
  ranges_overlap a na b nb = false ↔ range_apart (a, na) (b, nb).
Proof.
  unfold ranges_overlap, range_apart; simpl.
  destruct (Z.ltb_spec a (b + nb)), (Z.ltb_spec b (a + na)); simpl; split; (done || lia).
Qed.

Lemma block_taken_false occupied start :
  block_taken occupied start = false ↔
  Forall (range_apart (start, SUBID_RANGE_SIZE)) occupied.
Proof.
  induction occupied as [|[f c] l IH]; simpl; [split; auto|].
  rewrite orb_false_iff, Forall_cons, <- IH, ranges_overlap_apart. done.
Qed.

Lemma occupied_end_ge occupied r : r ∈ occupied → r.1 + r.2 <= occupied_end occupied.
Proof.
  induction occupied as [|r' l IH]; simpl; [by intros ?%elem_of_nil|].
  intros [->|H]%elem_of_cons; [|specialize (IH H)]; lia.
Qed.

Lemma block_beyond_end occupied k :
  occupied_end occupied <= block_start k → block_taken occupied (block_start k) = false.
Proof.
  intros Hk. apply block_taken_false, Forall_forall. intros r Hr%occupied_end_ge.
  right; simpl; lia.
Qed.

Lemma pick_loop_spec occupied fuel k0 k :
  k0 <= k < k0 + Z.of_nat fuel → block_taken occupied (block_start k) = false →
  ∃ j, k0 <= j <= k ∧ pick_loop fuel k0 occupied = Some (block_start j, SUBID_RANGE_SIZE) ∧
       block_taken occupied (block_start j) = false ∧
       (∀ i, k0 <= i < j → block_taken occupied (block_start i) = true).
Proof.
  revert k0; induction fuel as [|fuel IH]; intros k0 Hk Hfree; [lia|]. cbn [pick_loop].
  destruct (block_taken occupied (block_start k0)) eqn:E; simpl.
  - assert (k ≠ k0) by congruence. destruct (IH (k0 + 1)) as (j & ? & Hp & ? & Hmin); [lia|done|].
    exists j. split_and!; [lia|lia|done|done|]. intros i Hi.
    destruct (decide (i = k0)) as [->|]; [done|apply Hmin; lia].
  - exists k0. split_and!; [lia|lia|done|done|lia].
Qed.

Lemma pick_fuel_enough occupied :
  ∃ k, 0 <= k < Z.of_nat (pick_fuel occupied) ∧ occupied_end occupied <= block_start k.
Proof.
  assert (Hb : SUBID_BASE <= occupied_end occupied).
  { unfold occupied_end. induction occupied as [|r l IH]; simpl; [done|].
    etransitivity; [exact IH|]. apply Z.le_max_r. }
  exists ((occupied_end occupied - SUBID_BASE) / SUBID_RANGE_SIZE + 1).
  unfold pick_fuel, block_start, SUBID_RANGE_SIZE in *.
  pose proof (Z.div_mod (occupied_end occupied - SUBID_BASE) 65536 ltac:(lia)).
  pose proof (Z.mod_pos_bound (occupied_end occupied - SUBID_BASE) 65536 ltac:(lia)).
  pose proof (Z.div_pos (occupied_end occupied - SUBID_BASE) 65536 ltac:(lia) ltac:(lia)).
  lia.
Qed.

(** ** Properties *)

(** The picker always terminates with a block: the one of least index
    [k] whose range [SUBID_BASE + k * SUBID_RANGE_SIZE] overlaps no occupied
    range.  Adding the block to well-formed ranges keeps them well formed, so
    blocks handed out one after the other never overlap. *)
Theorem pick_free_subid_block_spec (h : host_env) (existing : option (list (Z * Z))) :
  let occupied := match existing with None => read_all_subid_ranges h | Some l => l end in
  ∃ k, 0 <= k ∧
    pick_free_subid_block h existing = Some (block_start k, SUBID_RANGE_SIZE) ∧
    Forall (range_apart (block_start k, SUBID_RANGE_SIZE)) occupied ∧
    (∀ i, 0 <= i < k → block_taken occupied (block_start i) = true) ∧
    (ranges_ok occupied → ranges_ok ((block_start k, SUBID_RANGE_SIZE) :: occupied)).
Proof.
  intros occupied. destruct (pick_fuel_enough occupied) as (k & Hk & Hend).
  destruct (pick_loop_spec occupied (pick_fuel occupied) 0 k) as (j & ? & Hp & Hfree & Hmin);
    [lia|by apply block_beyond_end|].
  apply block_taken_false in Hfree.
  exists j. split_and!; [lia|exact Hp|done|exact Hmin|].
  intros Hok. simpl. split_and!; [done|done|done].
Qed.
