(* ===== verification/LockedFile.v ===== *)
(** * Files updated under a lock by interleaved processes

    The IPAM ledger and the instance registry follow one pattern: take an
    exclusive [flock] on a separate lock file, read the whole data file, compute
    the result and the new contents, rewrite the file with [open(path, "w")],
    unlock.  This file models the processes that do so, one step per system
    call, and proves once that every schedule is equivalent to a sequence of
    atomic operations.  A component instantiates [LockedStore]. *)
From S2P Require Import Prelude.

(** [ls_truncated] is the file between [open(path, "w")] and the write;
    [ls_decide] is what the code computes between reading and saving: the
    result, and the data to save if it saves. *)
Class LockedStore (op R D F : Type) := {
  ls_load : F → D;
  ls_store : D → F;
  ls_truncated : F;
  ls_decide : op → D → R * option D;
  ls_op_ok : op → Prop;
  ls_ok : D → Prop;
  ls_load_store d : ls_ok d → ls_load (ls_store d) = d;
  ls_decide_ok o d r d' : ls_ok d → ls_op_ok o → ls_decide o d = (r, Some d') → ls_ok d'
}.

Section locked_file.
Context {op R D F : Type} `{LS : LockedStore op R D F} `{!EqDecision R}.
Implicit Types (o : op) (r : R) (data : D) (f : F).

Inductive phase :=
  | PIdle
  | PLocked (o : op)
  | PLoaded (o : op) (data : D)
  | PTruncated (o : op) (data : D) (r : R)
  | PUnlocking (o : op) (r : R).

(** [sys_log] lists the completed operations with their results, in the order
    of their return. *)
Record system := System { sys_file : F; sys_lock : option nat;
                          sys_procs : nat → phase; sys_log : list (nat * op * R) }.

Definition set_proc (procs : nat → phase) (p : nat) (ph : phase) : nat → phase :=
  λ q, if decide (q = p) then ph else procs q.

Inductive sys_step : system → system → Prop :=
  | step_lock f procs g p o :
      procs p = PIdle → ls_op_ok o →
      sys_step (System f None procs g) (System f (Some p) (set_proc procs p (PLocked o)) g)
  | step_load f l procs g p o :
      procs p = PLocked o →
      sys_step (System f l procs g) (System f l (set_proc procs p (PLoaded o (ls_load f))) g)
  | step_truncate f l procs g p o data r data' :
      procs p = PLoaded o data → ls_decide o data = (r, Some data') →
      sys_step (System f l procs g)
               (System ls_truncated l (set_proc procs p (PTruncated o data' r)) g)
  | step_no_save f l procs g p o data r :
      procs p = PLoaded o data → ls_decide o data = (r, None) →
      sys_step (System f l procs g) (System f l (set_proc procs p (PUnlocking o r)) g)
  | step_write f l procs g p o data r :
      procs p = PTruncated o data r →
      sys_step (System f l procs g)
               (System (ls_store data) l (set_proc procs p (PUnlocking o r)) g)
  | step_unlock f l procs g p o r :
      procs p = PUnlocking o r →
      sys_step (System f l procs g) (System f None (set_proc procs p PIdle) (g ++ [(p, o, r)])).

Definition sys_initial (f : F) : system := System f None (λ _, PIdle) [].

(** The abstract data of a system: what the file holds, or what the process
    that has emptied it is about to write. *)
Definition abs_data (s : system) : D :=
  match sys_lock s with
  | Some p => match sys_procs s p with
              | PTruncated _ data _ => data
              | _ => ls_load (sys_file s)
              end
  | None => ls_load (sys_file s)
  end.

(** The operation that has taken effect and not returned yet. *)
Definition pending (s : system) : list (nat * op * R) :=
  match sys_lock s with
  | Some p => match sys_procs s p with
              | PTruncated o _ r | PUnlocking o r => [(p, o, r)]
              | _ => []
              end
  | None => []
  end.

(** The specification: an operation takes effect at once; [replay] runs a
    sequence of them and compares the results. *)
Definition spec_op (o : op) (data : D) : R * D :=
  let '(r, d) := ls_decide o data in (r, default data d).

Fixpoint replay (data : D) (log : list (nat * op * R)) : option D :=
  match log with
  | [] => Some data
  | (_, o, r) :: log =>
      let '(r', data') := spec_op o data in
      if decide (r = r') then replay data' log else None
  end.

(** A process that is not idle holds the lock; what it has read is what the
    file holds; and all data in flight is well formed. *)
Definition proc_ok (s : system) (p : nat) : Prop :=
  match sys_procs s p with
  | PIdle => True
  | PLocked o => sys_lock s = Some p ∧ ls_op_ok o ∧ ls_ok (ls_load (sys_file s))
  | PLoaded o data =>
      sys_lock s = Some p ∧ ls_op_ok o ∧ data = ls_load (sys_file s) ∧ ls_ok data
  | PTruncated _ data _ => sys_lock s = Some p ∧ ls_ok data
  | PUnlocking _ _ => sys_lock s = Some p ∧ ls_ok (ls_load (sys_file s))
  end.

Definition sys_inv (s : system) : Prop :=
  (∀ p, proc_ok s p) ∧ ls_ok (abs_data s).

(** ** Lemmas *)

Lemma set_proc_same procs p ph : set_proc procs p ph p = ph.
Proof. unfold set_proc. by rewrite decide_True. Qed.
Lemma set_proc_other procs p ph q : q ≠ p → set_proc procs p ph q = procs q.
Proof. intros. unfold set_proc. by rewrite decide_False. Qed.

Lemma sys_inv_initial f : ls_ok (ls_load f) → sys_inv (sys_initial f).
Proof. intros Hok. by split. Qed.

(** A process other than the lock holder is idle. *)
Lemma others_idle s p q : sys_inv s → sys_lock s = Some p → q ≠ p → sys_procs s q = PIdle.
Proof.
  intros [Hp _] Hl Hne. specialize (Hp q). unfold proc_ok in Hp.
  destruct (sys_procs s q); [done|..]; naive_solver congruence.
Qed.

Lemma unlocked_idle s q : sys_inv s → sys_lock s = None → sys_procs s q = PIdle.
Proof.
  intros [Hp _] Hl. specialize (Hp q). unfold proc_ok in Hp.
  destruct (sys_procs s q); [done|..]; naive_solver congruence.
Qed.

(** A step moves one process, which holds the lock afterwards or releases it;
    every other process is idle. *)
Lemma sys_inv_move f procs g l f' l' g' p ph :
  sys_inv (System f l procs g) → (l = None ∨ l = Some p) →
  proc_ok (System f' l' (set_proc procs p ph) g') p →
  ls_ok (abs_data (System f' l' (set_proc procs p ph) g')) →
  sys_inv (System f' l' (set_proc procs p ph) g').
Proof.
  intros Hinv Hl Hp Hok. split; [|done]. intros q.
  destruct (decide (q = p)) as [->|Hq]; [done|].
  assert (procs q = PIdle) as Hidle.
  { destruct Hl as [->| ->]; [by apply (unlocked_idle (System f None procs g))|
      by apply (others_idle (System f (Some p) procs g) p)]. }
  unfold proc_ok; simpl. by rewrite set_proc_other, Hidle.
Qed.

(** What a step needs to know of the process that moves. *)
Lemma mover_ok f l procs g p ph : sys_inv (System f l procs g) → procs p = ph → ph ≠ PIdle →
  l = Some p ∧ match ph with
               | PIdle => True
               | PLocked o => ls_op_ok o ∧ ls_ok (ls_load f)
               | PLoaded o data => ls_op_ok o ∧ data = ls_load f ∧ ls_ok data
               | PTruncated _ data _ => ls_ok data
               | PUnlocking _ _ => ls_ok (ls_load f)
               end.
Proof.
  intros [Hp _] Hph Hne. specialize (Hp p). unfold proc_ok in Hp. simpl in Hp.
  rewrite Hph in Hp. destruct ph; naive_solver.
Qed.

Ltac mover Hinv Hp :=
  let H := fresh "Hm" in
  pose proof (mover_ok _ _ _ _ _ _ Hinv Hp ltac:(done)) as H; simpl in H;
  destruct_and? H; subst.

Lemma sys_inv_step s s' : sys_inv s → sys_step s s' → sys_inv s'.
Proof.
  intros Hinv Hstep.
  destruct Hstep as [f procs g p o Hp Ho|f l procs g p o Hp|f l procs g p o data r data' Hp Hd
    |f l procs g p o data r Hp Hd|f l procs g p o data r Hp|f l procs g p o r Hp];
    [|mover Hinv Hp..];
    (eapply sys_inv_move; [exact Hinv|by auto|..]);
    unfold proc_ok, abs_data; simpl; rewrite ?set_proc_same; simpl;
    rewrite ?ls_load_store by done; eauto using ls_decide_ok; split_and?; eauto using ls_decide_ok.
  - by destruct Hinv.
  - by destruct Hinv.
Qed.

Lemma replay_app data log log' :
  replay data (log ++ log') = replay data log ≫= λ d, replay d log'.
Proof.
  revert data; induction log as [|[[p o] r] log IH]; intros data; simpl; [done|].
  destruct (spec_op o data). by case_decide.
Qed.

Lemma replay_one p o r data d : spec_op o data = (r, d) → replay data [(p, o, r)] = Some d.
Proof. intros H. simpl. rewrite H. by rewrite decide_True. Qed.

Lemma sim_step data0 s s' : sys_inv s → sys_step s s' →
  replay data0 (sys_log s ++ pending s) = Some (abs_data s) →
  replay data0 (sys_log s' ++ pending s') = Some (abs_data s').
Proof.
  intros Hinv Hstep. unfold pending, abs_data.
  destruct Hstep as [f procs g p o Hp Ho|f l procs g p o Hp|f l procs g p o data r data' Hp Hd
    |f l procs g p o data r Hp Hd|f l procs g p o data r Hp|f l procs g p o r Hp];
    [|mover Hinv Hp..]; simpl; rewrite ?set_proc_same, ?Hp, ?app_nil_r; try done.
  - rewrite replay_app. intros ->. simpl. apply (replay_one p). unfold spec_op. by rewrite Hd.
  - rewrite replay_app. intros ->. simpl. apply (replay_one p). unfold spec_op. by rewrite Hd.
  - by rewrite ls_load_store.
Qed.

(** Every schedule is equivalent to the sequence of atomic operations given
    by the order of return, with the same results. *)
Lemma serializable f s : ls_ok (ls_load f) → rtc sys_step (sys_initial f) s →
  replay (ls_load f) (sys_log s ++ pending s) = Some (abs_data s) ∧
  ls_ok (abs_data s) ∧
  (sys_lock s = None → abs_data s = ls_load (sys_file s)).
Proof.
  intros Hok Hreach.
  enough (sys_inv s ∧ replay (ls_load f) (sys_log s ++ pending s) = Some (abs_data s))
    as [[_ ?] Hr].
  { split_and!; [done|done|]. unfold abs_data. by intros ->. }
  revert Hreach.
  apply (rtc_ind_r (λ s, sys_inv s ∧
    replay (ls_load f) (sys_log s ++ pending s) = Some (abs_data s))).
  - split; [by apply sys_inv_initial|done].
  - intros s1 s2 _ Hstep [Hinv Hr].
    split; [by eapply sys_inv_step|by eapply sim_step].
Qed.
End locked_file.

Arguments phase : clear implicits.
Arguments system : clear implicits.
