(* ===== verification/Ipam.v ===== *)
(** * core.ipam: the subnet allocator

    The file-backed ledger with its [flock] (state passing), the subnet and
    address arithmetic, and the interleaving of several processes that share
    one ledger file (an instance of [LockedFile]). *)
From S2P Require Import Prelude PyStr LockedFile.
From Stdlib Require Import Ascii String.
Open Scope Z_scope.

Definition MAX_SLOTS : Z := 7987.

(** ** The ledger file and its lock

    [Corrupt] is a file [json.load] rejects, an empty one for instance. *)
Inductive ledger_file : Type :=
  | Missing
  | Corrupt
  | Ledger (data : gmap string Z).

(** [lock] is the process whose descriptor holds the [flock]. *)
Record ipam_state := IpamState { ledger : ledger_file; lock : option nat }.

Definition load (f : ledger_file) : gmap string Z :=
  match f with Missing | Corrupt => ∅ | Ledger data => data end.

Definition ipam_load : eff ipam_state (gmap string Z) := λ s, (Ok (load (ledger s)), s).

Definition ipam_save (data : gmap string Z) : eff ipam_state unit := λ s,
  (Ok tt, IpamState (Ledger data) (lock s)).

Definition ipam_acquire_lock (me : nat) : eff ipam_state unit := λ s,
  match lock s with
  | None => (Ok tt, IpamState (ledger s) (Some me))
  | Some _ => (Err IPAMLockException, s)
  end.

Definition ipam_unlock (s : ipam_state) : ipam_state := IpamState (ledger s) None.

(** ** Allocation *)

(** [for candidate in range(lo, lo + n)]: the first one not in [used]. *)
Fixpoint first_free (used : gset Z) (n : nat) (lo : Z) : option Z :=
  match n with
  | O => None
  | S n => if decide (lo ∈ used) then first_free used n (lo + 1) else Some lo
  end.

Definition lowest_free (data : gmap string Z) : option Z :=
  first_free (map_img data) (Z.to_nat MAX_SLOTS) 0.

Definition allocate (me : nat) (instance_id : string) : eff ipam_state Z :=
  _ ← ipam_acquire_lock me;
  finally
    (data ← ipam_load;
     match data !! instance_id with
     | Some i => mret i
     | None =>
         match lowest_free data with
         | Some candidate =>
             _ ← ipam_save (<[instance_id := candidate]> data);
             mret candidate
         | None => throw IPAMExhaustedError
         end
     end)
    ipam_unlock.

Definition release (me : nat) (instance_id : string) : eff ipam_state unit :=
  _ ← ipam_acquire_lock me;
  finally
    (data ← ipam_load;
     ipam_save (delete instance_id data))
    ipam_unlock.

Definition peek_next_slot (instance_id : string) : eff ipam_state (Z * bool) :=
  data ← ipam_load;
  match data !! instance_id with
  | Some i => mret (i, true)
  | None =>
      match lowest_free data with
      | Some candidate => mret (candidate, false)
      | None => throw IPAMExhaustedError
      end
  end.

(** ** Subnets and addresses *)

Definition subnet_of (g : Z) : string :=
  "10." +:+ str_of_Z (100 + g / 256) +:+ "." +:+ str_of_Z (g mod 256) +:+ ".0/24".

(** The quintuple [(isolated, core_proxy, dns, egress, ipc)]. *)
Definition derive_subnets (base_index : Z) : res (list string) :=
  if MAX_SLOTS <=? base_index then Err ValueError
  else
    let g := base_index * 5 in
    Ok (map (λ i, subnet_of (g + i)) [0; 1; 2; 3; 4]).

Definition subnet_base (subnet : string) : string := rsplit1_head ".0/24" subnet.

Definition derive_static_ips (base_index : Z) : res (list (string * string)) :=
  subnets ← derive_subnets base_index;
  match map subnet_base subnets with
  | [isolated_base; core_proxy_base; dns_base; egress_base; ipc_base] =>
      Ok [("agent_isolated_ip", isolated_base +:+ ".3");
          ("agent_proxy_ip", core_proxy_base +:+ ".3");
          ("core_ipc_ip", ipc_base +:+ ".3");
          ("proxy_core_ip", core_proxy_base +:+ ".254");
          ("dnsdist_isolated_ip", isolated_base +:+ ".56");
          ("dnsdist_dns_ip", dns_base +:+ ".56");
          ("coredns_dns_ip", dns_base +:+ ".53");
          ("coredns_egress_ip", egress_base +:+ ".53");
          ("admin_ipc_ip", ipc_base +:+ ".2");
          ("db_postgres_ip", isolated_base +:+ ".54");
          ("mcp_firecrawl_proxy_ip", core_proxy_base +:+ ".55");
          ("firecrawl_dns_ip", dns_base +:+ ".55");
          ("firecrawl_isolated_ip", isolated_base +:+ ".55")]
  | _ => Err ValueError
  end.

(** ** What a ledger must satisfy *)

(** Slots are in range and no two instances share one. *)
Definition ledger_ok (data : gmap string Z) : Prop :=
  (∀ id i, data !! id = Some i → 0 <= i < MAX_SLOTS) ∧
  (∀ id id' i, data !! id = Some i → data !! id' = Some i → id = id').

(** ** Operations of interleaved processes *)

Inductive op := OAlloc (id : string) | ORelease (id : string).

(** The result of an operation; [release] returns [None]. *)
Abbreviation result := (res (option Z)).

(** What the code computes between reading the ledger and saving it: the
    result, and the data to save if it saves. *)
Definition decide_op (o : op) (data : gmap string Z) : result * option (gmap string Z) :=
  match o with
  | OAlloc id =>
      match data !! id with
      | Some i => (Ok (Some i), None)
      | None =>
          match lowest_free data with
          | Some c => (Ok (Some c), Some (<[id := c]> data))
          | None => (Err IPAMExhaustedError, None)
          end
      end
  | ORelease id => (Ok None, Some (delete id data))
  end.

(** ** Lemmas on the ledger *)

Lemma first_free_Some used n lo c : first_free used n lo = Some c →
  lo <= c < lo + Z.of_nat n ∧ (c ∉ used) ∧ ∀ j, lo <= j < c → j ∈ used.
Proof.
  revert lo; induction n as [|n IH]; intros lo; simpl; [done|].
  destruct (decide _) as [Hin|Hout].
  - intros (? & ? & Hmin)%IH. split_and!; [lia|lia|done|].
    intros j ?. destruct (decide (j = lo)) as [->|]; [done|apply Hmin; lia].
  - intros [= <-]. split_and!; [lia|lia|done|]. lia.
Qed.

Lemma first_free_None used n lo : (first_free used n lo = None) ↔
  ∀ j, lo <= j < lo + Z.of_nat n → j ∈ used.
Proof.
  revert lo; induction n as [|n IH]; intros lo; simpl; [split; [lia|done]|].
  destruct (decide _) as [Hin|Hout].
  - rewrite IH. split; intros H j ?; [|apply H; lia].
    destruct (decide (j = lo)) as [->|]; [done|apply H; lia].
  - split; [done|]. intros H. destruct Hout. apply H. lia.
Qed.

Lemma lowest_free_Some data c : lowest_free data = Some c →
  0 <= c < MAX_SLOTS ∧ (∀ id, data !! id ≠ Some c) ∧
  ∀ j, 0 <= j < c → ∃ id, data !! id = Some j.
Proof.
  intros (Hc & Hfree & Hmin)%first_free_Some.
  rewrite Z2Nat.id in Hc by (unfold MAX_SLOTS; lia).
  split_and!; [lia|lia|intros id; by apply (not_elem_of_map_img_1 (SA:=gset Z))|].
  intros j Hj. by apply (elem_of_map_img (SA:=gset Z)), Hmin.
Qed.

(** The slots in use, as a list. *)
Definition slots (data : gmap string Z) : list Z := (map_to_list data).*2.

Lemma elem_of_slots data j : j ∈ slots data ↔ ∃ id, data !! id = Some j.
Proof.
  unfold slots. rewrite list_elem_of_fmap. split.
  - intros ([id j'] & -> & H%elem_of_map_to_list). eauto.
  - intros [id H]. exists (id, j). split; [done|]. by apply elem_of_map_to_list.
Qed.

Lemma slots_submseteq data : ledger_ok data → slots data ⊆+ seqZ 0 MAX_SLOTS.
Proof.
  intros [Hrange Hinj]. apply NoDup_submseteq.
  - unfold slots. apply NoDup_fmap_2_strong; [|apply NoDup_map_to_list].
    intros [id j] [id' j'] H%elem_of_map_to_list H'%elem_of_map_to_list Heq.
    simpl in *; subst j'. by rewrite (Hinj id id' j).
  - intros j [id H]%elem_of_slots. apply elem_of_seqZ. by apply Hrange in H.
Qed.

Lemma lowest_free_None data : ledger_ok data →
  (lowest_free data = None) ↔ size data = Z.to_nat MAX_SLOTS.
Proof.
  intros Hok. unfold lowest_free. rewrite first_free_None.
  replace (size data) with (List.length (slots data))
    by (unfold slots; by rewrite length_fmap, length_map_to_list).
  pose proof (slots_submseteq data Hok) as Hsub. rewrite Z2Nat.id by (unfold MAX_SLOTS; lia).
  assert (Hl : List.length (seqZ 0 MAX_SLOTS) = Z.to_nat MAX_SLOTS) by apply length_seqZ.
  split.
  - intros Hall. apply Nat.le_antisymm; rewrite <- Hl; apply submseteq_length; [done|].
    apply NoDup_submseteq; [apply NoDup_seqZ|].
    intros j Hj%elem_of_seqZ. apply elem_of_slots, (elem_of_map_img (SA:=gset Z)), Hall. lia.
  - intros Hlen j Hj. apply elem_of_map_img, elem_of_slots.
    rewrite (submseteq_length_Permutation _ _ Hsub) by (rewrite Hl, Hlen; lia).
    apply elem_of_seqZ. lia.
Qed.

Lemma ledger_ok_insert data id c : ledger_ok data →
  0 <= c < MAX_SLOTS → (∀ id', data !! id' ≠ Some c) → ledger_ok (<[id := c]> data).
Proof.
  intros [Hr Hi] Hc Hfree. split.
  - intros id' i. rewrite lookup_insert_Some. naive_solver.
  - intros id1 id2 i. rewrite !lookup_insert_Some. naive_solver.
Qed.

Lemma ledger_ok_delete data id : ledger_ok data → ledger_ok (delete id data).
Proof.
  intros [Hr Hi]. split.
  - intros id' i. rewrite lookup_delete_Some. naive_solver.
  - intros id1 id2 i. rewrite !lookup_delete_Some. naive_solver.
Qed.

Lemma ledger_ok_empty : ledger_ok ∅.
Proof. split; intros *; by rewrite lookup_empty. Qed.

Lemma decide_op_ok o data r data' : ledger_ok data →
  decide_op o data = (r, Some data') → ledger_ok data'.
Proof.
  intros Hok. destruct o as [id|id]; simpl.
  - destruct (data !! id); [done|].
    destruct (lowest_free data) as [c|] eqn:E; [|done]. intros [= _ <-].
    apply lowest_free_Some in E as (? & ? & _). by apply ledger_ok_insert.
  - intros [= _ <-]. by apply ledger_ok_delete.
Qed.

#[export] Program Instance ipam_store : LockedStore op result (gmap string Z) ledger_file := {
  ls_load := load;
  ls_store := Ledger;
  ls_truncated := Corrupt;
  ls_decide := decide_op;
  ls_op_ok _ := True;
  ls_ok := ledger_ok
}.
Next Obligation. done. Qed.
Next Obligation. simpl. eauto using decide_op_ok. Qed.

(** The sequential code is the specification wrapped in the lock. *)
Lemma allocate_alt me id s : lock s = None →
  allocate me id s =
    let '(r, d) := decide_op (OAlloc id) (load (ledger s)) in
    (match r with Ok i => Ok (default 0 i) | Err e => Err e end,
     IpamState (match d with Some d => Ledger d | None => ledger s end) None).
Proof.
  destruct s as [f l]; simpl; intros ->.
  unfold allocate, finally, ipam_acquire_lock, ipam_load, ipam_save, mbind, eff_bind; simpl.
  destruct (load f !! id); [done|]. by destruct (lowest_free (load f)).
Qed.

Lemma peek_alt id s : peek_next_slot id s =
  (match (decide_op (OAlloc id) (load (ledger s))).1 with
   | Ok i => Ok (default 0 i, bool_decide (is_Some (load (ledger s) !! id)))
   | Err e => Err e
   end, s).
Proof.
  unfold peek_next_slot, ipam_load, mbind, eff_bind; simpl.
  destruct (load (ledger s) !! id) as [i|]; simpl; [done|].
  by destruct (lowest_free _).
Qed.

(** ** Lemmas on subnets *)

Lemma subnet_of_inj g g' : 0 <= g → 0 <= g' → subnet_of g = subnet_of g' → g = g'.
Proof.
  intros Hg Hg' H. unfold subnet_of in H. apply (app_inv_l_str "10.") in H.
  pose proof (Z.div_pos g 256 Hg eq_refl). pose proof (Z.div_pos g' 256 Hg' eq_refl).
  pose proof (Z.mod_pos_bound g 256 eq_refl). pose proof (Z.mod_pos_bound g' 256 eq_refl).
  apply app_sep_inj in H as [Hq%str_of_Z_inj H];
    [|by apply str_of_Z_no_char; [lia|]..].
  apply app_sep_inj in H as [Hm%str_of_Z_inj _];
    [|by apply str_of_Z_no_char; [lia|]..].
  rewrite (Z.div_mod g 256), (Z.div_mod g' 256) by done. lia.
Qed.

(** The three octets before [.0/24]. *)
Definition net_of (g : Z) : string :=
  "10." +:+ str_of_Z (100 + g / 256) +:+ "." +:+ str_of_Z (g mod 256).

Lemma rfind_suffix sub s : sub ≠ "" → rfind sub (s +:+ sub) = Some (str_len s).
Proof.
  intros Hsub.
  assert (Hshort : ∀ t, (str_len t < str_len sub)%nat → rfind sub t = None).
  { assert (Hst : ∀ t, (str_len t < str_len sub)%nat → startswith sub t = false).
    { intros t Ht. destruct (startswith sub t) eqn:E; [|done].
      apply startswith_spec in E as [u ->]. rewrite str_len_app in Ht. lia. }
    induction t as [|c t IH]; intros Ht; cbn [rfind]; rewrite (Hst _ Ht); [done|].
    by rewrite IH by (simpl in Ht; lia). }
  induction s as [|c s IH].
  - destruct sub as [|c sub]; [done|]. simpl. rewrite Hshort by (simpl; lia).
    rewrite Ascii.eqb_refl; simpl.
    by rewrite <- (app_nil_r_str sub) at 2; rewrite startswith_app.
  - simpl. by rewrite IH.
Qed.

Lemma subnet_base_of g : subnet_base (subnet_of g) = net_of g.
Proof.
  unfold subnet_base, rsplit1_head.
  replace (subnet_of g) with (net_of g +:+ ".0/24")
    by (unfold net_of, subnet_of; by rewrite !app_assoc_str).
  rewrite rfind_suffix by done. apply stake_app.
Qed.

Lemma derive_subnets_Ok b l : derive_subnets b = Ok l ↔
  b < MAX_SLOTS ∧ l = map (λ i, subnet_of (b * 5 + i)) [0; 1; 2; 3; 4].
Proof.
  unfold derive_subnets. destruct (Z.leb_spec MAX_SLOTS b); split; [done|lia| |].
  - intros [= <-]. split; [lia|done].
  - by intros [_ ->].
Qed.

(** ** Properties *)

(** When the lock is free, [allocate] releases it again, keeps the ledger
    well formed and changes no other instance's slot; it returns the
    instance's own slot if it has one, otherwise the least slot no instance
    holds; it fails exactly when all [MAX_SLOTS] slots are held, and then
    leaves the ledger alone.  When the lock is held it fails with no effect. *)
Theorem allocate_spec (me : nat) (id : string) (s : ipam_state)
    (Hok : ledger_ok (load (ledger s))) :
  let data := load (ledger s) in
  let '(r, s') := allocate me id s in
  let data' := load (ledger s') in
  match lock s with
  | Some _ => r = Err IPAMLockException ∧ s' = s
  | None =>
      lock s' = None ∧ ledger_ok data' ∧
      (∀ id', id' ≠ id → data' !! id' = data !! id') ∧
      match r with
      | Ok i =>
          data' !! id = Some i ∧ 0 <= i < MAX_SLOTS ∧
          (data !! id = Some i ∨
           data !! id = None ∧ (∀ id', data !! id' ≠ Some i) ∧
           ∀ j, 0 <= j < i → ∃ id', data !! id' = Some j)
      | Err e =>
          e = IPAMExhaustedError ∧ s' = s ∧ data !! id = None ∧
          size data = Z.to_nat MAX_SLOTS
      end
  end.
Proof.
  destruct s as [f [l|]]; simpl in *; [done|].
  rewrite allocate_alt by done; simpl.
  destruct (load f !! id) as [i|] eqn:Hi; simpl.
  { split_and!; auto; eapply Hok; eauto. }
  destruct (lowest_free (load f)) as [c|] eqn:Hc; simpl.
  - pose proof (lowest_free_Some _ _ Hc) as (? & ? & ?).
    split_and!; auto using ledger_ok_insert; try lia.
    + intros id' ?. by rewrite lookup_insert_ne.
    + by rewrite lookup_insert_eq.
  - split_and!; auto. by apply lowest_free_None.
Qed.

(** C2: Processes that interleave at the level of system calls behave as if
    every [allocate] and [release] took effect at one instant: in any reachable
    state, running the operations that have returned, and the one that is about
    to, one after the other on the initial ledger gives exactly the results
    they returned and the current ledger, whatever the schedule.  So the
    ledger stays well formed: no two instances ever share a slot. *)
Theorem ipam_serializable (f : ledger_file) (s : system op result (gmap string Z) ledger_file)
    (Hok : ledger_ok (load f)) (Hreach : rtc sys_step (sys_initial f) s) :
  replay (load f) (sys_log s ++ pending s) = Some (abs_data s) ∧
  ledger_ok (abs_data s) ∧
  (sys_lock s = None → abs_data s = load (sys_file s)).
Proof. exact (serializable f s Hok Hreach). Qed.

(** [peek_next_slot] has no effect and returns the slot that an
    [allocate] of the same instance returns next, with the flag that says
    whether the instance already holds it. *)
Theorem peek_agrees_with_allocate (me : nat) (id : string) (s : ipam_state)
    (Hlock : lock s = None) :
  let '(r, s') := peek_next_slot id s in
  s' = s ∧ fst <$> (match r with Ok x => Some x | Err _ => None end)
           = (match (allocate me id s).1 with Ok i => Some i | Err _ => None end) ∧
  (∀ i b, r = Ok (i, b) → b = true ↔ load (ledger s) !! id = Some i) ∧
  (∀ e, r = Err e → (allocate me id s).1 = Err e).
Proof.
  rewrite peek_alt, allocate_alt by done. unfold decide_op.
  destruct (load (ledger s) !! id) as [i|] eqn:E; simpl.
  { split_and!; naive_solver. }
  destruct (lowest_free _); simpl; split_and!; naive_solver.
Qed.

(** Distinct slots never share a subnet: over all slots below [MAX_SLOTS]
    the derived quintuples are pairwise disjoint and free of repetition, and
    every octet is in range, the second one between 100 and 255. *)
Theorem derive_subnets_disjoint (b b' : Z) (i i' : nat) (l l' : list string) (x : string)
    (Hb : 0 <= b) (Hb' : 0 <= b')
    (Hl : derive_subnets b = Ok l) (Hl' : derive_subnets b' = Ok l')
    (Hx : l !! i = Some x) (Hx' : l' !! i' = Some x) :
  b = b' ∧ i = i' ∧
  ∃ g, g = 5 * b + Z.of_nat i ∧ x = subnet_of g ∧
       100 <= 100 + g / 256 <= 255 ∧ 0 <= g mod 256 <= 255.
Proof.
  apply derive_subnets_Ok in Hl as [Hmax ->]. apply derive_subnets_Ok in Hl' as [_ ->].
  assert (Hlook : ∀ b j y, map (λ i, subnet_of (b * 5 + i)) [0; 1; 2; 3; 4] !! j = Some y →
    (j < 5)%nat ∧ y = subnet_of (b * 5 + Z.of_nat j)).
  { intros c j y. do 5 (destruct j as [|j]; [intros [= <-]; split; [lia|done]|]). done. }
  apply Hlook in Hx as [Hi ->]. apply Hlook in Hx' as [Hi' Heq].
  apply subnet_of_inj in Heq; [|lia..].
  assert (b = b') by lia. split_and!; [done|lia|].
  exists (b * 5 + Z.of_nat i). unfold MAX_SLOTS in *.
  pose proof (Z.mod_pos_bound (b * 5 + Z.of_nat i) 256 eq_refl).
  split_and!; [lia|done| | |lia|lia].
  - pose proof (Z.div_pos (b * 5 + Z.of_nat i) 256). lia.
  - pose proof (Z.div_lt_upper_bound (b * 5 + Z.of_nat i) 256 156). lia.
Qed.

(** The host part of each address, by name. *)
Definition static_hosts : list (string * Z * string) :=
  [("agent_isolated_ip", 0, ".3"); ("agent_proxy_ip", 1, ".3"); ("core_ipc_ip", 4, ".3");
   ("proxy_core_ip", 1, ".254"); ("dnsdist_isolated_ip", 0, ".56"); ("dnsdist_dns_ip", 2, ".56");
   ("coredns_dns_ip", 2, ".53"); ("coredns_egress_ip", 3, ".53"); ("admin_ipc_ip", 4, ".2");
   ("db_postgres_ip", 0, ".54"); ("mcp_firecrawl_proxy_ip", 1, ".55");
   ("firecrawl_dns_ip", 2, ".55"); ("firecrawl_isolated_ip", 0, ".55")].

Definition static_table (b : Z) : list (string * string) :=
  map (λ '(k, i, host), (k, net_of (b * 5 + i) +:+ host)) static_hosts.

Lemma derive_static_ips_Ok b l : derive_static_ips b = Ok l ↔
  b < MAX_SLOTS ∧ l = static_table b.
Proof.
  unfold derive_static_ips. destruct (derive_subnets b) as [subnets|e] eqn:E.
  - apply derive_subnets_Ok in E as [Hb ->].
    cbn -[subnet_of subnet_base net_of Z.mul]. rewrite !subnet_base_of.
    split; [intros [= <-]; done|by intros [_ ->]].
  - simpl. split; [done|]. intros [Hb _]. unfold derive_subnets in E.
    destruct (Z.leb_spec MAX_SLOTS b); [lia|done].
Qed.

Lemma net_of_host_inj g g' h h' : 0 <= g → 0 <= g' →
  net_of g +:+ String "."%char h = net_of g' +:+ String "."%char h' → g = g' ∧ h = h'.
Proof.
  intros Hg Hg'. unfold net_of. rewrite !app_assoc_str. intros H.
  apply (app_inv_l_str "10.") in H. simpl in H.
  pose proof (Z.div_pos g 256 Hg eq_refl). pose proof (Z.div_pos g' 256 Hg' eq_refl).
  pose proof (Z.mod_pos_bound g 256 eq_refl). pose proof (Z.mod_pos_bound g' 256 eq_refl).
  apply app_sep_inj in H as [Hq%str_of_Z_inj H];
    [|by apply str_of_Z_no_char; [lia|]..].
  apply app_sep_inj in H as [Hm%str_of_Z_inj H];
    [|by apply str_of_Z_no_char; [lia|]..].
  split; [|done]. rewrite (Z.div_mod g 256), (Z.div_mod g' 256) by done. lia.
Qed.

Lemma static_hosts_shape : Forall (λ '(_, i, host),
  0 <= i < 5 ∧ ∃ h, host = String "."%char h) static_hosts.
Proof. repeat constructor; simpl; try lia; eauto. Qed.

(** Two addresses derived from valid slots are equal only when they are the
    same container's address of the same slot: within a slot the thirteen
    addresses are distinct, and no two slots share one. *)
Theorem static_ips_distinct (b b' : Z) (l l' : list (string * string)) (k k' ip : string)
    (Hb : 0 <= b) (Hb' : 0 <= b')
    (Hl : derive_static_ips b = Ok l) (Hl' : derive_static_ips b' = Ok l')
    (Hk : (k, ip) ∈ l) (Hk' : (k', ip) ∈ l') : b = b' ∧ k = k'.
Proof.
  apply derive_static_ips_Ok in Hl as [_ ->]. apply derive_static_ips_Ok in Hl' as [_ ->].
  apply list_elem_of_fmap in Hk as ([[k1 i] h] & [-> ->]%pair_equal_spec & Hin).
  apply list_elem_of_fmap in Hk' as ([[k2 i'] h'] & [-> Heq]%pair_equal_spec & Hin').
  pose proof static_hosts_shape as Hs. rewrite Forall_forall in Hs.
  destruct (Hs _ Hin) as [Hi [h1 ->]], (Hs _ Hin') as [Hi' [h2 ->]].
  apply net_of_host_inj in Heq as [Hg ->]; [|lia..].
  assert (b = b' ∧ i = i') as [-> ->] by lia. split; [done|].
  assert (Hnd : NoDup ((λ '(_, i, h), (i, h)) <$> static_hosts))
    by (eapply (bool_decide_eq_true_1 _); by vm_compute).
  apply list_elem_of_lookup in Hin as [n Hn]. apply list_elem_of_lookup in Hin' as [n' Hn'].
  rewrite NoDup_alt in Hnd.
  assert (n = n') as ->.
  { apply (Hnd n n' (i', String "."%char h2)); rewrite list_lookup_fmap, ?Hn, ?Hn'; done. }
  congruence.
Qed.

(** ** Witnesses and the interleaving the lock does not cover *)

Definition demo_ledger : gmap string Z := {[ "a" := 0; "b" := 1; "d" := 3 ]}.

Lemma demo_ledger_ok : ledger_ok demo_ledger.
Proof.
  split.
  - intros id i. unfold demo_ledger. rewrite !lookup_insert_Some, lookup_singleton_Some.
    unfold MAX_SLOTS. naive_solver lia.
  - intros id id' i. unfold demo_ledger. rewrite !lookup_insert_Some, !lookup_singleton_Some.
    naive_solver.
Qed.

(** A fresh instance takes the gap at slot 2. *)
Lemma allocate_spec_witness :
  (allocate 7 "c" (IpamState (Ledger demo_ledger) None)).1 = Ok 2 ∧
  ledger_ok (load (ledger (allocate 7 "c" (IpamState (Ledger demo_ledger) None)).2)).
Proof.
  split; [by vm_compute|].
  pose proof (allocate_spec 7 "c" (IpamState (Ledger demo_ledger) None) demo_ledger_ok) as H.
  destruct (allocate _ _ _) as [r s']. apply H.
Defined.

(** Process 1 allocates for ["c"] and returns; process 2, releasing ["a"], has
    emptied the file and not written it yet. *)
Definition demo_system : system op result (gmap string Z) ledger_file :=
  let p1 ph procs := set_proc procs 1%nat ph in
  let p2 ph procs := set_proc procs 2%nat ph in
  let data := <["c" := 2]> demo_ledger in
  System Corrupt (Some 2%nat)
    (p2 (PTruncated (ORelease "a") (delete "a" data) (Ok None))
    (p2 (PLoaded (ORelease "a") data) (p2 (PLocked (ORelease "a"))
    (p1 PIdle (p1 (PUnlocking (OAlloc "c") (Ok (Some 2)))
    (p1 (PTruncated (OAlloc "c") data (Ok (Some 2)))
    (p1 (PLoaded (OAlloc "c") demo_ledger) (p1 (PLocked (OAlloc "c")) (λ _, PIdle)))))))))
    [(1%nat, OAlloc "c", Ok (Some 2))].

Lemma demo_system_reachable : rtc sys_step (sys_initial (Ledger demo_ledger)) demo_system.
Proof.
  eapply rtc_l; [by eapply (step_lock _ _ _ 1%nat (OAlloc "c"))|].
  eapply rtc_l; [by eapply (step_load _ _ _ _ 1%nat)|].
  eapply rtc_l; [eapply (step_truncate _ _ _ _ 1%nat); [done|by vm_compute]|].
  eapply rtc_l; [by eapply (step_write _ _ _ _ 1%nat)|].
  eapply rtc_l; [by eapply (step_unlock _ _ _ _ 1%nat)|].
  eapply rtc_l; [by eapply (step_lock _ _ _ 2%nat (ORelease "a"))|].
  eapply rtc_l; [by eapply (step_load _ _ _ _ 2%nat)|].
  eapply rtc_l; [eapply (step_truncate _ _ _ _ 2%nat); [done|by vm_compute]|].
  apply rtc_refl.
Qed.

Lemma ipam_serializable_witness :
  replay demo_ledger [(1%nat, OAlloc "c", Ok (Some 2)); (2%nat, ORelease "a", Ok None)] =
    Some (abs_data demo_system) ∧ ledger_ok (abs_data demo_system).
Proof.
  destruct (ipam_serializable (Ledger demo_ledger) demo_system demo_ledger_ok
    demo_system_reachable) as (Hr & Hok & _).
  split; [exact Hr|exact Hok].
Defined.

Lemma peek_agrees_witness :
  (peek_next_slot "c" (IpamState (Ledger demo_ledger) None)).1 = Ok (2, false) ∧
  (peek_next_slot "c" (IpamState (Ledger demo_ledger) None)).2 =
    IpamState (Ledger demo_ledger) None.
Proof.
  split; [by vm_compute|].
  pose proof (peek_agrees_with_allocate 1 "c" (IpamState (Ledger demo_ledger) None)
    eq_refl) as H.
  destruct (peek_next_slot _ _) as [r s']. apply H.
Defined.

Lemma derive_subnets_disjoint_witness :
  derive_subnets 7986 = Ok ["10.255.250.0/24"; "10.255.251.0/24"; "10.255.252.0/24";
                            "10.255.253.0/24"; "10.255.254.0/24"] ∧
  ∃ g, "10.255.254.0/24" = subnet_of g ∧ 100 + g / 256 <= 255.
Proof.
  split; [by vm_compute|].
  destruct (derive_subnets_disjoint 7986 7986 4 4
    ["10.255.250.0/24"; "10.255.251.0/24"; "10.255.252.0/24"; "10.255.253.0/24";
     "10.255.254.0/24"]
    ["10.255.250.0/24"; "10.255.251.0/24"; "10.255.252.0/24"; "10.255.253.0/24";
     "10.255.254.0/24"] "10.255.254.0/24")
    as (_ & _ & g & _ & Hg & Ho & _); try lia; try (by vm_compute).
  exists g. split; [exact Hg|lia].
Defined.

Lemma static_ips_distinct_witness :
  ∃ l, derive_static_ips 0 = Ok l ∧ ("admin_ipc_ip", "10.100.4.2") ∈ l ∧
       (0 = 0 ∧ "admin_ipc_ip" = "admin_ipc_ip").
Proof.
  exists (static_table 0).
  assert (Hin : ("admin_ipc_ip", "10.100.4.2") ∈ static_table 0)
    by (eapply (bool_decide_eq_true_1 _); by vm_compute).
  split_and!; [by vm_compute|done|..];
    apply (static_ips_distinct 0 0 (static_table 0) (static_table 0)
      "admin_ipc_ip" "admin_ipc_ip" "10.100.4.2"); (done || by vm_compute).
Defined.

(** [peek_next_slot] takes no lock, so it can read the file between the
    [open(path, "w")] and the write of another process: there is a reachable
    state in which it reports slot 0 as free for a new instance although an
    instance holds that slot before and after the other process's operation. *)
Theorem peek_can_be_torn :
  ∃ s : system op result (gmap string Z) ledger_file,
    rtc sys_step (sys_initial (Ledger demo_ledger)) s ∧
    (peek_next_slot "new" (IpamState (sys_file s) (sys_lock s))).1 = Ok (0, false) ∧
    demo_ledger !! "a" = Some 0 ∧ abs_data s !! "a" = Some 0.
Proof.
  eexists. split; [|split_and!].
  - eapply rtc_l; [by eapply (step_lock _ _ _ 1%nat (OAlloc "c"))|].
    eapply rtc_l; [by eapply (step_load _ _ _ _ 1%nat)|].
    eapply rtc_l; [eapply (step_truncate _ _ _ _ 1%nat); [done|by vm_compute]|].
    apply rtc_refl.
  - by vm_compute.
  - done.
  - by vm_compute.
Qed.
