(* ===== verification/Json.v ===== *)
(** * core.json_types: parsed JSON and files that hold it

    Object keys are unique and unordered here; no modelled operation reads
    their order.  The [json] module itself is the language's library: a file
    is modelled by what [json.load] makes of it. *)
From S2P Require Import Prelude PyStr.
From Stdlib Require Import Ascii String.

Inductive JsonValue : Type :=
  | JNull
  | JBool (b : bool)
  | JInt (z : Z)
  | JFloat (repr : string)
  | JStr (s : string)
  | JList (l : list JsonValue)
  | JObj (m : gmap string JsonValue).

(** A file that [json.load] rejects (an empty one, for instance) is
    [JCorrupt]. *)
Inductive json_file : Type :=
  | JMissing
  | JCorrupt
  | JDoc (v : JsonValue).

Definition as_obj (v : JsonValue) : option (gmap string JsonValue) :=
  match v with JObj m => Some m | _ => None end.

Definition as_str (v : JsonValue) : option string :=
  match v with JStr s => Some s | _ => None end.

(** [v.get(k)] and [v.get(k, default)]: only a dict has the method. *)
Definition json_get (k : string) (v : JsonValue) : res (option JsonValue) :=
  match v with JObj m => Ok (m !! k) | _ => Err AttributeError end.

(** [v[k]] with a string key. *)
Definition json_index (k : string) (v : JsonValue) : res JsonValue :=
  match v with
  | JObj m => match m !! k with Some x => Ok x | None => Err KeyError end
  | _ => Err TypeError
  end.

(** [k in v]: a key of a dict, an element of a list, a part of a string. *)
Definition json_in (k : string) (v : JsonValue) : res bool :=
  match v with
  | JObj m => Ok (bool_decide (is_Some (m !! k)))
  | JList l => Ok (existsb (λ x, match x with JStr s => String.eqb s k | _ => false end) l)
  | JStr s => Ok (contains k s)
  | _ => Err TypeError
  end.
