(* ===== verification/Registry.v ===== *)
(** * core.registry: instance names and where the instances live *)
From S2P Require Import Prelude PyStr Json LockedFile.
From Stdlib Require Import Ascii String.

Record RegistryEntry := MkRegistryEntry { instance_dir : string; created_at : string }.

#[export] Instance RegistryEntry_eq_dec : EqDecision RegistryEntry.
Proof. solve_decision. Defined.

(** The records as loaded: names to string fields. *)
Abbreviation raw_registry := (gmap string (gmap string string)).

Definition str_fields (body : gmap string JsonValue) : gmap string string := omap as_str body.

Definition is_path_keyed (data : gmap string JsonValue) : bool :=
  existsb (startswith "/") (map fst (map_to_list data)).

Definition load_raw (f : json_file) : raw_registry :=
  match f with
  | JDoc (JObj data) =>
      if is_path_keyed data then ∅
      else omap (λ v, str_fields <$> as_obj v) data
  | _ => ∅
  end.

(** What [_write_locked] leaves in the file. *)
Definition write_raw (data : raw_registry) : json_file :=
  JDoc (JObj ((λ fields, JObj (JStr <$> fields)) <$> data)).

Definition asdict (e : RegistryEntry) : gmap string string :=
  {[ "instance_dir" := instance_dir e; "created_at" := created_at e ]}.

Definition entry_of (v : gmap string string) : option RegistryEntry :=
  dir ← v !! "instance_dir"; at_ ← v !! "created_at"; Some (MkRegistryEntry dir at_).

Definition registry_get (f : json_file) (name : string) : option RegistryEntry :=
  load_raw f !! name ≫= entry_of.

Definition registry_all (f : json_file) : gmap string RegistryEntry :=
  omap entry_of (load_raw f).

(** ** The two writers

    [LOCK_EX] blocks until the lock is free, so a writer always has it here;
    its interleaving with others is an instance of [LockedFile]. *)
Inductive registry_op :=
  | ORegister (name dir now : string) (allow_overwrite : bool)
  | ORemove (name : string).

Abbreviation registry_result := (res (option RegistryEntry)).

(** Between reading and saving: the result, and the data to save. *)
Definition registry_decide (o : registry_op) (data : raw_registry)
    : registry_result * option raw_registry :=
  match o with
  | ORegister name dir now allow_overwrite =>
      if bool_decide (is_Some (data !! name)) && negb allow_overwrite
      then (Err InstanceNameInUseError, None)
      else let entry := MkRegistryEntry dir now in
           (Ok (Some entry), Some (<[name := asdict entry]> data))
  | ORemove name => (Ok None, Some (delete name data))
  end.

Definition registry_run (o : registry_op) : eff json_file (option RegistryEntry) := λ f,
  let '(r, d) := registry_decide o (load_raw f) in
  (r, match d with Some d => write_raw d | None => f end).

(** [_utcnow_iso()] is the argument [now]. *)
Definition register (name dir now : string) (allow_overwrite : bool)
    : eff json_file (option RegistryEntry) :=
  registry_run (ORegister name dir now allow_overwrite).
Definition remove (name : string) : eff json_file (option RegistryEntry) :=
  registry_run (ORemove name).

(** ** What a registry must satisfy: no legacy path key. *)
Definition registry_ok (data : raw_registry) : Prop :=
  ∀ name, is_Some (data !! name) → startswith "/" name = false.

Definition registry_op_ok (o : registry_op) : Prop :=
  match o with
  | ORegister name _ _ _ => startswith "/" name = false
  | ORemove _ => True
  end.

(** ** Lemmas *)

Lemma is_path_keyed_false data : is_path_keyed data = false ↔
  ∀ name, is_Some (data !! name) → startswith "/" name = false.
Proof.
  unfold is_path_keyed. rewrite <- not_true_iff_false, existsb_exists. split.
  - intros H name [v Hv]. apply not_true_iff_false. intros Hs. apply H. exists name.
    split; [|done]. apply list_elem_of_In, list_elem_of_fmap.
    exists (name, v). split; [done|]. by apply elem_of_map_to_list.
  - intros H (name & Hin & Hs). apply list_elem_of_In, list_elem_of_fmap in Hin
      as ([k v] & -> & Hv%elem_of_map_to_list). cbn [fst] in Hs.
    rewrite H in Hs; [done|eauto].
Qed.

Lemma load_raw_ok f : registry_ok (load_raw f).
Proof.
  assert (registry_ok ∅) by (intros name [v Hv]; by rewrite lookup_empty in Hv).
  destruct f as [| |[]]; simpl; try done.
  destruct (is_path_keyed m) eqn:E; [done|].
  rewrite is_path_keyed_false in E. intros name [v Hv]. apply E.
  rewrite lookup_omap in Hv. destruct (m !! name); [eauto|done].
Qed.

Lemma str_fields_JStr fields : str_fields (JStr <$> fields) = fields.
Proof.
  apply map_eq. intros k. unfold str_fields. rewrite lookup_omap, lookup_fmap.
  by destruct (fields !! k).
Qed.

Lemma load_write_raw data : registry_ok data → load_raw (write_raw data) = data.
Proof.
  intros Hok. simpl.
  rewrite (proj2 (is_path_keyed_false _)).
  - apply map_eq. intros name. rewrite lookup_omap, lookup_fmap.
    destruct (data !! name) as [fields|]; simpl; [|done].
    by rewrite str_fields_JStr.
  - intros name. rewrite lookup_fmap. intros H%fmap_is_Some. auto.
Qed.

Lemma registry_decide_ok o data r d : registry_ok data → registry_op_ok o →
  registry_decide o data = (r, Some d) → registry_ok d.
Proof.
  intros Hok Ho. destruct o as [name dir now ow|name]; simpl in *.
  - destruct (_ && _); [done|]. intros [= _ <-] name' [v Hv].
    apply lookup_insert_Some in Hv as [[<- _]|[_ Hv]]; [done|eauto].
  - intros [= _ <-] name' [v Hv]. apply lookup_delete_Some in Hv as [_ Hv]. eauto.
Qed.

#[export] Program Instance registry_store :
    LockedStore registry_op registry_result raw_registry json_file := {
  ls_load := load_raw;
  ls_store := write_raw;
  ls_truncated := JCorrupt;
  ls_decide := registry_decide;
  ls_op_ok := registry_op_ok;
  ls_ok := registry_ok
}.
Next Obligation. intros. by apply load_write_raw. Qed.
Next Obligation. intros. by eapply registry_decide_ok. Qed.

Lemma entry_of_asdict e : entry_of (asdict e) = Some e.
Proof. by destruct e. Qed.

Lemma registry_get_write data name : registry_ok data →
  registry_get (write_raw data) name = data !! name ≫= entry_of.
Proof. intros. unfold registry_get. by rewrite load_write_raw. Qed.

(** ** Properties *)

(** Concurrent [register] and [remove] calls are serializable: in every
    reachable state the returned results and the current registry are those of
    running the calls one after the other in the order of their return; and no
    schedule lets two calls without [allow_overwrite] both register a name
    unless it was removed in between. *)
Theorem registry_serializable (f : json_file)
    (s : system registry_op registry_result raw_registry json_file)
    (Hreach : rtc sys_step (sys_initial f) s) :
  replay (load_raw f) (sys_log s ++ pending s) = Some (abs_data s) ∧
  (sys_lock s = None → abs_data s = load_raw (sys_file s)) ∧
  (∀ (before after : list (nat * registry_op * registry_result)) p o r name dir now,
     (sys_log s ++ pending s = before ++ (p, o, r) :: after)%list →
     o = ORegister name dir now false →
     ∃ d, replay (load_raw f) before = Some d ∧
          ((is_Some (d !! name) ∧ r = Err InstanceNameInUseError) ∨
           (d !! name = None ∧ r = Ok (Some (MkRegistryEntry dir now))))).
Proof.
  destruct (serializable (LS:=registry_store) f s (load_raw_ok f) Hreach) as (Hr & _ & Hl).
  split_and!; [exact Hr|exact Hl|].
  intros before after p o r name dir now Hlog ->. rewrite Hlog, replay_app in Hr.
  destruct (replay _ before) as [d|]; [|done]. exists d. split; [done|]. simpl in Hr.
  destruct (spec_op _ d) as [r' d'] eqn:E. case_decide as Hrr; [subst r'|done].
  unfold spec_op in E; simpl in E. rewrite andb_true_r in E.
  destruct (d !! name) as [v|]; simpl in E; [left|right]; split; try naive_solver.
Qed.

(** [register] refuses a registered name unless overwriting is allowed,
    with no effect; otherwise the name reads back as the new entry, and no other
    name changes. [remove] makes exactly the one name unknown. *)
Theorem registry_roundtrip (f : json_file) (name dir now : string) (ow : bool) (name' : string)
    (Hname : startswith "/" name = false) :
  (let '(r, f') := register name dir now ow f in
   match r with
   | Ok e => e = Some (MkRegistryEntry dir now) ∧
             (is_Some (load_raw f !! name) → ow = true) ∧
             registry_get f' name' =
               if decide (name' = name) then e else registry_get f name'
   | Err e => e = InstanceNameInUseError ∧ is_Some (load_raw f !! name) ∧ ow = false ∧ f' = f
   end) ∧
  (let '(r, f') := remove name f in
   r = Ok None ∧
   registry_get f' name' = if decide (name' = name) then None else registry_get f name').
Proof.
  pose proof (load_raw_ok f) as Hok. split.
  - unfold register, registry_run, registry_decide.
    destruct (bool_decide _ && negb ow) eqn:E; simpl; breflect; [by destruct ow|].
    rewrite registry_get_write by (by eapply (registry_decide_ok (ORegister name dir now true));
      [| |simpl; by rewrite andb_false_r]).
    split_and!; [done| |].
    + intros Hs. destruct ow; [done|]. by rewrite bool_decide_true in E.
    + case_decide as Hn; [subst; by rewrite lookup_insert_eq|].
      by rewrite lookup_insert_ne.
  - unfold remove, registry_run; simpl. split; [done|].
    rewrite registry_get_write by (by eapply (registry_decide_ok (ORemove name))).
    case_decide as Hn; [subst; by rewrite lookup_delete_eq|].
    by rewrite lookup_delete_ne.
Qed.

(** [all] and [get] agree on every file, corrupt, legacy and hand-edited
    ones included. *)
Theorem registry_all_get (f : json_file) (name : string) :
  registry_all f !! name = registry_get f name.
Proof.
  unfold registry_all, registry_get. rewrite lookup_omap.
  by destruct (load_raw f !! name).
Qed.

(** ** Witnesses *)

Definition demo_registry : json_file :=
  JDoc (JObj {[ "a" := JObj {[ "instance_dir" := JStr "/i/a"; "created_at" := JStr "t0" ]};
                "bad" := JObj {[ "instance_dir" := JInt 3 ]} ]}).

Lemma registry_roundtrip_witness :
  registry_get (register "b" "/i/b" "t1" false demo_registry).2 "b"
    = Some (MkRegistryEntry "/i/b" "t1") ∧
  registry_get (register "b" "/i/b" "t1" false demo_registry).2 "a"
    = Some (MkRegistryEntry "/i/a" "t0").
Proof.
  destruct (registry_roundtrip demo_registry "b" "/i/b" "t1" false "b" eq_refl) as [Hb _].
  destruct (registry_roundtrip demo_registry "b" "/i/b" "t1" false "a" eq_refl) as [Ha _].
  split; [exact (proj2 (proj2 Hb))|exact (proj2 (proj2 Ha))].
Defined.

Lemma registry_serializable_witness :
  let s := System (D:=raw_registry) demo_registry (Some 1%nat)
             (set_proc (λ _, PIdle) 1%nat (PLocked (ORemove "a"))) [] in
  replay (load_raw demo_registry) (sys_log s ++ pending s)
    = Some (abs_data s).
Proof.
  intros s. apply (registry_serializable demo_registry s).
  eapply rtc_l; [by eapply (step_lock _ _ _ 1%nat (ORemove "a"))|]. apply rtc_refl.
Defined.
