(* ===== verification/SetupState.v ===== *)
(** * core.setup_state: the per-operator execution-mode marker

    The marker is a root-owned JSON file with one entry per operator.  Reads
    are modelled on any JSON, well formed or not; the write is the code's
    sequence of file operations, any of which may fail. *)
From S2P Require Import Prelude PyStr Json HostConfig.
From Stdlib Require Import Ascii String.

(** Fields are what the JSON holds: the reader does not check their types. *)
Record MarkerEntry := MkMarkerEntry {
  me_mode : DockerExecutionMode;
  me_group : JsonValue;
  me_gid : JsonValue;
  me_user : JsonValue
}.

(** [MARKER_PATH.read_text()] then [json.loads]; [None] is a missing file. *)
Definition read_marker (f : json_file) : res (option JsonValue) :=
  match f with
  | JMissing => Ok None
  | JCorrupt => Err JSONDecodeError
  | JDoc v => Ok (Some v)
  end.

(** [data.get("operators", {})] then [.get(operator)]; [None] and [null] both
    read as Python's [None]. *)
Definition operator_entry (operator : string) (data : JsonValue) : res (option JsonValue) :=
  operators ← json_get "operators" data;
  entry ← json_get operator (default (JObj ∅) operators);
  Ok (match entry with Some JNull => None | e => e end).

(** [DockerExecutionMode(v)] *)
Definition mode_of_json (v : JsonValue) : res DockerExecutionMode :=
  match v with JStr s => mode_of_value s | _ => Err ValueError end.

Definition read_mode (f : json_file) (operator : string) : res (option DockerExecutionMode) :=
  raw ← read_marker f;
  match raw with
  | None => Ok None
  | Some data =>
      entry ← operator_entry operator data;
      match entry with
      | None => Ok None
      | Some e => v ← json_index "mode" e; m ← mode_of_json v; Ok (Some m)
      end
  end.

(** The fields of a present entry; [None] for a legacy mode-only one. *)
Definition parse_entry (e : JsonValue) : res (option MarkerEntry) :=
  has_group ← json_in "workspace_bridge_group" e;
  if negb has_group then Ok None else
  has_gid ← json_in "workspace_bridge_gid" e;
  if negb has_gid then Ok None else
  v ← json_index "mode" e;
  m ← mode_of_json v;
  group ← json_index "workspace_bridge_group" e;
  gid ← json_index "workspace_bridge_gid" e;
  user ← json_get "docker_unprivileged_user" e;
  Ok (Some (MkMarkerEntry m group gid (default JNull user))).

Definition read_entry (f : json_file) (operator : string) : res (option MarkerEntry) :=
  raw ← read_marker f;
  match raw with
  | None => Ok None
  | Some data =>
      entry ← operator_entry operator data;
      match entry with None => Ok None | Some e => parse_entry e end
  end.

(** ** The writer *)

Definition marker_entry (mode : DockerExecutionMode) (group : string) (gid : Z)
    (user : option string) : JsonValue :=
  let entry := {[ "mode" := JStr (mode_value mode);
                  "workspace_bridge_group" := JStr group;
                  "workspace_bridge_gid" := JInt gid ]} in
  JObj (match user with
        | Some u => <["docker_unprivileged_user" := JStr u]> entry
        | None => entry
        end).

(** [[FATAL] ... is not a JSON object], [... has a non-object 'operators'] *)
Definition malformed_marker : exn := SandboxExecutionError "malformed mode marker" false.

(** Read and merge: the document to write. *)
Definition merge_marker (operator : string) (entry : JsonValue) (f : json_file)
    : res JsonValue :=
  raw ← read_marker f;
  data ← match raw with
         | None => Ok ∅
         | Some (JObj data) => Ok data
         | Some _ => Err malformed_marker
         end;
  operators ← match data !! "operators" with
              | None => Ok ∅
              | Some (JObj operators) => Ok operators
              | Some _ => Err malformed_marker
              end;
  Ok (JObj (<["operators" := JObj (<[operator := entry]> operators)]> data)).

(** The marker's directory: how many directories of its path are missing, the
    marker file with its permission bits and owner, and the temporary files
    that are left. *)
Record marker_dir := MarkerDir {
  missing_dirs : nat;
  marker : json_file;
  marker_perm : Z;
  marker_owner : Z * Z;
  temp_files : list json_file
}.

(** The calls that create the file, each of which may fail; [CallMkdir n] makes
    the directory below which [n] more are missing. *)
Inductive write_call := CallMkdir (below : nat) | CallMkstemp | CallWrite | CallChmod | CallReplace | CallUnlink.

#[export] Instance write_call_eq_dec : EqDecision write_call.
Proof. solve_decision. Defined.

Abbreviation write_faults := (write_call → bool).
Definition no_fault : write_faults := λ _, false.
Definition fails_at (c : write_call) : write_faults := λ c', bool_decide (c' = c).

Definition fault_here (fails : write_faults) (here : write_call) : eff marker_dir unit := λ s,
  if fails here then (Err OSError, s) else (Ok tt, s).

Definition set_missing (n : nat) (s : marker_dir) : marker_dir :=
  MarkerDir n (marker s) (marker_perm s) (marker_owner s) (temp_files s).

(** [mkdir(parents=True, exist_ok=True)], from the outermost on. *)
Fixpoint make_parents (fails : write_faults) (missing : nat) : eff marker_dir unit :=
  match missing with
  | O => mret tt
  | S below =>
      _ ← fault_here fails (CallMkdir below);
      s ← get_state;
      _ ← put_state (set_missing below s);
      make_parents fails below
  end.

Definition mkstemp : eff marker_dir unit := λ s,
  (Ok tt, MarkerDir (missing_dirs s) (marker s) (marker_perm s) (marker_owner s) (JCorrupt :: temp_files s)).

(** A failed write leaves the temporary file unreadable. *)
Definition write_temp (doc : JsonValue) : eff marker_dir unit := λ s,
  (Ok tt, MarkerDir (missing_dirs s) (marker s) (marker_perm s) (marker_owner s)
            (JDoc doc :: tail (temp_files s))).

(** [os.replace]: the temporary file, of the caller's ownership and the given
    permissions, becomes the marker. *)
Definition os_replace (caller : Z * Z) : eff marker_dir unit := λ s,
  match temp_files s with
  | t :: ts => (Ok tt, MarkerDir (missing_dirs s) t 420 caller ts)
  | [] => (Err FileNotFoundError, s)
  end.

Definition unlink_temp (fails : write_faults) : eff marker_dir unit :=
  _ ← fault_here fails CallUnlink;
  s ← get_state;
  put_state (MarkerDir (missing_dirs s) (marker s) (marker_perm s) (marker_owner s) (tail (temp_files s))).

(** [try: body except BaseException: cleanup; raise]: an error of the cleanup
    takes the place of the body's. *)
Definition on_error {S A} (body : eff S A) (cleanup : eff S unit) : eff S A := λ s,
  match body s with
  | (Ok a, s') => (Ok a, s')
  | (Err e, s') => match cleanup s' with
                   | (Ok _, s'') => (Err e, s'')
                   | (Err e', s'') => (Err e', s'')
                   end
  end.

Definition write_mode (fails : write_faults) (caller : Z * Z) (operator : string)
    (mode : DockerExecutionMode) (group : string) (gid : Z) (user : option string)
    : eff marker_dir unit :=
  s ← get_state;
  merged ← lift_res (merge_marker operator (marker_entry mode group gid user) (marker s));
  _ ← make_parents fails (missing_dirs s);
  _ ← fault_here fails CallMkstemp;
  _ ← mkstemp;
  on_error
    (_ ← fault_here fails CallWrite;
     _ ← write_temp merged;
     _ ← fault_here fails CallChmod;
     _ ← fault_here fails CallReplace;
     os_replace caller)
    (unlink_temp fails).

Definition write_mode_root_owned (fails : write_faults) (caller : Z * Z) (operator : string)
    (mode : DockerExecutionMode) (group : string) (gid : Z) (user : option string)
    : eff marker_dir unit :=
  _ ← write_mode fails caller operator mode group gid user;
  s ← get_state;
  put_state (MarkerDir (missing_dirs s) (marker s) 420 (0, 0)%Z (temp_files s)).

(** ** The runtime's readers *)

Definition resolve_execution_mode (f : json_file) (operator : string) : res DockerExecutionMode :=
  m ← read_mode f operator;
  match m with None => Err ModeMarkerMissing | Some m => Ok m end.

(** The typed fields of [HostSettings]: a wrong JSON type is a
    [ValidationError], a [ValueError]. *)
Definition from_marker (f : json_file) (operator : string) : res HostConfig :=
  entry ← read_entry f operator;
  match entry with
  | None => Err ModeMarkerMissing
  | Some e =>
      user ← match me_user e with
             | JNull => Ok None
             | JStr u => Ok (Some u)
             | _ => Err ValueError
             end;
      group ← match me_group e with JStr g => Ok g | _ => Err ValueError end;
      s ← new_HostSettings user (me_mode e) group;
      Ok (MkHostConfig s)
  end.

(** ** Lemmas *)

Lemma mode_value_roundtrip m : mode_of_value (mode_value m) = Ok m.
Proof. by destruct m. Qed.

Lemma merge_marker_Ok operator entry f doc : merge_marker operator entry f = Ok doc →
  ∃ data operators,
    doc = JObj (<["operators" := JObj (<[operator := entry]> operators)]> data) ∧
    (f = JMissing ∧ data = ∅ ∧ operators = ∅ ∨
     f = JDoc (JObj data) ∧
       (data !! "operators" = None ∧ operators = ∅ ∨
        data !! "operators" = Some (JObj operators))).
Proof.
  unfold merge_marker, read_marker.
  destruct f as [| |[]]; simpl; try done.
  - intros [= <-]. exists ∅, ∅. auto.
  - destruct (m !! "operators") as [[]|] eqn:E; simpl; try done; intros [= <-]; eauto 10.
Qed.

(** A merged marker has the new entry, and every other entry it had. *)
Lemma operator_entry_merged operator entry f doc other : entry ≠ JNull →
  merge_marker operator entry f = Ok doc →
  operator_entry other doc =
    if decide (other = operator) then Ok (Some entry)
    else match f with JDoc v => operator_entry other v | _ => Ok None end.
Proof.
  intros Hnull (data & ops & -> & H)%merge_marker_Ok.
  unfold operator_entry; simpl. rewrite lookup_insert_eq; simpl.
  case_decide as Ho.
  - subst. rewrite lookup_insert_eq. by destruct entry.
  - rewrite lookup_insert_ne by done.
    destruct H as [(-> & -> & ->)|(-> & [[Hd ->]|Hd])].
    + by rewrite lookup_empty.
    + simpl. rewrite Hd. simpl. by rewrite !lookup_empty.
    + simpl. by rewrite Hd.
Qed.

Lemma marker_entry_not_null mode group gid user : marker_entry mode group gid user ≠ JNull.
Proof. done. Qed.
#[export] Hint Resolve marker_entry_not_null : sandbox.

Definition entry_record (mode : DockerExecutionMode) (group : string) (gid : Z)
    (user : option string) : MarkerEntry :=
  MkMarkerEntry mode (JStr group) (JInt gid) (match user with Some u => JStr u | None => JNull end).

Lemma parse_marker_entry mode group gid user :
  parse_entry (marker_entry mode group gid user) = Ok (Some (entry_record mode group gid user)).
Proof. by destruct user, mode. Qed.

Lemma mode_marker_entry mode group gid user :
  (v ← json_index "mode" (marker_entry mode group gid user); mode_of_json v) = Ok mode.
Proof. by destruct user, mode. Qed.

(** ** Properties *)

Lemma make_parents_spec fails s :
  make_parents fails (missing_dirs s) s = (Ok tt, set_missing 0 s) ∨
  ∃ n, (0 < n <= missing_dirs s)%nat ∧ make_parents fails (missing_dirs s) s = (Err OSError, set_missing n s).
Proof.
  destruct s as [n f p o ts]. cbn [missing_dirs]. induction n as [|n IH]; [by left|].
  cbn [make_parents]. unfold mbind, eff_bind, fault_here. destruct (fails (CallMkdir n)).
  - right. exists (S n). split; [lia|done].
  - unfold get_state, put_state. cbn. unfold set_missing in *. cbn in *.
    destruct IH as [H|(k & Hk & H)]; rewrite H; [by left|]. right. exists k. split; [lia|done].
Qed.

(** What the calls make when none of them fails. *)
Lemma write_calls_Ok fails caller doc s s' :
  (_ ← make_parents fails (missing_dirs s);
   _ ← fault_here fails CallMkstemp;
   _ ← mkstemp;
   on_error
     (_ ← fault_here fails CallWrite;
      _ ← write_temp doc;
      _ ← fault_here fails CallChmod;
      _ ← fault_here fails CallReplace;
      os_replace caller)
     (unlink_temp fails)) s = (Ok tt, s') →
  s' = MarkerDir 0 (JDoc doc) 420 caller (temp_files s).
Proof.
  unfold mbind, eff_bind. destruct (make_parents_spec fails s) as [H|(n & _ & H)]; rewrite H; [|done].
  unfold fault_here, on_error, mkstemp, write_temp, os_replace, unlink_temp, get_state, put_state, mbind, eff_bind. cbn.
  destruct (fails CallMkstemp), (fails CallWrite), (fails CallChmod), (fails CallReplace);
    unfold fault_here; destruct (fails CallUnlink); by intros [= <-].
Qed.

(** A successful write makes the operator's mode and entry read back as
    written, leaves what every other operator reads unchanged, keeps every
    other top-level key of the marker, and leaves the marker world-readable and
    not writable by others with no temporary file behind. *)
Theorem write_mode_roundtrip (caller : Z * Z) (operator : string) (mode : DockerExecutionMode)
    (group : string) (gid : Z) (user : option string) (fails : write_faults) (s s' : marker_dir)
    (Hw : write_mode fails caller operator mode group gid user s = (Ok tt, s')) :
  read_mode (marker s') operator = Ok (Some mode) ∧
  read_entry (marker s') operator = Ok (Some (entry_record mode group gid user)) ∧
  (∀ other, other ≠ operator →
     read_mode (marker s') other = read_mode (marker s) other ∧
     read_entry (marker s') other = read_entry (marker s) other) ∧
  (∀ data k, marker s = JDoc (JObj data) → k ≠ "operators" →
     ∃ data', marker s' = JDoc (JObj data') ∧ data' !! k = data !! k) ∧
  marker_perm s' = 420%Z ∧ marker_owner s' = caller ∧ temp_files s' = temp_files s.
Proof.
  unfold write_mode, get_state, lift_res, mbind, eff_bind in Hw; simpl in Hw.
  destruct (merge_marker _ _ _) as [doc|] eqn:Hm; simpl in Hw; [|done].
  apply write_calls_Ok in Hw as ->.
  pose proof (operator_entry_merged _ _ _ _ operator
    (marker_entry_not_null mode group gid user) Hm) as He.
  rewrite decide_True in He by done.
  split_and!; try done.
  - unfold read_mode; simpl. rewrite He; simpl. by destruct user, mode.
  - unfold read_entry; simpl. rewrite He; simpl. apply parse_marker_entry.
  - intros other Hne.
    pose proof (operator_entry_merged _ _ _ _ other
      (marker_entry_not_null mode group gid user) Hm) as Ho.
    rewrite decide_False in Ho by done.
    destruct (merge_marker_Ok _ _ _ _ Hm) as (data & ops & _ & [(Hf & _)|(Hf & _)]);
      unfold read_mode, read_entry; rewrite Hf in Ho |- *; simpl; rewrite Ho; done.
  - intros data k Hf Hk.
    destruct (merge_marker_Ok _ _ _ _ Hm) as (data0 & ops & -> & [(Hf' & _)|(Hf' & _)]);
      simplify_eq; [congruence|].
    eexists; split; [done|]. rewrite lookup_insert_ne by done. congruence.
Qed.

(** C16: The write is atomic: if any of its calls fails, or the marker is
    malformed, the marker file, its permissions and its owner are what they
    were.  No temporary file is left, unless the unlink of the cleanup fails
    too: then at most one is.  Directories on the way to the marker that were
    made stay; a malformed marker changes nothing at all. *)
Theorem write_mode_atomic (caller : Z * Z) (operator : string) (mode : DockerExecutionMode)
    (group : string) (gid : Z) (user : option string) (fails : write_faults) (s s' : marker_dir)
    (e : exn)
    (Hw : write_mode fails caller operator mode group gid user s = (Err e, s')) :
  marker s' = marker s ∧ marker_perm s' = marker_perm s ∧ marker_owner s' = marker_owner s ∧
  (missing_dirs s' <= missing_dirs s)%nat ∧
  (fails CallUnlink = false → temp_files s' = temp_files s) ∧
  (temp_files s' = temp_files s ∨ ∃ t, temp_files s' = t :: temp_files s) ∧
  (is_ok (merge_marker operator (marker_entry mode group gid user) (marker s)) = false ∨
   (missing_dirs s = 0%nat ∧ fails CallUnlink = false) → s' = s).
Proof.
  unfold write_mode, get_state, lift_res, mbind, eff_bind in Hw; simpl in Hw.
  destruct (merge_marker _ _ _) as [doc|] eqn:Hm; simpl in Hw.
  2: { injection Hw as _ <-. split_and!; auto. }
  destruct (make_parents_spec fails s) as [H|(n & Hn & H)]; rewrite H in Hw; simpl in Hw.
  2: { injection Hw as _ <-. destruct s as [m f p o ts]. cbn in *. split_and!; [done..|lia|done|by left|]. intros [?|[? _]]; [done|lia]. }
  unfold fault_here, on_error, mkstemp, write_temp, os_replace, unlink_temp, get_state, put_state, mbind, eff_bind in Hw; simpl in Hw.
  destruct s as [m f p o ts]. cbn in *.
  destruct (fails CallMkstemp), (fails CallUnlink) eqn:Hu, (fails CallWrite), (fails CallChmod), (fails CallReplace);
    unfold fault_here in Hw; rewrite ?Hu in Hw; simplify_eq/=; split_and!; try done; try lia; eauto;
    intros [?|[-> _]]; done.
Qed.

(** The root-owned write hands the runtime exactly what setup recorded: the
    marker is [root:root 0644], the configuration loaded from it is the
    validated one of the recorded facts, and the execution mode resolves.  An
    operator without an entry fails closed. *)
Theorem from_marker_roundtrip (caller : Z * Z) (operator : string) (mode : DockerExecutionMode)
    (group : string) (gid : Z) (user : option string) (s s' : marker_dir)
    (Hw : write_mode_root_owned no_fault caller operator mode group gid user s = (Ok tt, s')) :
  marker_owner s' = (0, 0)%Z ∧ marker_perm s' = 420%Z ∧
  resolve_execution_mode (marker s') operator = Ok mode ∧
  from_marker (marker s') operator =
    (h ← new_HostSettings user mode group; Ok (MkHostConfig h)) ∧
  (marker s = JMissing → ∀ other, other ≠ operator →
     from_marker (marker s') other = Err ModeMarkerMissing ∧
     resolve_execution_mode (marker s') other = Err ModeMarkerMissing).
Proof.
  unfold write_mode_root_owned, mbind, eff_bind at 1 in Hw.
  destruct (write_mode _ _ _ _ _ _ _ s) as [[[]|e] s1] eqn:Hw1; [|done].
  unfold get_state, put_state, eff_bind in Hw. simplify_eq/=.
  pose proof (write_mode_roundtrip _ _ _ _ _ _ _ _ _ Hw1) as (Hm & He & Hother & _).
  unfold resolve_execution_mode, from_marker. rewrite Hm, He; simpl.
  split_and!; try done; [by destruct user|].
  intros Hmiss other Hne. destruct (Hother other Hne) as [-> ->]. by rewrite Hmiss.
Qed.

(** ** Witnesses *)

Definition demo_marker : marker_dir := MarkerDir 0
  (JDoc (JObj {[ "operators" := JObj {[ "bob" := marker_entry SEPARATE_USER "sb-ws" 970 (Some "sandbox") ]};
                 "version" := JInt 1 ]})) 420 (0, 0)%Z [].

Definition demo_marker' : marker_dir :=
  (write_mode no_fault (0, 0)%Z "alice" OPERATOR_ROOTLESS "sb-ws-alice" 971 None demo_marker).2.

Lemma write_mode_roundtrip_witness :
  read_mode (marker demo_marker') "alice" = Ok (Some OPERATOR_ROOTLESS) ∧
  read_entry (marker demo_marker') "bob" = read_entry (marker demo_marker) "bob".
Proof.
  destruct (write_mode_roundtrip (0, 0)%Z "alice" OPERATOR_ROOTLESS "sb-ws-alice" 971 None
    no_fault demo_marker demo_marker' ltac:(by vm_compute)) as (Hm & _ & Ho & _).
  split; [exact Hm|]. apply (Ho "bob"). done.
Defined.

Lemma write_mode_atomic_witness :
  (write_mode (fails_at CallReplace) (0, 0)%Z "alice" OPERATOR_ROOTLESS "sb-ws-alice" 971 None demo_marker).2
    = demo_marker.
Proof.
  apply (write_mode_atomic (0, 0)%Z "alice" OPERATOR_ROOTLESS "sb-ws-alice" 971 None
    (fails_at CallReplace) demo_marker _ OSError); [by vm_compute|by right].
Defined.

Lemma from_marker_roundtrip_witness :
  let s' := (write_mode_root_owned no_fault (5, 5)%Z "eve" SEPARATE_USER "sb-ws" 9 (Some "sandbox")
               (MarkerDir 2 JMissing 0 (0, 0)%Z [])).2 in
  from_marker (marker s') "eve" =
    Ok (MkHostConfig (MkHostSettings (Some "sandbox") SEPARATE_USER "sb-ws")) ∧
  from_marker (marker s') "mallory" = Err ModeMarkerMissing.
Proof.
  intros s'.
  destruct (from_marker_roundtrip (5, 5)%Z "eve" SEPARATE_USER "sb-ws" 9 (Some "sandbox")
    (MarkerDir 2 JMissing 0 (0, 0)%Z []) s' eq_refl) as (_ & _ & _ & Hf & Hother).
  split; [exact Hf|]. apply (Hother eq_refl "mallory"). done.
Defined.
