(* ===== verification/Walker.v ===== *)
(** * core.walker: the ancestor chain that receives traverse grants

    The file system is a parameter: [abspath], [realpath], and [lstat], which
    says whether a path is a symlink ([None] when the call fails). *)
From S2P Require Import Prelude PyStr.
From Stdlib Require Import Ascii String.

Definition MAX_DEPTH : nat := 64.

(** The fixed entries; the home of the user is the last one. *)
Definition BOUNDARY_PATHS (home : string) : list string :=
  ["/"; "/etc"; "/usr"; "/var"; "/tmp"; "/proc"; "/sys"; "/dev"; "/boot"; "/run"; "/home";
   "/root"; home].

Definition is_boundary (home path : string) : bool :=
  existsb (String.eqb path) (BOUNDARY_PATHS home).

Section walker.
Context (home : string) (abspath realpath : string → string) (lstat : string → option bool).

(** The [while True] loop; [None] is out of fuel. *)
Fixpoint walk_loop (fuel : nat) (current : string) (ancestors : list string)
    : option (res (list string)) :=
  match fuel with
  | O => None
  | S fuel =>
      match lstat current with
      | None => Some (Err OSError)
      | Some true => Some (Err SymlinkInChainError)
      | Some false =>
          let ancestors := (ancestors ++ [current])%list in
          if (MAX_DEPTH <? List.length ancestors)%nat then Some (Err DepthExceededError)
          else
            let parent := dirname current in
            if String.eqb parent current || is_boundary home parent then Some (Ok ancestors)
            else walk_loop fuel parent ancestors
      end
  end.

(** The loop raises before it comes round for the 66th time. *)
Definition walk_fuel : nat := S MAX_DEPTH.

Definition walk_ancestors (target_path : string) : option (res (list string)) :=
  let abs_path := abspath target_path in
  let resolved := realpath target_path in
  if negb (String.eqb resolved abs_path) then Some (Err SymlinkInChainError)
  else if is_boundary home resolved then Some (Err BoundaryPathError)
  else walk_loop walk_fuel resolved [].

(** ** Specification: the [n] first ancestors of a path, itself included. *)
Definition chain (p : string) (n : nat) : list string :=
  map (λ i, Nat.iter i dirname p) (seq 0 n).

(** The walk may go from the [i]th ancestor to the next. *)
Definition goes_on (p : string) (i : nat) : Prop :=
  let a := Nat.iter i dirname p in
  lstat a = Some false ∧ dirname a ≠ a ∧ is_boundary home (dirname a) = false.

Lemma chain_snoc p n : chain p (S n) = (chain p n ++ [Nat.iter n dirname p])%list.
Proof. unfold chain. rewrite seq_S, map_app. done. Qed.

Lemma chain_length p n : List.length (chain p n) = n.
Proof. unfold chain. by rewrite length_map, length_seq. Qed.

(** The whole behaviour of the loop after [n] rounds. *)
Lemma walk_loop_spec p fuel n : n + fuel = walk_fuel → n <= MAX_DEPTH → (∀ i, i < n → goes_on p i) →
  ∃ m, n <= m <= MAX_DEPTH ∧ (∀ i, i < m → goes_on p i) ∧
  let a := Nat.iter m dirname p in
  match walk_loop fuel (Nat.iter n dirname p) (chain p n) with
  | None => False
  | Some (Ok l) => l = chain p (S m) ∧ m < MAX_DEPTH ∧ lstat a = Some false ∧
                   (dirname a = a ∨ is_boundary home (dirname a) = true)
  | Some (Err e) =>
      (e = OSError ∧ lstat a = None) ∨ (e = SymlinkInChainError ∧ lstat a = Some true) ∨
      (e = DepthExceededError ∧ m = MAX_DEPTH ∧ lstat a = Some false)
  end.
Proof.
  revert n; induction fuel as [|fuel IH]; intros n Hn Hle Hgo.
  { unfold walk_fuel in Hn. lia. }
  cbn [walk_loop]. destruct (lstat (Nat.iter n dirname p)) as [[]|] eqn:El.
  - exists n. split_and!; [lia|lia|done|]. auto.
  - rewrite <- chain_snoc, chain_length.
    destruct (Nat.ltb_spec MAX_DEPTH (S n)) as [Hlt|Hge].
    + exists n. split_and!; [lia|lia|done|]. right; right. split_and!; [done|lia|done].
    + destruct (String.eqb_spec (dirname (Nat.iter n dirname p)) (Nat.iter n dirname p)) as [Hr|Hr];
        [|destruct (is_boundary home (dirname (Nat.iter n dirname p))) eqn:Eb]; simpl.
      * exists n. split_and!; [lia|lia|done|done|lia|done|by left].
      * exists n. split_and!; [lia|lia|done|done|lia|done|by right].
      * destruct (IH (S n)) as (m & Hm & Hgo' & H); [lia|lia| |].
        { intros i Hi. destruct (decide (i = n)) as [->|]; [done|apply Hgo; lia]. }
        exists m. split_and!; [lia|lia|done|].
        simpl in H. by destruct (walk_loop fuel _ _) as [[]|].
  - exists n. split_and!; [lia|lia|done|]. auto.
Qed.
End walker.

(** ** Properties *)

(** The walk always ends, and ends right.  On success the plan is the
    target followed by its successive parents, at most [MAX_DEPTH] paths, none
    of them a boundary path or a symlink, and the parent of the last one is a
    boundary path (or the last one is a root).  It refuses exactly a target that
    resolves through a symlink, a target on the boundary list, a symlink met on
    the way, and a chain longer than [MAX_DEPTH]. *)
Theorem walk_ancestors_spec (home : string) (abspath realpath : string → string)
    (lstat : string → option bool) (target : string) :
  let p := realpath target in
  match walk_ancestors home abspath realpath lstat target with
  | None => False
  | Some (Ok l) =>
      p = abspath target ∧ (∃ n, 0 < n <= MAX_DEPTH ∧ l = chain p n ∧
        (∀ i, i < n → lstat (Nat.iter i dirname p) = Some false) ∧
        (let last := Nat.iter (n - 1) dirname p in
         dirname last = last ∨ is_boundary home (dirname last) = true)) ∧
      Forall (λ a, is_boundary home a = false ∧ lstat a = Some false) l
  | Some (Err SymlinkInChainError) =>
      p ≠ abspath target ∨ ∃ i, i <= MAX_DEPTH ∧ lstat (Nat.iter i dirname p) = Some true
  | Some (Err BoundaryPathError) => is_boundary home p = true
  | Some (Err DepthExceededError) =>
      ∀ i, i <= MAX_DEPTH → is_boundary home (Nat.iter i dirname p) = false ∧
                            lstat (Nat.iter i dirname p) = Some false
  | Some (Err e) => e = OSError ∧ ∃ i, lstat (Nat.iter i dirname p) = None
  end.
Proof.
  intros p. unfold walk_ancestors. fold p.
  destruct (String.eqb_spec p (abspath target)) as [Hp|Hp]; cbn [negb]; [|by left].
  destruct (is_boundary home p) eqn:Eb; [done|].
  pose proof (walk_loop_spec home lstat p walk_fuel 0 eq_refl ltac:(lia) ltac:(lia))
    as (m & Hm & Hgo & H).
  assert (Hb : ∀ i, i <= m → is_boundary home (Nat.iter i dirname p) = false).
  { intros [|i] Hi; [done|]. cbn [Nat.iter]. apply Hgo. lia. }
  cbn zeta in H. change (chain p 0) with (@nil string) in H.
  change (Nat.iter 0 dirname p) with p in H.
  destruct (walk_loop home lstat walk_fuel p []) as [[l|e]|]; [|..|done].
  - destruct H as (-> & Hlt & Hl & Hend).
    assert (Hls : ∀ i, i < S m → lstat (Nat.iter i dirname p) = Some false).
    { intros i Hi. destruct (decide (i = m)) as [->|]; [done|]. apply Hgo; lia. }
    split_and!; [done| |].
    + exists (S m). split_and!; [lia|lia|done|done|]. by rewrite Nat.sub_succ, Nat.sub_0_r.
    + apply Forall_forall. intros a (i & -> & Hi)%list_elem_of_fmap.
      apply list_elem_of_In, in_seq in Hi. split; [apply Hb; lia|apply Hls; lia].
  - destruct H as [[-> Hl]|[[-> Hl]|(-> & -> & Hl)]].
    + eauto.
    + right. exists m. split; [lia|done].
    + intros i Hi. split; [by apply Hb|].
      destruct (decide (i = MAX_DEPTH)) as [->|]; [done|]. apply Hgo. lia.
Qed.

(** A workspace three levels below the home directory. *)
Example walk_demo :
  walk_ancestors "/home/u" (λ p, p) (λ p, p) (λ _, Some false) "/home/u/w/a/b" =
    Some (Ok ["/home/u/w/a/b"; "/home/u/w/a"; "/home/u/w"]).
Proof. by vm_compute. Qed.
