(* ===== verification/Executor.v ===== *)
(** * core.executor: running a command and recovering its exit status

    The regular expressions are written out as matchers with Python's greedy
    semantics; [subprocess.run] is a parameter. *)
From S2P Require Import Prelude PyStr.
From Stdlib Require Import Ascii String.

Definition esc : ascii := ascii_of_N 27.

(** ** normalize_captured_output *)

Definition is_ansi_param (c : ascii) : bool := is_dec c || Ascii.eqb c ";".
Definition is_letter (c : ascii) : bool := is_lower c || is_upper c.

(** The length of a match of the CSI pattern (escape, bracket, digits and
    semicolons, a letter) at the start. *)
Definition ansi_match (s : string) : option nat :=
  if startswith (String esc "[") s then
    let '(params, r) := span is_ansi_param (sdrop 2 s) in
    match r with
    | String c _ => if is_letter c then Some (3 + str_len params) else None
    | "" => None
    end
  else None.

(** [_ANSI_RE.sub("", raw)]; [skip] characters belong to the last match. *)
Fixpoint strip_ansi_aux (skip : nat) (s : string) : string :=
  match s with
  | "" => ""
  | String c s' =>
      match skip with
      | S skip => strip_ansi_aux skip s'
      | O => match ansi_match s with
             | Some n => strip_ansi_aux (n - 1) s'
             | None => String c (strip_ansi_aux 0 s')
             end
      end
  end.
Definition strip_ansi (s : string) : string := strip_ansi_aux 0 s.

(** [.replace("\r", "")] *)
Fixpoint remove_char (a : ascii) (s : string) : string :=
  match s with
  | "" => ""
  | String c s' => if Ascii.eqb c a then remove_char a s' else String c (remove_char a s')
  end.

(** A run of three or more newlines becomes two; [run] of them just passed. *)
Fixpoint collapse_nl (run : nat) (s : string) : string :=
  match s with
  | "" => ""
  | String c s' =>
      if Ascii.eqb c nl
      then if (run <? 2)%nat then String c (collapse_nl (S run) s') else collapse_nl run s'
      else String c (collapse_nl 0 s')
  end.

Definition normalize_captured_output (raw : string) : string :=
  collapse_nl 0 (remove_char cr (strip_ansi raw)).

(** ** The framing patterns *)

(** Greedy [\s*$] in [MULTILINE] mode: the number of characters taken.  [$]
    holds at the end and before each newline. *)
Fixpoint tail_match (s : string) : option nat :=
  match s with
  | "" => Some 0
  | String c s' =>
      if is_space c then
        match tail_match s' with
        | Some n => Some (S n)
        | None => if Ascii.eqb c nl then Some 0 else None
        end
      else None
  end.

(** [_SENTINEL_RE] at the start of a line: the token, the digits, and the
    length of the match. *)
Definition sentinel_prefix : string := "__SANDBOX_EXIT_".
Definition sentinel_at (s : string) : option (string * string * nat) :=
  if startswith sentinel_prefix s then
    let '(tok, r) := span is_hex (sdrop (str_len sentinel_prefix) s) in
    match r with
    | String "_" r =>
        let '(digits, r) := span is_dec r in
        if nonempty tok && nonempty digits then
          n ← tail_match r;
          Some (tok, digits, str_len sentinel_prefix + str_len tok + 1 + str_len digits + n)
        else None
    | _ => None
    end
  else None.

(** [_BEGIN_RE]: the nonce and the length of the match. *)
Definition begin_prefix : string := "__SANDBOX_BEGIN_".
Definition begin_at (s : string) : option (string * nat) :=
  if startswith begin_prefix s then
    let '(tok, r) := span is_hex (sdrop (str_len begin_prefix) s) in
    if nonempty tok then
      n ← tail_match r; Some (tok, str_len begin_prefix + str_len tok + n)
    else None
  else None.

(** [finditer] of a pattern that starts with [^]: the start and end of each
    match with its groups.  [bol] says a line starts here. *)
Fixpoint finditer {A} (m : string → option (A * nat)) (skip pos : nat) (bol : bool) (s : string)
    : list (nat * nat * A) :=
  match s with
  | "" => []
  | String c s' =>
      let next := finditer m (skip - 1) (S pos) (Ascii.eqb c nl) s' in
      match skip with
      | S _ => next
      | O =>
          match (if bol then m s else None) with
          | Some (a, n) =>
              (pos, pos + n, a) :: finditer m (n - 1) (S pos) (Ascii.eqb c nl) s'
          | None => next
          end
      end
  end.

Definition begin_search (stdout : string) : option (nat * nat * string) :=
  head (finditer begin_at 0 0 true stdout).
Definition sentinel_finditer (stdout : string) : list (nat * nat * (string * string)) :=
  finditer sentinel_at 0 0 true stdout.

(** ** Recovery *)

Record CompletedProcess := MkCompleted {
  cp_args : list string;
  returncode : Z;
  cp_stdout : option string;
  cp_stderr : option string
}.

Definition truthy (s : option string) : bool :=
  match s with Some s => nonempty s | None => false end.

Definition sentinel_not_found (stdout : string) (stderr : option string) : exn :=
  SandboxExecutionError
    ("[FATAL] Exit sentinel not found in command output. " +:+
     "The command may have crashed or produced corrupted output." +:+ NL +:+
     "Output:" +:+ NL +:+ normalize_captured_output stdout +:+
     (if truthy stderr
      then NL +:+ "Error Trace:" +:+ NL +:+ normalize_captured_output (default "" stderr)
      else "")) false.

(** [stdout[:start] + stdout[end:]] *)
Definition cut_span (s : string) (span : nat * nat) : string :=
  stake span.1 s +:+ sdrop span.2 s.

(** [sorted(spans, reverse=True)] of at most two spans. *)
Definition sort_spans (spans : list (nat * nat)) : list (nat * nat) :=
  match spans with
  | [a; b] => if (a.1 <? b.1)%nat || ((a.1 =? b.1)%nat && (a.2 <? b.2)%nat) then [b; a] else [a; b]
  | l => l
  end.

(** The state is [last_frame_nonce]. *)
Definition recover_inner_exit (result : CompletedProcess) (framed : bool)
    (injected_token : option string) : eff (option string) CompletedProcess :=
  let stdout := default "" (cp_stdout result) in
  '(expected, spans) ←
    (if framed then
       match begin_search stdout with
       | None => throw (sentinel_not_found stdout (cp_stderr result))
       | Some (b, e, nonce) => _ ← put_state (Some nonce); mret (Some nonce, [(b, e)])
       end
     else mret (injected_token, []));
  match last (filter (λ m, Some m.2.1 = expected) (sentinel_finditer stdout)) with
  | None => throw (sentinel_not_found stdout (cp_stderr result))
  | Some (b, e, (_, digits)) =>
      let exit_code := default 0%Z (py_int digits) in
      let stdout_clean := normalize_captured_output
        (foldl cut_span stdout (sort_spans (spans ++ [(b, e)])%list)) in
      if decide (exit_code = 0%Z)
      then mret (MkCompleted (cp_args result) exit_code (Some stdout_clean) (cp_stderr result))
      else throw (SandboxExecutionError
        ("[FATAL] Sandbox Execution Fault: Inner command failed with exit status " +:+
         str_of_Z exit_code +:+ "." +:+
         (if truthy (cp_stderr result)
          then NL +:+ "Error Trace:" +:+ NL +:+ default "" (cp_stderr result) else "") +:+
         (if nonempty stdout_clean then NL +:+ "Output:" +:+ NL +:+ stdout_clean else "")) false)
  end.

(** ** run *)

(** What [subprocess.run] does, before [check]. *)
Inductive spawn_outcome :=
  | Exited (code : Z) (stdout stderr : option string)
  | TimedOut (timeout : string)
  | SpawnFailed (reason : string).

Definition DEFAULT_PATH : string := "/usr/bin:/bin:/usr/sbin:/sbin".

(** [{"PATH": os.environ.get("PATH", ...)}] updated with [env]. *)
Definition sterile_env (environ_path : option string) (env : gmap string string)
    : gmap string string :=
  env ∪ {[ "PATH" := default DEFAULT_PATH environ_path ]}.

(** The wrap path: the command to run and the injected token. *)
Definition inject_sentinel (sentinel interactive : bool) (token : string) (cmd : list string)
    : list string * option string :=
  if sentinel && negb interactive then
    match rev cmd with
    | inner :: (("-c" :: _ :: _) as init) =>
        ((rev init ++ ["( " +:+ inner +:+ " ); echo " +:+ sentinel_prefix +:+ token +:+ "_$?"])%list,
         Some token)
    | _ => (cmd, None)
    end
  else (cmd, None).

Definition quoted_cmd (cmd : list string) : string :=
  "[FATAL] Sandbox Execution Fault: Command '" +:+ join " " cmd +:+ "'".

Section run.
Context (environ_path : option string)
  (spawn : list string → gmap string string → bool → spawn_outcome).

Definition run (token : string) (cmd : list string) (interactive : bool)
    (env : gmap string string) (sentinel framed : bool) : eff (option string) CompletedProcess :=
  if sentinel && framed then throw ValueError else
  let '(cmd, token) := inject_sentinel sentinel interactive token cmd in
  let check := negb (bool_decide (is_Some token)) && negb (framed && negb interactive) in
  match spawn cmd (sterile_env environ_path env) interactive with
  | TimedOut t =>
      throw (SandboxExecutionError (quoted_cmd cmd +:+ " timed out after " +:+ t +:+ "s.") true)
  | SpawnFailed reason =>
      throw (SandboxExecutionError
        ("[FATAL] Sandbox Execution Fault: OS Error during execution of '" +:+ join " " cmd +:+
         "': " +:+ reason) false)
  | Exited code out err =>
      if check && negb (code =? 0)%Z then
        throw (SandboxExecutionError
          (quoted_cmd cmd +:+ " failed with exit status " +:+ str_of_Z code +:+ "." +:+
           (if negb interactive && truthy err
            then NL +:+ "Error Trace:" +:+ NL +:+ default "" err else "")) false)
      else
        let result := MkCompleted cmd code out err in
        if negb interactive && (bool_decide (is_Some token) || framed)
        then recover_inner_exit result framed token
        else mret result
  end.
End run.

(** ** Lemmas on the patterns *)

Lemma tail_match_spec s n : tail_match s = Some n →
  ∃ w r, s = w +:+ r ∧ str_len w = n ∧ str_forall is_space w = true ∧
         (r = "" ∨ ∃ r', r = String nl r').
Proof.
  revert n; induction s as [|c s IH]; intros n; simpl.
  - intros [= <-]. exists "", "". auto.
  - destruct (is_space c) eqn:Hc; [|done].
    destruct (tail_match s) as [k|].
    + intros [= <-]. destruct (IH k eq_refl) as (w & r & -> & <- & Hw & Hr).
      exists (String c w), r. simpl. by rewrite Hc.
    + destruct (Ascii.eqb_spec c nl) as [->|]; [|done]. intros [= <-].
      exists "", (String nl s). eauto 10.
Qed.

Lemma tail_match_bound s a t n : is_space a = false →
  tail_match (s +:+ String a t) = Some n → n < str_len s.
Proof.
  intros Ha. revert n; induction s as [|c s IH]; intros n; simpl; [by rewrite Ha|].
  destruct (is_space c); [|done].
  destruct (tail_match (s +:+ String a t)) as [k|].
  - intros [= <-]. specialize (IH k eq_refl). lia.
  - destruct (Ascii.eqb c nl); [|done]. intros [= <-]. lia.
Qed.

Lemma tail_match_nl s : is_Some (tail_match (String nl s)).
Proof. simpl. destruct (tail_match s); simpl; eauto. Qed.

Lemma tail_match_head c s n : tail_match (String c s) = Some n → is_space c = true.
Proof. simpl. by destruct (is_space c). Qed.

(** What a match consists of; the frame has no newline before the tail. *)
Lemma sentinel_at_inv s tok d n : sentinel_at s = Some (tok, d, n) →
  ∃ r k, s = (sentinel_prefix +:+ tok +:+ "_" +:+ d) +:+ r ∧ tail_match r = Some k ∧
    n = str_len (sentinel_prefix +:+ tok +:+ "_" +:+ d) + k ∧
    str_forall is_hex tok = true ∧ str_forall is_dec d = true.
Proof.
  unfold sentinel_at. destruct (startswith _ s) eqn:Es; [|done].
  apply startswith_spec in Es as [u ->]. rewrite sdrop_app.
  pose proof (span_spec is_hex u) as Hu. destruct (span is_hex u) as [h r1].
  destruct Hu as [-> Hh]. destruct r1 as [|c r2]; [done|].
  destruct (decide (c = "_"%char)) as [->|Hc];
    [|by destruct c as [[] [] [] [] [] [] [] []]].
  pose proof (span_spec is_dec r2) as Hd. destruct (span is_dec r2) as [ds r3].
  destruct Hd as [-> Hd]. destruct (nonempty h && nonempty ds); [|done].
  destruct (tail_match r3) as [k|] eqn:Ek; simpl; [|done]. intros [= -> -> <-].
  exists r3, k. rewrite !app_assoc_str, !str_len_app. change (str_len "_") with 1.
  split_and!; [done..|unfold str_len; simpl; lia|done|done].
Qed.

Lemma sentinel_at_frame tok d r k : str_forall is_hex tok = true → nonempty tok = true →
  str_forall is_dec d = true → nonempty d = true →
  (∀ c r', r = String c r' → is_dec c = false) → tail_match r = Some k →
  sentinel_at (sentinel_prefix +:+ tok +:+ "_" +:+ d +:+ r) =
    Some (tok, d, str_len sentinel_prefix + str_len tok + 1 + str_len d + k).
Proof.
  intros Ht Hnt Hd Hnd Hr Hk. unfold sentinel_at. rewrite startswith_app, sdrop_app.
  rewrite span_app; [|done|by intros c t' [= <- _]]. simpl.
  rewrite span_app by done. rewrite Hnt, Hnd. simpl. by rewrite Hk.
Qed.

Lemma begin_at_frame tok r k : str_forall is_hex tok = true → nonempty tok = true →
  (∀ c r', r = String c r' → is_hex c = false) → tail_match r = Some k →
  begin_at (begin_prefix +:+ tok +:+ r) = Some (tok, str_len begin_prefix + str_len tok + k).
Proof.
  intros Ht Hnt Hr Hk. unfold begin_at. rewrite startswith_app, sdrop_app.
  rewrite span_app by done. rewrite Hnt. simpl. by rewrite Hk.
Qed.

Lemma hex_no_nl tok : str_forall is_hex tok = true → has_char nl tok = false.
Proof.
  apply str_forall_not_exists. intros c Hc. apply Ascii.eqb_neq. by intros <-.
Qed.

Lemma frame_no_nl tok d : str_forall is_hex tok = true → str_forall is_dec d = true →
  has_char nl (sentinel_prefix +:+ tok +:+ "_" +:+ d) = false.
Proof.
  intros Ht Hd. rewrite !has_char_app. rewrite (hex_no_nl tok) by done.
  by rewrite (dec_no_char nl d).
Qed.

(** A text without a newline that starts a text whose first part ends with a
    newline lies in that part. *)
Lemma before_newline p r s t : has_char nl p = false → p +:+ r = (s +:+ NL) +:+ t →
  ∃ s', s = p +:+ s' ∧ r = (s' +:+ NL) +:+ t.
Proof.
  revert s; induction p as [|c p IH]; intros s; simpl; [by exists s|].
  intros [Hc Hp]%orb_false_iff. destruct s as [|c' s]; simpl.
  - intros [= -> _]. by rewrite Ascii.eqb_refl in Hc.
  - intros [= <- H]. destruct (IH s Hp H) as (s' & -> & ->). by exists s'.
Qed.

(** ** Lemmas on the scan *)

Section scan.
Context {A : Type} (m : string → option (A * nat)).

Lemma finditer_skip_all k pos bol s : str_len s <= k → finditer m k pos bol s = [].
Proof.
  revert k pos bol; induction s as [|c s IH]; intros k pos bol; simpl; [done|].
  intros Hk. destruct k as [|k]; [lia|]. apply IH. simpl; lia.
Qed.

Lemma finditer_mid_line p pos t : has_char nl p = false →
  finditer m 0 pos false (p +:+ String nl t) =
  finditer m 0 (pos + str_len p + 1) true t.
Proof.
  revert pos; induction p as [|c p IH]; intros pos; simpl.
  - intros _. f_equal. lia.
  - intros [Hc Hp]%orb_false_iff. rewrite Ascii.eqb_sym in Hc. rewrite Hc.
    rewrite IH by done. f_equal. lia.
Qed.

(** A first line where the pattern does not match is skipped. *)
Lemma finditer_first_line p pos t : has_char nl p = false → m (p +:+ String nl t) = None →
  finditer m 0 pos true (p +:+ String nl t) = finditer m 0 (pos + str_len p + 1) true t.
Proof.
  destruct p as [|c p]; intros Hp Hm.
  - simpl in *. rewrite Hm. f_equal. lia.
  - simpl in Hp. apply orb_false_iff in Hp as [Hc Hp]. rewrite Ascii.eqb_sym in Hc.
    cbn [append finditer]. change (String c (p +:+ String nl t)) with (String c p +:+ String nl t).
    rewrite Hm, Hc, finditer_mid_line by done. f_equal. simpl. lia.
Qed.

Lemma finditer_head s a n : m s = Some (a, n) → s ≠ "" →
  head (finditer m 0 0 true s) = Some (0, n, a).
Proof. intros Hm Hs. destruct s as [|c s]; [done|]. simpl. by rewrite Hm. Qed.
End scan.

(** What a trailer with the token has to contain. *)
Definition exit_mark (tok : string) : string := sentinel_prefix +:+ tok +:+ "_".

(** Every mark the scan finds is part of the text. *)
Lemma finditer_token k pos bol s b e tok d :
  (b, e, (tok, d)) ∈ finditer sentinel_at k pos bol s → contains (exit_mark tok) s = true.
Proof.
  revert k pos bol; induction s as [|c s IH]; intros k pos bol; simpl.
  - by intros ?%elem_of_nil.
  - intros Hin.
    assert (contains (exit_mark tok) s = true → contains (exit_mark tok) (String c s) = true) as Hs.
    { intros H. by apply (contains_app_r _ (ch c) s). }
    destruct k as [|k]; [|by eapply Hs, IH].
    destruct (if bol then sentinel_at (String c s) else None) as [[[tok' d'] n]|] eqn:E;
      [|by eapply Hs, IH].
    apply elem_of_cons in Hin as [[= -> -> -> ->]|Hin]; [|by eapply Hs, IH].
    destruct bol; [|done].
    apply sentinel_at_inv in E as (r & k & -> & _). apply contains_spec.
    exists "", (d' +:+ r). unfold exit_mark. by rewrite !app_assoc_str.
Qed.

(** Every mark the scan finds matches at the start of a line. *)
Lemma finditer_line_start k pos bol s b e tok d :
  (b, e, (tok, d)) ∈ finditer sentinel_at k pos bol s →
  ∃ x y n, s = x +:+ y ∧ sentinel_at y = Some (tok, d, n) ∧
           (x = "" ∧ bol = true ∨ ∃ x', x = x' +:+ NL).
Proof.
  revert k pos bol; induction s as [|c s IH]; intros k pos bol; cbn [finditer].
  { by intros ?%elem_of_nil. }
  assert (∀ k', (b, e, (tok, d)) ∈ finditer sentinel_at k' (S pos) (Ascii.eqb c nl) s →
    ∃ x y n, String c s = x +:+ y ∧ sentinel_at y = Some (tok, d, n) ∧
             (x = "" ∧ bol = true ∨ ∃ x', x = x' +:+ NL)) as Hs.
  { intros k' (x & y & n & -> & Hy & Hx)%IH. exists (String c x), y, n. split_and!; [done..|right].
    destruct Hx as [[-> ->%Ascii.eqb_eq]|[x' ->]]; [by exists ""|by exists (String c x')]. }
  intros Hin. destruct k as [|k]; [|by eapply Hs].
  destruct (if bol then sentinel_at (String c s) else None) as [[[tok' d'] n]|] eqn:E;
    [|by eapply Hs].
  apply elem_of_cons in Hin as [[= -> -> -> ->]|Hin]; [|by eapply Hs].
  destruct bol; [|done]. exists "", (String c s), n. by split_and!; [..|left].
Qed.

(** Whatever lines the output holds, the scan reaches the trailer that starts
    a line after it, and the tokens found before are part of the output. *)
Lemma finditer_reaches s a t k pos bol : is_space a = false →
  (s = "" ∧ k = 0 ∧ bol = true ∨ k < str_len s ∧ ∃ s0, s = s0 +:+ NL) →
  ∃ ms, finditer sentinel_at k pos bol (s +:+ String a t) =
          (ms ++ finditer sentinel_at 0 (pos + str_len s) true (String a t))%list ∧
        Forall (λ m, contains (exit_mark m.2.1) s = true) ms.
Proof.
  intros Ha. revert k pos bol. induction s as [|c s IH]; intros k pos bol Hs.
  { destruct Hs as [(_ & -> & ->)|(Hk & _)]; [|simpl in Hk; lia].
    exists []. rewrite Nat.add_0_r. split; [done|constructor]. }
  destruct Hs as [(? & _)|[Hk [s0 Hs0]]]; [done|].
  assert (Hrec : ∀ k', k' <= str_len s → (k' = str_len s → s = "") →
    ∃ ms, finditer sentinel_at k' (S pos) (Ascii.eqb c nl) (s +:+ String a t) =
      (ms ++ finditer sentinel_at 0 (pos + str_len (String c s)) true (String a t))%list ∧
      Forall (λ m, contains (exit_mark m.2.1) (String c s) = true) ms).
  { intros k' Hk' Hend. destruct (IH k' (S pos) (Ascii.eqb c nl)) as (ms & -> & Hms).
    - destruct s0 as [|c0 s0]; simpl in Hs0; injection Hs0 as -> ->.
      + left. simpl in Hk'. split_and!; [done|lia|done].
      + right. split; [|by exists s0].
        destruct (decide (k' = str_len (s0 +:+ NL))) as [->|]; [|lia].
        specialize (Hend eq_refl). by destruct s0.
    - exists ms. simpl. rewrite Nat.add_succ_r. split; [done|].
      eapply Forall_impl; [exact Hms|]. intros m Hm.
      by apply (contains_app_r _ (ch c) s). }
  cbn [append finditer]. change (String c (s +:+ String a t)) with (String c s +:+ String a t).
  destruct k as [|k].
  2:{ simpl in Hk. replace (S k - 1) with k by lia. apply Hrec; unfold str_len in *; lia. }
  assert (0 = str_len s → s = "") as H0 by (by destruct s).
  destruct (if bol then sentinel_at (String c s +:+ String a t) else None)
    as [[[tok d] n]|] eqn:E; [|apply Hrec; [unfold str_len; lia|done]].
  destruct bol; [|done]. apply sentinel_at_inv in E as (r & k & Heq & Hk' & -> & Ht & Hd).
  rewrite Hs0 in Heq. symmetry in Heq.
  apply before_newline in Heq as (s' & Hs' & ->); [|by apply frame_no_nl].
  apply tail_match_bound in Hk'; [|done].
  assert (str_len (String c s) = str_len (sentinel_prefix +:+ tok +:+ "_" +:+ d) + str_len (s' +:+ NL))
    as Hlen by (rewrite Hs0, Hs', app_assoc_str, str_len_app; done).
  simpl in Hlen.
  destruct (Hrec (str_len (sentinel_prefix +:+ tok +:+ "_" +:+ d) + k - 1)) as (ms & -> & Hms);
    [simpl in *; lia|simpl in *; lia|].
  exists ((pos, pos + (str_len (sentinel_prefix +:+ tok +:+ "_" +:+ d) + k), (tok, d)) :: ms).
  split; [done|]. constructor; [|done]. simpl. apply contains_spec.
  rewrite Hs0, Hs'. exists "", (d +:+ s' +:+ NL). unfold exit_mark.
  by rewrite !app_assoc_str.
Qed.

(** ** What a framed crossing writes

    The dispatcher announces its nonce, the op writes [out], and the trailer
    carries the nonce and the exit status. *)
Definition trailer (tok : string) (code : Z) : string :=
  sentinel_prefix +:+ tok +:+ "_" +:+ str_of_Z code +:+ NL.
Definition begin_line (tok : string) : string := begin_prefix +:+ tok +:+ NL.

(** A token: lower-case hex, as [secrets.token_hex] makes. *)
Definition token_ok (tok : string) : Prop :=
  str_forall is_hex tok = true ∧ nonempty tok = true.

(** Whole lines, or nothing. *)
Definition whole_lines (out : string) : Prop := out = "" ∨ ∃ o, out = o +:+ NL.

Lemma ends_line_spec s : endswith NL s = true ↔ ∃ o, s = o +:+ NL.
Proof.
  unfold endswith. rewrite andb_true_iff, Nat.leb_le, String.eqb_eq. split.
  - intros [_ Hs]. destruct (sdrop_suffix (str_len s - str_len NL) s) as [t Ht].
    exists t. by rewrite Hs in Ht.
  - intros [o ->]. rewrite str_len_app. split; [lia|].
    replace (str_len o + str_len NL - str_len NL) with (str_len o) by lia. apply sdrop_app.
Qed.

#[global] Instance whole_lines_dec out : Decision (whole_lines out).
Proof.
  refine (cast_if (decide (out = "" ∨ endswith NL out = true))); unfold whole_lines.
  - by rewrite <- ends_line_spec.
  - by rewrite <- ends_line_spec.
Defined.

Lemma trailer_scan tok code pos : token_ok tok → (0 <= code)%Z →
  finditer sentinel_at 0 pos true (trailer tok code) =
    [(pos, pos + str_len (trailer tok code), (tok, str_of_Z code))].
Proof.
  intros [Ht Hn] Hc. pose proof (str_of_Z_dec code Hc) as Hd.
  pose proof (sentinel_at_frame tok (str_of_Z code) NL 1 Ht Hn Hd (str_of_Z_nonempty code)
    ltac:(by intros c r' [= <- _]) eq_refl) as Hm.
  assert (str_len (trailer tok code) =
    str_len sentinel_prefix + str_len tok + 1 + str_len (str_of_Z code) + 1) as Hlen.
  { unfold trailer. len_lia. }
  fold (trailer tok code) in Hm. rewrite <- Hlen in Hm. clear Hlen.
  destruct (trailer tok code) as [|c s] eqn:E; [done|].
  cbn [finditer]. rewrite Hm. rewrite finditer_skip_all; [done|].
  unfold str_len; simpl; lia.
Qed.

Lemma trailer_starts tok code : ∃ t, trailer tok code = String "_" t.
Proof. by eexists. Qed.

(** Reading the last line that carries the token. *)
Lemma scan_output out tok code pos : token_ok tok → (0 <= code)%Z → contains (exit_mark tok) out = false →
  whole_lines out →
  last (filter (λ m, Some m.2.1 = Some tok)
    (finditer sentinel_at 0 pos true (out +:+ trailer tok code))) =
  Some (pos + str_len out, pos + str_len out + str_len (trailer tok code), (tok, str_of_Z code)).
Proof.
  intros Htok Hc Hno Hout. destruct (trailer_starts tok code) as [t Ht].
  destruct (finditer_reaches out "_" t 0 pos true) as (ms & Hms & Hin); [done| |].
  { destruct Hout as [->|[o ->]]; [by left|right]. split; [|by exists o].
    len_lia. }
  rewrite Ht, Hms, <- Ht, trailer_scan by done.
  rewrite filter_app, filter_cons_True by done. apply last_snoc.
Qed.

Lemma app_prefix_len w z x t : w +:+ z = x +:+ t → str_len w <= str_len x →
  ∃ y, x = w +:+ y ∧ z = y +:+ t.
Proof.
  revert x; induction w as [|c w IH]; intros x; simpl; [by exists x|].
  destruct x as [|c' x]; simpl; [lia|]. intros [= -> H] Hl.
  destruct (IH x H) as (y & -> & ->); [unfold str_len in *; lia|]. by exists y.
Qed.

Lemma str_len_0 s : str_len s = 0 → s = "".
Proof. by destruct s. Qed.

(** The trailer has its newline at its end only, and no white space before. *)
Definition trailer_body (tok : string) (code : Z) : string :=
  sentinel_prefix +:+ tok +:+ "_" +:+ str_of_Z code.

Lemma trailer_body_nl tok code : trailer tok code = trailer_body tok code +:+ NL.
Proof. unfold trailer, trailer_body. by rewrite !app_assoc_str. Qed.

Lemma hex_no_space tok : str_forall is_hex tok = true → str_exists is_space tok = false.
Proof. apply str_forall_not_exists. by intros [[] [] [] [] [] [] [] []]. Qed.

Lemma trailer_body_no_space tok code : token_ok tok → (0 <= code)%Z →
  str_exists is_space (trailer_body tok code) = false.
Proof.
  intros [Ht _] Hc. unfold trailer_body. rewrite !str_exists_app, (hex_no_space tok) by done.
  apply (str_forall_not_exists is_dec); [|by apply str_of_Z_dec].
  by intros [[] [] [] [] [] [] [] []].
Qed.

Lemma no_space_no_nl s : str_exists is_space s = false → has_char nl s = false.
Proof.
  unfold has_char. induction s as [|c s IH]; [done|]. cbn [str_exists].
  intros [Hc Hs]%orb_false_iff. rewrite IH, orb_false_r by done.
  apply Ascii.eqb_neq. by intros <-.
Qed.

(** Two frames with the same token that end together start together. *)
Lemma frame_suffix_head y tok d code : str_forall is_dec d = true →
  sentinel_prefix +:+ tok +:+ "_" +:+ d = y +:+ trailer_body tok code → y = "".
Proof.
  intros Hd. unfold trailer_body.
  replace (sentinel_prefix +:+ tok +:+ "_" +:+ d)
    with ((sentinel_prefix +:+ tok) +:+ "_" +:+ d) by apply app_assoc_str.
  replace (y +:+ sentinel_prefix +:+ tok +:+ "_" +:+ str_of_Z code)
    with ((y +:+ sentinel_prefix +:+ tok) +:+ "_" +:+ str_of_Z code) by (by rewrite !app_assoc_str).
  intros H. destruct (app_prefix_len _ _ _ _ H) as (z & Hz & Hd').
  { rewrite !str_len_app. lia. }
  destruct z as [|c z].
  - apply str_len_0. apply (f_equal str_len) in Hz. rewrite !str_len_app in Hz.
    change (str_len "") with 0 in Hz. lia.
  - injection Hd' as _ ->. rewrite !str_forall_app in Hd. by destruct (str_forall is_dec z).
Qed.

(** After output that does not end its line, the trailer is never found: it
    does not start a line, and no earlier line can borrow it. *)
Lemma scan_broken_line out tok code k pos bol : token_ok tok → (0 <= code)%Z →
  contains (exit_mark tok) out = false → ¬ whole_lines out →
  filter (λ m, Some m.2.1 = Some tok)
    (finditer sentinel_at k pos bol (out +:+ trailer tok code)) = [].
Proof.
  intros Htok Hc Hno Hout. apply filter_none. intros [[b e] [tok' d]] Hin; simpl. intros [= ->].
  apply finditer_line_start in Hin as (x & y & n & Heq & Hy & Hx).
  apply sentinel_at_inv in Hy as (r & j & -> & Hj & _ & Ht & Hd).
  rewrite trailer_body_nl in Heq.
  pose proof (trailer_body_no_space tok code Htok Hc) as Hns.
  destruct (decide (str_len out <= str_len x)) as [Hl|Hl].
  - destruct (app_prefix_len _ _ _ _ Heq Hl) as (y & -> & Hy). apply Hout.
    destruct y as [|c y]; [rewrite app_nil_r_str in Hx; destruct Hx as [[-> _]|Hx]; [by left|by right]|].
    exfalso. destruct Hx as [[H _]|[x' H]]; [by destruct out|].
    destruct (app_prefix_len out (String c y) x' NL H) as (y' & -> & Hy').
    { apply (f_equal str_len) in H. rewrite !str_len_app in H. unfold str_len in *; simpl in H; lia. }
    rewrite Hy' in Hy.
    apply (before_newline (trailer_body tok code)) in Hy as (s' & _ & Hr).
    + apply (f_equal str_len) in Hr. rewrite !str_len_app in Hr. unfold str_len in Hr; simpl in Hr; lia.
    + by apply no_space_no_nl.
  - symmetry in Heq. destruct (app_prefix_len _ _ _ _ Heq) as (y & -> & Hy); [lia|].
    rewrite str_len_app in Hl.
    set (f := sentinel_prefix +:+ tok +:+ "_" +:+ d) in *.
    destruct (decide (str_len f <= str_len y)) as [Hf|Hf].
    { destruct (app_prefix_len _ _ _ _ Hy) as (z & -> & _); [done|].
      apply not_true_iff_false in Hno. apply Hno, contains_spec.
      exists x, (d +:+ z). unfold f, exit_mark. by rewrite !app_assoc_str. }
    symmetry in Hy. destruct (app_prefix_len _ _ _ _ Hy) as (z & Hz & Hr); [lia|].
    assert (has_char nl z = false) as Hzn.
    { pose proof (frame_no_nl tok d Ht Hd) as Hn. fold f in Hn. rewrite Hz, has_char_app in Hn.
      by apply orb_false_iff in Hn as [_ ?]. }
    symmetry in Hr. rewrite <- (app_nil_r_str (trailer_body tok code +:+ NL)) in Hr.
    apply before_newline in Hr as (t & Hb & Hr); [|done]. rewrite app_nil_r_str in Hr.
    assert (t = "") as ->.
    { destruct t as [|c t]; [done|]. rewrite Hr in Hj. apply tail_match_head in Hj.
      rewrite Hb, str_exists_app in Hns. simpl in Hns. rewrite Hj in Hns.
      by rewrite orb_true_r in Hns. }
    rewrite app_nil_r_str in Hb. subst z. apply frame_suffix_head in Hz; [|done].
    subst y. change (str_len "") with 0 in Hl. lia.
Qed.

Lemma stake_all n s : str_len s <= n → stake n s = s.
Proof.
  revert n; induction s as [|c s IH]; intros [|n]; simpl; try done; [lia|].
  intros Hn. f_equal. apply IH. unfold str_len in *. lia.
Qed.

Lemma sdrop_all s n : str_len s <= n → sdrop n s = "".
Proof.
  revert n; induction s as [|c s IH]; intros [|n]; simpl; try done; [lia|].
  intros Hn. apply IH. unfold str_len in *. lia.
Qed.

(** Cutting the last part of a text off. *)
Lemma cut_span_end s t : cut_span (s +:+ t) (str_len s, str_len s + str_len t) = s.
Proof.
  unfold cut_span; simpl. rewrite stake_app, sdrop_all by (rewrite str_len_app; lia).
  apply app_nil_r_str.
Qed.

(** The whole text that is captured, and what the begin line takes of it. *)
Lemma begin_search_frame tok rest : token_ok tok →
  ∃ k, tail_match (NL +:+ rest) = Some k ∧
    begin_search (begin_line tok +:+ rest) =
      Some (0, str_len begin_prefix + str_len tok + k, tok).
Proof.
  intros [Ht Hn]. destruct (tail_match_nl rest) as [k Hk]. exists k. split; [exact Hk|].
  unfold begin_search. apply finditer_head; [|done].
  unfold begin_line. rewrite !app_assoc_str.
  apply begin_at_frame; [done|done|by intros c r' [= <- _]|done].
Qed.

Lemma sentinel_scan_frame tok rest : token_ok tok →
  sentinel_finditer (begin_line tok +:+ rest) =
    finditer sentinel_at 0 (str_len (begin_line tok)) true rest.
Proof.
  intros [Ht Hn]. unfold sentinel_finditer, begin_line.
  replace ((begin_prefix +:+ tok +:+ NL) +:+ rest)
    with ((begin_prefix +:+ tok) +:+ String nl rest) by (by rewrite !app_assoc_str).
  rewrite finditer_first_line; [|by rewrite has_char_app, (hex_no_nl tok)|done].
  f_equal. len_lia.
Qed.

(** The begin line takes the blank lines that follow it, and no more. *)
Lemma begin_cut out tok code k : tail_match (NL +:+ out +:+ trailer tok code) = Some k →
  ∃ w o, out = w +:+ o ∧ str_forall is_space w = true ∧ whole_lines w ∧
         sdrop k (NL +:+ out) = NL +:+ o.
Proof.
  intros Hk. destruct (trailer_starts tok code) as [t Ht].
  assert (k < str_len (NL +:+ out)) as Hb.
  { eapply (tail_match_bound (NL +:+ out) "_" t); [done|].
    by rewrite <- Ht, app_assoc_str. }
  apply tail_match_spec in Hk as (w & r & Heq & <- & Hw & Hr).
  rewrite <- app_assoc_str in Heq. symmetry in Heq.
  destruct (app_prefix_len _ _ _ _ Heq) as (y & Hy & ->); [lia|].
  rewrite Hy in Hb |- *. rewrite sdrop_app. rewrite str_len_app in Hb.
  destruct y as [|c y]; [unfold str_len in Hb; simpl in Hb; lia|].
  destruct Hr as [[=]|[r' [= -> _]]].
  destruct w as [|c w].
  - injection Hy as ->. exists "", y. by split_and!; [..|left|].
  - injection Hy as <- ->. exists (w +:+ NL), y. simpl in Hw. split_and!; [by rewrite app_assoc_str| | |done].
    + rewrite str_forall_app, Hw. done.
    + right. by exists w.
Qed.

(** A frame as the callee writes it, captured by the caller. *)
Definition framed_result (args : list string) (tok out : string) (code rc : Z)
    (stderr : option string) : CompletedProcess :=
  MkCompleted args rc (Some (begin_line tok +:+ out +:+ trailer tok code)) stderr.

(** ** Lemmas on normalisation *)

Lemma remove_char_none a s : has_char a (remove_char a s) = false.
Proof.
  unfold has_char. induction s as [|c s IH]; simpl; [done|].
  destruct (Ascii.eqb c a) eqn:E; [done|]. simpl. rewrite Ascii.eqb_sym, E. done.
Qed.

Lemma has_char_collapse a run s : has_char a s = false → has_char a (collapse_nl run s) = false.
Proof.
  unfold has_char. revert run; induction s as [|c s IH]; intros run; simpl; [done|].
  intros [Hc Hs]%orb_false_iff.
  destruct (Ascii.eqb c nl); [destruct (_ <? _)%nat|]; simpl; rewrite ?Hc; simpl; auto.
Qed.

Lemma has_char_remove a b s : has_char a s = false → has_char a (remove_char b s) = false.
Proof.
  unfold has_char. induction s as [|c s IH]; simpl; [done|]. intros [Hc Hs]%orb_false_iff.
  destruct (Ascii.eqb c b); simpl; rewrite ?Hc; simpl; auto.
Qed.

Lemma remove_char_id a s : has_char a s = false → remove_char a s = s.
Proof.
  unfold has_char. induction s as [|c s IH]; simpl; [done|]. intros [Hc Hs]%orb_false_iff.
  rewrite Ascii.eqb_sym, Hc. f_equal. auto.
Qed.

Lemma strip_ansi_id s : has_char esc s = false → strip_ansi s = s.
Proof.
  unfold strip_ansi. induction s as [|c s IH]; [done|].
  cbn [has_char str_exists]. intros [Hc Hs]%orb_false_iff. cbn [strip_ansi_aux].
  unfold ansi_match. cbn [startswith]. rewrite Hc. simpl. f_equal. by apply IH.
Qed.

(** No run of newlines is longer than two, [run] of them just passed. *)
Fixpoint nl_ok (run : nat) (s : string) : bool :=
  match s with
  | "" => true
  | String c s' =>
      if Ascii.eqb c nl then (run <? 2)%nat && nl_ok (S run) s' else nl_ok 0 s'
  end.

Lemma collapse_nl_ok run s : nl_ok run (collapse_nl run s) = true.
Proof.
  revert run; induction s as [|c s IH]; intros run; cbn [collapse_nl]; [done|].
  destruct (Ascii.eqb c nl) eqn:Hc; [|cbn [nl_ok]; rewrite Hc; apply IH].
  destruct (run <? 2)%nat eqn:Hr; [|apply IH]. cbn [nl_ok]. rewrite Hc, Hr. apply IH.
Qed.

Lemma collapse_nl_id run s : nl_ok run s = true → collapse_nl run s = s.
Proof.
  revert run; induction s as [|c s IH]; intros run; cbn [collapse_nl nl_ok]; [done|].
  destruct (Ascii.eqb c nl); [|intros; f_equal; auto].
  intros [-> ?]%andb_true_iff. f_equal. auto.
Qed.

Lemma nl_ok_contains s : nl_ok 0 s = true → contains (NL +:+ NL +:+ NL) s = false.
Proof.
  intros Hs. apply not_true_iff_false. intros (t & u & ->)%contains_spec.
  assert (∀ run, nl_ok run (t +:+ (NL +:+ NL +:+ NL) +:+ u) = false) as H; [|congruence].
  clear Hs. induction t as [|c t IH]; intros run.
  - by destruct run as [|[|run]].
  - cbn [append nl_ok]. destruct (Ascii.eqb c nl); [|apply IH].
    rewrite IH. apply andb_false_r.
Qed.

(** Recovery when the output is whole lines, or nothing. *)
Lemma framed_whole_lines (args : list string) (tok out : string) (code rc : Z)
    (stderr : option string) (st : option string)
    (Htok : token_ok tok) (Hcode : (0 <= code)%Z) (Hsecret : contains (exit_mark tok) out = false)
    (Hlines : whole_lines out) :
  let '(r, st') := recover_inner_exit (framed_result args tok out code rc stderr) true None st in
  st' = Some tok ∧
  match r with
  | Ok cp => code = 0%Z ∧ returncode cp = 0%Z ∧ cp_args cp = args ∧ cp_stderr cp = stderr ∧
      ∃ w o, out = w +:+ o ∧ str_forall is_space w = true ∧ whole_lines w ∧
             cp_stdout cp = Some (normalize_captured_output (NL +:+ o))
  | Err e => code ≠ 0%Z ∧ is_sandbox_execution_error e = true
  end.
Proof.
  unfold recover_inner_exit, framed_result. cbn [cp_stdout cp_stderr cp_args from_option id].
  destruct (begin_search_frame tok (out +:+ trailer tok code) Htok) as (k & Hk & Hb).
  rewrite Hb, sentinel_scan_frame by done. unfold mbind, eff_bind, put_state, mret, eff_ret.
  cbn [app]. rewrite scan_output by done. cbn beta iota.
  rewrite py_int_str_of_Z by done. cbn [from_option id].
  assert (sort_spans [(0, str_len begin_prefix + str_len tok + k);
    (str_len (begin_line tok) + str_len out,
     str_len (begin_line tok) + str_len out + str_len (trailer tok code))] =
    [(str_len (begin_line tok) + str_len out,
      str_len (begin_line tok) + str_len out + str_len (trailer tok code));
     (0, str_len begin_prefix + str_len tok + k)]) as -> by done.
  cbn [foldl].
  replace (begin_line tok +:+ out +:+ trailer tok code)
    with ((begin_line tok +:+ out) +:+ trailer tok code) by apply app_assoc_str.
  rewrite <- str_len_app, cut_span_end.
  destruct (begin_cut out tok code k Hk) as (w & o & Hout & Hw & Hwl & Hcut).
  assert (cut_span (begin_line tok +:+ out) (0, str_len begin_prefix + str_len tok + k)
    = NL +:+ o) as ->.
  { unfold cut_span; cbn [fst snd stake]. rewrite <- Hcut. unfold begin_line.
    rewrite sdrop_plus, <- str_len_app, !app_assoc_str, <- (app_assoc_str begin_prefix tok).
    by rewrite sdrop_app. }
  case_decide as Hz; cbn beta iota; split_and!; try done. by exists w, o.
Qed.

(** Output that leaves its last line open hides the trailer. *)
Lemma framed_broken_line (args : list string) (tok out : string) (code rc : Z)
    (stderr : option string) (st : option string)
    (Htok : token_ok tok) (Hcode : (0 <= code)%Z) (Hsecret : contains (exit_mark tok) out = false)
    (Hlines : ¬ whole_lines out) :
  let '(r, st') := recover_inner_exit (framed_result args tok out code rc stderr) true None st in
  st' = Some tok ∧
  r = Err (sentinel_not_found (begin_line tok +:+ out +:+ trailer tok code) stderr).
Proof.
  unfold recover_inner_exit, framed_result. cbn [cp_stdout cp_stderr cp_args from_option id].
  destruct (begin_search_frame tok (out +:+ trailer tok code) Htok) as (k & _ & ->).
  rewrite sentinel_scan_frame by done. unfold mbind, eff_bind, put_state, mret, eff_ret.
  by rewrite scan_broken_line.
Qed.

(** ** Properties *)

(** C1: Recovery of a framed crossing is exact and cannot be forged: whatever
    the op writes, begin lines and trailers with other tokens included, as long
    as it does not contain a trailer mark with the nonce (which is announced
    only to the reader), recovery succeeds exactly when the status in the
    callee's trailer is zero and the output ends its last line.  On success the
    output is what the op wrote less leading blank lines, normalised; in every
    other case the answer is an error, so an op that succeeds with a last line
    left open is reported as a failure.  The nonce is recorded. *)
Theorem framed_recovery (args : list string) (tok out : string) (code rc : Z)
    (stderr : option string) (st : option string)
    (Htok : token_ok tok) (Hcode : (0 <= code)%Z) (Hsecret : contains (exit_mark tok) out = false) :
  let '(r, st') := recover_inner_exit (framed_result args tok out code rc stderr) true None st in
  st' = Some tok ∧
  match r with
  | Ok cp => code = 0%Z ∧ whole_lines out ∧
      returncode cp = 0%Z ∧ cp_args cp = args ∧ cp_stderr cp = stderr ∧
      ∃ w o, out = w +:+ o ∧ str_forall is_space w = true ∧ whole_lines w ∧
             cp_stdout cp = Some (normalize_captured_output (NL +:+ o))
  | Err e => ¬ (code = 0%Z ∧ whole_lines out) ∧ is_sandbox_execution_error e = true
  end.
Proof.
  destruct (decide (whole_lines out)) as [Hlines|Hlines].
  { pose proof (framed_whole_lines args tok out code rc stderr st Htok Hcode Hsecret Hlines) as H.
    destruct (recover_inner_exit _ _ _ _) as [[cp|e] st']; naive_solver. }
  pose proof (framed_broken_line args tok out code rc stderr st Htok Hcode Hsecret Hlines) as H.
  destruct (recover_inner_exit _ _ _ _) as [r st']. destruct H as [-> ->]. naive_solver.
Qed.

(** C6: A framed crossing whose trailer never comes fails closed: whatever the
    op writes, forged trailers and begin lines included, if it does not contain
    a trailer with the nonce the recovery raises, even when the process itself exits with
    zero. *)
Theorem framed_crash_fails_closed (args : list string) (tok out : string) (rc : Z)
    (stderr : option string) (st : option string)
    (Htok : token_ok tok) (Hsecret : contains (exit_mark tok) out = false) :
  let '(r, st') := recover_inner_exit
    (MkCompleted args rc (Some (begin_line tok +:+ out)) stderr) true None st in
  st' = Some tok ∧ r = Err (sentinel_not_found (begin_line tok +:+ out) stderr).
Proof.
  unfold recover_inner_exit. cbn [cp_stdout cp_stderr from_option id].
  destruct (begin_search_frame tok out Htok) as (k & _ & ->).
  rewrite sentinel_scan_frame by done. unfold mbind, eff_bind, put_state, mret, eff_ret.
  rewrite filter_none; [done|].
  intros [[b e] [tok' d]] Hin%finditer_token; simpl. intros [= ->]. congruence.
Qed.

(** On the wrap path the status is bound to the injected token in the same
    way: the recovered output is exactly the command's, normalised, and the
    recorded nonce is untouched. *)
Theorem wrapped_recovery (args : list string) (tok out : string) (code rc : Z)
    (stderr : option string) (st : option string)
    (Htok : token_ok tok) (Hcode : (0 <= code)%Z) (Hsecret : contains (exit_mark tok) out = false)
    (Hlines : whole_lines out) :
  let '(r, st') := recover_inner_exit
    (MkCompleted args rc (Some (out +:+ trailer tok code)) stderr) false (Some tok) st in
  st' = st ∧
  match r with
  | Ok cp => code = 0%Z ∧
             cp = MkCompleted args 0 (Some (normalize_captured_output out)) stderr
  | Err e => code ≠ 0%Z ∧ is_sandbox_execution_error e = true
  end.
Proof.
  unfold recover_inner_exit. cbn [cp_stdout cp_stderr cp_args from_option id].
  unfold mbind, eff_bind, put_state, mret, eff_ret, sentinel_finditer.
  rewrite scan_output by done. cbn beta iota.
  rewrite py_int_str_of_Z by done. cbn [from_option id app sort_spans foldl].
  change (0 + str_len out) with (str_len out). rewrite cut_span_end.
  case_decide as Hz; cbn beta iota; split_and!; try done. by subst.
Qed.

(** [run] succeeds only with exit status zero and raises only
    [SandboxExecutionError] (marked as a timeout exactly for a timeout), except
    that asking for both framings is a [ValueError] before anything is run.  The
    child's environment has [PATH] and the caller's variables, and no other. *)
Theorem run_contract (environ_path : option string)
    (spawn : list string → gmap string string → bool → spawn_outcome)
    (token : string) (cmd : list string) (interactive : bool) (env : gmap string string)
    (sentinel framed : bool) (st : option string) :
  dom (sterile_env environ_path env) = dom env ∪ {["PATH"]} ∧
  let (cmd', _) := inject_sentinel sentinel interactive token cmd in
  match (run environ_path spawn token cmd interactive env sentinel framed st).1 with
  | Ok cp => returncode cp = 0%Z ∧ sentinel && framed = false
  | Err e =>
      (e = ValueError ∧ sentinel && framed = true) ∨
      (sentinel && framed = false ∧ ∃ msg timed_out, e = SandboxExecutionError msg timed_out ∧
       (timed_out = true ↔ ∃ t, spawn cmd' (sterile_env environ_path env) interactive = TimedOut t))
  end.
Proof.
  split; [unfold sterile_env; set_solver|].
  unfold run. destruct (sentinel && framed) eqn:Esf.
  { destruct (inject_sentinel _ _ _ _). by left. }
  destruct (inject_sentinel sentinel interactive token cmd) as [cmd' tok] eqn:Ei.
  destruct (spawn cmd' _ interactive) as [code out err|t|reason] eqn:Es; cbn [fst throw].
  - assert (Hrec : ∀ cp : CompletedProcess,
      match (recover_inner_exit cp framed tok st).1 with
      | Ok cp => returncode cp = 0%Z
      | Err e => ∃ msg, e = SandboxExecutionError msg false
      end).
    { intros cp. unfold recover_inner_exit, mbind, eff_bind, put_state, mret, eff_ret, throw.
      destruct framed; [destruct (begin_search _) as [[[b e] n]|]|]; cbn [fst];
        try (unfold sentinel_not_found; by eauto);
        (destruct (last _) as [[[b' e'] [t' d']]|]; cbn [fst];
          [|unfold sentinel_not_found; by eauto]);
        case_decide; cbn [fst returncode]; eauto. }
    destruct (negb _ && _ && _) eqn:Ec; cbn [fst].
    { right. split; [done|]. eexists _, false. split; [done|]. naive_solver. }
    destruct (negb interactive && _) eqn:Er.
    + specialize (Hrec (MkCompleted cmd' code out err)).
      destruct (recover_inner_exit _ _ _ _) as [[cp|e] st']; cbn [fst] in *; [done|].
      right. split; [done|]. destruct Hrec as [msg ->]. exists msg, false. naive_solver.
    + cbn [fst mret eff_ret returncode]. split; [|done].
      assert (tok ≠ None → negb interactive = true) as Ht.
      { unfold inject_sentinel in Ei. destruct (sentinel && negb interactive) eqn:E; breflect; [|].
        - intros _. by rewrite H0.
        - by injection Ei as _ <-. }
      destruct tok, interactive, framed; simpl in *; breflect; try done; naive_solver.
  - right. split; [done|]. eexists _, true. split; [done|]. naive_solver.
  - right. split; [done|]. eexists _, false. split; [done|]. naive_solver.
Qed.

(** Normalised output has no carriage return and no run of three newlines,
    and normalising again changes nothing when the output had no escape
    character. *)
Theorem normalize_spec (raw : string) :
  let out := normalize_captured_output raw in
  has_char cr out = false ∧ contains (NL +:+ NL +:+ NL) out = false ∧
  (has_char esc raw = false → normalize_captured_output out = out).
Proof.
  unfold normalize_captured_output. split_and!.
  - apply has_char_collapse, remove_char_none.
  - apply nl_ok_contains, collapse_nl_ok.
  - intros He. rewrite (strip_ansi_id raw) by done.
    rewrite (strip_ansi_id (collapse_nl _ _)) by (by apply has_char_collapse, has_char_remove).
    rewrite remove_char_id by apply has_char_collapse, remove_char_none.
    apply collapse_nl_id, collapse_nl_ok.
Qed.

(** In general normalising is not idempotent: removing a carriage return, or
    an inner sequence, can make a new escape sequence that a second pass
    removes. *)
Theorem normalize_not_idempotent :
  ∃ raw, normalize_captured_output (normalize_captured_output raw)
         ≠ normalize_captured_output raw.
Proof. exists (String esc (String cr "[0mx")). by vm_compute. Qed.

(** ** Witnesses *)

(** A forged begin line and a forged trailer in the op's output. *)
Definition demo_out : string :=
  begin_line "bad0" +:+ "hello" +:+ NL +:+ trailer "bad0" 7.

Lemma framed_recovery_witness :
  (recover_inner_exit (framed_result [] "c0ffee" demo_out 0 0 None) true None None).2
    = Some "c0ffee".
Proof.
  pose proof (framed_recovery [] "c0ffee" demo_out 0 0 None None
    (conj eq_refl eq_refl) ltac:(done) eq_refl) as H.
  destruct (recover_inner_exit _ _ _ _) as [r st']. exact (proj1 H).
Defined.

Lemma framed_crash_witness :
  (recover_inner_exit (MkCompleted [] 0 (Some (begin_line "c0ffee" +:+ demo_out)) None)
     true None None).1 = Err (sentinel_not_found (begin_line "c0ffee" +:+ demo_out) None).
Proof.
  pose proof (framed_crash_fails_closed [] "c0ffee" demo_out 0 None None
    (conj eq_refl eq_refl) eq_refl) as H.
  destruct (recover_inner_exit _ _ _ _) as [r st']. exact (proj2 H).
Defined.

Lemma wrapped_recovery_witness :
  (recover_inner_exit (MkCompleted [] 0 (Some ("ok" +:+ NL +:+ trailer "c0ffee" 3)) None)
     false (Some "c0ffee") None).2 = None.
Proof.
  pose proof (wrapped_recovery [] "c0ffee" ("ok" +:+ NL) 3 0 None None
    (conj eq_refl eq_refl) ltac:(done) eq_refl (or_intror (ex_intro _ "ok" eq_refl))) as H.
  change ("ok" +:+ NL +:+ trailer "c0ffee" 3) with (("ok" +:+ NL) +:+ trailer "c0ffee" 3).
  destruct (recover_inner_exit _ _ _ _) as [r st']. exact (proj1 H).
Defined.

(** A command whose output does not end its line hides the trailer. *)
Example no_final_newline_fails :
  is_ok (recover_inner_exit (framed_result [] "c0ffee" "done" 0 0 None) true None None).1 = false.
Proof. by vm_compute. Qed.

Example inject_demo :
  inject_sentinel true false "ab" ["bash"; "-c"; "exit 3"] =
    (["bash"; "-c"; "( exit 3 ); echo __SANDBOX_EXIT_ab_$?"], Some "ab").
Proof. reflexivity. Qed.
