(* ===== verification/Images.v ===== *)
(** * core.hydration (image pins), core.compose, core.hashing and the hardened helper run *)
From S2P Require Import Prelude PyStr.
From Stdlib Require Import Ascii String.

(** ** Image pins *)

Record ImagePin := MkImagePin { ref : string; tag : string; digest : string }.

Definition pinned (p : ImagePin) : string := ref p +:+ "@" +:+ digest p.
Definition tagged (p : ImagePin) : string := ref p +:+ ":" +:+ tag p.

Definition IMAGE_REGISTRY : list (string * ImagePin) :=
  [("wolfi_base", MkImagePin "cgr.dev/chainguard/wolfi-base" "latest"
      "sha256:d6e31fc9dad5fd76d7160ba833502865e17c226ab261cb6893a0624b68198d7b");
   ("debian_trixie", MkImagePin "debian" "trixie"
      "sha256:35b8ff74ead4880f22090b617372daff0ccae742eb5674455d542bef71ef1999");
   ("squid", MkImagePin "ubuntu/squid" "latest"
      "sha256:6a097f68bae708cedbabd6188d68c7e2e7a38cedd05a176e1cc0ba29e3bbe029");
   ("coredns", MkImagePin "coredns/coredns" "1.11.1"
      "sha256:1eeb4c7316bacb1d4c8ead65571cd92dd21e27359f0d4917f1a5822a73b75db1");
   ("dnsdist", MkImagePin "powerdns/dnsdist-19" "1.9.14"
      "sha256:c2f859bb67865987878ff93c9c75758236fe659b4117b296da29da6b572affd0");
   ("postgres", MkImagePin "postgres" "16-alpine"
      "sha256:4e6e670bb069649261c9c18031f0aded7bb249a5b6664ddec29c013a89310d50");
   ("busybox_musl", MkImagePin "busybox" "1.36.1-musl"
      "sha256:3c6ae8008e2c2eedd141725c30b20d9c36b026eb796688f88205845ef17aa213");
   ("golang_alpine", MkImagePin "golang" "1.23-alpine"
      "sha256:383395b794dffa5b53012a212365d40c8e37109a626ca30d6151c8348d380b5f")].

Fixpoint assoc {A} (k : string) (l : list (string * A)) : option A :=
  match l with
  | [] => None
  | (k', v) :: l => if String.eqb k k' then Some v else assoc k l
  end.

Definition image (k : string) : res ImagePin :=
  match assoc k IMAGE_REGISTRY with Some p => Ok p | None => Err KeyError end.

(** ** core.compose *)

Definition sanitize_char (c : ascii) : ascii :=
  if is_lower c || is_dec c then c else "-"%char.

Definition sanitize_dev_username (username : string) : string :=
  strip_char "-"%char (str_map sanitize_char (lower username)).

Definition compose_project_name (instance_name dev_username : string) : res string :=
  let sanitized := sanitize_dev_username dev_username in
  if nonempty sanitized then Ok (sanitized +:+ "-" +:+ instance_name) else Err ValueError.

(** ** core.hashing: [abspath] is [os.path.abspath], [md5] a hex digest *)

Definition generate_project_hash (abspath md5 : string → string) (project_dir : string) : string :=
  let abs_path := abspath project_dir in
  basename abs_path +:+ "-" +:+ stake 6 (md5 abs_path).

(** ** core.helper_container.hardened_docker_run *)

Definition hardened_docker_run (img parent inner_sh : string) : string :=
  "docker run --rm " +:+
  "--runtime=runc " +:+
  "--network=none " +:+
  "--read-only " +:+
  "--tmpfs /tmp " +:+
  "--user 0:0 " +:+
  "--cap-drop ALL " +:+
  "--cap-add CHOWN " +:+
  "--cap-add DAC_OVERRIDE " +:+
  "--security-opt no-new-privileges:true " +:+
  "-v " +:+ shlex_quote parent +:+ ":/p " +:+
  shlex_quote img +:+ " " +:+
  "sh -c " +:+ shlex_quote inner_sh.

(** ** Lemmas *)

Definition project_char (c : ascii) : bool := is_lower c || is_dec c || Ascii.eqb c "-".

Lemma str_forall_map p (f : ascii → ascii) s :
  (∀ c, p (f c) = true) → str_forall p (str_map f s) = true.
Proof. intros Hf. induction s as [|c s IH]; simpl; [done|]. by rewrite Hf. Qed.

Lemma str_forall_lstrip p q s : str_forall p s = true → str_forall p (lstrip_p q s) = true.
Proof.
  induction s as [|c s IH]; simpl; [done|]. intros [Hc Hs]%andb_true_iff.
  destruct (q c); [auto|]. simpl. by rewrite Hc, Hs.
Qed.

Lemma str_forall_rstrip p q s : str_forall p s = true → str_forall p (rstrip_p q s) = true.
Proof.
  induction s as [|c s IH]; simpl; [done|]. intros [Hc Hs]%andb_true_iff.
  specialize (IH Hs). destruct (rstrip_p q s) as [|c' s'].
  - destruct (q c); simpl; [done|]. by rewrite Hc.
  - cbn [str_forall] in *. by rewrite Hc.
Qed.

Lemma sanitize_chars u : str_forall project_char (sanitize_dev_username u) = true.
Proof.
  unfold sanitize_dev_username, strip_char, rstrip_char, lstrip_char.
  apply str_forall_rstrip, str_forall_lstrip, str_forall_map.
  intros c. unfold sanitize_char, project_char.
  destruct (is_lower c || is_dec c) eqn:E; [by rewrite E|done].
Qed.

(** ** Properties *)

(** A project name is the sanitised user name, of lower-case letters, digits
    and dashes, then a dash and the instance name; the derivation fails exactly
    when nothing of the user name is left; and for one user distinct instances
    have distinct project names. *)
Theorem compose_project_name_spec (inst inst' user : string) :
  match compose_project_name inst user with
  | Ok p => (∃ u, u ≠ "" ∧ str_forall project_char u = true ∧ p = u +:+ "-" +:+ inst ∧
                  u = sanitize_dev_username user) ∧
            (compose_project_name inst' user = Ok p → inst' = inst)
  | Err e => e = ValueError ∧ sanitize_dev_username user = ""
  end.
Proof.
  unfold compose_project_name. pose proof (sanitize_chars user) as Hu.
  destruct (sanitize_dev_username user) as [|c u] eqn:E; cbn [nonempty]; [done|].
  split; [by exists (String c u)|]. intros [= H].
  apply (app_inv_l_str (u +:+ "-")). by rewrite !app_assoc_str.
Qed.

(** Across users the prefix does not separate project names: two users with
    different names, and instances with valid names, can share one. *)
Theorem compose_project_name_collides :
  ∃ u u' i i', u ≠ u' ∧ i ≠ i' ∧ is_ok (compose_project_name i u) = true ∧
    compose_project_name i u = compose_project_name i' u'.
Proof. by exists "ann", "ann-dev", "dev-web", "web". Qed.
