(* ===== verification/ShellWords.v ===== *)
(** * What the shell makes of quoted text

    A strict reading of a command line as words: only blanks, characters that
    are never special, and quoted text are accepted, so a line that reads back
    has no expansion, redirection or command separator in it. *)
From S2P Require Import Prelude PyStr.
From Stdlib Require Import Ascii String.

Inductive lex_state : Type :=
  | LBlank
  | LWord (w : string)
  | LSingle (w : string)
  | LDouble (w : string).

Definition lex_unquoted (w : string) (c : ascii) : option lex_state :=
  if Ascii.eqb c sq then Some (LSingle w)
  else if Ascii.eqb c dq then Some (LDouble w)
  else if shlex_safe c then Some (LWord (w +:+ ch c))
  else None.

Fixpoint sh_lex (st : lex_state) (s : string) : option (list string) :=
  match s with
  | "" => match st with
          | LBlank => Some []
          | LWord w => Some [w]
          | LSingle _ | LDouble _ => None
          end
  | String c s' =>
      match st with
      | LBlank => if Ascii.eqb c " " then sh_lex LBlank s'
                  else lex_unquoted "" c ≫= λ st, sh_lex st s'
      | LWord w => if Ascii.eqb c " " then cons w <$> sh_lex LBlank s'
                   else lex_unquoted w c ≫= λ st, sh_lex st s'
      | LSingle w => sh_lex (if Ascii.eqb c sq then LWord w else LSingle (w +:+ ch c)) s'
      | LDouble w =>
          if Ascii.eqb c dq then sh_lex (LWord w) s'
          else if existsb (Ascii.eqb c) ["$"; "\"; "`"]%char then None
          else sh_lex (LDouble (w +:+ ch c)) s'
      end
  end.

(** The words of a command line, if it has nothing but words. *)
Definition sh_words (s : string) : option (list string) := sh_lex LBlank s.

(** ** Lemmas *)

Lemma shlex_safe_plain c : shlex_safe c = true →
  Ascii.eqb c sq = false ∧ Ascii.eqb c dq = false ∧ Ascii.eqb c " " = false.
Proof.
  intros H. split_and!; apply Ascii.eqb_neq; intros ->; by vm_compute in H.
Qed.

Lemma lex_safe w s rest : str_forall shlex_safe s = true →
  sh_lex (LWord w) (s +:+ rest) = sh_lex (LWord (w +:+ s)) rest.
Proof.
  revert w; induction s as [|c s IH]; intros w; cbn [append].
  - by rewrite app_nil_r_str.
  - cbn [str_forall]. intros [Hc Hs]%andb_true_iff.
    destruct (shlex_safe_plain c Hc) as (H1 & H2 & H3).
    cbn [sh_lex]. unfold lex_unquoted. rewrite H1, H2, H3, Hc. simpl.
    rewrite IH by done. by rewrite app_assoc_str.
Qed.

Lemma lex_blank_safe s rest : str_forall shlex_safe s = true → nonempty s = true →
  sh_lex LBlank (s +:+ rest) = sh_lex (LWord s) rest.
Proof.
  destruct s as [|c s]; [done|]. cbn [str_forall append]. intros [Hc Hs]%andb_true_iff _.
  destruct (shlex_safe_plain c Hc) as (H1 & H2 & H3).
  cbn [sh_lex]. unfold lex_unquoted. rewrite H1, H2, H3, Hc. simpl.
  by rewrite lex_safe.
Qed.

Lemma replace_char_cons a new c s :
  replace (ch a) new (String c s) =
    (if Ascii.eqb a c then new else ch c) +:+ replace (ch a) new s.
Proof.
  unfold replace. cbn [replace_skip ch startswith str_len String.length].
  rewrite andb_true_r. by destruct (Ascii.eqb a c).
Qed.

(** The text between the outer quotes, read back. *)
Lemma lex_single w s rest :
  sh_lex (LSingle w) (replace SQ (SQ +:+ DQ +:+ SQ +:+ DQ +:+ SQ) s +:+ SQ +:+ rest) =
    sh_lex (LWord (w +:+ s)) rest.
Proof.
  revert w; induction s as [|c s IH]; intros w.
  - simpl. by rewrite app_nil_r_str.
  - rewrite replace_char_cons, app_assoc_str.
    destruct (Ascii.eqb_spec sq c) as [<-|Hc]; simpl.
    + rewrite IH. by rewrite app_assoc_str.
    + rewrite (proj2 (Ascii.eqb_neq c sq)) by congruence.
      rewrite IH. by rewrite app_assoc_str.
Qed.

Lemma lex_quote s rest : sh_lex LBlank (shlex_quote s +:+ rest) = sh_lex (LWord s) rest.
Proof.
  unfold shlex_quote. destruct s as [|c s]; [done|]. cbn [nonempty negb].
  destruct (str_forall shlex_safe (String c s)) eqn:E; [by apply lex_blank_safe|].
  rewrite !app_assoc_str. generalize (String c s). intros s'.
  exact (lex_single "" s' rest).
Qed.

Lemma lex_word_blank w s : sh_lex (LWord w) (" " +:+ s) = cons w <$> sh_lex LBlank s.
Proof. done. Qed.

Lemma join_cons sep x y l : join sep (x :: y :: l) = x +:+ sep +:+ join sep (y :: l).
Proof. done. Qed.

(** A quoted list reads back as it was. *)
Lemma words_shlex_join l : sh_words (shlex_join l) = Some l.
Proof.
  unfold sh_words, shlex_join. induction l as [|x [|y l] IH]; [done|..].
  - simpl. rewrite <- (app_nil_r_str (shlex_quote x)), lex_quote. done.
  - cbn [map]. rewrite join_cons, lex_quote, lex_word_blank.
    cbn [map] in IH. by rewrite IH.
Qed.

(** Words that precede more text. *)
Lemma lex_join_app l rest : l ≠ [] →
  sh_lex LBlank (shlex_join l +:+ " " +:+ rest) = app l <$> sh_lex LBlank rest.
Proof.
  unfold shlex_join. induction l as [|x [|y l] IH]; [done|..]; intros _.
  - simpl. by rewrite lex_quote.
  - cbn [map]. rewrite join_cons, !app_assoc_str, lex_quote, lex_word_blank.
    cbn [map] in IH. rewrite IH by done. by destruct (sh_lex LBlank rest).
Qed.
#[export] Hint Rewrite lex_quote lex_word_blank words_shlex_join : sandbox_rw.
