(* ===== verification/Dispatch.v ===== *)
(** * core.dispatch: the typed operations, their validators and builders

    Arguments are lists of strings as the code receives them; wherever the code
    would raise on a list of the wrong shape the model does.  What the code
    reads of the host (registry, ledger, the user's name, the parsed
    [sandbox.toml]) is a record of its own. *)
From S2P Require Import Prelude PyStr HostConfig Json Registry Ipam Images ShellWords.
From Stdlib Require Import Ascii String.

Open Scope nat_scope.

Definition DISPATCH_BINARY : string := "/usr/local/libexec/sandbox-ai/dispatch".

Inductive Op : Type :=
  | AUTH_PROBE | COMPOSE_UP | COMPOSE_DOWN | COMPOSE_PS | COMPOSE_LS | DOCKER_VERSION
  | DOCKER_INFO | DOCKER_MANIFEST_INSPECT | HELPER_CHOWN_FILES | HELPER_MKDIR_CHOWN_DIRS
  | PREFLIGHT | FWD.

#[export] Instance Op_eq_dec : EqDecision Op.
Proof. solve_decision. Defined.

Definition all_ops : list Op :=
  [AUTH_PROBE; COMPOSE_UP; COMPOSE_DOWN; COMPOSE_PS; COMPOSE_LS; DOCKER_VERSION; DOCKER_INFO;
   DOCKER_MANIFEST_INSPECT; HELPER_CHOWN_FILES; HELPER_MKDIR_CHOWN_DIRS; PREFLIGHT; FWD].

Definition op_value (op : Op) : string :=
  match op with
  | AUTH_PROBE => "auth-probe"
  | COMPOSE_UP => "compose-up"
  | COMPOSE_DOWN => "compose-down"
  | COMPOSE_PS => "compose-ps"
  | COMPOSE_LS => "compose-ls"
  | DOCKER_VERSION => "docker-version"
  | DOCKER_INFO => "docker-info"
  | DOCKER_MANIFEST_INSPECT => "docker-manifest-inspect"
  | HELPER_CHOWN_FILES => "helper-chown-files"
  | HELPER_MKDIR_CHOWN_DIRS => "helper-mkdir-chown-dirs"
  | PREFLIGHT => "preflight"
  | FWD => "fwd"
  end.

(** [Op(value)] *)
Definition op_of_value (s : string) : res Op :=
  match List.find (λ op, String.eqb (op_value op) s) all_ops with
  | Some op => Ok op
  | None => Err ValueError
  end.

Definition is_streaming_op (op : Op) : bool := bool_decide (op = FWD).
Definition require_framed_op (op : Op) : res unit :=
  require (negb (is_streaming_op op)) StreamingOpError.
Definition require_streaming_op (op : Op) : res unit :=
  require (is_streaming_op op) StreamingOpError.

(** ** Argument shapes *)

Definition INSTANCE_NAME_MAX : nat := 30.
Definition RESERVED_INSTANCE_NAMES : list string :=
  ["_backups"; "default"; "all"; "none"; "system"; "isolated"; "core_proxy"; "dns"; "egress";
   "ipc"].

Definition name_start (c : ascii) : bool := is_lower c || is_dec c.
Definition name_rest (c : ascii) : bool :=
  is_lower c || is_dec c || Ascii.eqb c "_" || Ascii.eqb c "-".

(** [re.compile(r"^[a-z0-9][a-z0-9_-]*$").match] *)
Definition INSTANCE_NAME_REGEX (s : string) : bool :=
  match dollar_chomp s with
  | "" => false
  | String c r => name_start c && str_forall name_rest r
  end.

(** [re.compile(r"^[0-7]{4}$").match] *)
Definition MODE_OCTAL_REGEX (s : string) : bool :=
  let s := dollar_chomp s in str_forall is_octal s && (str_len s =? 4)%nat.

Definition DOCKER_INFO_PRESETS : list (string * string) :=
  [("security-options", "{{.SecurityOptions}}"); ("runtimes", "{{json .Runtimes}}")].

Definition MANIFEST_INSPECT_REFS : list string :=
  map (λ p, pinned p.2) IMAGE_REGISTRY ++ map (λ p, tagged p.2) IMAGE_REGISTRY.

Definition mem (s : string) (l : list string) : bool := existsb (String.eqb s) l.

Definition require_instance_name (value : string) : res unit :=
  _ ← require (nonempty value) DispatchValidationError;
  _ ← require (str_len value <=? INSTANCE_NAME_MAX)%nat DispatchValidationError;
  _ ← require (negb (startswith "-" value || startswith "_" value)) DispatchValidationError;
  _ ← require (INSTANCE_NAME_REGEX value) DispatchValidationError;
  require (negb (mem value RESERVED_INSTANCE_NAMES)) DispatchValidationError.

Definition require_no_path_metachars (value : string) : res unit :=
  _ ← require (negb (has_char slash value)) DispatchValidationError;
  _ ← require (negb (String.eqb value ".." || mem ".." (split_char slash value)))
        DispatchValidationError;
  _ ← require (negb (has_char nul value)) DispatchValidationError;
  require (negb (has_char nl value)) DispatchValidationError.

Definition require_absolute_parent (value : string) : res unit :=
  _ ← require (startswith "/" value) DispatchValidationError;
  _ ← require (negb (mem ".." (split_char slash value))) DispatchValidationError;
  _ ← require (negb (has_char nul value)) DispatchValidationError;
  require (negb (has_char nl value)) DispatchValidationError.

Definition require_octal_mode (value : string) : res unit :=
  require (MODE_OCTAL_REGEX value) DispatchValidationError.

Definition require_nonneg_int (value : string) : res unit :=
  require (isdigit value) DispatchValidationError.

(** ** Validators *)

Definition validate_nullary (args : list string) : res unit :=
  match args with [] => Ok tt | _ => Err DispatchValidationError end.

Definition validate_one_instance (args : list string) : res unit :=
  match args with [i] => require_instance_name i | _ => Err DispatchValidationError end.

Definition validate_compose_down (args : list string) : res unit :=
  match args with
  | [i] => require_instance_name i
  | [i; v] => _ ← require_instance_name i;
              require (String.eqb v "--volumes") DispatchValidationError
  | _ => Err DispatchValidationError
  end.

Definition validate_docker_info (args : list string) : res unit :=
  match args with
  | [p] => require (mem p (map fst DOCKER_INFO_PRESETS)) DispatchValidationError
  | _ => Err DispatchValidationError
  end.

Definition validate_docker_manifest_inspect (args : list string) : res unit :=
  match args with
  | [r] => require (mem r MANIFEST_INSPECT_REFS) DispatchValidationError
  | _ => Err DispatchValidationError
  end.

Definition validate_helper_chown_files (args : list string) : res unit :=
  match args with
  | parent :: mode :: uid :: gid :: (_ :: _) as files =>
      _ ← require_absolute_parent parent;
      _ ← require_octal_mode mode;
      _ ← require_nonneg_int uid;
      _ ← require_nonneg_int gid;
      res_iter require_no_path_metachars files
  | _ => Err DispatchValidationError
  end.

Definition validate_helper_mkdir_chown_dirs (args : list string) : res unit :=
  match args with
  | parent :: uid :: gid :: (_ :: _) as leaves =>
      _ ← require_absolute_parent parent;
      _ ← require_nonneg_int uid;
      _ ← require_nonneg_int gid;
      res_iter require_no_path_metachars leaves
  | _ => Err DispatchValidationError
  end.

(** ** Resolution of the operator's state *)

Record dispatch_env := MkDispatchEnv {
  de_registry : json_file;
  de_ledger : ledger_file;
  de_dev_username : string;
  (** what [InstanceConfig.from_toml] reads of a path:
      [components_db_postgres.enabled] and [components.mcp_firecrawl] *)
  de_from_toml : string → res (bool * bool)
}.

Definition resolve_compose_state (e : dispatch_env) (inst : string)
    : res (string * list string * string) :=
  match registry_get (de_registry e) inst with
  | None => Err DispatchValidationError
  | Some entry =>
      let instance_dir := instance_dir entry in
      '(db_postgres, firecrawl) ← de_from_toml e (path_join instance_dir "sandbox.toml");
      let files := ([path_join3 instance_dir "docker" "compose.yml"] ++
        (if db_postgres : bool
         then [path_join (path_join3 instance_dir "docker" "extras") "db-postgres.yml"] else []) ++
        (if firecrawl : bool
         then [path_join (path_join3 instance_dir "docker" "extras") "mcp-firecrawl.yml"]
         else []))%list in
      project_name ← compose_project_name inst (de_dev_username e);
      Ok (project_name, files, path_join instance_dir ".sandbox.env")
  end.

Definition resolve_fwd_state (e : dispatch_env) (inst : string) : res (string * string) :=
  project_name ← compose_project_name inst (de_dev_username e);
  '(base_index, _) ← (peek_next_slot inst (IpamState (de_ledger e) None)).1;
  ips ← derive_static_ips base_index;
  match assoc "core_ipc_ip" ips with
  | Some core_ipc_ip => Ok (project_name, core_ipc_ip)
  | None => Err KeyError
  end.

(** ** The compose wire form *)

Definition COMPOSE_VERB (op : Op) : option string :=
  match op with
  | COMPOSE_UP => Some "up -d --build --wait"
  | COMPOSE_DOWN => Some "down"
  | COMPOSE_PS => Some "ps --format json"
  | _ => None
  end.

(** The wire of resolved state; [--volumes] comes last. *)
Definition compose_wire (inst project env_file : string) (files : list string) (volumes : bool)
    : list string :=
  (inst :: "--project" :: project :: "--env-file" :: env_file ::
   flat_map (λ f, ["--compose-file"; f]) files ++
   (if volumes then ["--volumes"] else []))%list.

Definition expand_compose_wire (e : dispatch_env) (op : Op) (args : list string)
    : res (list string) :=
  match args with
  | [] => Err IndexError
  | inst :: rest =>
      '(project_name, compose_files, env_file) ← resolve_compose_state e inst;
      Ok (compose_wire inst project_name env_file compose_files
            (bool_decide (op = COMPOSE_DOWN) && (List.length rest =? 1)%nat))
  end.

(** The [while] loop over the flags, with what it has seen so far. *)
Fixpoint compose_flags (op : Op) (project env_file : option string) (files : list string)
    (volumes : bool) (rest : list string)
    : res (option string * option string * list string * bool) :=
  match rest with
  | [] => Ok (project, env_file, files, volumes)
  | flag :: rest' =>
      if String.eqb flag "--volumes" then
        if negb (bool_decide (op = COMPOSE_DOWN)) then Err DispatchValidationError
        else if volumes then Err DispatchValidationError
        else compose_flags op project env_file files true rest'
      else
        match rest' with
        | [] => Err DispatchValidationError
        | value :: rest'' =>
            if String.eqb flag "--project" then
              match project with
              | Some _ => Err DispatchValidationError
              | None => compose_flags op (Some value) env_file files volumes rest''
              end
            else if String.eqb flag "--env-file" then
              match env_file with
              | Some _ => Err DispatchValidationError
              | None => compose_flags op project (Some value) files volumes rest''
              end
            else if String.eqb flag "--compose-file" then
              compose_flags op project env_file (files ++ [value])%list volumes rest''
            else Err DispatchValidationError
        end
  end.

Definition parse_compose_wire (op : Op) (wire : list string)
    : res (string * string * list string * bool) :=
  match wire with
  | [] => Err DispatchValidationError
  | _ :: rest =>
      '(project, env_file, compose_files, volumes) ← compose_flags op None None [] false rest;
      match project, env_file, compose_files with
      | None, _, _ | _, None, _ | _, _, [] => Err DispatchValidationError
      | Some p, Some env, _ => Ok (p, env, compose_files, volumes)
      end
  end.

Definition bash_c (inner : string) : list string := ["/bin/bash"; "-c"; inner].

Definition build_compose_wire_argv (op : Op) (wire : list string) : res (list string) :=
  '(project, env_file, compose_files, volumes) ← parse_compose_wire op wire;
  let files_str := join " " (map (λ f, "-f " +:+ f) compose_files) in
  match COMPOSE_VERB op with
  | None => Err KeyError
  | Some verb =>
      let verb := if bool_decide (op = COMPOSE_DOWN) && volumes then "down -v" else verb in
      let env_prefix :=
        "TERM=dumb NO_COLOR=1 BUILDKIT_PROGRESS=plain COMPOSE_PROJECT_NAME=" +:+ project in
      Ok (bash_c
        (if bool_decide (op = COMPOSE_PS) then
           env_prefix +:+ " docker compose " +:+ files_str +:+
           " --env-file " +:+ env_file +:+ " --ansi never " +:+ verb
         else
           env_prefix +:+ " docker compose " +:+ files_str +:+
           " --ansi never --env-file " +:+ env_file +:+ " " +:+ verb))
  end.

(** ** The other builders *)

Definition AUTH_PROBE_INNER : string := "echo ok".
Definition COMPOSE_LS_INNER : string := "docker compose ls --format json --all".
Definition DOCKER_VERSION_INNER : string :=
  "docker version --format " +:+ SQ +:+ "{{.Server.Version}}" +:+ SQ.

Definition docker_info_inner (preset : string) : res string :=
  match assoc preset DOCKER_INFO_PRESETS with
  | Some f => Ok ("docker info --format " +:+ SQ +:+ f +:+ SQ)
  | None => Err KeyError
  end.

Definition arg0 (args : list string) : res string :=
  match args with [] => Err IndexError | a :: _ => Ok a end.

Definition build_docker_info (args : list string) : res (list string) :=
  preset ← arg0 args; inner ← docker_info_inner preset; Ok (bash_c inner).

Definition build_docker_manifest_inspect (args : list string) : res (list string) :=
  r ← arg0 args; Ok (bash_c ("docker manifest inspect " +:+ r)).

Definition quoted_names (names : list string) : string := join " " (map shlex_quote names).

(** The loop bodies the helper container runs. *)
Definition chown_files_inner (mode_octal uid gid : string) (files : list string) : string :=
  "set -e; for f in " +:+ quoted_names files +:+ "; do " +:+
  "cp /p/" +:+ DQ +:+ "$f" +:+ DQ +:+ " /tmp/" +:+ DQ +:+ "$f" +:+ DQ +:+ " && " +:+
  "unlink /p/" +:+ DQ +:+ "$f" +:+ DQ +:+ " && " +:+
  "cp /tmp/" +:+ DQ +:+ "$f" +:+ DQ +:+ " /p/" +:+ DQ +:+ "$f" +:+ DQ +:+ " && " +:+
  "chmod " +:+ mode_octal +:+ " /p/" +:+ DQ +:+ "$f" +:+ DQ +:+ " && " +:+
  "chown " +:+ uid +:+ ":" +:+ gid +:+ " /p/" +:+ DQ +:+ "$f" +:+ DQ +:+ "; done".

Definition mkdir_chown_inner (uid gid : string) (leaves : list string) : string :=
  "set -e; for d in " +:+ quoted_names leaves +:+ "; do " +:+
  "mkdir -p /p/" +:+ DQ +:+ "$d" +:+ DQ +:+ " && chown " +:+ uid +:+ ":" +:+ gid +:+
  " /p/" +:+ DQ +:+ "$d" +:+ DQ +:+ "; done".

Definition build_helper_chown_files (args : list string) : res (list string) :=
  match args with
  | parent :: mode :: uid :: gid :: files =>
      img ← image "busybox_musl";
      m ← match py_int8 mode with Some m => Ok m | None => Err ValueError end;
      Ok (bash_c (hardened_docker_run (pinned img) parent
            (chown_files_inner (fmt_04o m) uid gid files)))
  | _ => Err ValueError
  end.

Definition build_helper_mkdir_chown_dirs (args : list string) : res (list string) :=
  match args with
  | parent :: uid :: gid :: leaves =>
      img ← image "busybox_musl";
      Ok (bash_c (hardened_docker_run (pinned img) parent (mkdir_chown_inner uid gid leaves)))
  | _ => Err ValueError
  end.

(** ** The preflight bundle *)

Definition PREFLIGHT_QUERY_MARKER_PREFIX : string := "__PREFLIGHT_Q_".
Definition PREFLIGHT_RC_MARKER_PREFIX : string := "__PREFLIGHT_RC_".

(** The names are literals of the code, so the preset lookups succeed. *)
Definition preflight_query_segments : list (string * string) :=
  [(op_value AUTH_PROBE, AUTH_PROBE_INNER);
   (op_value DOCKER_VERSION, DOCKER_VERSION_INNER);
   ("docker-info-security-options",
    match docker_info_inner "security-options" with Ok s => s | Err _ => "" end);
   ("docker-info-runtimes",
    match docker_info_inner "runtimes" with Ok s => s | Err _ => "" end);
   (op_value COMPOSE_LS, COMPOSE_LS_INNER)].

Definition preflight_inner : string :=
  join " ; " (map (λ '(name, inner),
    "echo " +:+ PREFLIGHT_QUERY_MARKER_PREFIX +:+ "${__PFNONCE}_" +:+ name +:+ "__; " +:+
    inner +:+ " 2>&1; " +:+
    "echo " +:+ PREFLIGHT_RC_MARKER_PREFIX +:+ "${__PFNONCE}_" +:+ name +:+ "_$?__")
    preflight_query_segments).

(** ** The streaming operation *)

Definition DOCKER_BINARY : string := "/usr/bin/docker".
Definition FWD_PORT : string := "9999".

Definition fwd_wire (inst project ip : string) : list string :=
  [inst; "--project"; project; "--ip"; ip].

Definition expand_fwd_wire (e : dispatch_env) (args : list string) : res (list string) :=
  inst ← arg0 args;
  '(project_name, core_ipc_ip) ← resolve_fwd_state e inst;
  Ok (fwd_wire inst project_name core_ipc_ip).

Fixpoint fwd_flags (project ip : option string) (rest : list string)
    : res (option string * option string) :=
  match rest with
  | [] => Ok (project, ip)
  | [_] => Err DispatchValidationError
  | flag :: value :: rest =>
      if String.eqb flag "--project" then
        match project with
        | Some _ => Err DispatchValidationError
        | None => fwd_flags (Some value) ip rest
        end
      else if String.eqb flag "--ip" then
        match ip with
        | Some _ => Err DispatchValidationError
        | None => fwd_flags project (Some value) rest
        end
      else Err DispatchValidationError
  end.

Definition parse_fwd_wire (wire : list string) : res (string * string) :=
  match wire with
  | [] => Err DispatchValidationError
  | _ :: rest =>
      '(project, ip) ← fwd_flags None None rest;
      match project, ip with
      | Some p, Some a => Ok (p, a)
      | _, _ => Err DispatchValidationError
      end
  end.

Definition build_fwd (args : list string) : res (list string) :=
  '(project, ip) ← parse_fwd_wire args;
  Ok [DOCKER_BINARY; "exec"; "-i"; project +:+ "-admin-1"; "/fwd"; ip +:+ ":" +:+ FWD_PORT].

(** ** The operation table *)

(** [max_args] is [None] when unbounded.  No builder reads the host
    configuration. *)
Record OpSpec := MkOpSpec {
  name : string;
  min_args : nat;
  max_args : option nat;
  validate : list string → res unit;
  build : list string → res (list string)
}.

Definition OP_SPECS (op : Op) : OpSpec :=
  let spec := MkOpSpec (op_value op) in
  match op with
  | AUTH_PROBE => spec 0 (Some 0) validate_nullary (λ _, Ok (bash_c AUTH_PROBE_INNER))
  | COMPOSE_UP => spec 1 (Some 1) validate_one_instance (build_compose_wire_argv COMPOSE_UP)
  | COMPOSE_DOWN => spec 1 (Some 2) validate_compose_down (build_compose_wire_argv COMPOSE_DOWN)
  | COMPOSE_PS => spec 1 (Some 1) validate_one_instance (build_compose_wire_argv COMPOSE_PS)
  | COMPOSE_LS => spec 0 (Some 0) validate_nullary (λ _, Ok (bash_c COMPOSE_LS_INNER))
  | DOCKER_VERSION => spec 0 (Some 0) validate_nullary (λ _, Ok (bash_c DOCKER_VERSION_INNER))
  | DOCKER_INFO => spec 1 (Some 1) validate_docker_info build_docker_info
  | DOCKER_MANIFEST_INSPECT =>
      spec 1 (Some 1) validate_docker_manifest_inspect build_docker_manifest_inspect
  | HELPER_CHOWN_FILES => spec 5 None validate_helper_chown_files build_helper_chown_files
  | HELPER_MKDIR_CHOWN_DIRS =>
      spec 4 None validate_helper_mkdir_chown_dirs build_helper_mkdir_chown_dirs
  | PREFLIGHT => spec 0 (Some 0) validate_nullary (λ _, Ok (bash_c preflight_inner))
  | FWD => spec 1 (Some 1) validate_one_instance build_fwd
  end.

Definition validate_args (op : string) (args : list string) : res unit :=
  resolved ← op_of_value op; validate (OP_SPECS resolved) args.

Definition build_target_argv (op : string) (args : list string) : res (list string) :=
  resolved ← op_of_value op; build (OP_SPECS resolved) args.

(** ** Crossing the boundary *)

Definition dispatch_payload (op_value : string) (wire_args : list string) : string :=
  rstrip (DISPATCH_BINARY +:+ " " +:+ op_value +:+ " " +:+ shlex_join wire_args).

Definition sudo_pipe_crossing_argv (launcher_path user : string) : list string :=
  launcher_path :: tail (tail (sudo_pipe_cmd user)).

(** The argv once the wire is known; only the prefix differs by mode. *)
Definition crossing_argv (h : host_env) (op : string) (wire_args : list string)
    (host_config : HostConfig) : res (list string) :=
  if is_operator_rootless host_config then build_target_argv op wire_args
  else
    user ← resolve_daemon_owner_settings h (host host_config);
    Ok (sudo_pipe_cmd user ++ ["/bin/bash"; "-c"; dispatch_payload op wire_args])%list.

Definition build_invocation (h : host_env) (e : dispatch_env) (op : string) (args : list string)
    (host_config : HostConfig) : res (list string) :=
  resolved ← op_of_value op;
  _ ← require_framed_op resolved;
  _ ← validate_args op args;
  wire_args ← (if bool_decide (is_Some (COMPOSE_VERB resolved))
               then expand_compose_wire e resolved args else Ok args);
  crossing_argv h op wire_args host_config.

Definition proxy_argv (h : host_env) (e : dispatch_env) (op : string) (args : list string)
    (host_config : HostConfig) : res (list string) :=
  resolved ← op_of_value op;
  _ ← require_streaming_op resolved;
  _ ← validate_args op args;
  wire_args ← expand_fwd_wire e args;
  crossing_argv h op wire_args host_config.

(** ** Lemmas on the wires *)

Lemma compose_flags_files op p env fs files vol rest :
  compose_flags op p env files vol (flat_map (λ f, ["--compose-file"; f]) fs ++ rest)%list =
    compose_flags op p env (files ++ fs)%list vol rest.
Proof.
  revert files; induction fs as [|f fs IH]; intros files.
  - by rewrite app_nil_r.
  - simpl. rewrite IH. by rewrite <- app_assoc.
Qed.

Lemma parse_compose_wire_ok op inst p env fs vol : fs ≠ [] → (vol = true → op = COMPOSE_DOWN) →
  parse_compose_wire op (compose_wire inst p env fs vol) = Ok (p, env, fs, vol).
Proof.
  intros Hfs Hvol. unfold parse_compose_wire, compose_wire.
  assert (compose_flags op None None [] false
    ("--project" :: p :: "--env-file" :: env ::
     flat_map (λ f, ["--compose-file"; f]) fs ++ (if vol then ["--volumes"] else []))%list
    = Ok (Some p, Some env, fs, vol)) as ->.
  { cbn. rewrite compose_flags_files. cbn [app]. destruct vol; [|done].
    simpl. by rewrite bool_decide_true by auto. }
  simpl. by destruct fs.
Qed.

Lemma parse_fwd_wire_ok inst p ip : parse_fwd_wire (fwd_wire inst p ip) = Ok (p, ip).
Proof. done. Qed.

(** ** Lemmas on the payload *)

Definition ends_plain (s : string) : Prop := ∃ t c, s = t +:+ ch c ∧ is_space c = false.

Lemma rstrip_ends_plain s : ends_plain s → rstrip s = s.
Proof.
  intros (t & c & -> & Hc). unfold rstrip. induction t as [|a t IH]; simpl.
  - by rewrite Hc.
  - rewrite IH. by destruct t.
Qed.

Lemma rstrip_blank s : ends_plain s → rstrip (s +:+ " ") = s.
Proof.
  intros (t & c & -> & Hc). unfold rstrip. induction t as [|a t IH]; simpl.
  - by rewrite Hc.
  - cbn in IH. rewrite IH. by destruct t.
Qed.

Lemma ends_plain_app s t : ends_plain t → ends_plain (s +:+ t).
Proof.
  intros (u & c & -> & Hc). exists (s +:+ u), c. by rewrite app_assoc_str.
Qed.

Lemma safe_ends_plain s : str_forall shlex_safe s = true → nonempty s = true → ends_plain s.
Proof.
  induction s as [|c s IH]; [done|]. cbn [str_forall]. intros [Hc Hs]%andb_true_iff _.
  destruct s as [|c' s].
  - exists "", c. split; [done|]. apply not_true_iff_false. intros Hsp.
    destruct c as [[] [] [] [] [] [] [] []]; done.
  - apply (ends_plain_app (ch c)). by apply IH.
Qed.

Lemma shlex_quote_ends_plain s : ends_plain (shlex_quote s).
Proof.
  unfold shlex_quote. destruct s as [|c s]; [by exists SQ, sq|]. cbn [nonempty negb].
  destruct (str_forall _ _) eqn:E; [by apply safe_ends_plain|].
  apply (ends_plain_app SQ), ends_plain_app. by exists "", sq.
Qed.

Lemma shlex_join_ends_plain l : l ≠ [] → ends_plain (shlex_join l).
Proof.
  unfold shlex_join. induction l as [|x [|y l] IH]; [done|..]; intros _.
  - apply shlex_quote_ends_plain.
  - cbn [map]. rewrite join_cons. by apply ends_plain_app, ends_plain_app, IH.
Qed.

Lemma op_value_safe op : str_forall shlex_safe (op_value op) = true ∧
  nonempty (op_value op) = true.
Proof. by destruct op. Qed.

(** The payload is the quoted join of the binary, the operation and the wire. *)
Lemma dispatch_payload_alt op wire :
  dispatch_payload (op_value op) wire = shlex_join (DISPATCH_BINARY :: op_value op :: wire).
Proof.
  destruct (op_value_safe op) as [Hs Hn].
  assert (shlex_quote (op_value op) = op_value op) as Hq by (by destruct op).
  unfold dispatch_payload. destruct wire as [|w wire].
  - unfold shlex_join at 2. cbn [map]. rewrite Hq.
    change (join " " [shlex_quote DISPATCH_BINARY; op_value op])
      with (DISPATCH_BINARY +:+ " " +:+ op_value op).
    rewrite <- rstrip_blank; [by rewrite !app_assoc_str|].
    by apply ends_plain_app, ends_plain_app, safe_ends_plain.
  - unfold shlex_join. cbn [map]. rewrite 2!join_cons, Hq.
    change (shlex_quote DISPATCH_BINARY) with DISPATCH_BINARY.
    apply rstrip_ends_plain. do 4 apply ends_plain_app.
    by apply (shlex_join_ends_plain (w :: wire)).
Qed.

(** ** Lemmas on names and modes *)

Lemma dollar_chomp_cases s : s = dollar_chomp s ∨ s = dollar_chomp s +:+ NL.
Proof.
  induction s as [|c s IH]; [by left|]. simpl.
  destruct (Ascii.eqb c nl && negb (nonempty s)) eqn:E.
  - right. apply andb_true_iff in E as [->%Ascii.eqb_eq Hs]. by destruct s.
  - destruct IH as [IH|IH]; [left|right]; cbn [append]; f_equal; exact IH.
Qed.

Lemma octal_not_space c : is_octal c = true → negb (is_space c) = true.
Proof. intros H. by destruct c as [[] [] [] [] [] [] [] []]. Qed.

Lemma strip_nl t : str_forall (λ c, negb (is_space c)) t = true → nonempty t = true →
  strip (t +:+ NL) = t.
Proof.
  intros Ht Hn. unfold strip. destruct t as [|c t]; [done|]. cbn [str_forall append] in *.
  apply andb_true_iff in Ht as [Hc Ht]. apply negb_true_iff in Hc.
  cbn [lstrip_p]. rewrite Hc. clear Hn. cbn [rstrip_p].
  assert (rstrip_p is_space (t +:+ NL) = t) as ->; [|by destruct t; rewrite ?Hc].
  clear Hc. induction t as [|a t IH]; [done|]. cbn [str_forall append rstrip_p] in *.
  apply andb_true_iff in Ht as [Ha Ht]. apply negb_true_iff in Ha.
  rewrite IH by done. destruct t; by rewrite ?Ha.
Qed.

Lemma int_digits_octal s acc ok : str_forall is_octal s = true →
  (nonempty s || ok = true) → is_Some (int_digits 8 is_octal acc ok s).
Proof.
  revert acc ok; induction s as [|c s IH]; intros acc ok; simpl.
  - intros _ ->. eauto.
  - intros [-> Hs]%andb_true_iff _. apply IH; [done|]. apply orb_true_r.
Qed.

Lemma octal_mode_int mode : MODE_OCTAL_REGEX mode = true → is_Some (py_int8 mode).
Proof.
  unfold MODE_OCTAL_REGEX. intros [Ho Hl]%andb_true_iff. apply Nat.eqb_eq in Hl.
  assert (nonempty (dollar_chomp mode) = true) as Hn by (by destruct (dollar_chomp mode)).
  assert (str_forall (λ c, negb (is_space c)) (dollar_chomp mode) = true) as Hsp
    by (eapply str_forall_impl; [apply octal_not_space|done]).
  assert (strip mode = dollar_chomp mode) as Hs.
  { destruct (dollar_chomp_cases mode) as [H|H]; rewrite H at 1;
      [by apply strip_id|by apply strip_nl]. }
  unfold py_int8, int_base. rewrite Hs.
  destruct (dollar_chomp mode) as [|c t]; [done|].
  assert (is_octal c = true) as Hc by (cbn in Ho; by apply andb_true_iff in Ho as [? _]).
  pose proof (int_digits_octal (String c t) 0 false Ho eq_refl) as Hi.
  destruct c as [[] [] [] [] [] [] [] []]; try done.
Qed.

(** ** Lemmas on the builders *)

Lemma res_iter_require {A} (f : A → res unit) (l : list A) x :
  res_iter f l = Ok tt → x ∈ l → f x = Ok tt.
Proof. rewrite res_iter_Ok, Forall_forall. auto. Qed.

(** Splitting a chain of guards. *)
Ltac guards :=
  repeat match goal with
  | H : require ?b _ = Ok tt |- _ => apply require_Ok in H
  | H : mbind _ (require ?b _) = Ok _ |- _ =>
      let H' := fresh "Hg" in
      apply res_bind_Ok in H as ([] & H' & H); apply require_Ok in H'
  | H : mbind _ ?m = Ok _ |- _ =>
      let H' := fresh "Hg" in apply res_bind_Ok in H as (? & H' & H)
  | x : unit |- _ => destruct x
  | H : negb _ = true |- _ => apply negb_true_iff in H
  end.

Definition plain_name (v : string) : Prop :=
  has_char slash v = false ∧ v ≠ ".." ∧ has_char nul v = false ∧ has_char nl v = false.

Lemma require_no_path_metachars_ok v : require_no_path_metachars v = Ok tt → plain_name v.
Proof.
  unfold require_no_path_metachars. intros H. guards.
  match goal with H : _ || _ = false |- _ => apply orb_false_iff in H as [?%String.eqb_neq _] end.
  by split_and!.
Qed.

Definition plain_parent (v : string) : Prop :=
  startswith "/" v = true ∧ (".." ∉ split_char slash v) ∧ has_char nul v = false ∧
  has_char nl v = false.

Lemma mem_spec s l : mem s l = true ↔ s ∈ l.
Proof.
  unfold mem. rewrite existsb_exists, list_elem_of_In. split.
  - by intros (x & ? & ->%String.eqb_eq).
  - intros ?. exists s. by rewrite String.eqb_refl.
Qed.

Lemma require_absolute_parent_ok v : require_absolute_parent v = Ok tt → plain_parent v.
Proof.
  unfold require_absolute_parent. intros H. guards. split_and!; try done.
  rewrite <- mem_spec. by apply not_true_iff_false.
Qed.

(** The words of the hardened run: the flags are fixed, [parent] is one bind
    mount, and the script one argument, whatever they contain. *)
Definition hardened_flags : list string :=
  ["docker"; "run"; "--rm"; "--runtime=runc"; "--network=none"; "--read-only"; "--tmpfs"; "/tmp";
   "--user"; "0:0"; "--cap-drop"; "ALL"; "--cap-add"; "CHOWN"; "--cap-add"; "DAC_OVERRIDE";
   "--security-opt"; "no-new-privileges:true"].

Lemma lex_word w rest : str_forall shlex_safe w = true → nonempty w = true →
  sh_lex LBlank (w +:+ " " +:+ rest) = cons w <$> sh_lex LBlank rest.
Proof. intros Hw Hn. rewrite lex_blank_safe by done. apply lex_word_blank. Qed.

Lemma hardened_words img parent inner :
  sh_words (hardened_docker_run img parent inner) =
    Some (hardened_flags ++ ["-v"; parent +:+ ":/p"; img; "sh"; "-c"; inner])%list.
Proof.
  assert (hardened_docker_run img parent inner =
    shlex_join hardened_flags +:+ " " +:+ ("-v" +:+ " " +:+ shlex_quote parent +:+ ":/p" +:+ " " +:+
      shlex_quote img +:+ " " +:+ "sh" +:+ " " +:+ "-c" +:+ " " +:+ shlex_quote inner)) as ->
    by reflexivity.
  unfold sh_words. rewrite lex_join_app by done. rewrite lex_word, lex_quote by done.
  rewrite lex_safe, lex_word_blank, lex_quote, lex_word_blank, !lex_word by done.
  by rewrite <- (app_nil_r_str (shlex_quote inner)), lex_quote.
Qed.

Lemma words_quoted_names files : sh_words (quoted_names files) = Some files.
Proof. apply words_shlex_join. Qed.

Lemma op_of_value_spec s op : op_of_value s = Ok op ↔ s = op_value op.
Proof.
  split.
  - unfold op_of_value. destruct (List.find _ _) as [o|] eqn:E; [|done]. intros [= ->].
    by apply List.find_some in E as [_ ->%String.eqb_eq].
  - intros ->. by destruct op.
Qed.

Lemma busybox_pin : ∃ img, image "busybox_musl" = Ok img.
Proof. by eexists. Qed.

#[local] Opaque image.

(** The non-wire builders succeed on validated arguments. *)
Lemma validated_build op args : validate (OP_SPECS op) args = Ok tt →
  COMPOSE_VERB op = None → op ≠ FWD →
  ∃ inner, build (OP_SPECS op) args = Ok (bash_c inner).
Proof.
  intros Hv Hc Hf. destruct op; simpl in *; try done; try (by eexists).
  - destruct args as [|p [|]]; try done. simpl in Hv. guards.
    unfold mem in Hv. simpl in Hv. rewrite !orb_true_iff in Hv.
    unfold build_docker_info. simpl.
    destruct Hv as [->%String.eqb_eq|[->%String.eqb_eq|[=]]]; by eexists.
  - destruct args as [|p [|]]; try done. by eexists.
  - destruct args as [|parent [|mode [|uid [|gid [|f fs]]]]]; try done.
    cbn [validate_helper_chown_files] in Hv. guards.
    match goal with H : require_octal_mode _ = _ |- _ => unfold require_octal_mode in H end. guards.
    destruct (octal_mode_int mode) as [m Hm]; [done|].
    destruct busybox_pin as [img Himg].
    unfold build_helper_chown_files. rewrite Himg, Hm. by eexists.
  - destruct args as [|parent [|uid [|gid [|f fs]]]]; try done. by eexists.
Qed.

(** ** Properties *)

(** Wire forms read back exactly: parsing the expanded wire of a compose or
    forward operation returns the resolved project, files, addresses and the
    volumes flag, even if a value looks like a flag. *)
Theorem wire_roundtrip (op : Op) (inst p env ip : string) (fs : list string) (vol : bool)
    (Hfs : fs ≠ []) (Hvol : vol = true → op = COMPOSE_DOWN) :
  parse_compose_wire op (compose_wire inst p env fs vol) = Ok (p, env, fs, vol) ∧
  parse_fwd_wire (fwd_wire inst p ip) = Ok (p, ip).
Proof. split; [by apply parse_compose_wire_ok|apply parse_fwd_wire_ok]. Qed.

(** Validation is complete for the builders: arguments that pass are within
    the declared arity, and every operation that takes no wire form builds a
    [bash -c] command from them without an error. *)
Theorem validated_args_build (op : Op) (args : list string)
    (Hv : validate_args (op_value op) args = Ok tt) :
  min_args (OP_SPECS op) <= List.length args ∧
  (∀ m, max_args (OP_SPECS op) = Some m → List.length args <= m) ∧
  (COMPOSE_VERB op = None → op ≠ FWD →
   ∃ inner, build_target_argv (op_value op) args = Ok (bash_c inner)).
Proof.
  assert (op_of_value (op_value op) = Ok op) as Hop by (by apply op_of_value_spec).
  unfold validate_args in Hv. rewrite Hop in Hv. simpl in Hv.
  split_and!.
  - destruct op; simpl in *; destruct args as [|? [|? [|? [|? [|? ?]]]]]; simpl in *; done || lia.
  - intros m Hm. destruct op; simplify_eq/=;
      destruct args as [|? [|? [|? ?]]]; simpl in *; done || lia.
  - intros Hc Hf. unfold build_target_argv. rewrite Hop. by apply validated_build.
Qed.

(** C3: The helper container cannot be talked into anything else: for validated
    arguments the built command is, as the shell reads it, exactly the hardened
    [docker run] with the fixed flags, the parent (absolute, without [..]) as
    its only mount, the pinned image and one script; and in the script the
    names are read back as the list given, none with a slash, [..], NUL or
    newline. *)
Theorem helper_command_safe (parent mode uid gid : string) (names : list string) :
  (validate_args "helper-chown-files" (parent :: mode :: uid :: gid :: names) = Ok tt →
   ∃ img m cmd, image "busybox_musl" = Ok img ∧ py_int8 mode = Some m ∧
     build_target_argv "helper-chown-files" (parent :: mode :: uid :: gid :: names) =
       Ok (bash_c cmd) ∧
     sh_words cmd = Some (hardened_flags ++ ["-v"; parent +:+ ":/p"; pinned img; "sh"; "-c";
       chown_files_inner (fmt_04o m) uid gid names])%list ∧
     plain_parent parent ∧ Forall plain_name names ∧
     sh_words (quoted_names names) = Some names) ∧
  (validate_args "helper-mkdir-chown-dirs" (parent :: uid :: gid :: names) = Ok tt →
   ∃ img cmd, image "busybox_musl" = Ok img ∧
     build_target_argv "helper-mkdir-chown-dirs" (parent :: uid :: gid :: names) =
       Ok (bash_c cmd) ∧
     sh_words cmd = Some (hardened_flags ++ ["-v"; parent +:+ ":/p"; pinned img; "sh"; "-c";
       mkdir_chown_inner uid gid names])%list ∧
     plain_parent parent ∧ Forall plain_name names ∧
     sh_words (quoted_names names) = Some names).
Proof.
  destruct busybox_pin as [img Himg]. split; intros Hv.
  - unfold validate_args in Hv. simpl in Hv. destruct names as [|f fs]; [done|].
    cbn [validate_helper_chown_files] in Hv. guards.
    match goal with H : require_octal_mode _ = _ |- _ => unfold require_octal_mode in H end. guards.
    destruct (octal_mode_int mode) as [m Hm]; [done|].
    exists img, m. eexists. unfold build_target_argv, build_helper_chown_files; simpl.
    rewrite Himg, Hm. cbn [mbind res_bind].
    split_and!; try done; [apply hardened_words|by apply require_absolute_parent_ok| |
      apply words_quoted_names].
    rewrite res_iter_Ok in Hv. eapply Forall_impl; [exact Hv|].
    apply require_no_path_metachars_ok.
  - unfold validate_args in Hv. simpl in Hv. destruct names as [|f fs]; [done|].
    cbn [validate_helper_mkdir_chown_dirs] in Hv. guards.
    exists img. eexists. unfold build_target_argv, build_helper_mkdir_chown_dirs; simpl.
    rewrite Himg. cbn [mbind res_bind].
    split_and!; try done; [apply hardened_words|by apply require_absolute_parent_ok| |
      apply words_quoted_names].
    rewrite res_iter_Ok in Hv. eapply Forall_impl; [exact Hv|].
    apply require_no_path_metachars_ok.
Qed.

(** The crossed payload is unambiguous: as the shell reads it, it is the
    dispatcher binary, the operation and exactly the wire arguments, whatever
    characters they contain (empty strings, quotes, blanks and newlines
    included). *)
Theorem dispatch_payload_words (op : Op) (wire : list string) :
  sh_words (dispatch_payload (op_value op) wire) =
    Some (DISPATCH_BINARY :: op_value op :: wire).
Proof. rewrite dispatch_payload_alt. apply words_shlex_join. Qed.

(** C15: What crosses the boundary.  An argv is built only for a framed
    operation whose arguments were validated.  In operator-rootless mode it is
    the operation's own target argv, with no crossing; in separate-user mode it
    is the privileged pipe as the daemon's owner running one [bash -c] payload
    that reads back as the dispatcher, the operation and the wire.  The wire is
    the arguments themselves or, for a compose operation, reads back as the
    state resolved for the registered instance. *)
Theorem build_invocation_spec (h : host_env) (e : dispatch_env) (op : string)
    (args : list string) (cfg : HostConfig) (argv : list string)
    (Hb : build_invocation h e op args cfg = Ok argv) :
  ∃ resolved wire, op = op_value resolved ∧ resolved ≠ FWD ∧
    validate (OP_SPECS resolved) args = Ok tt ∧
    match COMPOSE_VERB resolved with
    | None => wire = args
    | Some _ => ∃ inst p env fs,
        head args = Some inst ∧ resolve_compose_state e inst = Ok (p, fs, env) ∧
        parse_compose_wire resolved wire =
          Ok (p, env, fs, bool_decide (resolved = COMPOSE_DOWN) && (List.length args =? 2))
    end ∧
    (if is_operator_rootless cfg then build (OP_SPECS resolved) wire = Ok argv
     else ∃ user payload, resolve_daemon_owner_settings h (host cfg) = Ok user ∧
          argv = (sudo_pipe_cmd user ++ ["/bin/bash"; "-c"; payload])%list ∧
          sh_words payload = Some (DISPATCH_BINARY :: op :: wire)).
Proof.
  unfold build_invocation in Hb. guards.
  match goal with H : op_of_value op = Ok ?o |- _ => apply op_of_value_spec in H as ->; rename o into r end.
  unfold require_framed_op in *. guards.
  match goal with H : validate_args _ _ = _ |- _ => unfold validate_args in H;
    rewrite (proj2 (op_of_value_spec _ r)) in H by done; simpl in H; rename H into Hval end.
  exists r. assert (r ≠ FWD) as Hr by (by destruct r).
  assert (Hcross : ∀ wire, crossing_argv h (op_value r) wire cfg = Ok argv →
    if is_operator_rootless cfg then build (OP_SPECS r) wire = Ok argv
    else ∃ user payload, resolve_daemon_owner_settings h (host cfg) = Ok user ∧
         argv = (sudo_pipe_cmd user ++ ["/bin/bash"; "-c"; payload])%list ∧
         sh_words payload = Some (DISPATCH_BINARY :: op_value r :: wire)).
  { intros wire Hc. unfold crossing_argv, build_target_argv in Hc.
    rewrite (proj2 (op_of_value_spec _ r)) in Hc by done.
    destruct (is_operator_rootless cfg); [exact Hc|]. guards.
    match goal with H : resolve_daemon_owner_settings _ _ = Ok ?u |- _ =>
      exists u, (dispatch_payload (op_value r) wire) end.
    split_and!; [done|by injection Hc as <-|].
    rewrite dispatch_payload_alt. apply words_shlex_join. }
  destruct (COMPOSE_VERB r) as [verb|] eqn:Ev.
  - match goal with H : _ = Ok ?w |- _ => rename w into wire;
      rewrite bool_decide_true in H by eauto; rename H into Hw end.
    unfold expand_compose_wire in Hw. destruct args as [|inst rest]; [done|].
    apply res_bind_Ok in Hw as ([[p fs] env] & Hst & Hw). injection Hw as <-.
    eexists. split_and!; [done|done|exact Hval| |by apply Hcross].
    exists inst, p, env, fs. split_and!; [done|done|].
    rewrite parse_compose_wire_ok; [|..].
    + destruct rest as [|? [|]]; done.
    + unfold resolve_compose_state in Hst. destruct (registry_get _ _); [|done]. guards.
      destruct x as [? ?]. guards. by injection Hst as _ <- _.
    + intros [H _]%andb_true_iff. by apply bool_decide_eq_true in H.
  - match goal with H : _ = Ok ?w |- _ => rename w into wire;
      rewrite bool_decide_false in H by (by intros [? ?]); injection H as <- end.
    exists args. split_and!; [done..|by apply Hcross].
Qed.

(** The two entry points are disjoint: no operation can both be captured and
    be streamed.  The streaming operation is refused by the framed path and a
    framed one by the streaming path, before the arguments are looked at. *)
Theorem streaming_separation (h : host_env) (e : dispatch_env) (op : Op) (args : list string)
    (cfg : HostConfig) :
  if is_streaming_op op
  then build_invocation h e (op_value op) args cfg = Err StreamingOpError
  else proxy_argv h e (op_value op) args cfg = Err StreamingOpError.
Proof.
  unfold build_invocation, proxy_argv.
  rewrite (proj2 (op_of_value_spec _ op)) by done.
  by destruct op.
Qed.

(** A name as the rules spell it. *)
Definition instance_name_ok (v : string) : Prop :=
  (∃ c r, v = String c r ∧ name_start c = true ∧ str_forall name_rest r = true) ∧
  str_len v <= INSTANCE_NAME_MAX ∧ (v ∉ RESERVED_INSTANCE_NAMES).

Lemma name_start_not_dash c : name_start c = true →
  Ascii.eqb "-" c = false ∧ Ascii.eqb "_" c = false.
Proof. intros H. split; apply Ascii.eqb_neq; intros <-; by vm_compute in H. Qed.

(** For a text without a newline the instance-name check accepts exactly the
    names of the rules.  With a final newline it also accepts what follows no
    rule: [re.match] with [$] does not see that newline, so a name with one
    passes, a reserved name included, and so does such a mode; and [isdigit]
    accepts a superscript digit as a uid. *)
Theorem instance_name_check (v : string) :
  (has_char nl v = false → require_instance_name v = Ok tt ↔ instance_name_ok v) ∧
  require_instance_name ("default" +:+ NL) = Ok tt ∧
  require_octal_mode ("0644" +:+ NL) = Ok tt ∧
  require_nonneg_int (ch (ascii_of_N 178)) = Ok tt.
Proof.
  split; [|by split_and!; vm_compute]. intros Hnl.
  assert (INSTANCE_NAME_REGEX v = true ↔
    ∃ c r, v = String c r ∧ name_start c = true ∧ str_forall name_rest r = true) as Hre.
  { unfold INSTANCE_NAME_REGEX. rewrite dollar_chomp_id by done.
    destruct v as [|c r]; [naive_solver|]. rewrite andb_true_iff. naive_solver. }
  unfold require_instance_name, instance_name_ok. rewrite <- Hre. split.
  - intros H. guards. split_and!; [done|by apply Nat.leb_le|].
    rewrite <- mem_spec. by apply not_true_iff_false.
  - intros (Hr & Hl & Hres). rewrite Hr. apply Hre in Hr as (c & r & -> & Hc & _).
    apply Nat.leb_le in Hl. rewrite Hl. destruct (name_start_not_dash c Hc) as [H1 H2].
    cbn [nonempty startswith require mbind res_bind]. rewrite H1, H2.
    rewrite <- mem_spec in Hres. apply not_true_iff_false in Hres.
    cbn [andb orb negb require mbind res_bind]. by rewrite Hres.
Qed.

(** ** Witnesses *)

Definition demo_env : dispatch_env := MkDispatchEnv
  (JDoc (JObj {[ "web" := JObj {[ "instance_dir" := JStr "/i/my web";
                                  "created_at" := JStr "t" ]} ]}))
  (Ledger {[ "web" := 3%Z ]}) "Ann" (λ _, Ok (true, false)).

Definition demo_cfg : HostConfig :=
  MkHostConfig (MkHostSettings (Some "sandbox") SEPARATE_USER "sb-ws").

Lemma wire_roundtrip_witness :
  parse_compose_wire COMPOSE_DOWN (compose_wire "i" "--volumes" "--env-file" ["--project"] true)
    = Ok ("--volumes", "--env-file", ["--project"], true).
Proof.
  apply (wire_roundtrip COMPOSE_DOWN "i" "--volumes" "--env-file" "ip" ["--project"] true);
    [discriminate|reflexivity].
Defined.

Lemma validated_args_build_witness :
  ∃ inner, build_target_argv "helper-mkdir-chown-dirs" ["/a/b"; "0"; "1000"; "x y"] =
    Ok (bash_c inner).
Proof.
  apply (validated_args_build HELPER_MKDIR_CHOWN_DIRS ["/a/b"; "0"; "1000"; "x y"]);
    [vm_compute; reflexivity|reflexivity|discriminate].
Defined.

Lemma helper_command_safe_witness :
  ∃ cmd, build_target_argv "helper-chown-files"
      ["/a/b"; "0644"; "1000"; "7"; "it's; reboot"; "-rf"] = Ok (bash_c cmd) ∧
    Forall plain_name ["it's; reboot"; "-rf"].
Proof.
  destruct (proj1 (helper_command_safe "/a/b" "0644" "1000" "7" ["it's; reboot"; "-rf"])
    ltac:(vm_compute; reflexivity)) as (img & m & cmd & _ & _ & Hcmd & _ & _ & Hn & _).
  exists cmd. split; [exact Hcmd|exact Hn].
Defined.

Lemma build_invocation_spec_witness :
  ∃ payload, build_invocation demo_host demo_env "compose-up" ["web"] demo_cfg =
      Ok (sudo_pipe_cmd "sandbox" ++ ["/bin/bash"; "-c"; payload])%list ∧
    sh_words payload = Some [DISPATCH_BINARY; "compose-up"; "web"; "--project"; "ann-web";
      "--env-file"; "/i/my web/.sandbox.env"; "--compose-file"; "/i/my web/docker/compose.yml";
      "--compose-file"; "/i/my web/docker/extras/db-postgres.yml"].
Proof.
  destruct (build_invocation demo_host demo_env "compose-up" ["web"] demo_cfg) as [argv|] eqn:E.
  2:{ vm_compute in E. discriminate. }
  destruct (build_invocation_spec demo_host demo_env "compose-up" ["web"] demo_cfg argv E)
    as (r & wire & _ & _ & _ & _ & user & payload & _ & _ & _).
  vm_compute in E. injection E as <-. eexists. split; [reflexivity|]. vm_compute. reflexivity.
Defined.
