(* ===== verification/HelperRecipe.v ===== *)
(** * core.dispatch: the scripts of the helper container, as the shell runs them

    [chown_files_inner] and [mkdir_chown_inner] of [Dispatch] build the text of
    a script; here is the script as a tree, the proof that the text is its
    printing, and its execution by a POSIX shell under [set -e], where a
    failing command of an [&&] list ends the script only when it is the last of
    the list.  The commands themselves are a parameter, [exec]. *)
From S2P Require Import Prelude PyStr Images ShellWords Dispatch.
From Stdlib Require Import Ascii String.
Open Scope Z_scope.

(** ** Scripts *)

(** A word is literal text and the quoted loop variable. *)
Inductive piece := Lit (s : string) | Var.
Definition word : Type := list piece.

(** [set -e; for v in names; do body; done], the body an [&&] list. *)
Record script := MkScript { sc_var : string; sc_names : list string; sc_body : list (list word) }.

Definition print_piece (v : string) (p : piece) : string :=
  match p with Lit s => s | Var => DQ +:+ "$" +:+ v +:+ DQ end.
Definition print_word (v : string) (w : word) : string := join "" (map (print_piece v) w).
Definition print_command (v : string) (c : list word) : string := join " " (map (print_word v) c).
Definition print_script (s : script) : string :=
  "set -e; for " +:+ sc_var s +:+ " in " +:+ quoted_names (sc_names s) +:+ "; do " +:+
  join " && " (map (print_command (sc_var s)) (sc_body s)) +:+ "; done".

Definition at_p : word := [Lit "/p/"; Var].
Definition at_tmp : word := [Lit "/tmp/"; Var].

Definition chown_files_script (mode_octal uid gid : string) (files : list string) : script :=
  MkScript "f" files
    [[[Lit "cp"]; at_p; at_tmp];
     [[Lit "unlink"]; at_p];
     [[Lit "cp"]; at_tmp; at_p];
     [[Lit "chmod"]; [Lit mode_octal]; at_p];
     [[Lit "chown"]; [Lit uid; Lit ":"; Lit gid]; at_p]].

Definition mkdir_chown_script (uid gid : string) (leaves : list string) : script :=
  MkScript "d" leaves
    [[[Lit "mkdir"]; [Lit "-p"]; at_p];
     [[Lit "chown"]; [Lit uid; Lit ":"; Lit gid]; at_p]].

(** ** Execution *)

Section run.
Context {W : Type} (exec : list string → W → Z * W).

Definition expand_word (value : string) (w : word) : string :=
  join "" (map (λ p, match p with Lit s => s | Var => value end) w).
Definition expand (value : string) (c : list word) : list string := map (expand_word value) c.

(** An [&&] list: its status, and whether its last command gave it. *)
Fixpoint run_and (value : string) (cmds : list (list word)) (w : W) : Z * bool * W :=
  match cmds with
  | [] => (0, true, w)
  | [c] => let '(st, w) := exec (expand value c) w in (st, true, w)
  | c :: rest =>
      let '(st, w) := exec (expand value c) w in
      if st =? 0 then run_and value rest w else (st, false, w)
  end.

(** The loop, under [set -e]. *)
Fixpoint run_for (names : list string) (body : list (list word)) (status : Z) (w : W) : Z * W :=
  match names with
  | [] => (status, w)
  | f :: fs =>
      let '(st, by_last, w) := run_and f body w in
      if negb (st =? 0) && by_last then (st, w) else run_for fs body st w
  end.

Definition run_script (s : script) (w : W) : Z * W := run_for (sc_names s) (sc_body s) 0 w.

(** Every command of the list succeeds for the value. *)
Fixpoint all_succeed (value : string) (cmds : list (list word)) (w : W) : option W :=
  match cmds with
  | [] => Some w
  | c :: rest => let '(st, w) := exec (expand value c) w in
      if st =? 0 then all_succeed value rest w else None
  end.

Lemma run_and_spec value cmds w :
  match all_succeed value cmds w with
  | Some w' => run_and value cmds w = (0, true, w')
  | None => ∃ st by_last w', run_and value cmds w = (st, by_last, w') ∧ st ≠ 0
  end.
Proof.
  revert w; induction cmds as [|c cmds IH]; intros w; [done|]. cbn [all_succeed run_and].
  destruct (exec (expand value c) w) as [st w'] eqn:E.
  destruct (Z.eqb_spec st 0) as [->|Hst].
  - destruct cmds; [done|apply IH].
  - destruct cmds; by do 3 eexists.
Qed.

(** How a script ends: at the first name whose last command failed, or after
    the last name. *)
Inductive ends (body : list (list word)) : list string → Z → W → Z → W → Prop :=
  | ends_done status w : ends body [] status w status w
  | ends_stop f fs status w st w' : run_and f body w = (st, true, w') → st ≠ 0 →
      ends body (f :: fs) status w st w'
  | ends_next f fs status w st by_last w1 st' w' : run_and f body w = (st, by_last, w1) →
      (st = 0 ∨ by_last = false) → ends body fs st w1 st' w' → ends body (f :: fs) status w st' w'.

Lemma run_for_ends body names status w :
  ends body names status w (run_for names body status w).1 (run_for names body status w).2.
Proof.
  revert status w; induction names as [|f fs IH]; intros status w; cbn [run_for]; [constructor|].
  destruct (run_and f body w) as [[st by_last] w1] eqn:E.
  destruct (Z.eqb_spec st 0) as [->|Hst]; cbn [negb andb].
  - eapply ends_next; [done|by left|apply IH].
  - destruct by_last; [by eapply ends_stop|eapply ends_next; [done|by right|apply IH]].
Qed.
End run.

(** Every name succeeds, one after the other. *)
Fixpoint all_names {W} (exec : list string → W → Z * W) (body : list (list word))
    (names : list string) (w : W) : option W :=
  match names with
  | [] => Some w
  | f :: fs => w ← all_succeed exec f body w; all_names exec body fs w
  end.

Lemma run_for_all {W} (exec : list string → W → Z * W) body names status w w' :
  (names = [] → status = 0) → all_names exec body names w = Some w' →
  run_for exec names body status w = (0, w').
Proof.
  revert status w; induction names as [|f fs IH]; intros status w Hs; cbn [all_names run_for].
  { intros [= <-]. by rewrite Hs. }
  intros (w1 & Hw1 & Hfs)%bind_Some. pose proof (run_and_spec exec f body w) as H.
  rewrite Hw1 in H. rewrite H. cbn [negb andb Z.eqb]. by apply IH.
Qed.

Lemma run_for_status {W} (exec : list string → W → Z * W) body f fs status w :
  run_for exec (f :: fs) body status w = run_for exec (f :: fs) body 0 w.
Proof. done. Qed.

(** ** Properties *)

(** C12: What the exit status of a helper script means.  The text the dispatcher
    builds is the script.  When every command succeeds for every name the
    status is 0.  A name that is not the last and fails at its [cp], its
    [unlink], its second [cp] or its [chmod] is not reported: the script goes on
    with the other names, and its status and its effects are those of a run on
    them alone.  Only a failing [chown], and any failure at the last name, is
    reported. *)
Theorem helper_status_exact {W} (exec : list string → W → Z * W) mode uid gid names w :
  let s := chown_files_script mode uid gid in
  let body := sc_body (s names) in
  print_script (s names) = chown_files_inner mode uid gid names ∧
  (∀ w', all_names exec body names w = Some w' → run_script exec (s names) w = (0, w')) ∧
  ∀ f fs st by_last w', names = f :: fs → run_and exec f body w = (st, by_last, w') →
    (by_last = false → fs ≠ [] → run_script exec (s names) w = run_script exec (s fs) w') ∧
    (st ≠ 0 → by_last = true ∨ fs = [] → run_script exec (s names) w = (st, w')).
Proof.
  intros s body. split_and!.
  - unfold print_script, s, chown_files_inner, quoted_names.
    do 6 (cbn; rewrite ?app_assoc_str, ?app_nil_r_str). done.
  - intros w' Hw. by apply run_for_all.
  - intros f fs st by_last w' -> Hf. unfold run_script, s. cbn [sc_names chown_files_script run_for].
    fold body. change (sc_body (chown_files_script mode uid gid _)) with body. rewrite Hf. split.
    + intros -> Hfs. rewrite andb_false_r. by destruct fs.
    + intros Hst Hor. apply Z.eqb_neq in Hst. rewrite Hst. cbn [negb andb].
      destruct Hor as [->| ->]; [done|]. by destruct by_last.
Qed.

(** A directory of files, a scratch directory, and commands that fail when the
    file they read is absent. *)
Definition demo_exec (argv : list string) (w : gset string * gset string)
    : Z * (gset string * gset string) :=
  match argv with
  | ["cp"; a; b] =>
      if bool_decide (startswith "/p/" a) then
        if bool_decide (sdrop 3 a ∈ w.1) then (0, (w.1, {[sdrop 5 b]} ∪ w.2)) else (1, w)
      else if bool_decide (sdrop 5 a ∈ w.2) then (0, ({[sdrop 3 b]} ∪ w.1, w.2)) else (1, w)
  | ["unlink"; a] => if bool_decide (sdrop 3 a ∈ w.1) then (0, (w.1 ∖ {[sdrop 3 a]}, w.2)) else (1, w)
  | "chmod" :: _ :: a :: [] | "chown" :: _ :: a :: [] =>
      if bool_decide (sdrop 3 a ∈ w.1) then (0, w) else (1, w)
  | _ => (127, w)
  end.

(** The secrets of an instance that was stopped: the script reports success
    although the first file is not there. *)
Lemma helper_status_exact_witness :
  let names := ["authorized_keys"; "ipc_host_key"] in
  let w : gset string * gset string := ({["ipc_host_key"; "ipc_ssh_key"]}, ∅) in
  let r := run_script demo_exec (chown_files_script "0600" "999" "999" names) w in
  r.1 = 0 ∧ "authorized_keys" ∉ r.2.1 ∧
  r = run_script demo_exec (chown_files_script "0600" "999" "999" ["ipc_host_key"]) w.
Proof.
  intros names w r. split_and!; [by vm_compute|apply (bool_decide_unpack _); by vm_compute|].
  destruct (helper_status_exact demo_exec "0600" "999" "999" names w) as (_ & _ & H).
  apply (H "authorized_keys" ["ipc_host_key"] 1 false w); [done|by vm_compute|done|done].
Defined.
