(* ===== verification/Preflight.v ===== *)
(** * core.dispatch: the preflight bundle's parser

    One crossing runs five queries; the parser attributes output and exit
    status to each by markers that carry the crossing's nonce. *)
From S2P Require Import Prelude PyStr Executor Dispatch.
From Stdlib Require Import Ascii String.
Open Scope nat_scope.

Record ProbeOutcome := MkProbe {
  ok : bool;
  timed_out : bool;
  stdout : string;
  message : string;
  preflight_nonce : option string
}.

(** A not-ok outcome without output. *)
Definition failed_query (outcome : ProbeOutcome) (msg : string) : ProbeOutcome :=
  MkProbe false (timed_out outcome) "" msg None.

(** [s.split("__", 1)[0]] *)
Definition before_underscores (s : string) : string :=
  match find "__" s with Some n => stake n s | None => s end.

Definition q_marker (nonce name : string) : string :=
  PREFLIGHT_QUERY_MARKER_PREFIX +:+ nonce +:+ "_" +:+ name +:+ "__".
Definition rc_prefix (nonce name : string) : string :=
  PREFLIGHT_RC_MARKER_PREFIX +:+ nonce +:+ "_" +:+ name +:+ "_".

(** The body of the loop for one query: its outcome and the next cursor. *)
Definition parse_query (outcome : ProbeOutcome) (nonce name : string) (cursor : nat)
    : ProbeOutcome * nat :=
  let text := stdout outcome in
  let q := q_marker nonce name in
  let rc_p := rc_prefix nonce name in
  if (1 <? count q text) || (1 <? count rc_p text) then
    (failed_query outcome ("preflight query " +:+ py_repr name +:+
       " marker appears more than once (ambiguous)"), cursor)
  else
    match find_from q text cursor with
    | None => (failed_query outcome ("preflight query " +:+ py_repr name +:+
                 " segment missing from bundle"), cursor)
    | Some q_idx =>
        match find_from rc_p text (q_idx + str_len q) with
        | None => (failed_query outcome ("preflight query " +:+ py_repr name +:+
                     " segment missing from bundle"), cursor)
        | Some rc_idx =>
            let segment := strip (slice (q_idx + str_len q) rc_idx text) in
            let rc_token := strip (before_underscores (sdrop (rc_idx + str_len rc_p) text)) in
            match py_int rc_token with
            | None => (failed_query outcome ("preflight query " +:+ py_repr name +:+
                         " exit code unparseable (" +:+ py_repr rc_token +:+ ")"), cursor)
            | Some rc =>
                let ok := (rc =? 0)%Z in
                (MkProbe ok (timed_out outcome) (if ok then segment else "")
                   (if ok then "" else "preflight query " +:+ py_repr name +:+ " exited " +:+
                      str_of_Z rc +:+ ": " +:+ segment) None,
                 rc_idx + str_len rc_p)
            end
        end
    end.

Fixpoint parse_queries (outcome : ProbeOutcome) (nonce : string) (names : list string)
    (cursor : nat) : list (string * ProbeOutcome) :=
  match names with
  | [] => []
  | name :: names =>
      let '(o, cursor) := parse_query outcome nonce name cursor in
      (name, o) :: parse_queries outcome nonce names cursor
  end.

Definition preflight_names : list string := map fst preflight_query_segments.

Definition parse_preflight_outcome (outcome : ProbeOutcome) : list (string * ProbeOutcome) :=
  match preflight_nonce outcome with
  | Some (String _ _ as nonce) => parse_queries outcome nonce preflight_names 0
  | _ => map (λ name, (name, failed_query outcome ("preflight query " +:+ py_repr name +:+
           " unverifiable: preflight nonce absent"))) preflight_names
  end.

Lemma preflight_names_nodup : NoDup preflight_names.
Proof.
  refine (bool_decide_eq_true_1 (NoDup preflight_names) _). vm_compute. reflexivity.
Qed.

(** ** What the bundle prints

    Each query's marker line, its output (whole lines), and its status line. *)
Definition bundle_part (nonce name body : string) (rc : Z) : string :=
  q_marker nonce name +:+ NL +:+ body +:+ rc_prefix nonce name +:+ str_of_Z rc +:+ "__" +:+ NL.

Fixpoint bundle (nonce : string) (parts : list (string * string * Z)) : string :=
  match parts with
  | [] => ""
  | (name, body, rc) :: parts => bundle_part nonce name body rc +:+ bundle nonce parts
  end.

(** ** Occurrences *)

(** The number of positions where [sub] occurs, overlapping ones included. *)
Fixpoint occs (sub s : string) : nat :=
  match s with
  | "" => if startswith sub "" then 1 else 0
  | String _ s' => (if startswith sub s then 1 else 0) + occs sub s'
  end.

Lemma count_skip_occs sub k s : count_skip sub k s <= occs sub s.
Proof.
  revert k; induction s as [|c s IH]; intros k; cbn [count_skip occs].
  - destruct sub; simpl; lia.
  - destruct k as [|k]; [|specialize (IH k); lia].
    destruct (startswith sub (String c s)); [specialize (IH (str_len sub - 1))|specialize (IH 0)]; lia.
Qed.

Lemma occs_app_r sub s t : occs sub t <= occs sub (s +:+ t).
Proof. induction s as [|c s IH]; simpl; [done|]. lia. Qed.

Lemma occs_not_contains sub s : contains sub s = false → sub ≠ "" → occs sub s = 0.
Proof.
  unfold contains. induction s as [|c s IH]; intros H Hn; cbn [occs find] in *.
  - by destruct sub.
  - destruct (startswith sub (String c s)); [done|].
    destruct (find sub s); [done|]. simpl. by apply IH.
Qed.

(** A text without newlines occurs line by line. *)
Lemma occs_line sub s t : has_char nl sub = false → sub ≠ "" →
  occs sub (s +:+ String nl t) = occs sub s + occs sub t.
Proof.
  intros Hnl Hn. induction s as [|c s IH].
  - cbn [append occs]. change (String nl t) with ("" +:+ String nl t).
    rewrite startswith_line by done. by destruct sub.
  - cbn [append occs]. change (String c (s +:+ String nl t)) with (String c s +:+ String nl t).
    rewrite startswith_line by done. rewrite IH. lia.
Qed.

(** Of a single occurrence, the search finds that one. *)
Lemma find_unique sub a b : occs sub (a +:+ sub +:+ b) <= 1 →
  find sub (a +:+ sub +:+ b) = Some (str_len a).
Proof.
  induction a as [|c a IH]; cbn [append].
  - intros _. pose proof (startswith_app sub b).
    destruct (sub +:+ b) eqn:E; simpl; by rewrite H.
  - cbn [occs find]. intros Ho.
    assert (1 <= occs sub (a +:+ sub +:+ b)) as Hpos.
    { etransitivity; [|apply occs_app_r]. pose proof (startswith_app sub b) as Hs.
      destruct (sub +:+ b); cbn [occs]; rewrite Hs; lia. }
    destruct (startswith sub (String c (a +:+ sub +:+ b))); [lia|].
    rewrite IH by lia. done.
Qed.

Lemma find_from_app sub a s : find_from sub (a +:+ s) (str_len a) =
  (λ n, str_len a + n) <$> find sub s.
Proof.
  unfold find_from. rewrite sdrop_app. done.
Qed.

Lemma startswith_common p a b : startswith (p +:+ a) (p +:+ b) = startswith a b.
Proof. induction p as [|c p IH]; [done|]. simpl. by rewrite Ascii.eqb_refl. Qed.

Lemma startswith_sep c s s' t t' : has_char c s = false → has_char c s' = false →
  startswith (s +:+ String c t) (s' +:+ String c t') = true → s = s'.
Proof.
  intros Hs Hs' (u & Hu)%startswith_spec. rewrite app_assoc_str in Hu. cbn [append] in Hu.
  by destruct (app_sep_inj c s' s t' (t +:+ u) Hs' Hs Hu).
Qed.

Lemma occs_no_char c sub s : has_char c sub = true → has_char c s = false → occs sub s = 0.
Proof.
  intros Hsub Hs. apply occs_not_contains; [|by destruct sub].
  apply not_true_iff_false. intros (t & u & ->)%contains_spec.
  rewrite !has_char_app, Hsub, orb_true_r in Hs. done.
Qed.

(** A marker has its only [P] in third place. *)
Lemma occs_marker sub t : has_char "P" t = false →
  occs ("__P" +:+ sub) ("__P" +:+ t) = if startswith sub t then 1 else 0.
Proof.
  intros Ht. cbn [append occs]. rewrite (occs_no_char "P" _ t) by done.
  simpl. destruct (startswith sub t); lia.
Qed.

Section markers.
Context (nonce : string) (Htok : token_ok nonce).

(** The names that the markers tell apart. *)
Definition query_name (name : string) : Prop :=
  has_char "_" name = false ∧ has_char "P" name = false ∧ has_char nl name = false.

Lemma nonce_no_char c : is_hex c = false → has_char c nonce = false.
Proof.
  intros Hc. destruct Htok as [Hh _]. apply (str_forall_not_exists is_hex); [|done].
  intros a Ha. apply Ascii.eqb_neq. congruence.
Qed.

Lemma q_marker_nl name : query_name name → has_char nl (q_marker nonce name) = false.
Proof.
  intros (_ & _ & H). unfold q_marker.
  rewrite !has_char_app, (nonce_no_char nl), H by done. done.
Qed.
Lemma rc_prefix_nl name : query_name name → has_char nl (rc_prefix nonce name) = false.
Proof.
  intros (_ & _ & H). unfold rc_prefix.
  rewrite !has_char_app, (nonce_no_char nl), H by done. done.
Qed.

Definition rc_line (name : string) (rc : Z) : string :=
  rc_prefix nonce name +:+ str_of_Z rc +:+ "__".

Lemma marker_rest_no_P x name y : has_char "P" x = false → query_name name →
  has_char "P" y = false → has_char "P" (x +:+ nonce +:+ "_" +:+ name +:+ y) = false.
Proof.
  intros Hx (_ & H & _) Hy. rewrite !has_char_app, (nonce_no_char "P"), H, Hx, Hy by done. done.
Qed.

Lemma occs_q_q name name' : query_name name → query_name name' →
  occs (q_marker nonce name) (q_marker nonce name') <= if decide (name = name') then 1 else 0.
Proof.
  intros H H'.
  change (q_marker nonce name') with ("__P" +:+ "REFLIGHT_Q_" +:+ nonce +:+ "_" +:+ name' +:+ "__").
  change (q_marker nonce name) with ("__P" +:+ "REFLIGHT_Q_" +:+ nonce +:+ "_" +:+ name +:+ "__").
  rewrite occs_marker by (by apply marker_rest_no_P).
  destruct (startswith _ _) eqn:E; [|lia]. rewrite !startswith_common in E.
  rewrite decide_True; [done|]. destruct H as [H _], H' as [H' _]. by eapply startswith_sep.
Qed.

Lemma rc_line_no_P name rc : query_name name → (0 <= rc)%Z →
  has_char "P" ("REFLIGHT_RC_" +:+ nonce +:+ "_" +:+ name +:+ "_" +:+ str_of_Z rc +:+ "__") = false.
Proof.
  intros H Hrc. apply marker_rest_no_P; [done|done|].
  rewrite !has_char_app, str_of_Z_no_char by done. done.
Qed.

Lemma rc_line_eq name rc : rc_line name rc =
  "__P" +:+ "REFLIGHT_RC_" +:+ nonce +:+ "_" +:+ name +:+ "_" +:+ str_of_Z rc +:+ "__".
Proof. unfold rc_line, rc_prefix. by rewrite !app_assoc_str. Qed.

Lemma occs_q_rc name name' rc : query_name name' → (0 <= rc)%Z →
  occs (q_marker nonce name) (rc_line name' rc) = 0.
Proof.
  intros H Hrc. rewrite rc_line_eq.
  change (q_marker nonce name) with ("__P" +:+ "REFLIGHT_Q_" +:+ nonce +:+ "_" +:+ name +:+ "__").
  rewrite occs_marker by (by apply rc_line_no_P). done.
Qed.

Lemma occs_rc_q name name' : query_name name' → occs (rc_prefix nonce name) (q_marker nonce name') = 0.
Proof.
  intros H.
  change (q_marker nonce name') with ("__P" +:+ "REFLIGHT_Q_" +:+ nonce +:+ "_" +:+ name' +:+ "__").
  change (rc_prefix nonce name) with ("__P" +:+ "REFLIGHT_RC_" +:+ nonce +:+ "_" +:+ name +:+ "_").
  rewrite occs_marker by (by apply marker_rest_no_P). done.
Qed.

Lemma occs_rc_rc name name' rc : query_name name → query_name name' → (0 <= rc)%Z →
  occs (rc_prefix nonce name) (rc_line name' rc) <= if decide (name = name') then 1 else 0.
Proof.
  intros H H' Hrc. rewrite rc_line_eq.
  change (rc_prefix nonce name) with ("__P" +:+ "REFLIGHT_RC_" +:+ nonce +:+ "_" +:+ name +:+ "_").
  rewrite occs_marker by (by apply rc_line_no_P).
  destruct (startswith _ _) eqn:E; [|lia]. rewrite !startswith_common in E.
  rewrite decide_True; [done|]. destruct H as [H _], H' as [H' _]. by eapply startswith_sep.
Qed.

(** A part that an honest query prints. *)
Definition part_ok (part : string * string * Z) : Prop :=
  let '(name, body, rc) := part in
  query_name name ∧ contains nonce body = false ∧ whole_lines body ∧ (0 <= rc)%Z.

(** Occurrences in a part, by line. *)
Lemma occs_part sub name body rc t : has_char nl sub = false → sub ≠ "" →
  whole_lines body → occs sub body = 0 →
  occs sub (bundle_part nonce name body rc +:+ t) =
    occs sub (q_marker nonce name) + occs sub (rc_line name rc) + occs sub t.
Proof.
  intros Hnl Hn Hb H0. unfold bundle_part.
  replace ((q_marker nonce name +:+ NL +:+ body +:+ rc_prefix nonce name +:+ str_of_Z rc +:+
    "__" +:+ NL) +:+ t) with
    (q_marker nonce name +:+ String nl (body +:+ (rc_line name rc +:+ String nl t)))
    by (unfold rc_line; by rewrite !app_assoc_str).
  rewrite occs_line by done.
  assert (occs sub (body +:+ (rc_line name rc +:+ String nl t)) =
    occs sub (rc_line name rc +:+ String nl t)) as ->.
  { destruct Hb as [->|[o ->]]; [done|]. rewrite app_assoc_str.
    change (o +:+ NL) with (o +:+ String nl "") in H0. rewrite occs_line in H0 by done.
    cbn [append ch]. rewrite occs_line by done. lia. }
  rewrite occs_line by done. lia.
Qed.

Lemma occs_body sub body : contains nonce body = false → contains nonce sub = true → sub ≠ "" →
  occs sub body = 0.
Proof.
  intros Hb (t & u & ->)%contains_spec Hn. apply occs_not_contains; [|done].
  apply not_true_iff_false. intros (v & w & ->)%contains_spec.
  apply not_true_iff_false in Hb. apply Hb, contains_spec.
  exists (v +:+ t), (u +:+ w). by rewrite !app_assoc_str.
Qed.

Lemma q_has_nonce name : contains nonce (q_marker nonce name) = true.
Proof. apply contains_spec. by eexists PREFLIGHT_QUERY_MARKER_PREFIX, _. Qed.
Lemma rc_has_nonce name : contains nonce (rc_prefix nonce name) = true.
Proof. apply contains_spec. by eexists PREFLIGHT_RC_MARKER_PREFIX, _. Qed.

(** Each marker of a bundle with distinct names is unique in it. *)
Lemma occs_bundle name parts : query_name name → Forall part_ok parts →
  occs (q_marker nonce name) (bundle nonce parts) <=
    List.length (filter (λ p, p.1.1 = name) parts) ∧
  occs (rc_prefix nonce name) (bundle nonce parts) <=
    List.length (filter (λ p, p.1.1 = name) parts).
Proof.
  intros Hname. induction 1 as [|[[name' body] rc] parts (Hn' & Hsec & Hwl & Hrc) _ [IH1 IH2]];
    [done|]. cbn [bundle].
  rewrite !occs_part; try done;
    [|by apply rc_prefix_nl|apply occs_body; [done|apply rc_has_nonce|done]
     |by apply q_marker_nl|apply occs_body; [done|apply q_has_nonce|done]].
  rewrite occs_q_rc, occs_rc_q by done.
  pose proof (occs_q_q name name' Hname Hn'). pose proof (occs_rc_rc name name' rc Hname Hn' Hrc).
  destruct (decide (name = name')) as [<-|].
  - rewrite filter_cons_True by done. cbn [List.length]. lia.
  - rewrite filter_cons_False by (simpl; congruence). lia.
Qed.
End markers.

(** What the parser must report of a part. *)
Definition expected_outcome (outcome : ProbeOutcome) (part : string * string * Z)
    : string * ProbeOutcome :=
  let '(name, body, rc) := part in
  (name, MkProbe (rc =? 0)%Z (timed_out outcome) (if (rc =? 0)%Z then strip body else "")
           (if (rc =? 0)%Z then "" else "preflight query " +:+ py_repr name +:+ " exited " +:+
              str_of_Z rc +:+ ": " +:+ strip body) None).

Lemma before_underscores_app s t : has_char "_" s = false →
  before_underscores (s +:+ "__" +:+ t) = s.
Proof.
  intros Hs. unfold before_underscores.
  assert (find "__" (s +:+ "__" +:+ t) = Some (str_len s)) as ->; [|apply stake_app].
  induction s as [|c s IH]; [done|]. unfold has_char in *; cbn [str_exists] in Hs.
  apply orb_false_iff in Hs as [Hc Hs]. cbn [append find startswith].
  rewrite Hc. simpl. cbn in IH. by rewrite IH.
Qed.

Lemma strip_str_of_Z n : (0 <= n)%Z → strip (str_of_Z n) = str_of_Z n.
Proof.
  intros Hn. apply strip_id. eapply str_forall_impl; [apply is_dec_not_space|].
  by apply str_of_Z_dec.
Qed.

Lemma count_occs sub s : count sub s <= occs sub s.
Proof. apply count_skip_occs. Qed.

(** One query, read from anywhere before its part. *)
Lemma parse_query_part outcome nonce a x name body rc t :
  stdout outcome = a +:+ x +:+ bundle_part nonce name body rc +:+ t →
  occs (q_marker nonce name) (stdout outcome) <= 1 →
  occs (rc_prefix nonce name) (stdout outcome) <= 1 → (0 <= rc)%Z →
  parse_query outcome nonce name (str_len a) =
    ((expected_outcome outcome (name, body, rc)).2,
     str_len (a +:+ x +:+ q_marker nonce name +:+ NL +:+ body +:+ rc_prefix nonce name)).
Proof.
  intros Ht Hq Hr Hrc. unfold parse_query.
  pose proof (count_occs (q_marker nonce name) (stdout outcome)).
  pose proof (count_occs (rc_prefix nonce name) (stdout outcome)).
  rewrite (proj2 (Nat.ltb_ge 1 _)), (proj2 (Nat.ltb_ge 1 _)) by lia. cbn [orb].
  set (q := q_marker nonce name) in *. set (r := rc_prefix nonce name) in *.
  set (tail := str_of_Z rc +:+ "__" +:+ NL +:+ t).
  assert (stdout outcome = a +:+ (x +:+ q +:+ (NL +:+ body +:+ r +:+ tail))) as H1.
  { rewrite Ht. unfold bundle_part, tail. by rewrite !app_assoc_str. }
  assert (stdout outcome = (a +:+ x +:+ q) +:+ ((NL +:+ body) +:+ r +:+ tail)) as H2
    by (rewrite H1; by rewrite !app_assoc_str).
  assert (stdout outcome = ((a +:+ x +:+ q) +:+ (NL +:+ body) +:+ r) +:+ tail) as H3
    by (rewrite H2; by rewrite !app_assoc_str).
  assert (find_from q (stdout outcome) (str_len a) = Some (str_len a + str_len x)) as ->.
  { rewrite H1, find_from_app, find_unique; [done|].
    etransitivity; [apply (occs_app_r q a)|]. by rewrite <- H1. }
  assert (str_len a + str_len x + str_len q = str_len (a +:+ x +:+ q)) as Hlen by len_lia.
  rewrite Hlen.
  assert (find_from r (stdout outcome) (str_len (a +:+ x +:+ q)) =
    Some (str_len (a +:+ x +:+ q) + str_len (NL +:+ body))) as ->.
  { rewrite H2, find_from_app, find_unique; [done|].
    etransitivity; [apply (occs_app_r r (a +:+ x +:+ q))|]. by rewrite <- H2. }
  assert (slice (str_len (a +:+ x +:+ q)) (str_len (a +:+ x +:+ q) + str_len (NL +:+ body))
    (stdout outcome) = NL +:+ body) as ->.
  { unfold slice. rewrite H2, sdrop_app.
    replace (_ + _ - _) with (str_len (NL +:+ body)) by lia. apply stake_app. }
  assert (str_len (a +:+ x +:+ q) + str_len (NL +:+ body) + str_len r =
    str_len ((a +:+ x +:+ q) +:+ (NL +:+ body) +:+ r)) as -> by len_lia.
  rewrite H3 at 1. rewrite sdrop_app. unfold tail.
  rewrite before_underscores_app by (by apply str_of_Z_no_char).
  rewrite strip_str_of_Z, py_int_str_of_Z by done.
  change (strip (NL +:+ body)) with (strip body). cbn [expected_outcome snd].
  f_equal. by rewrite !app_assoc_str.
Qed.

Lemma parse_queries_parts outcome nonce parts a x :
  stdout outcome = a +:+ x +:+ bundle nonce parts →
  Forall (λ p, (0 <= p.2)%Z ∧ occs (q_marker nonce p.1.1) (stdout outcome) <= 1 ∧
               occs (rc_prefix nonce p.1.1) (stdout outcome) <= 1) parts →
  parse_queries outcome nonce (map (λ p, p.1.1) parts) (str_len a) =
    map (expected_outcome outcome) parts.
Proof.
  revert a x; induction parts as [|[[name body] rc] parts IH]; intros a x Ht Hall; [done|].
  apply Forall_cons in Hall as [(Hrc & Hq & Hr) Hall]. cbn [map parse_queries fst snd bundle] in *.
  rewrite (parse_query_part outcome nonce a x name body rc (bundle nonce parts)) by done.
  f_equal. apply (IH _ (str_of_Z rc +:+ "__" +:+ NL)); [|done]. rewrite Ht. unfold bundle_part. by rewrite !app_assoc_str.
Qed.

Lemma parse_preflight_nonce outcome nonce : preflight_nonce outcome = Some nonce →
  nonempty nonce = true →
  parse_preflight_outcome outcome = parse_queries outcome nonce preflight_names 0.
Proof. unfold parse_preflight_outcome. intros ->. by destruct nonce. Qed.

(** Every marker of the bundle occurs once in what is printed. *)
Lemma bundle_markers_once nonce pre (parts : list (string * string * Z)) :
  token_ok nonce → Forall (part_ok nonce) parts → NoDup (map (λ p, p.1.1) parts) →
  contains nonce pre = false → whole_lines pre →
  Forall (λ p, (0 <= p.2)%Z ∧ occs (q_marker nonce p.1.1) (pre +:+ bundle nonce parts) <= 1 ∧
               occs (rc_prefix nonce p.1.1) (pre +:+ bundle nonce parts) <= 1) parts.
Proof.
  intros [Hh Hn] Hparts Hnd Hpre Hpl.
  apply Forall_forall. intros [[name body] rc] Hin. cbn [fst snd].
  rewrite Forall_forall in Hparts. destruct (Hparts _ Hin) as (Hname & _ & _ & Hrc).
  rewrite <- Forall_forall in Hparts. split; [done|].
  assert (Hone : List.length (filter (λ p, p.1.1 = name) parts) <= 1).
  { clear -Hnd. induction parts as [|p parts IH]; [simpl; lia|]. cbn [map] in Hnd.
    apply NoDup_cons in Hnd as [Hp Hnd]. specialize (IH Hnd).
    destruct (decide (p.1.1 = name)) as [<-|]; [|rewrite filter_cons_False by done; exact IH].
    rewrite filter_cons_True by done. rewrite filter_none; [simpl; lia|].
    intros p' Hp' Heq. apply Hp. rewrite <- Heq. 
    apply list_elem_of_In, (in_map (λ p, p.1.1)), list_elem_of_In. exact Hp'. }
  destruct (occs_bundle nonce (conj Hh Hn) name parts Hname Hparts) as [Ho1 Ho2].
  assert (Hskip : ∀ sub, has_char nl sub = false → sub ≠ "" → contains nonce sub = true →
    occs sub (pre +:+ bundle nonce parts) = occs sub (bundle nonce parts)).
  { intros sub Hnl Hne Hc. destruct Hpl as [->|[o ->]]; [done|].
    pose proof (occs_body nonce sub (o +:+ NL) Hpre Hc Hne) as H0.
    change (o +:+ NL) with (o +:+ String nl "") in *. rewrite occs_line in H0 by done.
    rewrite app_assoc_str. cbn [append]. rewrite occs_line by done. lia. }
  rewrite !Hskip; try done; [lia|..].
  - by apply rc_prefix_nl.
  - apply rc_has_nonce.
  - by apply q_marker_nl.
  - apply q_has_nonce.
Qed.

(** ** Properties *)

(** An honest bundle is read back: if each query printed its marker, whole
    lines that do not contain the nonce, and its status, then the parser
    reports for every query exactly its status and its output (stripped), also
    when nonce-free lines such as a banner come first. *)
Theorem preflight_roundtrip (ok0 to : bool) (msg nonce pre : string)
    (parts : list (string * string * Z))
    (Htok : token_ok nonce) (Hparts : Forall (part_ok nonce) parts)
    (Hnames : map (λ p, p.1.1) parts = preflight_names)
    (Hpre : contains nonce pre = false) (Hpl : whole_lines pre) :
  let outcome := MkProbe ok0 to (pre +:+ bundle nonce parts) msg (Some nonce) in
  parse_preflight_outcome outcome = map (expected_outcome outcome) parts.
Proof.
  intros outcome. rewrite (parse_preflight_nonce outcome nonce) by (try done; apply Htok).
  rewrite <- Hnames. apply (parse_queries_parts outcome nonce parts "" pre); [done|].
  apply (bundle_markers_once nonce pre parts); try done.
  rewrite Hnames. apply preflight_names_nodup.
Qed.

Lemma find_contains sub s : contains sub s = false → find sub s = None.
Proof. unfold contains. by destruct (find sub s). Qed.

Lemma sdrop_contains sub n s : contains sub s = false → contains sub (sdrop n s) = false.
Proof.
  intros H. apply not_true_iff_false. intros Hs. destruct (sdrop_suffix n s) as [t Ht].
  rewrite Ht in H. rewrite contains_app_r in H; done.
Qed.

Lemma sdrop_split n s : n <= str_len s → ∃ t, s = t +:+ sdrop n s ∧ str_len t = n.
Proof.
  revert n; induction s as [|c s IH]; intros n Hn.
  - exists "". unfold str_len in *; simpl in *. by destruct n; [|lia].
  - destruct n as [|n]; [by exists ""|]. destruct (IH n) as (t & Ht & Hl); [unfold str_len in *; simpl in *; lia|].
    exists (String c t). cbn [sdrop append]. rewrite <- Ht. unfold str_len in *; simpl. by rewrite Hl.
Qed.

Lemma find_from_split sub s i n : i <= str_len s → find_from sub s i = Some n →
  ∃ a b, s = a +:+ sub +:+ b ∧ str_len a = n ∧ i <= n.
Proof.
  unfold find_from. intros Hi. destruct (find sub (sdrop i s)) as [k|] eqn:E; [|done].
  intros [= <-]. apply find_Some in E as (a & b & Hs & <-).
  destruct (sdrop_split i s Hi) as (t & Ht & Hl).
  exists (t +:+ a), b. rewrite app_assoc_str, <- Hs, <- Ht, str_len_app, Hl.
  split_and!; [done..|lia].
Qed.

Lemma count_pos sub s : sub ≠ "" → contains sub s = true → 1 <= count sub s.
Proof.
  unfold count. intros Hn. induction s as [|c s IH]; cbn [count_skip].
  - by destruct sub.
  - destruct (startswith sub (String c s)) eqn:E; [lia|]. unfold contains in *.
    cbn [find]. rewrite E. intros H. apply IH. by destruct (find sub s).
Qed.

(** What a query is reported ok for: its marker and its status marker, once
    each and in this order, around the output that is passed on, and the
    status zero after them. *)
Definition ok_segment (text nonce name out : string) : Prop :=
  ∃ pre body rest,
    text = pre +:+ q_marker nonce name +:+ body +:+ rc_prefix nonce name +:+ rest ∧
    out = strip body ∧ py_int (strip (before_underscores rest)) = Some 0%Z ∧
    count (q_marker nonce name) text = 1 ∧ count (rc_prefix nonce name) text = 1.

Lemma parse_query_ok outcome nonce name cursor : cursor <= str_len (stdout outcome) →
  ok (parse_query outcome nonce name cursor).1 = true →
  ok_segment (stdout outcome) nonce name (stdout (parse_query outcome nonce name cursor).1).
Proof.
  intros Hcur. unfold parse_query. destruct (_ || _) eqn:E; [done|]. apply orb_false_iff in E as [E1 E2].
  apply Nat.ltb_ge in E1, E2.
  destruct (find_from (q_marker nonce name) _ _) as [q|] eqn:Eq; [|done].
  apply find_from_split in Eq as (pre & t & Ht & <- & _); [|done].
  assert (str_len pre + str_len (q_marker nonce name) = str_len (pre +:+ q_marker nonce name))
    as Hl by (by rewrite str_len_app).
  destruct (find_from (rc_prefix nonce name) _ _) as [r|] eqn:Er; [|done].
  rewrite Hl in *. rewrite Ht, <- app_assoc_str, find_from_app in Er.
  destruct (find (rc_prefix nonce name) t) as [k|] eqn:Ek; [|done].
  injection Er as <-. apply find_Some in Ek as (body & rest & -> & <-).
  set (q := q_marker nonce name) in *. set (rp := rc_prefix nonce name) in *.
  assert (sdrop (str_len (pre +:+ q) + str_len body + str_len rp) (stdout outcome) = rest) as ->.
  { rewrite Ht, <- str_len_app, <- str_len_app.
    replace (pre +:+ q +:+ body +:+ rp +:+ rest) with (((pre +:+ q) +:+ body) +:+ rp +:+ rest)
      by (by rewrite !app_assoc_str).
    rewrite <- app_assoc_str. apply sdrop_app. }
  assert (slice (str_len (pre +:+ q)) (str_len (pre +:+ q) + str_len body) (stdout outcome) = body) as ->.
  { unfold slice. rewrite Ht, <- app_assoc_str, sdrop_app.
    replace (_ + _ - _) with (str_len body) by lia. apply stake_app. }
  destruct (py_int _) as [rc|] eqn:Erc; [|done]. cbn [fst ok stdout]. intros ->%Z.eqb_eq.
  exists pre, body, rest. split_and!; [exact Ht|done|done|..]; apply Nat.le_antisymm; try done;
    apply count_pos; try done; rewrite Ht; apply contains_spec.
  - by exists pre, (body +:+ rp +:+ rest).
  - exists (pre +:+ q +:+ body), rest. by rewrite !app_assoc_str.
Qed.

(** The cursor stays inside the text. *)
Lemma parse_query_cursor outcome nonce name cursor : cursor <= str_len (stdout outcome) →
  (parse_query outcome nonce name cursor).2 <= str_len (stdout outcome).
Proof.
  intros Hcur. unfold parse_query. destruct (_ || _); [done|].
  destruct (find_from (q_marker nonce name) _ _) as [q|] eqn:Eq; [|done].
  apply find_from_split in Eq as (pre & t & Ht & <- & _); [|done].
  destruct (find_from (rc_prefix nonce name) _ _) as [r|] eqn:Er; [|done].
  apply find_from_split in Er as (a & b & Ha & <- & _);
    [|rewrite Ht, !str_len_app; lia].
  destruct (py_int _); [|done]. cbn [snd]. apply (f_equal str_len) in Ha. rewrite !str_len_app in Ha. rewrite Ha. lia.
Qed.

Lemma parse_query_quiet outcome nonce name cursor :
  ok (parse_query outcome nonce name cursor).1 = false →
  stdout (parse_query outcome nonce name cursor).1 = "".
Proof.
  unfold parse_query. destruct (_ || _); [done|]. destruct (find_from _ _ _); [|done].
  destruct (find_from _ _ _); [|done]. destruct (py_int _) as [rc|]; [|done]. cbn.
  by destruct (rc =? 0)%Z.
Qed.

Lemma parse_queries_elem outcome nonce names cursor name o :
  cursor <= str_len (stdout outcome) →
  (name, o) ∈ parse_queries outcome nonce names cursor →
  ∃ c, c <= str_len (stdout outcome) ∧ o = (parse_query outcome nonce name c).1.
Proof.
  revert cursor; induction names as [|n names IH]; intros cursor Hc; cbn [parse_queries].
  - by intros ?%elem_of_nil.
  - pose proof (parse_query_cursor outcome nonce n cursor Hc) as Hc'.
    destruct (parse_query outcome nonce n cursor) as [o' c'] eqn:E.
    intros [[= -> ->]|Hin]%elem_of_cons; [|by eapply IH]. exists cursor. by rewrite E.
Qed.

Lemma parse_queries_names outcome nonce names cursor :
  map fst (parse_queries outcome nonce names cursor) = names.
Proof.
  revert cursor; induction names as [|n names IH]; intros cursor; [done|].
  cbn [parse_queries]. destruct (parse_query _ _ _ _). cbn [map fst]. by rewrite IH.
Qed.

(** C4: The parser fails closed on any text.  It reports on every query; it
    passes on output only with a success; and a query is a success only if the
    crossing had a nonce, the query's marker and its status marker with that
    nonce are each in the text exactly once and in this order, the status that
    follows them is zero, and the output passed on is what stands between them
    (stripped).  So output without the nonce forges nothing, and a missing or
    repeated marker or status is never a success. *)
Theorem preflight_fails_closed (outcome : ProbeOutcome) (name : string) (o : ProbeOutcome)
    (Hin : (name, o) ∈ parse_preflight_outcome outcome) :
  map fst (parse_preflight_outcome outcome) = preflight_names ∧
  timed_out o = timed_out outcome ∧
  (ok o = false → stdout o = "") ∧
  (ok o = true → ∃ nonce, preflight_nonce outcome = Some nonce ∧ nonempty nonce = true ∧
     ∃ pre body rest,
       stdout outcome = pre +:+ q_marker nonce name +:+ body +:+ rc_prefix nonce name +:+ rest ∧
       stdout o = strip body ∧ py_int (strip (before_underscores rest)) = Some 0%Z ∧
       count (q_marker nonce name) (stdout outcome) = 1 ∧
       count (rc_prefix nonce name) (stdout outcome) = 1).
Proof.
  unfold parse_preflight_outcome in *.
  assert (Habsent : ∀ g, (name, o) ∈ map (λ n, (n, failed_query outcome (g n))) preflight_names →
    timed_out o = timed_out outcome ∧ ok o = false ∧ stdout o = "").
  { intros g (n & [= _ ->] & _)%list_elem_of_fmap. done. }
  destruct (preflight_nonce outcome) as [[|c n]|].
  - apply Habsent in Hin as (-> & Hok & Hs). rewrite map_map, map_id. by rewrite Hok.
  - rewrite parse_queries_names. apply parse_queries_elem in Hin as (cur & Hcur & ->); [|lia].
    split_and!; [done| |apply parse_query_quiet|].
    + unfold parse_query. by repeat case_match.
    + intros Hok. exists (String c n). split_and!; [done..|]. by apply parse_query_ok.
  - apply Habsent in Hin as (-> & Hok & Hs). rewrite map_map, map_id. by rewrite Hok.
Qed.

(** ** Witnesses *)

(** The second query fails, and the third prints a forged marker. *)
Definition demo_parts : list (string * string * Z) :=
  [("auth-probe", "ok" +:+ NL, 0%Z);
   ("docker-version", "cannot connect" +:+ NL, 1%Z);
   ("docker-info-security-options", "__PREFLIGHT_RC_bad_docker-version_0__" +:+ NL, 0%Z);
   ("docker-info-runtimes", "{}" +:+ NL, 0%Z);
   ("compose-ls", "", 0%Z)].

Definition demo_outcome : ProbeOutcome :=
  MkProbe true false (NL +:+ bundle "c0ffee" demo_parts) "" (Some "c0ffee").

Lemma preflight_roundtrip_witness :
  parse_preflight_outcome demo_outcome = map (expected_outcome demo_outcome) demo_parts ∧
  map (λ p, ok p.2) (parse_preflight_outcome demo_outcome) = [true; false; true; true; true].
Proof.
  assert (parse_preflight_outcome demo_outcome = map (expected_outcome demo_outcome) demo_parts)
    as H.
  { apply (preflight_roundtrip true false "" "c0ffee" NL demo_parts).
    - by split.
    - unfold demo_parts.
      repeat (apply Forall_cons; split;
        [split_and!; [split_and!|..]; try (by vm_compute); try (by left); by right; eexists|]).
      apply Forall_nil_2.
    - by vm_compute.
    - by vm_compute.
    - right. by exists "". }
  split; [exact H|]. rewrite H. by vm_compute.
Defined.

Definition demo_auth : ProbeOutcome :=
  default (failed_query demo_outcome "absent")
    (snd <$> head (List.filter (λ x, String.eqb (fst x) "auth-probe") (parse_preflight_outcome demo_outcome))).

Lemma preflight_fails_closed_witness :
  ok demo_auth = true ∧ count (rc_prefix "c0ffee" "auth-probe") (stdout demo_outcome) = 1.
Proof.
  assert (Hok : ok demo_auth = true) by (vm_compute; reflexivity).
  assert (Hin : ("auth-probe", demo_auth) ∈ parse_preflight_outcome demo_outcome).
  { apply list_elem_of_In. vm_compute. repeat (first [left; reflexivity | right]). }
  split; [exact Hok|].
  destruct (preflight_fails_closed demo_outcome "auth-probe" demo_auth Hin) as (_ & _ & _ & H).
  destruct (H Hok) as (nonce & [= <-] & _ & pre & body & rest & _ & _ & _ & _ & Hc). exact Hc.
Defined.
