(* ===== verification/Invoke.v ===== *)
(** * core.dispatch: running an operation; core.helper_container's two clients

    [subprocess.run] is [spawn]; the state is the list of journal records. *)
From S2P Require Import Prelude PyStr HostConfig Executor Images ShellWords Dispatch Preflight.
From Stdlib Require Import Ascii String.
Open Scope nat_scope.

(** [emit_op_audit(op, args, target_argv, instance)] *)
Record audit_record := MkAudit {
  au_op : string; au_args : list string; au_argv : list string; au_instance : string }.

Section invoke.
Context (h : host_env) (e : dispatch_env) (environ_path : option string)
  (spawn : list string → gmap string string → bool → spawn_outcome).

(** [Executor().run(argv, framed=...)] on a new executor: the result and
    [last_frame_nonce]. *)
Definition executor_run (argv : list string) (framed : bool)
    : res CompletedProcess * option string :=
  run environ_path spawn "" argv false ∅ false framed None.

(** The instance an audit record names. *)
Definition audit_instance (op : Op) (args : list string) : res string :=
  match COMPOSE_VERB op with Some _ => arg0 args | None => Ok "" end.

(** [argv = [*argv[:-1], f"__PFNONCE={nonce}; {argv[-1]}"]] *)
Definition inject_nonce (nonce : string) (argv : list string) : res (list string) :=
  match rev argv with
  | [] => Err IndexError
  | inner :: init => Ok (rev init ++ ["__PFNONCE=" +:+ nonce +:+ "; " +:+ inner])%list
  end.

(** [fresh] is what [secrets.token_hex(8)] returns. *)
Definition invoke_with_nonce (fresh : string) (op : string) (args : list string)
    (host_config : HostConfig) : eff (list audit_record) (CompletedProcess * option string) :=
  resolved ← lift_res (op_of_value op);
  _ ← lift_res (require_framed_op resolved);
  argv ← lift_res (build_invocation h e op args host_config);
  if is_operator_rootless host_config then
    instance ← lift_res (audit_instance resolved args);
    log ← get_state;
    _ ← put_state (log ++ [MkAudit op args argv instance])%list;
    '(argv, nonce) ← lift_res (if bool_decide (resolved = PREFLIGHT)
                               then a ← inject_nonce fresh argv; Ok (a, Some fresh)
                               else Ok (argv, None));
    cp ← lift_res (executor_run argv false).1;
    mret (MkCompleted (cp_args cp) (returncode cp)
            (Some (normalize_captured_output (default "" (cp_stdout cp)))) (cp_stderr cp), nonce)
  else
    let '(r, last_frame_nonce) := executor_run argv true in
    cp ← lift_res r;
    mret (cp, last_frame_nonce).

Definition invoke (fresh : string) (op : string) (args : list string) (host_config : HostConfig)
    : eff (list audit_record) CompletedProcess :=
  '(cp, _) ← invoke_with_nonce fresh op args host_config; mret cp.

(** [isinstance(exc.__cause__, subprocess.TimeoutExpired)] *)
Definition timeout_cause (x : exn) : bool :=
  match x with SandboxExecutionError _ t => t | _ => false end.

Definition probe (fresh : string) (op : string) (args : list string) (host_config : HostConfig)
    : eff (list audit_record) ProbeOutcome := λ s,
  match invoke_with_nonce fresh op args host_config s with
  | (Ok (cp, nonce), s') => (Ok (MkProbe true false (default "" (cp_stdout cp)) "" nonce), s')
  | (Err x, s') =>
      if is_sandbox_execution_error x
      then (Ok (MkProbe false (timeout_cause x) "" (exn_text x) None), s')
      else (Err x, s')
  end.

(** ** core.helper_container *)

Definition helper_chown_files (fresh host_user parent : string) (files : list string)
    (owner_uid owner_gid mode : Z) (execution_mode : DockerExecutionMode)
    : eff (list audit_record) unit :=
  match files with
  | [] => mret tt
  | _ =>
      uid ← lift_res (in_container_uid_for_host_uid h owner_uid host_user);
      gid ← lift_res (in_container_gid_for_host_gid h owner_gid host_user);
      cfg ← lift_res (minimal_host_config host_user execution_mode);
      _ ← invoke fresh (op_value HELPER_CHOWN_FILES)
            (parent :: fmt_04o mode :: str_of_Z uid :: str_of_Z gid :: files) cfg;
      mret tt
  end.

Definition helper_mkdir_chown_dirs (fresh host_user parent : string) (leaves : list string)
    (owner_uid owner_gid : Z) (execution_mode : DockerExecutionMode)
    : eff (list audit_record) unit :=
  match leaves with
  | [] => mret tt
  | _ =>
      uid ← lift_res (in_container_uid_for_host_uid h owner_uid host_user);
      gid ← lift_res (in_container_gid_for_host_gid h owner_gid host_user);
      cfg ← lift_res (minimal_host_config host_user execution_mode);
      _ ← invoke fresh (op_value HELPER_MKDIR_CHOWN_DIRS)
            (parent :: str_of_Z uid :: str_of_Z gid :: leaves) cfg;
      mret tt
  end.
End invoke.

(** ** Lemmas *)

(** Whatever the child does, a run that raises raises the domain error. *)
Lemma executor_run_error environ_path spawn argv framed x :
  (executor_run environ_path spawn argv framed).1 = Err x → is_sandbox_execution_error x = true.
Proof.
  unfold executor_run, run. cbn [andb inject_sentinel].
  assert (Hrec : ∀ cp t st, (recover_inner_exit cp framed t st).1 = Err x →
    is_sandbox_execution_error x = true).
  { intros cp t st. unfold recover_inner_exit, mbind, eff_bind, put_state, mret, eff_ret, throw.
    destruct framed; [destruct (begin_search _) as [[[? ?] ?]|]|]; cbn [fst];
      try (by intros [= <-]); destruct (last _) as [[[? ?] [? ?]]|]; cbn [fst];
      try (by intros [= <-]); by case_decide; intros [= <-]. }
  destruct (spawn _ _ _) as [code out err|t|r]; unfold throw; cbn [fst]; try (by intros [= <-]).
  destruct (_ && _ && _); cbn [fst]; [by intros [= <-]|].
  destruct (_ && _); [apply Hrec|done].
Qed.

(** The framed and the unframed branch of a run, for a rootless or a crossed
    call. *)
Lemma invoke_with_nonce_cases h e ep spawn fresh op args cfg s :
  match build_invocation h e op args cfg with
  | Err x => invoke_with_nonce h e ep spawn fresh op args cfg s = (Err x, s)
  | Ok argv => ∃ resolved, op = op_value resolved ∧ resolved ≠ FWD ∧
      invoke_with_nonce h e ep spawn fresh op args cfg s =
      if is_operator_rootless cfg then
        let s' := (s ++ [MkAudit op args argv
                     (match COMPOSE_VERB resolved, args with Some _, i :: _ => i | _, _ => "" end)])%list in
        let argv' := if bool_decide (resolved = PREFLIGHT)
                     then bash_c ("__PFNONCE=" +:+ fresh +:+ "; " +:+ preflight_inner)
                     else argv in
        match (executor_run ep spawn argv' false).1 with
        | Ok cp => (Ok (MkCompleted (cp_args cp) (returncode cp)
                     (Some (normalize_captured_output (default "" (cp_stdout cp)))) (cp_stderr cp),
                     if bool_decide (resolved = PREFLIGHT) then Some fresh else None), s')
        | Err x => (Err x, s')
        end
      else
        match executor_run ep spawn argv true with
        | (Ok cp, n) => (Ok (cp, n), s)
        | (Err x, _) => (Err x, s)
        end
  end.
Proof.
  destruct (build_invocation h e op args cfg) as [argv|x] eqn:Eb.
  - pose proof Eb as Eb'. unfold build_invocation in Eb'. guards.
    match goal with H : op_of_value op = Ok ?o |- _ => rename o into r; pose proof H as Hop;
      apply op_of_value_spec in H as -> end.
    exists r. assert (r ≠ FWD) as Hr by (by intros ->).
    split; [done|]. split; [done|].
    unfold invoke_with_nonce, mbind, eff_bind, lift_res. rewrite Hop, Eb.
    assert (require_framed_op r = Ok tt) as -> by (by destruct r).
    destruct (is_operator_rootless cfg) eqn:Em.
    2:{ by destruct (executor_run ep spawn argv true) as [[cp|x] n]. }
    assert (audit_instance r args = Ok (match COMPOSE_VERB r, args with Some _, i :: _ => i | _, _ => "" end))
      as ->.
    { unfold audit_instance. destruct (COMPOSE_VERB r) eqn:Ev; [|by destruct args].
      destruct args; [|done]. by destruct r. }
    unfold get_state, put_state, mret, eff_ret.
    destruct (decide (r = PREFLIGHT)) as [->|Hp].
    + rewrite bool_decide_true by done.
      assert (argv = bash_c preflight_inner) as ->.
      { destruct args as [|a args]; [|done]. cbn in Eb. unfold crossing_argv in Eb. rewrite Em in Eb.
        by injection Eb as <-. }
      cbn [inject_nonce bash_c rev app res_bind]. cbn [mbind res_bind].
      by destruct (executor_run _ _ _ false).1.
    + rewrite bool_decide_false by done. by destruct (executor_run _ _ _ false).1.
  - pose proof Eb as Eb'. unfold build_invocation in Eb'.
    unfold invoke_with_nonce, mbind, eff_bind, lift_res. rewrite Eb.
    destruct (op_of_value op) as [r|]; [|by simplify_eq/=]. cbn [mbind res_bind] in Eb'.
    by destruct (require_framed_op r) as [[]|]; [|simplify_eq/=].
Qed.

(** ** Properties *)

(** [probe] never raises for a failed or timed-out run: an exception that
    escapes it is the one [build_invocation] raised, before anything ran.  An
    outcome that is ok is no timeout and has no message; one that is not ok
    carries no output and no nonce. *)
Theorem probe_contract (h : host_env) (e : dispatch_env) (ep : option string)
    (spawn : list string → gmap string string → bool → spawn_outcome)
    (fresh op : string) (args : list string) (cfg : HostConfig) (s : list audit_record) :
  match probe h e ep spawn fresh op args cfg s with
  | (Err x, s') => s' = s ∧ build_invocation h e op args cfg = Err x ∧
                   is_sandbox_execution_error x = false
  | (Ok o, s') =>
      (ok o = true → timed_out o = false ∧ message o = "" ∧
         ∃ argv, build_invocation h e op args cfg = Ok argv) ∧
      (ok o = false → stdout o = "" ∧ preflight_nonce o = None)
  end.
Proof.
  unfold probe. pose proof (invoke_with_nonce_cases h e ep spawn fresh op args cfg s) as H.
  destruct (build_invocation h e op args cfg) as [argv|x] eqn:Eb.
  - destruct H as (r & -> & _ & ->). destruct (is_operator_rootless cfg).
    + cbn zeta. destruct (executor_run _ _ _ false).1 as [cp|x] eqn:Er;
        [cbn; split; [intros _; split_and!; by eauto|done]|].
      by rewrite (executor_run_error _ _ _ _ _ Er).
    + destruct (executor_run ep spawn argv true) as [[cp|x] n] eqn:Er;
        [cbn; split; [intros _; split_and!; by eauto|done]|].
      by rewrite (executor_run_error ep spawn argv true x) by (by rewrite Er).
  - rewrite H. destruct (is_sandbox_execution_error x) eqn:Ex; [|done]. done.
Qed.

(** The audit trail is exact.  In operator-rootless mode every operation that
    is run is recorded once, before the child is started and whether or not it
    succeeds, with the arguments and the clean argv, in which the preflight
    nonce does not appear; a refused operation is not recorded; and in
    separate-user mode nothing is recorded here. *)
Theorem audit_exact (h : host_env) (e : dispatch_env) (ep : option string)
    (spawn : list string → gmap string string → bool → spawn_outcome)
    (fresh op : string) (args : list string) (cfg : HostConfig) (s : list audit_record) :
  let s' := (invoke h e ep spawn fresh op args cfg s).2 in
  match build_invocation h e op args cfg with
  | Ok argv =>
      if is_operator_rootless cfg
      then ∃ instance, s' = (s ++ [MkAudit op args argv instance])%list ∧
           (∀ verb o, op = op_value o → COMPOSE_VERB o = Some verb → head args = Some instance) ∧
           (∀ fresh', (invoke h e ep spawn fresh' op args cfg s).2 = s')
      else s' = s
  | Err _ => s' = s
  end.
Proof.
  assert (Hsame : ∀ f, (invoke h e ep spawn f op args cfg s).2 =
    (invoke_with_nonce h e ep spawn f op args cfg s).2).
  { intros f. unfold invoke, mbind, eff_bind, mret, eff_ret.
    by destruct (invoke_with_nonce _ _ _ _ _ _ _ _ _) as [[[? ?]|?] ?]. }
  cbn zeta. rewrite !Hsame.
  pose proof (λ f, invoke_with_nonce_cases h e ep spawn f op args cfg s) as H.
  destruct (build_invocation h e op args cfg) as [argv|x] eqn:Eb; [|by rewrite H].
  destruct (H fresh) as (r & -> & Hr & Hrun).
  destruct (is_operator_rootless cfg) eqn:Em.
  2:{ rewrite Hrun. by destruct (executor_run _ _ _ true) as [[]]. }
  assert (Hall : ∀ f, (invoke_with_nonce h e ep spawn f (op_value r) args cfg s).2 =
    (s ++ [MkAudit (op_value r) args argv
       (match COMPOSE_VERB r, args with Some _, i :: _ => i | _, _ => "" end)])%list).
  { intros f. destruct (H f) as (r' & Hv & _ & ->).
    assert (r' = r) as -> by (by destruct r, r').
    cbn zeta. by destruct (executor_run _ _ _ false).1. }
  eexists. rewrite Hall. split_and!; [done| |].
  - intros verb o Ho Hv. assert (o = r) as -> by (by destruct r, o). rewrite Hv.
    destruct args as [|i rest]; [|done]. by destruct r.
  - intros f. by rewrite Hsame, Hall.
Qed.
