(* ===== verification/PhaseRunner.v ===== *)
(** * core.setup.phase_runner: ordering and running the setup phases

    A phase's callbacks are arguments, over a type [W] of host states.  A probe
    and a reverify read the host ([W → res _]), which is their contract; an act
    and a rollback change it.  [exc_str] is [str] of the exception that was
    raised, whose message [exn] does not keep. *)
From S2P Require Import Prelude PyStr HostConfig.
From Stdlib Require Import Ascii String Sorted.
Open Scope nat_scope.

Record SetupContext := MkSetupContext { ctx_config : HostConfig; ctx_operator : string }.

Inductive Identity := ROOT | OPERATOR | SANDBOX.

Inductive PhaseResult :=
  | ALREADY_CORRECT | MISSING | DRIFT | CONFLICT | FAIL | BLOCKED_BY | SKIPPED.

#[export] Instance PhaseResult_eq_dec : EqDecision PhaseResult.
Proof. solve_decision. Defined.

Definition all_modes : list DockerExecutionMode := [SEPARATE_USER; OPERATOR_ROOTLESS].

Record Phase (W : Type) := MkPhase {
  phase_id : string;
  phase_name : string;
  identity : Identity;
  probe : SetupContext → W → res (PhaseResult * string);
  act : SetupContext → eff W string;
  reverify : SetupContext → W → res bool;
  depends_on : list string;
  rollback : option (SetupContext → eff W unit);
  applies_in : list DockerExecutionMode
}.
Arguments phase_id {W} _. Arguments phase_name {W} _. Arguments identity {W} _.
Arguments probe {W} _. Arguments act {W} _. Arguments reverify {W} _.
Arguments depends_on {W} _. Arguments rollback {W} _. Arguments applies_in {W} _.

Record PhasePlanOutcome := MkPlan { po_id : string; po_result : PhaseResult; po_detail : string }.
Record PhaseApplyOutcome := MkApply {
  ao_id : string; ao_result : PhaseResult; ao_detail : string; ao_reverified : bool }.

(** ** Discovery *)

(** [^l\d+a?_.+$] *)
Definition is_phase_module_name (name : string) : bool :=
  match name with
  | String "l" r =>
      let '(digits, r) := span is_dec r in
      let r := match r with String "a" r' => r' | _ => r end in
      match r with
      | String "_" r => nonempty digits && nonempty (dollar_chomp r) &&
                        negb (has_char nl (dollar_chomp r))
      | _ => false
      end
  | _ => false
  end.

(** A package is its modules' names, each with its [PHASE] if it has one. *)
Fixpoint discover_phases {W} (package : list (string * option (Phase W))) : res (list (Phase W)) :=
  match package with
  | [] => Ok []
  | (name, phase) :: package =>
      if negb (is_phase_module_name name) then discover_phases package
      else match phase with
           | None => Err PhaseDiscoveryError
           | Some p => ps ← discover_phases package; Ok (p :: ps)
           end
  end.

(** ** Ordering *)

Section ordering.
Context {W : Type}.
Implicit Types (p : Phase W).

(** Insertion by id; a later phase replaces an earlier one of the same id, as
    in the dict [by_id]. *)
Fixpoint insert_phase p (l : list (Phase W)) : list (Phase W) :=
  match l with
  | [] => [p]
  | q :: l' => match String.compare (phase_id p) (phase_id q) with
               | Lt => p :: l
               | Eq => p :: l'
               | Gt => q :: insert_phase p l'
               end
  end.

(** [sorted(by_id.values(), key=lambda p: p.id)] *)
Definition sorted_by_id (phases : list (Phase W)) : list (Phase W) :=
  foldl (λ l p, insert_phase p l) [] phases.

Definition mem_id (id : string) (l : list string) : bool := existsb (String.eqb id) l.

Definition is_ready (ids placed : list string) p : bool :=
  forallb (λ d, mem_id d placed || negb (mem_id d ids)) (depends_on p).

(** The [while remaining] loop; each round places one phase. *)
Fixpoint kahn (fuel : nat) (ids placed : list string) (remaining : list (Phase W))
    : option (res (list (Phase W))) :=
  match remaining with
  | [] => Some (Ok [])
  | _ =>
      match fuel with
      | O => None
      | S fuel =>
          match List.find (is_ready ids placed) remaining with
          | None => Some (Err PhaseDependencyError)
          | Some nxt =>
              match kahn fuel ids (phase_id nxt :: placed)
                      (List.filter (λ p, negb (String.eqb (phase_id p) (phase_id nxt))) remaining)
              with
              | Some (Ok l) => Some (Ok (nxt :: l))
              | r => r
              end
          end
      end
  end.

Definition unknown_dep (phases : list (Phase W)) : bool :=
  let ids := map phase_id phases in
  existsb (λ p, existsb (λ d, negb (mem_id d ids)) (depends_on p)) phases.

(** [None] is out of fuel. *)
Definition order_phases (phases : list (Phase W)) (allow_external_deps : bool)
    : option (res (list (Phase W))) :=
  if negb allow_external_deps && unknown_dep phases then Some (Err PhaseDependencyError)
  else
    let remaining := sorted_by_id phases in
    kahn (List.length remaining) (map phase_id phases) [] remaining.
End ordering.

(** ** Identities *)

Definition sandbox_user (ctx : SetupContext) : option string :=
  docker_unprivileged_user (host (ctx_config ctx)).

Definition route (i : Identity) (ctx : SetupContext) : res (list string) :=
  match i with
  | ROOT => Ok []
  | OPERATOR => Ok (pipe_cmd (ctx_operator ctx))
  | SANDBOX => match sandbox_user ctx with
               | None => Err ValueError
               | Some user => Ok (machinectl_cmd user)
               end
  end.

Definition daemon_owner_user (ctx : SetupContext) : res string :=
  if is_operator_rootless (ctx_config ctx) then Ok (ctx_operator ctx)
  else match sandbox_user ctx with None => Err ValueError | Some user => Ok user end.

(** [pwd.getpwnam]: the uid and the home directory. *)
Definition passwd := string → option (Z * string).

Definition daemon_owner_crossing (pw : passwd) (ctx : SetupContext) : res (list string) :=
  if is_operator_rootless (ctx_config ctx) then
    match pw (ctx_operator ctx) with
    | None => Err KeyError
    | Some (uid, dir) =>
        let run_dir := "/run/user/" +:+ str_of_Z uid in
        Ok ["env"; "HOME=" +:+ dir; "XDG_RUNTIME_DIR=" +:+ run_dir;
            "DBUS_SESSION_BUS_ADDRESS=unix:path=" +:+ run_dir +:+ "/bus";
            "DOCKER_HOST=unix://" +:+ run_dir +:+ "/docker.sock"]
    end
  else match sandbox_user ctx with
       | None => Err ValueError
       | Some user => Ok (machinectl_cmd user)
       end.

Definition resolve_sandbox_pw (pw : passwd) (c : HostConfig) : res (Z * string) :=
  match docker_unprivileged_user (host c) with
  | None => Err SandboxUserNotYetCreated
  | Some user => match pw user with None => Err SandboxUserNotYetCreated | Some e => Ok e end
  end.

(** The entry, or the [(MISSING, detail)] pair of the probe. *)
Definition probe_sandbox_pw_or_missing (exc_str : exn → string) (pw : passwd) (c : HostConfig)
    : res ((Z * string) + (PhaseResult * string)) :=
  match resolve_sandbox_pw pw c with
  | Ok e => Ok (inl e)
  | Err SandboxUserNotYetCreated => Ok (inr (MISSING, exc_str SandboxUserNotYetCreated))
  | Err e => Err e
  end.

(** ** The passes *)

Section passes.
Context {W : Type} (exc_str : exn → string) (ctx : SetupContext).
Implicit Types (p : Phase W).

Definition mode : DockerExecutionMode := docker_execution_mode (host (ctx_config ctx)).

Definition applies p : bool := bool_decide (mode ∈ applies_in p).

Definition skipped_detail : string := "skipped (" +:+ mode_value mode +:+ ")".

Definition plan_one (w : W) p : PhasePlanOutcome :=
  if negb (applies p) then MkPlan (phase_id p) SKIPPED skipped_detail
  else match probe p ctx w with
       | Err x => MkPlan (phase_id p) FAIL ("probe raised: " +:+ exc_str x)
       | Ok (result, detail) => MkPlan (phase_id p) result detail
       end.

Definition run_plan_pass (phases : list (Phase W)) (allow_external_deps : bool) (w : W)
    : option (res (list PhasePlanOutcome)) :=
  match order_phases phases allow_external_deps with
  | Some (Ok ordered) => Some (Ok (map (plan_one w) ordered))
  | Some (Err e) => Some (Err e)
  | None => None
  end.

Definition non_mutating (r : PhaseResult) : bool :=
  match r with ALREADY_CORRECT | SKIPPED => true | _ => false end.

(** [_failed]: the outcome, after the rollback if there is one. *)
Definition failed p (detail : string) (w : W) : PhaseApplyOutcome * W :=
  match rollback p with
  | None => (MkApply (phase_id p) FAIL detail false, w)
  | Some rb =>
      let '(r, w') := rb ctx w in
      let note := match r with
                  | Ok _ => "rolled back"
                  | Err x => "rollback also failed: " +:+ exc_str x
                  end in
      (MkApply (phase_id p) FAIL (detail +:+ " (" +:+ note +:+ ")") false, w')
  end.

Definition apply_one p (w : W) : PhaseApplyOutcome * W :=
  match act p ctx w with
  | (Err x, w') => failed p ("act/reverify raised: " +:+ exc_str x) w'
  | (Ok act_detail, w') =>
      match reverify p ctx w' with
      | Err x => failed p ("act/reverify raised: " +:+ exc_str x) w'
      | Ok true => (MkApply (phase_id p) ALREADY_CORRECT act_detail true, w')
      | Ok false => failed p "reverify did not confirm convergence" w'
      end
  end.

(** One iteration: the outcome, the failed ids and the host. *)
Definition apply_step p (failed_ids : list string) (w : W)
    : PhaseApplyOutcome * list string * W :=
  if negb (applies p) then
    (MkApply (phase_id p) SKIPPED skipped_detail false, failed_ids, w)
  else
    match List.find (λ d, mem_id d failed_ids) (depends_on p) with
    | Some blocker =>
        (MkApply (phase_id p) BLOCKED_BY ("blocked by failed phase " +:+ py_repr blocker) false,
         phase_id p :: failed_ids, w)
    | None =>
        match probe p ctx w with
        | Err x => (MkApply (phase_id p) FAIL ("probe raised: " +:+ exc_str x) false,
                    phase_id p :: failed_ids, w)
        | Ok (result, detail) =>
            if non_mutating result then (MkApply (phase_id p) result detail false, failed_ids, w)
            else if bool_decide (result = CONFLICT) then
              (MkApply (phase_id p) CONFLICT detail false, phase_id p :: failed_ids, w)
            else
              let '(outcome, w') := apply_one p w in
              (outcome,
               if bool_decide (ao_result outcome = FAIL) then phase_id p :: failed_ids
               else failed_ids, w')
        end
    end.

Fixpoint apply_loop (ordered : list (Phase W)) (failed_ids : list string) (w : W)
    : list PhaseApplyOutcome * W :=
  match ordered with
  | [] => ([], w)
  | p :: ordered =>
      let '(o, failed_ids, w) := apply_step p failed_ids w in
      let '(os, w) := apply_loop ordered failed_ids w in
      (o :: os, w)
  end.

Definition run_apply_pass (phases : list (Phase W)) (allow_external_deps : bool) (w : W)
    : option (res (list PhaseApplyOutcome) * W) :=
  match order_phases phases allow_external_deps with
  | Some (Ok ordered) =>
      let '(os, w') := apply_loop ordered [] w in Some (Ok os, w')
  | Some (Err e) => Some (Err e, w)
  | None => None
  end.
End passes.

(** ** Lemmas on ordering *)

Section ordering_lemmas.
Context {W : Type}.
Implicit Types (p q : Phase W) (l : list (Phase W)).

Lemma mem_id_spec id ids : mem_id id ids = true ↔ id ∈ ids.
Proof.
  unfold mem_id. rewrite existsb_exists, list_elem_of_In. split.
  - by intros (x & ? & ->%String.eqb_eq).
  - intros ?. exists id. by rewrite String.eqb_refl.
Qed.

Lemma mem_id_false id ids : mem_id id ids = false ↔ id ∉ ids.
Proof. by rewrite <- mem_id_spec, not_true_iff_false. Qed.

Definition id_lt p q : Prop := String.compare (phase_id p) (phase_id q) = Lt.

Lemma elem_of_insert_phase p q l : StronglySorted id_lt l →
  q ∈ insert_phase p l ↔ q = p ∨ (q ∈ l ∧ phase_id q ≠ phase_id p).
Proof.
  induction 1 as [|r l Hs IH Hall]; cbn [insert_phase]; [set_solver|].
  rewrite Forall_forall in Hall.
  assert (Hne : ∀ x, id_lt p x → phase_id x ≠ phase_id p).
  { intros x Hx Heq. unfold id_lt in Hx. rewrite Heq, str_compare_refl in Hx. done. }
  destruct (String.compare (phase_id p) (phase_id r)) eqn:E.
  - apply String.compare_eq_iff in E. rewrite !elem_of_cons. split.
    + intros [->|Hq]; [by left|right]. split; [by right|].
      specialize (Hall q Hq). unfold id_lt in Hall. intros Heq.
      rewrite Heq, E, str_compare_refl in Hall. done.
    + intros [->|[[->|Hq] Hn]]; [by left|congruence|by right].
  - rewrite elem_of_cons. split; [|naive_solver].
    intros [->|Hq]; [by left|right]. split; [done|]. apply Hne.
    apply elem_of_cons in Hq as [->|Hq]; [done|].
    by eapply str_compare_trans; [exact E|apply Hall].
  - rewrite !elem_of_cons, IH. split; [|naive_solver].
    intros [->|[->|[Hq Hn]]]; [right|by left|right; auto]. split; [by left|].
    intros Heq. rewrite Heq, str_compare_refl in E. done.
Qed.

Lemma insert_phase_sorted p l : StronglySorted id_lt l → StronglySorted id_lt (insert_phase p l).
Proof.
  intros Hl. induction Hl as [|r l Hs IH Hall]; cbn [insert_phase]; [repeat constructor|].
  rewrite Forall_forall in Hall.
  destruct (String.compare (phase_id p) (phase_id r)) eqn:E.
  - apply String.compare_eq_iff in E. constructor; [done|]. apply Forall_forall.
    intros x Hx. unfold id_lt. rewrite E. by apply Hall.
  - constructor; [by constructor; [|apply Forall_forall]|]. apply Forall_cons. split; [done|].
    apply Forall_forall. intros x Hx. eapply str_compare_trans; [exact E|by apply Hall].
  - constructor; [done|]. apply Forall_forall. intros x Hx.
    apply elem_of_insert_phase in Hx as [->|[Hx _]]; [by apply str_compare_gt|by apply Hall|done].
Qed.

Lemma sorted_by_id_sorted l : StronglySorted id_lt (sorted_by_id l).
Proof.
  unfold sorted_by_id. assert (StronglySorted id_lt (@nil (Phase W))) as H by constructor.
  revert H. generalize (@nil (Phase W)). induction l as [|p l IH]; intros acc Hacc; [done|].
  by apply IH, insert_phase_sorted.
Qed.

(** The last phase of each id. *)
Lemma elem_of_sorted_by_id q l : q ∈ sorted_by_id l ↔
  ∃ l1 l2, l = (l1 ++ q :: l2)%list ∧ (phase_id q ∉ map phase_id l2).
Proof.
  induction l as [|p l IH] using rev_ind.
  { split; [by intros ?%elem_of_nil|]. intros ([|] & l2 & ? & _); done. }
  unfold sorted_by_id in *. rewrite foldl_app; simpl.
  rewrite elem_of_insert_phase by apply sorted_by_id_sorted. rewrite IH. split.
  - intros [->|[(l1 & l2 & -> & Hn) Hne]].
    + exists l, []. split; [done|]. apply not_elem_of_nil.
    + exists l1, (l2 ++ [p])%list. rewrite <- app_assoc. split; [done|].
      rewrite map_app, elem_of_app. simpl. set_solver.
  - intros (l1 & l2 & Heq & Hn). destruct l2 as [|r l2 _] using rev_ind.
    + apply app_inj_tail in Heq as [_ ->]. by left.
    + rewrite app_comm_cons, app_assoc in Heq. apply app_inj_tail in Heq as [-> ->].
      rewrite map_app, elem_of_app in Hn. simpl in Hn. right. split; [|set_solver].
      exists l1, l2. set_solver.
Qed.

Lemma sorted_by_id_nodup l : NoDup (map phase_id (sorted_by_id l)).
Proof.
  induction (sorted_by_id_sorted l) as [|p s Hs IH Hall]; simpl; constructor; [|done].
  rewrite Forall_forall in Hall. intros (q & Heq & Hq)%list_elem_of_fmap.
  specialize (Hall q Hq). unfold id_lt in Hall. rewrite Heq, str_compare_refl in Hall. done.
Qed.

Lemma sorted_by_id_ids l id : id ∈ map phase_id (sorted_by_id l) ↔ id ∈ map phase_id l.
Proof.
  split.
  - intros (q & -> & (l1 & l2 & -> & _)%elem_of_sorted_by_id)%list_elem_of_fmap.
    rewrite map_app. simpl. set_solver.
  - induction l as [|p l IH] using rev_ind; [done|].
    unfold sorted_by_id in *. rewrite foldl_app, map_app; simpl. intros Hid.
    destruct (decide (id = phase_id p)) as [->|Hne].
    + apply list_elem_of_fmap. exists p. split; [done|].
      apply elem_of_insert_phase; [apply sorted_by_id_sorted|by left].
    + apply elem_of_app in Hid as [Hid|Hid]; [|set_solver].
      apply IH, list_elem_of_fmap in Hid as (q & -> & Hq).
      apply list_elem_of_fmap. exists q. split; [done|].
      apply elem_of_insert_phase; [apply sorted_by_id_sorted|by right].
Qed.

(** Every dependency on a known phase comes earlier, or was [placed] before. *)
Definition deps_first (ids placed : list string) l : Prop :=
  ∀ i p d, l !! i = Some p → d ∈ depends_on p → d ∈ ids →
    d ∈ placed ∨ ∃ j q, j < i ∧ l !! j = Some q ∧ phase_id q = d.

(** Phases of which each waits for another one. *)
Definition waits_in_circle (stuck : list (Phase W)) : Prop :=
  stuck ≠ [] ∧ ∀ p, p ∈ stuck → ∃ d, d ∈ depends_on p ∧ d ∈ map phase_id stuck.

Lemma unknown_dep_spec l : unknown_dep l = true ↔
  ∃ p d, p ∈ l ∧ d ∈ depends_on p ∧ d ∉ map phase_id l.
Proof.
  unfold unknown_dep. rewrite existsb_exists. split.
  - intros (p & Hp%list_elem_of_In & (d & Hd%list_elem_of_In & Hn)%existsb_exists).
    apply negb_true_iff, mem_id_false in Hn. eauto.
  - intros (p & d & Hp & Hd & Hn). exists p. split; [by apply list_elem_of_In|].
    apply existsb_exists. exists d. split; [by apply list_elem_of_In|].
    by apply negb_true_iff, mem_id_false.
Qed.

Lemma is_ready_spec ids placed p : is_ready ids placed p = true ↔
  ∀ d, d ∈ depends_on p → d ∈ ids → d ∈ placed.
Proof.
  unfold is_ready. rewrite forallb_forall. split.
  - intros H d Hd Hids. apply list_elem_of_In, H, orb_true_iff in Hd as [Hp|Hn].
    + by apply mem_id_spec.
    + apply negb_true_iff, mem_id_false in Hn. done.
  - intros H d Hd%list_elem_of_In. apply orb_true_iff.
    destruct (mem_id d ids) eqn:E; [|by right].
    left. apply mem_id_spec. apply H; [done|by apply mem_id_spec].
Qed.

Lemma is_ready_false ids placed p : is_ready ids placed p = false →
  ∃ d, d ∈ depends_on p ∧ d ∈ ids ∧ d ∉ placed.
Proof.
  unfold is_ready. induction (depends_on p) as [|d ds IH]; [done|]. cbn [forallb].
  intros [[Hp Hi]%orb_false_iff|H]%andb_false_iff.
  - exists d. apply mem_id_false in Hp. apply negb_false_iff, mem_id_spec in Hi.
    split; [by left|done].
  - destruct (IH H) as (d' & ? & ?). exists d'. split; [by right|done].
Qed.

Lemma remove_id_perm p l : NoDup (map phase_id l) → p ∈ l →
  l ≡ₚ p :: List.filter (λ q, negb (String.eqb (phase_id q) (phase_id p))) l.
Proof.
  induction l as [|q l IH]; [by intros _ ?%elem_of_nil|].
  cbn [map]. intros [Hq Hnd]%NoDup_cons Hp. cbn [List.filter].
  destruct (String.eqb_spec (phase_id q) (phase_id p)) as [He|He]; cbn [negb].
  - assert (p = q) as ->.
    { apply elem_of_cons in Hp as [->|Hp]; [done|]. exfalso. apply Hq. rewrite He.
      by apply list_elem_of_In, in_map, list_elem_of_In. }
    f_equiv. clear -Hq. induction l as [|r l IH]; [done|]. cbn [map List.filter] in *.
    rewrite not_elem_of_cons in Hq. destruct Hq as [Hne Hq].
    rewrite (proj2 (String.eqb_neq _ _)) by done. cbn [negb]. f_equiv. by apply IH.
  - apply elem_of_cons in Hp as [->|Hp]; [done|].
    rewrite IH at 1 by done. apply Permutation_swap.
Qed.

Lemma kahn_spec fuel ids placed remaining :
  List.length remaining <= fuel → NoDup (map phase_id remaining) →
  (∀ d, d ∈ ids ↔ d ∈ placed ∨ d ∈ map phase_id remaining) →
  match kahn fuel ids placed remaining with
  | None => False
  | Some (Ok l) => l ≡ₚ remaining ∧ deps_first ids placed l
  | Some (Err e) => e = PhaseDependencyError ∧
      ∃ stuck, (∀ p, p ∈ stuck → p ∈ remaining) ∧ waits_in_circle stuck
  end.
Proof.
  revert placed remaining; induction fuel as [|fuel IH]; intros placed remaining Hf Hnd Hids.
  { destruct remaining; [|simpl in Hf; lia]. simpl. split; [done|]. by intros [|?] ? ?. }
  destruct remaining as [|p0 rem]; [simpl; split; [done|]; by intros [|?] ? ?|].
  cbn [kahn]. set (remaining := p0 :: rem) in *.
  destruct (List.find (is_ready ids placed) remaining) as [nxt|] eqn:Ef.
  - apply List.find_some in Ef as [Hin%list_elem_of_In Hready].
    pose proof (remove_id_perm nxt remaining Hnd Hin) as Hperm.
    set (rest := List.filter _ remaining) in *.
    pose proof (Permutation_map phase_id Hperm) as Hids'. cbn [map] in Hids'.
    assert (NoDup (map phase_id rest)) as Hnd'
      by (rewrite Hids' in Hnd; by apply NoDup_cons in Hnd as [_ ?]).
    specialize (IH (phase_id nxt :: placed) rest).
    ospecialize* IH; [apply Permutation_length in Hperm; simpl in *; lia|done|
      intros d; rewrite Hids, Hids'; set_solver|].
    destruct (kahn fuel ids (phase_id nxt :: placed) rest) as [[l|e]|] eqn:Ek; [| |done].
    + destruct IH as [Hl Hd]. split; [by rewrite Hperm, Hl|].
      intros [|i] p d; simpl.
      * intros [= <-] Hdep Hid. left. by eapply (proj1 (is_ready_spec ids placed nxt)).
      * intros Hi Hdep Hid. destruct (Hd i p d Hi Hdep Hid) as [Hpl|(j & q & Hj & Hq & <-)].
        -- apply elem_of_cons in Hpl as [->|Hpl]; [right|by left].
           exists 0, nxt. split_and!; [lia|done|done].
        -- right. exists (S j), q. split_and!; [lia|done|done].
    + destruct IH as (He & stuck & Hs & Hc). split; [done|]. exists stuck. split; [|done].
      intros p Hp. rewrite Hperm. right. by apply Hs.
  - split; [done|]. exists remaining. split; [done|]. split; [done|].
    intros p Hp. apply list_elem_of_In in Hp.
    apply (List.find_none _ _ Ef), is_ready_false in Hp as (d & Hd & Hi & Hpl).
    exists d. split; [done|]. by apply Hids in Hi as [?|?].
Qed.
End ordering_lemmas.

(** ** The order *)

Lemma order_phases_cases {W} (phases : list (Phase W)) allow :
  (order_phases phases allow = Some (Err PhaseDependencyError) ∧
     ((allow = false ∧ ∃ p d, p ∈ phases ∧ d ∈ depends_on p ∧ d ∉ map phase_id phases) ∨
      ∃ circle, (∀ p, p ∈ circle → p ∈ phases) ∧ waits_in_circle circle)) ∨
  ∃ l, order_phases phases allow = Some (Ok l) ∧ l ≡ₚ sorted_by_id phases ∧
    deps_first (map phase_id phases) [] l ∧
    (allow = false → ∀ p d, p ∈ phases → d ∈ depends_on p → d ∈ map phase_id phases).
Proof.
  unfold order_phases.
  destruct (negb allow && unknown_dep phases) eqn:Eu.
  { apply andb_true_iff in Eu as [Ha%negb_true_iff Hu]. left. split; [done|]. left.
    split; [done|]. by apply unknown_dep_spec. }
  pose proof (kahn_spec (List.length (sorted_by_id phases)) (map phase_id phases) []
                (sorted_by_id phases)) as H.
  ospecialize* H; [lia|apply sorted_by_id_nodup| |].
  { intros d. rewrite sorted_by_id_ids. set_solver. }
  destruct (kahn _ _ _ _) as [[l|e]|]; [| |done].
  - right. destruct H as [Hp Hd]. exists l. split_and!; [done..|].
    intros -> p d Hp' Hd'. destruct (decide (d ∈ map phase_id phases)); [done|].
    cbn [negb andb] in Eu. apply not_true_iff_false in Eu. destruct Eu.
    apply unknown_dep_spec. eauto.
  - left. destruct H as (-> & circle & Hc & Hw). split; [done|]. right. exists circle.
    split; [|done]. intros p (l1 & l2 & -> & _)%Hc%elem_of_sorted_by_id. set_solver.
Qed.

(** C17: Ordering the phases always terminates.  A result holds, once each, the
    last phase given for every id, and every dependency that was given comes
    before its dependent; in the strict mode all dependencies are given.  The
    only error is [PhaseDependencyError], raised for an unknown dependency (in
    the strict mode) or because some given phases wait for each other in a
    circle. *)
Theorem order_phases_spec {W} (phases : list (Phase W)) allow :
  match order_phases phases allow with
  | None => False
  | Some (Ok l) =>
      NoDup (map phase_id l) ∧
      (∀ p, p ∈ l ↔ ∃ l1 l2, phases = (l1 ++ p :: l2)%list ∧ (phase_id p ∉ map phase_id l2)) ∧
      deps_first (map phase_id phases) [] l ∧
      (allow = false → ∀ p d, p ∈ phases → d ∈ depends_on p → d ∈ map phase_id phases)
  | Some (Err e) => e = PhaseDependencyError ∧
      ((allow = false ∧ ∃ p d, p ∈ phases ∧ d ∈ depends_on p ∧ d ∉ map phase_id phases) ∨
       ∃ circle, (∀ p, p ∈ circle → p ∈ phases) ∧ waits_in_circle circle)
  end.
Proof.
  destruct (order_phases_cases phases allow) as [[-> H]|(l & -> & Hp & Hd & Hk)]; [done|].
  split_and!; [|intros p|done|done]; rewrite Hp.
  - apply sorted_by_id_nodup.
  - apply elem_of_sorted_by_id.
Qed.

(** ** What a pass does *)

Definition blocks_dependents (r : PhaseResult) : bool :=
  match r with FAIL | CONFLICT | BLOCKED_BY => true | _ => false end.

(** The phase [d] failed, conflicted or was blocked among the outcomes [os]. *)
Definition failed_in (os : list PhaseApplyOutcome) (d : string) : Prop :=
  ∃ o, o ∈ os ∧ ao_id o = d ∧ blocks_dependents (ao_result o) = true.

Section pass_spec.
Context {W : Type} (exc_str : exn → string) (ctx : SetupContext).
Implicit Types (p : Phase W) (os : list PhaseApplyOutcome).

(** What became of a phase, given whether it is blocked: its row of the
    ceremony's contract, with the host before and after. *)
Inductive apply_row p (blocked : string → Prop) (w : W) : PhaseApplyOutcome → W → Prop :=
  | row_not_applicable :
      applies ctx p = false →
      apply_row p blocked w (MkApply (phase_id p) SKIPPED (skipped_detail ctx) false) w
  | row_blocked d :
      applies ctx p = true → d ∈ depends_on p → blocked d →
      apply_row p blocked w
        (MkApply (phase_id p) BLOCKED_BY ("blocked by failed phase " +:+ py_repr d) false) w
  | row_probe_raised x :
      applies ctx p = true → (∀ d, d ∈ depends_on p → ¬ blocked d) → probe p ctx w = Err x →
      apply_row p blocked w (MkApply (phase_id p) FAIL ("probe raised: " +:+ exc_str x) false) w
  | row_not_acted r detail :
      applies ctx p = true → (∀ d, d ∈ depends_on p → ¬ blocked d) →
      probe p ctx w = Ok (r, detail) → r = ALREADY_CORRECT ∨ r = SKIPPED ∨ r = CONFLICT →
      apply_row p blocked w (MkApply (phase_id p) r detail false) w
  | row_converged r detail act_detail w' :
      applies ctx p = true → (∀ d, d ∈ depends_on p → ¬ blocked d) →
      probe p ctx w = Ok (r, detail) → r ≠ ALREADY_CORRECT ∧ r ≠ SKIPPED ∧ r ≠ CONFLICT →
      act p ctx w = (Ok act_detail, w') → reverify p ctx w' = Ok true →
      apply_row p blocked w (MkApply (phase_id p) ALREADY_CORRECT act_detail true) w'
  | row_failed r detail ar w' why :
      applies ctx p = true → (∀ d, d ∈ depends_on p → ¬ blocked d) →
      probe p ctx w = Ok (r, detail) → r ≠ ALREADY_CORRECT ∧ r ≠ SKIPPED ∧ r ≠ CONFLICT →
      act p ctx w = (ar, w') → (is_ok ar = true → reverify p ctx w' ≠ Ok true) →
      apply_row p blocked w (MkApply (phase_id p) FAIL why false)
        (match rollback p with None => w' | Some rb => snd (rb ctx w') end).

Lemma failed_row p detail w : ∃ why, failed exc_str ctx p detail w =
  (MkApply (phase_id p) FAIL why false,
   match rollback p with None => w | Some rb => snd (rb ctx w) end).
Proof.
  unfold failed. destruct (rollback p) as [rb|]; [|by eexists].
  destruct (rb ctx w) as [r w']. by eexists.
Qed.

Lemma apply_step_row p F w :
  let '(o, F', w') := apply_step exc_str ctx p F w in
  apply_row p (.∈ F) w o w' ∧ ao_id o = phase_id p ∧
  ∀ d, d ∈ F' ↔ d ∈ F ∨ (d = phase_id p ∧ blocks_dependents (ao_result o) = true).
Proof.
  unfold apply_step. destruct (applies ctx p) eqn:Ea; cbn [negb].
  2: { split_and!; [by constructor|done|]. intros d. naive_solver. }
  destruct (List.find _ (depends_on p)) as [b|] eqn:Ef.
  { apply List.find_some in Ef as [Hb%list_elem_of_In Hf%mem_id_spec].
    split_and!; [by eapply row_blocked|done|]. intros d. set_solver. }
  assert (∀ d, d ∈ depends_on p → d ∉ F) as Hun.
  { intros d Hd%list_elem_of_In. apply mem_id_false. by apply (List.find_none _ _ Ef). }
  destruct (probe p ctx w) as [[r detail]|x] eqn:Ep.
  2: { split_and!; [by apply row_probe_raised|done|]. intros d. set_solver. }
  destruct (non_mutating r) eqn:En.
  { split_and!; [apply row_not_acted; auto; destruct r; done || auto|done|].
    intros d. destruct r; done || naive_solver. }
  case_bool_decide as Ec.
  { subst r. split_and!; [apply row_not_acted; auto|done|]. intros d. set_solver. }
  assert (r ≠ ALREADY_CORRECT ∧ r ≠ SKIPPED ∧ r ≠ CONFLICT) as Hr by (destruct r; done).
  unfold apply_one. destruct (act p ctx w) as [[a|x] w'] eqn:Eact.
  - destruct (reverify p ctx w') as [[|]|x] eqn:Er.
    + split_and!; [by eapply row_converged|done|]. intros d. naive_solver.
    + destruct (failed_row p "reverify did not confirm convergence" w') as [why ->].
      split_and!; [eapply row_failed; eauto; congruence|done|]. intros d. set_solver.
    + destruct (failed_row p ("act/reverify raised: " +:+ exc_str x) w') as [why ->].
      split_and!; [eapply row_failed; eauto; congruence|done|]. intros d. set_solver.
  - destruct (failed_row p ("act/reverify raised: " +:+ exc_str x) w') as [why ->].
    split_and!; [eapply row_failed; eauto; done|done|]. intros d. set_solver.
Qed.

Lemma apply_row_ext p (b b' : string → Prop) w o w' :
  (∀ d, d ∈ depends_on p → b d ↔ b' d) → apply_row p b w o w' → apply_row p b' w o w'.
Proof. intros H. destruct 1; econstructor; eauto; naive_solver. Qed.

(** The rows of a pass: [os] the outcomes so far, one host to the next. *)
Inductive apply_rows : list PhaseApplyOutcome → list (Phase W) → W →
    list PhaseApplyOutcome → W → Prop :=
  | rows_nil os w : apply_rows os [] w [] w
  | rows_cons os p ps w o w1 os' w2 :
      apply_row p (failed_in os) w o w1 → ao_id o = phase_id p →
      apply_rows (os ++ [o])%list ps w1 os' w2 →
      apply_rows os (p :: ps) w (o :: os') w2.

Lemma failed_in_snoc os o d :
  failed_in (os ++ [o])%list d ↔
  failed_in os d ∨ (d = ao_id o ∧ blocks_dependents (ao_result o) = true).
Proof.
  unfold failed_in. split.
  - intros (o' & [Ho|Ho%list_elem_of_singleton]%elem_of_app & <- & Hb); subst; eauto.
  - intros [(o' & Ho & <- & Hb)|[-> Hb]]; [exists o'|exists o]; split_and!; set_solver.
Qed.

Lemma apply_loop_rows ps os F w :
  (∀ d, d ∈ F ↔ failed_in os d) →
  let '(os', w') := apply_loop exc_str ctx ps F w in apply_rows os ps w os' w'.
Proof.
  revert os F w; induction ps as [|p ps IH]; intros os F w HF; cbn [apply_loop];
    [constructor|].
  pose proof (apply_step_row p F w) as Hs.
  destruct (apply_step exc_str ctx p F w) as [[o F'] w1]. destruct Hs as (Hrow & Hid & HF').
  specialize (IH (os ++ [o])%list F' w1).
  destruct (apply_loop exc_str ctx ps F' w1) as [os' w2].
  econstructor; [exact (apply_row_ext _ _ _ _ _ _ (λ d _, HF d) Hrow)|done|]. apply IH.
  intros d. by rewrite failed_in_snoc, HF', HF, Hid.
Qed.
End pass_spec.

(** ** Transitive blocking *)

(** [d] is a dependency of [p] among [l], through others of [l]. *)
Inductive depends_through {W} (l : list (Phase W)) : Phase W → Phase W → Prop :=
  | through_direct p q : p ∈ l → q ∈ l → phase_id q ∈ depends_on p → depends_through l p q
  | through_step p q r :
      p ∈ l → q ∈ l → phase_id q ∈ depends_on p → depends_through l q r → depends_through l p r.

Section transitive.
Context {W : Type} (exc_str : exn → string) (ctx : SetupContext).
Implicit Types (p q : Phase W) (l : list (Phase W)) (os : list PhaseApplyOutcome).

Lemma apply_rows_length os0 l w os w' :
  apply_rows exc_str ctx os0 l w os w' → List.length os = List.length l.
Proof. induction 1; simpl; lia. Qed.

Lemma apply_rows_ids os0 l w os w' :
  apply_rows exc_str ctx os0 l w os w' → map ao_id os = map phase_id l.
Proof. induction 1; simpl; congruence. Qed.

Lemma apply_rows_blocked os0 l w os w' i p o :
  apply_rows exc_str ctx os0 l w os w' → l !! i = Some p → os !! i = Some o →
  applies ctx p = true →
  ao_result o = BLOCKED_BY ↔
  ∃ d, d ∈ depends_on p ∧ failed_in (os0 ++ take i os)%list d.
Proof.
  intros H; revert i; induction H as [|os0 q ps w o' w1 os w2 Hrow Hid Hrows IH]; [done|].
  intros [|i]; cbn [lookup list_lookup take].
  - intros [= ->] [= ->] Ha. rewrite app_nil_r.
    destruct Hrow; cbn [ao_result]; (split; [|try naive_solver]); try congruence; eauto.
    intros ->. naive_solver.
  - intros Hp Ho Ha. rewrite (IH i Hp Ho Ha). by rewrite <- app_assoc.
Qed.

Lemma lookup_ids_inj l i j p q : NoDup (map phase_id l) →
  l !! i = Some p → l !! j = Some q → phase_id p = phase_id q → i = j.
Proof.
  intros Hnd Hi Hj He. eapply (NoDup_lookup _ i j (phase_id p) Hnd).
  - by rewrite list_lookup_fmap, Hi.
  - by rewrite list_lookup_fmap, Hj, He.
Qed.

(** A blocking outcome of a dependency blocks its dependent. *)
Lemma failed_dep_blocks l w os w' i j p q o oq :
  apply_rows exc_str ctx [] l w os w' → NoDup (map phase_id l) →
  deps_first (map phase_id l) [] l → l !! i = Some p → os !! i = Some o →
  applies ctx p = true → l !! j = Some q → os !! j = Some oq →
  phase_id q ∈ depends_on p → blocks_dependents (ao_result oq) = true →
  ao_result o = BLOCKED_BY.
Proof.
  intros Hrows Hnd Hfirst Hp Ho Ha Hq Hoq Hdep Hb.
  apply (apply_rows_blocked _ _ _ _ _ _ _ _ Hrows Hp Ho Ha).
  exists (phase_id q). split; [done|].
  destruct (Hfirst i p (phase_id q) Hp Hdep) as [?%elem_of_nil|(j' & q' & Hlt & Hq' & He)];
    [|done|].
  { apply list_elem_of_fmap. exists q. split; [done|by eapply list_elem_of_lookup_2]. }
  assert (j' = j) as -> by by eapply lookup_ids_inj.
  exists oq. split_and!; [|..|done].
  - rewrite app_nil_l. eapply list_elem_of_lookup_2. by rewrite lookup_take_lt.
  - apply apply_rows_ids in Hrows. apply (f_equal (.!! j)) in Hrows.
    rewrite !list_lookup_fmap, Hq, Hoq in Hrows. by injection Hrows.
Qed.

Lemma rows_outcome os0 l w os w' i p :
  apply_rows exc_str ctx os0 l w os w' → l !! i = Some p → ∃ o, os !! i = Some o.
Proof.
  intros H%apply_rows_length Hp%lookup_lt_Some. apply lookup_lt_is_Some_2. lia.
Qed.

Lemma blocked_has_failed_ancestor l w os w' i p o :
  apply_rows exc_str ctx [] l w os w' → (∀ q, q ∈ l → applies ctx q = true) →
  l !! i = Some p → os !! i = Some o → ao_result o = BLOCKED_BY →
  ∃ j q oq, depends_through l p q ∧ l !! j = Some q ∧ os !! j = Some oq ∧
    (ao_result oq = FAIL ∨ ao_result oq = CONFLICT).
Proof.
  intros Hrows Hall. revert p o; induction (lt_wf i) as [i _ IH]; intros p o Hp Ho Hb.
  assert (p ∈ l) as Hpl by by eapply list_elem_of_lookup_2.
  apply (apply_rows_blocked _ _ _ _ _ _ _ _ Hrows Hp Ho (Hall p Hpl)) in Hb
    as (d & Hd & oq & Hoq & <- & Hbl).
  apply list_elem_of_lookup_1 in Hoq as [j Hoq].
  apply lookup_take_Some in Hoq as [Hoq Hlt].
  assert (∃ q, l !! j = Some q ∧ phase_id q = ao_id oq) as (q & Hq & Hid).
  { pose proof (f_equal (.!! j) (apply_rows_ids _ _ _ _ _ Hrows)) as He.
    rewrite !list_lookup_fmap, Hoq in He. destruct (l !! j) as [q|]; [|done].
    injection He as He. eauto. }
  assert (q ∈ l) as Hql by by eapply list_elem_of_lookup_2. rewrite <- Hid in Hd.
  destruct (ao_result oq) eqn:E; try done.
  - exists j, q, oq. split_and!; eauto using through_direct.
  - exists j, q, oq. split_and!; eauto using through_direct.
  - destruct (IH j Hlt q oq Hq Hoq E) as (k & r & or & Hthr & Hr).
    exists k, r, or. split; [|done]. by eapply through_step.
Qed.
End transitive.

(** When every ordered phase applies in the mode, a phase is blocked
    exactly when some direct or transitive dependency of it failed or
    conflicted. *)
Theorem blocked_transitively {W} exc_str ctx (phases l : list (Phase W)) allow w os w' i p o :
  order_phases phases allow = Some (Ok l) →
  run_apply_pass exc_str ctx phases allow w = Some (Ok os, w') →
  (∀ q, q ∈ l → applies ctx q = true) →
  l !! i = Some p → os !! i = Some o →
  ao_result o = BLOCKED_BY ↔
  ∃ j q oq, depends_through l p q ∧ l !! j = Some q ∧ os !! j = Some oq ∧
    (ao_result oq = FAIL ∨ ao_result oq = CONFLICT).
Proof.
  intros Hl Hrun Hall Hp Ho.
  destruct (order_phases_cases phases allow) as [[Hl' _]|(l' & Hl' & Hperm & Hfirst & _)];
    rewrite Hl in Hl'; [done|injection Hl' as <-].
  assert (NoDup (map phase_id l)) as Hnd by (rewrite Hperm; apply sorted_by_id_nodup).
  assert (deps_first (map phase_id l) [] l) as Hf.
  { intros k q d Hq Hd Hid. eapply Hfirst; [done..|].
    rewrite <- sorted_by_id_ids. by rewrite Hperm in Hid. }
  pose proof (apply_loop_rows exc_str ctx l [] [] w) as Hrows.
  unfold run_apply_pass in Hrun. rewrite Hl in Hrun.
  destruct (apply_loop exc_str ctx l [] w) as [os1 w1]. injection Hrun as -> ->.
  ospecialize* Hrows.
  { intros d. split; [by intros ?%elem_of_nil|by intros (x & ?%elem_of_nil & _)]. }
  split; [by eapply blocked_has_failed_ancestor|].
  intros (j & q & oq & Hthr & Hq & Hoq & Hr).
  revert i o Hp Ho j oq Hq Hoq Hr.
  induction Hthr as [p q Hpl Hql Hd|p q r Hpl Hql Hd Hthr IH];
    intros i o Hp Ho j oq Hq Hoq Hr.
  - eapply (failed_dep_blocks _ _ l w os w' i j p q o oq); eauto. by destruct Hr as [-> | ->].
  - apply list_elem_of_lookup_1 in Hql as [k Hk].
    destruct (rows_outcome _ _ _ _ _ _ _ _ _ Hrows Hk) as [ok Hok].
    eapply (failed_dep_blocks _ _ l w os w' i k p q o ok); eauto.
    by rewrite (IH k ok Hk Hok j oq Hq Hoq Hr).
Qed.

(** ** The apply pass *)

(** C5: The apply pass gives each ordered phase its row, in order, each on the
    host the one before left: a phase outside the mode is skipped and blocks
    nothing, one with a failed, conflicting or blocked direct dependency is
    blocked, a raising probe fails it, a settled or conflicting one is reported
    and never acted on, and any other is acted on and converges exactly when
    its reverify confirms; else it fails, after its rollback.  Only the last
    two change the host.  When every ordered phase applies in the mode, a phase
    is blocked exactly when a direct or transitive dependency failed or
    conflicted; a phase the mode skips stops this, against the docstring, which
    blocks on any transitive ancestor.  When the phases cannot be ordered
    nothing runs. *)
Theorem apply_pass_refines {W} exc_str ctx (phases : list (Phase W)) allow w :
  match order_phases phases allow with
  | Some (Ok l) => ∃ os w', run_apply_pass exc_str ctx phases allow w = Some (Ok os, w') ∧
      apply_rows exc_str ctx [] l w os w' ∧
      ((∀ q, q ∈ l → applies ctx q = true) →
       ∀ i p o, l !! i = Some p → os !! i = Some o →
         ao_result o = BLOCKED_BY ↔
         ∃ j q oq, depends_through l p q ∧ l !! j = Some q ∧ os !! j = Some oq ∧
           (ao_result oq = FAIL ∨ ao_result oq = CONFLICT))
  | Some (Err e) => run_apply_pass exc_str ctx phases allow w = Some (Err e, w)
  | None => False
  end.
Proof.
  destruct (order_phases_cases phases allow) as [[Ho _]|(l & Ho & _)]; rewrite Ho.
  { unfold run_apply_pass. by rewrite Ho. }
  pose proof (apply_loop_rows exc_str ctx l [] [] w) as H.
  destruct (apply_loop exc_str ctx l [] w) as [os w'] eqn:El.
  assert (run_apply_pass exc_str ctx phases allow w = Some (Ok os, w')) as Hrun.
  { unfold run_apply_pass. by rewrite Ho, El. }
  exists os, w'. split_and!; [done| |].
  - apply H. intros d. split; [by intros ?%elem_of_nil|by intros (o & ?%elem_of_nil & _)].
  - intros Hall i p o Hp Hos. exact (blocked_transitively exc_str ctx phases l allow w os w' i p o Ho Hrun Hall Hp Hos).
Qed.

(** The apply pass of a host on which every phase plans
    [ALREADY_CORRECT] or [SKIPPED] changes nothing and reports what was
    planned: a converged host converges in no steps. *)
Theorem apply_after_convergence {W} exc_str ctx (phases : list (Phase W)) allow w plan :
  run_plan_pass exc_str ctx phases allow w = Some (Ok plan) →
  (∀ o, o ∈ plan → non_mutating (po_result o) = true) →
  run_apply_pass exc_str ctx phases allow w =
    Some (Ok (map (λ o, MkApply (po_id o) (po_result o) (po_detail o) false) plan), w).
Proof.
  unfold run_plan_pass, run_apply_pass.
  destruct (order_phases phases allow) as [[l|e]|]; [|done..]. intros [= <-].
  induction l as [|p l IH]; intros Hall; [done|]. cbn [map apply_loop] in *.
  assert (apply_step exc_str ctx p [] w =
    (MkApply (po_id (plan_one exc_str ctx w p)) (po_result (plan_one exc_str ctx w p))
       (po_detail (plan_one exc_str ctx w p)) false, [], w)) as ->.
  { assert (non_mutating (po_result (plan_one exc_str ctx w p)) = true) as Hp
      by (apply Hall; by left).
    revert Hp. unfold apply_step, plan_one.
    destruct (negb (applies ctx p)); [done|].
    replace (List.find _ (depends_on p)) with (@None string)
      by (induction (depends_on p); done).
    destruct (probe p ctx w) as [[r detail]|x]; [|done]. cbn [po_id po_result po_detail].
    by intros ->. }
  ospecialize* IH; [intros o Ho; apply Hall; by right|].
  destruct (apply_loop exc_str ctx l [] w) as [os w']. by injection IH as -> ->.
Qed.

(** ** Witnesses *)

Definition demo_ctx (m : DockerExecutionMode) : SetupContext :=
  MkSetupContext (MkHostConfig (MkHostSettings (Some "sandbox") m "sb-ws")) "alice".

(** Over a host that counts the acts. *)
Definition demo_phase (id : string) (deps : list string) (r : PhaseResult) : Phase nat :=
  MkPhase nat id id ROOT (λ _ _, Ok (r, "seen")) (λ _ n, (Ok "done", S n)) (λ _ _, Ok true)
    deps None all_modes.

Lemma blocked_transitively_witness :
  let a := demo_phase "a" [] CONFLICT in
  let b := demo_phase "b" ["a"] MISSING in
  let c := demo_phase "c" ["b"] MISSING in
  let o id r d := MkApply id r d false in
  let os := [o "a" CONFLICT "seen"; o "b" BLOCKED_BY "blocked by failed phase 'a'";
             o "c" BLOCKED_BY "blocked by failed phase 'b'"] in
  BLOCKED_BY = BLOCKED_BY ↔
  ∃ j q oq, depends_through [a; b; c] c q ∧ [a; b; c] !! j = Some q ∧ os !! j = Some oq ∧
    (ao_result oq = FAIL ∨ ao_result oq = CONFLICT).
Proof.
  intros a b c o os.
  apply (blocked_transitively (λ _, "") (demo_ctx SEPARATE_USER) [c; a; b] [a; b; c] false
           0 os 0 2 c (o "c" BLOCKED_BY "blocked by failed phase 'b'")).
  - vm_compute. reflexivity.
  - vm_compute. reflexivity.
  - intros q Hq. repeat (apply elem_of_cons in Hq as [->|Hq]; [reflexivity|]).
    by apply elem_of_nil in Hq.
  - reflexivity.
  - reflexivity.
Defined.

Lemma apply_after_convergence_witness :
  run_apply_pass (λ _, "") (demo_ctx SEPARATE_USER)
    [demo_phase "b" ["a"] SKIPPED; demo_phase "a" [] ALREADY_CORRECT] false 7 =
  Some (Ok [MkApply "a" ALREADY_CORRECT "seen" false; MkApply "b" SKIPPED "seen" false], 7).
Proof.
  apply (apply_after_convergence (λ _, "") (demo_ctx SEPARATE_USER)
    [demo_phase "b" ["a"] SKIPPED; demo_phase "a" [] ALREADY_CORRECT] false 7
    [MkPlan "a" ALREADY_CORRECT "seen"; MkPlan "b" SKIPPED "seen"]).
  - vm_compute. reflexivity.
  - intros o Ho. repeat (apply elem_of_cons in Ho as [->|Ho]; [reflexivity|]).
    by apply elem_of_nil in Ho.
Defined.
