(* ===== verification/SetupGraph.v ===== *)
(** * core.setup.l0_identity .. l8_fresh_session: the phase graph

    The [PHASE] object of every phase module, over arbitrary callbacks, and what
    the runner makes of the graph they form. *)
From S2P Require Import Prelude PyStr HostConfig PhaseRunner.
From Stdlib Require Import Ascii String.
Open Scope nat_scope.

(** A module's [_probe], [_act], [_reverify] and [_rollback]. *)
Record Callbacks (W : Type) := MkCallbacks {
  cb_probe : SetupContext → W → res (PhaseResult * string);
  cb_act : SetupContext → eff W string;
  cb_reverify : SetupContext → W → res bool;
  cb_rollback : SetupContext → eff W unit
}.
Arguments MkCallbacks {W}. Arguments cb_probe {W} _. Arguments cb_act {W} _.
Arguments cb_reverify {W} _. Arguments cb_rollback {W} _.

Section graph.
Context {W : Type}.
Implicit Types (c : Callbacks W).

Definition l0_PHASE c : Phase W :=
  MkPhase W "l0" "identity, distro, binaries, machinectl-path" ROOT
    (cb_probe c) (cb_act c) (cb_reverify c) [] None all_modes.
Definition l1_PHASE c : Phase W :=
  MkPhase W "l1" "kernel sysctl drop-in" ROOT
    (cb_probe c) (cb_act c) (cb_reverify c) ["l0"] None [SEPARATE_USER].
Definition l2_PHASE c : Phase W :=
  MkPhase W "l2" "host prerequisites (machined, user, subid, sb-ws)" ROOT
    (cb_probe c) (cb_act c) (cb_reverify c) ["l1"] None [SEPARATE_USER].
Definition l2a_PHASE c : Phase W :=
  MkPhase W "l2a" "systemd Delegate=yes drop-in" ROOT
    (cb_probe c) (cb_act c) (cb_reverify c) ["l2"] None [SEPARATE_USER].
Definition l3_PHASE c : Phase W :=
  MkPhase W "l3" "privilege-boundary rule (sudoers drop-in)" ROOT
    (cb_probe c) (cb_act c) (cb_reverify c) ["l7"] (Some (cb_rollback c)) [SEPARATE_USER].
Definition l3a_PHASE c : Phase W :=
  MkPhase W "l3a" "per-op rule probe (F-004 silent-footgun defense)" OPERATOR
    (cb_probe c) (cb_act c) (cb_reverify c) ["l3"] (Some (cb_rollback c)) [SEPARATE_USER].
Definition l5_PHASE c : Phase W :=
  MkPhase W "l5" "linger + rootless dockerd install" SANDBOX
    (cb_probe c) (cb_act c) (cb_reverify c) ["l2a"] None all_modes.
Definition l65_PHASE c : Phase W :=
  MkPhase W "l65" "dispatcher install (offline reproducible compile)" ROOT
    (cb_probe c) (cb_act c) (cb_reverify c) ["l6a"] None [SEPARATE_USER].
Definition l6_PHASE c : Phase W :=
  MkPhase W "l6" "daemon.json reserved runtime key" ROOT
    (cb_probe c) (cb_act c) (cb_reverify c) ["l5"] None all_modes.
Definition l6a_PHASE c : Phase W :=
  MkPhase W "l6a" "runsc install (gVisor pinned binary)" ROOT
    (cb_probe c) (cb_act c) (cb_reverify c) ["l6"] None [SEPARATE_USER].
Definition l7_PHASE c : Phase W :=
  MkPhase W "l7" "helper image pre-pull (busybox-musl pinned digest)" SANDBOX
    (cb_probe c) (cb_act c) (cb_reverify c) ["l65"] None all_modes.
Definition l8_PHASE c : Phase W :=
  MkPhase W "l8" "fresh-session re-probe" OPERATOR
    (cb_probe c) (cb_act c) (cb_reverify c) ["l3a"] None [SEPARATE_USER].

(** The modules of the package [core.setup] in name order, [cb] giving each
    one's callbacks. *)
Definition setup_package (cb : string → Callbacks W) : list (string * option (Phase W)) :=
  [("cli_flow", None); ("extras", None); ("host_batch", None);
   ("l0_identity", Some (l0_PHASE (cb "l0")));
   ("l1_kernel", Some (l1_PHASE (cb "l1")));
   ("l2_host_prereqs", Some (l2_PHASE (cb "l2")));
   ("l2a_delegate", Some (l2a_PHASE (cb "l2a")));
   ("l3_sudoers", Some (l3_PHASE (cb "l3")));
   ("l3a_per_op_probe", Some (l3a_PHASE (cb "l3a")));
   ("l5_dockerd", Some (l5_PHASE (cb "l5")));
   ("l65_dispatcher", Some (l65_PHASE (cb "l65")));
   ("l6_daemon_json", Some (l6_PHASE (cb "l6")));
   ("l6a_runsc", Some (l6a_PHASE (cb "l6a")));
   ("l7_helper_image", Some (l7_PHASE (cb "l7")));
   ("l8_fresh_session", Some (l8_PHASE (cb "l8")));
   ("phase_runner", None); ("subid", None)].

Definition canonical_order (cb : string → Callbacks W) : list (Phase W) :=
  [l0_PHASE (cb "l0"); l1_PHASE (cb "l1"); l2_PHASE (cb "l2"); l2a_PHASE (cb "l2a");
   l5_PHASE (cb "l5"); l6_PHASE (cb "l6"); l6a_PHASE (cb "l6a"); l65_PHASE (cb "l65");
   l7_PHASE (cb "l7"); l3_PHASE (cb "l3"); l3a_PHASE (cb "l3a"); l8_PHASE (cb "l8")].
End graph.

(** Discovery and strict ordering of the real package succeed, whatever the
    callbacks, with one order: a chain. *)
Lemma setup_order {W} (cb : string → Callbacks W) :
  ∃ phases, discover_phases (setup_package cb) = Ok phases ∧
    order_phases phases false = Some (Ok (canonical_order cb)).
Proof. eexists. split; [reflexivity|]. vm_compute. reflexivity. Qed.

(** ** The separate-user chain *)

Section chain.
Context {W : Type} (exc_str : exn → string) (ctx : SetupContext).
Implicit Types (p : Phase W).

(** Every phase depends on the one before it, the first one on [prev]. *)
Fixpoint chain (prev : option string) (l : list (Phase W)) : Prop :=
  match l with
  | [] => True
  | p :: l => depends_on p = option_list prev ∧ chain (Some (phase_id p)) l
  end.

Lemma chain_blocked l F w d os w' :
  chain (Some d) l → (∀ p, p ∈ l → applies ctx p = true) → d ∈ F →
  apply_loop exc_str ctx l F w = (os, w') →
  (∀ o, o ∈ os → ao_result o = BLOCKED_BY) ∧ w' = w.
Proof.
  revert F d os; induction l as [|p l IH]; intros F d os Hc Hall Hd; cbn [apply_loop].
  { intros [= <- <-]. split; [by intros o ?%elem_of_nil|done]. }
  destruct Hc as [Hdep Hc]. unfold apply_step. rewrite (Hall p), Hdep by by left.
  cbn [negb option_list option_rect List.find]. rewrite (proj2 (mem_id_spec d F) Hd).
  destruct (apply_loop exc_str ctx l (phase_id p :: F) w) as [os1 w1] eqn:E.
  intros [= <- <-].
  destruct (IH (phase_id p :: F) (phase_id p) os1) as [Hos ->]; [done| |by left|done|].
  { intros q Hq. apply Hall. by right. }
  split; [|done]. intros o [->|Ho]%elem_of_cons; [done|by apply Hos].
Qed.

Lemma chain_fails_closed l prev F w os w' i o :
  chain prev l → (∀ p, p ∈ l → applies ctx p = true) →
  apply_loop exc_str ctx l F w = (os, w') →
  os !! i = Some o → blocks_dependents (ao_result o) = true →
  (∀ j oj, i < j → os !! j = Some oj → ao_result oj = BLOCKED_BY) ∧
  snd (apply_loop exc_str ctx (take (S i) l) F w) = w'.
Proof.
  revert prev F w os i; induction l as [|p l IH]; intros prev F w os i Hc Hall; cbn [apply_loop].
  { by intros [= <- <-]. }
  destruct Hc as [_ Hc]. cbn [take apply_loop].
  pose proof (apply_step_row exc_str ctx p F w) as Hs.
  destruct (apply_step exc_str ctx p F w) as [[o1 F1] w1]. destruct Hs as (_ & Hid & HF).
  destruct (apply_loop exc_str ctx l F1 w1) as [os1 w2] eqn:E. intros [= <- <-].
  assert (∀ q, q ∈ l → applies ctx q = true) as Hall' by (intros q Hq; apply Hall; by right).
  destruct i as [|i]; cbn [lookup list_lookup].
  - intros [= ->] Hb.
    destruct (chain_blocked l F1 w1 (phase_id p) os1 w2) as [Hos ->]; [done..| |done|].
    { apply HF. by right. }
    split; [|by rewrite take_0]. intros [|j] oj Hj Hoj; [lia|].
    by eapply Hos, list_elem_of_lookup_2.
  - intros Ho Hb. destruct (IH _ F1 w1 os1 i Hc Hall' E Ho Hb) as [Hj Hw]. split.
    + intros [|j] oj Hlt Hoj; [lia|]. eapply Hj; [|done]. lia.
    + by destruct (apply_loop exc_str ctx (take (S i) l) F1 w1) as [os3 w3].
Qed.
End chain.

(** In [separate-user] mode the setup fails closed.  Its twelve phases are
    discovered and ordered as one chain, and once a phase fails or conflicts
    every later phase is blocked, and the host stays as that phase left it. *)
Theorem separate_user_fails_closed {W} exc_str ctx (cb : string → Callbacks W) w :
  mode ctx = SEPARATE_USER →
  ∃ phases os w', discover_phases (setup_package cb) = Ok phases ∧
    order_phases phases false = Some (Ok (canonical_order cb)) ∧
    run_apply_pass exc_str ctx phases false w = Some (Ok os, w') ∧
    ∀ i o, os !! i = Some o → ao_result o = FAIL ∨ ao_result o = CONFLICT →
      (∀ j oj, i < j → os !! j = Some oj → ao_result oj = BLOCKED_BY) ∧
      snd (apply_loop exc_str ctx (take (S i) (canonical_order cb)) [] w) = w'.
Proof.
  intros Hm. destruct (setup_order cb) as (phases & Hd & Ho).
  destruct (apply_loop exc_str ctx (canonical_order cb) [] w) as [os w'] eqn:E.
  exists phases, os, w'. split_and!; [done|done| |].
  { unfold run_apply_pass. by rewrite Ho, E. }
  intros i o Hi Hr. eapply (chain_fails_closed _ _ _ None); [| |done|done|by destruct Hr as [-> | ->]].
  - repeat split.
  - intros p Hp. unfold applies. rewrite Hm. cbn [canonical_order] in Hp.
    repeat (apply elem_of_cons in Hp as [->|Hp]; [reflexivity|]). by apply elem_of_nil in Hp.
Qed.

(** In [operator-rootless] mode it does not.  The phases between [l0] and
    [l5], and those between [l6] and [l7], are skipped, and a skipped phase
    hides what it depends on: whatever became of [l0], [l5], which installs
    the Docker daemon, runs on the host [l0] left as if nothing had failed, and
    so does [l7] whatever became of [l6]. *)
Theorem operator_rootless_fails_open {W} exc_str ctx (cb : string → Callbacks W) w phases :
  mode ctx = OPERATOR_ROOTLESS →
  discover_phases (setup_package cb) = Ok phases →
  ∃ os w' o0 w0 o5 w5 o6 w6 o7 w7,
    run_apply_pass exc_str ctx phases false w = Some (Ok os, w') ∧
    os !! 0 = Some o0 ∧ apply_row exc_str ctx (l0_PHASE (cb "l0")) (λ _, False) w o0 w0 ∧
    os !! 4 = Some o5 ∧ apply_row exc_str ctx (l5_PHASE (cb "l5")) (λ _, False) w0 o5 w5 ∧
    os !! 5 = Some o6 ∧
      apply_row exc_str ctx (l6_PHASE (cb "l6")) (λ d, d = "l5" ∧ blocks_dependents (ao_result o5) = true) w5 o6 w6 ∧
    os !! 8 = Some o7 ∧ apply_row exc_str ctx (l7_PHASE (cb "l7")) (λ _, False) w6 o7 w7.
Proof.
  intros Hm Hd. destruct (setup_order cb) as (phases' & Hd' & Ho).
  rewrite Hd in Hd'. injection Hd' as <-. unfold run_apply_pass. rewrite Ho.
  assert (∀ (p : Phase W) F w, applies_in p = [SEPARATE_USER] → apply_step exc_str ctx p F w =
    (MkApply (phase_id p) SKIPPED (skipped_detail ctx) false, F, w)) as Hskip.
  { intros p F w2 Hin. unfold apply_step, applies. by rewrite Hm, Hin. }
  unfold canonical_order.
  match goal with |- context [l7_PHASE _ :: ?r] => generalize r; intros rest end.
  cbn [apply_loop].
  pose proof (apply_step_row exc_str ctx (l0_PHASE (cb "l0")) [] w) as H0.
  destruct (apply_step exc_str ctx (l0_PHASE (cb "l0")) [] w) as [[o0 F0] w0].
  destruct H0 as (R0 & _ & HF0).
  rewrite (Hskip (l1_PHASE _)), (Hskip (l2_PHASE _)), (Hskip (l2a_PHASE _)) by done.
  pose proof (apply_step_row exc_str ctx (l5_PHASE (cb "l5")) F0 w0) as H5.
  destruct (apply_step exc_str ctx (l5_PHASE (cb "l5")) F0 w0) as [[o5 F5] w5].
  destruct H5 as (R5 & _ & HF5).
  pose proof (apply_step_row exc_str ctx (l6_PHASE (cb "l6")) F5 w5) as H6.
  destruct (apply_step exc_str ctx (l6_PHASE (cb "l6")) F5 w5) as [[o6 F6] w6].
  destruct H6 as (R6 & _ & HF6).
  rewrite (Hskip (l6a_PHASE _)), (Hskip (l65_PHASE _)) by done.
  pose proof (apply_step_row exc_str ctx (l7_PHASE (cb "l7")) F6 w6) as H7.
  destruct (apply_step exc_str ctx (l7_PHASE (cb "l7")) F6 w6) as [[o7 F7] w7].
  destruct H7 as (R7 & _ & _).
  destruct (apply_loop exc_str ctx rest F7 w7) as [os w'].
  assert (∀ d, d ∈ F0 → d = "l0") as G0 by (intros d [?%elem_of_nil|[-> _]]%HF0; done).
  assert (∀ d, d ∈ F6 → d = "l0" ∨ d = "l5" ∨ d = "l6") as G6.
  { intros d [[?%G0|[-> _]]%HF5|[-> _]]%HF6; auto. }
  do 10 eexists. split_and!; [reflexivity|reflexivity| |reflexivity| |reflexivity| |reflexivity| ].
  - eapply apply_row_ext; [|exact R0]. cbn. set_solver.
  - eapply apply_row_ext; [|exact R5]. cbn. intros d ->%list_elem_of_singleton.
    split; [by intros ?%G0|done].
  - eapply apply_row_ext; [|exact R6]. cbn. intros d ->%list_elem_of_singleton.
    rewrite HF5. cbn. split; [|naive_solver]. intros [?%G0|?]; done.
  - eapply apply_row_ext; [|exact R7]. cbn. intros d ->%list_elem_of_singleton.
    split; [by intros [|[|]]%G6|done].
Qed.

(** ** Witnesses *)

(** [l0] fails, every other phase is missing and would be created; the host
    counts the acts. *)
Definition demo_callbacks (id : string) : Callbacks nat :=
  MkCallbacks
    (λ _ _, if String.eqb id "l0" then Err ValueError else Ok (MISSING, "absent"))
    (λ _ n, (Ok "done", S n)) (λ _ _, Ok true) (λ _ n, (Ok tt, n)).

Lemma separate_user_fails_closed_witness :
  ∃ phases os w', discover_phases (setup_package demo_callbacks) = Ok phases ∧
    order_phases phases false = Some (Ok (canonical_order demo_callbacks)) ∧
    run_apply_pass (λ _, "") (demo_ctx SEPARATE_USER) phases false 0 = Some (Ok os, w') ∧
    ∀ i o, os !! i = Some o → ao_result o = FAIL ∨ ao_result o = CONFLICT →
      (∀ j oj, i < j → os !! j = Some oj → ao_result oj = BLOCKED_BY) ∧
      snd (apply_loop (λ _, "") (demo_ctx SEPARATE_USER)
             (take (S i) (canonical_order demo_callbacks)) [] 0) = w'.
Proof.
  exact (separate_user_fails_closed (λ _, "") (demo_ctx SEPARATE_USER) demo_callbacks 0 eq_refl).
Defined.

Lemma operator_rootless_fails_open_witness :
  ∃ phases os w' o0 w0 o5 w5 o6 w6 o7 w7,
    run_apply_pass (λ _, "") (demo_ctx OPERATOR_ROOTLESS) phases false 0 = Some (Ok os, w') ∧
    os !! 0 = Some o0 ∧
      apply_row (λ _, "") (demo_ctx OPERATOR_ROOTLESS) (l0_PHASE (demo_callbacks "l0")) (λ _, False) 0 o0 w0 ∧
    os !! 4 = Some o5 ∧
      apply_row (λ _, "") (demo_ctx OPERATOR_ROOTLESS) (l5_PHASE (demo_callbacks "l5")) (λ _, False) w0 o5 w5 ∧
    os !! 5 = Some o6 ∧
      apply_row (λ _, "") (demo_ctx OPERATOR_ROOTLESS) (l6_PHASE (demo_callbacks "l6"))
        (λ d, d = "l5" ∧ blocks_dependents (ao_result o5) = true) w5 o6 w6 ∧
    os !! 8 = Some o7 ∧
      apply_row (λ _, "") (demo_ctx OPERATOR_ROOTLESS) (l7_PHASE (demo_callbacks "l7")) (λ _, False) w6 o7 w7.
Proof.
  eexists.
  exact (operator_rootless_fails_open (λ _, "") (demo_ctx OPERATOR_ROOTLESS) demo_callbacks 0
           _ eq_refl eq_refl).
Defined.
