(* ===== verification/SetupFlow.v ===== *)
(** * core.setup.cli_flow and the setup command: plan, gate, apply

    The terminal, the operator's answer, the marker's record and the privileged
    escalation are arguments; printing is not modelled beyond the lines the
    code builds. *)
From S2P Require Import Prelude PyStr HostConfig PhaseRunner.
From Stdlib Require Import Ascii String.
Open Scope nat_scope.

(** ** Extras *)

Record ExtraSpec := MkExtraSpec {
  extra_name : string; extra_flag : string; dropin_path : string; extra_module : string }.

Definition EXTRAS : list ExtraSpec :=
  [MkExtraSpec "fapolicyd" "--enable-fapolicyd-integration"
     "/etc/fapolicyd/trust.d/sandbox-ai.trust" "core.setup.extras.fapolicyd";
   MkExtraSpec "aide" "--enable-aide-integration"
     "/etc/aide/aide.conf.d/sandbox-ai.conf" "core.setup.extras.aide"].

Definition selected_extras (enabled_flags : string → bool) (fs_check : string → bool)
    : list string :=
  map extra_name (List.filter (λ s, enabled_flags (extra_name s) || fs_check (dropin_path s)) EXTRAS).

(** [load_phase] gives an extra module's [PHASE]. *)
Definition build_phase_list {W} (package : list (string * option (Phase W)))
    (load_phase : string → Phase W) (selected_extra_names : list string)
    : option (res (list (Phase W))) :=
  match discover_phases package with
  | Err e => Some (Err e)
  | Ok phases =>
      match order_phases phases false with
      | Some (Ok base) =>
          Some (Ok (base ++ map load_phase
                  (List.filter (λ n, existsb (λ s, String.eqb (extra_name s) n) EXTRAS)
                     selected_extra_names))%list)
      | r => r
      end
  end.

(** ** Tallies *)

Record PlanTally := MkPlanTally {
  pt_already_correct : nat; pt_will_mutate : nat; pt_blocked : nat; pt_refused : nat }.

Definition pt_total (t : PlanTally) : nat :=
  pt_already_correct t + pt_will_mutate t + pt_blocked t + pt_refused t.

Definition plan_mutation (r : PhaseResult) : bool :=
  match r with MISSING | DRIFT => true | _ => false end.
Definition plan_refusal (r : PhaseResult) : bool :=
  match r with CONFLICT | FAIL => true | _ => false end.

Definition tally_plan_one (t : PlanTally) (o : PhasePlanOutcome) : PlanTally :=
  let '(MkPlanTally c m b r) := t in
  if non_mutating (po_result o) then MkPlanTally (S c) m b r
  else if plan_mutation (po_result o) then MkPlanTally c (S m) b r
  else if plan_refusal (po_result o) then MkPlanTally c m b (S r)
  else MkPlanTally c m (S b) r.

Definition tally_plan (outcomes : list PhasePlanOutcome) : PlanTally :=
  foldl tally_plan_one (MkPlanTally 0 0 0 0) outcomes.

Record ApplyTally := MkApplyTally {
  at_already_correct : nat; at_applied : nat; at_blocked : nat; at_refused : nat; at_failed : nat }.

Definition at_total (t : ApplyTally) : nat :=
  at_already_correct t + at_applied t + at_blocked t + at_refused t + at_failed t.

Definition tally_apply_one (t : ApplyTally) (o : PhaseApplyOutcome) : ApplyTally :=
  let '(MkApplyTally c a b r f) := t in
  match ao_result o with
  | FAIL => MkApplyTally c a b r (S f)
  | BLOCKED_BY => MkApplyTally c a (S b) r f
  | CONFLICT => MkApplyTally c a b (S r) f
  | SKIPPED => MkApplyTally (S c) a b r f
  | _ => if ao_reverified o then MkApplyTally c (S a) b r f else MkApplyTally (S c) a b r f
  end.

Definition tally_apply (outcomes : list PhaseApplyOutcome) : ApplyTally :=
  foldl tally_apply_one (MkApplyTally 0 0 0 0 0) outcomes.

Definition nat_text (n : nat) : string := str_of_Z (Z.of_nat n).

Definition plan_summary_line (t : PlanTally) : string :=
  "Summary: " +:+ nat_text (pt_already_correct t) +:+ " already correct, " +:+
  nat_text (pt_will_mutate t) +:+ " will mutate, " +:+
  nat_text (pt_blocked t) +:+ " blocked, " +:+ nat_text (pt_refused t) +:+ " refused".

Definition apply_summary_line (t : ApplyTally) : string :=
  "Summary: " +:+ nat_text (at_already_correct t) +:+ " already correct, " +:+
  nat_text (at_applied t) +:+ " applied, " +:+ nat_text (at_blocked t) +:+ " blocked, " +:+
  nat_text (at_refused t) +:+ " refused, " +:+ nat_text (at_failed t) +:+ " failed".

Definition apply_pass_failed (outcomes : list PhaseApplyOutcome) : bool :=
  existsb (λ o, match ao_result o with FAIL | BLOCKED_BY | CONFLICT => true | _ => false end) outcomes.

(** ** The gate *)

Inductive GateOutcome := NOTHING_TO_APPLY | REFUSED | NON_TTY_NEEDS_YES | PROMPT | PROCEED.

Record GateDecision := MkGate { gate_outcome : GateOutcome; gate_tally : PlanTally }.

Definition decide_gate (outcomes : list PhasePlanOutcome) (is_tty assume_yes : bool)
    (extra_mutations : nat) : GateDecision :=
  let tally := tally_plan outcomes in
  if 0 <? pt_refused tally then MkGate REFUSED tally
  else if pt_will_mutate tally + extra_mutations =? 0 then MkGate NOTHING_TO_APPLY tally
  else if assume_yes then MkGate PROCEED tally
  else if negb is_tty then MkGate NON_TTY_NEEDS_YES tally
  else MkGate PROMPT tally.

Definition prompt_response_proceeds (raw : string) : bool :=
  bool_decide (lower (strip raw) ∈ ["y"; "yes"]).

(** ** The setup command, after the mode and the flags are resolved *)

Section body.
Context {W : Type} (exc_str : exn → string) (ctx : SetupContext).

(** The apply pass and, when nothing failed in it, [finish]. *)
Definition apply_and_finish (phases : list (Phase W)) (finish : eff W unit)
    : W → option (res Z * W) := λ w,
  match run_apply_pass exc_str ctx phases false w with
  | None => None
  | Some (Err e, w) => Some (Err e, w)
  | Some (Ok outcomes, w) =>
      if apply_pass_failed outcomes then Some (Ok 1%Z, w)
      else Some ((_ ← finish; mret 0%Z) w)
  end.

(** The privileged batch first, when it has items. *)
Definition enter_apply (phases : list (Phase W)) (items : nat) (escalate : eff W bool)
    (finish : eff W unit) : W → option (res Z * W) := λ w,
  if 0 <? items then
    match escalate w with
    | (Ok true, w) => apply_and_finish phases finish w
    | (Ok false, w) => Some (Ok 1%Z, w)
    | (Err e, w) => Some (Err e, w)
    end
  else apply_and_finish phases finish w.

(** From the plan on; [converged] and [finish] are what a converged and an
    applied setup record, [escalate] the privileged batch of [items] items,
    which says whether it ran.  The value is the exit code. *)
Definition setup_body (phases : list (Phase W)) (dry_run is_tty yes : bool) (response : string)
    (items : W → nat) (escalate : eff W bool) (converged finish : eff W unit)
    : W → option (res Z * W) := λ w,
  match run_plan_pass exc_str ctx phases false w with
  | None => None
  | Some (Err e) => Some (Err e, w)
  | Some (Ok plan) =>
      let items := items w in
      if dry_run then Some (Ok 0%Z, w)
      else match gate_outcome (decide_gate plan is_tty yes items) with
           | NOTHING_TO_APPLY => Some ((_ ← converged; mret 0%Z) w)
           | REFUSED => Some (Ok 1%Z, w)
           | NON_TTY_NEEDS_YES => Some (Ok 1%Z, w)
           | PROMPT => if prompt_response_proceeds response
                       then enter_apply phases items escalate finish w else Some (Ok 0%Z, w)
           | PROCEED => enter_apply phases items escalate finish w
           end
  end.

(** [record] is [_record_separate_user_mode]. *)
Definition setup_body_separate_user (phases : list (Phase W)) (dry_run is_tty yes : bool)
    (response : string) (record : eff W unit) : W → option (res Z * W) :=
  setup_body phases dry_run is_tty yes response (λ _, 0) (mret true) record record.

Definition setup_body_operator_rootless (phases : list (Phase W)) (dry_run is_tty yes : bool)
    (response : string) (batch : W → nat) (escalate : eff W bool) : W → option (res Z * W) :=
  setup_body phases dry_run is_tty yes response batch escalate (mret tt) (mret tt).
End body.

(** ** Lemmas *)

Lemma tally_plan_counts outcomes t :
  let t' := foldl tally_plan_one t outcomes in
  pt_total t' = pt_total t + List.length outcomes ∧
  pt_refused t' = pt_refused t + List.length (List.filter (λ o, plan_refusal (po_result o)) outcomes) ∧
  pt_will_mutate t' = pt_will_mutate t + List.length (List.filter (λ o, plan_mutation (po_result o)) outcomes).
Proof.
  revert t; induction outcomes as [|o os IH]; intros [c m b r]; cbn [foldl List.length List.filter].
  { unfold pt_total. simpl. lia. }
  specialize (IH (tally_plan_one (MkPlanTally c m b r) o)). destruct IH as (H1 & H2 & H3).
  cbv zeta. rewrite H1, H2, H3. unfold tally_plan_one, pt_total.
  destruct (po_result o); cbn; lia.
Qed.

Lemma tally_apply_total outcomes t :
  at_total (foldl tally_apply_one t outcomes) = at_total t + List.length outcomes.
Proof.
  revert t; induction outcomes as [|o os IH]; intros [c a b r f]; cbn [foldl List.length]; [lia|].
  rewrite IH. unfold tally_apply_one, at_total.
  destruct (ao_result o), (ao_reverified o); cbn; lia.
Qed.

Lemma filter_nil {A} (f : A → bool) l : List.length (List.filter f l) = 0 → ∀ x, x ∈ l → f x = false.
Proof.
  intros Hl x Hx%list_elem_of_In. destruct (f x) eqn:E; [|done].
  assert (In x (List.filter f l)) as Hin by (by apply filter_In).
  apply nil_length_inv in Hl. by rewrite Hl in Hin.
Qed.

(** Every phase is counted once in both summaries. *)
Theorem tallies_total plan outcomes :
  pt_total (tally_plan plan) = List.length plan ∧
  at_total (tally_apply outcomes) = List.length outcomes.
Proof.
  split; [|by apply tally_apply_total].
  by destruct (tally_plan_counts plan (MkPlanTally 0 0 0 0)) as (H & _).
Qed.

Lemma gate_spec plan is_tty yes extra :
  match gate_outcome (decide_gate plan is_tty yes extra) with
  | REFUSED => ∃ o, o ∈ plan ∧ plan_refusal (po_result o) = true
  | NOTHING_TO_APPLY => extra = 0 ∧ ∀ o, o ∈ plan → plan_refusal (po_result o) = false ∧
      plan_mutation (po_result o) = false
  | PROCEED => yes = true ∧ ∀ o, o ∈ plan → plan_refusal (po_result o) = false
  | PROMPT => is_tty = true ∧ yes = false ∧ ∀ o, o ∈ plan → plan_refusal (po_result o) = false
  | NON_TTY_NEEDS_YES => is_tty = false ∧ yes = false
  end.
Proof.
  destruct (tally_plan_counts plan (MkPlanTally 0 0 0 0)) as (_ & Hr & Hm).
  fold (tally_plan plan) in Hr, Hm. cbn [pt_refused pt_will_mutate Nat.add] in Hr, Hm.
  unfold decide_gate. destruct (Nat.ltb_spec 0 (pt_refused (tally_plan plan))) as [Hp|Hp].
  - cbn [gate_outcome]. rewrite Hr in Hp.
    destruct (List.filter _ plan) as [|o l] eqn:E; [simpl in Hp; lia|].
    exists o. assert (In o (List.filter (λ o, plan_refusal (po_result o)) plan)) as Hin
      by (rewrite E; by left).
    apply filter_In in Hin as [? ?]. split; [by apply list_elem_of_In|done].
  - assert (∀ o, o ∈ plan → plan_refusal (po_result o) = false) as Hno
      by (apply (filter_nil (λ o, plan_refusal (po_result o))); lia).
    destruct (Nat.eqb_spec (pt_will_mutate (tally_plan plan) + extra) 0) as [H0|H0].
    + cbn [gate_outcome]. split; [lia|]. intros o Ho. split; [by apply Hno|].
      apply (filter_nil (λ o, plan_mutation (po_result o)) plan); [lia|done].
    + destruct yes; [by split|]. destruct is_tty; by repeat split.
Qed.

Lemma apply_pass_failed_spec outcomes : if apply_pass_failed outcomes
  then ∃ o, o ∈ outcomes ∧ blocks_dependents (ao_result o) = true
  else ∀ o, o ∈ outcomes → blocks_dependents (ao_result o) = false.
Proof.
  unfold apply_pass_failed. induction outcomes as [|o os IH]; [by intros o ?%elem_of_nil|].
  cbn [existsb]. destruct (blocks_dependents (ao_result o)) eqn:Eo.
  - assert (match ao_result o with FAIL | BLOCKED_BY | CONFLICT => true | _ => false end = true) as ->
      by (by destruct (ao_result o)).
    exists o. split; [by left|done].
  - assert (match ao_result o with FAIL | BLOCKED_BY | CONFLICT => true | _ => false end = false) as ->
      by (by destruct (ao_result o)).
    cbn [orb]. destruct (existsb _ os).
    + destruct IH as (o' & ? & ?). exists o'. split; [by right|done].
    + intros o' [->|Ho']%elem_of_cons; [done|by apply IH].
Qed.

Section confirmed.
Context {W : Type} (exc_str : exn → string) (ctx : SetupContext) (phases : list (Phase W)).

(** What follows a confirmation, from [w] to the exit [r] and the host [w']. *)
Definition applied (items : nat) (escalate : eff W bool) (finish : eff W unit)
    (w : W) (r : res Z) (w' : W) : Prop :=
  (0 < items ∧ ∃ e, escalate w = (e, w') ∧ e ≠ Ok true ∧ r ≠ Ok 0%Z) ∨
  ∃ w1 os w2, (if 0 <? items then escalate w = (Ok true, w1) else w1 = w) ∧
    run_apply_pass exc_str ctx phases false w1 = Some (Ok os, w2) ∧
    ((r = Ok 1%Z ∧ w' = w2 ∧ ∃ o, o ∈ os ∧ blocks_dependents (ao_result o) = true) ∨
     ((∀ o, o ∈ os → blocks_dependents (ao_result o) = false) ∧
      (r, w') = (_ ← finish; mret 0%Z) w2)).

Lemma enter_apply_spec items escalate finish w l : order_phases phases false = Some (Ok l) →
  ∃ r w', enter_apply exc_str ctx phases items escalate finish w = Some (r, w') ∧
    applied items escalate finish w r w'.
Proof.
  intros Hl.
  assert (∀ w1, (if 0 <? items then escalate w = (Ok true, w1) else w1 = w) → ∃ r w',
    apply_and_finish exc_str ctx phases finish w1 = Some (r, w') ∧
    applied items escalate finish w r w') as Hrun.
  { intros w1 Hw1. destruct (apply_loop exc_str ctx l [] w1) as [os w2] eqn:El.
    assert (run_apply_pass exc_str ctx phases false w1 = Some (Ok os, w2)) as Hr
      by (unfold run_apply_pass; by rewrite Hl, El).
    unfold apply_and_finish. rewrite Hr. pose proof (apply_pass_failed_spec os) as Hf.
    destruct (apply_pass_failed os).
    - do 2 eexists. split; [done|]. right. exists w1, os, w2. split_and!; [done|done|by left].
    - destruct ((_ ← finish; mret 0%Z) w2) as [r w'] eqn:E. exists r, w'. split; [done|].
      right. exists w1, os, w2. split_and!; [done|done|]. right. by rewrite E. }
  unfold enter_apply. destruct (Nat.ltb_spec 0 items) as [Hi|Hi]; [|by apply Hrun].
  destruct (escalate w) as [[[|]|e] w1] eqn:Ee; [by apply Hrun|..];
    (do 2 eexists; split; [done|]; left; split; [done|]; by eexists).
Qed.

(** Setup changes the host only when it may.  A dry run, a plan with a
    refusal, a terminal without a yes and a non-terminal without the flag
    leave it as it was.  A converged plan with an empty batch runs only its
    record.  Otherwise the operator confirmed, no phase refused, the batch came
    first, and a phase that failed, conflicted or was blocked makes the exit
    code 1 and keeps the mode from being recorded. *)
Theorem setup_only_confirmed dry_run is_tty yes response items escalate converged finish w plan :
  run_plan_pass exc_str ctx phases false w = Some (Ok plan) →
  ∃ r w', setup_body exc_str ctx phases dry_run is_tty yes response items escalate converged finish w
            = Some (r, w') ∧
  ((w' = w ∧ (r = Ok 0%Z ∨ r = Ok 1%Z)) ∨
   (dry_run = false ∧ (∀ o, o ∈ plan → plan_refusal (po_result o) = false) ∧
    ((items w = 0 ∧ (∀ o, o ∈ plan → plan_mutation (po_result o) = false) ∧
      (r, w') = (_ ← converged; mret 0%Z) w) ∨
     ((yes = true ∨ (is_tty = true ∧ prompt_response_proceeds response = true)) ∧
      applied (items w) escalate finish w r w')))).
Proof.
  intros Hplan. unfold setup_body. rewrite Hplan. cbv zeta.
  destruct dry_run; [do 2 eexists; split; [done|]; by left; split; [|left]|].
  assert (∃ l, order_phases phases false = Some (Ok l)) as [l Hl].
  { unfold run_plan_pass in Hplan. destruct (order_phases phases false) as [[l|]|]; [|done..].
    by exists l. }
  pose proof (gate_spec plan is_tty yes (items w)) as Hg.
  destruct (gate_outcome (decide_gate plan is_tty yes (items w))).
  - destruct Hg as [Hi Hno]. destruct ((_ ← converged; mret 0%Z) w) as [r w'] eqn:E.
    exists r, w'. split; [done|]. right. split_and!; [done|by intros o Ho; apply Hno|]. left.
    split_and!; [done|by intros o Ho; apply Hno|done].
  - do 2 eexists. split; [done|]. by left; split; [|right].
  - do 2 eexists. split; [done|]. by left; split; [|right].
  - destruct Hg as (Htty & _ & Hno).
    destruct (prompt_response_proceeds response) eqn:Ep;
      [|do 2 eexists; split; [done|]; by left; split; [|left]].
    destruct (enter_apply_spec (items w) escalate finish w l Hl) as (r & w' & Hr & Ha).
    exists r, w'. split; [done|]. right. split_and!; [done|done|]. right. split; [by right|done].
  - destruct Hg as [Hyes Hno].
    destruct (enter_apply_spec (items w) escalate finish w l Hl) as (r & w' & Hr & Ha).
    exists r, w'. split; [done|]. right. split_and!; [done|done|]. right. split; [by left|done].
Qed.

(** The gate's nothing to apply is right: unless a probe itself answered
    blocked, the apply pass would change nothing and fail nowhere. *)
Theorem nothing_to_apply_is_converged is_tty yes w plan :
  run_plan_pass exc_str ctx phases false w = Some (Ok plan) →
  gate_outcome (decide_gate plan is_tty yes 0) = NOTHING_TO_APPLY →
  (∀ o, o ∈ plan → po_result o ≠ BLOCKED_BY) →
  ∃ os, run_apply_pass exc_str ctx phases false w = Some (Ok os, w) ∧ apply_pass_failed os = false.
Proof.
  intros Hplan Hgate Hnb. pose proof (gate_spec plan is_tty yes 0) as Hg. rewrite Hgate in Hg.
  destruct Hg as [_ Hno].
  assert (∀ o, o ∈ plan → non_mutating (po_result o) = true) as Hall.
  { intros o Ho. specialize (Hno o Ho). specialize (Hnb o Ho).
    destruct (po_result o); try done; by destruct Hno. }
  eexists. split; [by apply apply_after_convergence|].
  apply not_true_iff_false. intros (o & (p & <- & Hp)%in_map_iff & Hb)%existsb_exists.
  apply list_elem_of_In, Hall in Hp. cbn [ao_result] in Hb. by destruct (po_result p).
Qed.
End confirmed.

(** ** Witness *)

Lemma setup_only_confirmed_witness :
  let phases := [demo_phase "a" [] MISSING] in
  ∃ r w', setup_body (λ _, "") (demo_ctx SEPARATE_USER) phases false true false " Yes "
            (λ _, 0) (mret true) (mret tt) (mret tt) 7 = Some (r, w') ∧
  ((w' = 7 ∧ (r = Ok 0%Z ∨ r = Ok 1%Z)) ∨
   (false = false ∧ (∀ o, o ∈ [MkPlan "a" MISSING "seen"] → plan_refusal (po_result o) = false) ∧
    ((0 = 0 ∧ (∀ o, o ∈ [MkPlan "a" MISSING "seen"] → plan_mutation (po_result o) = false) ∧
      (r, w') = (_ ← (mret tt : eff nat unit); mret 0%Z) 7) ∨
     ((false = true ∨ (true = true ∧ prompt_response_proceeds " Yes " = true)) ∧
      applied (λ _, "") (demo_ctx SEPARATE_USER) phases 0 (mret true) (mret tt) 7 r w')))).
Proof.
  intros phases.
  apply (setup_only_confirmed (λ _, "") (demo_ctx SEPARATE_USER) phases false true false " Yes "
           (λ _, 0) (mret true) (mret tt) (mret tt) 7 [MkPlan "a" MISSING "seen"]).
  vm_compute. reflexivity.
Defined.
