(* ===== verification/Doctor.v ===== *)
(** * core.doctor: the check registry, its order and the runner

    A check's [run] is an argument: it may change the state [W] of the probe
    (the host it reads), and may raise. *)
From S2P Require Import Prelude PyStr HostConfig.
From Stdlib Require Import Ascii String.
Open Scope nat_scope.

(** ** core/doctor/types.py *)

Inductive Status := PASS | FAILED | SKIP | WARN.

#[export] Instance Status_eq_dec : EqDecision Status.
Proof. solve_decision. Defined.

Record CheckResult := MkCheckResult {
  status : Status;
  cr_name : string;
  cr_detail : string;
  cr_remediation : option string;
  cr_doc_ref : option string;
  cr_category : string
}.

Record Check (W : Type) := MkCheck {
  check_id : string;
  check_name : string;
  category : string;
  depends_on : list string;
  run : string → option string → eff W CheckResult;
  remediation : string;
  doc_ref : option string;
  applies_in : list DockerExecutionMode
}.
Arguments check_id {W} _. Arguments check_name {W} _. Arguments category {W} _.
Arguments depends_on {W} _. Arguments run {W} _. Arguments remediation {W} _.
Arguments doc_ref {W} _. Arguments applies_in {W} _.

Definition all_modes : list DockerExecutionMode := [SEPARATE_USER; OPERATOR_ROOTLESS].

Definition DISTRO_MAP (id : string) : option string :=
  if bool_decide (id ∈ ["debian"; "ubuntu"]) then Some "debian"
  else if bool_decide (id ∈ ["fedora"; "rhel"; "centos"]) then Some "fedora"
  else if bool_decide (id ∈ ["arch"; "manjaro"]) then Some "arch"
  else None.

Definition INSTALL_CMD (distro : string) : option string :=
  if String.eqb distro "debian" then Some "sudo apt install"
  else if String.eqb distro "fedora" then Some "sudo dnf install"
  else if String.eqb distro "arch" then Some "sudo pacman -S"
  else None.

(** The [fields] of an [os-release] file; a later line replaces an earlier. *)
Fixpoint os_release_fields (lines : list string) (fields : gmap string string)
    : gmap string string :=
  match lines with
  | [] => fields
  | line :: lines =>
      os_release_fields lines
        (if has_char "=" line then
           let '(key, _, val) := partition_char "=" line in
           <[strip key := strip_char dq (strip val)]> fields
         else fields)
  end.

Fixpoint first_known (likes : list string) : option string :=
  match likes with
  | [] => None
  | like :: likes => match DISTRO_MAP like with Some d => Some d | None => first_known likes end
  end.

(** [content] is /etc/os-release's, [None] when the file is missing. *)
Definition detect_distro (content : option string) : option string :=
  match content with
  | None => None
  | Some content =>
      let fields := os_release_fields (splitlines content) ∅ in
      match DISTRO_MAP (default "" (fields !! "ID")) with
      | Some d => Some d
      | None => first_known (split_ws (default "" (fields !! "ID_LIKE")))
      end
  end.

Definition get_install_cmd (distro : option string) (package : string) : string :=
  match distro ≫= INSTALL_CMD with
  | Some cmd => cmd +:+ " " +:+ package
  | None => "Install the '" +:+ package +:+ "' package using your system package manager"
  end.

(** ** core/doctor/registry.py: the registry *)

Definition SEPARATE_USER_ONLY : list DockerExecutionMode := [SEPARATE_USER].
Definition OPERATOR_ROOTLESS_ONLY : list DockerExecutionMode := [OPERATOR_ROOTLESS].

Section registry.
(** The check functions of [core.doctor.checks], by name; [checks_in] those the
    mode is bound into. *)
Context {W : Type} (checks : string → string → option string → eff W CheckResult)
  (checks_in : DockerExecutionMode → string → string → option string → eff W CheckResult)
  (m : DockerExecutionMode).

Definition machinectl_reachable_deps : list string :=
  ["sudo"; "machinectl"; "user_exists"; "systemd_machined"].

Definition chain1 : list (Check W) :=
  [MkCheck W "sudo" "sudo binary" "Privilege Boundary" []
     (checks "check_sudo") "" None all_modes;
   MkCheck W "machinectl" "machinectl binary" "Privilege Boundary" []
     (checks "check_machinectl") "" None all_modes;
   MkCheck W "tlog" "tlog binary" "Privilege Boundary" []
     (checks "check_tlog") "" None all_modes;
   MkCheck W "user_exists" "unprivileged user" "Privilege Boundary" []
     (checks "check_user_exists") "" None SEPARATE_USER_ONLY;
   MkCheck W "systemd_machined" "systemd-machined" "Privilege Boundary" ["machinectl"]
     (checks "check_systemd_machined") "" None SEPARATE_USER_ONLY;
   MkCheck W "machinectl_reachable" "boundary reachable" "Privilege Boundary" machinectl_reachable_deps
     (checks_in m "check_machinectl_reachable") "" None SEPARATE_USER_ONLY;
   MkCheck W "docker_available" "Docker available" "Privilege Boundary" ["machinectl_reachable"]
     (checks_in m "check_docker_available") "" None all_modes;
   MkCheck W "docker_rootless" "Docker rootless" "Privilege Boundary" ["docker_available"]
     (checks_in m "check_docker_rootless") "" None all_modes;
   MkCheck W "runsc" "gVisor runsc" "Privilege Boundary" ["docker_available"]
     (checks_in m "check_runsc_registered") "" None all_modes;
   MkCheck W "runsc_runtimeargs" "runsc runtimeArgs" "Privilege Boundary" ["runsc"]
     (checks_in m "check_runsc_runtimeargs") "" None all_modes;
   MkCheck W "host_uds" "--host-uds=none" "Privilege Boundary" ["runsc"]
     (checks_in m "check_host_uds") "" None all_modes;
   MkCheck W "compose_project_name_collision" "compose project name collision" "Privilege Boundary" ["machinectl_reachable"]
     (checks_in m "check_compose_project_name_collision") "" None all_modes].

Definition chain2 : list (Check W) :=
  [MkCheck W "setfacl" "setfacl binary" "Filesystem" []
     (checks "check_setfacl") "" None all_modes;
   MkCheck W "acl_support" "ACL support" "Filesystem" ["setfacl"]
     (checks "check_acl_support") "" None all_modes;
   MkCheck W "cgroup_v2" "cgroup v2" "Filesystem" []
     (checks "check_cgroup_v2") "" None all_modes;
   MkCheck W "ancestor_traverse" "ancestor traverse" "Filesystem" ["acl_support"]
     (checks_in m "check_ancestor_traverse") "" None all_modes].

Definition chain3 : list (Check W) :=
  [MkCheck W "tooling_plane" "tooling plane" "Repo Integrity" []
     (checks "check_tooling_plane") "" None all_modes;
   MkCheck W "state_dir" "state dir writable" "Repo Integrity" []
     (checks "check_state_dir_writable") "" None all_modes].

Definition chain4 : list (Check W) :=
  [MkCheck W "image_digests" "image digests" "Supply Chain" ["docker_available"]
     (checks_in m "check_image_digests") "" None all_modes].

Definition chain5 : list (Check W) :=
  [MkCheck W "per_user_tree_exists" "per-user tree exists" "Per-User Tree" []
     (checks "check_per_user_tree_exists") "" None all_modes;
   MkCheck W "per_user_tree_mode" "per-user tree mode" "Per-User Tree" ["per_user_tree_exists"]
     (checks "check_per_user_tree_mode") "" None all_modes;
   MkCheck W "legacy_cwd_files" "legacy CWD files" "Per-User Tree" []
     (checks "check_legacy_cwd_files") "" None all_modes;
   MkCheck W "obsolete_host_toml" "obsolete host toml" "Per-User Tree" []
     (checks "check_obsolete_host_toml") "" None all_modes].

Definition chain6 : list (Check W) :=
  [MkCheck W "workspace_bridge_group_exists" "workspace bridge group" "Workspace Bridge" []
     (checks "check_workspace_bridge_group_exists") "" None all_modes;
   MkCheck W "dev_in_workspace_bridge_group" "operator in workspace bridge group" "Workspace Bridge" ["workspace_bridge_group_exists"]
     (checks "check_dev_in_workspace_bridge_group") "" None all_modes;
   MkCheck W "subuid_resolver_works" "subuid resolver" "Workspace Bridge" []
     (checks "check_subuid_resolver_works") "" None all_modes;
   MkCheck W "secrets_hydrated_restrictively" "secrets hydrated restrictively" "Workspace Bridge" []
     (checks "check_secrets_hydrated_restrictively") "" None all_modes;
   MkCheck W "pre_existing_instance_layout" "pre-existing instance layout" "Workspace Bridge" ["subuid_resolver_works"]
     (checks "check_pre_existing_instance_layout") "" None all_modes;
   MkCheck W "backups_disk_pressure" "backups disk pressure" "Workspace Bridge" []
     (checks "check_backups_disk_pressure") "" None all_modes;
   MkCheck W "backups_partial_dirs_present" "backups partial dirs" "Workspace Bridge" []
     (checks "check_backups_partial_dirs_present") "" None all_modes;
   MkCheck W "dev_umask_workspace_friendly" "operator umask workspace-friendly" "Workspace Bridge" []
     (checks "check_dev_umask_workspace_friendly") "" None all_modes;
   MkCheck W "workspace_path_in_walker_boundary" "workspace path in walker boundary" "Workspace Bridge" []
     (checks "check_workspace_path_in_walker_boundary") "" None all_modes;
   MkCheck W "workspace_home_single_filesystem" "workspace home single filesystem" "Workspace Bridge" []
     (checks "check_workspace_home_single_filesystem") "" None all_modes;
   MkCheck W "legacy_sandboxes_dir_detected" "legacy sandboxes dir detected" "Per-User Tree" []
     (checks "check_legacy_sandboxes_dir_detected") "" None all_modes;
   MkCheck W "legacy_workspace_in_user_project_root" "legacy user_project_root field" "Per-User Tree" []
     (checks "check_legacy_workspace_in_user_project_root") "" None all_modes;
   MkCheck W "legacy_registry_shape" "legacy registry shape" "Per-User Tree" []
     (checks "check_legacy_registry_shape") "" None all_modes].

Definition chain6_5 : list (Check W) :=
  [MkCheck W "host_cpu_capacity" "host CPU capacity" "Instance Resources" []
     (checks "check_host_cpu_capacity") "" None all_modes;
   MkCheck W "instance_memory_overcommit" "instance memory over-commit" "Instance Resources" []
     (checks "check_instance_memory_overcommit") "" None all_modes].

Definition chain7 : list (Check W) :=
  [MkCheck W "runsc_pinned_match" "runsc pinned match" "Setup Integrity" []
     (checks_in m "check_runsc_pinned_match") "" None all_modes;
   MkCheck W "dispatcher_sha_drift" "dispatcher sha drift" "Setup Integrity" []
     (checks "check_dispatcher_sha_drift") "" None SEPARATE_USER_ONLY;
   MkCheck W "binary_integrity_posture" "binary integrity posture" "Setup Integrity" []
     (checks "check_binary_integrity_posture") "" None all_modes;
   MkCheck W "setup_invariants" "setup invariants" "Setup Integrity" []
     (checks_in m "check_setup_invariants") "" None all_modes;
   MkCheck W "daemon_owner_sudo" "daemon owner sudo" "Setup Integrity" []
     (checks_in m "check_daemon_owner_sudo") "" None OPERATOR_ROOTLESS_ONLY].

Definition build_check_registry : list (Check W) :=
  (chain1 ++ chain2 ++ chain3 ++ chain4 ++ chain5 ++ chain6 ++ chain6_5 ++ chain7)%list.
End registry.

(** ** The order *)

Section sort.
Context {W : Type}.
Implicit Types (c : Check W).

Definition known_id (checks : list (Check W)) (id : string) : bool :=
  existsb (λ c, String.eqb (check_id c) id) checks.

(** [(dep, id)] for every dependency on a known check, in the loops' order. *)
Definition edges (checks : list (Check W)) : list (string * string) :=
  flat_map (λ c, map (λ dep, (dep, check_id c))
                   (List.filter (known_id checks) (depends_on c))) checks.

Definition adjacency (es : list (string * string)) (dep : string) : list string :=
  map snd (List.filter (λ e, String.eqb (fst e) dep) es).

(** The keys of the dict [in_degree], in insertion order. *)
Definition dict_ids (checks : list (Check W)) : list string :=
  foldl (λ ids c, if bool_decide (check_id c ∈ ids) then ids
                  else (ids ++ [check_id c])%list) [] checks.

Definition add_degree (n : Z) (deg : gmap string Z) (id : string) : gmap string Z :=
  <[id := (default 0 (deg !! id) + n)%Z]> deg.

Definition in_degree (checks : list (Check W)) : gmap string Z :=
  foldl (add_degree 1) ∅ (map snd (edges checks)).

(** The neighbour loop: the degrees and the ids it appends to the queue. *)
Fixpoint relax (neighbors : list string) (deg : gmap string Z) : gmap string Z * list string :=
  match neighbors with
  | [] => (deg, [])
  | n :: neighbors =>
      let deg := add_degree (-1) deg n in
      let '(deg', q) := relax neighbors deg in
      (deg', if bool_decide (default 0%Z (deg !! n) = 0%Z) then n :: q else q)
  end.

Fixpoint sort_loop (fuel : nat) (es : list (string * string)) (deg : gmap string Z)
    (queue : list string) : option (list string) :=
  match queue with
  | [] => Some []
  | current :: queue =>
      match fuel with
      | O => None
      | S fuel =>
          let '(deg, new) := relax (adjacency es current) deg in
          sorted ← sort_loop fuel es deg (queue ++ new)%list;
          Some (current :: sorted)
      end
  end.

(** [id_to_check]: the last check of an id. *)
Definition check_of_id (checks : list (Check W)) (id : string) : option (Check W) :=
  List.find (λ c, String.eqb (check_id c) id) (List.rev checks).

Definition topological_sort (checks : list (Check W)) : option (list (Check W)) :=
  let deg := in_degree checks in
  let queue := List.filter (λ id, bool_decide (default 0%Z (deg !! id) = 0%Z))
                 (dict_ids checks) in
  sorted_ids ← sort_loop (List.length checks) (edges checks) deg queue;
  mapM (check_of_id checks) sorted_ids.
End sort.

(** ** The runner *)

Section run.
Context {W : Type} (user : string) (distro : option string) (m : DockerExecutionMode).
Implicit Types (c : Check W).

Definition skip_result (name detail : string) : CheckResult :=
  MkCheckResult SKIP name detail None None "".

Definition blocks (results : gmap string CheckResult) (mode_skipped : gset string)
    (dep : string) : bool :=
  match results !! dep with
  | None => false
  | Some r => negb (bool_decide (dep ∈ mode_skipped)) &&
              bool_decide (status r = FAILED ∨ status r = SKIP)
  end.

Definition mode_skip_detail : string := "skipped (" +:+ mode_value m +:+ ")".

(** One iteration: the result and whether it is a mode-skip. *)
Definition run_one c (results : gmap string CheckResult) (mode_skipped : gset string)
    : eff W (CheckResult * bool) :=
  if negb (bool_decide (m ∈ applies_in c)) then
    mret (skip_result (check_name c) mode_skip_detail, true)
  else
    match List.filter (blocks results mode_skipped) (depends_on c) with
    | [] => r ← run c user distro; mret (r, false)
    | failed_deps =>
        mret (skip_result (check_name c)
                ("skipped (requires: " +:+ join ", " failed_deps +:+ ")"), false)
    end.

Fixpoint run_loop (ordered : list (Check W)) (results : gmap string CheckResult)
    (mode_skipped : gset string) : eff W (list CheckResult) :=
  match ordered with
  | [] => mret []
  | c :: ordered =>
      '(r, skipped) ← run_one c results mode_skipped;
      output ← run_loop ordered (<[check_id c := r]> results)
                 (if skipped : bool then {[check_id c]} ∪ mode_skipped else mode_skipped);
      mret (r :: output)
  end.

(** [None] is out of fuel. *)
Definition run_checks (checks : list (Check W)) : option (eff W (list CheckResult)) :=
  ordered ← topological_sort checks; Some (run_loop ordered ∅ ∅).

Definition in_subset (categories : list string) (excluded : gset string) c : bool :=
  bool_decide (category c ∈ categories) && negb (bool_decide (check_id c ∈ excluded)).

Definition crosses_subset (subset_ids : list string) (excluded : gset string) c : bool :=
  existsb (λ dep, negb (bool_decide (dep ∈ subset_ids)) && negb (bool_decide (dep ∈ excluded)))
    (depends_on c).

Definition run_check_subset (registry : list (Check W)) (categories : list string)
    (excluded : gset string) : option (eff W (list CheckResult)) :=
  match categories with
  | [] => Some (mret [])
  | _ =>
      let subset := List.filter (in_subset categories excluded) registry in
      if existsb (crosses_subset (map check_id subset) excluded) subset
      then Some (throw ValueError)
      else run_checks subset
  end.
End run.

(** ** Lemmas on the order *)

Section sort_lemmas.

Definition occ (id : string) (l : list string) : Z :=
  Z.of_nat (List.length (filter (λ x, x = id) l)).

(** The edges into [id] from outside [S]: the degree once [S] is placed. *)
Definition pending (es : list (string * string)) (S : list string) (id : string) : Z :=
  Z.of_nat (List.length (filter (λ e, snd e = id ∧ fst e ∉ S) es)).

Lemma occ_cons id x l : occ id (x :: l) = ((if decide (x = id) then 1 else 0) + occ id l)%Z.
Proof. unfold occ. rewrite filter_cons. destruct (decide (x = id)); simpl; lia. Qed.

Lemma occ_pos id l : (0 < occ id l)%Z ↔ id ∈ l.
Proof.
  induction l as [|x l IH].
  - unfold occ. simpl. split; [lia|by intros ?%elem_of_nil].
  - rewrite occ_cons, elem_of_cons. assert (0 <= occ id l)%Z by (unfold occ; lia).
    destruct (decide (x = id)) as [->|]; [split; [by left|lia]|].
    rewrite <- IH. split; [right; lia|]. intros [->|?]; [done|lia].
Qed.

Lemma degree_of_foldl l deg id :
  default 0%Z (foldl (add_degree 1) deg l !! id) = (default 0 (deg !! id) + occ id l)%Z.
Proof.
  revert deg; induction l as [|x l IH]; intros deg; simpl; [unfold occ; simpl; lia|].
  rewrite IH, occ_cons. unfold add_degree. destruct (decide (x = id)) as [->|Hx].
  - rewrite lookup_insert_eq. simpl. lia.
  - rewrite lookup_insert_ne by done. lia.
Qed.

Lemma relax_spec ns deg : (∀ id, occ id ns <= default 0 (deg !! id))%Z →
  let '(deg', new) := relax ns deg in
  (∀ id, default 0 (deg' !! id) = default 0 (deg !! id) - occ id ns)%Z ∧ NoDup new ∧
  ∀ id, id ∈ new ↔ id ∈ ns ∧ default 0%Z (deg !! id) = occ id ns.
Proof.
  revert deg; induction ns as [|n ns IH]; intros deg Hle; cbn [relax].
  { split_and!; [unfold occ; simpl; lia|constructor|set_solver]. }
  assert (∀ id, default 0 (add_degree (-1) deg n !! id) =
    default 0 (deg !! id) - if decide (n = id) then 1 else 0)%Z as Hdeg.
  { intros id. unfold add_degree. destruct (decide (n = id)) as [->|].
    - rewrite lookup_insert_eq. simpl. lia.
    - rewrite lookup_insert_ne by done. lia. }
  specialize (IH (add_degree (-1) deg n)). ospecialize* IH.
  { intros id. specialize (Hle id). rewrite occ_cons in Hle. rewrite Hdeg. lia. }
  destruct (relax ns (add_degree (-1) deg n)) as [deg' q]. destruct IH as (H1 & Hnd & Hin).
  assert (∀ id, 0 <= occ id ns)%Z as Hocc by (unfold occ; lia).
  split_and!.
  - intros id. rewrite H1, Hdeg, occ_cons. lia.
  - case_bool_decide as Ez; [|done]. constructor; [|done]. rewrite Hin.
    intros [Hn%occ_pos He]. lia.
  - intros id. rewrite occ_cons, elem_of_cons.
    assert (id ∈ q ↔ id ∈ ns ∧ (default 0 (deg !! id) =
      (if decide (n = id) then 1 else 0) + occ id ns)%Z) as Hq
      by (rewrite Hin, Hdeg; split; intros [? ?]; split; try done; lia).
    rewrite Hdeg. destruct (decide (n = n)) as [_|]; [|done].
    case_bool_decide as Ez; [rewrite elem_of_cons|]; rewrite Hq;
      (destruct (decide (n = id)) as [<-|Hne]; [|naive_solver]).
    + split; [intros _; split; [by left|]|by left].
      specialize (Hle n). rewrite occ_cons in Hle. destruct (decide (n = n)); [|done].
      specialize (Hocc n). lia.
    + split; [intros [? ?]; auto|]. intros [_ He]. split; [|done].
      apply occ_pos. specialize (Hocc n). lia.
Qed.

Lemma pending_adjacency es S c id : c ∉ S →
  (occ id (adjacency es c) + pending es (S ++ [c])%list id = pending es S id)%Z.
Proof.
  intros Hc. unfold pending, adjacency. induction es as [|[d i] es IH]; [done|].
  rewrite !filter_cons. cbn [List.filter fst snd].
  destruct (String.eqb_spec d c) as [->|Hd]; cbn [map snd]; [rewrite occ_cons|].
  - destruct (decide (i = id ∧ c ∉ (S ++ [c])%list)) as [[_ []]|_]; [set_solver|].
    destruct (decide (i = id)), (decide (i = id ∧ c ∉ S)); cbn [List.length]; try tauto; lia.
  - destruct (decide (i = id ∧ d ∉ (S ++ [c])%list)), (decide (i = id ∧ d ∉ S));
      cbn [List.length]; try lia; set_solver.
Qed.

Lemma pending_zero es S id : pending es S id = 0%Z ↔ ∀ d, (d, id) ∈ es → d ∈ S.
Proof.
  unfold pending. split.
  - intros H d Hd. destruct (decide (d ∈ S)) as [|Hn]; [done|].
    assert (filter (λ e, snd e = id ∧ fst e ∉ S) es = []) as He by (apply nil_length_inv; lia).
    assert ((d, id) ∈ filter (λ e, snd e = id ∧ fst e ∉ S) es) as Hin
      by (by apply list_elem_of_filter).
    rewrite He in Hin. by apply elem_of_nil in Hin.
  - intros H. rewrite filter_none; [done|]. intros [d i] Hd [He Hn]; simpl in *. subst.
    by apply Hn, H.
Qed.
(** What the queue loop yields after [S]: [T] is complete and in order. *)
Definition completes (es : list (string * string)) (ids S T : list string) : Prop :=
  NoDup (S ++ T)%list ∧ (∀ id, id ∈ T → id ∈ ids) ∧
  (∀ id, id ∈ ids → id ∈ (S ++ T)%list ↔ ∀ d, (d, id) ∈ es → d ∈ (S ++ T)%list) ∧
  ∀ i id d, T !! i = Some id → (d, id) ∈ es → d ∈ (S ++ take i T)%list.

Lemma sort_loop_spec fuel es deg queue ids S :
  (∀ e, e ∈ es → snd e ∈ ids) →
  NoDup (S ++ queue)%list → (∀ id, id ∈ (S ++ queue)%list → id ∈ ids) →
  List.length ids <= List.length S + fuel →
  (∀ id, default 0%Z (deg !! id) = pending es S id) →
  (∀ id, id ∈ ids → id ∈ (S ++ queue)%list ↔ pending es S id = 0%Z) →
  ∃ T, sort_loop fuel es deg queue = Some T ∧ completes es ids S T.
Proof.
  intros Hes. revert deg queue S; induction fuel as [|fuel IH];
    intros deg queue S Hnd Hsub Hlen Hdeg Hzero.
  all: destruct queue as [|c queue]; cbn [sort_loop].
  1, 3: exists []; split; [done|]; split_and!; [done|set_solver|..|done];
    intros id Hid; rewrite Hzero, app_nil_r by done; apply pending_zero.
  { exfalso. pose proof (submseteq_length _ _ (NoDup_submseteq _ ids Hnd Hsub)) as Hl.
    rewrite length_app in Hl. simpl in Hl. lia. }
  assert (c ∉ S) as Hc by (apply NoDup_app in Hnd as (_ & Hn & _); set_solver).
  assert (c ∈ ids) as Hcid by (apply Hsub; set_solver).
  assert (pending es S c = 0%Z) as Hc0 by (apply Hzero; set_solver).
  pose proof (pending_adjacency es S c) as Hadj.
  pose proof (relax_spec (adjacency es c) deg) as Hr. ospecialize* Hr.
  { intros id. rewrite Hdeg, <- (Hadj id Hc). unfold pending. lia. }
  destruct (relax (adjacency es c) deg) as [deg' new]. destruct Hr as (Hdeg' & Hnew & Hin).
  assert (∀ id, id ∈ new ↔ id ∈ adjacency es c ∧ pending es (S ++ [c])%list id = 0%Z) as Hin'.
  { intros id. rewrite Hin, Hdeg, <- (Hadj id Hc). split; (intros [? ?]; split; [done|lia]). }
  assert (∀ id, id ∈ new → id ∉ (S ++ c :: queue)%list ∧ id ∈ ids) as Hfresh.
  { intros id [Ha H0]%Hin'. assert (id ∈ ids) as Hid.
    { unfold adjacency in Ha. apply list_elem_of_fmap in Ha as (e & -> & He).
      apply Hes. apply list_elem_of_In in He. apply filter_In in He as [He _].
      by apply list_elem_of_In. }
    split; [|done]. rewrite Hzero by done. apply occ_pos in Ha.
    specialize (Hadj id Hc). lia. }
  destruct (IH deg' (queue ++ new)%list (S ++ [c])%list) as (T & HT & Hnd' & Hsub' & Hin2 & Hord).
  - rewrite <- app_assoc. cbn [app]. rewrite app_comm_cons, app_assoc. apply NoDup_app.
    split_and!; [done| |done]. intros id Hid Hn%Hfresh. tauto.
  - intros id. rewrite <- app_assoc. cbn [app]. rewrite app_comm_cons, app_assoc, elem_of_app.
    intros [?|?%Hfresh]; [auto|tauto].
  - rewrite length_app. simpl. lia.
  - intros id. rewrite Hdeg', Hdeg. specialize (Hadj id Hc). lia.
  - intros id Hid. rewrite <- app_assoc. cbn [app].
    rewrite app_comm_cons, app_assoc, elem_of_app, (Hzero id Hid), Hin'.
    specialize (Hadj id Hc). assert (0 <= occ id (adjacency es c))%Z by (unfold occ; lia).
    assert (0 <= pending es (S ++ [c])%list id)%Z by (unfold pending; lia).
    split; [intros [?|?]; [lia|tauto]|]. intros Hz0.
    destruct (decide (id ∈ adjacency es c)) as [Ha|Ha]; [by right|left].
    assert (¬ (0 < occ id (adjacency es c))%Z) by (by rewrite occ_pos). lia.
  - exists (c :: T). rewrite HT. split; [done|]. rewrite <- app_assoc in Hnd'.
    split_and!; [done|set_solver| |].
    + intros id Hid. specialize (Hin2 id Hid). by rewrite <- !app_assoc in Hin2.
    + intros [|i] id d; cbn [lookup list_lookup take].
      * intros [= ->] Hd. rewrite app_nil_r. by eapply pending_zero.
      * intros Hi Hd. specialize (Hord i id d Hi Hd). by rewrite <- app_assoc in Hord.
Qed.
End sort_lemmas.

(** ** The order is right *)

Section order.
Context {W : Type}.
Implicit Types (c : Check W) (checks : list (Check W)).

(** The check [id] depends on [d], which is a check too. *)
Definition depends checks (d id : string) : Prop :=
  d ∈ map check_id checks ∧ ∃ c, c ∈ checks ∧ check_id c = id ∧ d ∈ depends_on c.

Lemma known_id_spec checks id : known_id checks id = true ↔ id ∈ map check_id checks.
Proof.
  unfold known_id. rewrite existsb_exists, list_elem_of_In, in_map_iff.
  split; intros (c & H1 & H2); exists c; [apply String.eqb_eq in H2; auto|].
  split; [done|by apply String.eqb_eq].
Qed.

Lemma edges_spec checks d id : (d, id) ∈ edges checks ↔ depends checks d id.
Proof.
  unfold edges, depends. rewrite <- known_id_spec, list_elem_of_In, in_flat_map. split.
  - intros (c & Hc%list_elem_of_In & (dep & [= -> <-] & [Hd Hk]%filter_In)%in_map_iff).
    split; [done|]. exists c. split_and!; [done..|by apply list_elem_of_In].
  - intros (Hk & c & Hc & <- & Hd). exists c. split; [by apply list_elem_of_In|].
    apply in_map_iff. exists d. split; [done|]. apply filter_In.
    split; [by apply list_elem_of_In|done].
Qed.

Lemma dict_ids_spec checks :
  NoDup (dict_ids checks) ∧ (∀ id, id ∈ dict_ids checks ↔ id ∈ map check_id checks) ∧
  List.length (dict_ids checks) <= List.length checks.
Proof.
  induction checks as [|c checks IH] using rev_ind.
  { split_and!; [constructor|done|simpl; lia]. }
  unfold dict_ids in *. rewrite foldl_app, map_app, length_app. simpl.
  destruct IH as (Hnd & Hin & Hlen). case_bool_decide as Hc.
  - split_and!; [done| |lia]. intros id. rewrite Hin, elem_of_app, list_elem_of_singleton.
    rewrite Hin in Hc. naive_solver.
  - rewrite length_app. split_and!; [|set_solver|simpl; lia].
    apply NoDup_app. split_and!; [done| |apply NoDup_singleton]. set_solver.
Qed.

Lemma check_of_id_spec checks id : id ∈ map check_id checks →
  ∃ c l1 l2, check_of_id checks id = Some c ∧ check_id c = id ∧
    checks = (l1 ++ c :: l2)%list ∧ id ∉ map check_id l2.
Proof.
  unfold check_of_id. induction checks as [|c checks IH] using rev_ind; [by intros ?%elem_of_nil|].
  rewrite map_app, elem_of_app, rev_app_distr. cbn [List.rev app List.find map].
  destruct (String.eqb_spec (check_id c) id) as [He|He]; intros Hin.
  - exists c, checks, []. split_and!; [done..|apply not_elem_of_nil].
  - destruct IH as (c' & l1 & l2 & Hf & Hid & -> & Hn); [set_solver|].
    exists c', l1, (l2 ++ [c])%list. split_and!; [done..|by rewrite <- app_assoc|].
    rewrite map_app. set_solver.
Qed.

Lemma pending_nil (es : list (string * string)) id : pending es [] id = occ id (map snd es).
Proof.
  unfold pending, occ. f_equal. induction es as [|[d i] es IH]; [done|].
  cbn [map]. rewrite !filter_cons. cbn [fst snd].
  destruct (decide (i = id ∧ d ∉ [])) as [[]|Hn], (decide (i = id)); cbn [List.length];
    [by f_equal|done| |done]. destruct Hn. split; [done|apply not_elem_of_nil].
Qed.

Lemma topological_sort_completes checks : ∃ l, topological_sort checks = Some l ∧
  completes (edges checks) (dict_ids checks) [] (map check_id l) ∧
  ∀ c, c ∈ l → ∃ l1 l2, checks = (l1 ++ c :: l2)%list ∧ check_id c ∉ map check_id l2.
Proof.
  destruct (dict_ids_spec checks) as (Hnd & Hids & Hlen).
  set (queue := List.filter (λ id, bool_decide (default 0%Z (in_degree checks !! id) = 0%Z))
                  (dict_ids checks)).
  assert (∀ id, id ∈ queue ↔ id ∈ dict_ids checks ∧ pending (edges checks) [] id = 0%Z) as Hq.
  { intros id. unfold queue. rewrite list_elem_of_In, filter_In, <- list_elem_of_In.
    rewrite bool_decide_eq_true. unfold in_degree. rewrite degree_of_foldl, lookup_empty.
    by rewrite pending_nil. }
  destruct (sort_loop_spec (List.length checks) (edges checks) (in_degree checks) queue
              (dict_ids checks) []) as (T & HT & Hcomp).
  { intros [d id] (_ & c & Hc & <- & _)%edges_spec. apply Hids.
    cbn [snd]. by apply list_elem_of_In, in_map, list_elem_of_In. }
  { apply NoDup_ListNoDup, List.NoDup_filter, NoDup_ListNoDup, Hnd. }
  { intros id [? _]%Hq. done. }
  { simpl. lia. }
  { intros id. unfold in_degree. by rewrite degree_of_foldl, lookup_empty, pending_nil. }
  { intros id Hid. cbn [app]. rewrite Hq. tauto. }
  assert (∃ l, mapM (check_of_id checks) T = Some l ∧ map check_id l = T ∧
    ∀ c, c ∈ l → ∃ l1 l2, checks = (l1 ++ c :: l2)%list ∧ check_id c ∉ map check_id l2)
    as (l & Hl & Hmap & Hlast).
  { destruct Hcomp as (_ & HTsub & _). clear HT. induction T as [|id T IH].
    { exists []. split_and!; [done..|]. by intros c ?%elem_of_nil. }
    destruct IH as (l & Hl & <- & Hc); [set_solver|].
    destruct (check_of_id_spec checks id) as (c & l1 & l2 & Hf & <- & He & Hn);
      [apply Hids, HTsub; by left|].
    exists (c :: l). cbn [mapM]. rewrite Hf. cbn [mbind option_bind]. rewrite Hl.
    split_and!; [done..|]. intros c' [->|Hc']%elem_of_cons; [by exists l1, l2|by apply Hc]. }
  exists l. unfold topological_sort. fold queue. rewrite HT. cbn [mbind option_bind].
  by rewrite Hmap.
Qed.

Lemma topological_sort_nodup checks : ∃ l, topological_sort checks = Some l ∧
  NoDup (map check_id l).
Proof. destruct (topological_sort_completes checks) as (l & Hl & (Hnd & _) & _). by exists l. Qed.

(** The doctor's order always exists.  It holds each check id at most once,
    as the last check of that id, after every check it depends on; an id is
    missing exactly when it depends on a missing one, so none is when the
    dependencies have no cycle. *)
Theorem topological_sort_spec checks : ∃ l, topological_sort checks = Some l ∧
  NoDup (map check_id l) ∧
  (∀ c, c ∈ l → ∃ l1 l2, checks = (l1 ++ c :: l2)%list ∧ check_id c ∉ map check_id l2) ∧
  (∀ i id d, map check_id l !! i = Some id → depends checks d id →
     d ∈ take i (map check_id l)) ∧
  (∀ id, id ∈ map check_id checks → id ∉ map check_id l ↔
     ∃ d, depends checks d id ∧ d ∉ map check_id l) ∧
  ((∃ rank : string → nat, ∀ d id, depends checks d id → rank d < rank id) →
     ∀ id, id ∈ map check_id checks → id ∈ map check_id l).
Proof.
  destruct (topological_sort_completes checks) as (l & Hl & (Hnd & Hsub & Hin & Hord) & Hlast).
  destruct (dict_ids_spec checks) as (_ & Hids & _). exists l. cbn [app] in *.
  assert (∀ id, id ∈ map check_id checks → id ∈ map check_id l ↔
    ∀ d, depends checks d id → d ∈ map check_id l) as Hcomplete.
  { intros id Hid%Hids. rewrite (Hin id Hid). by setoid_rewrite edges_spec. }
  split_and!; [done..| | |].
  - intros i id d. rewrite <- edges_spec. apply Hord.
  - intros id Hid. rewrite Hcomplete by done. split.
    + intros Hn.
      destruct (decide (Exists (λ e, snd e = id ∧ fst e ∉ map check_id l) (edges checks)))
        as [Hex|Hno].
      * apply Exists_exists in Hex as ([d i] & He%edges_spec & Hi & Hd); simpl in *.
        subst. by exists d.
      * destruct Hn. intros d Hd%edges_spec. apply dec_stable. intros Hd'. apply Hno.
        apply Exists_exists. by exists (d, id).
    + intros (d & Hd & Hn) Hall. by apply Hn, Hall.
  - intros [rank Hrank] id Hid. remember (rank id) as n eqn:Hr. revert id Hid Hr.
    induction (lt_wf n) as [n _ IH]. intros id Hid ->. apply Hcomplete; [done|].
    intros d Hd. eapply IH; [by apply Hrank|apply Hd|done].
Qed.
End order.

(** ** core/doctor through the command line *)

Section cli.
Context {W : Type} (checks : string → string → option string → eff W CheckResult)
  (checks_in : DockerExecutionMode → string → string → option string → eff W CheckResult)
  (user : string) (distro : option string).

Definition MODE_INVARIANT_DOCTOR_CATEGORIES : list string :=
  ["Filesystem"; "Repo Integrity"; "Per-User Tree"].

Definition not_set_up_skips : list CheckResult :=
  map (λ c : Check W, skip_result (check_name c) "not set up yet — run `sudo sandbox setup`")
    (List.filter (λ c, negb (bool_decide (category c ∈ MODE_INVARIANT_DOCTOR_CATEGORIES)))
       (build_check_registry checks checks_in DEFAULT_PROVISIONING_MODE)).

Definition run_unprovisioned_doctor : option (eff W (list CheckResult)) :=
  k ← run_check_subset user distro DEFAULT_PROVISIONING_MODE
        (build_check_registry checks checks_in DEFAULT_PROVISIONING_MODE)
        MODE_INVARIANT_DOCTOR_CATEGORIES ∅;
  Some (r ← k; mret (r ++ not_set_up_skips)%list).
End cli.

(** ** What the runner reports *)

Section rows.
Context {W : Type} (user : string) (distro : option string) (m : DockerExecutionMode).
Implicit Types (c : Check W) (done : list (Check W * CheckResult)).

(** Among the checks [done], [d] applied in the mode and failed or was
    skipped for a dependency. *)
Definition failed_before done (d : string) : Prop :=
  ∃ c r, (c, r) ∈ done ∧ check_id c = d ∧ m ∈ applies_in c ∧
    (status r = FAILED ∨ status r = SKIP).

Inductive check_row c done (w : W) : CheckResult → W → Prop :=
  | row_mode_skip : m ∉ applies_in c →
      check_row c done w (skip_result (check_name c) (mode_skip_detail m)) w
  | row_dependency_skip failed_deps : m ∈ applies_in c → failed_deps ≠ [] →
      (∀ d, d ∈ failed_deps ↔ d ∈ depends_on c ∧ failed_before done d) →
      check_row c done w (skip_result (check_name c)
        ("skipped (requires: " +:+ join ", " failed_deps +:+ ")")) w
  | row_ran r w' : m ∈ applies_in c → (∀ d, d ∈ depends_on c → ¬ failed_before done d) →
      run c user distro w = (Ok r, w') → check_row c done w r w'.

Inductive check_rows : list (Check W * CheckResult) → list (Check W) → W →
    list CheckResult → W → Prop :=
  | check_rows_nil done w : check_rows done [] w [] w
  | check_rows_cons done c cs w r w1 rs w2 :
      check_row c done w r w1 → check_rows (done ++ [(c, r)])%list cs w1 rs w2 →
      check_rows done (c :: cs) w (r :: rs) w2.

(** The dict [results] and the set [mode_skipped] say what [done] says. *)
Definition agrees done (results : gmap string CheckResult) (mode_skipped : gset string) : Prop :=
  ∀ d, blocks results mode_skipped d = true ↔ failed_before done d.

Lemma agrees_snoc done results skipped c r (b : bool) :
  agrees done results skipped → check_id c ∉ map (λ x, check_id (fst x)) done →
  (b = true ↔ m ∉ applies_in c) → (b = true → status r = SKIP) →
  (∀ d, d ∈ skipped → d ∈ map (λ x, check_id (fst x)) done) →
  agrees (done ++ [(c, r)])%list (<[check_id c := r]> results)
    (if b then {[check_id c]} ∪ skipped else skipped).
Proof.
  intros Hag Hnew Hb Hst Hsk d. specialize (Hag d). unfold blocks in *.
  assert (failed_before (done ++ [(c, r)])%list d ↔ failed_before done d ∨
    (check_id c = d ∧ m ∈ applies_in c ∧ (status r = FAILED ∨ status r = SKIP))) as ->.
  { unfold failed_before. split.
    - intros (c' & r' & [Hin|[= -> ->]%list_elem_of_singleton]%elem_of_app & H);
        [left; by exists c', r'|by right].
    - intros [(c' & r' & Hin & H)|H]; [exists c', r'|exists c, r]; (split; [|done]); set_solver. }
  destruct (decide (d = check_id c)) as [->|Hd].
  - rewrite lookup_insert_eq, andb_true_iff, negb_true_iff, bool_decide_eq_false,
      bool_decide_eq_true.
    assert (¬ failed_before done (check_id c)) as Hnf.
    { intros (c' & r' & Hin & He & _). apply Hnew. rewrite <- He.
      by apply list_elem_of_In, (in_map (λ x, check_id (fst x)) done (c', r')), list_elem_of_In. }
    destruct b.
    + split; [intros [Hn _]; destruct Hn; set_solver|].
      intros [?|(_ & ? & _)]; [done|]. by apply Hb in H.
    + assert (check_id c ∉ skipped) by (intros ?; by apply Hnew, Hsk).
      destruct (decide (m ∈ applies_in c)); [tauto|]. by apply Hb in n.
  - rewrite lookup_insert_ne by done.
    rewrite (bool_decide_ext (d ∈ (if b then {[check_id c]} ∪ skipped else skipped))
               (d ∈ skipped)) by (destruct b; set_solver).
    rewrite Hag. naive_solver.
Qed.

Lemma run_loop_rows l done results skipped w :
  agrees done results skipped →
  (∀ d, d ∈ skipped → d ∈ map (λ x, check_id (fst x)) done) →
  NoDup (map (λ x, check_id (fst x)) done ++ map check_id l)%list →
  match run_loop user distro m l results skipped w with
  | (Ok rs, w') => check_rows done l w rs w'
  | (Err e, w') => ∃ c w1, c ∈ l ∧ m ∈ applies_in c ∧ run c user distro w1 = (Err e, w')
  end.
Proof.
  revert done results skipped w; induction l as [|c l IH]; intros done results skipped w Hag Hsk Hnd;
    cbn [run_loop]; [constructor|].
  cbn [map] in Hnd. apply NoDup_app in Hnd as Hnd'. destruct Hnd' as (_ & Hnew & _).
  assert (check_id c ∉ map (λ x, check_id (fst x)) done) as Hc by (intros Hin; apply (Hnew _ Hin); by left).
  assert (∀ r (b : bool) w1, (b = true ↔ m ∉ applies_in c) → (b = true → status r = SKIP) →
    check_row c done w r w1 →
    match (output ← run_loop user distro m l (<[check_id c := r]> results)
             (if b then {[check_id c]} ∪ skipped else skipped); mret (r :: output)) w1 with
    | (Ok rs, w') => check_rows done (c :: l) w rs w'
    | (Err e, w') => ∃ c' w1, c' ∈ c :: l ∧ m ∈ applies_in c' ∧
        run c' user distro w1 = (Err e, w')
    end) as Hnext.
  { intros r b w1 Hb Hst Hrow.
    specialize (IH (done ++ [(c, r)])%list (<[check_id c := r]> results)
                  (if b then {[check_id c]} ∪ skipped else skipped) w1).
    ospecialize* IH.
    - by apply agrees_snoc.
    - intros d. rewrite map_app, elem_of_app. specialize (Hsk d). destruct b; set_solver.
    - rewrite map_app, <- app_assoc. exact Hnd.
    - revert IH. unfold mbind, eff_bind.
      destruct (run_loop _ _ _ l _ _ w1) as [[rs|e] w']; intros IH.
      + cbn. by econstructor.
      + destruct IH as (c' & w2 & Hin & H). exists c', w2. split; [by right|done]. }
  unfold mbind, eff_bind, mret, eff_ret in Hnext |- *.
  unfold run_one, mbind, eff_bind, mret, eff_ret. case_bool_decide as Ha; cbn [negb].
  2: { apply (Hnext _ true); [done|done|by constructor]. }
  destruct (List.filter (blocks results skipped) (depends_on c)) as [|d ds] eqn:Ef.
  - destruct (run c user distro w) as [[r|e] w1] eqn:Er.
    + apply (Hnext r false); [by split|done|]. apply row_ran; [done| |done].
      intros d Hd Hf. apply Hag in Hf.
      eassert (d ∈ List.filter _ _) as Hin by
        (apply list_elem_of_In, filter_In; split; [by apply list_elem_of_In|exact Hf]).
      rewrite Ef in Hin. by apply elem_of_nil in Hin.
    + exists c, w. split; [by left|done].
  - apply (Hnext _ false); [by split|done|]. rewrite <- Ef.
    apply row_dependency_skip; [done|by rewrite Ef|].
    intros d'. rewrite list_elem_of_In, filter_In, <- list_elem_of_In. by rewrite (Hag d').
Qed.
End rows.

Lemma check_rows_length {W} user distro m done (l : list (Check W)) w rs w' :
  check_rows user distro m done l w rs w' → List.length rs = List.length l.
Proof. induction 1; simpl; lia. Qed.

Lemma run_loop_start {W} user distro m (l : list (Check W)) w : NoDup (map check_id l) →
  match run_loop user distro m l ∅ ∅ w with
  | (Ok rs, w') => check_rows user distro m [] l w rs w' ∧ List.length rs = List.length l
  | (Err e, w') => ∃ c w1, c ∈ l ∧ m ∈ applies_in c ∧ run c user distro w1 = (Err e, w')
  end.
Proof.
  intros Hnd. pose proof (run_loop_rows user distro m l [] ∅ ∅ w) as H.
  ospecialize* H; [|by intros d ?%elem_of_empty|done|].
  { intros d. unfold blocks. rewrite lookup_empty. split; [done|].
    by intros (c & r & ?%elem_of_nil & _). }
  destruct (run_loop _ _ _ l ∅ ∅ w) as [[rs|e] w']; [|done].
  split; [done|by apply check_rows_length in H].
Qed.

(** C18: Running the checks always finishes.  Unless a check raises, every
    ordered check has its row: outside the mode it is a skip, never a pass; a
    check with a dependency that applied and failed or was skipped is skipped,
    naming exactly those; any other runs.  An exception is one a check that
    applies raised. *)
Theorem run_checks_spec {W} user distro m (checks : list (Check W)) w :
  ∃ l k, topological_sort checks = Some l ∧ run_checks user distro m checks = Some k ∧
    match k w with
    | (Ok rs, w') => check_rows user distro m [] l w rs w'
    | (Err e, w') => ∃ c w1, c ∈ l ∧ m ∈ applies_in c ∧ run c user distro w1 = (Err e, w')
    end.
Proof.
  destruct (topological_sort_nodup checks) as (l & Hl & Hnd). exists l.
  eexists. split; [done|]. unfold run_checks. rewrite Hl. split; [reflexivity|].
  pose proof (run_loop_start user distro m l w Hnd) as H.
  revert H. destruct (run_loop _ _ _ l ∅ ∅ w) as [[rs|e] w']; [by intros [? _]|done].
Qed.

Section registry_theorems.
Context {W : Type} (checks : string → string → option string → eff W CheckResult)
  (checks_in : DockerExecutionMode → string → string → option string → eff W CheckResult).

Definition subset_of (m : DockerExecutionMode) (cats : list string) (excluded : gset string) :=
  List.filter (in_subset cats excluded) (build_check_registry checks checks_in m).

(** The subset run is the run of the subset: nothing crosses out of it and
    nothing is lost. *)
Definition runs_whole_subset user distro m (cats : list string) (excluded : gset string) : Prop :=
  ∃ l, topological_sort (subset_of m cats excluded) = Some l ∧
    map check_id l ≡ₚ map check_id (subset_of m cats excluded) ∧
    run_check_subset user distro m (build_check_registry checks checks_in m) cats excluded =
      Some (run_loop user distro m l ∅ ∅).

Lemma runs_whole_subset_intro user distro m cats excluded l : cats ≠ [] →
  topological_sort (subset_of m cats excluded) = Some l →
  map check_id l ≡ₚ map check_id (subset_of m cats excluded) →
  existsb (crosses_subset (map check_id (subset_of m cats excluded)) excluded)
    (subset_of m cats excluded) = false →
  runs_whole_subset user distro m cats excluded.
Proof.
  intros Hc Hl Hp Hx. exists l. split_and!; [done..|].
  unfold run_check_subset, run_checks. destruct cats as [|cat cats]; [done|].
  fold (subset_of m (cat :: cats) excluded). by rewrite Hx, Hl.
Qed.

Lemma ids_perm (l l' : list string) :
  bool_decide (NoDup l) = true → bool_decide (NoDup l') = true →
  forallb (λ x, bool_decide (x ∈ l')) l = true → forallb (λ x, bool_decide (x ∈ l)) l' = true →
  l ≡ₚ l'.
Proof.
  rewrite !bool_decide_eq_true, !forallb_forall. intros ?? H1 H2. apply NoDup_Permutation; [done..|].
  intros x. split.
  - intros Hx%list_elem_of_In%H1. by apply bool_decide_eq_true in Hx.
  - intros Hx%list_elem_of_In%H2. by apply bool_decide_eq_true in Hx.
Qed.

(** The registry is well formed in both modes: ids are distinct, every
    dependency is a check of it, and sorting loses none.  The subsets the
    commands ask for (the init pre-flight and the doctor of a host without a
    marker) pass the cross-chain assertion and are run whole. *)
Theorem registry_well_formed user distro m :
  let registry := build_check_registry checks checks_in m in
  NoDup (map check_id registry) ∧
  (∀ c d, c ∈ registry → d ∈ depends_on c → d ∈ map check_id registry) ∧
  (∃ l, topological_sort registry = Some l ∧ map check_id l ≡ₚ map check_id registry) ∧
  runs_whole_subset user distro m ["Filesystem"; "Repo Integrity"] {["ancestor_traverse"]} ∧
  runs_whole_subset user distro m MODE_INVARIANT_DOCTOR_CATEGORIES ∅.
Proof.
  intros registry. split_and!.
  - apply (bool_decide_unpack _). by vm_compute.
  - intros c d Hc Hd. eassert (forallb (λ c, forallb (λ d, bool_decide (d ∈ map check_id registry))
      (depends_on c)) registry = true) as H by (by vm_compute).
    rewrite forallb_forall in H. apply list_elem_of_In in Hc, Hd. specialize (H c Hc).
    rewrite forallb_forall in H. by apply H, bool_decide_eq_true in Hd.
  - eexists. split; [vm_compute; reflexivity|]. apply ids_perm; by vm_compute.
  - eapply runs_whole_subset_intro; [done|vm_compute; reflexivity| |by vm_compute].
    apply ids_perm; by vm_compute.
  - eapply runs_whole_subset_intro; [done|vm_compute; reflexivity| |by vm_compute].
    apply ids_perm; by vm_compute.
Qed.

(** On a host without a marker the doctor reports every check of the registry
    once: the mode-invariant ones as run, the others as skips. *)
Theorem unprovisioned_doctor_covers user distro w :
  ∃ k, run_unprovisioned_doctor checks checks_in user distro = Some k ∧
    match k w with
    | (Ok rs, _) => ∃ rs', rs = (rs' ++ not_set_up_skips checks checks_in)%list ∧
        List.length rs = List.length (build_check_registry checks checks_in DEFAULT_PROVISIONING_MODE)
    | (Err _, _) => True
    end.
Proof.
  unfold run_unprovisioned_doctor.
  edestruct (runs_whole_subset_intro user distro DEFAULT_PROVISIONING_MODE
               MODE_INVARIANT_DOCTOR_CATEGORIES ∅) as (l & Hl & Hp & ->);
    [done|vm_compute; reflexivity|apply ids_perm; by vm_compute|by vm_compute|].
  eexists. split; [reflexivity|]. unfold mbind, eff_bind, mret, eff_ret.
  destruct (topological_sort_nodup (subset_of DEFAULT_PROVISIONING_MODE
              MODE_INVARIANT_DOCTOR_CATEGORIES ∅)) as (l' & Hl' & Hnd).
  rewrite Hl in Hl'. injection Hl' as <-.
  pose proof (run_loop_start user distro DEFAULT_PROVISIONING_MODE l w Hnd) as H.
  revert H. destruct (run_loop _ _ _ l ∅ ∅ w) as [[rs|e] w']; [|done]. intros [_ H].
  exists rs. split; [done|].
  apply Permutation_length in Hp. rewrite !length_map in Hp.
  rewrite length_app, H, Hp. by vm_compute.
Qed.

(** A check whose dependency is excluded from a subset is not skipped:
    without [acl_support], the file-system subset still runs
    [ancestor_traverse], which depends on it. *)
Theorem excluded_dependency_runs user distro m :
  "acl_support" ∈ flat_map depends_on (subset_of m ["Filesystem"] {["acl_support"]}) ∧
  ∃ k, run_check_subset user distro m (build_check_registry checks checks_in m)
         ["Filesystem"] {["acl_support"]} = Some k ∧
    ∀ w, k w = (r1 ← checks "check_setfacl" user distro;
                r2 ← checks "check_cgroup_v2" user distro;
                r3 ← checks_in m "check_ancestor_traverse" user distro;
                mret [r1; r2; r3]) w.
Proof.
  split; [apply (bool_decide_unpack _); by vm_compute|].
  edestruct (runs_whole_subset_intro user distro m ["Filesystem"] {["acl_support"]})
    as (l & Hl & _ & ->); [done|vm_compute; reflexivity| |by vm_compute|].
  { apply ids_perm; by vm_compute. }
  vm_compute in Hl. injection Hl as <-. eexists. split; [reflexivity|]. intros w.
  unfold run_loop, run_one, mbind, eff_bind, mret, eff_ret. cbn [applies_in depends_on run].
  rewrite !bool_decide_eq_true_2 by (destruct m; set_solver). cbn [negb List.filter].
  destruct (checks "check_setfacl" user distro w) as [[r1|e] w1]; [|done].
  destruct (checks "check_cgroup_v2" user distro w1) as [[r2|e] w2]; [|done].
  unfold blocks. rewrite !lookup_insert_ne by done. rewrite lookup_empty.
  by destruct (checks_in m "check_ancestor_traverse" user distro w2) as [[r3|e] w3].
Qed.
End registry_theorems.
