(* ===== verification/PrivilegeBoundary.v ===== *)
(** * core.doctor.checks.privilege_boundary: the boundary checks and the
    preflight gate of start and init

    [probe] is [dispatch.probe] and [which] is [shutil.which]; [run] is
    [subprocess.run] with the captured output; [loads] is [json.loads], [None]
    its [JSONDecodeError]; [set_len] is the length of [set(l)], whose elements
    compare as in Python. *)
From S2P Require Import Prelude PyStr HostConfig Json Executor Images Dispatch Preflight Doctor.
From Stdlib Require Import Ascii String.
Open Scope nat_scope.

Definition MAX_DAEMON_JSON_BYTES : nat := 256 * 1024.
Definition RESERVED_RUNTIME_KEY : string := "sandbox-ai-runsc".
Definition expected_runtime_args : list string := ["--oci-seccomp"; "--ignore-cgroups"].

(** [len(s.encode("utf-8"))] *)
Fixpoint utf8_len (s : string) : nat :=
  match s with
  | "" => 0
  | String c s => (if (code c <? 128)%N then 1 else 2) + utf8_len s
  end.

(** [re.split] on the maximal runs of separators. *)
Fixpoint split_runs (sep : ascii → bool) (cur : string) (in_run : bool) (s : string) : list string :=
  match s with
  | "" => [cur]
  | String c s =>
      if sep c then (if in_run then split_runs sep cur true s else cur :: split_runs sep "" true s)
      else split_runs sep (cur +:+ ch c) false s
  end.

Definition token_sep (c : ascii) : bool :=
  Ascii.eqb c "[" || Ascii.eqb c "]" || is_space c || Ascii.eqb c ",".

Definition security_options_have_rootless (stdout : string) : bool :=
  bool_decide ("name=rootless" ∈ split_runs token_sep "" false stdout).

Definition result_of (st : Status) (name detail : string) (remediation : option string) : CheckResult :=
  MkCheckResult st name detail remediation None "".

Section json.
Context (loads : string → option JsonValue).

(** [_safe_load_json(stdout, dict)] and [_safe_load_json(stdout, list)] *)
Definition safe_load (stdout : string) : option JsonValue :=
  if MAX_DAEMON_JSON_BYTES <? utf8_len stdout then None else loads stdout.
Definition safe_load_dict (stdout : string) : option (gmap string JsonValue) :=
  safe_load stdout ≫= as_obj.
Definition safe_load_list (stdout : string) : option (list JsonValue) :=
  v ← safe_load stdout; match v with JList l => Some l | _ => None end.

(** ** The interpretations of an outcome *)

Definition interpret_machinectl_reachable (outcome : ProbeOutcome) (user : string) : CheckResult :=
  if timed_out outcome then
    result_of FAILED "boundary reachable" "Probe timed out after 10 seconds (likely sudo prompt)"
      (Some ("A timeout usually means a sudo password prompt: the per-op dispatcher " +:+
             "sudoers rule is missing or not passwordless. Separate-user ops cross via " +:+
             "the root-owned dispatcher boundary, authorized by a NOPASSWD Cmnd_Spec that " +:+
             "`sandbox setup` writes to /etc/sudoers.d/ — re-run `sandbox setup` to " +:+
             "(re)install it (it must require no password)."))
  else if negb (ok outcome) then
    result_of FAILED "boundary reachable" ("Shell probe failed: " +:+ message outcome)
      (Some "Ensure systemd-machined is running and the user exists. Check stderr for details.")
  else result_of PASS "boundary reachable" ("Shell probe succeeded for " +:+ user +:+ "@.host") None.

Definition rootless_doc : option string := Some "https://docs.docker.com/engine/security/rootless/".

Definition interpret_docker_available (outcome : ProbeOutcome) (user : string) : CheckResult :=
  if ok outcome && nonempty (strip (stdout outcome)) then
    result_of PASS "Docker available" ("Docker " +:+ strip (stdout outcome)) None
  else MkCheckResult FAILED "Docker available" "Docker not reachable through the dispatcher boundary"
         (Some ("Install Docker in rootless mode for user '" +:+ user +:+ "'")) rootless_doc "".

Definition interpret_docker_rootless (outcome : ProbeOutcome) (user : string) : CheckResult :=
  if ok outcome && security_options_have_rootless (stdout outcome) then
    result_of PASS "Docker rootless" "Rootless mode confirmed" None
  else MkCheckResult FAILED "Docker rootless" "Docker is NOT running in rootless mode"
         (Some ("Rootless Docker is a non-negotiable security boundary. Configure rootless mode for user '"
                +:+ user +:+ "'.")) rootless_doc "".

(** [isinstance(runtimes.get(KEY), dict)] *)
Definition runtime_entry (runtimes : gmap string JsonValue) : option (gmap string JsonValue) :=
  runtimes !! RESERVED_RUNTIME_KEY ≫= as_obj.

Definition interpret_runsc_registered (outcome : ProbeOutcome) : CheckResult :=
  if ok outcome && bool_decide (is_Some (safe_load_dict (strip (stdout outcome)) ≫= runtime_entry)) then
    result_of PASS "gVisor runsc" (RESERVED_RUNTIME_KEY +:+ " runtime registered in Docker") None
  else MkCheckResult FAILED "gVisor runsc" "runsc runtime not registered in Docker"
         (Some "Install gVisor and register the runsc runtime")
         (Some "https://gvisor.dev/docs/user_guide/install/") "".

(** The strings of the entry's [runtimeArgs]; a missing or odd entry has none. *)
Definition runtime_args_of (runtimes : gmap string JsonValue) : list string :=
  match default ∅ (runtime_entry runtimes) !! "runtimeArgs" with
  | Some (JList l) => omap as_str l
  | _ => []
  end.

(** [s.split("=", 1)[0]] *)
Definition flag_of (s : string) : string := (partition_char "=" s).1.1.

Definition runtime_arg_present (expected : string) (runtime_args : list string) : bool :=
  existsb (λ arg, String.eqb arg expected || String.eqb (flag_of arg) (flag_of expected)) runtime_args.

Definition daemon_json_hint (user : string) : string :=
  "Check ~" +:+ user +:+ "/.config/docker/daemon.json".
Definition daemon_query_hint (user : string) : string :=
  "Verify Docker is accessible for user '" +:+ user +:+ "' and check ~" +:+ user +:+
  "/.config/docker/daemon.json".

Definition interpret_runsc_runtimeargs (outcome : ProbeOutcome) (user : string) : CheckResult :=
  let name := "runsc runtimeArgs" in
  if negb (ok outcome) then
    result_of WARN name "Could not query Docker runtimes" (Some (daemon_query_hint user))
  else
    match safe_load_dict (strip (stdout outcome)) with
    | None => result_of WARN name "Could not parse Runtimes JSON" (Some (daemon_json_hint user))
    | Some runtimes =>
        let missing := List.filter (λ exp, negb (runtime_arg_present exp (runtime_args_of runtimes)))
                         expected_runtime_args in
        match missing with
        | [] => result_of PASS name (join ", " expected_runtime_args +:+ " configured") None
        | _ => result_of WARN name ("Missing runtimeArgs: " +:+ join ", " missing)
                 (Some ("Add " +:+ join ", " missing +:+ " to runsc runtimeArgs in ~" +:+ user +:+
                        "/.config/docker/daemon.json"))
        end
    end.

Definition interpret_host_uds (outcome : ProbeOutcome) (user : string) : CheckResult :=
  let name := "--host-uds=none" in
  if negb (ok outcome) then
    result_of WARN name "Could not query Docker runtimes" (Some (daemon_query_hint user))
  else
    match safe_load_dict (strip (stdout outcome)) with
    | None => result_of WARN name "Could not parse Runtimes JSON" (Some (daemon_json_hint user))
    | Some runtimes =>
        if existsb (String.eqb "--host-uds=all") (runtime_args_of runtimes) then
          result_of WARN name "--host-uds=all detected in runsc runtimeArgs"
            (Some ("Remove --host-uds=all from runtimeArgs in ~" +:+ user +:+
                   "/.config/docker/daemon.json (default 'none' is correct)"))
        else result_of PASS name "--host-uds=all not present (default 'none' is active)" None
    end.

(** ** The collision check *)

(** core.doctor.checks.workspace_bridge *)
Definition read_registry_raw (f : json_file) : gmap string JsonValue :=
  match f with JDoc (JObj m) => m | _ => ∅ end.

Definition str_of_nat (n : nat) : string := str_of_Z (Z.of_nat n).

(** [{p.get("Name") for p in projects if isinstance(p, dict)}] without the
    unhashable ones. *)
Definition daemon_names (projects : list JsonValue) : list JsonValue :=
  List.filter (λ v, match v with JObj _ | JList _ => false | _ => true end)
    (omap (λ p, m ← as_obj p; Some (default JNull (m !! "Name"))) projects).

Definition interpret_compose_project_name_collision (set_len : list JsonValue → nat)
    (registry : json_file) (dev_user : string) (outcome : ProbeOutcome) : res CheckResult :=
  let result st detail :=
    MkCheckResult st "compose project name collision" detail None None "Privilege Boundary" in
  let registered := map fst (map_to_list (read_registry_raw registry)) in
  match registered with
  | [] => Ok (result PASS "no registered instances; nothing to check")
  | _ =>
      expected ← res_map (λ name, compose_project_name name dev_user) registered;
      Ok (if timed_out outcome then result SKIP "docker compose ls timed out"
          else if negb (ok outcome) then
            result SKIP ("docker compose ls failed: " +:+ message outcome)
          else
            match safe_load_list (if nonempty (stdout outcome) then stdout outcome else "[]") with
            | None => result SKIP "could not parse docker compose ls output"
            | Some projects =>
                result PASS ("checked " +:+ str_of_nat (set_len (daemon_names projects)) +:+
                  " daemon project(s) against " +:+ str_of_nat (size (list_to_set expected : gset string))
                  +:+ " registered instance(s)")
            end)
  end.

(** What init makes of the bundle's segment, [None] when it is missing. *)
Definition interpret_compose_collision_segment (set_len : list JsonValue → nat)
    (registry : json_file) (dev_user : string) (segment : option ProbeOutcome) : res CheckResult :=
  interpret_compose_project_name_collision set_len registry dev_user
    (default (MkProbe false false "" "preflight compose-ls segment missing from bundle" None) segment).

(** ** The gate and the bundle *)

Record PreflightGate := MkGate {
  reachable : bool;
  reach_outcome : ProbeOutcome;
  per_op : list (string * ProbeOutcome)
}.

Definition segment (per_op : list (string * ProbeOutcome)) (name : string) : res ProbeOutcome :=
  match assoc name per_op with Some o => Ok o | None => Err KeyError end.

Definition evaluate_preflight_gate (outcome : ProbeOutcome) : res PreflightGate :=
  let per_op := parse_preflight_outcome outcome in
  auth ← segment per_op "auth-probe";
  Ok (MkGate (negb (timed_out outcome) && ok outcome && ok auth)
             (if timed_out outcome || negb (ok outcome) then outcome else auth) per_op).

Definition interpret_preflight_bundle (set_len : list JsonValue → nat) (registry : json_file)
    (dev_user : string) (per_op : list (string * ProbeOutcome)) (user : string)
    : res (list CheckResult) :=
  runtimes ← segment per_op "docker-info-runtimes";
  auth ← segment per_op "auth-probe";
  version ← segment per_op "docker-version";
  security ← segment per_op "docker-info-security-options";
  projects ← segment per_op "compose-ls";
  collision ← interpret_compose_project_name_collision set_len registry dev_user projects;
  Ok [interpret_machinectl_reachable auth user; interpret_docker_available version user;
      interpret_docker_rootless security user; interpret_runsc_registered runtimes;
      interpret_runsc_runtimeargs runtimes user; interpret_host_uds runtimes user; collision].
End json.

(** ** The checks

    [W] is what probing changes, such as the journal. *)
Section checks.
Context {W : Type} (which : string → option string) (subprocess_run : list string → Z * string)
  (probe : string → list string → HostConfig → Z → eff W ProbeOutcome).

(** The checks of a binary on the path; [package] is its entry in
    [BINARY_PACKAGES]. *)
Definition check_binary (name binary package : string) (distro : option string) : CheckResult :=
  match which binary with
  | Some path => result_of PASS name ("Found at " +:+ path) None
  | None => result_of FAILED name (binary +:+ " not found on PATH") (Some (get_install_cmd distro package))
  end.
Definition check_sudo (user : string) := check_binary "sudo" "sudo" "sudo".
Definition check_tlog (user : string) := check_binary "tlog" "tlog-rec" "tlog".
Definition check_machinectl (user : string) := check_binary "machinectl" "machinectl" "systemd-container".

Definition check_user_exists (user : string) (distro : option string) : CheckResult :=
  let '(rc, out) := subprocess_run ["id"; user] in
  if (rc =? 0)%Z then result_of PASS "user exists" (strip out) None
  else result_of FAILED "user exists" ("User '" +:+ user +:+ "' not found")
         (Some ("sudo useradd -r -m -s /bin/bash " +:+ user)).

Definition check_systemd_machined (user : string) (distro : option string) : CheckResult :=
  let '(_, out) := subprocess_run ["systemctl"; "is-active"; "systemd-machined"] in
  if String.eqb (strip out) "active" then result_of PASS "systemd-machined" "Service is active" None
  else result_of FAILED "systemd-machined" ("Service state: " +:+ strip out)
         (Some "sudo systemctl enable --now systemd-machined").

(** The checks that cross the boundary. *)
Definition crossing (op : string) (args : list string) (timeout : Z) (user : string)
    (mode : DockerExecutionMode) : eff W ProbeOutcome :=
  c ← lift_res (minimal_host_config user mode); probe op args c timeout.

Definition check_machinectl_reachable user (mode : DockerExecutionMode) : eff W CheckResult :=
  outcome ← crossing "auth-probe" [] 10 user mode; mret (interpret_machinectl_reachable outcome user).
Definition check_docker_available user (mode : DockerExecutionMode) : eff W CheckResult :=
  outcome ← crossing "docker-version" [] 15 user mode; mret (interpret_docker_available outcome user).
Definition check_docker_rootless user (mode : DockerExecutionMode) : eff W CheckResult :=
  outcome ← crossing "docker-info" ["security-options"] 15 user mode;
  mret (interpret_docker_rootless outcome user).
Definition check_runsc_registered (loads : string → option JsonValue) user
    (mode : DockerExecutionMode) : eff W CheckResult :=
  outcome ← crossing "docker-info" ["runtimes"] 15 user mode;
  mret (interpret_runsc_registered loads outcome).
Definition check_runsc_runtimeargs (loads : string → option JsonValue) user
    (mode : DockerExecutionMode) : eff W CheckResult :=
  outcome ← crossing "docker-info" ["runtimes"] 15 user mode;
  mret (interpret_runsc_runtimeargs loads outcome user).
Definition check_host_uds (loads : string → option JsonValue) user
    (mode : DockerExecutionMode) : eff W CheckResult :=
  outcome ← crossing "docker-info" ["runtimes"] 15 user mode;
  mret (interpret_host_uds loads outcome user).
Definition check_compose_project_name_collision (loads : string → option JsonValue)
    (set_len : list JsonValue → nat) (registry : json_file) (dev_user host_user : string)
    (mode : DockerExecutionMode) : eff W CheckResult :=
  outcome ← crossing "compose-ls" [] 15 host_user mode;
  lift_res (interpret_compose_project_name_collision loads set_len registry dev_user outcome).
End checks.

(** ** Lemmas *)

(** Non-empty tokens do not depend on separators at the ends. *)
Lemma split_runs_in_run sep s x : x ≠ "" →
  x ∈ split_runs sep "" true s ↔ x ∈ split_runs sep "" false s.
Proof.
  intros Hx. destruct s as [|c s]; [done|]. cbn [split_runs]. destruct (sep c); [|done].
  rewrite elem_of_cons. naive_solver.
Qed.

Lemma split_runs_lstrip sep p s x : (∀ c, p c = true → sep c = true) → x ≠ "" →
  x ∈ split_runs sep "" false (lstrip_p p s) ↔ x ∈ split_runs sep "" false s.
Proof.
  intros Hp Hx. induction s as [|c s IH]; [done|]. cbn [lstrip_p split_runs].
  destruct (p c) eqn:E; [|done]. rewrite (Hp c E), elem_of_cons, IH, split_runs_in_run by done.
  naive_solver.
Qed.

Lemma split_runs_rstrip sep p cur in_run s x : (∀ c, p c = true → sep c = true) → x ≠ "" →
  (in_run = true → cur = "") →
  x ∈ split_runs sep cur in_run (rstrip_p p s) ↔ x ∈ split_runs sep cur in_run s.
Proof.
  intros Hp Hx. revert cur in_run; induction s as [|c s IH]; intros cur in_run Hcur; [done|].
  cbn [rstrip_p].
  assert (x ∈ split_runs sep cur in_run (String c (rstrip_p p s)) ↔
          x ∈ split_runs sep cur in_run (String c s)) as Hgen.
  { cbn [split_runs]. destruct (sep c) eqn:Es.
    - destruct in_run; [by apply IH|]. rewrite !elem_of_cons, IH by done. done.
    - by apply IH. }
  destruct (rstrip_p p s) eqn:Er; [|exact Hgen].
  destruct (p c) eqn:Ep; [|exact Hgen].
  rewrite <- Hgen. cbn [split_runs]. rewrite (Hp c Ep).
  destruct in_run; [done|]. rewrite !elem_of_cons, elem_of_nil. naive_solver.
Qed.

Lemma rootless_strip s :
  security_options_have_rootless (strip s) = security_options_have_rootless s.
Proof.
  assert (∀ c, is_space c = true → token_sep c = true) as Hs
    by (intros c Hc; unfold token_sep; by rewrite Hc, !orb_true_r).
  apply bool_decide_ext. unfold strip. by rewrite split_runs_rstrip, split_runs_lstrip.
Qed.

Lemma strip_twice s : strip (strip s) = strip s.
Proof.
  assert (∀ p s, rstrip_p p (rstrip_p p s) = rstrip_p p s) as Hr.
  { intros p t; induction t as [|c t IH]; [done|]. cbn [rstrip_p].
    destruct (rstrip_p p t) eqn:E; [destruct (p c) eqn:Ep; [done|]; cbn; by rewrite Ep|].
    cbn [rstrip_p] in *. by rewrite IH. }
  assert (∀ p s, lstrip_p p s = s → lstrip_p p (rstrip_p p s) = rstrip_p p s) as Hl.
  { intros p [|c t]; [done|]. cbn [lstrip_p]. destruct (p c) eqn:Ep.
    - intros H. assert (∀ t, str_len (lstrip_p p t) <= str_len t) as Hlen.
      { clear. intros t; induction t as [|c t IH]; [done|]. cbn [lstrip_p]. unfold str_len in *.
        destruct (p c); simpl; lia. }
      specialize (Hlen t). rewrite H in Hlen. unfold str_len in Hlen. simpl in Hlen. lia.
    - intros _. cbn [rstrip_p]. destruct (rstrip_p p t); rewrite ?Ep; cbn; by rewrite Ep. }
  assert (∀ p s, lstrip_p p (lstrip_p p s) = lstrip_p p s) as Hll.
  { intros p t; induction t as [|c t IH]; [done|]. cbn [lstrip_p].
    destruct (p c) eqn:E; [done|]. cbn. by rewrite E. }
  unfold strip. rewrite Hl; [apply Hr|apply Hll].
Qed.

Lemma parse_preflight_shape outcome : ∃ a v s r c, parse_preflight_outcome outcome =
  [("auth-probe", a); ("docker-version", v); ("docker-info-security-options", s);
   ("docker-info-runtimes", r); ("compose-ls", c)].
Proof.
  assert (map fst (parse_preflight_outcome outcome) = preflight_names) as H.
  { unfold parse_preflight_outcome. destruct (preflight_nonce outcome) as [[|? ?]|];
      rewrite ?parse_queries_names, ?map_map, ?map_id; done. }
  destruct (parse_preflight_outcome outcome) as [|[? ?] [|[? ?] [|[? ?] [|[? ?] [|[? ?] [|? ?]]]]]];
    vm_compute in H; try done.
  injection H as -> -> -> -> ->. by repeat eexists.
Qed.

(** What the seven verdicts need. *)
Definition boundary_ready (loads : string → option JsonValue) (auth version security runtimes : ProbeOutcome)
    : Prop :=
  (timed_out auth = false ∧ ok auth = true) ∧
  (ok version = true ∧ strip (stdout version) ≠ "") ∧
  (ok security = true ∧ "name=rootless" ∈ split_runs token_sep "" false (stdout security)) ∧
  (ok runtimes = true ∧ ∃ m entry, utf8_len (strip (stdout runtimes)) <= MAX_DAEMON_JSON_BYTES ∧
     loads (strip (stdout runtimes)) = Some (JObj m) ∧
     m !! RESERVED_RUNTIME_KEY = Some (JObj entry)).

Lemma reachable_pass o user : status (interpret_machinectl_reachable o user) ≠ FAILED ↔
  timed_out o = false ∧ ok o = true.
Proof. unfold interpret_machinectl_reachable. destruct (timed_out o), (ok o); naive_solver. Qed.

Lemma available_pass o user : status (interpret_docker_available o user) ≠ FAILED ↔
  ok o = true ∧ strip (stdout o) ≠ "".
Proof.
  unfold interpret_docker_available. destruct (ok o), (strip (stdout o)); cbn; naive_solver.
Qed.

Lemma rootless_pass o user : status (interpret_docker_rootless o user) ≠ FAILED ↔
  ok o = true ∧ "name=rootless" ∈ split_runs token_sep "" false (stdout o).
Proof.
  unfold interpret_docker_rootless, security_options_have_rootless.
  destruct (ok o); cbn [andb]; [|naive_solver]. case_bool_decide; naive_solver.
Qed.

Lemma registered_pass loads o : status (interpret_runsc_registered loads o) ≠ FAILED ↔
  ok o = true ∧ ∃ m entry, utf8_len (strip (stdout o)) <= MAX_DAEMON_JSON_BYTES ∧
    loads (strip (stdout o)) = Some (JObj m) ∧ m !! RESERVED_RUNTIME_KEY = Some (JObj entry).
Proof.
  unfold interpret_runsc_registered, safe_load_dict, safe_load, runtime_entry.
  destruct (ok o); cbn [andb]; [|naive_solver].
  destruct (Nat.ltb_spec MAX_DAEMON_JSON_BYTES (utf8_len (strip (stdout o)))) as [Hlt|Hle];
    cbn [mbind option_bind].
  { rewrite bool_decide_false by (by intros []). split; [done|]. intros (_ & ? & ? & ? & _). lia. }
  case_bool_decide as Hs; split; try done; intros H.
  - destruct Hs as [entry Hs]. apply bind_Some in Hs as (m & (v & Hv & Hm)%bind_Some & Hs).
    apply bind_Some in Hs as (w & Hw & He). destruct v; simplify_eq/=. destruct w; simplify_eq/=.
    eauto 10.
  - destruct Hs. destruct H as (_ & m & entry & _ & -> & Hm). cbn. rewrite Hm. by eexists.
Qed.

Lemma collision_status loads set_len reg u o r :
  interpret_compose_project_name_collision loads set_len reg u o = Ok r →
  status r = PASS ∨ status r = SKIP.
Proof.
  unfold interpret_compose_project_name_collision. destruct (map fst _); [intros [= <-]; by left|].
  intros (ex & _ & [= <-])%res_bind_Ok. repeat case_match; simpl; auto.
Qed.

(** ** Properties *)

(** C13: Start's preflight decides exactly on the bundle.  The gate always
    returns; start goes on past it and past the seven verdicts if and only if
    the crossing itself succeeded in time and its segments say: the probe
    succeeded, the daemon has a version, its security options hold the token
    [name=rootless], and its runtimes, within the size limit, hold an object
    under the reserved key.  So a spoofed, oversized or missing segment stops
    it. *)
Theorem preflight_gate_exact loads set_len registry dev_user outcome user : ∃ gate a v s r c,
  evaluate_preflight_gate outcome = Ok gate ∧
  per_op gate = [("auth-probe", a); ("docker-version", v); ("docker-info-security-options", s);
                 ("docker-info-runtimes", r); ("compose-ls", c)] ∧
  per_op gate = parse_preflight_outcome outcome ∧
  ∀ verdicts,
    interpret_preflight_bundle loads set_len registry dev_user (per_op gate) user = Ok verdicts →
    (reachable gate = true ∧ Forall (λ x, status x ≠ FAILED) verdicts) ↔
    (timed_out outcome = false ∧ ok outcome = true ∧ boundary_ready loads a v s r).
Proof.
  destruct (parse_preflight_shape outcome) as (a & v & s & r & c & Hp).
  unfold evaluate_preflight_gate. rewrite Hp. cbn.
  eexists _, a, v, s, r, c. split_and!; [done..|]. cbn [per_op reachable].
  intros verdicts. unfold interpret_preflight_bundle. cbn.
  intros (col & Hcol & [= <-])%res_bind_Ok. apply collision_status in Hcol.
  rewrite !Forall_cons. unfold boundary_ready.
  rewrite reachable_pass, available_pass, rootless_pass, registered_pass.
  assert (status (interpret_runsc_runtimeargs loads r user) ≠ FAILED) as H5
    by (unfold interpret_runsc_runtimeargs; by repeat case_match).
  assert (status (interpret_host_uds loads r user) ≠ FAILED) as H6
    by (unfold interpret_host_uds; by repeat case_match).
  assert (status col ≠ FAILED) as H7 by (by destruct Hcol as [-> | ->]).
  rewrite !andb_true_iff, negb_true_iff. split; [tauto|].
  intros (? & ? & ? & ? & ? & ?). repeat split; try tauto; apply Forall_nil_2 || done.
Qed.

(** One crossing gives the verdicts that separate crossings would.  If the
    five queries end with any statuses and print any whole lines without the
    crossing's nonce, then after a nonce-free banner the bundle's verdicts have
    the statuses of the checks run on each query's own outcome. *)
Theorem preflight_bundle_agrees loads set_len registry dev_user nonce pre msg user
    b0 r0 b1 r1 b2 r2 b3 r3 b4 r4 :
  let parts := [("auth-probe", b0, r0); ("docker-version", b1, r1);
                ("docker-info-security-options", b2, r2); ("docker-info-runtimes", b3, r3);
                ("compose-ls", b4, r4)] in
  let outcome := MkProbe true false (pre +:+ bundle nonce parts) msg (Some nonce) in
  let alone (body : string) (rc : Z) :=
    MkProbe (rc =? 0)%Z false (if (rc =? 0)%Z then body else "") "" None in
  token_ok nonce → Forall (part_ok nonce) parts → contains nonce pre = false → whole_lines pre →
  ∀ gate verdicts collision,
    evaluate_preflight_gate outcome = Ok gate →
    interpret_preflight_bundle loads set_len registry dev_user (per_op gate) user = Ok verdicts →
    interpret_compose_project_name_collision loads set_len registry dev_user (alone b4 r4) =
      Ok collision →
    reachable gate = (r0 =? 0)%Z ∧
    map status (take 6 verdicts) = map status
      [interpret_machinectl_reachable (alone b0 r0) user; interpret_docker_available (alone b1 r1) user;
       interpret_docker_rootless (alone b2 r2) user; interpret_runsc_registered loads (alone b3 r3);
       interpret_runsc_runtimeargs loads (alone b3 r3) user;
       interpret_host_uds loads (alone b3 r3) user] ∧
    (Exists (λ x, status x = FAILED) verdicts ↔
     Exists (λ x, status x = FAILED) (take 6 verdicts ++ [collision])).
Proof.
  intros parts outcome alone Htok Hparts Hpre Hpl gate verdicts col Hg Hv Hc.
  assert (parse_preflight_outcome outcome = map (expected_outcome outcome) parts) as Hp.
  { rewrite (parse_preflight_nonce outcome nonce) by (try done; apply Htok).
    apply (parse_queries_parts outcome nonce parts "" pre); [done|].
    by apply (bundle_markers_once nonce pre parts); try apply preflight_names_nodup. }
  unfold evaluate_preflight_gate in Hg. rewrite Hp in Hg. cbn in Hg. injection Hg as <-.
  cbn [reachable]. unfold interpret_preflight_bundle in Hv. cbn in Hv.
  apply res_bind_Ok in Hv as (col' & Hc' & [= <-]). apply collision_status in Hc, Hc'. split; [done|].
  assert (∀ rc : Z, negb (negb (rc =? 0)%Z) = (rc =? 0)%Z) as Hn by (intros; apply negb_involutive).
  split.
  - cbn [take map]. unfold interpret_machinectl_reachable, interpret_docker_available,
      interpret_docker_rootless, interpret_runsc_registered, interpret_runsc_runtimeargs,
      interpret_host_uds, alone. cbn [ok timed_out stdout outcome message].
    repeat apply (f_equal2 cons); [..|done].
    + by destruct (r0 =? 0)%Z.
    + destruct (r1 =? 0)%Z; [|done]. rewrite strip_twice. by destruct (nonempty (strip b1)).
    + destruct (r2 =? 0)%Z; [|done]. rewrite rootless_strip.
      by destruct (security_options_have_rootless b2).
    + destruct (r3 =? 0)%Z; [|done]. rewrite strip_twice. by destruct (bool_decide _).
    + destruct (r3 =? 0)%Z; [|done]. cbn [negb]. rewrite strip_twice. by repeat case_match.
    + destruct (r3 =? 0)%Z; [|done]. cbn [negb]. rewrite strip_twice. by repeat case_match.
  - cbn [take app]. rewrite !Exists_cons, !Exists_nil.
    assert (status col ≠ FAILED) by (by destruct Hc as [-> | ->]).
    assert (status col' ≠ FAILED) by (by destruct Hc' as [-> | ->]). tauto.
Qed.

(** The collision check never fails: whatever the daemon lists, doctor's check
    and the verdict init takes from the bundle are a pass or a skip, so the
    refusal of a colliding compose project is never reached. *)
Theorem collision_never_refuses {W} (probe : string → list string → HostConfig → Z → eff W ProbeOutcome)
    loads set_len registry dev_user :
  (∀ segment r, interpret_compose_collision_segment loads set_len registry dev_user segment = Ok r →
     status r ≠ FAILED) ∧
  ∀ host_user mode w r w',
    check_compose_project_name_collision probe loads set_len registry dev_user host_user mode w =
      (Ok r, w') → status r ≠ FAILED.
Proof.
  split.
  - unfold interpret_compose_collision_segment. by intros seg r [-> | ->]%collision_status.
  - intros host_user mode w r w'. unfold check_compose_project_name_collision.
    intros (o & w1 & _ & [= H _])%eff_bind_Ok. by apply collision_status in H as [-> | ->].
Qed.

Definition demo_loads (s : string) : option JsonValue :=
  if String.eqb s "R" then
    Some (JObj {[RESERVED_RUNTIME_KEY := JObj {["runtimeArgs" := JList [JStr "--oci-seccomp"]]}]})
  else if String.eqb s "[]" then Some (JList []) else None.

Lemma preflight_bundle_agrees_witness :
  let parts := [("auth-probe", "ok" +:+ NL, 0%Z); ("docker-version", "27.1" +:+ NL, 0%Z);
                ("docker-info-security-options", "[name=seccomp name=rootless]" +:+ NL, 0%Z);
                ("docker-info-runtimes", "R" +:+ NL, 0%Z); ("compose-ls", "", 0%Z)] in
  let outcome := MkProbe true false ("banner" +:+ NL +:+ bundle "c0ffee" parts) "" (Some "c0ffee") in
  ∃ gate verdicts, evaluate_preflight_gate outcome = Ok gate ∧
    interpret_preflight_bundle demo_loads (λ l, List.length l) JMissing "u" (per_op gate) "u" = Ok verdicts ∧
    reachable gate = true ∧ map status verdicts = [PASS; PASS; PASS; PASS; WARN; PASS; PASS].
Proof.
  intros parts outcome. eexists _, _. split; [vm_compute; reflexivity|].
  split; [vm_compute; reflexivity|].
  edestruct (preflight_bundle_agrees demo_loads (λ l, List.length l) JMissing "u" "c0ffee"
    ("banner" +:+ NL) "" "u" ("ok" +:+ NL) 0 ("27.1" +:+ NL) 0 ("[name=seccomp name=rootless]" +:+ NL) 0
    ("R" +:+ NL) 0 "" 0) as (H1 & H2 & _).
  - by split.
  - repeat (apply Forall_cons; split;
      [split_and!; [split_and!|..]; try (by vm_compute); try (by left); by right; eexists|]).
    apply Forall_nil_2.
  - by vm_compute.
  - right. by exists "banner".
  - vm_compute. reflexivity.
  - vm_compute. reflexivity.
  - vm_compute. reflexivity.
  - split; [exact H1|]. vm_compute. reflexivity.
Defined.

(** A daemon that is not rootless stops start. *)
Lemma preflight_gate_exact_witness :
  let outcome := demo_outcome in
  ∃ gate verdicts, evaluate_preflight_gate outcome = Ok gate ∧
    interpret_preflight_bundle demo_loads (λ l, List.length l) JMissing "u" (per_op gate) "u" = Ok verdicts ∧
    ¬ (reachable gate = true ∧ Forall (λ x, status x ≠ FAILED) verdicts).
Proof.
  intros outcome. eexists _, _. split; [vm_compute; reflexivity|].
  split; [vm_compute; reflexivity|].
  destruct (preflight_gate_exact demo_loads (λ l, List.length l) JMissing "u" outcome "u")
    as (gate & a & v & s & r & c & Hg & Hp & Hq & H).
  vm_compute in Hg. injection Hg as <-. edestruct H as [H1 _]; [vm_compute; reflexivity|].
  intros Hall. apply H1 in Hall as (_ & _ & _ & [Hv _] & _). cbn [per_op] in Hp.
  injection Hp as <- <- <- <- <-. vm_compute in Hv. discriminate Hv.
Defined.
