(* ===== verification/Locks.v ===== *)
(** * core.locks: the per-instance backup lock

    The lock file holds what [json.load] makes of it ([json_file]); the kernel
    keeps the [flock] with its holder and drops it when the holder dies.  Times
    are microseconds since the epoch. *)
From S2P Require Import Prelude PyStr Json.
From Stdlib Require Import Ascii String.
Open Scope Z_scope.

Definition STALE_GRACE_SECONDS : Z := 60.

Record lock_state := LockState {
  lk_file : json_file;
  lk_holder : option nat;
  lk_now : Z
}.

Definition set_file (f : json_file) (s : lock_state) : lock_state :=
  LockState f (lk_holder s) (lk_now s).
Definition set_holder (h : option nat) (s : lock_state) : lock_state :=
  LockState (lk_file s) h (lk_now s).

Section locks.
(** [strftime] and [strptime] of the format [%Y-%m-%dT%H:%M:%SZ], on seconds
    since the epoch. *)
Context (strftime : Z → string) (strptime : string → option Z).

Definition read_lock_metadata (f : json_file) : option (gmap string JsonValue) :=
  match f with JDoc (JObj data) => Some data | _ => None end.

Definition is_lock_stale (f : json_file) (now : Z) : bool :=
  match read_lock_metadata f with
  | None => true
  | Some meta =>
      match meta !! "started_at_utc" with
      | Some (JStr started) =>
          match strptime started with
          | None => true
          | Some ts => STALE_GRACE_SECONDS * 1000000 <? now - ts * 1000000
          end
      | _ => true
      end
  end.

(** [fcntl.flock(fd, LOCK_EX | LOCK_NB)] *)
Definition flock_nb (p : nat) : eff lock_state unit := λ s,
  match lk_holder s with
  | Some _ => (Err BlockingIOError, s)
  | None => (Ok tt, set_holder (Some p) s)
  end.

Definition flock_un : eff lock_state unit := λ s, (Ok tt, set_holder None s).

(** An empty file is one that [json.load] rejects. *)
Definition ftruncate : eff lock_state unit := λ s, (Ok tt, set_file JCorrupt s).

(** [os.open(path, O_CREAT | O_RDWR)] *)
Definition open_creat : eff lock_state unit := λ s,
  (Ok tt, match lk_file s with JMissing => set_file JCorrupt s | _ => s end).

Definition lock_metadata (p : nat) (now : Z) : json_file :=
  JDoc (JObj {[ "pid" := JInt (Z.of_nat p);
                "started_at_utc" := JStr (strftime (now / 1000000)) ]}).

Definition write_metadata (p : nat) : eff lock_state unit := λ s,
  (Ok tt, set_file (lock_metadata p (lk_now s)) s).

(** Nothing else runs between [path.exists()] and [os.close]: the race with a
    removal of the file is the branch on [JMissing] too. *)
Definition is_backup_lock_held (p : nat) : eff lock_state bool := λ s,
  match lk_file s with
  | JMissing => (Ok false, s)
  | f =>
      if is_lock_stale f (lk_now s) then (Ok false, s)
      else match flock_nb p s with
           | (Err BlockingIOError, s) => (Ok true, s)
           | (Err e, s) => (Err e, s)
           | (Ok _, s) => (_ ← flock_un; mret false) s
           end
  end.

(** Up to the [yield]. *)
Definition acquire_backup_lock (p : nat) : eff lock_state unit :=
  _ ← open_creat;
  _ ← (λ s, match flock_nb p s with
            | (Err BlockingIOError, s) =>
                if negb (is_lock_stale (lk_file s) (lk_now s)) then (Err BackupLockHeldError, s)
                else (_ ← ftruncate; flock_nb p) s
            | r => r
            end);
  _ ← ftruncate;
  write_metadata p.

(** From the [yield] on, normally or by an exception. *)
Definition release_backup_lock : eff lock_state unit := _ ← ftruncate; flock_un.

(** ** The life of a lock *)

Inductive lock_step : lock_state → lock_state → Prop :=
  | step_acquire s p : lock_step s (snd (acquire_backup_lock p s))
  | step_release s p : lk_holder s = Some p → lock_step s (snd (release_backup_lock s))
  | step_crash s p : lk_holder s = Some p → lock_step s (set_holder None s)
  | step_probe s p : lock_step s (snd (is_backup_lock_held p s))
  | step_time s now : lk_now s <= now → lock_step s (LockState (lk_file s) (lk_holder s) now).

Definition lock_reachable (s : lock_state) : Prop :=
  ∃ now, rtc lock_step (LockState JMissing None now) s.

(** The file is empty, missing, or was written by an acquisition since. *)
Definition lock_ok (s : lock_state) : Prop :=
  match lk_file s with
  | JMissing => lk_holder s = None
  | JCorrupt => True
  | f => ∃ p t, f = lock_metadata p t ∧ t <= lk_now s ∧
           (lk_holder s = None ∨ lk_holder s = Some p)
  end.

Section laws.
Hypothesis strptime_strftime : ∀ t, strptime (strftime t) = Some t.

Lemma stale_metadata p t now :
  is_lock_stale (lock_metadata p t) now =
  (STALE_GRACE_SECONDS * 1000000 <? now - t / 1000000 * 1000000).
Proof.
  unfold is_lock_stale, lock_metadata. cbn [read_lock_metadata].
  rewrite lookup_insert_ne, lookup_singleton_eq by done. by rewrite strptime_strftime.
Qed.

(** What [acquire_backup_lock] does, on any state. *)
Lemma acquire_eq p s :
  acquire_backup_lock p s =
  match lk_holder s with
  | None => (Ok tt, LockState (lock_metadata p (lk_now s)) (Some p) (lk_now s))
  | Some h =>
      let f := match lk_file s with JMissing => JCorrupt | f => f end in
      if is_lock_stale f (lk_now s)
      then (Err BlockingIOError, LockState JCorrupt (Some h) (lk_now s))
      else (Err BackupLockHeldError, LockState f (Some h) (lk_now s))
  end.
Proof.
  destruct s as [f h now]. unfold acquire_backup_lock, open_creat, mbind, eff_bind, flock_nb.
  destruct h as [h|], f; cbn [lk_file lk_holder set_file lk_now]; try reflexivity.
  unfold set_file; cbn [lk_file lk_holder lk_now].
  by destruct (is_lock_stale (JDoc v) now).
Qed.

Lemma held_eq p s :
  is_backup_lock_held p s =
  (Ok (bool_decide (is_Some (lk_holder s)) && negb (is_lock_stale (lk_file s) (lk_now s))), s).
Proof.
  destruct s as [f h now]. unfold is_backup_lock_held. cbn [lk_file lk_now lk_holder].
  destruct f as [| |v]; [by rewrite andb_false_r..|].
  destruct (is_lock_stale (JDoc v) now); [by rewrite andb_false_r|]. by destruct h.
Qed.

Lemma lock_step_ok s s' : lock_step s s' → lock_ok s → lock_ok s'.
Proof.
  intros Hs Hok. unfold lock_ok in *. destruct Hs as [s p|s p Hh|s p Hh|s p|s now Hn].
  - rewrite acquire_eq. destruct (lk_holder s) as [h|] eqn:Eh; cbn [snd].
    + destruct (lk_file s) as [| |v] eqn:Ef; [done|done|].
      destruct (is_lock_stale (JDoc v) (lk_now s)); cbn [snd lk_file]; [done|].
      destruct Hok as (q & t & ? & ? & ?). by exists q, t.
    + cbn [lk_file lk_holder lk_now lock_metadata]. exists p, (lk_now s).
      split_and!; [done|lia|by right].
  - done.
  - cbn [set_holder lk_file lk_holder lk_now]. destruct (lk_file s); [done|done|].
    destruct Hok as (q & t & ? & ? & ?). exists q, t. split_and!; [done..|by left].
  - by rewrite held_eq.
  - cbn [lk_file lk_holder lk_now]. destruct (lk_file s); [done|done|].
    destruct Hok as (q & t & ? & ? & ?). exists q, t. split_and!; [done|lia|done].
Qed.

Lemma lock_reachable_ok s : lock_reachable s → lock_ok s.
Proof.
  intros [now H]. apply (rtc_ind_r (R:=lock_step) lock_ok (LockState JMissing None now)); [done| |done].
  intros s1 s2 _ Hs Hok. by eapply lock_step_ok.
Qed.

(** Acquiring the backup lock never admits a second holder.  It succeeds
    exactly when no process holds the lock and records the new holder; against
    a holder it raises, [BackupLockHeldError] with the file unchanged when the
    metadata is fresh, else [BlockingIOError] with the metadata erased. *)
Theorem acquire_spec p s :
  match acquire_backup_lock p s with
  | (Ok _, s') => lk_holder s = None ∧
      s' = LockState (lock_metadata p (lk_now s)) (Some p) (lk_now s) ∧
      release_backup_lock s' = (Ok tt, LockState JCorrupt None (lk_now s))
  | (Err e, s') => ∃ h, lk_holder s = Some h ∧ lk_holder s' = Some h ∧
      ((e = BackupLockHeldError ∧ is_lock_stale (lk_file s) (lk_now s) = false ∧ s' = s) ∨
       (e = BlockingIOError ∧ is_lock_stale (lk_file s) (lk_now s) = true ∧
        lk_file s' = JCorrupt))
  end.
Proof.
  rewrite acquire_eq. destruct s as [f h now]. cbn [lk_holder lk_file lk_now].
  destruct h as [h|]; [|done].
  destruct f as [| |v]; cbn [is_lock_stale read_lock_metadata];
    [exists h; split_and!; try done; right; done..|].
  destruct (is_lock_stale (JDoc v) now) eqn:E; exists h; split_and!; try done; [right|left]; done.
Qed.

(** In every reachable state the probe changes nothing and answers yes
    exactly when a process holds the lock and took it, by the whole second, at
    most a minute ago with its record intact; so a yes is never wrong. *)
Theorem probe_exact p s : lock_reachable s →
  ∃ b, is_backup_lock_held p s = (Ok b, s) ∧
    (b = true ↔ ∃ h t, lk_holder s = Some h ∧ lk_file s = lock_metadata h t ∧ t <= lk_now s ∧
       lk_now s - t / 1000000 * 1000000 <= STALE_GRACE_SECONDS * 1000000).
Proof.
  intros Hok%lock_reachable_ok. rewrite held_eq. eexists. split; [done|].
  rewrite andb_true_iff, bool_decide_eq_true, negb_true_iff. split.
  - intros [[h Hh] Hst]. unfold lock_ok in Hok. destruct (lk_file s) as [| |v]; [done|done|].
    destruct Hok as (q & t & Hv & Ht & Hq). exists h, t. rewrite Hv in *.
    rewrite stale_metadata in Hst. apply Z.ltb_ge in Hst.
    destruct Hq as [Hq|Hq]; [congruence|]. rewrite Hh in Hq. simplify_eq. done.
  - intros (h & t & Hh & Hf & Ht & Hle). rewrite Hh, Hf, stale_metadata.
    split; [by eexists|]. by apply Z.ltb_ge.
Qed.

(** A backup that runs for more than a minute loses its protection.  The
    lock is held by the live process [p], yet the probe reports it free; and a
    second backup, though it fails, with [BlockingIOError], erases the
    holder's record. *)
Theorem long_backup_reported_free p q now later :
  now + (STALE_GRACE_SECONDS + 1) * 1000000 <= later →
  let s := LockState (lock_metadata p now) (Some p) later in
  lock_reachable s ∧ is_backup_lock_held q s = (Ok false, s) ∧
  acquire_backup_lock q s = (Err BlockingIOError, LockState JCorrupt (Some p) later).
Proof.
  intros Hl s. unfold STALE_GRACE_SECONDS in Hl.
  assert (is_lock_stale (lock_metadata p now) later = true) as Hst.
  { rewrite stale_metadata. apply Z.ltb_lt. unfold STALE_GRACE_SECONDS.
    pose proof (Z.mul_div_le now 1000000). lia. }
  split_and!.
  - exists now. eapply rtc_l; [apply (step_acquire _ p)|]. rewrite acquire_eq. cbn [lk_holder snd].
    apply rtc_once. apply (step_time (LockState (lock_metadata p now) (Some p) now)). simpl. lia.
  - rewrite held_eq. subst s. cbn [lk_file lk_now]. by rewrite Hst, andb_false_r.
  - rewrite acquire_eq. subst s. cbn [lk_file lk_now lk_holder]. unfold lock_metadata in *. by rewrite Hst.
Qed.
End laws.
End locks.

(** ** Witnesses *)

(** Decimal numbers in the place of dates. *)
Definition demo_strftime (t : Z) : string :=
  if t <? 0 then String "-" (str_of_Z (- t)) else str_of_Z t.

Definition demo_strptime (s : string) : option Z :=
  match s with String "-" r => Z.opp <$> py_int r | _ => py_int s end.

Lemma demo_strptime_strftime t : demo_strptime (demo_strftime t) = Some t.
Proof.
  unfold demo_strftime. destruct (Z.ltb_spec t 0) as [Ht|Ht].
  - cbn [demo_strptime]. rewrite py_int_str_of_Z by lia. cbn. f_equal. lia.
  - pose proof (str_of_Z_no_char "-"%char t Ht eq_refl) as Hc.
    rewrite <- (py_int_str_of_Z t Ht). destruct (str_of_Z t) as [|c r]; [done|].
    unfold has_char in Hc. cbn [str_exists] in Hc. apply orb_false_iff in Hc as [Hc _].
    cbn [demo_strptime]. destruct c as [[] [] [] [] [] [] [] []]; done.
Qed.

Lemma probe_exact_witness :
  let s := LockState (lock_metadata demo_strftime 7 0) (Some 7%nat) 0 in
  ∃ b, is_backup_lock_held demo_strptime 9 s = (Ok b, s) ∧
    (b = true ↔ ∃ h t, lk_holder s = Some h ∧ lk_file s = lock_metadata demo_strftime h t ∧
       t <= lk_now s ∧ lk_now s - t / 1000000 * 1000000 <= STALE_GRACE_SECONDS * 1000000).
Proof.
  apply (probe_exact demo_strftime demo_strptime demo_strptime_strftime).
  exists 0. apply rtc_once.
  apply (step_acquire demo_strftime demo_strptime (LockState JMissing None 0) 7).
Defined.

Lemma long_backup_witness :
  let s := LockState (lock_metadata demo_strftime 7 0) (Some 7%nat) 90000000 in
  lock_reachable demo_strftime demo_strptime s ∧
  is_backup_lock_held demo_strptime 9 s = (Ok false, s) ∧
  acquire_backup_lock demo_strftime demo_strptime 9 s =
    (Err BlockingIOError, LockState JCorrupt (Some 7%nat) 90000000).
Proof.
  apply (long_backup_reported_free demo_strftime demo_strptime demo_strptime_strftime 7 9 0).
  vm_compute. discriminate.
Defined.
