(* ===== verification/Journal.v ===== *)
(** * core.journal_audit: the audit record on the wire

    The datagram in systemd's native journal protocol, and a reader of that
    protocol against which its encoding is proved.  The socket is an argument:
    it sends a payload or raises. *)
From S2P Require Import Prelude PyStr Dispatch Invoke.
From Stdlib Require Import Ascii String.
Open Scope nat_scope.

Definition truncate256 (s : string) : string :=
  if 256 <? str_len s then stake 256 s else s.

(** [struct.pack("<Q", n)] of an [n] below [2 ^ 64]. *)
Fixpoint pack_le (bytes : nat) (n : N) : string :=
  match bytes with
  | O => ""
  | S bytes => String (ascii_of_N (n mod 256)) (pack_le bytes (n / 256))
  end.

Definition encode_field (key value : string) : string :=
  if has_char nl value then
    key +:+ ch nl +:+ pack_le 8 (N.of_nat (str_len value)) +:+ value +:+ ch nl
  else key +:+ "=" +:+ value +:+ ch nl.

Fixpoint encode_journal_fields (fields : list (string * string)) : string :=
  match fields with
  | [] => ""
  | (key, value) :: fields => encode_field key value +:+ encode_journal_fields fields
  end.

(** The [fields] dict of [emit_op_audit]. *)
Definition audit_fields (op : string) (args target_argv : list string) (instance : string)
    : list (string * string) :=
  [("MESSAGE", "dispatch " +:+ op +:+ " " +:+ join " " args);
   ("PRIORITY", "6");
   ("SANDBOX_AI_OP", op);
   ("SANDBOX_AI_ARGS_SUMMARY", truncate256 (join "," args));
   ("SANDBOX_AI_TARGET_ARGV_SUMMARY", truncate256 (join " " target_argv));
   ("SANDBOX_AI_INSTANCE", instance)].

(** [send] connects to the journal's socket and sends. *)
Definition emit_op_audit {W} (send : string → eff W unit)
    (op : string) (args target_argv : list string) (instance : string) : eff W unit := λ w,
  match send (encode_journal_fields (audit_fields op args target_argv instance)) w with
  | (Err OSError, w') | (Err FileNotFoundError, w') | (Err BlockingIOError, w') => (Ok tt, w')
  | r => r
  end.

(** ** The reader of the protocol *)

Fixpoint unpack_le (bytes : nat) (s : string) : option (N * string) :=
  match bytes, s with
  | O, _ => Some (0%N, s)
  | S bytes, String c s => '(n, r) ← unpack_le bytes s; Some ((code c + 256 * n)%N, r)
  | S _, "" => None
  end.

Definition take_bytes (n : nat) (s : string) : option (string * string) :=
  if n <=? str_len s then Some (stake n s, sdrop n s) else None.

(** A line with an equals sign is a field; any other is the name of a field
    whose value follows, with its length. *)
Definition read_field (s : string) : option (string * string * string) :=
  let '(line, newline, rest) := partition_char nl s in
  if negb (nonempty newline) then None
  else if has_char "=" line then
    let '(key, _, value) := partition_char "=" line in Some (key, value, rest)
  else
    '(n, rest) ← unpack_le 8 rest;
    '(value, rest) ← take_bytes (N.to_nat n) rest;
    match rest with
    | String c rest => if Ascii.eqb c nl then Some (line, value, rest) else None
    | "" => None
    end.

Fixpoint read_journal (fuel : nat) (s : string) : option (list (string * string)) :=
  match s with
  | "" => Some []
  | _ =>
      match fuel with
      | O => None
      | S fuel =>
          '(key, value, rest) ← read_field s;
          fields ← read_journal fuel rest;
          Some ((key, value) :: fields)
      end
  end.

(** ** The encoding reads back *)

Lemma unpack_pack bytes n s : (n < 256 ^ N.of_nat bytes)%N →
  unpack_le bytes (pack_le bytes n +:+ s) = Some (n, s).
Proof.
  revert n; induction bytes as [|bytes IH]; intros n Hn.
  { simpl in *. by replace n with 0%N by lia. }
  cbn [pack_le unpack_le String.append]. rewrite IH.
  2: { rewrite Nat2N.inj_succ, N.pow_succ_r' in Hn. apply N.Div0.div_lt_upper_bound. lia. }
  cbn [mbind option_bind]. unfold code.
  rewrite N_ascii_embedding by (apply N.mod_lt; lia).
  do 2 f_equal. rewrite N.add_comm. symmetry. apply N.div_mod'.
Qed.

Definition plain_key (key : string) : Prop := has_char "=" key = false ∧ has_char nl key = false.

Lemma read_encode_field key value rest : plain_key key → (N.of_nat (str_len value) < 2 ^ 64)%N →
  read_field (encode_field key value +:+ rest) = Some (key, value, rest).
Proof.
  intros [Heq Hnl] Hlen. unfold encode_field, read_field.
  unfold ch. destruct (has_char nl value) eqn:Ev; rewrite !app_assoc_str; cbn [String.append].
  - rewrite (partition_char_app nl key) by done. cbn [nonempty negb].
    rewrite Heq. rewrite unpack_pack by (exact Hlen). cbn [mbind option_bind].
    unfold take_bytes. rewrite Nat2N.id, str_len_app.
    rewrite (proj2 (Nat.leb_le _ _)) by lia. by rewrite stake_app, sdrop_app.
  - change (String "=" (value +:+ String nl rest)) with (String "=" value +:+ String nl rest).
    rewrite <- app_assoc_str, (partition_char_app nl).
    2: { rewrite has_char_app, Hnl. exact Ev. }
    cbn [nonempty negb]. rewrite has_char_app, Heq. cbn [orb has_char str_exists Ascii.eqb Bool.eqb].
    by rewrite (partition_char_app "=" key).
Qed.

Lemma read_encode fields :
  Forall (λ f, plain_key (fst f) ∧ (N.of_nat (str_len (snd f)) < 2 ^ 64)%N) fields →
  read_journal (List.length fields) (encode_journal_fields fields) = Some fields.
Proof.
  induction 1 as [|[key value] fields [Hk Hv] _ IH]; [done|].
  cbn [encode_journal_fields List.length fst snd] in *.
  assert (∀ r, encode_field key value +:+ r ≠ "") as Hne.
  { intros r Hr. apply (f_equal str_len) in Hr. unfold encode_field in Hr.
    destruct (has_char nl value); rewrite !str_len_app in Hr; simpl in Hr; lia. }
  destruct (encode_field key value +:+ encode_journal_fields fields) eqn:E;
    [by apply Hne in E|]. cbn [read_journal]. rewrite <- E.
  rewrite read_encode_field by done. cbn [mbind option_bind]. by rewrite IH.
Qed.

Lemma truncate256_len s : str_len (truncate256 s) <= 256.
Proof.
  unfold truncate256. destruct (Nat.ltb_spec 256 (str_len s)) as [H|H]; [|done].
  clear H. generalize 256 as n. induction s as [|c s IH]; intros [|n]; simpl; try lia.
  specialize (IH n). unfold str_len in *. lia.
Qed.

(** The audit datagram carries exactly its six fields, whatever the
    arguments hold: a newline or an equals sign in one cannot forge or cut a
    field.  Both summaries are at most 256 bytes, and a journal that cannot
    be reached never fails the operation. *)
Theorem audit_payload_reads_back op args target_argv instance :
  (N.of_nat (str_len (op +:+ join " " args +:+ instance)) < 2 ^ 63)%N →
  let fields := audit_fields op args target_argv instance in
  read_journal 6 (encode_journal_fields fields) = Some fields ∧
  str_len (truncate256 (join "," args)) <= 256 ∧
  str_len (truncate256 (join " " target_argv)) <= 256 ∧
  ∀ W (send : string → eff W unit) w w' e, e = OSError ∨ e = FileNotFoundError →
    send (encode_journal_fields fields) w = (Err e, w') →
    emit_op_audit send op args target_argv instance w = (Ok tt, w').
Proof.
  intros Hlen fields. rewrite !str_len_app in Hlen.
  pose proof (truncate256_len (join "," args)) as H1.
  pose proof (truncate256_len (join " " target_argv)) as H2.
  split_and!; [|done|done|].
  - apply (read_encode fields). unfold fields, audit_fields.
    repeat (apply Forall_cons; split; [split; [by split|]|]); [..|done]; cbn [snd fst].
    all: rewrite ?str_len_app; change (str_len "dispatch ") with 9;
      change (str_len " ") with 1; change (str_len "6") with 1; lia.
  - intros W send w w' e He Hs. unfold emit_op_audit. fold fields. rewrite Hs.
    by destruct He as [-> | ->].
Qed.

Lemma audit_payload_witness :
  let fields := audit_fields "up" ["web"; ch nl +:+ "PRIORITY=0"] ["docker"; "up"] "web" in
  read_journal 6 (encode_journal_fields fields) = Some fields ∧
  str_len (truncate256 (join "," ["web"; ch nl +:+ "PRIORITY=0"])) <= 256 ∧
  str_len (truncate256 (join " " ["docker"; "up"])) <= 256 ∧
  ∀ W (send : string → eff W unit) w w' e, e = OSError ∨ e = FileNotFoundError →
    send (encode_journal_fields fields) w = (Err e, w') →
    emit_op_audit send "up" ["web"; ch nl +:+ "PRIORITY=0"] ["docker"; "up"] "web" w = (Ok tt, w').
Proof.
  exact (audit_payload_reads_back "up" ["web"; ch nl +:+ "PRIORITY=0"] ["docker"; "up"] "web" eq_refl).
Defined.
