(* ===== verification/Backups.v ===== *)
(** * core.workspace_backups: creating, finding and restoring backups

    The file system under [<home>/workspaces/_backups] is a tree, beside which
    the files outside it are kept by the path a link names them with.  rsync,
    the JSON text functions and the version queries are parameters; ownership
    is not part of the tree ([_force_group] changes nothing else).  Opening the
    record follows links, as [open] does: [follow] walks the path one name at a
    time.  A link whose target is absolute, or climbs above the root, leads
    outside.  A symbolic link is never one of the listed directories, and a
    record that is not UTF-8 is not modelled. *)
From S2P Require Import Prelude PyStr Json Locks.
From stdpp Require Import sorting.
From Stdlib Require Import Ascii String Sorted.
Open Scope nat_scope.

Inductive node :=
  | NFile (content : string)
  | NLink (target : string) (to_directory : bool)
  | NDir (entries : gmap string node).

Definition SCHEMA_VERSION : Z := 1.
Definition BACKUP_INFO_FILENAME : string := ".backup-info.json".

(** [^\d{4}-\d{2}-\d{2}-\d{2}-\d{2}-\d{2}$] *)
Definition TIMESTAMP_RE (s : string) : bool :=
  let parts := split_char "-" (dollar_chomp s) in
  bool_decide (map str_len parts = [4; 2; 2; 2; 2; 2]) && forallb (str_forall is_dec) parts.

Record BackupInfo := MkBackupInfo {
  bi_path : list string;
  source_instance : string;
  source_workspace : string;
  timestamp : string;
  size_bytes : Z;
  metadata : gmap string JsonValue
}.

Record BackupFilter := MkBackupFilter {
  filter_instance : option string;
  filter_workspace : option string
}.

(** ** Paths in the tree *)

Fixpoint tget (path : list string) (n : node) : option node :=
  match path with
  | [] => Some n
  | name :: path => match n with NDir es => es !! name ≫= tget path | _ => None end
  end.

(** Put [x] at the path, with the directories that are missing on the way. *)
Fixpoint tput (path : list string) (x n : node) : option node :=
  match path with
  | [] => Some x
  | name :: path =>
      match n with
      | NDir es => c ← tput path x (default (NDir ∅) (es !! name)); Some (NDir (<[name := c]> es))
      | _ => None
      end
  end.

Fixpoint tdel (path : list string) (n : node) : node :=
  match path, n with
  | [name], NDir es => NDir (delete name es)
  | name :: path, NDir es => match es !! name with
                             | Some c => NDir (<[name := tdel path c]> es)
                             | None => n
                             end
  | _, _ => n
  end.

(** [os.makedirs(path, exist_ok=True)] *)
Definition makedirs (path : list string) (root : node) : res node :=
  match tget path root with
  | Some (NDir _) => Ok root
  | Some _ => Err OSError
  | None => match tput path (NDir ∅) root with Some root => Ok root | None => Err OSError end
  end.

(** [os.rename] of a directory: onto a missing or empty one. *)
Definition rename_dir (src dst : list string) (root : node) : res node :=
  match tget src root with
  | None => Err FileNotFoundError
  | Some n =>
      match tget dst root with
      | None => match tput dst n (tdel src root) with Some r => Ok r | None => Err OSError end
      | Some (NDir es) =>
          if bool_decide (es = ∅)
          then match tput dst n (tdel src root) with Some r => Ok r | None => Err OSError end
          else Err OSError
      | Some _ => Err OSError
      end
  end.

(** Total size and number of the files below. *)
Fixpoint tree_size_and_count (n : node) : Z * Z :=
  match n with
  | NFile content => (Z.of_nat (str_len content), 1%Z)
  | NLink target to_directory => if to_directory then (0%Z, 0%Z) else (Z.of_nat (str_len target), 1%Z)
  | NDir es => map_fold (λ _ c acc, let '(s, k) := tree_size_and_count c in
                                    (s + fst acc, k + snd acc)%Z) (0%Z, 0%Z) es
  end.

(** ** The rsync command *)

Definition build_rsync_cmd (source dest_partial : string) (excludes extra_excludes : list string)
    (safe_links use_xattrs : bool) : list string :=
  (["rsync"; "-aHS"] ++
   (if use_xattrs then ["-X"] else []) ++
   ["--no-owner"; "--no-group"; "--chmod=Du+rwx,Dg-s,Dgo-rwx,Fu+rw,Fgo-rwx,Fa-st"] ++
   (if safe_links then ["--safe-links"] else []) ++
   flat_map (λ e, ["--exclude"; e]) excludes ++
   flat_map (λ e, ["--exclude"; e]) extra_excludes ++
   [rstrip_char slash source +:+ "/"; rstrip_char slash dest_partial +:+ "/"])%list.

(** ** Opening a path, with its links *)

(** What a path that [open] walks comes to: a place in the tree, a file outside
    it, or nothing that can be opened. *)
Inductive place :=
  | Inside (path : list string)
  | Outside (path : string)
  | NoPlace.

(** From the directory [here], along the names.  The walk ends after [links]
    symbolic links, as it does in the kernel. *)
Fixpoint follow (links : nat) (root : node) : list string → list string → place :=
  fix walk here names :=
    match names with
    | [] => Inside here
    | name :: names =>
        if negb (nonempty name) || String.eqb name "." then walk here names
        else if String.eqb name ".." then
          match here with [] => Outside (PyStr.join "/" (name :: names)) | _ => walk (removelast here) names end
        else
          let path := (here ++ [name])%list in
          match tget path root with
          | Some (NLink target _) =>
              if startswith "/" target then Outside (PyStr.join "/" (target :: names))
              else match links with
                   | O => NoPlace
                   | S links => follow links root here (split_char slash target ++ names)
                   end
          | Some (NDir _) => walk path names
          | _ => match names with [] => Inside path | _ => NoPlace end
          end
    end.

Definition MAX_LINKS : nat := 40.

Definition open_path (root : node) (dir : list string) (name : string) : place :=
  follow MAX_LINKS root dir [name].

(** The text that is read there: [None] where [open] or the reading raises. *)
Definition read_text (outside : gmap string string) (root : node) (dir : list string) (name : string)
    : option string :=
  match open_path root dir name with
  | Inside path => match tget path root with Some (NFile text) => Some text | _ => None end
  | Outside path => outside !! path
  | NoPlace => None
  end.

Definition partial_name (ts : string) : string := ts +:+ ".partial".

(** A [Path] drops empty and dot components.  A [..] leaves the tree, which is
    not modelled: no entry has that name. *)
Definition pure_path (parts : list string) : list string :=
  List.filter (λ c, nonempty c && negb (String.eqb c ".")) parts.

Definition name_le (x y : string * gmap string node) : Prop :=
  String.compare (fst x) (fst y) ≠ Gt.

#[export] Instance name_le_dec x y : Decision (name_le x y).
Proof. unfold name_le. solve_decision. Defined.

Section backups.
Context (json_loads : string → option JsonValue) (json_dumps : JsonValue → string).

(** ** Listing *)

(** [data if isinstance(data, dict) else {}] of a text, [{}] of none. *)
Definition record_of (text : option string) : gmap string JsonValue :=
  match text ≫= json_loads with Some (JObj data) => data | _ => ∅ end.

Definition read_backup_info (outside : gmap string string) (root : node) (dir : list string)
    : gmap string JsonValue :=
  record_of (read_text outside root dir BACKUP_INFO_FILENAME).

(** [sorted(p for p in d.iterdir() if p.is_dir())] *)
Definition sorted_subdirs (es : gmap string node) : list (string * gmap string node) :=
  merge_sort name_le
    (omap (λ e, match snd e with NDir d => Some (fst e, d) | _ => None end) (map_to_list es)).

(** [filt.field and filt.field != name]: an empty string does not filter. *)
Definition filtered_out (field : option string) (name : string) : bool :=
  match field with
  | Some f => nonempty f && negb (String.eqb f name)
  | None => false
  end.

Definition completed_name (name : string) : bool :=
  negb (endswith ".partial" name) && TIMESTAMP_RE name.

Definition info_at (outside : gmap string string) (root : node) (path : list string)
    (inst ws ts : string) (dir : gmap string node) : BackupInfo :=
  MkBackupInfo path inst ws ts (fst (tree_size_and_count (NDir dir)))
    (read_backup_info outside root path).

Definition backup_info (outside : gmap string string) (root : node) (inst ws ts : string)
    (dir : gmap string node) : BackupInfo :=
  info_at outside root [inst; ws; ts] inst ws ts dir.

Definition root_entries (root : node) : gmap string node :=
  match root with NDir es => es | _ => ∅ end.

(** A root that does not exist is an empty one. *)
Definition list_backups (outside : gmap string string) (filt : BackupFilter) (root : node)
    : list BackupInfo :=
  flat_map (λ i, if filtered_out (filter_instance filt) (fst i) then [] else
    flat_map (λ w, if filtered_out (filter_workspace filt) (fst w) then [] else
      flat_map (λ t, if completed_name (fst t)
                     then [backup_info outside root (fst i) (fst w) (fst t) (snd t)] else [])
        (sorted_subdirs (snd w)))
      (sorted_subdirs (snd i)))
    (sorted_subdirs (root_entries root)).

Definition resolve_backup_spec (outside : gmap string string) (spec : option string)
    (dest_ws_name : string) (root : node) : res BackupInfo :=
  match spec with
  | None =>
      let candidates := list_backups outside (MkBackupFilter None (Some dest_ws_name)) root in
      match last candidates with
      | None => Err BackupSpecNotFoundError
      | Some latest =>
          if (1 <? size (list_to_set (map source_instance candidates) : gset string))
          then Err BackupSpecAmbiguousError else Ok latest
      end
  | Some spec =>
      match split_char slash spec with
      | [src_inst; src_ws] =>
          match last (list_backups outside (MkBackupFilter (Some src_inst) (Some src_ws)) root) with
          | None => Err BackupSpecNotFoundError
          | Some latest => Ok latest
          end
      | [src_inst; src_ws; ts] =>
          if negb (TIMESTAMP_RE ts) then Err BackupSpecNotFoundError
          else let target := pure_path [src_inst; src_ws; ts] in
               match tget target root with
               | Some (NDir dir) => Ok (info_at outside root target src_inst src_ws ts dir)
               | _ => Err BackupSpecNotFoundError
               end
      | _ => Err BackupSpecNotFoundError
      end
  end.

(** ** Creating *)

(** What the host adds: the real path of the source and its tree, the unsafe
    links under it, what rsync can do and its version, the package's version,
    which files outside the tree can be written, and rsync itself, from the command, the source and what the destination
    held to whether it succeeded and what the destination holds then. *)
Record backup_env := BackupEnv {
  be_realpath : string;
  be_source : option node;
  be_unsafe_links : nat;
  be_xattrs : bool;
  be_rsync_version : string;
  be_package_version : string;
  be_root_path : string;
  be_writable : string → bool;
  be_rsync : list string → node → gmap string node → bool * gmap string node
}.

Record backup_state := BackupState {
  bs_root : node;
  bs_outside : gmap string string;
  bs_lock : lock_state
}.

Definition on_root {A} (f : node → res (A * node)) : eff backup_state A := λ s,
  match f (bs_root s) with
  | Ok (a, root) => (Ok a, BackupState root (bs_outside s) (bs_lock s))
  | Err e => (Err e, s)
  end.

Definition on_lock {A} (m : eff lock_state A) : eff backup_state A := λ s,
  let '(r, l) := m (bs_lock s) in (r, BackupState (bs_root s) (bs_outside s) l).

Definition seen {A} (f : backup_state → A) : eff backup_state A := λ s, (Ok (f s), s).

Definition backup_payload (env : backup_env) (inst ws mode created_at : string)
    (excludes : list string) (bytes files : Z) : JsonValue :=
  JObj (list_to_map [
    ("schema_version", JInt SCHEMA_VERSION);
    ("source_instance", JStr inst);
    ("source_workspace", JStr ws);
    ("source_bootstrap_mode", JStr mode);
    ("source_path", JStr (be_realpath env));
    ("created_at_utc", JStr created_at);
    ("size_bytes", JInt bytes);
    ("file_count", JInt files);
    ("sandbox_ai_version", JStr (be_package_version env));
    ("rsync_excludes_applied", JList (map JStr excludes));
    ("stripped_unsafe_links_count", JInt (Z.of_nat (be_unsafe_links env)));
    ("tooling", JObj (list_to_map [
      ("rsync_version", JStr (be_rsync_version env));
      ("rsync_xattrs_supported", JBool (be_xattrs env))]))]).

(** [open(out, "w")] follows a link at the name of the record: its target is
    written, the link stays. *)
Definition write_backup_info (env : backup_env) (dir : list string) (text : string)
    : eff backup_state unit := λ s,
  match open_path (bs_root s) dir BACKUP_INFO_FILENAME with
  | Inside path =>
      match tget path (bs_root s), tput path (NFile text) (bs_root s) with
      | Some (NDir _), _ | _, None => (Err OSError, s)
      | _, Some root => (Ok tt, BackupState root (bs_outside s) (bs_lock s))
      end
  | Outside path =>
      if be_writable env path
      then (Ok tt, BackupState (bs_root s) (<[path := text]> (bs_outside s)) (bs_lock s))
      else (Err OSError, s)
  | NoPlace => (Err OSError, s)
  end.

(** The body under the lock: its size on success. *)
Definition do_backup (env : backup_env) (src : node) (inst ws ts mode created_at : string)
    (excludes extra_excludes : list string) : eff backup_state Z :=
  let partial := [inst; ws; partial_name ts] in
  let cmd := build_rsync_cmd (be_realpath env)
               (PyStr.join "/" (be_root_path env :: partial)%list) excludes extra_excludes
               (0 <? be_unsafe_links env) (be_xattrs env) in
  _ ← on_root (λ root, root ← makedirs partial root; Ok (tt, root));
  copied ← on_root (λ root,
    match tget partial root with
    | Some (NDir dest) =>
        let '(ok, dest) := be_rsync env cmd src dest in
        match tput partial (NDir dest) root with
        | Some root => Ok (ok, root)
        | None => Err OSError
        end
    | _ => Err OSError
    end);
  if copied : bool then
    sizes ← on_root (λ root,
      match tget partial root with
      | Some (NDir dest) => Ok (tree_size_and_count (NDir dest), root)
      | _ => Err OSError
      end);
    _ ← write_backup_info env partial (json_dumps (backup_payload env inst ws mode created_at
                                                     excludes sizes.1 sizes.2));
    _ ← on_root (λ root, root ← rename_dir partial [inst; ws; ts] root; Ok (tt, root));
    mret sizes.1
  else throw BackupRsyncError.

(** [ts] and [created_at] are the time in the two formats; [strftime] and
    [strptime] are those of the lock's metadata, [p] the process. *)
Definition create_backup (strftime : Z → string) (strptime : string → option Z) (p : nat)
    (env : backup_env) (inst ws ts mode created_at : string)
    (excludes extra_excludes : list string) (acquire_lock : bool) : eff backup_state BackupInfo :=
  match be_source env with
  | Some (NDir _ as src) =>
      _ ← on_root (λ root, root ← makedirs [inst; ws] root; Ok (tt, root));
      let body := do_backup env src inst ws ts mode created_at excludes extra_excludes in
      bytes ← (if acquire_lock then
                 _ ← on_lock (acquire_backup_lock strftime strptime p);
                 finally body (λ s, snd (on_lock release_backup_lock s))
               else body);
      seen (λ s, MkBackupInfo [inst; ws; ts] inst ws ts bytes
                   (read_backup_info (bs_outside s) (bs_root s) [inst; ws; ts]))
  | _ => throw BackupPathError
  end.

(** ** Restoring *)

(** [copytree] with [_ignore_backup_info], which is asked in every directory. *)
Fixpoint copy_without_info (n : node) : node :=
  match n with
  | NDir es => NDir (delete BACKUP_INFO_FILENAME (copy_without_info <$> es))
  | _ => n
  end.

(** On the tree of [<home>/workspaces], where the destination goes. *)
Definition restore_backup (backup : node) (dest_inst dest_ws : string) (workspaces : node)
    : res node :=
  match tget [dest_inst; dest_ws] workspaces with
  | Some _ => Err BackupPathError
  | None =>
      workspaces ← makedirs [dest_inst] workspaces;
      match tput [dest_inst; dest_ws] (copy_without_info backup) workspaces with
      | Some workspaces => Ok workspaces
      | None => Err OSError
      end
  end.
End backups.

(** ** Lemmas on the tree *)

Fixpoint height (n : node) : nat :=
  match n with
  | NDir es => S (map_fold (λ _ c h, Nat.max (height c) h) 0 es)
  | _ => 0
  end.

Lemma height_child es name c : es !! name = Some c → height c < height (NDir es).
Proof.
  intros Hc. cbn [height]. rewrite <- (insert_delete_id es name c Hc).
  rewrite map_fold_insert_L; [lia|intros; lia|apply lookup_delete_eq].
Qed.

Lemma tget_app p q n : tget (p ++ q)%list n = tget p n ≫= tget q.
Proof.
  revert n; induction p as [|name p IH]; intros n; [done|].
  cbn [app tget]. destruct n as [| |es]; [done|done|]. by destruct (es !! name); cbn.
Qed.

Lemma tput_get p x n n' : tput p x n = Some n' → tget p n' = Some x.
Proof.
  revert n n'; induction p as [|name p IH]; intros n n'; cbn [tput tget]; [by intros [= ->]|].
  destruct n as [| |es]; [done|done|].
  destruct (tput p x _) as [c|] eqn:Ec; [|done]. cbn. intros [= <-].
  rewrite lookup_insert_eq. cbn. by eapply IH.
Qed.

(** A path that leaves [p] before its end is not changed. *)
Lemma tput_other p q x n n' : tput p x n = Some n' →
  ¬ p `prefix_of` q → ¬ q `prefix_of` p → tget q n' = tget q n.
Proof.
  revert q n n'; induction p as [|name p IH]; intros q n n'; [intros _ []; apply prefix_nil|].
  destruct q as [|name' q]; [intros _ _ []; apply prefix_nil|]. cbn [tput tget].
  destruct n as [| |es]; [done|done|].
  destruct (tput p x _) as [c|] eqn:Ec; [|done]. cbn. intros [= <-] Hp Hq.
  destruct (decide (name' = name)) as [->|Hne]; [|by rewrite lookup_insert_ne].
  rewrite lookup_insert_eq. cbn.
  rewrite (IH q _ _ Ec); [|by intros H; apply Hp, prefix_cons|by intros H; apply Hq, prefix_cons].
  destruct (es !! name) as [c'|]; [done|]. cbn.
  destruct q as [|? q]; [destruct Hq; apply prefix_cons, prefix_nil|]. cbn.
  by rewrite lookup_empty.
Qed.

Lemma tdel_other p q n : ¬ p `prefix_of` q → ¬ q `prefix_of` p → tget q (tdel p n) = tget q n.
Proof.
  revert q n; induction p as [|name p IH]; intros q n; [intros []; apply prefix_nil|].
  destruct q as [|name' q]; [intros _ []; apply prefix_nil|]. intros Hp Hq.
  destruct n as [| |es]; [by destruct p..|]. destruct p as [|name2 p]; cbn [tdel tget].
  - destruct (decide (name' = name)) as [->|Hne]; [|by rewrite lookup_delete_ne].
    destruct Hp. apply prefix_cons, prefix_nil.
  - destruct (es !! name) as [c|] eqn:Ec; [|done]. cbn [tget].
    destruct (decide (name' = name)) as [->|Hne]; [|by rewrite lookup_insert_ne].
    rewrite lookup_insert_eq, Ec. cbn [mbind option_bind]. apply IH.
    + by intros H; apply Hp, prefix_cons.
    + by intros H; apply Hq, prefix_cons.
Qed.

Lemma prefix_same_length {A} (p q : list A) :
  List.length p = List.length q → p `prefix_of` q → p = q.
Proof. intros Hl [r ->]. rewrite length_app in Hl. destruct r; [by rewrite app_nil_r|simpl in Hl; lia]. Qed.

(** Making directories brings no third-level entry but the one that is made. *)
Lemma makedirs_get p q root root' : makedirs p root = Ok root' → List.length q = 3 →
  List.length p <= 3 → p ≠ q → tget q root' = tget q root.
Proof.
  unfold makedirs. intros Hm Hq Hp Hne.
  destruct (tget p root) as [[| |es]|] eqn:Eg; try done; [by injection Hm as ->|].
  destruct (tput p (NDir ∅) root) as [r|] eqn:Ep; [|done]. injection Hm as ->.
  destruct (decide (p `prefix_of` q)) as [[r ->]|Hpq].
  - rewrite !tget_app, (tput_get _ _ _ _ Ep), Eg. cbn.
    destruct r as [|name r]; [by rewrite app_nil_r in Hne|]. cbn. by rewrite lookup_empty.
  - apply (tput_other p q _ _ _ Ep Hpq). intros Hqp.
    assert (q = p) as ->; [|done]. apply prefix_same_length; [|done].
    apply prefix_length in Hqp. lia.
Qed.

(** ** Lemmas on listing *)

Definition name_lt (x y : string * gmap string node) : Prop :=
  String.compare (fst x) (fst y) = Lt.

Lemma elem_of_sorted_subdirs es name d :
  (name, d) ∈ sorted_subdirs es ↔ es !! name = Some (NDir d).
Proof.
  unfold sorted_subdirs. rewrite merge_sort_Permutation, list_elem_of_omap. split.
  - intros ([k [| |d']] & Hin & [= -> ->]). by apply elem_of_map_to_list in Hin.
  - intros H. exists (name, NDir d). split; [by apply elem_of_map_to_list|done].
Qed.

#[export] Instance name_le_total : Total name_le.
Proof.
  intros x y. unfold name_le. destruct (String.compare (fst x) (fst y)) eqn:E; [by left..|].
  right. apply str_compare_gt in E. by rewrite E.
Qed.

#[export] Instance name_le_trans : Transitive name_le.
Proof.
  intros x y z. unfold name_le.
  destruct (String.compare (fst x) (fst y)) eqn:E1; [|intros _|done].
  { apply String.compare_eq_iff in E1. by rewrite E1. }
  destruct (String.compare (fst y) (fst z)) eqn:E2; [|intros _|done].
  { apply String.compare_eq_iff in E2. by rewrite <- E2, E1. }
  by rewrite (str_compare_trans _ _ _ E1 E2).
Qed.

Lemma subdirs_names_nodup (l : list (string * node)) : NoDup (map fst l) →
  NoDup (map fst (omap (λ e, match snd e with NDir d => Some (fst e, d) | _ => None end) l)).
Proof.
  induction l as [|[k n] l IH]; [done|]. cbn [map fst]. intros [Hk Hl]%NoDup_cons.
  cbn [omap list_omap snd fst]. destruct n as [| |d]; [by apply IH..|].
  cbn [map fst]. constructor; [|by apply IH].
  intros ([k' d'] & -> & ([k2 n2] & Hin & He)%list_elem_of_omap)%list_elem_of_fmap.
  cbn [fst snd] in *. destruct n2; try done. injection He as -> ->. apply Hk.
  apply list_elem_of_fmap. by exists (k', NDir d').
Qed.

Lemma sorted_subdirs_sorted es : StronglySorted name_lt (sorted_subdirs es).
Proof.
  assert (NoDup (map fst (sorted_subdirs es))) as Hnd.
  { unfold sorted_subdirs. rewrite merge_sort_Permutation.
    apply subdirs_names_nodup, NoDup_fst_map_to_list. }
  pose proof (StronglySorted_merge_sort name_le
    (omap (λ e, match snd e with NDir d => Some (fst e, d) | _ => None end) (map_to_list es))) as Hs.
  fold (sorted_subdirs es) in Hs. induction Hs as [|x l Hs IH Hall]; constructor;
    cbn [map] in Hnd; apply NoDup_cons in Hnd as [Hx Hnd]; [by apply IH|].
  rewrite Forall_forall in Hall |- *. intros y Hy. specialize (Hall y Hy).
  unfold name_le in Hall. unfold name_lt.
  destruct (String.compare (fst x) (fst y)) eqn:E; [|done|done].
  apply String.compare_eq_iff in E. destruct Hx. rewrite E.
  by apply list_elem_of_In, in_map, list_elem_of_In.
Qed.

Lemma flat_map_sorted {A B} (key : A → A → Prop) (R : B → B → Prop) (f : A → list B) l :
  StronglySorted key l → (∀ x, x ∈ l → StronglySorted R (f x)) →
  (∀ x y a b, key x y → a ∈ f x → b ∈ f y → R a b) → StronglySorted R (flat_map f l).
Proof.
  intros Hl Hf Hk. induction Hl as [|x l Hs IH Hall]; cbn [flat_map]; [constructor|].
  apply StronglySorted_app. split_and!.
  - intros a b Ha (y & Hy%list_elem_of_In & Hb%list_elem_of_In)%list_elem_of_In%in_flat_map.
    rewrite Forall_forall in Hall. by eapply Hk; [apply Hall|..].
  - apply Hf. by left.
  - apply IH. intros y Hy. apply Hf. by right.
Qed.

Lemma elem_of_flat_map {A B} (f : A → list B) l b : b ∈ flat_map f l ↔ ∃ x, x ∈ l ∧ b ∈ f x.
Proof.
  rewrite list_elem_of_In, in_flat_map. split; intros (x & H1 & H2); exists x;
    by (split; apply list_elem_of_In).
Qed.

Section listing.
Context (json_loads : string → option JsonValue) (outside : gmap string string).
Implicit Types (filt : BackupFilter) (root : node).

(** A finished backup in the tree. *)
Definition completed root (inst ws ts : string) (d : gmap string node) : Prop :=
  tget [inst; ws; ts] root = Some (NDir d) ∧ completed_name ts = true.

Lemma tget_3 root inst ws ts d : tget [inst; ws; ts] root = Some (NDir d) ↔
  ∃ ies wes, root_entries root !! inst = Some (NDir ies) ∧ ies !! ws = Some (NDir wes) ∧
    wes !! ts = Some (NDir d).
Proof.
  cbn [tget]. split.
  - destruct root as [| |es]; [done|done|]. cbn [root_entries].
    destruct (es !! inst) as [[| |ies]|]; try done. cbn.
    destruct (ies !! ws) as [[| |wes]|] eqn:E; try done. cbn.
    destruct (wes !! ts) as [n|] eqn:E2; [|done]. intros [= ->]. by exists ies, wes.
  - intros (ies & wes & H1 & H2 & H3). destruct root as [| |es]; [done|done|].
    cbn [root_entries] in H1. rewrite H1. cbn. rewrite H2. cbn. by rewrite H3.
Qed.

Lemma elem_of_list_backups filt root b : b ∈ list_backups json_loads outside filt root ↔
  ∃ inst ws ts d, completed root inst ws ts d ∧
    filtered_out (filter_instance filt) inst = false ∧
    filtered_out (filter_workspace filt) ws = false ∧
    b = backup_info json_loads outside root inst ws ts d.
Proof.
  unfold list_backups, completed. rewrite elem_of_flat_map. split.
  - intros ([inst ies] & Hi%elem_of_sorted_subdirs & Hb). cbn [fst snd] in Hb.
    destruct (filtered_out _ inst) eqn:Ei; [by apply elem_of_nil in Hb|].
    apply elem_of_flat_map in Hb as ([ws wes] & Hw%elem_of_sorted_subdirs & Hb). cbn [fst snd] in Hb.
    destruct (filtered_out _ ws) eqn:Ew; [by apply elem_of_nil in Hb|].
    apply elem_of_flat_map in Hb as ([ts d] & Ht%elem_of_sorted_subdirs & Hb). cbn [fst snd] in Hb.
    destruct (completed_name ts) eqn:Ec; [|by apply elem_of_nil in Hb].
    apply list_elem_of_singleton in Hb as ->. exists inst, ws, ts, d. rewrite tget_3.
    split_and!; [by exists ies, wes|done..].
  - intros (inst & ws & ts & d & [(ies & wes & Hi & Hw & Ht)%tget_3 Hc] & Ei & Ew & ->).
    exists (inst, ies). split; [by apply elem_of_sorted_subdirs|]. cbn [fst snd]. rewrite Ei.
    apply elem_of_flat_map. exists (ws, wes). split; [by apply elem_of_sorted_subdirs|].
    cbn [fst snd]. rewrite Ew. apply elem_of_flat_map. exists (ts, d).
    split; [by apply elem_of_sorted_subdirs|]. cbn [fst snd]. rewrite Hc.
    by apply list_elem_of_singleton.
Qed.

(** By instance, then workspace, then time. *)
Definition listed_before (a b : BackupInfo) : Prop :=
  String.compare (source_instance a) (source_instance b) = Lt ∨
  (source_instance a = source_instance b ∧
   (String.compare (source_workspace a) (source_workspace b) = Lt ∨
    (source_workspace a = source_workspace b ∧
     String.compare (timestamp a) (timestamp b) = Lt))).

Lemma workspace_chunk filt root x inst ws (es : gmap string node) :
  x ∈ (if filtered_out (filter_workspace filt) ws then [] else
       flat_map (λ t, if completed_name (fst t)
         then [backup_info json_loads outside root inst ws (fst t) (snd t)] else []) (sorted_subdirs es)) →
  source_instance x = inst ∧ source_workspace x = ws.
Proof.
  destruct (filtered_out _ ws); [by intros ?%elem_of_nil|].
  intros ([t d] & _ & Hin)%elem_of_flat_map. cbn [fst snd] in Hin.
  destruct (completed_name t); [|by apply elem_of_nil in Hin].
  by apply list_elem_of_singleton in Hin as ->.
Qed.

Lemma list_backups_sorted filt root : StronglySorted listed_before (list_backups json_loads outside filt root).
Proof.
  unfold list_backups. eapply flat_map_sorted; [apply sorted_subdirs_sorted| |].
  - intros [inst ies] _. cbn [fst snd]. destruct (filtered_out _ inst); [constructor|].
    eapply flat_map_sorted; [apply sorted_subdirs_sorted| |].
    + intros [ws wes] _. cbn [fst snd]. destruct (filtered_out _ ws); [constructor|].
      eapply flat_map_sorted; [apply sorted_subdirs_sorted| |].
      * intros [ts d] _. cbn [fst snd]. destruct (completed_name ts); repeat constructor.
      * intros [t1 d1] [t2 d2] a b Hlt. cbn [fst snd].
        destruct (completed_name t1); [intros ->%list_elem_of_singleton|by intros ?%elem_of_nil].
        destruct (completed_name t2); [intros ->%list_elem_of_singleton|by intros ?%elem_of_nil].
        right. split; [done|]. by right.
    + intros [w1 e1] [w2 e2] a b Hlt Ha Hb. right. cbn [fst snd] in *.
      apply workspace_chunk in Ha as [-> ->]. apply workspace_chunk in Hb as [-> ->].
      split; [done|]. by left.
  - intros [i1 e1] [i2 e2] a b Hlt Ha Hb. left. cbn [fst snd] in *.
    assert (∀ x i (e : gmap string node), x ∈ (if filtered_out (filter_instance filt) i then [] else
      flat_map (λ w, if filtered_out (filter_workspace filt) (fst w) then [] else
        flat_map (λ t, if completed_name (fst t)
          then [backup_info json_loads outside root i (fst w) (fst t) (snd t)] else []) (sorted_subdirs (snd w)))
        (sorted_subdirs e)) → source_instance x = i) as Hx.
    { intros x i e. destruct (filtered_out _ i); [by intros ?%elem_of_nil|].
      intros ([w e'] & _ & Hin)%elem_of_flat_map. by apply workspace_chunk in Hin as [-> _]. }
    apply Hx in Ha as ->. by apply Hx in Hb as ->.
Qed.
End listing.

(** ** Resolving *)

Lemma last_is_latest l b : StronglySorted listed_before l → last l = Some b →
  ∀ b', b' ∈ l → b' = b ∨ listed_before b' b.
Proof.
  intros Hs (l' & ->)%last_Some b' [Hb|Hb%list_elem_of_singleton]%elem_of_app; [right|by left].
  eapply StronglySorted_app_1_elem_of; [exact Hs|done|by apply list_elem_of_singleton].
Qed.

Lemma not_later_in_workspace b b' : b' = b ∨ listed_before b' b →
  source_instance b' = source_instance b → source_workspace b' = source_workspace b →
  String.compare (timestamp b') (timestamp b) ≠ Gt.
Proof.
  intros [->|[H|[_ [H|[_ H]]]]] Hi Hw; [by rewrite str_compare_refl|..].
  - by rewrite Hi, str_compare_refl in H.
  - by rewrite Hw, str_compare_refl in H.
  - by rewrite H.
Qed.

Lemma not_filtered (f name : string) : nonempty f = true →
  filtered_out (Some f) name = false ↔ name = f.
Proof.
  intros Hf. cbn [filtered_out]. rewrite Hf. cbn [andb].
  rewrite negb_false_iff, String.eqb_eq. naive_solver.
Qed.

Section resolving.
Context (json_loads : string → option JsonValue) (outside : gmap string string).

(** A backup specification resolves to the latest backup of what it names.
    [inst/ws] gives the one with the greatest time of that workspace, or is not
    found exactly when it has none; with no specification the workspace name
    alone must belong to one instance, and more than one is ambiguous. *)
Theorem resolve_backup_spec_exact inst ws dest root :
  nonempty inst = true → nonempty ws = true →
  has_char slash inst = false → has_char slash ws = false →
  (match resolve_backup_spec json_loads outside (Some (inst +:+ String slash ws)) dest root with
   | Ok b => ∃ ts d, completed root inst ws ts d ∧ b = backup_info json_loads outside root inst ws ts d ∧
       ∀ ts' d', completed root inst ws ts' d' → String.compare ts' ts ≠ Gt
   | Err e => e = BackupSpecNotFoundError ∧ ∀ ts d, ¬ completed root inst ws ts d
   end) ∧
  match resolve_backup_spec json_loads outside None ws root with
  | Ok b => ∃ i ts d, completed root i ws ts d ∧ b = backup_info json_loads outside root i ws ts d ∧
      ∀ i' ts' d', completed root i' ws ts' d' → i' = i ∧ String.compare ts' ts ≠ Gt
  | Err e => (e = BackupSpecNotFoundError ∧ ∀ i ts d, ¬ completed root i ws ts d) ∨
      (e = BackupSpecAmbiguousError ∧ ∃ i i' ts ts' d d', i ≠ i' ∧
         completed root i ws ts d ∧ completed root i' ws ts' d')
  end.
Proof.
  intros Hi Hw Hsi Hsw. split; unfold resolve_backup_spec.
  - rewrite split_char_app, split_char_none by done.
    set (filt := MkBackupFilter (Some inst) (Some ws)).
    assert (∀ b, b ∈ list_backups json_loads outside filt root ↔
      ∃ ts d, completed root inst ws ts d ∧ b = backup_info json_loads outside root inst ws ts d) as Hel.
    { intros b. rewrite elem_of_list_backups. split.
      - intros (i & w & ts & d & Hc & ->%not_filtered & ->%not_filtered & ->); [by exists ts, d|done..].
      - intros (ts & d & Hc & ->). exists inst, ws, ts, d.
        split_and!; [done|by apply not_filtered..|done]. }
    destruct (last (list_backups json_loads outside filt root)) as [b|] eqn:El.
    + assert (b ∈ list_backups json_loads outside filt root) as Hb
        by (apply last_Some in El as [l ->]; set_solver).
      apply Hel in Hb as (ts & d & Hc & ->). exists ts, d. split_and!; [done..|].
      intros ts' d' Hc'.
      apply (not_later_in_workspace (backup_info json_loads outside root inst ws ts d)
               (backup_info json_loads outside root inst ws ts' d')); [|done..].
      eapply last_is_latest; [apply (list_backups_sorted json_loads outside filt root)|done|].
      apply Hel. by exists ts', d'.
    + split; [done|]. intros ts d Hc. apply last_None in El.
      assert (backup_info json_loads outside root inst ws ts d ∈ list_backups json_loads outside filt root) as Hin
        by (apply Hel; by exists ts, d).
      rewrite El in Hin. by apply elem_of_nil in Hin.
  - set (filt := MkBackupFilter None (Some ws)).
    assert (∀ b, b ∈ list_backups json_loads outside filt root ↔
      ∃ i ts d, completed root i ws ts d ∧ b = backup_info json_loads outside root i ws ts d) as Hel.
    { intros b. rewrite elem_of_list_backups. split.
      - intros (i & w & ts & d & Hc & _ & ->%not_filtered & ->); [by exists i, ts, d|done].
      - intros (i & ts & d & Hc & ->). exists i, ws, ts, d.
        split_and!; [done|done|by apply not_filtered|done]. }
    destruct (last (list_backups json_loads outside filt root)) as [b|] eqn:El.
    2: { left. split; [done|]. intros i ts d Hc. apply last_None in El.
         assert (backup_info json_loads outside root i ws ts d ∈ list_backups json_loads outside filt root) as Hin
           by (apply Hel; by exists i, ts, d).
         rewrite El in Hin. by apply elem_of_nil in Hin. }
    assert (b ∈ list_backups json_loads outside filt root) as Hb
      by (apply last_Some in El as [l ->]; set_solver).
    set (insts := list_to_set (map source_instance (list_backups json_loads outside filt root)) : gset string).
    assert (∀ i, i ∈ insts ↔ ∃ ts d, completed root i ws ts d) as Hinsts.
    { intros i. unfold insts. rewrite elem_of_list_to_set, list_elem_of_fmap. split.
      - intros (b' & -> & (k & ts & d & Hc & ->)%Hel). by exists ts, d.
      - intros (ts & d & Hc). exists (backup_info json_loads outside root i ws ts d). split; [done|].
        apply Hel. by exists i, ts, d. }
    apply Hel in Hb as (j & ts & d & Hc & ->).
    assert (j ∈ insts) as Hj by (apply Hinsts; by exists ts, d).
    assert (size insts = 1 + size (insts ∖ {[j]})) as Hsize.
    { rewrite <- (size_singleton (C:=gset string) j), <- size_union_alt. f_equal. set_solver. }
    destruct (Nat.ltb_spec 1 (size insts)) as [Hs|Hs].
    + right. split; [done|].
      destruct (size_pos_elem_of (insts ∖ {[j]})) as [i' Hi']; [lia|].
      apply elem_of_difference in Hi' as [(ts' & d' & Hc')%Hinsts Hne].
      exists j, i', ts, ts', d, d'. split_and!; [set_solver|done..].
    + exists j, ts, d. split_and!; [done..|]. intros i' ts' d' Hc'.
      assert (i' = j) as ->.
      { apply (size_singleton_inv insts); [lia| |done]. apply Hinsts. by exists ts', d'. }
      split; [done|].
      apply (not_later_in_workspace (backup_info json_loads outside root j ws ts d)
               (backup_info json_loads outside root j ws ts' d')); [|done..].
      eapply last_is_latest; [apply (list_backups_sorted json_loads outside filt root)|done|].
      apply Hel. by exists j, ts', d'.
Qed.

(** A specification with an empty instance, [/ws], is never refused while
    some instance has a backup of [ws]: the empty filter matches all, and the
    restore takes a backup of an instance nobody named. *)
Theorem empty_instance_resolves dest root inst ws ts d :
  nonempty ws = true → has_char slash ws = false → completed root inst ws ts d →
  ∃ b, resolve_backup_spec json_loads outside (Some (String slash ws)) dest root = Ok b ∧
    source_workspace b = ws ∧ ∃ d', tget [source_instance b; ws; timestamp b] root = Some (NDir d').
Proof.
  intros Hw Hsw Hc. unfold resolve_backup_spec.
  cbn [split_char]. rewrite Ascii.eqb_refl, split_char_none by done.
  assert (∀ b, b ∈ list_backups json_loads outside (MkBackupFilter (Some "") (Some ws)) root ↔
    ∃ i t e, completed root i ws t e ∧ b = backup_info json_loads outside root i ws t e) as Hel.
  { intros b. rewrite elem_of_list_backups. split.
    - intros (i & w & t & e & H & _ & ->%not_filtered & ->); [by exists i, t, e|done].
    - intros (i & t & e & H & ->). exists i, ws, t, e.
      split_and!; [done|done|by apply not_filtered|done]. }
  destruct (last _) as [b|] eqn:El.
  - apply last_Some in El as [l El].
    assert (b ∈ list_backups json_loads outside (MkBackupFilter (Some "") (Some ws)) root) as Hb
      by (rewrite El; set_solver).
    apply Hel in Hb as (i & t & e & [He _] & ->). eexists. split; [done|]. split; [done|].
    by exists e.
  - apply last_None in El. exfalso.
    assert (backup_info json_loads outside root inst ws ts d ∈
      list_backups json_loads outside (MkBackupFilter (Some "") (Some ws)) root) as Hin
      by (apply Hel; by exists inst, ts, d).
    rewrite El in Hin. by apply elem_of_nil in Hin.
Qed.
End resolving.

(** ** Creating *)

Lemma endswith_app s suf : endswith suf (s +:+ suf) = true.
Proof.
  unfold endswith. rewrite str_len_app. rewrite (proj2 (Nat.leb_le _ _)) by lia.
  replace (str_len s + str_len suf - str_len suf) with (str_len s) by lia.
  by rewrite sdrop_app, String.eqb_refl.
Qed.

Lemma partial_not_completed ts : completed_name (partial_name ts) = false.
Proof. unfold completed_name, partial_name. by rewrite endswith_app. Qed.

(** Nothing at the third level changes but what [except] says. *)
Definition keeps (except : list string → Prop) (root root' : node) : Prop :=
  ∀ q, List.length q = 3 → ¬ except q → tget q root' = tget q root.

Lemma keeps_refl e root : keeps e root root.
Proof. by intros q _ _. Qed.

Lemma keeps_trans (e : list string → Prop) r1 r2 r3 : keeps e r1 r2 → keeps e r2 r3 → keeps e r1 r3.
Proof. intros H1 H2 q Hq He. by rewrite (H2 q Hq He), (H1 q Hq He). Qed.

Lemma tput_keeps p x root root' : List.length p = 3 → tput p x root = Some root' →
  keeps (.= p) root root'.
Proof.
  intros Hp Hput q Hq Hne. eapply tput_other; [done|..];
    intros H; apply Hne; [symmetry|]; apply prefix_same_length; by rewrite ?Hp, ?Hq.
Qed.

Lemma makedirs_keeps p root root' : List.length p = 3 ∨ List.length p = 2 →
  makedirs p root = Ok root' → keeps (.= p) root root'.
Proof. intros Hp Hm q Hq Hne. eapply makedirs_get; [done|done|lia|by intros ->]. Qed.

(** A record that is not a link. *)
Definition plain_record (d : gmap string node) : Prop :=
  ∀ target to_directory, d !! BACKUP_INFO_FILENAME ≠ Some (NLink target to_directory).

Definition plain_records (root : node) : Prop := ∀ i w t d, completed root i w t d → plain_record d.

Lemma open_plain root dir d : tget dir root = Some (NDir d) → plain_record d →
  open_path root dir BACKUP_INFO_FILENAME = Inside (dir ++ [BACKUP_INFO_FILENAME])%list.
Proof.
  intros Hd Hp. unfold open_path, MAX_LINKS. cbn -[tget]. rewrite tget_app, Hd. cbn.
  specialize (Hp). destruct (d !! BACKUP_INFO_FILENAME) as [[|t b|]|] eqn:E; try done. by destruct (Hp t b).
Qed.

Lemma tput_below dir name x d root : tget dir root = Some (NDir d) →
  tput (dir ++ [name])%list x root = tput dir (NDir (<[name := x]> d)) root.
Proof.
  revert root. induction dir as [|n dir IH]; intros root; cbn [tget tput app]; [by intros [= ->]|].
  destruct root as [| |es]; [done|done|]. destruct (es !! n) as [c|]; cbn; [|done]. intros Hc. by rewrite (IH c).
Qed.

Lemma tput_replace p x y root : tget p root = Some y → is_Some (tput p x root).
Proof.
  revert root. induction p as [|n p IH]; intros root; cbn [tget tput]; [by eexists|].
  destruct root as [| |es]; [done|done|]. destruct (es !! n) as [c|]; cbn; [|done].
  intros [c' ->]%IH. by eexists.
Qed.

Section creating.
Context (json_loads : string → option JsonValue) (json_dumps : JsonValue → string)
  (strftime : Z → string) (strptime : string → option Z).

Lemma read_plain outside root dir d : tget dir root = Some (NDir d) → plain_record d →
  read_backup_info json_loads outside root dir =
  record_of json_loads (match d !! BACKUP_INFO_FILENAME with Some (NFile text) => Some text | _ => None end).
Proof.
  intros Hd Hp. unfold read_backup_info, read_text. rewrite (open_plain _ _ _ Hd Hp), tget_app, Hd. cbn.
  by destruct (d !! BACKUP_INFO_FILENAME) as [[]|].
Qed.

(** With plain records, a listing depends on the finished directories alone. *)
Lemma list_backups_ext outside root root' :
  plain_records root → (∀ i w t d, completed root' i w t d ↔ completed root i w t d) →
  ∀ filt b, b ∈ list_backups json_loads outside filt root' ↔ b ∈ list_backups json_loads outside filt root.
Proof.
  intros Hp H filt b. rewrite !elem_of_list_backups. setoid_rewrite H.
  assert (∀ i w t d, completed root i w t d →
    backup_info json_loads outside root' i w t d = backup_info json_loads outside root i w t d) as Hi.
  { intros i w t d Hc. unfold backup_info, info_at. f_equal. pose proof (Hp _ _ _ _ Hc) as Hd.
    destruct (proj2 (H i w t d) Hc) as [Ht' _]. destruct Hc as [Ht _].
    by rewrite (read_plain _ _ _ _ Ht' Hd), (read_plain _ _ _ _ Ht Hd). }
  split; intros (i & w & t & d & Hc & Hfi & Hfw & ->); exists i, w, t, d; (split_and!; [done..|]);
    [|symmetry]; by apply Hi.
Qed.

(** rsync, when it succeeds, leaves no link at the record's name; it makes one
    where the source has one. *)
Definition no_record_link (env : backup_env) : Prop := ∀ src cmd old copied,
  be_source env = Some src → be_rsync env cmd src old = (true, copied) → plain_record copied.

Definition backup_cmd (env : backup_env) (inst ws ts : string) (excludes extra : list string) :=
  build_rsync_cmd (be_realpath env)
    (PyStr.join "/" (be_root_path env :: [inst; ws; partial_name ts])%list) excludes extra
    (0 <? be_unsafe_links env) (be_xattrs env).

Definition record_text (env : backup_env) (inst ws mode created_at : string) (excludes : list string)
    (bytes files : Z) : string :=
  json_dumps (backup_payload env inst ws mode created_at excludes bytes files).

(** What rsync copied, and the record beside it. *)
Definition finished (env : backup_env) (src : node) (inst ws ts mode created_at : string)
    (excludes extra : list string) (bytes files : Z) (d : gmap string node) : Prop :=
  ∃ old copied, be_rsync env (backup_cmd env inst ws ts excludes extra) src old = (true, copied) ∧
    tree_size_and_count (NDir copied) = (bytes, files) ∧
    d = <[BACKUP_INFO_FILENAME := NFile (record_text env inst ws mode created_at excludes bytes files)]> copied.

(** The record in a directory where its name is no link. *)
Lemma write_plain env dir text root outside lock d : tget dir root = Some (NDir d) → plain_record d →
  (write_backup_info env dir text (BackupState root outside lock) = (Err OSError, BackupState root outside lock)) ∨
  ∃ root', tput dir (NDir (<[BACKUP_INFO_FILENAME := NFile text]> d)) root = Some root' ∧
    write_backup_info env dir text (BackupState root outside lock) = (Ok tt, BackupState root' outside lock).
Proof.
  intros Hd Hp. unfold write_backup_info. cbn [bs_root bs_outside bs_lock].
  rewrite (open_plain _ _ _ Hd Hp), tget_app, Hd, (tput_below _ _ _ _ _ Hd). cbn [mbind option_bind tget].
  destruct (tput_replace dir (NDir (<[BACKUP_INFO_FILENAME := NFile text]> d)) _ root Hd) as [root' ->].
  destruct (d !! BACKUP_INFO_FILENAME) as [[]|]; cbn; eauto.
Qed.

(** The rename of a written partial directory. *)
Lemma rename_finishes partial final root root3 d :
  List.length partial = 3 → List.length final = 3 → partial ≠ final →
  keeps (.= partial) root root3 → tget partial root3 = Some (NDir d) →
  match rename_dir partial final root3 with
  | Err _ => keeps (.= partial) root root3
  | Ok root4 => keeps (λ q, q = partial ∨ q = final) root root4 ∧
      (tget final root = None ∨ tget final root = Some (NDir ∅)) ∧ tget final root4 = Some (NDir d)
  end.
Proof.
  intros Hlp Hlf Hne K3 Hd. unfold rename_dir. rewrite Hd.
  assert (tget final root3 = tget final root) as Hf by (apply K3; [done|by intros ->]).
  assert (∀ root4, tput final (NDir d) (tdel partial root3) = Some root4 →
    keeps (λ q, q = partial ∨ q = final) root root4) as K4.
  { intros root4 E4 q Hq Hn. rewrite (tput_keeps final _ _ _ Hlf E4) by tauto.
    rewrite tdel_other; [apply K3; tauto|..];
      intros H%prefix_same_length; try congruence; subst; tauto. }
  rewrite <- Hf. destruct (tget final root3) as [[| |es]|]; [done|done| |].
  - case_bool_decide as Ees; [subst es|done].
    destruct (tput final _ _) as [root4|] eqn:E4; [|done].
    split_and!; [by apply K4|by right|by eapply tput_get].
  - destruct (tput final _ _) as [root4|] eqn:E4; [|done].
    split_and!; [by apply K4|by left|by eapply tput_get].
Qed.

Lemma do_backup_spec env src inst ws ts mode created_at excludes extra s :
  let partial := [inst; ws; partial_name ts] in
  let final := [inst; ws; ts] in
  partial ≠ final → no_record_link env → be_source env = Some src →
  match do_backup json_dumps env src inst ws ts mode created_at excludes extra s with
  | (Err _, s') => bs_lock s' = bs_lock s ∧ bs_outside s' = bs_outside s ∧
      keeps (.= partial) (bs_root s) (bs_root s')
  | (Ok bytes, s') => bs_lock s' = bs_lock s ∧ bs_outside s' = bs_outside s ∧
      keeps (λ q, q = partial ∨ q = final) (bs_root s) (bs_root s') ∧
      (tget final (bs_root s) = None ∨ tget final (bs_root s) = Some (NDir ∅)) ∧
      ∃ files d, tget final (bs_root s') = Some (NDir d) ∧
        finished env src inst ws ts mode created_at excludes extra bytes files d
  end.
Proof.
  intros partial final Hne Hlink Hsrc. destruct s as [root outside lock].
  unfold do_backup. fold partial final. unfold mbind at 1, eff_bind at 1, on_root at 1.
  cbn [bs_root bs_outside bs_lock].
  destruct (makedirs partial root) as [root1|e] eqn:Em; cbn [mbind res_bind].
  2: { split_and!; [done..|apply keeps_refl]. }
  assert (keeps (.= partial) root root1) as K1 by (by eapply makedirs_keeps; [left|]).
  unfold mbind at 1, eff_bind at 1, on_root at 1. cbn [bs_root bs_outside bs_lock].
  destruct (tget partial root1) as [[| |old]|] eqn:Eo; try (split_and!; [done..|exact K1]).
  fold (backup_cmd env inst ws ts excludes extra).
  destruct (be_rsync env _ src old) as [ok copied] eqn:Er.
  destruct (tput partial (NDir copied) root1) as [root2|] eqn:E2; [|by split_and!].
  assert (keeps (.= partial) root root2) as K2
    by (eapply keeps_trans; [exact K1|by eapply tput_keeps]).
  destruct ok; [|by split_and!].
  unfold mbind at 1, eff_bind at 1, on_root at 1. cbn [bs_root bs_outside bs_lock].
  rewrite (tput_get _ _ _ _ E2).
  destruct (tree_size_and_count (NDir copied)) as [bytes files] eqn:Es. cbn [fst snd].
  fold (record_text env inst ws mode created_at excludes bytes files).
  set (text := record_text _ _ _ _ _ _ _ _).
  destruct (write_plain env partial text root2 outside lock copied (tput_get _ _ _ _ E2))
    as [Hw|(root3 & E3 & Hw)]; [by eapply Hlink|..];
    unfold mbind at 1, eff_bind at 1; rewrite Hw; [by split_and!|].
  assert (keeps (.= partial) root root3) as K3 by (eapply keeps_trans; [exact K2|by eapply tput_keeps]).
  pose proof (rename_finishes partial final root root3 _ eq_refl eq_refl Hne K3 (tput_get _ _ _ _ E3)) as Hr.
  unfold mbind at 1, eff_bind at 1, on_root at 1. cbn [bs_root bs_outside bs_lock].
  destruct (rename_dir partial final root3) as [root4|e]; cbn [mbind res_bind]; [|by split_and!].
  destruct Hr as (K4 & Hf & Hd). cbn [bs_root bs_outside bs_lock]. split_and!; [done..|].
  exists files. eexists. split; [exact Hd|]. by exists old, copied.
Qed.

Lemma keeps_completed p root root' : keeps (.= p) root root' →
  (∀ q, q = p → List.length q = 3 → completed_name (List.nth 2 q "") = false) →
  ∀ i w t d, completed root' i w t d ↔ completed root i w t d.
Proof.
  intros K Hp i w t d. unfold completed.
  destruct (completed_name t) eqn:E; [|naive_solver]. rewrite K; [done|done|].
  intros Heq. specialize (Hp _ Heq eq_refl). cbn in Hp. by rewrite Hp in E.
Qed.

Lemma partial_keeps_listed inst ws ts root root' : keeps (.= [inst; ws; partial_name ts]) root root' →
  ∀ i w t d, completed root' i w t d ↔ completed root i w t d.
Proof. intros K. apply (keeps_completed _ _ _ K). intros q -> _. apply partial_not_completed. Qed.

Lemma release_eq l : release_backup_lock l = (Ok tt, LockState JCorrupt None (lk_now l)).
Proof. done. Qed.

(** What the copying leaves, in a root that only got the directories above it:
    the lock, and nothing or one finished backup. *)
Lemma do_backup_listed env src inst ws ts mode created_at excludes extra root root1 outside l r s1 :
  completed_name ts = true → no_record_link env → be_source env = Some (NDir src) →
  keeps (.= [inst; ws]) root root1 →
  do_backup json_dumps env (NDir src) inst ws ts mode created_at excludes extra
    (BackupState root1 outside l) = (r, s1) →
  bs_lock s1 = l ∧ bs_outside s1 = outside ∧
  match r with
  | Err e => ∀ i w t x, completed (bs_root s1) i w t x ↔ completed root i w t x
  | Ok bytes => ∃ files d, tget [inst; ws; ts] (bs_root s1) = Some (NDir d) ∧
      finished env (NDir src) inst ws ts mode created_at excludes extra bytes files d ∧
      (∀ x, completed root inst ws ts x → x = ∅) ∧
      ∀ i w t x, completed (bs_root s1) i w t x ↔
        ([i; w; t] = [inst; ws; ts] ∧ x = d) ∨ ([i; w; t] ≠ [inst; ws; ts] ∧ completed root i w t x)
  end.
Proof.
  intros Hts Hlink Hsrc K1 Hl. assert (∀ i w t d, completed root1 i w t d ↔ completed root i w t d) as C1.
  { apply (keeps_completed _ _ _ K1). by intros q ->. }
  assert (tget [inst; ws; ts] root1 = tget [inst; ws; ts] root) as F1 by (by apply K1).
  assert ([inst; ws; partial_name ts] ≠ [inst; ws; ts]) as Hne.
  { intros [= H]. pose proof (partial_not_completed ts) as Hp. by rewrite H, Hts in Hp. }
  pose proof (do_backup_spec env (NDir src) inst ws ts mode created_at excludes extra
                (BackupState root1 outside l) Hne Hlink Hsrc) as Hdo.
  cbn [bs_root bs_outside bs_lock] in Hdo. rewrite Hl in Hdo.
  destruct r as [bytes|e]; destruct Hdo as (Hlock & Ho & Hdo); (split_and!; [done..|]).
  - destruct Hdo as (K & Hf & files & d & Hd & Hfin). exists files, d. split_and!; [done|done| |].
    + intros x [Hx _]. rewrite F1 in Hf. rewrite Hx in Hf. naive_solver.
    + intros i w t x. rewrite <- C1. unfold completed.
      destruct (decide ([i; w; t] = [inst; ws; ts])) as [[= -> -> ->]|Hq]; [rewrite Hd, Hts; naive_solver|].
      destruct (completed_name t) eqn:Et; [|naive_solver].
      rewrite K; [naive_solver|done|]. intros [[= -> -> ->]|?]; [|done]. by rewrite partial_not_completed in Et.
  - intros i w t d. by rewrite (partial_keeps_listed _ _ _ _ _ Hdo), C1.
Qed.

(** What rsync copied keeps its record when it is read back. *)
Lemma finished_metadata env src inst ws ts mode created_at excludes extra bytes files d outside root :
  tget [inst; ws; ts] root = Some (NDir d) →
  finished env src inst ws ts mode created_at excludes extra bytes files d →
  read_backup_info json_loads outside root [inst; ws; ts] =
  record_of json_loads (Some (record_text env inst ws mode created_at excludes bytes files)).
Proof.
  intros Hd (old & copied & _ & _ & ->). rewrite (read_plain _ _ _ _ Hd); [by rewrite lookup_insert_eq|].
  intros t b. by rewrite lookup_insert_eq.
Qed.

(** C33: Creating a backup is atomic.  Where rsync leaves no link at the name of
    the record (it leaves one where the source has one, and then [open] writes
    through it: [linked_record_overwrites]), this holds.  When the creation
    raises, whether for the lock, rsync, the record or the rename, the finished
    backups are those of before, and so is every listing if no finished backup
    has a link as its record.  When it returns, exactly one finished backup is
    new, in a place where there was none: what rsync copied with its record,
    which is what the result's metadata was read from.  Either way no file
    outside the backups changes and the lock's holder is who it was. *)
Theorem create_backup_atomic p env inst ws ts mode created_at excludes extra (acquire : bool) s :
  completed_name ts = true → no_record_link env →
  match create_backup json_loads json_dumps strftime strptime p env inst ws ts mode created_at
          excludes extra acquire s with
  | (Err e, s') => lk_holder (bs_lock s') = lk_holder (bs_lock s) ∧ bs_outside s' = bs_outside s ∧
      (∀ i w t x, completed (bs_root s') i w t x ↔ completed (bs_root s) i w t x) ∧
      (plain_records (bs_root s) →
       ∀ filt b, b ∈ list_backups json_loads (bs_outside s') filt (bs_root s') ↔
                 b ∈ list_backups json_loads (bs_outside s) filt (bs_root s))
  | (Ok b, s') => lk_holder (bs_lock s') = lk_holder (bs_lock s) ∧ bs_outside s' = bs_outside s ∧
      ∃ src bytes files d, be_source env = Some src ∧
        finished env src inst ws ts mode created_at excludes extra bytes files d ∧
        b = MkBackupInfo [inst; ws; ts] inst ws ts bytes
              (record_of json_loads (Some (record_text env inst ws mode created_at excludes bytes files))) ∧
        (∀ x, completed (bs_root s) inst ws ts x → x = ∅) ∧
        ∀ i w t x, completed (bs_root s') i w t x ↔
          ([i; w; t] = [inst; ws; ts] ∧ x = d) ∨
          ([i; w; t] ≠ [inst; ws; ts] ∧ completed (bs_root s) i w t x)
  end.
Proof.
  intros Hts Hlink. unfold create_backup.
  destruct (be_source env) as [[| |src]|] eqn:Hsrc; [by split_and!..| |by split_and!].
  unfold mbind at 1, eff_bind at 1, on_root at 1.
  destruct (makedirs [inst; ws] (bs_root s)) as [root1|e] eqn:Em; [|by split_and!].
  cbn [mbind res_bind].
  assert (keeps (.= [inst; ws]) (bs_root s) root1) as K1 by (by eapply makedirs_keeps; [right|]).
  assert (∀ i w t d, completed root1 i w t d ↔ completed (bs_root s) i w t d) as C1.
  { apply (keeps_completed _ _ _ K1). by intros q ->. }
  pose proof (λ l r s1, do_backup_listed env src inst ws ts mode created_at excludes extra (bs_root s) root1
                (bs_outside s) l r s1 Hts Hlink Hsrc K1) as Hbody.
  set (body := do_backup _ _ _ _ _ _ _ _ _ _) in *.
  destruct acquire; unfold mbind at 1, eff_bind at 1.
  - unfold mbind at 1, eff_bind at 1, on_lock at 1. cbn [bs_root bs_outside bs_lock]. rewrite acquire_eq.
    destruct (lk_holder (bs_lock s)) as [h|] eqn:Eh.
    { cbv zeta. match goal with |- context [is_lock_stale ?x ?y ?z] =>
        destruct (is_lock_stale x y z) end; cbn [bs_root bs_outside bs_lock]; (split_and!; [done..|]);
        intros Hp; by apply list_backups_ext. }
    unfold finally, on_lock. cbn [bs_lock bs_root bs_outside].
    destruct (body _) as [r s1] eqn:Eb. destruct (Hbody _ _ _ Eb) as (_ & Ho & Hr).
    destruct r as [bytes|e]; rewrite release_eq; cbn -[tget list_backups read_backup_info].
    2: { rewrite Ho. split_and!; [done..|]. intros Hp. by apply list_backups_ext. }
    destruct Hr as (files & d & Hd & Hfin & Hx & Hc).
    split_and!; [done..|]. exists (NDir src), bytes, files, d. split_and!; [done..| |done|done].
    f_equal. by eapply finished_metadata.
  - destruct (body _) as [r s1] eqn:Eb. destruct (Hbody _ _ _ Eb) as (Hlock & Ho & Hr).
    destruct r as [bytes|e]; cbn -[tget list_backups read_backup_info].
    2: { rewrite Hlock, Ho. split_and!; [done..|]. intros Hp. by apply list_backups_ext. }
    destruct Hr as (files & d & Hd & Hfin & Hx & Hc). rewrite Hlock.
    split_and!; [done..|]. exists (NDir src), bytes, files, d. split_and!; [done..| |done|done].
    f_equal. by eapply finished_metadata.
Qed.
End creating.

(** ** Restoring *)

Lemma tget_copy path n : tget path (copy_without_info n) =
  if bool_decide (BACKUP_INFO_FILENAME ∈ path) then None else copy_without_info <$> tget path n.
Proof.
  revert n; induction path as [|name path IH]; intros n.
  { rewrite bool_decide_eq_false_2; [done|apply not_elem_of_nil]. }
  destruct n as [c|t b|es]; cbn [copy_without_info tget];
    [by destruct (bool_decide (BACKUP_INFO_FILENAME ∈ name :: path))..|].
  destruct (decide (name = BACKUP_INFO_FILENAME)) as [->|Hne].
  { rewrite lookup_delete_eq, bool_decide_eq_true_2; [done|by left]. }
  rewrite lookup_delete_ne, lookup_fmap by done.
  rewrite (bool_decide_ext _ (BACKUP_INFO_FILENAME ∈ path)).
  2: { rewrite elem_of_cons. split; [intros [?|?]; [by destruct Hne|done]|by right]. }
  destruct (es !! name) as [c|]; cbn; [apply IH|].
  by destruct (bool_decide (BACKUP_INFO_FILENAME ∈ path)).
Qed.

Lemma copy_without_info_id n :
  (∀ path, BACKUP_INFO_FILENAME ∈ path → tget path n = None) → copy_without_info n = n.
Proof.
  remember (height n) as h eqn:Hh. revert n Hh. induction (lt_wf h) as [h _ IH].
  intros [c|t b|es] -> Hn; [done..|]. cbn [copy_without_info]. f_equal.
  apply map_eq. intros name. destruct (decide (name = BACKUP_INFO_FILENAME)) as [->|Hne].
  - rewrite lookup_delete_eq. specialize (Hn [BACKUP_INFO_FILENAME]). cbn in Hn.
    destruct (es !! BACKUP_INFO_FILENAME); [|done]. ospecialize* Hn; [by left|done].
  - rewrite lookup_delete_ne, lookup_fmap by done. destruct (es !! name) as [c|] eqn:Ec; [|done].
    cbn. f_equal. eapply IH; [by eapply height_child|done|]. intros path Hp.
    specialize (Hn (name :: path)). cbn [tget] in Hn. rewrite Ec in Hn. apply Hn. by right.
Qed.

(** Restoring a backup never overwrites a workspace and changes nothing
    else.  What it restores is the copied tree without anything named
    [.backup-info.json], at any depth: so it is the source itself exactly when
    the source has no file of that name, and a file of that name is lost. *)
Theorem restore_exact src info inst ws workspaces :
  match restore_backup (NDir (<[BACKUP_INFO_FILENAME := info]> src)) inst ws workspaces with
  | Ok workspaces' => tget [inst; ws] workspaces = None ∧
      (∀ q, List.length q = 2 → q ≠ [inst; ws] → tget q workspaces' = tget q workspaces) ∧
      ∃ restored, tget [inst; ws] workspaces' = Some restored ∧
        (∀ path, tget path restored = if bool_decide (BACKUP_INFO_FILENAME ∈ path) then None
                                      else copy_without_info <$> tget path (NDir src)) ∧
        (restored = NDir src ↔
           ∀ path, BACKUP_INFO_FILENAME ∈ path → tget path (NDir src) = None)
  | Err e => (e = BackupPathError ∧ is_Some (tget [inst; ws] workspaces)) ∨ e = OSError
  end.
Proof.
  unfold restore_backup.
  destruct (tget [inst; ws] workspaces) as [n|] eqn:Eg; [by left|].
  destruct (makedirs [inst] workspaces) as [w1|e] eqn:Em; cbn [mbind res_bind].
  2: { right. unfold makedirs in Em. destruct (tget [inst] workspaces) as [[]|];
         [congruence..|]. destruct (tput _ _ _); congruence. }
  destruct (tput [inst; ws] _ w1) as [w2|] eqn:Ep; [|by right].
  assert (copy_without_info (NDir (<[BACKUP_INFO_FILENAME := info]> src)) =
          copy_without_info (NDir src)) as Hcopy.
  { cbn [copy_without_info]. f_equal. rewrite fmap_insert. apply delete_insert_eq. }
  split_and!; [done| |].
  - intros q Hq Hne.
    rewrite (tput_other [inst; ws] q _ _ _ Ep)
      by (intros H%prefix_same_length; [congruence|by rewrite Hq]).
    unfold makedirs in Em. destruct (tget [inst] workspaces) as [[| |es]|] eqn:Ei; try done.
    + by injection Em as ->.
    + destruct (tput [inst] (NDir ∅) workspaces) as [r|] eqn:Er; [|done]. injection Em as ->.
      destruct q as [|a [|b [|]]]; try done. destruct (decide (a = inst)) as [->|Ha].
      * change [inst; b] with ([inst] ++ [b])%list.
        rewrite !tget_app, (tput_get _ _ _ _ Er), Ei. cbn. by rewrite lookup_empty.
      * apply (tput_other [inst] [a; b] _ _ _ Er); intros [k Hk]; simplify_eq/=.
  - exists (copy_without_info (NDir src)). rewrite (tput_get _ _ _ _ Ep), Hcopy.
    split_and!; [done|intros path; by rewrite tget_copy|]. split.
    + intros Heq path Hp. rewrite <- Heq, tget_copy. by rewrite bool_decide_eq_true_2.
    + apply copy_without_info_id.
Qed.

(** ** Witnesses *)

Definition demo_backups : node :=
  NDir {[ "blue" := NDir {[ "web" := NDir {[
            "2026-01-02-03-04-05" := NDir {[ "a" := NFile "x" ]};
            "2026-01-03-03-04-05" := NDir {[ "a" := NFile "y" ]};
            "2026-01-04-03-04-05.partial" := NDir ∅ ]} ]} ]}.

Lemma resolve_backup_spec_witness :
  (match resolve_backup_spec (λ _, None) ∅ (Some ("blue" +:+ String slash "web")) "web" demo_backups with
   | Ok b => ∃ ts d, completed demo_backups "blue" "web" ts d ∧
       b = backup_info (λ _, None) ∅ demo_backups "blue" "web" ts d ∧
       ∀ ts' d', completed demo_backups "blue" "web" ts' d' → String.compare ts' ts ≠ Gt
   | Err e => e = BackupSpecNotFoundError ∧ ∀ ts d, ¬ completed demo_backups "blue" "web" ts d
   end) ∧
  match resolve_backup_spec (λ _, None) ∅ None "web" demo_backups with
  | Ok b => ∃ i ts d, completed demo_backups i "web" ts d ∧ b = backup_info (λ _, None) ∅ demo_backups i "web" ts d ∧
      ∀ i' ts' d', completed demo_backups i' "web" ts' d' → i' = i ∧ String.compare ts' ts ≠ Gt
  | Err e => (e = BackupSpecNotFoundError ∧ ∀ i ts d, ¬ completed demo_backups i "web" ts d) ∨
      (e = BackupSpecAmbiguousError ∧ ∃ i i' ts ts' d d', i ≠ i' ∧
         completed demo_backups i "web" ts d ∧ completed demo_backups i' "web" ts' d')
  end.
Proof.
  exact (resolve_backup_spec_exact (λ _, None) ∅ "blue" "web" "web" demo_backups
           eq_refl eq_refl eq_refl eq_refl).
Defined.

Lemma empty_instance_witness :
  ∃ b, resolve_backup_spec (λ _, None) ∅ (Some (String slash "web")) "web" demo_backups = Ok b ∧
    source_workspace b = "web" ∧
    ∃ d', tget [source_instance b; "web"; timestamp b] demo_backups = Some (NDir d').
Proof.
  apply (empty_instance_resolves (λ _, None) ∅ "web" demo_backups "blue" "web" "2026-01-02-03-04-05"
           {[ "a" := NFile "x" ]} eq_refl eq_refl).
  split; vm_compute; reflexivity.
Defined.

Definition demo_copying (source : gmap string node) : backup_env :=
  BackupEnv "/home/ann/web" (Some (NDir source)) 0 true "rsync 3" "1.0" "/backups" (λ _, true)
    (λ _ src _, (true, root_entries src)).

Definition demo_env : backup_env := demo_copying {[ "a" := NFile "x" ]}.

Definition demo_state : backup_state :=
  BackupState demo_backups {["/home/ann/web/data" := "x"]} (LockState JMissing None 0).

Definition demo_create (env : backup_env) : res BackupInfo * backup_state :=
  create_backup (λ _, Some (JObj {["n" := JInt 1]})) (λ _, "{}") demo_strftime demo_strptime 7 env "blue" "web"
    "2026-01-05-03-04-05" "copy" "2026-01-05T03:04:05Z" [] [] true demo_state.

Lemma create_backup_witness :
  let ts := "2026-01-05-03-04-05" in
  no_record_link demo_env ∧
  match demo_create demo_env with
  | (Ok b, s') => lk_holder (bs_lock s') = None ∧ bs_outside s' = bs_outside demo_state ∧
      ∃ src bytes files d, be_source demo_env = Some src ∧
        finished (λ _, "{}") demo_env src "blue" "web" ts "copy" "2026-01-05T03:04:05Z" [] [] bytes files d ∧
        b = MkBackupInfo ["blue"; "web"; ts] "blue" "web" ts bytes {["n" := JInt 1]} ∧
        (∀ x, completed (bs_root demo_state) "blue" "web" ts x → x = ∅) ∧
        ∀ i w t x, completed (bs_root s') i w t x ↔
          ([i; w; t] = ["blue"; "web"; ts] ∧ x = d) ∨
          ([i; w; t] ≠ ["blue"; "web"; ts] ∧ completed (bs_root demo_state) i w t x)
  | _ => False
  end.
Proof.
  assert (Hlink : no_record_link demo_env).
  { intros src cmd old copied [= <-] [= <-] t b. vm_compute. discriminate. }
  assert (Hok : is_ok (fst (demo_create demo_env)) = true) by (vm_compute; reflexivity).
  split; [exact Hlink|].
  pose proof (create_backup_atomic (λ _, Some (JObj {["n" := JInt 1]})) (λ _, "{}") demo_strftime demo_strptime 7
    demo_env "blue" "web" "2026-01-05-03-04-05" "copy" "2026-01-05T03:04:05Z" [] [] true demo_state eq_refl Hlink) as H.
  change (create_backup _ _ _ _ _ _ _ _ _ _ _ _ _ _ _) with (demo_create demo_env) in H.
  destruct (demo_create demo_env) as [[b|e] s']; [exact H|discriminate Hok].
Defined.

(** ** A link at the name of the record

    The file it leads to is overwritten with the record, and the link stays:
    in the copied tree, or, through an absolute target, in the live workspace.
    Where it leads to a directory the creation raises. *)

Definition demo_linked (target : string) (d : bool) : backup_env :=
  demo_copying {[ "data" := NFile "x"; "sub" := NDir ∅; BACKUP_INFO_FILENAME := NLink target d ]}.

Definition demo_created (env : backup_env) : option node :=
  tget ["blue"; "web"; "2026-01-05-03-04-05"] (bs_root (demo_create env).2).

Example linked_record_overwrites :
  is_ok (fst (demo_create (demo_linked "./sub/../data" false))) = true ∧
  demo_created (demo_linked "./sub/../data" false) =
    Some (NDir {[ "data" := NFile "{}"; "sub" := NDir ∅;
                  BACKUP_INFO_FILENAME := NLink "./sub/../data" false ]}).
Proof. split; vm_compute; reflexivity. Qed.

Example linked_record_leaves_tree :
  is_ok (fst (demo_create (demo_linked "/home/ann/web/data" false))) = true ∧
  bs_outside (demo_create (demo_linked "/home/ann/web/data" false)).2 = {["/home/ann/web/data" := "{}"]}.
Proof. split; vm_compute; reflexivity. Qed.

Example linked_record_raises :
  fst (demo_create (demo_linked "sub" true)) = Err OSError ∧
  fst (demo_create (demo_linked BACKUP_INFO_FILENAME false)) = Err OSError.
Proof. split; vm_compute; reflexivity. Qed.
