(* ===== verification/WorkspaceCopy.v ===== *)
(** * core.workspace_copy: copying a workspace and the scan for escaping links

    [os.path.realpath] is a parameter; the source is the tree of [Backups], in
    which a link knows whether it leads to a directory ([os.walk] lists such a
    link with the directories). *)
From S2P Require Import Prelude PyStr Json Locks Backups.
From Stdlib Require Import Ascii String.
Open Scope nat_scope.

Definition COPY_DEFAULT_EXCLUDES : list string :=
  ["node_modules"; ".pnpm-store"; ".yarn/cache"; ".yarn/install-state.gz";
   ".venv"; "venv"; "env"; "__pycache__"; "*.pyc"; ".pytest_cache"; ".mypy_cache";
   ".ruff_cache"; ".tox";
   "target"; "bin"; "dist"; "build"; "out"; ".next"; ".nuxt"; ".tsbuildinfo"; ".turbo";
   "vendor"; "vendor/bundle"; ".bundle";
   ".gradle"; "cmake-build-*";
   ".idea"; ".vscode"; ".DS_Store"; "*.swp"; "*.log";
   "coverage"; ".nyc_output"; ".cache"].

Record CopyResult := MkCopyResult {
  bytes_total : Z;
  excludes_applied : list string;
  safe_links : bool
}.

Section scan.
Context (realpath : string → string).

Definition is_external_symlink (link_path target source_root : string) : bool :=
  if startswith "/" target
  then negb (startswith (realpath source_root) (realpath link_path))
  else negb (startswith (realpath source_root)
               (realpath (path_join (dirname link_path) target))).

(** The walk of the tree [n] at [dirpath], in the order of its entries. *)
Fixpoint scan_walk (source_root dirpath : string) (n : node) : list string :=
  match n with
  | NDir es =>
      map_fold (λ name c acc,
        (let full := path_join dirpath name in
         match c with
         | NLink target false =>
             if is_external_symlink full target source_root then [full] else []
         | NDir _ => scan_walk source_root full c
         | _ => []
         end ++ acc)%list) [] es
  | _ => []
  end.

Definition scan_unsafe_symlinks (source_root : string) (n : node) : list string :=
  scan_walk source_root source_root n.

Definition copy_cmd (source dest : string) (strip_unsafe_links : bool) (excludes : list string)
    : list string :=
  (["rsync"; "-a"; "--no-owner"; "--no-group"] ++
   flat_map (λ e, ["--exclude"; e]) excludes ++
   (if strip_unsafe_links then ["--safe-links"] else []) ++
   [rstrip_char slash source +:+ "/"; rstrip_char slash dest +:+ "/"])%list.

(** [run] is [subprocess.run(cmd, check=True)] with the size of the files that
    the destination holds then; [None] is its failure. *)
Definition copy_workspace (run : list string → option Z) (source dest : string) (n : node)
    (strip_unsafe_links : bool) (excludes : list string) : res CopyResult :=
  if negb strip_unsafe_links && (0 <? List.length (scan_unsafe_symlinks source n))
  then Err UnsafeSymlinkError
  else match run (copy_cmd source dest strip_unsafe_links excludes) with
       | None => Err CalledProcessError
       | Some bytes => Ok (MkCopyResult bytes excludes strip_unsafe_links)
       end.

(** ** What the scan finds *)

Lemma elem_of_map_fold_app {B} (f : string → node → list B) (m : gmap string node) x :
  x ∈ map_fold (λ k c acc, (f k c ++ acc)%list) [] m ↔ ∃ k c, m !! k = Some c ∧ x ∈ f k c.
Proof.
  apply (map_fold_weak_ind (λ l m, x ∈ l ↔ ∃ k c, m !! k = Some c ∧ x ∈ f k c)).
  - split; [by intros ?%elem_of_nil|]. by intros (k & c & Hk & _).
  - intros k c m' acc Hk IH. rewrite elem_of_app, IH. split.
    + intros [Hx|(k' & c' & Hk' & Hx)]; [exists k, c; by rewrite lookup_insert_eq|].
      exists k', c'. rewrite lookup_insert_ne by (intros ->; congruence). done.
    + intros (k' & c' & Hk' & Hx). destruct (decide (k' = k)) as [->|Hne].
      * rewrite lookup_insert_eq in Hk'. injection Hk' as ->. by left.
      * rewrite lookup_insert_ne in Hk' by done. right. by exists k', c'.
Qed.

(** The path of a name below a directory. *)
Definition below (dirpath : string) (path : list string) : string := foldl path_join dirpath path.

Lemma elem_of_scan_walk root dirpath n full : full ∈ scan_walk root dirpath n ↔
  ∃ path target, path ≠ [] ∧ tget path n = Some (NLink target false) ∧
    full = below dirpath path ∧ is_external_symlink full target root = true.
Proof.
  remember (height n) as h eqn:Hh. revert n dirpath Hh. induction (lt_wf h) as [h _ IH].
  intros n dirpath ->. destruct n as [s|t b|es].
  1,2: split; [by intros ?%elem_of_nil|]; intros ([|name path] & target & Hne & Ht & _); done.
  cbn [scan_walk].
  rewrite (elem_of_map_fold_app (λ name c,
    let full := path_join dirpath name in
    match c with
    | NLink target false => if is_external_symlink full target root then [full] else []
    | NDir _ => scan_walk root full c
    | _ => []
    end)).
  split.
  - intros (name & c & Hc & Hx). cbn zeta in Hx. destruct c as [s|t [|]|es'].
    + by apply elem_of_nil in Hx.
    + by apply elem_of_nil in Hx.
    + destruct (is_external_symlink _ t root) eqn:Ee; [|by apply elem_of_nil in Hx].
      apply list_elem_of_singleton in Hx as ->. exists [name], t. cbn [tget]. by rewrite Hc.
    + apply (IH (height (NDir es'))) in Hx as (path & target & Hne & Ht & -> & He);
        [|by eapply height_child|done].
      exists (name :: path), target. cbn [tget]. by rewrite Hc.
  - intros ([|name path] & target & Hne & Ht & -> & He); [done|]. cbn [tget] in Ht.
    destruct (es !! name) as [c|] eqn:Ec; [|done]. cbn in Ht. exists name, c. split; [done|].
    cbn zeta. destruct path as [|name' path].
    + cbn in Ht. injection Ht as ->. cbn [below foldl] in He |- *. unfold below in *. cbn in *.
      rewrite He. by apply list_elem_of_singleton.
    + destruct c as [s|t b|es']; [done|done|].
      apply (IH (height (NDir es'))); [by eapply height_child|done|].
      by exists (name' :: path), target.
Qed.

(** The scan reports exactly the links to files whose real target does not
    begin, as text, with the real path of the source.  So a link to a
    directory is never reported, and one into a sibling whose name extends the
    source's is taken for internal. *)
Theorem scan_exact root n full :
  (full ∈ scan_unsafe_symlinks root n ↔
   ∃ path target, path ≠ [] ∧ tget path n = Some (NLink target false) ∧ full = below root path ∧
     startswith (realpath root)
       (realpath (if startswith "/" target then full else path_join (dirname full) target)) = false)
  ∧ (∀ target suffix, startswith "/" target = true → realpath full = realpath root +:+ suffix →
       is_external_symlink full target root = false).
Proof.
  split.
  - unfold scan_unsafe_symlinks. rewrite elem_of_scan_walk.
    split; intros (path & target & Hne & Ht & Hf & He); exists path, target;
      (split_and!; [done..|]); revert He; unfold is_external_symlink;
      destruct (startswith "/" target); rewrite ?negb_true_iff; done.
  - intros target suffix Ht Hr. unfold is_external_symlink. by rewrite Ht, Hr, startswith_app.
Qed.
End scan.

(** A link out of [/home/ann/web] into [/home/ann/web-secrets] passes. *)
Example sibling_not_reported :
  scan_unsafe_symlinks (λ p, if String.eqb p "/home/ann/web/key" then "/home/ann/web-secrets/key" else p)
    "/home/ann/web" (NDir {[ "key" := NLink "/home/ann/web-secrets/key" false ]}) = [].
Proof. vm_compute. reflexivity. Qed.
