(* ===== verification/Secrets.v ===== *)
(** * core.scaffold and cli.main: the secrets of [.sandbox.env]

    The state is the file, its text and its mode, [None] when it is absent.
    Files are read in text mode, which turns each carriage return, with the
    newline after it if there is one, into a newline, and written as they are.
    The generated password is an argument. *)
From S2P Require Import Prelude PyStr.
From Stdlib Require Import Ascii String.
Open Scope nat_scope.

Record env_file := MkEnvFile { ef_text : string; ef_mode : Z }.
Abbreviation env_state := (option env_file).

Definition ENV_HEADER : string :=
  "# .sandbox.env — STRICTLY UNTRACKED SECRETS" +:+ NL +:+ NL +:+
  "# ── Core Container ────────────────────────────────────────────────────────────" +:+ NL +:+
  "CORE_ANTHROPIC_API_KEY=" +:+ DQ +:+ DQ +:+ NL +:+
  "CORE_GITHUB_TOKEN=" +:+ DQ +:+ DQ +:+ NL.

(** The block with the generated password in its slot. *)
Definition ENV_POSTGRES_BLOCK (pg_password : string) : string :=
  NL +:+
  "# ── Database ──────────────────────────────────────────────────────────────────" +:+ NL +:+
  "PG_USER=" +:+ DQ +:+ "sandbox" +:+ DQ +:+ NL +:+
  "PG_PASSWORD=" +:+ DQ +:+ pg_password +:+ DQ +:+ NL +:+
  "PG_DB=" +:+ DQ +:+ "sandbox_db" +:+ DQ +:+ NL.

Definition ENV_FIRECRAWL_BLOCK : string :=
  NL +:+
  "# ── MCP: Firecrawl ────────────────────────────────────────────────────────────" +:+ NL +:+
  "FIRECRAWL_API_KEY=" +:+ DQ +:+ DQ +:+ NL.

Definition env_content (db_postgres mcp_firecrawl : bool) (pg_password : string) : string :=
  ENV_HEADER +:+ (if db_postgres then ENV_POSTGRES_BLOCK pg_password else "") +:+
  (if mcp_firecrawl then ENV_FIRECRAWL_BLOCK else "").

(** [O_EXCL]: an existing file is [FileExistsError]. *)
Definition create_env_file (db_postgres mcp_firecrawl : bool) (pg_password : string)
    : eff env_state unit := λ s,
  match s with
  | Some _ => (Err OSError, s)
  | None => (Ok tt, Some (MkEnvFile (env_content db_postgres mcp_firecrawl pg_password) 384))
  end.

(** The universal newlines of [open] in text mode. *)
Fixpoint universal_newlines (s : string) : string :=
  match s with
  | "" => ""
  | String c s =>
      if Ascii.eqb c cr then
        match s with
        | String d s' => if Ascii.eqb d nl then String nl (universal_newlines s')
                         else String nl (universal_newlines s)
        | "" => NL
        end
      else String c (universal_newlines s)
  end.

Definition read_env : eff env_state string := λ s,
  match s with Some f => (Ok (universal_newlines (ef_text f)), s) | None => (Err FileNotFoundError, s) end.

(** [open(path, "w")] keeps the mode of an existing file. *)
Definition write_env (text : string) : eff env_state unit := λ s,
  (Ok tt, Some (MkEnvFile text (match s with Some f => ef_mode f | None => 420%Z end))).

(** [content.replace(f'{name}=""', f'{name}="{value}"')] *)
Definition slot (name value : string) : string := name +:+ "=" +:+ DQ +:+ value +:+ DQ.
Definition fill (content : string) (entry : string * string) : string :=
  replace (slot entry.1 "") (slot entry.1 entry.2) content.
Definition fill_all (content : string) (entries : list (string * string)) : string :=
  foldl fill content entries.

Definition REQUIRED_INSTANCE_SECRETS : list string := ["CORE_ANTHROPIC_API_KEY"; "CORE_GITHUB_TOKEN"].

Definition seed_secrets (secrets : list (string * string)) : eff env_state unit :=
  content ← read_env; write_env (fill_all content secrets).

(** ** Prompting *)

(** [^([A-Z0-9_]+)=] on one line: the name and the rest. *)
Definition is_name_char (c : ascii) : bool := is_upper c || is_dec c || Ascii.eqb c "_".
Definition name_line (line : string) : option (string * string) :=
  let '(name, rest) := span is_name_char line in
  match name, rest with
  | String _ _, String "=" rest => Some (name, rest)
  | _, _ => None
  end.

(** The names of the two patterns; both match within one line. *)
Definition present_names (content : string) : list string :=
  omap (λ l, fst <$> name_line l) (split_char nl content).
Definition is_empty_value (rest : string) : bool :=
  let blank s := str_forall is_space s in
  blank rest || (startswith (DQ +:+ DQ) rest && blank (sdrop 2 rest)) ||
  (startswith (SQ +:+ SQ) rest && blank (sdrop 2 rest)).
Definition empty_names (content : string) : list string :=
  omap (λ l, '(name, rest) ← name_line l; if is_empty_value rest then Some name else None)
    (split_char nl content).

Definition unresolved (content : string) (required_secrets : list (string * string)) : list string :=
  List.filter (λ n, negb (bool_decide (n ∈ present_names content)) ||
                    bool_decide (n ∈ empty_names content)) (map fst required_secrets).

(** [answer] is what [prompt_func] returns for a name and its description. *)
Definition prompt_secrets (isatty : bool) (answer : string → string → string)
    (required_secrets : list (string * string)) : eff env_state unit :=
  content ← read_env;
  if isatty then
    write_env (fill_all content (map (λ '(name, description), (name, answer name description))
                                   required_secrets))
  else
    let content := fill_all content (map (λ '(name, _), (name, "YOUR_" +:+ name +:+ "_HERE"))
                                       required_secrets) in
    _ ← write_env content;
    match unresolved content required_secrets with
    | [] => mret tt
    | _ => throw (SandboxExecutionError "Cannot stub required secrets" false)
    end.

(** ** Seeding from the environment or a file *)

Definition resolve_secrets_from_env (env : string → option string) : res (list (string * string)) :=
  let value name := default "" (env name) in
  if forallb (λ name, nonempty (value name)) REQUIRED_INSTANCE_SECRETS
  then Ok (map (λ name, (name, value name)) REQUIRED_INSTANCE_SECRETS)
  else Err SecretSeedingError.

Fixpoint parse_secret_lines (lines : list string) (parsed : gmap string string)
    : res (gmap string string) :=
  match lines with
  | [] => Ok parsed
  | line :: lines =>
      let stripped := strip line in
      if negb (nonempty stripped) || startswith "#" stripped then parse_secret_lines lines parsed
      else if negb (has_char "=" stripped) then Err SecretSeedingError
      else
        let '(key, _, value) := partition_char "=" stripped in
        let key := strip key in
        if bool_decide (key ∈ REQUIRED_INSTANCE_SECRETS)
        then parse_secret_lines lines (<[key := strip value]> parsed)
        else Err SecretSeedingError
  end.

(** [raw] is the file's text, [None] when it cannot be read. *)
Definition parse_secrets_file (raw : option string) : res (list (string * string)) :=
  match raw with
  | None => Err SecretSeedingError
  | Some raw =>
      parsed ← parse_secret_lines (splitlines raw) ∅;
      if forallb (λ name, nonempty (default "" (parsed !! name))) REQUIRED_INSTANCE_SECRETS
      then Ok (map (λ name, (name, default "" (parsed !! name))) REQUIRED_INSTANCE_SECRETS)
      else Err SecretSeedingError
  end.

(** ** cli.main: the gate of start *)

Definition env_var (env_vars : gmap string string) (line : string) : gmap string string :=
  let line := strip line in
  if has_char "=" line && negb (startswith "#" line) then
    let '(key, _, val) := partition_char "=" line in
    <[strip key := strip_char dq (strip val)]> env_vars
  else env_vars.

Definition env_vars (s : env_state) : gmap string string :=
  match s with
  | None => ∅
  | Some f => foldl env_var ∅ (split_char nl (universal_newlines (ef_text f)))
  end.

Definition required_of (db_postgres mcp_firecrawl : bool) : list string :=
  ("CORE_ANTHROPIC_API_KEY" :: (if db_postgres then ["PG_PASSWORD"] else []) ++
   (if mcp_firecrawl then ["FIRECRAWL_API_KEY"] else []))%list.

Definition check_secrets (db_postgres mcp_firecrawl : bool) (s : env_state) : list string :=
  List.filter (λ key, negb (nonempty (default "" (env_vars s !! key))))
    (required_of db_postgres mcp_firecrawl).

(** ** Replacement by lines *)

Lemma replace_skip_line old new k l t : has_char nl old = false → old ≠ "" → k <= str_len l →
  replace_skip old new k (l +:+ String nl t) = replace_skip old new k l +:+ String nl (replace old new t).
Proof.
  intros Hnl Hne. revert k; induction l as [|c l IH]; intros k Hk.
  { unfold str_len in Hk. simpl in Hk. destruct k as [|k]; [|lia]. cbn [String.append replace_skip].
    destruct old as [|a old]; [done|]. cbn [startswith]. unfold has_char in Hnl. cbn [str_exists] in Hnl.
    apply orb_false_iff in Hnl as [Ha _]. rewrite Ascii.eqb_sym, Ha. done. }
  unfold str_len in Hk. simpl in Hk. fold (str_len l) in Hk. cbn [String.append replace_skip].
  destruct k as [|k]; [|apply IH; lia].
  change (String c (l +:+ String nl t)) with (String c l +:+ String nl t).
  rewrite startswith_line by done. destruct (startswith old (String c l)) eqn:E.
  - rewrite IH; [by rewrite app_assoc_str|]. apply startswith_spec in E as [u Hu].
    apply (f_equal str_len) in Hu. revert Hu. rewrite str_len_app. unfold str_len. cbn [String.length]. lia.
  - cbn [String.append]. f_equal. apply IH. lia.
Qed.

Lemma replace_line old new l t : has_char nl old = false → old ≠ "" →
  replace old new (l +:+ String nl t) = replace old new l +:+ String nl (replace old new t).
Proof. intros. apply replace_skip_line; [done..|lia]. Qed.

Lemma contains_cons_false sub c s : contains sub (String c s) = false →
  startswith sub (String c s) = false ∧ contains sub s = false.
Proof.
  intros H. split; apply not_true_iff_false; intros Hc; apply not_true_iff_false in H; apply H;
    apply contains_spec.
  - apply startswith_spec in Hc as [t ->]. by exists "", t.
  - apply contains_spec in Hc as (t & u & ->). by exists (String c t), u.
Qed.

Lemma replace_none old new s : contains old s = false → replace old new s = s.
Proof.
  unfold replace. induction s as [|c s IH]; [done|]. intros [Hs Hc]%contains_cons_false.
  cbn [replace_skip]. by rewrite Hs, IH.
Qed.

Lemma replace_self old new : old ≠ "" → replace old new old = new.
Proof.
  intros Hne. unfold replace. destruct old as [|c old]; [done|]. cbn [replace_skip].
  pose proof (startswith_app (String c old) "") as H. rewrite app_nil_r_str in H. rewrite H.
  replace (str_len (String c old) - 1) with (str_len old) by (unfold str_len; simpl; lia).
  rewrite <- (app_nil_r_str new) at 3. f_equal.
  generalize (String c old) as p. intros p. clear. induction old as [|a old IH]; [done|]. exact IH.
Qed.

(** Lines, each with its end. *)
Fixpoint unlines (ls : list string) : string :=
  match ls with [] => "" | l :: ls => l +:+ String nl (unlines ls) end.

Lemma replace_unlines old new ls : has_char nl old = false → old ≠ "" →
  replace old new (unlines ls) = unlines (map (replace old new) ls).
Proof. intros Hnl Hne. induction ls as [|l ls IH]; [done|]. cbn [unlines map]. by rewrite replace_line, IH. Qed.

Lemma split_unlines ls : Forall (λ l, has_char nl l = false) ls →
  split_char nl (unlines ls) = (ls ++ [""])%list.
Proof. induction 1 as [|l ls Hl _ IH]; [done|]. cbn [unlines]. by rewrite split_char_app, IH. Qed.

(** ** Slots *)

(** Text on one line, without quotes; a carriage return ends a line too. *)
Definition one_line (v : string) : Prop :=
  has_char dq v = false ∧ has_char nl v = false ∧ has_char cr v = false.

(** A value that keeps its line and its quotes. *)
Definition plain_value (v : string) : Prop := v ≠ "" ∧ one_line v.

Lemma universal_newlines_id s : has_char cr s = false → universal_newlines s = s.
Proof.
  unfold has_char. induction s as [|c s IH]; [done|]. cbn [str_exists universal_newlines].
  intros [Hc Hs]%orb_false_iff. rewrite Ascii.eqb_sym, Hc. by rewrite IH.
Qed.

Lemma has_char_unlines c ls : Ascii.eqb c nl = false → Forall (λ l, has_char c l = false) ls →
  has_char c (unlines ls) = false.
Proof.
  intros Hc. induction 1 as [|l ls Hl _ IH]; [done|]. cbn [unlines]. rewrite has_char_app, Hl.
  unfold has_char in *. cbn [str_exists]. by rewrite Hc.
Qed.

(** A variable's name. *)
Definition var_name (n : string) : Prop := n ≠ "" ∧ str_forall is_name_char n = true.

Lemma is_name_char_other c d : is_name_char c = true → is_name_char d = false → Ascii.eqb d c = false.
Proof. intros Hc Hd. apply Ascii.eqb_neq. intros ->. by rewrite Hc in Hd. Qed.

Lemma var_name_no c n : is_name_char c = false → str_forall is_name_char n = true → has_char c n = false.
Proof.
  intros Hc. unfold has_char. induction n as [|a n IH]; [done|]. cbn [str_forall str_exists].
  intros [Ha Hn]%andb_true_iff. by rewrite (is_name_char_other a c), IH.
Qed.

Lemma contains_trans a b c : contains a b = true → contains b c = true → contains a c = true.
Proof.
  intros (t & u & ->)%contains_spec (t' & u' & ->)%contains_spec. apply contains_spec.
  exists (t' +:+ t), (u +:+ u'). by rewrite !app_assoc_str.
Qed.

Lemma find_none_app c d s t : has_char c s = false → contains (String c (ch d)) t = false →
  contains (String c (ch d)) (s +:+ t) = false.
Proof.
  intros Hs Ht. unfold has_char in Hs. induction s as [|a s IH]; [done|]. cbn [str_exists] in Hs.
  apply orb_false_iff in Hs as [Ha Hs]. apply not_true_iff_false.
  intros (x & y & Hx)%contains_spec. destruct x as [|b x]; simplify_eq/=.
  - by rewrite Ascii.eqb_refl in Ha.
  - apply not_true_iff_false in IH; [|done]. apply IH. apply contains_spec. by exists x, y.
Qed.

(** Two quotes in a row occur in an empty slot only. *)
Lemma slot_two_quotes n v : str_forall is_name_char n = true → plain_value v →
  contains (DQ +:+ DQ) (slot n v) = false.
Proof.
  intros Hn (Hne & Hq & _). unfold slot. change (DQ +:+ DQ) with (String dq (ch dq)).
  rewrite <- app_assoc_str. apply find_none_app; [by rewrite has_char_app, var_name_no|].
  destruct v as [|c v]; [done|]. unfold has_char in Hq. cbn [str_exists] in Hq.
  apply orb_false_iff in Hq as [Hc Hv]. apply not_true_iff_false.
  intros (x & y & Hx)%contains_spec. destruct x as [|b x].
  { apply Ascii.eqb_neq in Hc. injection Hx as Hx _. by rewrite Hx in Hc. }
  injection Hx as _ Hx.
  assert (contains (String dq (ch dq)) (String c v +:+ DQ) = false) as H.
  { apply find_none_app; [|by vm_compute]. unfold has_char. cbn [str_exists]. by rewrite Hc. }
  apply not_true_iff_false in H. apply H, contains_spec. by exists x, y.
Qed.

Lemma fill_slot_other n v m w : str_forall is_name_char m = true → plain_value w →
  replace (slot n "") (slot n v) (slot m w) = slot m w.
Proof.
  intros Hm Hw. apply replace_none. apply not_true_iff_false. intros H.
  pose proof (slot_two_quotes m w Hm Hw) as Hs. apply not_true_iff_false in Hs. apply Hs.
  eapply contains_trans; [|exact H]. apply contains_spec. exists (n +:+ "="), "".
  unfold slot. by rewrite !app_assoc_str.
Qed.

(** What start's gate reads in a line. *)
Lemma rstrip_p_last p s c : p c = false → rstrip_p p (s +:+ ch c) = s +:+ ch c.
Proof.
  intros Hc. induction s as [|a s IH]; cbn [String.append rstrip_p].
  - unfold ch. cbn [rstrip_p]. by rewrite Hc.
  - rewrite IH. by destruct s.
Qed.

Lemma strip_slot n v : var_name n → strip (slot n v) = slot n v.
Proof.
  intros [Hne Hn]. unfold strip.
  assert (lstrip_p is_space (slot n v) = slot n v) as ->.
  { destruct n as [|c n]; [done|]. cbn [str_forall] in Hn. apply andb_true_iff in Hn as [Hc _].
    unfold slot. cbn [String.append lstrip_p]. replace (is_space c) with false; [done|].
    symmetry. clear -Hc. destruct c as [[] [] [] [] [] [] [] []]; vm_compute in Hc |- *; congruence. }
  replace (slot n v) with ((n +:+ "=" +:+ DQ +:+ v) +:+ ch dq) by (unfold slot; by rewrite !app_assoc_str).
  by apply rstrip_p_last.
Qed.

Lemma str_forall_strip_id n : str_forall is_name_char n = true → strip n = n.
Proof.
  intros Hn. apply strip_id. eapply str_forall_impl; [|exact Hn]. intros c Hc.
  clear -Hc. destruct c as [[] [] [] [] [] [] [] []]; vm_compute in Hc |- *; congruence.
Qed.

Lemma strip_quoted v : strip (DQ +:+ v +:+ DQ) = DQ +:+ v +:+ DQ.
Proof.
  unfold strip. change (lstrip_p is_space (DQ +:+ v +:+ DQ)) with (DQ +:+ v +:+ DQ).
  rewrite <- (app_assoc_str DQ). by apply rstrip_p_last.
Qed.

Lemma strip_char_quoted v : has_char dq v = false → strip_char dq (DQ +:+ v +:+ DQ) = v.
Proof.
  intros Hv. unfold strip_char, lstrip_char, rstrip_char.
  assert (lstrip_p (Ascii.eqb dq) (v +:+ DQ) = if nonempty v then v +:+ DQ else "") as Hl.
  { destruct v as [|c v]; [done|]. unfold has_char in Hv. cbn [str_exists] in Hv.
    apply orb_false_iff in Hv as [Hc _]. cbn [String.append lstrip_p nonempty]. by rewrite Hc. }
  cbn [String.append lstrip_p ch]. rewrite Ascii.eqb_refl. cbn [String.append]. rewrite Hl.
  destruct (nonempty v) eqn:E; [|by destruct v]. clear Hl E.
  unfold has_char in Hv. induction v as [|c v IH].
  - cbn [String.append rstrip_p ch]. by rewrite Ascii.eqb_refl.
  - cbn [str_exists] in Hv. apply orb_false_iff in Hv as [Hc Hv]. cbn [String.append rstrip_p].
    rewrite IH by done. destruct v; [by rewrite Hc|done].
Qed.

Lemma env_var_slot vars n v : var_name n → has_char dq v = false →
  env_var vars (slot n v) = <[n := v]> vars.
Proof.
  intros Hn Hv. unfold env_var. rewrite strip_slot by done. destruct Hn as [Hne Hn].
  assert (has_char "=" n = false) as He by (by apply var_name_no).
  assert (has_char "=" (slot n v) = true) as -> by (unfold slot; rewrite !has_char_app; by rewrite orb_true_r).
  assert (startswith "#" (slot n v) = false) as ->.
  { destruct n as [|c n]; [done|]. cbn [str_forall] in Hn. apply andb_true_iff in Hn as [Hc _].
    unfold slot. cbn [String.append startswith]. rewrite Ascii.eqb_sym.
    rewrite (Ascii.eqb_sym c), (is_name_char_other c "#"%char) by done. done. }
  cbn [negb andb]. unfold slot.
  change (n +:+ "=" +:+ DQ +:+ v +:+ DQ) with (n +:+ String "=" (DQ +:+ v +:+ DQ)).
  rewrite partition_char_app by done. by rewrite str_forall_strip_id, strip_quoted, strip_char_quoted.
Qed.

(** ** The canonical file *)

(** Its lines, with values in the four slots. *)
Definition env_lines (db_postgres mcp_firecrawl : bool) (anthropic github pg firecrawl : string)
    : list string :=
  ["# .sandbox.env — STRICTLY UNTRACKED SECRETS"; "";
   "# ── Core Container ────────────────────────────────────────────────────────────";
   slot "CORE_ANTHROPIC_API_KEY" anthropic; slot "CORE_GITHUB_TOKEN" github] ++
  (if db_postgres then
     ["";
      "# ── Database ──────────────────────────────────────────────────────────────────";
      slot "PG_USER" "sandbox"; slot "PG_PASSWORD" pg; slot "PG_DB" "sandbox_db"] else []) ++
  (if mcp_firecrawl then
     ["";
      "# ── MCP: Firecrawl ────────────────────────────────────────────────────────────";
      slot "FIRECRAWL_API_KEY" firecrawl] else []).

Lemma env_content_lines db fc pw : env_content db fc pw = unlines (env_lines db fc "" "" pw "").
Proof.
  unfold env_content, ENV_HEADER, ENV_POSTGRES_BLOCK, ENV_FIRECRAWL_BLOCK, env_lines, slot, ch.
  destruct db, fc; cbn [app unlines]; rewrite !app_assoc_str; cbn [String.append];
    rewrite ?app_assoc_str; cbn [String.append]; rewrite ?app_nil_r_str; reflexivity.
Qed.

Definition slot_value (v : string) : Prop := v = "" ∨ plain_value v.

Lemma slot_value_line v : slot_value v → one_line v.
Proof. by intros [-> |[_ H]]. Qed.

(** Reading the canonical file changes nothing in it. *)
Lemma canonical_read db fc a g pw f : one_line a → one_line g → one_line pw → one_line f →
  universal_newlines (unlines (env_lines db fc a g pw f)) = unlines (env_lines db fc a g pw f).
Proof.
  intros (_ & _ & Ha) (_ & _ & Hg) (_ & _ & Hp) (_ & _ & Hf).
  apply universal_newlines_id, has_char_unlines; [done|].
  unfold env_lines, slot. destruct db, fc; cbn [app]; repeat constructor;
    rewrite ?has_char_app, ?Ha, ?Hg, ?Hp, ?Hf; done.
Qed.

Lemma fill_slot_cases n v m w : str_forall is_name_char m = true → slot_value w →
  contains (slot n "") (slot m "") = false → replace (slot n "") (slot n v) (slot m w) = slot m w.
Proof. intros Hm [-> | Hw] Hc; [by apply replace_none|by apply fill_slot_other]. Qed.

(** Filling a slot of the canonical file fills that slot. *)
Lemma fill_canonical db fc a g pw f v : slot_value a → slot_value g → plain_value pw → slot_value f →
  fill (unlines (env_lines db fc "" g pw f)) ("CORE_ANTHROPIC_API_KEY", v) =
    unlines (env_lines db fc v g pw f) ∧
  fill (unlines (env_lines db fc a "" pw f)) ("CORE_GITHUB_TOKEN", v) =
    unlines (env_lines db fc a v pw f) ∧
  fill (unlines (env_lines db fc a g pw "")) ("FIRECRAWL_API_KEY", v) =
    unlines (env_lines db fc a g pw v).
Proof.
  intros Ha Hg Hpw Hf. unfold fill. cbn [fst snd]. rewrite !replace_unlines by done.
  assert (slot_value pw) as Hp by by right.
  unfold env_lines. destruct db, fc; cbn [app map]; rewrite !replace_self by done;
    split_and!; f_equal; repeat apply (f_equal2 cons);
    first [done | apply replace_none; by vm_compute | apply fill_slot_cases; [done|done|by vm_compute]].
Qed.

(** The variables the gate reads in it. *)
Lemma canonical_vars db fc a g pw f m :
  one_line a → one_line g → one_line pw → one_line f →
  env_vars (Some (MkEnvFile (unlines (env_lines db fc a g pw f)) m)) =
    let base := <["CORE_GITHUB_TOKEN" := g]> (<["CORE_ANTHROPIC_API_KEY" := a]> ∅) in
    let pg := if db then <["PG_DB" := "sandbox_db"]> (<["PG_PASSWORD" := pw]>
                           (<["PG_USER" := "sandbox"]> base)) else base in
    if fc then <["FIRECRAWL_API_KEY" := f]> pg else pg.
Proof.
  intros Hla Hlg Hlp Hlf. unfold env_vars. cbn [ef_text]. rewrite canonical_read by done.
  destruct Hla as (Ha & Ha' & _), Hlg as (Hg & Hg' & _), Hlp as (Hp & Hp' & _), Hlf as (Hf & Hf' & _).
  rewrite split_unlines.
  - rewrite foldl_app. cbn [foldl].
    assert (∀ vars, env_var vars "" = vars) as He by done. rewrite He.
    assert (∀ vars l, startswith "#" l = true → strip l = l → env_var vars l = vars) as Hc.
    { intros vars l Hl Hs. unfold env_var. by rewrite Hs, Hl, andb_false_r. }
    unfold env_lines. destruct db, fc; cbn [app foldl];
      repeat first [rewrite He | rewrite env_var_slot by done | rewrite Hc by done]; done.
  - unfold env_lines, slot. destruct db, fc; cbn [app]; repeat constructor;
      rewrite ?has_char_app, ?Ha', ?Hg', ?Hp', ?Hf'; done.
Qed.

(** ** Properties *)

(** C14: Seeded secrets are read back.  From no file, creating [.sandbox.env] and
    seeding the required secrets with non-empty values that have no quote and no
    end of line (newline or carriage return) succeeds at mode 0600; start's gate
    then reads back exactly those values and the generated password, and the
    only secret it reports missing is the Firecrawl key, exactly when that
    component is enabled, since seeding does not cover it. *)
Theorem seeded_secrets_read_back db fc pw v1 v2 :
  plain_value pw → plain_value v1 → plain_value v2 →
  ∃ s, (create_env_file db fc pw ≫= λ _,
          seed_secrets [("CORE_ANTHROPIC_API_KEY", v1); ("CORE_GITHUB_TOKEN", v2)]) None = (Ok tt, s) ∧
    ef_mode <$> s = Some 384%Z ∧
    env_vars s !! "CORE_ANTHROPIC_API_KEY" = Some v1 ∧
    env_vars s !! "CORE_GITHUB_TOKEN" = Some v2 ∧
    (db = true → env_vars s !! "PG_PASSWORD" = Some pw) ∧
    check_secrets db fc s = if fc then ["FIRECRAWL_API_KEY"] else [].
Proof.
  intros Hpw Hv1 Hv2. pose proof Hpw as [Hp1 Hp2]. pose proof Hv1 as [Ha1 Ha2]. pose proof Hv2 as [Hg1 Hg2].
  assert (one_line "") as H0 by done.
  eexists. split.
  { unfold seed_secrets, fill_all, mbind, eff_bind, read_env, write_env. cbn [create_env_file ef_text foldl].
    rewrite env_content_lines, canonical_read by done.
    rewrite (proj1 (fill_canonical db fc "" "" pw "" v1 ltac:(by left) ltac:(by left) Hpw ltac:(by left))).
    rewrite (proj1 (proj2 (fill_canonical db fc v1 "" pw "" v2 ltac:(by right) ltac:(by left) Hpw
      ltac:(by left)))). done. }
  cbn [ef_mode]. unfold check_secrets. rewrite canonical_vars by done.
  assert (∀ v, v ≠ "" → negb (nonempty v) = false) as Hne by (by intros []).
  split; [done|]. unfold required_of.
  destruct db, fc; cbn [app List.filter]; simplify_map_eq; cbn [default];
    rewrite ?Hne by done; done.
Qed.

Lemma seeded_secrets_read_back_witness :
  ∃ s, (create_env_file true false "tok-en_1" ≫= λ _,
          seed_secrets [("CORE_ANTHROPIC_API_KEY", "sk = #1 "); ("CORE_GITHUB_TOKEN", "g")]) None
         = (Ok tt, s) ∧
    env_vars s !! "CORE_ANTHROPIC_API_KEY" = Some "sk = #1 " ∧ check_secrets true false s = [].
Proof.
  destruct (seeded_secrets_read_back true false "tok-en_1" "sk = #1 " "g")
    as (s & H1 & _ & H2 & _ & _ & H3); [by split_and!..|].
  exists s. by split_and!.
Defined.

(** A carriage return in a value ends its line when the gate reads it. *)
Example carriage_return_cuts_value :
  let v := "key" +:+ ch cr +:+ "rest" in
  ∃ s, (create_env_file false false "" ≫= λ _, seed_secrets [("CORE_ANTHROPIC_API_KEY", v)]) None = (Ok tt, s) ∧
    env_vars s !! "CORE_ANTHROPIC_API_KEY" = Some "key".
Proof. eexists. split; vm_compute; reflexivity. Qed.

(** The values are not checked: one with a quote and a line end writes another
    variable, which the gate and Compose then read. *)
Lemma seeding_injects :
  let env name := if String.eqb name "CORE_ANTHROPIC_API_KEY" then Some "real"
    else Some ("g" +:+ DQ +:+ NL +:+ "CORE_ANTHROPIC_API_KEY=" +:+ DQ +:+ "other") in
  ∃ secrets s, resolve_secrets_from_env env = Ok secrets ∧
    (create_env_file false false "" ≫= λ _, seed_secrets secrets) None = (Ok tt, s) ∧
    env_vars s !! "CORE_ANTHROPIC_API_KEY" = Some "other".
Proof. intros env. eexists _, _. split; [reflexivity|]. split; vm_compute; reflexivity. Qed.

Lemma name_line_slot n v : var_name n → name_line (slot n v) = Some (n, DQ +:+ v +:+ DQ).
Proof.
  intros [Hne Hn]. unfold name_line, slot. rewrite span_app; [|done|by intros c t [= <- _]].
  by destruct n.
Qed.

Lemma is_empty_quoted v : plain_value v → is_empty_value (DQ +:+ v +:+ DQ) = false.
Proof.
  intros (Hne & Hq & _). destruct v as [|c v]; [done|]. unfold has_char in Hq. cbn [str_exists] in Hq.
  apply orb_false_iff in Hq as [Hc _]. unfold is_empty_value.
  change (DQ +:+ String c v +:+ DQ) with (String dq (String c (v +:+ DQ))).
  change (DQ +:+ DQ) with (String dq (ch dq)). cbn [startswith ch]. by rewrite Hc, andb_false_r.
Qed.

(** A file of comments and filled slots has no empty name. *)
Definition filled_line (l : string) : Prop :=
  has_char nl l = false ∧
  (name_line l = None ∨ ∃ n v, l = slot n v ∧ var_name n ∧ plain_value v).

Lemma filled_resolved ls required : Forall filled_line ls →
  Forall (λ r : string * string, var_name r.1 ∧ ∃ v, slot r.1 v ∈ ls) required →
  unresolved (unlines ls) required = [].
Proof.
  intros Hl Hr. unfold unresolved, present_names, empty_names.
  rewrite split_unlines by (eapply Forall_impl; [exact Hl|by intros l []]).
  induction Hr as [|[n d] required [Hn (v & Hv)] _ IH]; [done|]. cbn [map List.filter fst].
  rewrite bool_decide_true, bool_decide_false; [exact IH|..]; cbn [fst] in *.
  - rewrite list_elem_of_omap. intros (l & Hin & H). apply elem_of_app in Hin as [Hin|Hin].
    + rewrite Forall_forall in Hl. destruct (Hl _ Hin) as [_ [Hnone|(m & w & -> & Hm & Hw)]].
      * by rewrite Hnone in H.
      * rewrite name_line_slot in H by done. cbn [mbind option_bind] in H. by rewrite is_empty_quoted in H.
    + apply list_elem_of_singleton in Hin as ->. done.
  - rewrite list_elem_of_omap. exists (slot n v). split; [set_solver|]. by rewrite name_line_slot.
Qed.

Lemma canonical_filled db fc a g pw f : plain_value a → plain_value g → plain_value pw → plain_value f →
  Forall filled_line (env_lines db fc a g pw f).
Proof.
  intros Ha Hg Hpw Hf.
  assert (∀ n v, var_name n → plain_value v → filled_line (slot n v)) as Hs.
  { intros n v Hn Hv. split; [|right; by exists n, v]. destruct Hn as [_ Hn], Hv as (_ & _ & Hv & _).
    unfold slot. rewrite !has_char_app, Hv, (var_name_no nl n) by done. done. }
  unfold env_lines. destruct db, fc; cbn [app]; repeat apply Forall_cons_2; try apply Forall_nil_2;
    lazymatch goal with
    | |- filled_line (slot _ _) => apply Hs; [by split|first [assumption|by split_and!]]
    | |- _ => split; [|left]; by vm_compute
    end.
Qed.

(** The placeholders a non-interactive init writes. *)
Definition stub_value (name : string) : string := "YOUR_" +:+ name +:+ "_HERE".

Lemma stub_plain n : str_forall is_name_char n = true → plain_value (stub_value n).
Proof. intros Hn. unfold stub_value. split; [done|]. unfold one_line. by rewrite !has_char_app, !var_name_no by done. Qed.

(** The stub of a non-interactive init: every prompted secret gets its
    placeholder and the gate is satisfied. *)
Lemma stubbed_secrets_complete (db fc : bool) (pw : string) : plain_value pw →
  ∃ s, (create_env_file db fc pw ≫= λ _, prompt_secrets false (λ _ _, "")
          ([("CORE_ANTHROPIC_API_KEY", "Anthropic API key");
            ("CORE_GITHUB_TOKEN", "GitHub personal access token")] ++
           (if fc then [("FIRECRAWL_API_KEY", "Firecrawl API key")] else []))%list) None = (Ok tt, s) ∧
    check_secrets db fc s = [].
Proof.
  intros Hpw. pose proof Hpw as [Hp1 Hp2]. assert (one_line "") as H0 by done.
  set (a := stub_value "CORE_ANTHROPIC_API_KEY"). set (g := stub_value "CORE_GITHUB_TOKEN").
  set (f := stub_value "FIRECRAWL_API_KEY").
  assert (plain_value a ∧ plain_value g ∧ plain_value f) as (Ha & Hg & Hf) by (by split_and!; apply stub_plain).
  pose proof (λ x y z w, fill_canonical db fc x y pw z w) as Hfill.
  unfold prompt_secrets, fill_all, mbind, eff_bind, read_env, write_env. cbn [create_env_file ef_text].
  rewrite env_content_lines, canonical_read by done.
  assert (foldl fill (unlines (env_lines db fc "" "" pw "")) (map (λ '(name, _), (name, stub_value name))
    ([("CORE_ANTHROPIC_API_KEY", "Anthropic API key");
      ("CORE_GITHUB_TOKEN", "GitHub personal access token")] ++
     (if fc then [("FIRECRAWL_API_KEY", "Firecrawl API key")] else []))%list) =
    unlines (env_lines db fc a g pw (if fc then f else ""))) as E.
  { cbn [app map foldl]. fold a g.
    rewrite (proj1 (Hfill "" "" "" a ltac:(by left) ltac:(by left) Hpw ltac:(by left))).
    rewrite (proj1 (proj2 (Hfill a "" "" g (or_intror Ha) ltac:(by left) Hpw ltac:(by left)))).
    destruct fc; [|done]. cbn [map foldl]. fold f.
    exact (proj2 (proj2 (Hfill a g "" f (or_intror Ha) (or_intror Hg) Hpw (or_introl eq_refl)))). }
  unfold stub_value in E. rewrite E. clear E Hfill.
  assert (unresolved (unlines (env_lines db fc a g pw (if fc then f else "")))
    ([("CORE_ANTHROPIC_API_KEY", "Anthropic API key");
      ("CORE_GITHUB_TOKEN", "GitHub personal access token")] ++
     (if fc then [("FIRECRAWL_API_KEY", "Firecrawl API key")] else []))%list = []) as ->.
  { apply filled_resolved.
    - destruct fc; [by apply canonical_filled|]. exact (canonical_filled db false a g pw f Ha Hg Hpw Hf).
    - unfold env_lines. destruct fc; repeat constructor; try done; eexists; cbn [fst];
        rewrite ?elem_of_app, !elem_of_cons; eauto 12. }
  eexists. split; [done|]. unfold check_secrets.
  rewrite canonical_vars; [|apply Ha|apply Hg|done|destruct fc; [apply Hf|done]].
  destruct db, fc; cbn; rewrite ?lookup_insert; destruct pw; done.
Qed.
