(* ===== verification/Recipes.v ===== *)
(** * cli.main: the plans of a start and a stop; core.actions

    The ownership tables, the ACL plans, the helper and workspace plans, as
    lists of actions that the dry run shows and the live phase runs.  [stat_uid]
    gives the owner of a path ([None] when [os.stat] fails). *)
From S2P Require Import Prelude PyStr HostConfig.
From Stdlib Require Import Ascii String.
Open Scope nat_scope.

(** ** pathlib: [str(Path(s))] *)

Definition path_parts (s : string) : list string :=
  List.filter (λ p, negb (bool_decide (p ∈ [""; "."]))) (split_char slash s).

Definition path_root (s : string) : string :=
  if startswith "//" s && negb (startswith "///" s) then "//"
  else if startswith "/" s then "/" else "".

Definition Path (s : string) : string :=
  let t := path_root s +:+ join "/" (path_parts s) in if nonempty t then t else ".".

(** ** core.actions *)

Inductive SharedGroupStep := chgrp | chmod_2770 | setfacl_effective | setfacl_default.

#[export] Instance step_eq_dec : EqDecision SharedGroupStep.
Proof. solve_decision. Defined.

Inductive Action :=
  | NamedAclGrantAction (command : list string) (description target entry : string)
      (default recursive : bool)
  | NamedAclRevokeAction (command : list string) (description target entry : string)
      (default : bool)
  | HelperMkdirChownAction (parent : string) (leaves : list string) (owner_uid owner_gid : Z)
  | HelperCpChownAction (parent : string) (files : list string) (owner_uid owner_gid mode : Z)
  | WorkspaceSharedGroupAction (workspace_path : string) (bridge_gid : Z) (step : SharedGroupStep)
      (op : string) (command : list string)
  | ComposeUpAction (instance_name : string).

#[export] Instance action_eq_dec : EqDecision Action.
Proof. solve_decision. Defined.

(** [describe()] of the actions whose line is plain text. *)
Definition describe (a : Action) : option string :=
  match a with
  | NamedAclGrantAction command description _ _ _ _
  | NamedAclRevokeAction command description _ _ _ =>
      Some ("    $ " +:+ join " " command +:+ "  # " +:+ description)
  | WorkspaceSharedGroupAction ws _ _ op _ => Some ("    workspace: " +:+ op +:+ " " +:+ ws)
  | ComposeUpAction inst => Some inst
  | HelperMkdirChownAction _ _ _ _ | HelperCpChownAction _ _ _ _ _ => None
  end.

(** ** The tables: parent, files, in-container uid, mode *)

Definition recipe : Type := string * list string * Z * Z.

Definition RO_FILE_RECIPES : list recipe :=
  [("config/coredns", ["Corefile"], 65532%Z, 416%Z);
   ("config/dnsdist", ["dnsdist.conf"], 953%Z, 416%Z);
   ("config/proxy", ["squid.conf"; "allowed_domains.txt"; "read_only_domains.txt";
                     "ERR_SANDBOX_403"; ".htpasswd"], 13%Z, 416%Z);
   ("config/core", [".bashrc"; ".npmrc"; ".gitconfig"; "CLAUDE.md"; "sshd_config"], 1000%Z, 416%Z);
   ("secrets", ["authorized_keys"; "ipc_host_key"], 1000%Z, 384%Z)].

Definition EXEC_FILE_RECIPES : list recipe :=
  [("docker/core", ["entrypoint.sh"], 1000%Z, 320%Z)].

Definition RW_FILE_RECIPES : list recipe :=
  [("config/core", [".claude.json"], 1000%Z, 432%Z)].

(** [( *RO_FILE_RECIPES, *EXEC_FILE_RECIPES, *RW_FILE_RECIPES)] *)
Definition file_recipes : list recipe :=
  (RO_FILE_RECIPES ++ EXEC_FILE_RECIPES ++ RW_FILE_RECIPES)%list.

Definition DAEMON_READ_DIRECT_FILES : list (string * list string) :=
  [("docker", ["compose.yml"]);
   ("docker/extras", ["db-postgres.yml"; "mcp-firecrawl.yml"]);
   ("docker/core", ["Dockerfile.core"]);
   ("docker/admin", ["Dockerfile.admin"; "fwd.go"]);
   ("docker/coredns", ["Dockerfile.coredns"]);
   ("docker/extras", ["Dockerfile.mcp-firecrawl"])].

Definition CACHE_LOG_LEAVES_BY_PARENT : list (string * list string) :=
  [("cache/core", [".claude"]); ("log", ["core"])].

(** ** Helper plans *)

Section helpers.
Context (h : host_env) (instance_dir host_user : string).

Definition helper_mkdir_chown_plan : res (list Action) :=
  owner_uid ← host_id_for_in_container h 1000 host_user;
  owner_gid ← host_gid_for_in_container h 1000 host_user;
  Ok (map (λ '(parent, leaves),
        HelperMkdirChownAction (Path (path_join instance_dir parent)) leaves owner_uid owner_gid)
      CACHE_LOG_LEAVES_BY_PARENT).

Definition helper_cp_chown_plan : res (list Action) :=
  res_map (λ '(parent, files, consumer_uid, mode),
    owner_uid ← host_id_for_in_container h consumer_uid host_user;
    owner_gid ← host_gid_for_in_container h consumer_uid host_user;
    Ok (HelperCpChownAction (Path (path_join instance_dir parent)) files owner_uid owner_gid mode))
  file_recipes.
End helpers.

(** The candidates of [_post_hydrate_daemon_read_targets], and the ones that
    are files. *)
Definition daemon_read_candidates (instance_dir : string) : list string :=
  (flat_map (λ '(parent, files, _, _), map (path_join (path_join instance_dir parent)) files)
     file_recipes ++
   flat_map (λ '(parent, files), map (path_join (path_join instance_dir parent)) files)
     DAEMON_READ_DIRECT_FILES)%list.

Definition post_hydrate_daemon_read_targets (isfile : string → bool) (instance_dir : string)
    : list string :=
  List.filter isfile (daemon_read_candidates instance_dir).

Definition daemon_read_command (host_user path : string) : list string :=
  ["setfacl"; "-m"; "u:" +:+ host_user +:+ ":r"; path].

(** The paths [_phase_stop_unlink_consumer_files] unlinks. *)
Definition unlink_targets (plan : list Action) : list string :=
  flat_map (λ a, match a with
    | HelperCpChownAction parent files _ _ _ => map (path_join parent) files
    | _ => [] end) plan.

(** ** Ancestors owned by the caller *)

Section acl.
Context (uid : Z) (stat_uid : string → option Z) (abspath : string → string).

(** The [while parent != "/"] loop of [_compute_ancestors]; [None] is out of
    fuel. *)
Fixpoint ancestors_loop (fuel : nat) (parent : string) (ancestors : list string)
    : option (list string) :=
  match fuel with
  | O => None
  | S fuel =>
      if String.eqb parent "/" then Some ancestors
      else match stat_uid parent with
           | None => Some ancestors
           | Some st_uid => if (st_uid =? uid)%Z
               then ancestors_loop fuel (dirname parent) (ancestors ++ [parent])%list
               else Some ancestors
           end
  end.

Definition compute_ancestors (path : string) : option (list string) :=
  let abs_path := abspath path in
  l ← ancestors_loop (S (str_len abs_path)) (dirname abs_path) []; Some (rev l).

(** [_compute_workspace_ancestors] has the same body. *)
Definition compute_workspace_ancestors (path : string) : option (list string) :=
  compute_ancestors path.

(** ** The grant plan *)

Definition grant (argv : list string) (description target entry : string)
    (default recursive : bool) : Action :=
  NamedAclGrantAction argv description (Path target) entry default recursive.

Definition grant_m (entry target label : string) : Action :=
  grant ["setfacl"; "-m"; entry; target] (label +:+ ": " +:+ target) target entry false false.
Definition grant_dm (entry target label : string) : Action :=
  grant ["setfacl"; "-d"; "-m"; entry; target] (label +:+ ": " +:+ target) target entry true false.
Definition grant_Rm (entry target label : string) : Action :=
  grant ["setfacl"; "-R"; "-m"; entry; target] (label +:+ ": " +:+ target) target entry false true.

Definition named (host_user perms : string) : string := "u:" +:+ host_user +:+ ":" +:+ perms.

Definition workspace_default_entry (host_user : string) (dev_user : option string) : string :=
  "u::rwx,g::rwx,o::---,m::rwx,u:" +:+ host_user +:+ ":rwx" +:+
  match dev_user with Some d => if nonempty d then ",u:" +:+ d +:+ ":rwx" else "" | None => "" end.

(** The ancestors that are not in [seen_ancestors], which grows. *)
Fixpoint unseen (seen_ancestors ancestors : list string) : list string :=
  match ancestors with
  | [] => []
  | a :: rest => if bool_decide (a ∈ seen_ancestors) then unseen seen_ancestors rest
                 else a :: unseen (a :: seen_ancestors) rest
  end.

(** The entries of the workspaces; [seen] are the ancestors granted before. *)
Fixpoint workspace_grants (host_user : string) (dev_user : option string) (seen : list string)
    (workspace_paths : list string) : option (list Action) :=
  match workspace_paths with
  | [] => Some []
  | ws_path :: rest =>
      ancestors ← compute_workspace_ancestors ws_path;
      let new := unseen seen ancestors in
      later ← workspace_grants host_user dev_user (seen ++ new)%list rest;
      Some (map (λ a, grant_m (named host_user "--x") a "workspace ancestor traverse") new ++
            [grant_m (named host_user "rwx") ws_path "workspace named-ACL";
             grant_dm (workspace_default_entry host_user dev_user) ws_path "workspace default ACL"] ++
            later)%list
  end.

Definition helper_cp_config_parents : list string :=
  ["config/coredns"; "config/dnsdist"; "config/proxy"; "config/core"].
Definition helper_recipe_parents : list string := ["cache/core"; "log"].

Definition instance_grants (instance_dir host_user : string) : list Action :=
  let at_ := path_join instance_dir in
  ([grant_m (named host_user "r-x") instance_dir "instance root";
    grant_Rm (named host_user "rX") (at_ "docker/") "docker config";
    grant_m (named host_user "rwx") (at_ "docker/core") "helper-cp parent";
    grant_Rm (named host_user "rX") (at_ "config/") "config files"] ++
   map (λ rel, grant_m (named host_user "rwx") (at_ rel) "helper-cp parent")
     helper_cp_config_parents ++
   [grant_m (named host_user "r") (at_ ".sandbox.env") "env file";
    grant_m (named host_user "rwx") (at_ "secrets/") "secrets dir provisioning write";
    grant_dm ("u::rw-,g::---,o::---,m::r--,u:" +:+ host_user +:+ ":r") (at_ "secrets/")
      "secrets default ACL"] ++
   map (λ rel, grant_dm (named host_user "r") (at_ rel) "helper-cp parent default ACL")
     (helper_cp_config_parents ++ ["secrets"]) ++
   flat_map (λ rel,
     [grant_m (named host_user "rwx") (at_ rel) "helper-recipe parent";
      grant_dm ("u::rwx,g::rwx,o::---,m::rwx,u:" +:+ host_user +:+ ":rwx") (at_ rel)
        "helper-recipe parent default ACL"]) helper_recipe_parents)%list.

Definition acl_grant_plan (instance_dir host_user : string) (workspace_paths : list string)
    (dev_user : option string) : option (list Action) :=
  ancestors ← compute_ancestors instance_dir;
  ws ← workspace_grants host_user dev_user [] workspace_paths;
  Some (map (λ a, grant_m (named host_user "--x") a "ancestor traverse") ancestors ++
        instance_grants instance_dir host_user ++ ws)%list.
End acl.

(** ** The revoke plan *)

Definition revoke_x (host_user target label : string) : Action :=
  NamedAclRevokeAction ["setfacl"; "-x"; "u:" +:+ host_user; target] (label +:+ ": " +:+ target)
    (Path target) ("u:" +:+ host_user) false.
Definition revoke_dx (host_user target label : string) : Action :=
  NamedAclRevokeAction ["setfacl"; "-d"; "-x"; "u:" +:+ host_user; target]
    (label +:+ ": " +:+ target) (Path target) ("u:" +:+ host_user) true.

Definition acl_revoke_plan (instance_dir host_user : string) (workspace_paths : list string)
    : list Action :=
  let at_ := path_join instance_dir in
  ([revoke_x host_user instance_dir "instance root";
    revoke_x host_user (at_ "docker/") "docker config";
    revoke_x host_user (at_ "config/") "config files";
    revoke_x host_user (at_ "secrets/") "secrets dir traverse";
    revoke_dx host_user (at_ "secrets/") "secrets default ACL"] ++
   flat_map (λ ws_path,
     [revoke_x host_user ws_path "workspace named-ACL";
      revoke_dx host_user ws_path "workspace default named entry"]) workspace_paths)%list.

(** ** The workspace shared-group plan *)

Definition workspace_shared_group_plan (workspace_path : string) (bridge_gid : Z)
    (dev_user : option string) (host_user : string) : list Action :=
  let default_entry := workspace_default_entry host_user dev_user in
  let ws := Path workspace_path in
  [WorkspaceSharedGroupAction ws bridge_gid chgrp ("chgrp " +:+ str_of_Z bridge_gid) [];
   WorkspaceSharedGroupAction ws bridge_gid chmod_2770 "chmod 2770" [];
   WorkspaceSharedGroupAction ws bridge_gid setfacl_effective
     ("setfacl -m u:" +:+ host_user +:+ ":rwx") ["setfacl"; "-m"; named host_user "rwx"; ws];
   WorkspaceSharedGroupAction ws bridge_gid setfacl_default
     ("setfacl -d -m " +:+ default_entry) ["setfacl"; "-d"; "-m"; default_entry; ws]].

(** ** The named entries of the daemon's user

    What the plans leave behind: the directories (and files) with an entry for
    the daemon's user, [true] for one in the default ACL.  The entries that a
    recursive grant also puts on the contents are not followed. *)

Definition acl_key (a : Action) : option (list string * bool) :=
  match a with
  | NamedAclGrantAction command _ _ _ default _
  | NamedAclRevokeAction command _ _ _ default =>
      t ← last command; Some (path_parts t, default)
  | _ => None
  end.

Definition acl_effect (s : gset (list string * bool)) (a : Action) : gset (list string * bool) :=
  match a, acl_key a with
  | NamedAclGrantAction _ _ _ _ _ _, Some k => {[k]} ∪ s
  | NamedAclRevokeAction _ _ _ _ _, Some k => s ∖ {[k]}
  | _, _ => s
  end.

(** The entries under the instance that a stop leaves. *)
Definition lasting (instance_dir : string) : list (list string * bool) :=
  let at_ rel := (path_parts instance_dir ++ rel)%list in
  [(at_ ["docker"; "core"], false);
   (at_ ["config"; "coredns"], false); (at_ ["config"; "dnsdist"], false);
   (at_ ["config"; "proxy"], false); (at_ ["config"; "core"], false);
   (at_ [".sandbox.env"], false);
   (at_ ["config"; "coredns"], true); (at_ ["config"; "dnsdist"], true);
   (at_ ["config"; "proxy"], true); (at_ ["config"; "core"], true);
   (at_ ["cache"; "core"], false); (at_ ["cache"; "core"], true);
   (at_ ["log"], false); (at_ ["log"], true)].

(** The entries that both plans name. *)
Definition per_run (instance_dir : string) : list (list string * bool) :=
  let at_ rel := (path_parts instance_dir ++ rel)%list in
  [(at_ [], false); (at_ ["docker"], false); (at_ ["config"], false);
   (at_ ["secrets"], false); (at_ ["secrets"], true)].

(** ** Lemmas *)

Lemma path_parts_app s t : path_parts (s +:+ "/" +:+ t) = (path_parts s ++ path_parts t)%list.
Proof.
  unfold path_parts. rewrite <- List.filter_app. f_equal. apply (split_char_cat slash).
Qed.

Lemma path_parts_snoc s : path_parts (s +:+ "/") = path_parts s.
Proof.
  rewrite <- (app_nil_r_str (s +:+ "/")), app_assoc_str, path_parts_app. apply app_nil_r.
Qed.

Lemma stake_sdrop n s : stake n s +:+ sdrop n s = s.
Proof. revert n; induction s as [|c s IH]; intros [|n]; simpl; try done. by rewrite IH. Qed.

(** Joining a relative path appends its parts. *)
Lemma path_parts_join a b : startswith "/" b = false →
  path_parts (path_join a b) = (path_parts a ++ path_parts b)%list.
Proof.
  intros Hb. unfold path_join. rewrite Hb.
  destruct a as [|c a]; [done|]. cbn [nonempty negb orb].
  destruct (endswith "/" (String c a)) eqn:E; [|apply path_parts_app].
  unfold endswith in E. breflect. apply String.eqb_eq in H0.
  rewrite <- (stake_sdrop (str_len (String c a) - str_len "/") (String c a)), H0.
  by rewrite app_assoc_str, path_parts_app, path_parts_snoc.
Qed.

Definition is_grant (a : Action) : Prop :=
  match a with NamedAclGrantAction _ _ _ _ _ _ => is_Some (acl_key a) | _ => False end.
Definition is_revoke (a : Action) : Prop :=
  match a with NamedAclRevokeAction _ _ _ _ _ => is_Some (acl_key a) | _ => False end.

Lemma acl_granted plan s k : Forall is_grant plan →
  k ∈ foldl acl_effect s plan ↔ k ∈ s ∨ ∃ a, a ∈ plan ∧ acl_key a = Some k.
Proof.
  intros H; revert s; induction H as [|a plan Ha _ IH]; intros s; cbn [foldl].
  { split; [by left|intros [?|(a & ?%elem_of_nil & _)]; done]. }
  rewrite IH. destruct a; try done. destruct Ha as [k' Hk]. unfold acl_effect. rewrite Hk.
  set_solver.
Qed.

Lemma acl_revoked plan s k : Forall is_revoke plan →
  k ∈ foldl acl_effect s plan ↔ k ∈ s ∧ ∀ a, a ∈ plan → acl_key a ≠ Some k.
Proof.
  intros H; revert s; induction H as [|a plan Ha _ IH]; intros s; cbn [foldl]; [set_solver|].
  rewrite IH. destruct a; try done. destruct Ha as [k' Hk]. unfold acl_effect. rewrite Hk.
  set_solver.
Qed.

Lemma elem_unseen x seen l : x ∈ unseen seen l ↔ x ∈ l ∧ x ∉ seen.
Proof.
  revert seen; induction l as [|a l IH]; intros seen; cbn [unseen]; [set_solver|].
  case_bool_decide as Ha; [rewrite IH|rewrite elem_of_cons, IH]; [set_solver|].
  destruct (decide (x = a)) as [->|]; set_solver.
Qed.

(** Some action of the list has the key. *)
Definition has_key (l : list Action) (k : list string * bool) : Prop :=
  ∃ a, a ∈ l ∧ acl_key a = Some k.

Lemma has_key_app l l' k : has_key (l ++ l') k ↔ has_key l k ∨ has_key l' k.
Proof. unfold has_key. set_solver. Qed.

Lemma has_key_cons a l k : has_key (a :: l) k ↔ acl_key a = Some k ∨ has_key l k.
Proof. unfold has_key. set_solver. Qed.

Lemma has_key_nil k : ¬ has_key [] k.
Proof. unfold has_key. set_solver. Qed.

Lemma has_key_traverse host_user label l k :
  has_key (map (λ a, grant_m (named host_user "--x") a label) l) k ↔
  k.2 = false ∧ ∃ a, a ∈ l ∧ k.1 = path_parts a.
Proof.
  unfold has_key. setoid_rewrite list_elem_of_In. setoid_rewrite in_map_iff. split.
  - intros (a & (x & <- & Hx) & [= <-]). eauto.
  - intros (Hd & x & Hx & Hk). eexists. split; [by eexists|].
    destruct k; simpl in *. by subst.
Qed.

Lemma workspace_grants_keys uid stat_uid abspath host_user dev_user seen wss l :
  workspace_grants uid stat_uid abspath host_user dev_user seen wss = Some l →
  Forall is_grant l ∧
  ∀ k, has_key l k ↔ (∃ ws, ws ∈ wss ∧ k.1 = path_parts ws) ∨
    (k.2 = false ∧ ∃ ws anc a, ws ∈ wss ∧
      compute_workspace_ancestors uid stat_uid abspath ws = Some anc ∧ a ∈ anc ∧ a ∉ seen ∧
      k.1 = path_parts a).
Proof.
  revert seen l; induction wss as [|ws wss IH]; intros seen l; cbn [workspace_grants].
  { intros [= <-]. split; [constructor|]. intros k. split; [by intros ?%has_key_nil|].
    intros [(ws & ?%elem_of_nil & _)|(_ & ws & anc & a & ?%elem_of_nil & _)]; done. }
  intros (anc & Hanc & Hl)%bind_Some. apply bind_Some in Hl as (later & Hlater & [= <-]).
  destruct (IH _ _ Hlater) as [HF Hk]. split.
  { apply Forall_app. split; [|repeat (apply Forall_cons; split; [by eexists|]); done].
    apply Forall_forall. intros a (x & <- & _)%list_elem_of_In%in_map_iff. by eexists. }
  intros k. rewrite has_key_app, !has_key_cons, has_key_traverse, Hk. clear IH Hk HF Hlater.
  setoid_rewrite elem_unseen. setoid_rewrite elem_of_cons. split.
  - intros [(Hd & a & [Ha Hs] & Hk)|[[= <-]|[[= <-]|[(w & Hw & Hk)|(Hd & w & an & a & Hw & Han & Ha & Hs & Hk)]]]].
    + right. split; [done|]. exists ws, anc, a. auto.
    + left. exists ws. auto.
    + left. exists ws. auto.
    + left. exists w. auto.
    + right. split; [done|]. exists w, an, a. split_and!; auto. set_solver.
  - intros [(w & [->|Hw] & Hk)|(Hd & w & an & a & [->|Hw] & Han & Ha & Hs & Hk)].
    + destruct k as [k []]; simpl in Hk; subst; auto.
    + right; right; right; left. eauto.
    + simplify_eq. left. split; [done|]. eauto.
    + destruct (decide (a ∈ unseen seen anc)) as [Hin|Hin].
      * left. split; [done|]. exists a. apply elem_unseen in Hin. auto.
      * right; right; right; right. split; [done|]. exists w, an, a. split_and!; auto. set_solver.
Qed.

Lemma instance_grants_keys host_user inst :
  Forall is_grant (instance_grants inst host_user) ∧
  ∀ k, has_key (instance_grants inst host_user) k ↔ k ∈ (lasting inst ++ per_run inst)%list.
Proof.
  assert (∀ r, startswith "/" r = false → path_parts (path_join inst r) =
    (path_parts inst ++ path_parts r)%list) as Hj by (intros; by apply path_parts_join).
  split; [by repeat constructor; eexists|].
  intros k. unfold instance_grants, helper_cp_config_parents, helper_recipe_parents.
  cbn [map flat_map app]. rewrite !has_key_cons. unfold grant_m, grant_dm, grant_Rm, grant.
  cbn [acl_key last mbind option_bind]. rewrite !Hj by reflexivity.
  assert (path_parts "docker/" = ["docker"] ∧ path_parts "config/" = ["config"] ∧
    path_parts "secrets/" = ["secrets"]) as (-> & -> & ->) by done.
  unfold lasting, per_run. rewrite app_nil_r. cbn [app]. rewrite !elem_of_cons.
  split.
  - intros H. repeat (destruct H as [[= <-]|H]; [tauto|]). by apply has_key_nil in H.
  - intros H. repeat (destruct H as [->|H]; [auto 30|]). by apply elem_of_nil in H.
Qed.

Lemma revoke_plan_keys host_user inst wss :
  Forall is_revoke (acl_revoke_plan inst host_user wss) ∧
  ∀ k, has_key (acl_revoke_plan inst host_user wss) k ↔
    k ∈ per_run inst ∨ ∃ ws, ws ∈ wss ∧ k.1 = path_parts ws.
Proof.
  assert (∀ r, startswith "/" r = false → path_parts (path_join inst r) =
    (path_parts inst ++ path_parts r)%list) as Hj by (intros; by apply path_parts_join).
  unfold acl_revoke_plan. split.
  { apply Forall_app. split; [by repeat constructor; eexists|].
    induction wss as [|ws wss IH]; cbn [flat_map app]; [constructor|].
    by repeat constructor; try eexists. }
  intros k. rewrite has_key_app. cbn [app]. rewrite !has_key_cons.
  unfold revoke_x, revoke_dx. cbn [acl_key last mbind option_bind]. rewrite !Hj by reflexivity.
  assert (path_parts "docker/" = ["docker"] ∧ path_parts "config/" = ["config"] ∧
    path_parts "secrets/" = ["secrets"]) as (-> & -> & ->) by done.
  unfold per_run. rewrite app_nil_r, !elem_of_cons.
  assert (has_key (flat_map (λ ws_path,
     [NamedAclRevokeAction ["setfacl"; "-x"; "u:" +:+ host_user; ws_path]
        ("workspace named-ACL" +:+ ": " +:+ ws_path) (Path ws_path) ("u:" +:+ host_user) false;
      NamedAclRevokeAction ["setfacl"; "-d"; "-x"; "u:" +:+ host_user; ws_path]
        ("workspace default named entry" +:+ ": " +:+ ws_path) (Path ws_path) ("u:" +:+ host_user)
        true]) wss) k ↔ ∃ ws, ws ∈ wss ∧ k.1 = path_parts ws) as ->.
  { induction wss as [|ws wss IH]; cbn [flat_map app]; [split; [by intros ?%has_key_nil|set_solver]|].
    rewrite !has_key_cons, IH. cbn [acl_key last mbind option_bind].
    setoid_rewrite elem_of_cons. split.
    - intros [[= <-]|[[= <-]|(w & ? & ?)]]; eauto.
    - intros (w & [->|Hw] & Hk); [|eauto]. destruct k as [k []]; simpl in Hk; subst; auto. }
  split.
  - intros [H|H]; [|by right]. left.
    repeat (destruct H as [[= <-]|H]; [tauto|]). by apply has_key_nil in H.
  - intros [H|H]; [|by right]. left. repeat (destruct H as [->|H]; [auto 10|]).
    by apply elem_of_nil in H.
Qed.

(** ** Termination of the ancestor walk *)

Lemma path_split_app s : s = (path_split s).1 +:+ (path_split s).2.
Proof.
  induction s as [|c s IH]; [done|]. cbn [path_split].
  destruct (path_split s) as [h t]. simpl in IH. subst s.
  destruct (nonempty h) eqn:Eh; [done|]. destruct h; [|done].
  by destruct (Ascii.eqb c slash).
Qed.

Lemma rstrip_p_prefix p s : ∃ u, s = rstrip_p p s +:+ u.
Proof.
  induction s as [|c s [u IH]]; [by exists ""|]. cbn [rstrip_p].
  destruct (rstrip_p p s) eqn:E; [|exists u; by rewrite IH at 1].
  destruct (p c); [by exists (String c s)|exists u; simpl; by rewrite IH at 1].
Qed.

Lemma rstrip_p_snoc p s c : p c = true → rstrip_p p (s +:+ ch c) = rstrip_p p s.
Proof.
  intros Hc. induction s as [|d s IH]; simpl; [by rewrite Hc|]. by rewrite IH.
Qed.

Lemma rstrip_p_nonempty p s : str_forall p s = false → rstrip_p p s ≠ "".
Proof.
  induction s as [|c s IH]; [done|]. cbn [str_forall rstrip_p].
  destruct (rstrip_p p s) eqn:E; [|done]. destruct (p c); [|done]. simpl. intros H. by apply IH in H.
Qed.

Lemma path_split_ends s : (path_split s).1 = "" ∨ ∃ h, (path_split s).1 = h +:+ "/".
Proof.
  induction s as [|c s IH]; [by left|]. cbn [path_split].
  destruct (path_split s) as [h t]. cbn [fst] in IH. destruct IH as [->|[h' ->]].
  - cbn [nonempty]. destruct (Ascii.eqb_spec c slash) as [->|]; [right; by exists ""|by left].
  - assert (nonempty (h' +:+ "/") = true) as -> by (by destruct h'). right. by exists (String c h').
Qed.

(** A path with one leading slash. *)
Definition rooted (s : string) : Prop := startswith "/" s = true ∧ startswith "//" s = false.

Lemma dirname_shrinks s : rooted s → s ≠ "/" → rooted (dirname s) ∧ str_len (dirname s) < str_len s.
Proof.
  intros [H1 H2] Hne. destruct s as [|c s]; [done|]. cbn [startswith] in H1.
  apply andb_true_iff in H1 as [Hc _]. apply Ascii.eqb_eq in Hc as <-.
  change "/"%char with slash in *.
  pose proof (path_split_app (String slash s)) as Happ. unfold dirname.
  destruct (path_split_ends (String slash s)) as [E|[h E]]; rewrite E in Happ |- *.
  { exfalso. revert E. cbn [path_split]. destruct (path_split s) as [h t].
    by destruct (nonempty h). }
  destruct h as [|d h]; [split; [done|]; cbn; destruct s; [done|]; cbn; lia|].
  cbn [String.append] in Happ |- *. injection Happ as <- Happ.
  assert (h ≠ "" → startswith "//" (String slash h) = false) as Hh.
  { intros Hh. destruct h as [|d h]; [done|]. rewrite Happ in H2. exact H2. }
  destruct (str_forall (Ascii.eqb slash) (String slash (h +:+ "/"))) eqn:Ea.
  { exfalso. rewrite Happ in H2. destruct h as [|d h]; [done|]. cbn in Ea, H2.
    apply andb_true_iff in Ea as [Ea _]. by rewrite Ea in H2. }
  unfold rstrip_char. change (String slash (h +:+ "/")) with (String slash h +:+ ch slash).
  rewrite rstrip_p_snoc by done.
  assert (str_forall (Ascii.eqb slash) h = false) as Hf.
  { cbn in Ea. rewrite str_forall_app in Ea. cbn in Ea. by rewrite andb_true_r in Ea. }
  apply rstrip_p_nonempty in Hf. cbn [rstrip_p].
  destruct (rstrip_p_prefix (Ascii.eqb slash) h) as [u Hu].
  destruct (rstrip_p (Ascii.eqb slash) h) as [|d r]; [done|]. split.
  - split; [done|]. assert (h ≠ "") as Hne' by (by destruct h).
    specialize (Hh Hne'). rewrite Hu in Hh. exact Hh.
  - assert (str_len h = S (str_len r) + str_len u) as Hlen.
    { rewrite Hu at 1. apply (str_len_app (String d r)). }
    assert (str_len h + 1 <= str_len s) as Hs.
    { rewrite Happ at 1. rewrite !str_len_app. cbn. lia. }
    unfold str_len in *. cbn [String.length]. lia.
Qed.

Section ancestors.
Context (uid : Z) (stat_uid : string → option Z).

Lemma ancestors_loop_spec fuel p acc : rooted p → str_len p < fuel →
  ∃ k, ancestors_loop uid stat_uid fuel p acc = Some (acc ++ map (λ i, Nat.iter i dirname p) (seq 0 k))%list ∧
    (∀ i, i < k → Nat.iter i dirname p ≠ "/" ∧ stat_uid (Nat.iter i dirname p) = Some uid) ∧
    let q := Nat.iter k dirname p in q = "/" ∨ stat_uid q ≠ Some uid.
Proof.
  revert p acc; induction fuel as [|fuel IH]; intros p acc Hp Hf; [lia|]. cbn [ancestors_loop].
  destruct (String.eqb_spec p "/") as [->|Hne].
  { exists 0. split_and!; [by rewrite app_nil_r|lia|by left]. }
  destruct (stat_uid p) as [st|] eqn:Es; [destruct (Z.eqb_spec st uid) as [->|Hst]|].
  - destruct (dirname_shrinks p Hp Hne) as [Hp' Hl].
    destruct (IH (dirname p) (acc ++ [p])%list Hp') as (k & Hk & Hi & Hq); [lia|].
    assert (∀ i, Nat.iter (S i) dirname p = Nat.iter i dirname (dirname p)) as Hit
      by (intros i; apply Nat.iter_succ_r).
    exists (S k). split_and!.
    + rewrite Hk. cbn [seq map]. rewrite <- seq_shift, map_map.
      setoid_rewrite Hit. by rewrite <- app_assoc.
    + intros [|i] Hik; [done|]. rewrite Hit. apply Hi. lia.
    + rewrite Hit. exact Hq.
  - exists 0. split_and!; [by rewrite app_nil_r|lia|right]. cbn. congruence.
  - exists 0. split_and!; [by rewrite app_nil_r|lia|right]. cbn. congruence.
Qed.

(** The walk ends on every path with one leading slash.  It lists the longest
    run of parents, below the root, that the caller owns, shallowest first. *)
Theorem compute_ancestors_spec abspath path : let p := dirname (abspath path) in rooted (abspath path) →
  abspath path ≠ "/" →
  ∃ k, compute_ancestors uid stat_uid abspath path =
         Some (rev (map (λ i, Nat.iter i dirname p) (seq 0 k))) ∧
    (∀ i, i < k → Nat.iter i dirname p ≠ "/" ∧ stat_uid (Nat.iter i dirname p) = Some uid) ∧
    let q := Nat.iter k dirname p in q = "/" ∨ stat_uid q ≠ Some uid.
Proof.
  intros p Hr Hne. destruct (dirname_shrinks _ Hr Hne) as [Hp Hl].
  destruct (ancestors_loop_spec (S (str_len (abspath path))) p [] Hp) as (k & Hk & H); [unfold p; lia|].
  exists k. split; [|done]. unfold compute_ancestors. unfold p in Hk. by rewrite Hk.
Qed.
End ancestors.

(** ** Properties *)

(** What a stop leaves.  Every entry the stop revokes was granted by the
    start.  After the grants and the revocations the daemon's user has no
    entry on the instance root, on its docker, config and secrets directories
    or on a workspace.  It keeps exactly the traverse entries of the ancestors
    and those of [lasting], among them write access to the cache and log
    directories, effective and default. *)
Theorem stop_revokes_exact uid stat_uid abspath inst host_user dev_user wss plan :
  acl_grant_plan uid stat_uid abspath inst host_user wss dev_user = Some plan →
  let revoke := acl_revoke_plan inst host_user wss in
  let left := foldl acl_effect ∅ (plan ++ revoke) in
  let revoked k := k ∈ per_run inst ∨ ∃ ws, ws ∈ wss ∧ k.1 = path_parts ws in
  (∀ k, has_key revoke k ↔ revoked k) ∧ (∀ k, has_key revoke k → has_key plan k) ∧
  ∀ k, k ∈ left ↔ ¬ revoked k ∧
    (k ∈ lasting inst ∨
     (k.2 = false ∧ ∃ p anc a, p ∈ inst :: wss ∧
        compute_ancestors uid stat_uid abspath p = Some anc ∧ a ∈ anc ∧ k.1 = path_parts a)).
Proof.
  intros Hplan revoke left revoked. unfold acl_grant_plan in Hplan.
  apply bind_Some in Hplan as (anc & Hanc & Hplan). apply bind_Some in Hplan as (ws & Hws & Hplan).
  apply (inj Some) in Hplan. subst plan.
  destruct (workspace_grants_keys _ _ _ _ _ _ _ _ Hws) as [HwF Hwk].
  destruct (instance_grants_keys host_user inst) as [HiF Hik].
  destruct (revoke_plan_keys host_user inst wss) as [HrF Hrk].
  fold revoke in HrF, Hrk. split; [exact Hrk|].
  set (plan := (_ ++ _ ++ ws)%list) in *.
  assert (Forall is_grant plan) as HpF.
  { apply Forall_app; split; [|by apply Forall_app]. apply Forall_forall.
    intros a (x & <- & _)%list_elem_of_In%in_map_iff. by eexists. }
  assert (∀ k, has_key plan k ↔ k ∈ per_run inst ∨ (∃ w, w ∈ wss ∧ k.1 = path_parts w) ∨
    k ∈ lasting inst ∨ (k.2 = false ∧ ∃ p an a, p ∈ inst :: wss ∧
        compute_ancestors uid stat_uid abspath p = Some an ∧ a ∈ an ∧ k.1 = path_parts a)) as Hpk.
  { intros k. unfold plan. rewrite !has_key_app, has_key_traverse, Hik, Hwk.
    unfold compute_workspace_ancestors. rewrite elem_of_app. setoid_rewrite elem_of_cons. split.
    - intros [(Hd & a & Ha & Hk)|[[H|H]|[H|(Hd & p & an & a & Hp & Han & Ha & _ & Hk)]]]; auto.
      + right; right; right. split; [done|]. exists inst, anc, a. auto.
      + right; right; right. split; [done|]. exists p, an, a. auto.
    - intros [H|[H|[H|(Hd & p & an & a & [->|Hp] & Han & Ha & Hk)]]]; auto.
      + simplify_eq. left. split; [done|]. eauto.
      + right; right; right. split; [done|]. exists p, an, a. split_and!; auto. by apply not_elem_of_nil. }
  split.
  { intros k [Hk|Hk]%Hrk; apply Hpk; [by left|by right; left]. }
  intros k. unfold left. rewrite foldl_app, acl_revoked, acl_granted by done.
  fold (has_key plan k).
  assert ((∀ a, a ∈ revoke → acl_key a ≠ Some k) ↔ ¬ has_key revoke k) as ->
    by (clear; unfold has_key; naive_solver).
  rewrite Hrk, Hpk, elem_of_empty. clear. unfold revoked. tauto.
Qed.

Lemma stop_revokes_exact_witness :
  let owner (p : string) := if String.eqb p "/home/u" then Some 7%Z else None in
  let plan := acl_grant_plan 7 owner (λ p, p) "/home/u/i" "sandbox" ["/home/u/w"] (Some "u") in
  is_Some plan ∧
  ∀ g, plan = Some g →
    let left := foldl acl_effect ∅ (g ++ acl_revoke_plan "/home/u/i" "sandbox" ["/home/u/w"]) in
    (["home"; "u"; "i"; "log"], true) ∈ left ∧ (["home"; "u"; "i"], false) ∉ left.
Proof.
  intros owner plan. split; [by eexists|]. intros g Hg left.
  destruct (stop_revokes_exact 7 owner (λ p, p) "/home/u/i" "sandbox" (Some "u") ["/home/u/w"] g Hg)
    as (_ & _ & H).
  split; [apply H|intros [Hn _]%H; apply Hn; left; set_solver]. split.
  - intros [Hin|(ws & ->%list_elem_of_singleton & [=])].
    apply list_elem_of_In in Hin. cbn in Hin. naive_solver.
  - left. set_solver.
Defined.
