(* ===== verification/Credentials.v ===== *)
(** * core.crypto, hydration's [write_restricted], and cli.main's credential and
    unlink phases

    The files are a map from path to content, mode and owner; the process is the
    unprivileged user [u], so a file of another owner can be neither written nor
    re-owned.  The directories exist.  The random credential, its hash and the
    key pairs are arguments. *)
From S2P Require Import Prelude PyStr HostConfig Recipes.
From Stdlib Require Import Ascii String.
Open Scope Z_scope.

Record rfile := MkFile { f_content : string; f_mode : Z; f_owner : Z }.
Abbreviation files := (gmap string rfile).

Definition RESTRICTIVE_RO_MODE : Z := 416.
Definition RESTRICTIVE_SECRET_MODE : Z := 384.

Section crypto.
Context (u : Z).

(** [os.open(path, O_WRONLY | O_CREAT | O_TRUNC, mode)], [fchmod], [write]. *)
Definition write_restricted (path content : string) (mode : Z) : eff files unit := λ fs,
  match fs !! path with
  | Some f => if f_owner f =? u then (Ok tt, <[path := MkFile content mode u]> fs)
              else (Err OSError, fs)
  | None => (Ok tt, <[path := MkFile content mode u]> fs)
  end.

Definition os_replace (src dst : string) : eff files unit := λ fs,
  match fs !! src with
  | Some f => (Ok tt, <[dst := f]> (delete src fs))
  | None => (Err FileNotFoundError, fs)
  end.

Definition write_htpasswd (config_proxy_dir htpasswd_line : string) : eff files unit :=
  let htpasswd_path := path_join config_proxy_dir ".htpasswd" in
  let tmp_path := htpasswd_path +:+ ".tmp" in
  _ ← write_restricted tmp_path (htpasswd_line +:+ NL) RESTRICTIVE_RO_MODE;
  os_replace tmp_path htpasswd_path.

(** [key] is the generated pair: the PEM text and the OpenSSH public text. *)
Definition generate_ssh_keypair (instance_dir pair_type core_ipc_ip : string)
    (key : string * string) : eff files unit :=
  let secrets_dir := path_join instance_dir "secrets" in
  '(private_key_path, public_key_path) ← lift_res
    (if String.eqb pair_type "auth"
     then Ok (path_join secrets_dir "ipc_ssh_key", path_join secrets_dir "authorized_keys")
     else if String.eqb pair_type "host"
     then Ok (path_join secrets_dir "ipc_host_key", path_join secrets_dir "ipc_known_hosts")
     else Err ValueError);
  fs ← get_state;
  if bool_decide (is_Some (fs !! private_key_path)) then mret tt
  else
    _ ← write_restricted private_key_path key.1 RESTRICTIVE_SECRET_MODE;
    if String.eqb pair_type "auth"
    then write_restricted public_key_path (key.2 +:+ NL) RESTRICTIVE_SECRET_MODE
    else
      match split_ws key.2 with
      | key_type :: key_data :: _ =>
          write_restricted public_key_path
            (core_ipc_ip +:+ " " +:+ key_type +:+ " " +:+ key_data +:+ NL) RESTRICTIVE_SECRET_MODE
      | _ => throw IndexError
      end.

(** The reconciliation of one client-side secret: [os.chown] of a file of
    another owner is refused to an unprivileged process. *)
Definition reconcile (path : string) : eff files unit := λ fs,
  match fs !! path with
  | None => (Err FileNotFoundError, fs)
  | Some f =>
      if negb (f_owner f =? u) then (Err OSError, fs)
      else if f_mode f =? 384 then (Ok tt, fs)
      else (Ok tt, <[path := MkFile (f_content f) 384 (f_owner f)]> fs)
  end.

Definition phase_credentials (instance_dir core_ipc_ip password hashed : string)
    (auth_key host_key : string * string) : eff files string :=
  _ ← write_htpasswd (path_join3 instance_dir "config" "proxy") ("proxyuser:" +:+ hashed);
  _ ← generate_ssh_keypair instance_dir "auth" "" auth_key;
  _ ← generate_ssh_keypair instance_dir "host" core_ipc_ip host_key;
  _ ← reconcile (path_join3 instance_dir "secrets" "ipc_ssh_key");
  _ ← reconcile (path_join3 instance_dir "secrets" "ipc_known_hosts");
  mret password.
End crypto.

(** [_phase_stop_unlink_consumer_files]: [refused] are the paths whose [unlink]
    raises another [OSError]; the values are the paths warned about. *)
Fixpoint unlink_all (refused : string → bool) (paths : list string) (fs : files)
    : list string * files :=
  match paths with
  | [] => ([], fs)
  | p :: rest =>
      match fs !! p with
      | None => unlink_all refused rest fs
      | Some _ =>
          if refused p then let '(ws, fs) := unlink_all refused rest fs in (p :: ws, fs)
          else unlink_all refused rest (delete p fs)
      end
  end.

Definition phase_stop_unlink_consumer_files (refused : string → bool) (h : host_env)
    (instance_dir host_user : string) (fs : files) : res (list string) * files :=
  match helper_cp_chown_plan h instance_dir host_user with
  | Err e => (Err e, fs)
  | Ok plan => let '(ws, fs) := unlink_all refused (unlink_targets plan) fs in (Ok ws, fs)
  end.

(** ** Lemmas *)

(** The prefix that [os.path.join] puts before a relative path. *)
Definition join_prefix (a : string) : string :=
  if negb (nonempty a) || endswith "/" a then a else a +:+ "/".

Lemma path_join_prefix a b : startswith "/" b = false → path_join a b = join_prefix a +:+ b.
Proof.
  intros Hb. unfold path_join, join_prefix. rewrite Hb.
  destruct (negb (nonempty a) || endswith "/" a); [done|]. by rewrite app_assoc_str.
Qed.

Lemma unlink_all_lookup refused paths fs p : (∀ x, refused x = false) →
  (unlink_all refused paths fs).2 !! p = if bool_decide (p ∈ paths) then None else fs !! p.
Proof.
  intros Hr. revert fs; induction paths as [|x paths IH]; intros fs; [done|]. cbn [unlink_all].
  destruct (fs !! x) eqn:Ex.
  - rewrite Hr, IH. destruct (decide (p = x)) as [->|Hne].
    + rewrite lookup_delete_eq, (bool_decide_true (x ∈ x :: paths)) by set_solver.
      by destruct (bool_decide _).
    + rewrite lookup_delete_ne by done. do 2 case_bool_decide; set_solver.
  - rewrite IH. destruct (decide (p = x)) as [->|Hne].
    + rewrite (bool_decide_true (x ∈ x :: paths)) by set_solver. by case_bool_decide.
    + do 2 case_bool_decide; set_solver.
Qed.

Lemma endswith_slash_app s t : t ≠ "" → endswith "/" (s +:+ t) = endswith "/" t.
Proof.
  intros Ht. unfold endswith. rewrite str_len_app.
  assert (1 <= str_len t)%nat as Hl by (destruct t; [done|unfold str_len; cbn; lia]).
  change (str_len "/") with 1%nat.
  replace (str_len s + str_len t - 1)%nat with (str_len s + (str_len t - 1))%nat by lia.
  rewrite sdrop_plus, sdrop_app. f_equal.
  rewrite (proj2 (Nat.leb_le _ _)) by lia. symmetry. by apply Nat.leb_le.
Qed.

(** A file under the instance directory. *)
Definition inst_file (inst rel : string) : string := join_prefix inst +:+ rel.

Lemma path_join_inst inst parent f : startswith "/" parent = false → parent ≠ "" →
  endswith "/" parent = false → startswith "/" f = false →
  path_join (path_join inst parent) f = inst_file inst (parent +:+ "/" +:+ f).
Proof.
  intros Hp Hne He Hf. rewrite (path_join_prefix inst parent), path_join_prefix by done.
  unfold join_prefix at 1. rewrite endswith_slash_app, He by done. unfold inst_file.
  assert (nonempty (join_prefix inst +:+ parent) = true) as ->.
  { destruct (join_prefix inst); [by destruct parent|done]. }
  cbn [negb orb]. by rewrite !app_assoc_str.
Qed.

Lemma inst_file_inj inst a b : inst_file inst a = inst_file inst b → a = b.
Proof. apply app_inv_l_str. Qed.

(** The files the helper hands to the consumers, relative to the instance. *)
Definition recipe_files : list string :=
  flat_map (λ '(parent, files, _, _), map (λ f, parent +:+ "/" +:+ f) files) file_recipes.

(** The directories of the table are spelt as [pathlib] spells them. *)
Definition normalized (inst : string) : Prop :=
  Forall (λ r : recipe, Path (path_join inst r.1.1.1) = path_join inst r.1.1.1) file_recipes.

Lemma plan_targets h inst host_user plan : helper_cp_chown_plan h inst host_user = Ok plan →
  unlink_targets plan =
    flat_map (λ '(parent, files, _, _), map (path_join (Path (path_join inst parent))) files)
      file_recipes.
Proof.
  unfold helper_cp_chown_plan. generalize file_recipes as l. intros l. revert plan.
  induction l as [|[[[parent fl] uid] mode] l IH]; intros plan; cbn [res_map]; [by intros [= <-]|].
  intros (a & Ha & Hl)%res_bind_Ok. apply res_bind_Ok in Ha as (ou & _ & Ha).
  apply res_bind_Ok in Ha as (og & _ & [= <-]). apply res_bind_Ok in Hl as (rest & Hrest & [= <-]).
  cbn [unlink_targets flat_map]. f_equal. by apply IH.
Qed.

Lemma unlink_targets_spec h inst host_user plan : normalized inst →
  helper_cp_chown_plan h inst host_user = Ok plan →
  unlink_targets plan = map (inst_file inst) recipe_files.
Proof.
  intros Hn Hp. rewrite (plan_targets _ _ _ _ Hp). clear plan Hp. unfold normalized in Hn.
  unfold recipe_files.
  assert (Forall (λ r : recipe, startswith "/" r.1.1.1 = false ∧ r.1.1.1 ≠ "" ∧
    endswith "/" r.1.1.1 = false ∧ Forall (λ f, startswith "/" f = false) r.1.1.2) file_recipes) as Hc
    by (repeat constructor; done).
  revert Hn Hc. generalize file_recipes as l. intros l Hn.
  induction Hn as [|[[[parent fl] uid] mode] l Hr _ IH]; intros Hc; [done|].
  apply Forall_cons in Hc as [(H1 & H2 & H3 & H4) Hc]. cbn [flat_map]. rewrite map_app.
  f_equal; [|by apply IH]. cbn [fst snd] in *. rewrite Hr, map_map.
  clear -H1 H2 H3 H4. induction H4 as [|f fl Hf _ IH]; [done|]. cbn [map]. f_equal; [|done].
  by apply path_join_inst.
Qed.

Lemma elem_inst_files inst rel l : inst_file inst rel ∈ map (inst_file inst) l ↔ rel ∈ l.
Proof.
  rewrite !list_elem_of_In, in_map_iff. split; [by intros (x & ->%inst_file_inj & ?)|eauto].
Qed.

(** ** What the credential phase does to the files *)

Section phase.
Context (u : Z) (inst : string).
Let K := inst_file inst.

Lemma secret_paths f : startswith "/" f = false →
  path_join (path_join inst "secrets") f = K ("secrets/" +:+ f).
Proof. by apply path_join_inst. Qed.

Lemma htpasswd_path :
  path_join (path_join3 inst "config" "proxy") ".htpasswd" = K "config/proxy/.htpasswd".
Proof.
  unfold path_join3. rewrite (path_join_inst inst "config" "proxy") by done.
  unfold inst_file. cbn [String.append].
  rewrite path_join_prefix by done. unfold join_prefix at 1. rewrite endswith_slash_app by done.
  assert (nonempty (join_prefix inst +:+ "config/proxy") = true) as ->
    by (by destruct (join_prefix inst)).
  cbn. unfold K, inst_file. by rewrite app_assoc_str, app_assoc_str.
Qed.

Definition htpasswd := K "config/proxy/.htpasswd".
Definition htpasswd_tmp := K "config/proxy/.htpasswd.tmp".
Definition ssh_key := K "secrets/ipc_ssh_key".
Definition authorized_keys := K "secrets/authorized_keys".
Definition host_key := K "secrets/ipc_host_key".
Definition known_hosts := K "secrets/ipc_known_hosts".

Lemma tmp_path : htpasswd +:+ ".tmp" = htpasswd_tmp.
Proof. unfold htpasswd, htpasswd_tmp, K, inst_file. by rewrite app_assoc_str. Qed.

(** The phase, with its paths written out. *)
Definition credentials_at ip password hashed (ak hk : string * string) : eff files string :=
  _ ← (_ ← write_restricted u htpasswd_tmp ("proxyuser:" +:+ hashed +:+ NL) RESTRICTIVE_RO_MODE;
       os_replace htpasswd_tmp htpasswd);
  _ ← (fs ← get_state;
       if bool_decide (is_Some (fs !! ssh_key)) then mret tt
       else _ ← write_restricted u ssh_key ak.1 RESTRICTIVE_SECRET_MODE;
            write_restricted u authorized_keys (ak.2 +:+ NL) RESTRICTIVE_SECRET_MODE);
  _ ← (fs ← get_state;
       if bool_decide (is_Some (fs !! host_key)) then mret tt
       else _ ← write_restricted u host_key hk.1 RESTRICTIVE_SECRET_MODE;
            match split_ws hk.2 with
            | key_type :: key_data :: _ =>
                write_restricted u known_hosts
                  (ip +:+ " " +:+ key_type +:+ " " +:+ key_data +:+ NL) RESTRICTIVE_SECRET_MODE
            | _ => throw IndexError
            end);
  _ ← reconcile u ssh_key;
  _ ← reconcile u known_hosts;
  mret password.

Lemma phase_credentials_at ip password hashed ak hk fs :
  phase_credentials u inst ip password hashed ak hk fs = credentials_at ip password hashed ak hk fs.
Proof.
  unfold phase_credentials, write_htpasswd, generate_ssh_keypair, credentials_at.
  rewrite htpasswd_path. fold htpasswd. rewrite tmp_path. unfold path_join3 at 1 2.
  rewrite !secret_paths by done. cbn [String.append String.eqb Ascii.eqb Bool.eqb].
  fold ssh_key authorized_keys host_key known_hosts. reflexivity.
Qed.
End phase.

(** The files that decide whether the phase succeeds: it must own the scratch
    file and every key file it writes, and find the public half of a host key
    that it does not write. *)
Definition own (u : Z) (fs : files) (p : string) : Prop :=
  match fs !! p with Some f => f_owner f = u | None => True end.

Definition credentials_ready (u : Z) (inst : string) (hk : string * string) (fs : files) : Prop :=
  own u fs (htpasswd_tmp inst) ∧ own u fs (ssh_key inst) ∧ own u fs (known_hosts inst) ∧
  (fs !! ssh_key inst = None → own u fs (authorized_keys inst)) ∧
  (fs !! host_key inst = None → (2 <= List.length (split_ws hk.2))%nat) ∧
  (is_Some (fs !! host_key inst) → is_Some (fs !! known_hosts inst)).

(** The key files after a success. *)
Definition credentials_done (u : Z) (inst ip hashed : string) (ak hk : string * string)
    (fs fs' : files) : Prop :=
  fs' !! htpasswd_tmp inst = None ∧
  fs' !! htpasswd inst = Some (MkFile ("proxyuser:" +:+ hashed +:+ NL) RESTRICTIVE_RO_MODE u) ∧
  fs' !! ssh_key inst = Some (MkFile (match fs !! ssh_key inst with
                                      | Some f => f_content f | None => ak.1 end) 384 u) ∧
  fs' !! authorized_keys inst =
    (if fs !! ssh_key inst is Some _ then fs !! authorized_keys inst
     else Some (MkFile (ak.2 +:+ NL) 384 u)) ∧
  (∀ f, fs !! host_key inst = Some f → fs' !! host_key inst = Some f ∧
     ∃ k, fs !! known_hosts inst = Some k ∧
          fs' !! known_hosts inst = Some (MkFile (f_content k) 384 u)) ∧
  (fs !! host_key inst = None → fs' !! host_key inst = Some (MkFile hk.1 384 u) ∧
     ∃ t d l, split_ws hk.2 = t :: d :: l ∧
       fs' !! known_hosts inst = Some (MkFile (ip +:+ " " +:+ t +:+ " " +:+ d +:+ NL) 384 u)) ∧
  ∀ p, p ∉ [htpasswd_tmp inst; htpasswd inst; ssh_key inst; authorized_keys inst; host_key inst;
            known_hosts inst] → fs' !! p = fs !! p.

Lemma key_paths_distinct inst :
  NoDup [htpasswd_tmp inst; htpasswd inst; ssh_key inst; authorized_keys inst; host_key inst;
         known_hosts inst].
Proof.
  change [htpasswd_tmp inst; htpasswd inst; ssh_key inst; authorized_keys inst; host_key inst;
         known_hosts inst] with (map (inst_file inst)
    ["config/proxy/.htpasswd.tmp"; "config/proxy/.htpasswd"; "secrets/ipc_ssh_key";
     "secrets/authorized_keys"; "secrets/ipc_host_key"; "secrets/ipc_known_hosts"]).
  apply NoDup_fmap_2; [intros a b; apply inst_file_inj|]. apply (bool_decide_unpack _). reflexivity.
Qed.

(** The stages: what each does on success, and when it fails.  [frame] says
    that no other file changes. *)
Definition frame (ps : list string) (fs fs' : files) : Prop := ∀ p, p ∉ ps → fs' !! p = fs !! p.

Lemma htpasswd_stage u tmp ht c m fs : tmp ≠ ht →
  match (_ ← write_restricted u tmp c m; os_replace tmp ht) fs with
  | (Ok _, fs') => own u fs tmp ∧ fs' !! tmp = None ∧ fs' !! ht = Some (MkFile c m u) ∧
      frame [tmp; ht] fs fs'
  | (Err _, _) => ¬ own u fs tmp
  end.
Proof.
  intros Hne. unfold own, mbind, eff_bind, write_restricted, os_replace, frame.
  assert (∀ fs0 : files, (match <[tmp := MkFile c m u]> fs0 !! tmp with
    | Some f => (Ok tt, <[ht := f]> (delete tmp (<[tmp := MkFile c m u]> fs0)))
    | None => (Err FileNotFoundError, <[tmp := MkFile c m u]> fs0) end) =
    (Ok tt, <[ht := MkFile c m u]> (delete tmp (<[tmp := MkFile c m u]> fs0)))) as Hr
    by (intros fs0; by rewrite lookup_insert_eq).
  assert (∀ fs0 : files, let fs' := <[ht := MkFile c m u]> (delete tmp (<[tmp := MkFile c m u]> fs0)) in
    fs' !! tmp = None ∧ fs' !! ht = Some (MkFile c m u) ∧
    ∀ p, p ∉ [tmp; ht] → fs' !! p = fs0 !! p) as Hp.
  { intros fs0. split_and!; [by simplify_map_eq|by simplify_map_eq|].
    intros p [? ?%not_elem_of_cons]%not_elem_of_cons. destruct_and!. by simplify_map_eq. }
  destruct (fs !! tmp) as [f|] eqn:E; [destruct (Z.eqb_spec (f_owner f) u)|]; rewrite ?Hr;
    naive_solver.
Qed.

Lemma auth_stage u sk az c d fs : sk ≠ az →
  match (fs ← get_state;
         if bool_decide (is_Some (fs !! sk)) then mret tt
         else _ ← write_restricted u sk c 384; write_restricted u az d 384) fs with
  | (Ok _, fs') => (fs !! sk = None → own u fs az) ∧ frame [sk; az] fs fs' ∧
      fs' !! sk = (if fs !! sk is Some _ then fs !! sk else Some (MkFile c 384 u)) ∧
      fs' !! az = (if fs !! sk is Some _ then fs !! az else Some (MkFile d 384 u))
  | (Err _, _) => fs !! sk = None ∧ ¬ own u fs az
  end.
Proof.
  intros Hne. unfold own, mbind, eff_bind, write_restricted, get_state, mret, eff_ret, frame.
  destruct (fs !! sk) as [f|] eqn:E; [by rewrite bool_decide_true by eauto|].
  rewrite bool_decide_false by (by intros []). rewrite E, lookup_insert_ne by done.
  assert (let fs' := <[az := MkFile d 384 u]> (<[sk := MkFile c 384 u]> fs) in
    fs' !! sk = Some (MkFile c 384 u) ∧ fs' !! az = Some (MkFile d 384 u) ∧
    ∀ p, p ∉ [sk; az] → fs' !! p = fs !! p) as (Hp1 & Hp2 & Hp3).
  { split_and!; [by simplify_map_eq|by simplify_map_eq|].
    intros p [? ?%not_elem_of_cons]%not_elem_of_cons. destruct_and!. by simplify_map_eq. }
  destruct (fs !! az) as [f|]; [destruct (Z.eqb_spec (f_owner f) u)|]; naive_solver.
Qed.

Lemma host_stage u hp kh c pub (line : string → string → string) fs : hp ≠ kh →
  match (fs ← get_state;
         if bool_decide (is_Some (fs !! hp)) then mret tt
         else _ ← write_restricted u hp c 384;
              match split_ws pub with
              | t :: d :: _ => write_restricted u kh (line t d) 384
              | _ => throw IndexError
              end) fs with
  | (Ok _, fs') => frame [hp; kh] fs fs' ∧
      (is_Some (fs !! hp) → fs' !! hp = fs !! hp ∧ fs' !! kh = fs !! kh) ∧
      (fs !! hp = None → own u fs kh ∧ fs' !! hp = Some (MkFile c 384 u) ∧
         ∃ t d l, split_ws pub = t :: d :: l ∧ fs' !! kh = Some (MkFile (line t d) 384 u))
  | (Err _, _) => fs !! hp = None ∧ ((List.length (split_ws pub) < 2)%nat ∨ ¬ own u fs kh)
  end.
Proof.
  intros Hne. unfold own, mbind, eff_bind, write_restricted, get_state, mret, eff_ret, frame, throw.
  destruct (fs !! hp) as [f|] eqn:E; [by rewrite bool_decide_true by eauto|].
  rewrite bool_decide_false by (by intros []). rewrite E.
  destruct (split_ws pub) as [|t [|d l]]; [split; [done|left; simpl; lia]..|].
  rewrite lookup_insert_ne by done.
  assert (let fs' := <[kh := MkFile (line t d) 384 u]> (<[hp := MkFile c 384 u]> fs) in
    fs' !! hp = Some (MkFile c 384 u) ∧ fs' !! kh = Some (MkFile (line t d) 384 u) ∧
    ∀ p, p ∉ [hp; kh] → fs' !! p = fs !! p) as (Hp1 & Hp2 & Hp3).
  { split_and!; [by simplify_map_eq|by simplify_map_eq|].
    intros p [? ?%not_elem_of_cons]%not_elem_of_cons. destruct_and!. by simplify_map_eq. }
  destruct (fs !! kh) as [f|]; [destruct (Z.eqb_spec (f_owner f) u)|]; simpl.
  - split_and!; [done|by intros []|]. intros _. split_and!; [done|done|]. by do 3 eexists.
  - split; [done|by right].
  - split_and!; [done|by intros []|]. intros _. split_and!; [done|done|]. by do 3 eexists.
Qed.

Lemma reconcile_stage u p fs :
  match reconcile u p fs with
  | (Ok _, fs') => frame [p] fs fs' ∧ ∃ f, fs !! p = Some f ∧ f_owner f = u ∧
      fs' !! p = Some (MkFile (f_content f) 384 u)
  | (Err _, _) => ∀ f, fs !! p = Some f → f_owner f ≠ u
  end.
Proof.
  unfold reconcile, frame. destruct (fs !! p) as [f|] eqn:E; [|done].
  destruct (Z.eqb_spec (f_owner f) u) as [<-|Hu]; cbn [negb]; [|naive_solver].
  destruct (Z.eqb_spec (f_mode f) 384) as [Hm|Hm].
  - split; [done|]. exists f. split_and!; [done|done|]. rewrite E. destruct f; simpl in *. by subst.
  - split; [|exists f; by simplify_map_eq].
    intros q ?%not_elem_of_cons. destruct_and!. by simplify_map_eq.
Qed.

Lemma eff_bind_run {S A B} (m : eff S A) (f : A → eff S B) s :
  (m ≫= f) s = match m s with (Ok a, s') => f a s' | (Err e, s') => (Err e, s') end.
Proof. done. Qed.

(** A path that is none of the listed ones, from the disequalities at hand. *)
Ltac notin := rewrite ?not_elem_of_cons; repeat split; first [congruence | apply not_elem_of_nil].

(** Run one stage under its specification [S]. *)
Ltac stage S f :=
  match type of S with
  | ?A → match ?x with _ => _ end => destruct x as [[[]|?] f]
  | match ?x with _ => _ end => destruct x as [[[]|?] f]
  end.

(** The credential phase succeeds exactly when it owns the files it writes,
    and then leaves the password file and both halves of both key pairs in
    place, the two client files at mode 0600.  A pair whose private half is on
    disk is left as it is. *)
Lemma phase_credentials_run u inst ip password hashed ak hk fs :
  match phase_credentials u inst ip password hashed ak hk fs with
  | (Ok pw, fs') => pw = password ∧ credentials_ready u inst hk fs ∧
      credentials_done u inst ip hashed ak hk fs fs'
  | (Err _, _) => ¬ credentials_ready u inst hk fs
  end.
Proof.
  rewrite phase_credentials_at. unfold credentials_at, credentials_ready, credentials_done.
  pose proof (key_paths_distinct inst) as Hd. revert Hd.
  generalize (htpasswd_tmp inst) as tmp, (htpasswd inst) as ht, (ssh_key inst) as sk,
    (authorized_keys inst) as az, (host_key inst) as hp, (known_hosts inst) as kh.
  intros tmp ht sk az hp kh Hd. rewrite !NoDup_cons, !not_elem_of_cons in Hd. destruct_and!.
  assert (∀ l (p : string) f f', frame l f f' → p ∉ l → f' !! p = f !! p) as Hfr by (intros; auto).
  rewrite eff_bind_run. pose proof (htpasswd_stage u tmp ht ("proxyuser:" +:+ hashed +:+ NL)
    RESTRICTIVE_RO_MODE fs) as S1. stage S1 f1; [|intros (? & _); by apply S1].
  destruct S1 as (R1 & P1 & P2 & F1); [done|].
  rewrite eff_bind_run. change RESTRICTIVE_SECRET_MODE with 384.
  pose proof (auth_stage u sk az ak.1 (ak.2 +:+ NL) f1) as S2. unfold own in S2.
  rewrite !(F1 az), !(F1 sk) in S2 by notin.
  stage S2 f2; [|intros (_ & _ & _ & Hz & _); unfold own in Hz; naive_solver].
  destruct S2 as (R2 & F2 & P3 & P4); [done|].
  rewrite eff_bind_run.
  pose proof (host_stage u hp kh hk.1 hk.2 (λ t d, ip +:+ " " +:+ t +:+ " " +:+ d +:+ NL) f2) as S3.
  unfold own in S3. rewrite !(F2 hp), !(F2 kh), !(F1 hp), !(F1 kh) in S3 by notin.
  stage S3 f3.
  2: { intros (_ & _ & Hk & _ & Hs & _). unfold own in Hk.
       destruct S3 as [Hn [Hl|Ho]]; [done|specialize (Hs Hn); lia|done]. }
  destruct S3 as (F3 & P5 & P6); [done|].
  rewrite eff_bind_run. pose proof (reconcile_stage u sk f3) as S4.
  rewrite !(F3 sk), P3 in S4 by notin. stage S4 f4.
  2: { intros (_ & Hk & _). unfold own in Hk. destruct (fs !! sk) as [f|]; [by apply (S4 f)|].
       by apply (S4 _ eq_refl). }
  destruct S4 as (F4 & g & Hg & Hgu & P7).
  rewrite eff_bind_run. pose proof (reconcile_stage u kh f4) as S5.
  rewrite !(F4 kh) in S5 by notin. stage S5 f5.
  2: { intros (_ & _ & Hk & _ & Hs & Hh). unfold own in Hk.
       destruct (fs !! hp) as [f|] eqn:Ehp.
       - destruct P5 as [_ P5]; [by eexists|]. destruct Hh as [k Hk']; [by eexists|].
         rewrite Hk' in P5, Hk. by apply (S5 k).
       - destruct P6 as (_ & _ & t & d & l & _ & P6); [done|]. by apply (S5 _ P6). }
  destruct S5 as (F5 & k & Hk & Hku & P8). unfold mret, eff_ret.
  assert (fs !! sk = None ∨ ∃ f, fs !! sk = Some f ∧ f_owner f = u ∧ f = g) as Hsk.
  { destruct (fs !! sk) as [f|]; [right; exists f; by simplify_eq/=|by left]. }
  split; [done|]. split_and!.
  - done.
  - unfold own. destruct Hsk as [->|(f & -> & ? & _)]; done.
  - unfold own. destruct (fs !! hp) as [f|] eqn:Ehp.
    + destruct P5 as [_ P5]; [by eexists|]. rewrite <- P5, Hk. done.
    + by destruct P6.
  - done.
  - intros Hn. destruct P6 as (_ & _ & t & d & l & -> & _); [done|]. simpl. lia.
  - intros [f Hf]. destruct P5 as [_ P5]; [by eexists|]. rewrite <- P5, Hk. by eexists.
  - rewrite (F5 tmp), (F4 tmp), (F3 tmp), (F2 tmp) by notin. done.
  - rewrite (F5 ht), (F4 ht), (F3 ht), (F2 ht) by notin. done.
  - rewrite (F5 sk), P7 by notin. destruct Hsk as [Hn|(f & Hf & ? & ->)].
    + rewrite Hn in Hg |- *. by injection Hg as <-.
    + by rewrite Hf.
  - rewrite (F5 az), (F4 az), (F3 az), P4 by notin.
    by destruct (fs !! sk).
  - intros f Hf. destruct P5 as [P5a P5b]; [by eexists|]. split.
    + by rewrite (F5 hp), (F4 hp), P5a by notin.
    + exists k. split; [by rewrite <- P5b|done].
  - intros Hn. destruct P6 as (_ & P6a & t & d & l & Hs & P6b); [done|]. split.
    + by rewrite (F5 hp), (F4 hp), P6a by notin.
    + exists t, d, l. split; [done|]. rewrite P8. rewrite P6b in Hk. by injection Hk as <-.
  - intros p Hp. rewrite !not_elem_of_cons in Hp. destruct_and!.
    by rewrite (F5 p), (F4 p), (F3 p), (F2 p), (F1 p) by notin.
Qed.

(** After a first successful [_phase_credentials], the helper's ownership
    transfer (which keeps every file, and the two client-side files as they
    are) and a stop that unlinks every consumer file, the next start's
    [_phase_credentials] succeeds with the same [ipc_ssh_key], a new
    [ipc_host_key], and no [authorized_keys]: the pair is skipped because its
    private half is on disk. *)
Theorem restart_loses_authorized_keys u inst h host_user ip1 ip2 pw1 pw2 h1 h2 ak1 ak2 hk1 hk2
    fs fs1 fs2 fs3 ws :
  normalized inst →
  phase_credentials u inst ip1 pw1 h1 ak1 hk1 fs = (Ok pw1, fs1) →
  (∀ p, is_Some (fs2 !! p) ↔ is_Some (fs1 !! p)) →
  fs2 !! ssh_key inst = fs1 !! ssh_key inst →
  fs2 !! known_hosts inst = fs1 !! known_hosts inst →
  phase_stop_unlink_consumer_files (λ _, false) h inst host_user fs2 = (Ok ws, fs3) →
  (2 <= List.length (split_ws hk2.2))%nat →
  ∃ fs4, phase_credentials u inst ip2 pw2 h2 ak2 hk2 fs3 = (Ok pw2, fs4) ∧
    fs4 !! authorized_keys inst = None ∧
    (∃ f, fs1 !! ssh_key inst = Some f ∧ fs4 !! ssh_key inst = Some f) ∧
    fs4 !! host_key inst = Some (MkFile hk2.1 384 u).
Proof.
  intros Hn H1 Hdom Hsk Hkh Hstop Hpub.
  pose proof (phase_credentials_run u inst ip1 pw1 h1 ak1 hk1 fs) as R1. rewrite H1 in R1.
  destruct R1 as (_ & _ & Htmp & _ & Hs1 & _ & Hh1 & Hh1' & _).
  unfold phase_stop_unlink_consumer_files in Hstop.
  destruct (helper_cp_chown_plan h inst host_user) as [plan|] eqn:Hplan; [|done].
  pose proof (λ p, unlink_all_lookup (λ _, false) (unlink_targets plan) fs2 p (λ _, eq_refl)) as Hul.
  destruct (unlink_all _ _ fs2) as [ws' fs3']. injection Hstop as <- <-. cbn [snd] in Hul.
  rewrite (unlink_targets_spec _ _ _ _ Hn Hplan) in Hul.
  assert (∀ rel, fs3' !! inst_file inst rel =
    if bool_decide (rel ∈ recipe_files) then None else fs2 !! inst_file inst rel) as Hf.
  { intros rel. rewrite Hul. by rewrite (bool_decide_ext _ _ (elem_inst_files inst rel _)). }
  assert (fs3' !! authorized_keys inst = None) as Ea by (unfold authorized_keys; by rewrite Hf).
  assert (fs3' !! host_key inst = None) as Eh by (unfold host_key; by rewrite Hf).
  assert (fs3' !! ssh_key inst = fs1 !! ssh_key inst) as Es
    by (rewrite <- Hsk; unfold ssh_key; by rewrite Hf).
  assert (fs3' !! known_hosts inst = fs1 !! known_hosts inst) as Ek
    by (rewrite <- Hkh; unfold known_hosts; by rewrite Hf).
  assert (fs3' !! htpasswd_tmp inst = None) as Et.
  { transitivity (fs2 !! htpasswd_tmp inst); [unfold htpasswd_tmp; by rewrite Hf|].
    apply eq_None_not_Some. rewrite Hdom, Htmp. by intros []. }
  assert (∃ k, fs1 !! known_hosts inst = Some k ∧ f_owner k = u) as (k & Hk & Hku).
  { destruct (fs !! host_key inst) as [f|].
    - destruct (Hh1 f eq_refl) as (_ & k & _ & Hk). by eexists.
    - destruct (Hh1' eq_refl) as (_ & t & d & l & _ & Hk). by eexists. }
  pose proof (phase_credentials_run u inst ip2 pw2 h2 ak2 hk2 fs3') as R2.
  destruct (phase_credentials u inst ip2 pw2 h2 ak2 hk2 fs3') as [[pw|e] fs4].
  - destruct R2 as (-> & _ & _ & _ & Hs2 & Ha2 & _ & Hh2 & _). exists fs4. split; [done|].
    rewrite Es, Hs1 in Hs2, Ha2. split; [by rewrite Ha2, Ea|]. split; [|by apply Hh2].
    eexists. by split; [apply Hs1|].
  - destruct R2. unfold credentials_ready, own. rewrite Et, Es, Hs1, Ek, Hk, Eh.
    split_and!; [done|done|done|done|done|by intros []].
Qed.

Lemma restart_loses_authorized_keys_witness :
  let h := HostEnv (getpwnam demo_host) (getgrnam demo_host) [] (subuid_text demo_host)
             (Some ("sandbox:165536:65536" +:+ NL)) "alice" "/h" in
  let inst := "/i" in let key := ("pem", "ssh-ed25519 AAAA") in
  let fs1 := (phase_credentials 1000 inst "10.0.0.2" "pw" "hash" key key ∅).2 in
  let stopped := phase_stop_unlink_consumer_files (λ _, false) h inst "sandbox" fs1 in
  ∃ fs4, phase_credentials 1000 inst "10.0.0.2" "pw2" "hash2" key key stopped.2 = (Ok "pw2", fs4) ∧
    fs4 !! authorized_keys inst = None ∧
    (∃ f, fs1 !! ssh_key inst = Some f ∧ fs4 !! ssh_key inst = Some f) ∧
    fs4 !! host_key inst = Some (MkFile "pem" 384 1000).
Proof.
  intros h inst key fs1 stopped.
  apply (restart_loses_authorized_keys 1000 inst h "sandbox" "10.0.0.2" "10.0.0.2" "pw" "pw2"
           "hash" "hash2" key key key key ∅ fs1 fs1 stopped.2 []).
  - repeat constructor.
  - vm_compute. reflexivity.
  - done.
  - done.
  - done.
  - vm_compute. reflexivity.
  - vm_compute. lia.
Defined.
