(* ===== verification/Interact.v ===== *)
(** * Programs over external calls

    A command of the command line is a tree: it returns or raises, or makes a
    call and goes on with whatever comes of it, which may be an exception.
    Every answer is possible, so a theorem about a program holds on every host
    and under every failure.  A run is a trace of calls with their answers.
    [wp] is the weakest precondition over the trace so far, with a permission
    [ok] that every call must have when it is made. *)
From S2P Require Import Prelude.

Section interact.
Context {call : Type} {answer : call → Type}.

Inductive prog (A : Type) : Type :=
  | Ret (r : res A)
  | Do (c : call) (k : res (answer c) → prog A).
Arguments Ret {A} r.
Arguments Do {A} c k.

Record event := Ev { ev_call : call; ev_answer : res (answer ev_call) }.
Abbreviation trace := (list event).

#[export] Instance prog_ret : MRet prog := λ A a, Ret (Ok a).
#[export] Instance prog_bind : MBind prog := λ A B f,
  fix go m := match m with
  | Ret (Ok a) => f a
  | Ret (Err e) => Ret (Err e)
  | Do c k => Do c (λ r, go (k r))
  end.

Definition perform (c : call) : prog (answer c) := Do c Ret.
Definition raise {A} (e : exn) : prog A := Ret (Err e).
Definition lift {A} (r : res A) : prog A := Ret r.
Definition when (b : bool) (m : prog unit) : prog unit := if b then m else mret tt.

(** [try: m except ...: handler e]; a handler re-raises what it does not catch. *)
Fixpoint catch {A} (m : prog A) (handler : exn → prog A) : prog A :=
  match m with
  | Ret (Ok a) => Ret (Ok a)
  | Ret (Err e) => handler e
  | Do c k => Do c (λ r, catch (k r) handler)
  end.

(** [try: m finally: fin]; an exception of [fin] replaces [m]'s. *)
Fixpoint finally_do {A} (m : prog A) (fin : prog unit) : prog A :=
  match m with
  | Ret r => fin ≫= λ _, Ret r
  | Do c k => Do c (λ r, finally_do (k r) fin)
  end.

Fixpoint for_each {A} (l : list A) (f : A → prog unit) : prog unit :=
  match l with
  | [] => mret tt
  | x :: l => f x ≫= λ _, for_each l f
  end.

(** ** Runs *)

Inductive runs {A} : prog A → trace → res A → Prop :=
  | runs_ret r : runs (Ret r) [] r
  | runs_do c k a t r : runs (k a) t r → runs (Do c k) (Ev c a :: t) r.

(** A run against an environment that answers from the calls so far. *)
Fixpoint run_env {A} (env : trace → ∀ c, res (answer c)) (m : prog A) (h : trace) : trace * res A :=
  match m with
  | Ret r => ([], r)
  | Do c k =>
      let a := env h c in
      let '(t, r) := run_env env (k a) (h ++ [Ev c a]) in (Ev c a :: t, r)
  end.

Lemma run_env_runs {A} env (m : prog A) h : runs m (run_env env m h).1 (run_env env m h).2.
Proof.
  revert h; induction m as [r|c k IH]; intros h; cbn [run_env]; [constructor|].
  specialize (IH (env h c) (h ++ [Ev c (env h c)])).
  destruct (run_env env (k (env h c)) _) as [t r]. by constructor.
Qed.

Lemma run_env_bind {A B} env (m : prog A) (f : A → prog B) h :
  run_env env (m ≫= f) h =
    match run_env env m h with
    | (t, Ok a) => let '(t', r) := run_env env (f a) (h ++ t) in (t ++ t', r)
    | (t, Err e) => (t, Err e)
    end.
Proof.
  revert h; induction m as [[a|e]|c k IH]; intros h.
  - change (Ret (Ok a) ≫= f) with (f a). cbn [run_env]. rewrite app_nil_r. by destruct (run_env env (f a) h).
  - done.
  - change (Do c k ≫= f) with (Do c (λ r, k r ≫= f)). cbn [run_env]. rewrite IH.
    destruct (run_env env (k (env h c)) _) as [t [a|e]]; [|done]. rewrite <- app_assoc. cbn [app].
    by destruct (run_env env (f a) _).
Qed.

(** ** Weakest preconditions *)

Section wp.
Context (ok : trace → call → Prop).

Fixpoint wp {A} (m : prog A) (Q : res A → trace → Prop) (h : trace) : Prop :=
  match m with
  | Ret r => Q r h
  | Do c k => ok h c ∧ ∀ a, wp (k a) Q (h ++ [Ev c a])
  end.

Lemma wp_sound {A} (m : prog A) Q h t r : runs m t r → wp m Q h →
  Q r (h ++ t) ∧ ∀ t1 e t2, t = t1 ++ e :: t2 → ok (h ++ t1) (ev_call e).
Proof.
  intros Hr. revert h; induction Hr as [r|c k a t r _ IH]; intros h Hw.
  - rewrite app_nil_r. split; [done|]. by intros [] ? t2.
  - destruct Hw as [Hok Hw]. destruct (IH _ (Hw a)) as [HQ Ht]. rewrite <- app_assoc in HQ.
    split; [done|]. intros [|e1 t1] e2 t2 [= <- H].
    + by rewrite app_nil_r.
    + specialize (Ht _ _ _ H). by rewrite <- app_assoc in Ht.
Qed.

Lemma wp_mono {A} (m : prog A) (Q Q' : res A → trace → Prop) h :
  (∀ r h', Q r h' → Q' r h') → wp m Q h → wp m Q' h.
Proof.
  intros HQ. revert h; induction m as [r|c k IH]; intros h; cbn [wp]; [apply HQ|].
  intros [Hok Hk]. split; [done|]. intros a. by apply IH.
Qed.

Lemma wp_and {A} (m : prog A) (Q Q' : res A → trace → Prop) h :
  wp m Q h → wp m Q' h → wp m (λ r h', Q r h' ∧ Q' r h') h.
Proof.
  revert h; induction m as [r|c k IH]; intros h; [done|].
  intros [Hok Hk] [_ Hk']. split; [done|]. intros a. by apply IH.
Qed.

Lemma wp_bind {A B} (m : prog A) (f : A → prog B) Q h :
  wp m (λ r h', match r with Ok a => wp (f a) Q h' | Err e => Q (Err e) h' end) h →
  wp (m ≫= f) Q h.
Proof.
  revert h; induction m as [[a|e]|c k IH]; intros h; [done..|].
  intros [Hok Hk]. split; [done|]. intros a. by apply IH.
Qed.

Lemma wp_catch {A} (m : prog A) handler Q h :
  wp m (λ r h', match r with Ok a => Q (Ok a) h' | Err e => wp (handler e) Q h' end) h →
  wp (catch m handler) Q h.
Proof.
  revert h; induction m as [[a|e]|c k IH]; intros h; [done..|].
  intros [Hok Hk]. split; [done|]. intros a. by apply IH.
Qed.

Lemma wp_finally {A} (m : prog A) (fin : prog unit) Q h :
  wp m (λ r h', wp fin (λ r' h'', match r' with Ok _ => Q r h'' | Err e => Q (Err e) h'' end) h') h →
  wp (finally_do m fin) Q h.
Proof.
  revert h; induction m as [r|c k IH]; intros h; cbn [finally_do wp].
  - intros Hf. by apply wp_bind.
  - intros [Hok Hk]. split; [done|]. intros a. by apply IH.
Qed.

Lemma wp_perform (c : call) Q h : ok h c → (∀ a, Q a (h ++ [Ev c a])) → wp (perform c) Q h.
Proof. by split. Qed.

(** A loop with an invariant over the elements done so far. *)
Lemma wp_for_each {A} (I : list A → trace → Prop) (Q : res unit → trace → Prop) l f h :
  I [] h →
  (∀ l1 x l2 h', l = l1 ++ x :: l2 → I l1 h' →
     wp (f x) (λ r h'', match r with Ok _ => I (l1 ++ [x]) h'' | Err e => Q (Err e) h'' end) h') →
  (∀ h', I l h' → Q (Ok tt) h') →
  wp (for_each l f) Q h.
Proof.
  intros H0 Hf HQ.
  assert (∀ l2 l1 h', l = l1 ++ l2 → I l1 h' → wp (for_each l2 f) Q h') as Hgen.
  { induction l2 as [|x l2 IH]; intros l1 h' Hl HI; cbn [for_each].
    - rewrite app_nil_r in Hl. subst. by apply HQ.
    - apply wp_bind. eapply wp_mono; [|by eapply Hf]. intros [[]|e] h'' Hr; [|done].
      eapply IH; [|exact Hr]. by rewrite <- app_assoc. }
  by apply (Hgen l []).
Qed.
End wp.

(** Every call of a program is in [P]. *)
Fixpoint calls_in {A} (P : call → Prop) (m : prog A) : Prop :=
  match m with
  | Ret _ => True
  | Do c k => P c ∧ ∀ a, calls_in P (k a)
  end.

Lemma calls_in_bind {A B} P (m : prog A) (f : A → prog B) :
  calls_in P m → (∀ a, calls_in P (f a)) → calls_in P (m ≫= f).
Proof.
  intros Hm Hf. induction m as [[a|e]|c k IH]; [apply Hf|done|].
  destruct Hm as [HP Hm]. split; [done|]. intros a. by apply IH.
Qed.

Lemma calls_in_catch {A} P (m : prog A) handler :
  calls_in P m → (∀ e, calls_in P (handler e)) → calls_in P (catch m handler).
Proof.
  intros Hm Hf. induction m as [[a|e]|c k IH]; [done|apply Hf|].
  destruct Hm as [HP Hm]. split; [done|]. intros a. by apply IH.
Qed.

Lemma calls_in_for_each {A} P (l : list A) f : (∀ x, calls_in P (f x)) → calls_in P (for_each l f).
Proof.
  intros Hf. induction l as [|x l IH]; cbn [for_each]; [done|]. by apply calls_in_bind.
Qed.

Lemma calls_in_perform P c : P c → calls_in P (perform c).
Proof. done. Qed.

Lemma wp_calls_in {A} (P : call → Prop) (ok : trace → call → Prop) (m : prog A) Q h :
  calls_in P m →
  (∀ t c, Forall (λ e, P (ev_call e)) t → P c → ok (h ++ t) c) →
  (∀ t r, Forall (λ e, P (ev_call e)) t → Q r (h ++ t)) →
  wp ok m Q h.
Proof.
  revert h; induction m as [r|c k IH]; intros h Hc Hok HQ.
  - cbn. rewrite <- (app_nil_r h). apply HQ. constructor.
  - destruct Hc as [HP Hc]. split; [specialize (Hok [] c); rewrite app_nil_r in Hok; by apply Hok|].
    intros a. apply IH; [done|..].
    + intros t c' Ht Hc'. rewrite <- app_assoc. apply Hok; [by constructor|done].
    + intros t r Ht. rewrite <- app_assoc. apply HQ. by constructor.
Qed.

(** A first part whose calls are all in [P]. *)
Lemma wp_bind_calls {A B} (P : call → Prop) (ok : trace → call → Prop) (m : prog A) (f : A → prog B) Q h :
  calls_in P m →
  (∀ t c, Forall (λ e, P (ev_call e)) t → P c → ok (h ++ t) c) →
  (∀ a t, Forall (λ e, P (ev_call e)) t → wp ok (f a) Q (h ++ t)) →
  (∀ e t, Forall (λ e, P (ev_call e)) t → Q (Err e) (h ++ t)) →
  wp ok (m ≫= f) Q h.
Proof.
  intros Hm Hok Hf He. apply wp_bind. eapply wp_calls_in; [done..|].
  intros t [a|e] Ht; [by apply Hf|by apply He].
Qed.

(** A part that is known by its run. *)
Lemma wp_runs {A} (P : call → Prop) (ok : trace → call → Prop) (m : prog A) h :
  calls_in P m → (∀ t c, P c → ok t c) →
  wp ok m (λ r h', ∃ t, h' = h ++ t ∧ runs m t r ∧ Forall (λ e, P (ev_call e)) t) h.
Proof.
  intros Hm Hok. revert h; induction m as [r|c k IH]; intros h.
  - exists []. split_and!; [by rewrite app_nil_r|constructor..].
  - destruct Hm as [HP Hm]. split; [by apply Hok|]. intros a. eapply wp_mono; [|by apply IH].
    intros r h' (t & -> & Hr & Ht). exists (Ev c a :: t).
    split_and!; [by rewrite <- app_assoc|by constructor|by constructor].
Qed.

(** Inversion of a run. *)
Lemma runs_Ret {A} (r r' : res A) t : runs (Ret r) t r' → t = [] ∧ r' = r.
Proof.
  intros H. exact (match H in runs m t r' return
    match m with Ret r => t = [] ∧ r' = r | Do _ _ => True end with
    | runs_ret _ => conj eq_refl eq_refl | runs_do _ _ _ _ _ _ => I end).
Qed.

Lemma runs_Do {A} c (k : _ → prog A) t r : runs (Do c k) t r →
  ∃ a t', t = Ev c a :: t' ∧ runs (k a) t' r.
Proof.
  intros H. exact (match H in runs m t r return
    match m with Ret _ => True | Do c k => ∃ a t', t = Ev c a :: t' ∧ runs (k a) t' r end with
    | runs_ret _ => I
    | runs_do c k a t r H => ex_intro _ a (ex_intro _ t (conj eq_refl H)) end).
Qed.

Lemma runs_perform c t a : runs (perform c) t (Ok a) → t = [Ev c (Ok a)].
Proof. intros (a' & t' & -> & [-> ->]%runs_Ret)%runs_Do. done. Qed.

Lemma runs_bind_Ok {A B} (m : prog A) (f : A → prog B) t b : runs (m ≫= f) t (Ok b) →
  ∃ t1 t2 a, t = t1 ++ t2 ∧ runs m t1 (Ok a) ∧ runs (f a) t2 (Ok b).
Proof.
  revert t; induction m as [[a|e]|c k IH]; intros t.
  - intros Hr. exists [], t, a. split_and!; [done|constructor|done].
  - by intros [_ ?]%runs_Ret.
  - intros (a & t' & -> & (t1 & t2 & a' & -> & H1 & H2)%IH)%runs_Do.
    exists (Ev c a :: t1), t2, a'. split_and!; [done|by constructor|done].
Qed.

Lemma runs_bind {A B} (m : prog A) (f : A → prog B) t r : runs (m ≫= f) t r →
  (∃ e, r = Err e ∧ runs m t (Err e)) ∨
  ∃ t1 t2 a, t = t1 ++ t2 ∧ runs m t1 (Ok a) ∧ runs (f a) t2 r.
Proof.
  revert t; induction m as [[a|e]|c k IH]; intros t.
  - intros Hr. right. exists [], t, a. split_and!; [done|constructor|done].
  - intros [-> ->]%runs_Ret. left. exists e. split; [done|constructor].
  - intros (a & t' & -> & Hr)%runs_Do. apply IH in Hr as [(e & -> & Hr)|(t1 & t2 & a' & -> & H1 & H2)].
    + left. exists e. split; [done|by constructor].
    + right. exists (Ev c a :: t1), t2, a'. split_and!; [done|by constructor|done].
Qed.

Lemma runs_catch {A} (m : prog A) handler t r : runs (catch m handler) t r →
  (∃ a, r = Ok a ∧ runs m t (Ok a)) ∨
  ∃ t1 t2 e, t = t1 ++ t2 ∧ runs m t1 (Err e) ∧ runs (handler e) t2 r.
Proof.
  revert t; induction m as [[a|e]|c k IH]; intros t; cbn [catch].
  - intros [-> ->]%runs_Ret. left. exists a. split; [done|constructor].
  - intros Hr. right. exists [], t, e. split_and!; [done|constructor|done].
  - intros (a & t' & -> & Hr)%runs_Do. apply IH in Hr as [(b & -> & Hr)|(t1 & t2 & e & -> & H1 & H2)].
    + left. exists b. split; [done|by constructor].
    + right. exists (Ev c a :: t1), t2, e. split_and!; [done|by constructor|done].
Qed.

(** A run of a loop: the elements done, and the one that raised. *)
Lemma runs_for_each {A} (l : list A) f t r : runs (for_each l f) t r →
  ∃ l1 l2 ts, l = l1 ++ l2 ∧ Forall2 (λ x t, runs (f x) t (Ok tt)) l1 ts ∧
    match l2 with
    | [] => t = concat ts ∧ r = Ok tt
    | x :: _ => ∃ t' e, t = concat ts ++ t' ∧ runs (f x) t' (Err e) ∧ r = Err e
    end.
Proof.
  revert t; induction l as [|x l IH]; intros t; cbn [for_each].
  - intros [-> ->]%runs_Ret. by exists [], [], [].
  - intros [(e & -> & Hr)|(t1 & t2 & [] & -> & H1 & H2)]%runs_bind.
    + exists [], (x :: l), []. split_and!; [done|constructor|]. by exists t, e.
    + apply IH in H2 as (l1 & l2 & ts & -> & Hts & Hend). exists (x :: l1), l2, (t1 :: ts).
      split_and!; [done|by constructor|]. destruct l2 as [|y l2].
      * by destruct Hend as [-> ->].
      * destruct Hend as (t' & e & -> & Hr & ->). exists t', e. cbn [concat]. by rewrite app_assoc.
Qed.

Lemma runs_calls_in {A} (P : call → Prop) (m : prog A) t r : runs m t r → calls_in P m →
  Forall (λ e, P (ev_call e)) t.
Proof.
  intros Hr; induction Hr as [|c k a t r _ IH]; [constructor|]. intros [HP Hk]. constructor; [done|]. by apply IH.
Qed.

Lemma runs_when b (m : prog unit) t : runs (when b m) t (Ok tt) → b = true → runs m t (Ok tt).
Proof. by destruct b. Qed.

(** Calls that succeeded, and calls that were made. *)
Definition succeeded (h : trace) : list call :=
  omap (λ e, if ev_answer e is Ok _ then Some (ev_call e) else None) h.
Definition made (h : trace) : list call := map ev_call h.

Lemma succeeded_app h1 h2 : succeeded (h1 ++ h2) = succeeded h1 ++ succeeded h2.
Proof. apply omap_app. Qed.
Lemma made_app h1 h2 : made (h1 ++ h2) = made h1 ++ made h2.
Proof. apply map_app. Qed.

(** ** Programs that carry out a plan of changes

    A program is [stepwise] for a plan when every run attempts a first part of
    it in order, each change after the one before succeeded, and a run that
    returns has achieved all of it. *)
Section stepwise.
Context (change : call → bool).

Definition attempted (t : trace) : list call := List.filter change (made t).
Definition achieved (t : trace) : list call := List.filter change (succeeded t).

(** The trace of a run for a plan. *)
Definition stepped {A} (plan : list call) (t : trace) (r : res A) : Prop :=
  ∃ k n, achieved t = take k plan ∧ attempted t = take n plan ∧
    k <= n <= S k ∧ n <= length plan ∧ (is_ok r = true → k = length plan).

Definition stepwise {A} (plan : list call) (m : prog A) : Prop := ∀ t r, runs m t r → stepped plan t r.

Lemma attempted_app t1 t2 : attempted (t1 ++ t2) = attempted t1 ++ attempted t2.
Proof. unfold attempted. by rewrite made_app, List.filter_app. Qed.
Lemma achieved_app t1 t2 : achieved (t1 ++ t2) = achieved t1 ++ achieved t2.
Proof. unfold achieved. by rewrite succeeded_app, List.filter_app. Qed.

Lemma attempted_none t : Forall (λ e, change (ev_call e) = false) t → attempted t = [] ∧ achieved t = [].
Proof.
  unfold attempted, achieved, made, succeeded.
  induction 1 as [|[c a] t Hc _ [IH1 IH2]]; [done|]. cbn in *. rewrite Hc. split; [done|]. destruct a; cbn; [by rewrite Hc|done].
Qed.

Lemma stepped_none {A} plan t (r : res A) : Forall (λ e, change (ev_call e) = false) t →
  (is_ok r = true → plan = []) → stepped plan t r.
Proof.
  intros [Ht1 Ht2]%attempted_none Hr. exists 0, 0. rewrite Ht1, Ht2, take_0. split_and!; [done..|lia|lia|lia|].
  intros Hok. by rewrite Hr.
Qed.

Lemma stepped_err {A B} p q t e : stepped p t (Err e : res A) → stepped (p ++ q) t (Err e : res B).
Proof.
  intros (k & n & Hk & Hn & Hkn & Hl & _). exists k, n.
  rewrite !take_app_le, length_app by lia. by split_and!; [..|lia|lia|lia|].
Qed.

Lemma stepped_app {A B} p q t1 t2 (a : A) (r : res B) : stepped p t1 (Ok a) → stepped q t2 r →
  stepped (p ++ q) (t1 ++ t2) r.
Proof.
  intros (k & n & Hk & Hn & Hkn & Hl & Hok) (k' & n' & Hk' & Hn' & Hkn' & Hl' & Hok').
  specialize (Hok eq_refl). assert (n = length p) as -> by lia. subst k. rewrite firstn_all in Hk, Hn.
  exists (length p + k'), (length p + n').
  rewrite attempted_app, achieved_app, Hk, Hn, Hk', Hn', !take_app_add, length_app.
  split_and!; [done|done|lia|lia|lia|]. intros Hr. by rewrite Hok'.
Qed.

Lemma stepwise_Ret {A} (r : res A) : stepwise [] (Ret r).
Proof. intros t r' [-> ->]%runs_Ret. by apply stepped_none. Qed.

Lemma stepwise_raise {A} plan e : stepwise plan (raise e : prog A).
Proof. intros t r' [-> ->]%runs_Ret. by apply stepped_none. Qed.

Lemma stepwise_bind {A B} p q (m : prog A) (f : A → prog B) : stepwise p m →
  (∀ t a, runs m t (Ok a) → stepwise q (f a)) → stepwise (p ++ q) (m ≫= f).
Proof.
  intros Hm Hf t r [(e & -> & Hr)|(t1 & t2 & a & -> & H1 & H2)]%runs_bind.
  - eapply stepped_err, Hm, Hr.
  - eapply stepped_app; [apply (Hm _ _ H1)|]. by apply (Hf _ _ H1).
Qed.

Lemma stepwise_change c : change c = true → stepwise [c] (perform c).
Proof.
  intros Hc t r (a & t' & -> & [-> ->]%runs_Ret)%runs_Do. exists (if is_ok a then 1 else 0), 1.
  unfold attempted, achieved, made, succeeded. cbn. rewrite Hc.
  destruct a; cbn; [rewrite Hc|]; split_and!; (done || lia).
Qed.

Lemma stepwise_for_each {A} (g : A → list call) l (f : A → prog unit) :
  (∀ x, stepwise (g x) (f x)) → stepwise (flat_map g l) (for_each l f).
Proof.
  intros Hf. induction l as [|x l IH]; cbn [for_each flat_map]; [apply stepwise_Ret|].
  apply stepwise_bind; [apply Hf|done].
Qed.

(** Calls that change nothing. *)
Lemma stepwise_calls_in {A} (m : prog A) : calls_in (λ c, change c = false) m → stepwise [] m.
Proof.
  intros Hm t r Hr. apply stepped_none; [|done]. exact (runs_calls_in (λ c, change c = false) m t r Hr Hm).
Qed.
End stepwise.
End interact.

Arguments prog {call} answer A.
Arguments Ret {call answer A} r.
Arguments Do {call answer A} c k.
Arguments event {call} answer.
Abbreviation trace answer := (list (event answer)).

(** Every call of a program has the property: follow its structure. *)
Ltac calls_tac := repeat match goal with
  | |- calls_in _ (Ret _) => exact I
  | |- calls_in _ (raise _) => exact I
  | |- calls_in _ (lift _) => exact I
  | |- calls_in _ (mret _) => exact I
  | |- calls_in _ (perform _) => apply calls_in_perform
  | |- calls_in _ (_ ≫= _) => apply calls_in_bind; [|intros]
  | |- calls_in _ (catch _ _) => apply calls_in_catch; [|intros]
  | |- calls_in _ (for_each _ _) => apply calls_in_for_each; intros
  | |- calls_in _ (when ?b _) => destruct b; cbn [when]
  | |- calls_in _ (match ?x with _ => _ end) => destruct x
  | |- calls_in _ (let '(_, _) := ?x in _) => destruct x
  end.

(** Make the call at the head of a program. *)
Ltac wp_call := lazymatch goal with
  | |- wp _ (@perform _ ?answer ?c ≫= _) _ _ => apply wp_bind, (@wp_perform _ answer _ c)
  | |- wp _ (@perform _ ?answer ?c) _ _ => apply (@wp_perform _ answer _ c)
  end.
