(* ===== verification/Cli.v ===== *)
(** * cli.main: the calls of the commands, and the parts they share

    What a command does to the outside is a [cli_call]; see [Interact].  A call
    names a function of another module whose own model is elsewhere, a file
    operation, a prompt, or the execution of an action of [Recipes].  Printing
    is left out. *)
From S2P Require Import Prelude PyStr HostConfig Json Images Dispatch Preflight Doctor PrivilegeBoundary Recipes Secrets Interact.
From Stdlib Require Import Ascii String.
From stdpp Require Import sorting.
Open Scope nat_scope.

(** The fields of core.hydration's [InstanceConfig] that the commands read; the
    workspaces are in the order of the file. *)
Record WorkspaceEntry := MkWorkspace { bootstrap_mode : string; source : option string; path : string }.
Record InstanceConfig := MkInstanceConfig {
  ic_name : string;
  workspaces : list (string * WorkspaceEntry);
  db_postgres_enabled : bool;
  mcp_firecrawl : bool
}.

(** core.scaffold's [WorkspaceSpec]. *)
Record WorkspaceSpec := MkSpec {
  ws_name : string; ws_bootstrap_mode : string; ws_source : option string; ws_path : string }.

Inductive cli_call : Type :=
  (* reads *)
  | Geteuid
  | StateInitialized
  | RegistryGet (inst : string)
  | PathExists (p : string)
  | LoadConfig (instance_dir : string)
  | FromMarker
  | ReadEnv (p : string)
  | Probe (op : string) (args : list string) (c : HostConfig)
  | BackupLockHeld (inst : string)
  | StdinIsTty
  | Prompt (msg : string)
  | Confirm (msg : string)
  | NeedsRecursive (ws : string) (gid : Z)
  | DiagnoseTraverse (instance_dir host_user : string)
  | IsFile (p : string)
  | PreflightSource (src : string)
  | ResolveBackup (spec : option string) (ws : string)
  | PeekSlot (inst : string)
  | BuildContext (config : InstanceConfig) (base_index : Z) (instance_dir : string)
  | ValidateTemplates (config : InstanceConfig) (base_index : Z) (instance_dir : string)
  | ReadDispatchEnv
  | UtcTimestamp
  (* locks *)
  | AcquireStateLock
  | ReleaseStateLock
  | AcquireBackupLock (inst : string)
  | ReleaseBackupLock (inst : string)
  (* changes *)
  | AllocateSlot (inst : string)
  | SharedGroupRecursive (ws : string) (gid : Z)
  | Exec (a : Action)
  | RunCommand (argv : list string)
  | Credentials (instance_dir core_ipc_ip : string)
  | Hydrate (config : InstanceConfig) (base_index : Z) (proxy_password instance_dir : string)
  | Invoke (op : string) (args : list string) (c : HostConfig)
  | Handover (argv : list string)
  | UnlinkFile (p : string)
  | CreateBackup (inst ws src mode : string) (acquire_lock : bool)
  | RestoreBackup (backup inst ws : string)
  | Rmtree (p : string)
  | Rmdir (p : string)
  | Rename (src dst : string)
  | Makedirs (p : string)
  | Chmod (p : string) (mode : Z)
  | CopyWorkspace (src dst : string)
  | MutateWorkspaces (instance_dir : string) (specs : list WorkspaceSpec)
  | ReleaseSlot (inst : string)
  | RegistryRemove (inst : string).

Definition answer (c : cli_call) : Type :=
  match c with
  | Geteuid | AllocateSlot _ | Handover _ => Z
  | StateInitialized | PathExists _ | BackupLockHeld _ | StdinIsTty | Confirm _
  | NeedsRecursive _ _ | IsFile _ => bool
  | RegistryGet _ => option string
  | LoadConfig _ => InstanceConfig
  | FromMarker => HostConfig
  | ReadEnv _ => option env_file
  | Probe _ _ _ => ProbeOutcome
  | PeekSlot _ => Z * bool
  | ValidateTemplates _ _ _ => list string
  | ReadDispatchEnv => dispatch_env
  | Prompt _ | DiagnoseTraverse _ _ | Credentials _ _ | ResolveBackup _ _ | RestoreBackup _ _ _
  | UtcTimestamp => string
  | _ => unit
  end.

Abbreviation cmd := (prog answer).
Abbreviation do c := (perform (answer := answer) c).

(** [except OSError] *)
Definition is_os_error (e : exn) : bool :=
  bool_decide (e ∈ [FileNotFoundError; BlockingIOError; OSError; CrossDeviceError]).

Definition exit1 {A} : cmd A := raise (Exit 1).

(** ** Guards and lookups *)

Definition refuse_root_euid : cmd unit :=
  euid ← do Geteuid; when (euid =? 0)%Z exit1.

Definition require_per_user_state_initialized : cmd unit :=
  there ← do StateInitialized; when (negb there) exit1.

Definition lookup_instance_or_exit (inst : string) : cmd string :=
  e ← do (RegistryGet inst);
  match e with Some instance_dir => mret instance_dir | None => exit1 end.

Definition resolve_full_host_config : cmd HostConfig :=
  catch (do FromMarker) (λ e, if bool_decide (e = ModeMarkerMissing) then exit1 else raise e).

(** ** The state lock *)

(** Contention is [BlockingIOError]; the message and the exit are the callers'. *)
Definition acquire_or_exit : cmd unit :=
  catch (do AcquireStateLock) (λ e, if bool_decide (e = BlockingIOError) then exit1 else raise e).

(** [_release_lock] swallows the errors of its two system calls. *)
Definition release_lock : cmd unit := Do ReleaseStateLock (λ _, mret tt).

Definition refuse_if_backup_in_progress (inst : string) : cmd unit :=
  held ← do (BackupLockHeld inst); when held exit1.

(** After the lock is taken: release it before the exit. *)
Definition refuse_backup_holding_lock (inst : string) : cmd unit :=
  held ← do (BackupLockHeld inst);
  when held (_ ← release_lock; exit1).

(** ** Container status *)

Record ContainerInfo := MkContainer {
  ct_name : string; ct_service : string; ct_state : string; ct_health : option string; ct_status : string }.

Definition MAX_COMPOSE_PS_BYTES : nat := 256 * 1024.

Definition str_field (k : string) (data : gmap string JsonValue) : string :=
  default "" (data !! k ≫= as_str).

Definition container_of_line (loads : string → option JsonValue) (line : string) : option ContainerInfo :=
  let line := strip line in
  if nonempty line then
    data ← loads line ≫= as_obj;
    Some (MkContainer (str_field "Name" data) (str_field "Service" data) (str_field "State" data)
            (if nonempty (str_field "Health" data) then Some (str_field "Health" data) else None)
            (str_field "Status" data))
  else None.

(** Every line that is a JSON object, in order; an oversized report is none. *)
Definition parse_compose_ps (loads : string → option JsonValue) (stdout : string) : list ContainerInfo :=
  if nonempty stdout && (utf8_len stdout <=? MAX_COMPOSE_PS_BYTES)
  then omap (container_of_line loads) (splitlines (strip stdout))
  else [].

Section cli.
Context (h : host_env) (loads : string → option JsonValue).

Definition compose_file (instance_dir : string) : string :=
  path_join3 instance_dir "docker" "compose.yml".

Definition container_status (instance_dir host_user : string) (config : InstanceConfig)
    (mode : DockerExecutionMode) : cmd (list ContainerInfo) :=
  there ← do (PathExists (compose_file instance_dir));
  if negb there then mret []
  else
    host_config ← lift (minimal_host_config host_user mode);
    outcome ← do (Probe "compose-ps" [ic_name config] host_config);
    mret (if ok outcome then parse_compose_ps loads (stdout outcome) else []).

Definition warm_check (instance_dir host_user : string) (mode : DockerExecutionMode) : cmd bool :=
  there ← do (PathExists (compose_file instance_dir));
  if negb there then mret false
  else
    config ← do (LoadConfig instance_dir);
    containers ← container_status instance_dir host_user config mode;
    mret (negb (bool_decide (containers = []))).

Definition require_instance_stopped (inst instance_dir : string) : cmd unit :=
  host_config ← resolve_full_host_config;
  host_user ← lift (resolve_daemon_owner h host_config);
  warm ← warm_check instance_dir host_user (docker_execution_mode (host host_config));
  when warm exit1.

(** ** Workspace names, sorted *)

(** [sorted(d.items())]; the keys are distinct. *)
Definition sorted_items {A} (l : list (string * A)) : list (string * A) := merge_sort key_le l.

(** [[ws.path for _, ws in sorted(config.workspaces.items())]] *)
Definition ws_paths (config : InstanceConfig) : list string :=
  map (λ w, path (snd w)) (sorted_items (workspaces config)).

Definition workspace_names (config : InstanceConfig) : list string :=
  map fst (sorted_items (workspaces config)).

(** ** The handover *)

Definition instance_home (inst : string) : string := path_join3 (sandbox_ai_home h) "instances" inst.

(** [_build_attach_argv], given what the resolver, the clock and the proxy give. *)
Definition attach_argv (inst ws project_name core_ipc_ip timestamp proxy_command : string) : list string :=
  let secrets := path_join (instance_home inst) "secrets" in
  let session_log := path_join (path_join3 (sandbox_ai_home h) "sessions" project_name)
                       (timestamp +:+ ".log") in
  ["tlog-rec"; "--writer=file"; "--file-path=" +:+ session_log; "--"; "ssh"; "-F"; "/dev/null";
   "-i"; path_join secrets "ipc_ssh_key";
   "-o"; "UserKnownHostsFile=" +:+ path_join secrets "ipc_known_hosts";
   "-o"; "StrictHostKeyChecking=yes"; "-o"; "IdentitiesOnly=yes"; "-o"; "IdentityAgent=none";
   "-o"; "ForwardAgent=no"; "-o"; "ForwardX11=no"; "-o"; "ClearAllForwardings=yes";
   "-o"; "PermitLocalCommand=no"; "-o"; "ProxyCommand=" +:+ proxy_command;
   "-p"; "9999"; "-t"; "agent@" +:+ core_ipc_ip;
   "cd /workspaces/" +:+ shlex_quote ws +:+ " && exec bash -l"].

Definition build_attach_argv (inst ws : string) (host_config : HostConfig) : cmd (list string) :=
  e ← do ReadDispatchEnv;
  '(project_name, core_ipc_ip) ← lift (resolve_fwd_state e inst);
  _ ← do (Makedirs (path_join3 (sandbox_ai_home h) "sessions" project_name));
  timestamp ← do UtcTimestamp;
  e ← do ReadDispatchEnv;
  argv ← lift (proxy_argv h e "fwd" [inst] host_config);
  mret (attach_argv inst ws project_name core_ipc_ip timestamp (shlex_join argv)).

(** [subprocess.run(argv, check=False)] and [raise typer.Exit(completed.returncode)] *)
Definition hand_over (inst ws : string) (host_config : HostConfig) : cmd unit :=
  argv ← build_attach_argv inst ws host_config;
  code ← do (Handover argv);
  raise (Exit code).
End cli.
