(* ===== verification/Lifecycle.v ===== *)
(** * cli.main: start, stop and attach

    [uid], [stat_uid] and [abspath] are what the ancestor walks read, [set_len]
    is of [PrivilegeBoundary], [dev_user] is [os.environ.get("USER")].  The
    grant plan is out of fuel only for a path that is not rooted
    ([Recipes.compute_ancestors_spec]); [RuntimeError] stands for that. *)
From S2P Require Import Prelude PyStr HostConfig Json Images Dispatch Preflight Doctor PrivilegeBoundary Recipes Secrets Interact Cli.
From Stdlib Require Import Ascii String.
Open Scope nat_scope.

Section lifecycle.
Context (h : host_env) (uid : Z) (stat_uid : string → option Z) (abspath : string → string)
  (loads : string → option JsonValue) (set_len : list JsonValue → nat) (dev_user : option string).

(** ** The phases *)

Definition phase_workspace_shared_group (ws : string) (s : HostSettings) : cmd unit :=
  bridge_gid ← lift (workspace_bridge_gid h s);
  host_user ← lift (resolve_daemon_owner_settings h s);
  needs ← do (NeedsRecursive ws bridge_gid);
  _ ← when needs (do (SharedGroupRecursive ws bridge_gid));
  for_each (workspace_shared_group_plan ws bridge_gid dev_user host_user) (λ a,
    catch (do (Exec a)) (λ e,
      match a with
      | WorkspaceSharedGroupAction _ _ (chgrp | chmod_2770) _ _ =>
          if is_sandbox_execution_error e
          then raise (SandboxExecutionError ("chgrp/chmod failed for " +:+ ws +:+ ": " +:+ exn_text e) false)
          else raise e
      | _ => raise e
      end)).

Definition grant_plan (instance_dir host_user : string) (config : InstanceConfig) : res (list Action) :=
  match acl_grant_plan uid stat_uid abspath instance_dir host_user (ws_paths config) dev_user with
  | Some plan => Ok plan
  | None => Err RuntimeError
  end.

Definition phase_acl_grant (instance_dir host_user : string) (config : InstanceConfig) : cmd unit :=
  plan ← lift (grant_plan instance_dir host_user config);
  for_each plan (λ a,
    catch (do (Exec a)) (λ e,
      if is_sandbox_execution_error e then
        diag ← do (DiagnoseTraverse instance_dir host_user);
        if nonempty diag
        then raise (SandboxExecutionError (exn_text e +:+ NL +:+ diag) false) else raise e
      else raise e)).

(** [subprocess.run(argv, check=True)] with its failure wrapped. *)
Definition run_checked (argv : list string) (msg : string) : cmd unit :=
  catch (do (RunCommand argv)) (λ e,
    if bool_decide (e = CalledProcessError) then raise (SandboxExecutionError msg false) else raise e).

(** [os.path.isfile] is asked for every candidate before the first [setfacl]. *)
Fixpoint filter_files (paths : list string) : cmd (list string) :=
  match paths with
  | [] => mret []
  | p :: paths => there ← do (IsFile p); rest ← filter_files paths;
                  mret (if (there : bool) then p :: rest else rest)
  end.

Definition phase_grant_post_hydrate_daemon_read (instance_dir host_user : string) : cmd unit :=
  paths ← filter_files (daemon_read_candidates instance_dir);
  for_each paths (λ p, run_checked (daemon_read_command host_user p)
    ("Failed to grant daemon read on post-hydrate target " +:+ p)).

Definition cache_log_default_entry : string :=
  "u::rwx,g::---,o::---,m::rwx" +:+
  match dev_user with Some (String _ _ as u) => ",u:" +:+ u +:+ ":rwx" | _ => "" end.

Definition phase_helper_mkdir_chown_cache_log (instance_dir host_user : string) : cmd unit :=
  plan ← lift (helper_mkdir_chown_plan h instance_dir host_user);
  for_each plan (λ a,
    match a with
    | HelperMkdirChownAction parent _ _ _ =>
        _ ← run_checked ["setfacl"; "-d"; "-m"; cache_log_default_entry; parent]
              ("Default ACL setup failed for " +:+ parent);
        do (Exec a)
    | _ => do (Exec a)
    end).

Definition phase_helper_cp_chown_ro_files (instance_dir host_user : string) : cmd unit :=
  plan ← lift (helper_cp_chown_plan h instance_dir host_user);
  for_each plan (λ a, do (Exec a)).

(** The action needs the daemon's owner of the configuration it is given. *)
Definition phase_compose_up (inst : string) (host_config : HostConfig) : cmd unit :=
  _ ← lift (resolve_daemon_owner h host_config);
  do (Exec (ComposeUpAction inst)).

Definition core_ipc_ip_of (base_index : Z) : res string :=
  ips ← Ipam.derive_static_ips base_index;
  match assoc "core_ipc_ip" ips with Some ip => Ok ip | None => Err KeyError end.

(** [_revoke_acls]: a failing revoke is a warning. *)
Definition revoke_acls (instance_dir host_user : string) (config : InstanceConfig) : cmd unit :=
  for_each (acl_revoke_plan instance_dir host_user (ws_paths config)) (λ a,
    catch (do (Exec a)) (λ e, if is_sandbox_execution_error e then mret tt else raise e)).

(** ** start *)

Definition preflight (host_user : string) (mode : DockerExecutionMode) : cmd unit :=
  c ← lift (minimal_host_config host_user mode);
  outcome ← do (Probe "preflight" [] c);
  gate ← lift (evaluate_preflight_gate outcome);
  if negb (reachable gate) then exit1
  else
    e ← do ReadDispatchEnv;
    verdicts ← lift (interpret_preflight_bundle loads set_len (de_registry e) (de_dev_username e)
                       (per_op gate) host_user);
    when (existsb (λ r, bool_decide (status r = FAILED)) verdicts) exit1.

(** The [try] block, up to the point where grants begin... *)
Definition start_before_grants (inst : string) (config : InstanceConfig) (host_config : HostConfig)
    : cmd Z :=
  base_index ← do (AllocateSlot inst);
  _ ← catch (for_each (ws_paths config) (λ ws, phase_workspace_shared_group ws (host host_config)))
        (λ e, if bool_decide (e = WorkspaceBridgeGroupMissingError)
              then _ ← release_lock; exit1 else raise e);
  mret base_index.

(** ... and from there. *)
Definition start_after_grants (inst instance_dir host_user : string) (config : InstanceConfig)
    (base_index : Z) : cmd unit :=
  _ ← phase_acl_grant instance_dir host_user config;
  ip ← lift (core_ipc_ip_of base_index);
  proxy_password ← do (Credentials instance_dir ip);
  _ ← do (Hydrate config base_index proxy_password instance_dir);
  _ ← phase_grant_post_hydrate_daemon_read instance_dir host_user;
  _ ← phase_helper_mkdir_chown_cache_log instance_dir host_user;
  _ ← phase_helper_cp_chown_ro_files instance_dir host_user;
  host_config ← resolve_full_host_config;
  phase_compose_up inst host_config.

Definition attempt {A} (m : cmd A) : cmd (A + exn) :=
  catch (a ← m; mret (inl a)) (λ e, mret (inr e)).

(** [except (IPAMExhaustedError, SandboxExecutionError)] *)
Definition start_caught (e : exn) : bool :=
  bool_decide (e = IPAMExhaustedError) || is_sandbox_execution_error e.

Definition start_handler (instance_dir host_user : string) (config : InstanceConfig)
    (acl_granted : bool) (e : exn) : cmd unit :=
  if start_caught e then
    _ ← when acl_granted (revoke_acls instance_dir host_user config);
    _ ← release_lock;
    exit1
  else raise e.

Definition start_handover (inst : string) (config : InstanceConfig) (no_handover : bool) : cmd unit :=
  tty ← (if no_handover then mret false else do StdinIsTty);
  if negb tty then mret tt
  else
    match workspace_names config with
    | [ws] => host_config ← resolve_full_host_config; hand_over h inst ws host_config
    | _ => mret tt
    end.

(** From the lock on. *)
Definition start_locked (inst instance_dir host_user : string) (config : InstanceConfig)
    (host_config : HostConfig) (no_handover : bool) : cmd unit :=
  r ← attempt (start_before_grants inst config host_config);
  match r with
  | inr e => start_handler instance_dir host_user config false e
  | inl base_index =>
      r ← attempt (start_after_grants inst instance_dir host_user config base_index);
      match r with
      | inr e => start_handler instance_dir host_user config true e
      | inl _ => _ ← release_lock; start_handover inst config no_handover
      end
  end.

(** Without [dry_run], after the two guards. *)
Definition start_run (inst : string) (no_handover : bool) : cmd unit :=
  instance_dir ← lookup_instance_or_exit inst;
  initialized ← do (PathExists (path_join instance_dir ".initialized"));
  _ ← when (negb initialized) exit1;
  config ← do (LoadConfig instance_dir);
  host_config ← resolve_full_host_config;
  host_user ← lift (resolve_daemon_owner h host_config);
  env ← do (ReadEnv (path_join instance_dir ".sandbox.env"));
  _ ← when (negb (bool_decide (check_secrets (db_postgres_enabled config) (mcp_firecrawl config) env = [])))
        exit1;
  let mode := docker_execution_mode (host host_config) in
  _ ← preflight host_user mode;
  warm ← warm_check loads instance_dir host_user mode;
  if (warm : bool) then mret tt
  else
    _ ← acquire_or_exit;
    _ ← refuse_backup_holding_lock inst;
    start_locked inst instance_dir host_user config host_config no_handover.

Definition start (inst : string) (no_handover : bool) : cmd unit :=
  _ ← refuse_root_euid;
  _ ← require_per_user_state_initialized;
  start_run inst no_handover.

(** ** stop and attach *)

(** One file of a plan: an absent one is skipped, another error is a warning. *)
Definition phase_unlink (instance_dir host_user : string) : cmd unit :=
  plan ← lift (helper_cp_chown_plan h instance_dir host_user);
  for_each (unlink_targets plan) (λ p,
    catch (do (UnlinkFile p)) (λ e,
      if is_os_error e then mret tt else raise e)).

Definition compose_down (host_user : string) (config : InstanceConfig) (volumes : bool)
    (mode : DockerExecutionMode) : cmd unit :=
  c ← lift (minimal_host_config host_user mode);
  do (Invoke "compose-down" (ic_name config :: (if volumes then ["--volumes"] else [])) c).

Definition phase_stop_teardown (instance_dir host_user : string) (config : InstanceConfig)
    (volumes : bool) (mode : DockerExecutionMode) : cmd unit :=
  _ ← compose_down host_user config volumes mode;
  _ ← phase_unlink instance_dir host_user;
  revoke_acls instance_dir host_user config.

Definition stop (inst : string) (clean : bool) : cmd unit :=
  _ ← refuse_root_euid;
  _ ← require_per_user_state_initialized;
  instance_dir ← lookup_instance_or_exit inst;
  config ← do (LoadConfig instance_dir);
  host_config ← resolve_full_host_config;
  host_user ← lift (resolve_daemon_owner h host_config);
  let mode := docker_execution_mode (host host_config) in
  warm ← warm_check loads instance_dir host_user mode;
  if negb warm then mret tt
  else
    _ ← acquire_or_exit;
    _ ← refuse_backup_holding_lock inst;
    _ ← phase_stop_teardown instance_dir host_user config clean mode;
    release_lock.

Definition attach (inst : string) (ws : option string) : cmd unit :=
  _ ← refuse_root_euid;
  _ ← require_per_user_state_initialized;
  _ ← refuse_if_backup_in_progress inst;
  instance_dir ← lookup_instance_or_exit inst;
  config ← do (LoadConfig instance_dir);
  host_config ← resolve_full_host_config;
  host_user ← lift (resolve_daemon_owner h host_config);
  ws ← match ws with
       | None => match workspace_names config with [w] => mret w | _ => exit1 end
       | Some w => if bool_decide (w ∈ map fst (workspaces config)) then mret w else exit1
       end;
  warm ← warm_check loads instance_dir host_user (docker_execution_mode (host host_config));
  if negb warm then exit1 else hand_over h inst ws host_config.
End lifecycle.

(** ** Programs that carry out a plan *)

Open Scope list_scope.

Definition actions (t : trace answer) : list Action :=
  omap (λ e, match ev_call e with Exec a => Some a | _ => None end) t.

(** Those that succeeded. *)
Definition executed (t : trace answer) : list Action :=
  omap (λ c, match c with Exec a => Some a | _ => None end) (succeeded t).

(** The locks a trace touches. *)
Definition lock_calls (t : trace answer) : list cli_call :=
  List.filter (λ c, match c with AcquireStateLock | ReleaseStateLock => true | _ => false end) (made t).

Lemma actions_app t1 t2 : actions (t1 ++ t2) = (actions t1 ++ actions t2)%list.
Proof. apply omap_app. Qed.
Lemma executed_app t1 t2 : executed (t1 ++ t2) = executed t1 ++ executed t2.
Proof. unfold executed. by rewrite succeeded_app, omap_app. Qed.
Lemma lock_calls_app t1 t2 : lock_calls (t1 ++ t2) = (lock_calls t1 ++ lock_calls t2)%list.
Proof. unfold lock_calls. by rewrite made_app, List.filter_app. Qed.

Definition anything : trace answer → cli_call → Prop := λ _ _, True.

(** A plan, and whether it is whole: one that cannot be computed to its end is
    cut where the code finds that out. *)
Abbreviation partial_plan := (list Action * bool)%type.

Definition plan_app (p q : partial_plan) : partial_plan :=
  if p.2 then (p.1 ++ q.1, q.2) else p.

(** A step whose actions [r] are computed when it is reached. *)
Definition planned {A} (r : res A) (p : A → list Action) : partial_plan :=
  match r with Ok a => (p a, true) | Err _ => ([], false) end.

(** The program attempts the actions of the plan in order, all of them if it
    returns, which it does for a whole plan only, and otherwise some first
    ones, and leaves the state lock alone.  When [strict] holds, it returns
    only if all of them succeeded. *)
Definition performs {A} (strict : bool) (p : partial_plan) (m : cmd A) : Prop := ∀ t,
  wp anything m (λ r t', ∃ n, actions t' = actions t ++ take n p.1 ∧
    lock_calls t' = lock_calls t ∧
    (is_ok r = true → p.2 = true ∧ take n p.1 = p.1 ∧
       (strict = true → executed t' = executed t ++ p.1))) t.

Lemma performs_bind {A B} s p q (m : cmd A) (f : A → cmd B) :
  performs s p m → (∀ a, performs s q (f a)) → performs s (plan_app p q) (m ≫= f).
Proof.
  intros Hm Hf t. apply wp_bind. eapply wp_mono; [|apply Hm].
  destruct p as [p pb], q as [q qb]. cbn [fst snd]. intros [a|e] t' (n & Ha & Hl & Hr).
  - eapply wp_mono; [|apply Hf]. cbn [fst snd]. intros r t'' (n' & Ha' & Hl' & Hr').
    destruct (Hr eq_refl) as (-> & Hp & He). rewrite Hp in Ha. cbn [plan_app fst snd].
    exists (List.length p + n'). rewrite take_app_add, Ha', Ha, Hl', Hl, <- app_assoc. split_and!; [done|done|].
    intros Hok. destruct (Hr' Hok) as (-> & Hq & He'). rewrite Hq. split_and!; [done..|]. intros Hs.
    by rewrite He', He, <- app_assoc by done.
  - exists (n `min` List.length p). unfold plan_app. destruct pb; cbn [fst snd].
    + rewrite take_app_le by lia. rewrite <- take_take, firstn_all. split_and!; [by rewrite Ha|done|done].
    + rewrite <- take_take, firstn_all. split_and!; [by rewrite Ha|done|done].
Qed.

(** A program that only raises performs any plan. *)

Lemma performs_ret {A} s (r : res A) : performs s ([], true) (Ret r).
Proof. intros t. exists 0. by rewrite !app_nil_r. Qed.

Lemma performs_raise {A} s p e : performs s p (raise e : cmd A).
Proof. intros t. exists 0. by rewrite take_0, app_nil_r. Qed.

(** A call that is neither an action nor on the lock. *)
Definition quiet (c : cli_call) : bool :=
  match c with Exec _ | AcquireStateLock | ReleaseStateLock => false | _ => true end.

Lemma performs_quiet s c : quiet c = true → performs s ([], true) (do c).
Proof.
  intros Hc t. apply wp_perform; [done|]. intros a. exists 0.
  rewrite actions_app, lock_calls_app, executed_app. unfold executed.
  destruct c; try done; destruct a; cbn; by rewrite !app_nil_r.
Qed.

Lemma performs_exec s a : performs s ([a], true) (do (Exec a)).
Proof.
  intros t. apply wp_perform; [done|]. intros r. exists 1. rewrite actions_app, lock_calls_app, executed_app.
  destruct r; cbn; by rewrite app_nil_r.
Qed.

(** A handler without actions that raises again. *)
Lemma performs_catch {A} s p (m : cmd A) handler : performs s p m →
  (∀ e t, wp anything (handler e) (λ r t', actions t' = actions t ∧ lock_calls t' = lock_calls t ∧
     is_ok r = false) t) →
  performs s p (catch m handler).
Proof.
  intros Hm Hh t. apply wp_catch. eapply wp_mono; [|apply Hm]. intros [a|e] t' (n & Ha & Hl & Hr).
  - by exists n.
  - eapply wp_mono; [|apply Hh]. intros r t'' (Ha' & Hl' & Hf). exists n. rewrite Ha', Ha, Hl', Hl.
    by rewrite Hf.
Qed.

(** A handler that may also return: every action of the plan was attempted. *)
Lemma performs_attempted (a : Action) handler :
  (∀ e t, wp anything (handler e) (λ _ t', actions t' = actions t ∧ lock_calls t' = lock_calls t) t) →
  performs false ([a], true) (catch (do (Exec a)) handler).
Proof.
  intros Hh t. apply wp_catch, wp_perform; [done|]. intros [[]|e].
  - exists 1. rewrite actions_app, lock_calls_app. cbn. by rewrite app_nil_r.
  - eapply wp_mono; [|apply Hh]. intros r t' [-> ->]. exists 1.
    rewrite actions_app, lock_calls_app. cbn. by rewrite app_nil_r.
Qed.

Lemma performs_for_each {A} s (p : A → list Action) l f : (∀ x, x ∈ l → performs s (p x, true) (f x)) →
  performs s (flat_map p l, true) (for_each l f).
Proof.
  induction l as [|x l IH]; intros Hf; cbn [for_each flat_map]; [apply performs_ret|].
  apply (performs_bind s (p x, true) (flat_map p l, true)); [apply Hf; set_solver|]. intros []. apply IH. intros y Hy. apply Hf. set_solver.
Qed.

Lemma performs_each s l f : (∀ a : Action, a ∈ l → performs s ([a], true) (f a)) →
  performs s (l, true) (for_each l f).
Proof.
  intros Hf. assert (flat_map (λ a, [a]) l = l) as E by (clear; induction l as [|a l IH]; cbn; congruence).
  rewrite <- E at 1. by apply performs_for_each.
Qed.

(** ** What start carries out *)

Section start_plan.
Context (h : host_env) (uid : Z) (stat_uid : string → option Z) (abspath : string → string)
  (dev_user : option string) (inst instance_dir host_user : string) (config : InstanceConfig)
  (host_config : HostConfig).

(** The shared-group actions of every workspace. *)
Definition shared_group_actions (bridge_gid : Z) (owner : string) : list Action :=
  flat_map (λ ws, workspace_shared_group_plan ws bridge_gid dev_user owner) (ws_paths config).

(** They need the bridge group and the owner as soon as there is a workspace. *)
Definition shared_group_planned : partial_plan :=
  match ws_paths config with
  | [] => ([], true)
  | _ => planned (bridge_gid ← workspace_bridge_gid h (host host_config);
                  owner ← resolve_daemon_owner_settings h (host host_config);
                  Ok (shared_group_actions bridge_gid owner)) id
  end.

(** What start carries out, each part computed when its turn comes. *)
Definition start_plan : partial_plan :=
  plan_app shared_group_planned
    (plan_app (planned (grant_plan uid stat_uid abspath dev_user instance_dir host_user config) id)
      (plan_app (planned (helper_mkdir_chown_plan h instance_dir host_user) id)
        (plan_app (planned (helper_cp_chown_plan h instance_dir host_user) id)
          ([ComposeUpAction inst], true)))).

(** Everything the dry run previews as actions, in its order. *)
Definition start_actions (bridge_gid : Z) (owner : string) (grants mkdirs cps : list Action) : list Action :=
  shared_group_actions bridge_gid owner ++ grants ++ mkdirs ++ cps ++ [ComposeUpAction inst].

Lemma performs_lift {A} s (r : res A) : performs s ([], true) (lift r).
Proof. apply performs_ret. Qed.

(** Peel the prefix of a program that executes no action. *)
Lemma performs_quiet_bind {A B} s p (m : cmd A) (f : A → cmd B) :
  performs s ([], true) m → (∀ a, performs s p (f a)) → performs s p (m ≫= f).
Proof. intros Hm Hf. rewrite (surjective_pairing p) in *. by apply (performs_bind s ([], true)). Qed.

Lemma performs_lift_bind {A B} s p (r : res A) (f : A → cmd B) :
  (∀ a, r = Ok a → performs s p (f a)) → performs s p (lift r ≫= f).
Proof. destruct r as [a|e]; intros Hf; [by apply Hf|apply performs_raise]. Qed.

(** A handler that only raises, after quiet calls. *)
Ltac reraise := intros e t; repeat (split_match || (split; [exact I|intros [?|?]]));
  cbn; rewrite ?actions_app, ?lock_calls_app, ?app_nil_r; done.

(** A step over a plan that is computed first. *)
Lemma performs_planned {A} s (r : res A) (p : A → list Action) (f : A → cmd unit) :
  (∀ a, r = Ok a → performs s (p a, true) (f a)) → performs s (planned r p) (lift r ≫= f).
Proof. intros Hf. destruct r as [a|e]; [by apply Hf|apply performs_raise]. Qed.

Lemma shared_group_performs s ws bridge_gid owner :
  workspace_bridge_gid h (host host_config) = Ok bridge_gid →
  resolve_daemon_owner_settings h (host host_config) = Ok owner →
  performs s (workspace_shared_group_plan ws bridge_gid dev_user owner, true)
    (phase_workspace_shared_group h dev_user ws (host host_config)).
Proof.
  intros Hg Ho. unfold phase_workspace_shared_group. rewrite Hg, Ho.
  apply performs_lift_bind; intros g [= <-]. apply performs_lift_bind; intros o [= <-].
  apply performs_quiet_bind; [by apply performs_quiet|]. intros needs.
  apply performs_quiet_bind; [destruct (needs : bool); [by apply performs_quiet|apply performs_ret]|].
  intros _. apply performs_each. intros a Ha. apply performs_catch; [apply performs_exec|]. reraise.
Qed.

Lemma shared_groups_perform s :
  performs s shared_group_planned
    (for_each (ws_paths config) (λ ws, phase_workspace_shared_group h dev_user ws (host host_config))).
Proof.
  unfold shared_group_planned, shared_group_actions. destruct (ws_paths config) as [|ws l] eqn:E; [apply performs_ret|].
  destruct (workspace_bridge_gid h (host host_config)) as [g|e] eqn:Hg; cbn [mbind res_bind planned].
  2: { cbn [for_each]. unfold phase_workspace_shared_group. rewrite Hg. apply performs_raise. }
  destruct (resolve_daemon_owner_settings h (host host_config)) as [o|e] eqn:Ho; cbn [mbind res_bind planned].
  2: { cbn [for_each]. unfold phase_workspace_shared_group. rewrite Hg, Ho. apply performs_raise. }
  rewrite <- E. apply performs_for_each. intros w _. by apply shared_group_performs.
Qed.

Lemma grant_performs s :
  performs s (planned (grant_plan uid stat_uid abspath dev_user instance_dir host_user config) id)
    (phase_acl_grant uid stat_uid abspath dev_user instance_dir host_user config).
Proof.
  apply performs_planned. intros g _.
  apply performs_each. intros a _. apply performs_catch; [apply performs_exec|]. reraise.
Qed.

Lemma run_checked_performs s argv msg : performs s ([], true) (run_checked argv msg).
Proof. apply performs_catch; [by apply performs_quiet|]. reraise. Qed.

Lemma filter_files_performs s paths : performs s ([], true) (filter_files paths).
Proof.
  induction paths as [|p paths IH]; [apply performs_ret|]. cbn [filter_files].
  apply performs_quiet_bind; [by apply performs_quiet|]. intros there.
  apply performs_quiet_bind; [done|]. intros rest. apply performs_ret.
Qed.

Lemma post_hydrate_performs s : performs s ([], true) (phase_grant_post_hydrate_daemon_read instance_dir host_user).
Proof.
  apply performs_quiet_bind; [apply filter_files_performs|]. intros paths.
  assert (flat_map (λ _ : string, [] : list Action) paths = []) as <-
    by (induction paths; [done|cbn; congruence]).
  apply performs_for_each. intros p _. apply run_checked_performs.
Qed.

Lemma mkdir_performs s :
  performs s (planned (helper_mkdir_chown_plan h instance_dir host_user) id)
    (phase_helper_mkdir_chown_cache_log h dev_user instance_dir host_user).
Proof.
  apply performs_planned. intros l _. apply performs_each. intros a _.
  destruct a; try apply performs_exec. apply performs_quiet_bind; [apply run_checked_performs|].
  intros _. apply performs_exec.
Qed.

Lemma cp_performs s :
  performs s (planned (helper_cp_chown_plan h instance_dir host_user) id)
    (phase_helper_cp_chown_ro_files h instance_dir host_user).
Proof. apply performs_planned. intros l _. apply performs_each. intros a _. apply performs_exec. Qed.

Lemma marker_performs s : performs s ([], true) resolve_full_host_config.
Proof. apply performs_catch; [by apply performs_quiet|]. reraise. Qed.

Lemma after_grants_performs s base_index :
  performs s
    (plan_app (planned (grant_plan uid stat_uid abspath dev_user instance_dir host_user config) id)
      (plan_app (planned (helper_mkdir_chown_plan h instance_dir host_user) id)
        (plan_app (planned (helper_cp_chown_plan h instance_dir host_user) id)
          ([ComposeUpAction inst], true))))
    (start_after_grants h uid stat_uid abspath dev_user inst instance_dir host_user config base_index).
Proof.
  apply performs_bind; [apply grant_performs|]. intros _.
  apply performs_lift_bind. intros ip _.
  apply performs_quiet_bind; [by apply performs_quiet|]. intros pw.
  apply performs_quiet_bind; [by apply performs_quiet|]. intros _.
  apply performs_quiet_bind; [apply post_hydrate_performs|]. intros _.
  apply performs_bind; [apply mkdir_performs|]. intros _.
  apply performs_bind; [apply cp_performs|]. intros _.
  apply performs_quiet_bind; [apply marker_performs|]. intros c.
  apply performs_lift_bind. intros o _. apply performs_exec.
Qed.

(** When every part can be computed, the plan is what the dry run previews. *)
Lemma start_plan_whole bridge_gid owner grants mkdirs cps :
  workspace_bridge_gid h (host host_config) = Ok bridge_gid →
  resolve_daemon_owner_settings h (host host_config) = Ok owner →
  acl_grant_plan uid stat_uid abspath instance_dir host_user (ws_paths config) dev_user = Some grants →
  helper_mkdir_chown_plan h instance_dir host_user = Ok mkdirs →
  helper_cp_chown_plan h instance_dir host_user = Ok cps →
  start_plan = (start_actions bridge_gid owner grants mkdirs cps, true).
Proof.
  intros Hg Ho Hgr Hm Hc. unfold start_plan, start_actions, grant_plan, shared_group_planned, shared_group_actions.
  rewrite Hg, Ho, Hgr, Hm, Hc. by destruct (ws_paths config).
Qed.
End start_plan.

(** ** The outcomes of start *)

Inductive start_outcome (shared p : partial_plan) (revokes : list Action) (t : trace answer) : res unit → Prop :=
  (** The whole plan was executed, in order, and the lock released. *)
  | Started r : p.2 = true → actions t = p.1 → executed t = p.1 → lock_calls t = [ReleaseStateLock] →
      start_outcome shared p revokes t r
  (** A failure before any grant: nothing to revoke, and the lock released. *)
  | Refused n : n <= List.length shared.1 → actions t = take n p.1 →
      lock_calls t = [ReleaseStateLock] → start_outcome shared p revokes t (Err (Exit 1))
  (** A failure after it: every revoke was attempted, in order, and the lock released. *)
  | Revoked n : shared.2 = true → List.length shared.1 <= n → actions t = take n p.1 ++ revokes →
      lock_calls t = [ReleaseStateLock] → start_outcome shared p revokes t (Err (Exit 1))
  (** An exception that is not caught escapes: nothing is revoked, and the lock
      is left to the process's exit. *)
  | Escaped n e : start_caught e = false → actions t = take n p.1 → lock_calls t = [] →
      start_outcome shared p revokes t (Err e)
  (** A revoke raises an exception of another class. *)
  | RevokeEscaped n m e : is_sandbox_execution_error e = false →
      shared.2 = true → List.length shared.1 <= n →
      actions t = take n p.1 ++ take m revokes → lock_calls t = [] →
      start_outcome shared p revokes t (Err e).

Section start_exact.
Context (h : host_env) (uid : Z) (stat_uid : string → option Z) (abspath : string → string)
  (dev_user : option string) (inst instance_dir host_user : string) (config : InstanceConfig)
  (host_config : HostConfig) (no_handover : bool).

Let shared := shared_group_planned h dev_user config host_config.
Let p := start_plan h uid stat_uid abspath dev_user inst instance_dir host_user config host_config.
Let revokes := acl_revoke_plan instance_dir host_user (ws_paths config).

Lemma before_grants_spec t :
  wp anything (start_before_grants h dev_user inst config host_config) (λ r t', ∃ n,
    n <= List.length shared.1 ∧ actions t' = actions t ++ take n shared.1 ∧
    (lock_calls t' = lock_calls t ∧
       (is_ok r = true → shared.2 = true ∧ take n shared.1 = shared.1 ∧ executed t' = executed t ++ shared.1) ∨
     lock_calls t' = lock_calls t ++ [ReleaseStateLock] ∧ r = Err (Exit 1))) t.
Proof.
  unfold start_before_grants. apply wp_bind, wp_perform; [done|]. intros [base|e].
  2: { exists 0. rewrite actions_app, lock_calls_app. cbn. rewrite !app_nil_r.
       split_and!; [lia|done|]. by left. }
  apply wp_bind, wp_catch. eapply wp_mono; [|apply (shared_groups_perform h dev_user config host_config true)].
  intros r t' (n & Ha & Hl & Hr). fold shared in Ha, Hr. rewrite actions_app, lock_calls_app, executed_app in *.
  cbn in Ha, Hl, Hr. rewrite !app_nil_r in *.
  assert (take n shared.1 = take (n `min` List.length shared.1) shared.1) as En
    by (by rewrite <- take_take, firstn_all).
  destruct r as [[]|e].
  - destruct (Hr eq_refl) as (Hw & Hs & He). hnf. exists (n `min` List.length shared.1). rewrite <- En.
    split_and!; [lia|done|]. left. split; [done|]. intros _. split_and!; [done..|]. by apply He.
  - destruct (bool_decide _); hnf.
    + split; [done|]. intros a. exists (n `min` List.length shared.1). rewrite <- En.
      split_and!; [lia|by rewrite actions_app, Ha, app_nil_r|]. right.
      split; [|done]. rewrite lock_calls_app, Hl. by destruct a.
    + exists (n `min` List.length shared.1). rewrite <- En. split_and!; [lia|done|]. by left.
Qed.

Lemma revoke_performs : performs false (revokes, true) (revoke_acls instance_dir host_user config).
Proof.
  apply performs_each. intros a _. apply performs_attempted. intros e t. destruct (is_sandbox_execution_error e);
    by split.
Qed.

(** The handler: the revokes if grants began, the release, the exit. *)
Lemma handler_spec granted e t : start_caught e = true →
  wp anything (start_handler instance_dir host_user config granted e) (λ r t',
    (r = Err (Exit 1) ∧ actions t' = actions t ++ (if granted then revokes else []) ∧
       lock_calls t' = lock_calls t ++ [ReleaseStateLock]) ∨
    ∃ m e', granted = true ∧ r = Err e' ∧ actions t' = actions t ++ take m revokes ∧
      is_sandbox_execution_error e' = false ∧ lock_calls t' = lock_calls t) t.
Proof.
  intros He. unfold start_handler. rewrite He. apply wp_bind.
  assert (∀ t0, wp anything (_ ← release_lock; exit1 : cmd unit) (λ r t', r = Err (Exit 1) ∧
    actions t' = actions t0 ∧ lock_calls t' = lock_calls t0 ++ [ReleaseStateLock]) t0) as Hrel.
  { intros t0. split; [done|]. intros a. hnf. rewrite actions_app, lock_calls_app. cbn. by rewrite app_nil_r. }
  destruct granted; cbn [when].
  - eapply wp_mono; [|apply wp_and; [apply revoke_performs|]].
    2: { apply (wp_for_each _ (λ _ _, True) (λ r _, ∀ e, r = Err e → is_sandbox_execution_error e = false));
           [done| |by intros].
         intros l1 a l2 t' _ _. apply wp_catch, wp_perform; [done|]. intros [[]|e']; [done|].
         destruct (is_sandbox_execution_error e') eqn:E; [done|]. by intros e0 [= <-]. }
    intros [[]|e'] t' [(m & Ha & Hl & Hr) Her].
    + eapply wp_mono; [|apply Hrel]. intros r t'' (-> & Ha' & Hl'). left.
      rewrite Ha', Ha, Hl', Hl. by destruct (Hr eq_refl) as (_ & -> & _).
    + right. exists m, e'. split_and!; try done. by apply Her.
  - refine (wp_mono _ _ _ _ _ _ (Hrel t)). intros r t'' (-> & -> & ->). left. by rewrite app_nil_r.
Qed.

(** What comes of [attempt]. *)
Lemma wp_attempt {A} (m : cmd A) (Q : res (A + exn) → trace answer → Prop) t :
  wp anything m (λ r t', Q (Ok (match r with Ok a => inl a | Err e => inr e end)) t') t →
  wp anything (attempt m) Q t.
Proof.
  intros Hm. unfold attempt. apply wp_catch, wp_bind. eapply wp_mono; [|exact Hm]. by intros [a|e] t'.
Qed.

Lemma quiet_handover t : wp anything (start_handover h inst config no_handover)
  (λ _ t', actions t' = actions t ∧ executed t' = executed t ∧ lock_calls t' = lock_calls t) t.
Proof.
  apply (wp_calls_in (λ c, quiet c = true)); [|done|].
  - unfold start_handover, resolve_full_host_config, hand_over, build_attach_argv, exit1. calls_tac; done.
  - intros t' r Ht. rewrite actions_app, executed_app, lock_calls_app.
    assert (actions t' = [] ∧ executed t' = [] ∧ lock_calls t' = []) as (-> & -> & ->).
    { induction Ht as [|[c a] t' Hc _ (IH1 & IH2 & IH3)]; [done|]. unfold executed in *.
      destruct c; try done; destruct a; split_and!; done. }
    by rewrite !app_nil_r.
Qed.
Let rest := plan_app (planned (grant_plan uid stat_uid abspath dev_user instance_dir host_user config) id)
  (plan_app (planned (helper_mkdir_chown_plan h instance_dir host_user) id)
    (plan_app (planned (helper_cp_chown_plan h instance_dir host_user) id)
      ([ComposeUpAction inst], true))).

Lemma take_shared n : n <= List.length shared.1 → take n shared.1 = take n p.1.
Proof.
  intros Hn. change p with (plan_app shared rest). unfold plan_app.
  destruct shared.2; [|done]. cbn [fst]. by rewrite take_app_le.
Qed.

Lemma shared_then_rest : shared.2 = true → p = (shared.1 ++ rest.1, rest.2).
Proof. intros Hs. change p with (plan_app shared rest). unfold plan_app. by rewrite Hs. Qed.

(** C7: From the lock on, start carries out the actions of exactly one plan in
    order: the shared-group steps of every workspace, the grants, the helper's
    directories and files, and last the containers, each part computed when its
    turn comes; a part that cannot be computed (no bridge group, no owner, no
    subordinate ids) ends the plan there.  In every run, whatever fails: either
    the plan is whole, all of it succeeded and the lock was released; or a
    failure that is caught stopped it within the shared-group steps, with
    nothing to revoke, or after them, and then every revoke was attempted in
    order; the lock was released and the exit status is 1; or the exception is
    one that is not caught (also one of a revoke), which leaves grants and the
    lock to the end of the process. *)
Theorem start_all_or_revoked t r :
  runs (start_locked h uid stat_uid abspath dev_user inst instance_dir host_user config host_config
          no_handover) t r →
  start_outcome shared p revokes t r.
Proof.
  intros Hr. assert (wp anything (start_locked h uid stat_uid abspath dev_user inst instance_dir host_user
    config host_config no_handover) (λ r t, start_outcome shared p revokes t r) []) as Hw.
  2: { by destruct (wp_sound _ _ _ _ _ _ Hr Hw) as [H _]. }
  clear t r Hr. unfold start_locked. apply wp_bind, wp_attempt.
  eapply wp_mono; [|apply before_grants_spec]. intros [base|e] t (n & Hn & Ha & Hl); cbn [app] in *.
  - destruct Hl as [[Hl Hok]|[_ [=]]]. destruct (Hok eq_refl) as (Hsw & Hs & He). rewrite Hs in Ha.
    pose proof (shared_then_rest Hsw) as Hp.
    apply wp_bind, wp_attempt. eapply wp_mono; [|apply (after_grants_performs h uid stat_uid abspath
      dev_user inst instance_dir host_user config true base)].
    fold rest. intros [[]|e] t' (n' & Ha' & Hl' & Hok').
    + destruct (Hok' eq_refl) as (Hw & Hq & He'). specialize (He' eq_refl). rewrite Hq in Ha'.
      apply wp_bind. split; [done|]. intros a. hnf. eapply wp_mono; [|apply quiet_handover].
      intros r t'' (Hu & Hx & Hv). apply Started; rewrite ?Hp; cbn [fst snd].
      * done.
      * by rewrite Hu, actions_app, Ha', Ha, app_nil_r.
      * rewrite Hx, executed_app, He', He. destruct a; cbn; by rewrite app_nil_r.
      * by rewrite Hv, lock_calls_app, Hl', Hl.
    + assert (actions t' = take (List.length shared.1 + n') p.1) as Ha2
        by (rewrite Ha', Ha, Hp; cbn [fst]; by rewrite take_app_add).
      destruct (start_caught e) eqn:Ec.
      * eapply wp_mono; [|by apply handler_spec].
        intros r t'' [(-> & Hx & Hy)|(m & e' & _ & -> & Hx & Hy & Hz)]; rewrite Ha2 in Hx.
        -- eapply Revoked; [done| |exact Hx|]; [lia|by rewrite Hy, Hl', Hl].
        -- eapply RevokeEscaped; [done|done| |exact Hx|]; [lia|by rewrite Hz, Hl', Hl].
      * unfold start_handler. rewrite Ec. eapply Escaped; [done..|]. by rewrite Hl', Hl.
  - rewrite take_shared in Ha by done. destruct Hl as [[Hl _]|[Hl [= ->]]].
    + destruct (start_caught e) eqn:Ec.
      * eapply wp_mono; [|by apply handler_spec].
        intros r t'' [(-> & Hx & Hy)|(m & e' & [=] & _)]. rewrite Ha, app_nil_r in Hx.
        eapply Refused; [done..|]. by rewrite Hy, Hl.
      * unfold start_handler. rewrite Ec. eapply Escaped; [exact Ec|exact Ha|exact Hl].
    + eapply Refused; [exact Hn|exact Ha|exact Hl].
Qed.
End start_exact.

(** ** A concrete host *)

Definition demo_ids : host_env := HostEnv (getpwnam demo_host) (λ _, Some 166000%Z) []
  (subuid_text demo_host) (Some ("sandbox:165536:65536" +:+ NL)) "alice" "/home/alice/.sandbox-ai".

Definition demo_config : InstanceConfig :=
  MkInstanceConfig "i" [("main", MkWorkspace "empty" None "/w/main")] false false.

Definition demo_host_config : HostConfig :=
  MkHostConfig (MkHostSettings (Some "sandbox") SEPARATE_USER "sb-ws-alice").

Definition ready_outcome : ProbeOutcome :=
  MkProbe true false (bundle "c0ffee" [("auth-probe", "ok" +:+ NL, 0%Z); ("docker-version", "27.1" +:+ NL, 0%Z);
    ("docker-info-security-options", "[name=rootless]" +:+ NL, 0%Z);
    ("docker-info-runtimes", "R" +:+ NL, 0%Z); ("compose-ls", "", 0%Z)]) "" (Some "c0ffee").

Definition demo_answer (c : cli_call) : answer c :=
  match c return answer c with
  | Geteuid => 1000%Z
  | AllocateSlot _ | Handover _ => 0%Z
  | BackupLockHeld _ | NeedsRecursive _ _ | StdinIsTty => false
  | StateInitialized | PathExists _ | Confirm _ | IsFile _ => true
  | RegistryGet _ => Some "/i"
  | LoadConfig _ => demo_config
  | FromMarker => demo_host_config
  | ReadEnv _ => Some (MkEnvFile ("CORE_ANTHROPIC_API_KEY=k" +:+ NL) 384)
  | Probe op _ _ => if String.eqb op "preflight" then ready_outcome else failed_query demo_outcome ""
  | PeekSlot _ => (0%Z, false)
  | ValidateTemplates _ _ _ => []
  | ReadDispatchEnv => MkDispatchEnv JMissing Ipam.Missing "alice" (λ _, Err KeyError)
  | Prompt _ | DiagnoseTraverse _ _ | Credentials _ _ | ResolveBackup _ _ | RestoreBackup _ _ _
  | UtcTimestamp => ""
  | _ => tt
  end.

(** Everything succeeds but the calls of [bad], which raise. *)
Definition demo_env (bad : cli_call → option exn) (t : trace answer) (c : cli_call) : res (answer c) :=
  match bad c with Some e => Err e | None => Ok (demo_answer c) end.

(** Starting the containers fails: what was granted is revoked.  Without
    subordinate ids it is revoked as well, after the grants. *)
Lemma start_all_or_revoked_witness :
  let owner := λ p : string, if String.eqb p "/i" then None else Some 1000%Z in
  let bad c := match c with Exec (ComposeUpAction _) => Some (SandboxExecutionError "down" false)
               | _ => None end in
  let shared := shared_group_planned demo_ids None demo_config demo_host_config in
  let p := start_plan demo_ids 1000 owner (λ p, p) None "i" "/i" "sandbox" demo_config demo_host_config in
  let revokes := acl_revoke_plan "/i" "sandbox" ["/w/main"] in
  let '(t, r) := run_env (demo_env bad) (start_locked demo_ids 1000 owner (λ p, p) None "i" "/i" "sandbox"
               demo_config demo_host_config true) [] in
  start_outcome shared p revokes t r ∧ p.2 = true ∧ r = Err (Exit 1) ∧ actions t = (p.1 ++ revokes)%list.
Proof.
  intros owner bad shared p revokes.
  pose proof (run_env_runs (demo_env bad) (start_locked demo_ids 1000 owner (λ p, p) None "i" "/i"
    "sandbox" demo_config demo_host_config true) []) as Hruns.
  rewrite (surjective_pairing (run_env _ _ _)). split.
  - apply (start_all_or_revoked demo_ids 1000 owner (λ p, p) None "i" "/i" "sandbox" demo_config
      demo_host_config true). exact Hruns.
  - split_and!; vm_compute; reflexivity.
Defined.

(** ** When start may change anything *)

(** The calls that change the host, the instance or the daemon. *)
Definition mutates (c : cli_call) : bool :=
  match c with
  | AllocateSlot _ | SharedGroupRecursive _ _ | Exec _ | RunCommand _ | Credentials _ _
  | Hydrate _ _ _ _ | Invoke _ _ _ | UnlinkFile _ | CreateBackup _ _ _ _ _ | RestoreBackup _ _ _
  | Rmtree _ | Rmdir _ | Rename _ _ | Chmod _ _ | CopyWorkspace _ _ | MutateWorkspaces _ _
  | ReleaseSlot _ | RegistryRemove _ => true
  | _ => false
  end.

(** The state lock, and whether the backup lock was seen free under it. *)
Inductive lock_state := Unlocked | Locked | Cleared.

Definition lock_step (inst : string) (s : lock_state) (e : event answer) : lock_state :=
  let 'Ev c a := e in
  match c return res (answer c) → lock_state with
  | AcquireStateLock => λ a, if is_ok a then Locked else s
  | ReleaseStateLock => λ _, Unlocked
  | BackupLockHeld i => λ a,
      match a, s with
      | Ok false, Locked => if String.eqb i inst then Cleared else s
      | _, _ => s
      end
  | _ => λ _, s
  end a.

Definition lock_after (inst : string) (t : trace answer) : lock_state :=
  foldl (lock_step inst) Unlocked t.

Section gated.
Context (h : host_env) (uid : Z) (stat_uid : string → option Z) (abspath : string → string)
  (loads : string → option JsonValue) (set_len : list JsonValue → nat) (dev_user : option string)
  (inst : string).

(** The crossing's answer has no failing verdict. *)
Definition preflight_passed (t : trace answer) : Prop :=
  ∃ user c outcome gate e verdicts,
    Ev (Probe "preflight" [] c) (Ok outcome) ∈ t ∧
    evaluate_preflight_gate outcome = Ok gate ∧ reachable gate = true ∧
    interpret_preflight_bundle loads set_len (de_registry e) (de_dev_username e) (per_op gate) user
      = Ok verdicts ∧ Forall (λ v, status v ≠ FAILED) verdicts.

(** What start must have seen. *)
Definition gate_passed (t : trace answer) : Prop :=
  lock_after inst t = Cleared ∧
  (∃ euid, Ev Geteuid (Ok euid) ∈ t ∧ euid ≠ 0%Z) ∧
  (∃ c, Ev FromMarker (Ok c) ∈ t) ∧
  (∃ instance_dir config env,
     Ev (RegistryGet inst) (Ok (Some instance_dir)) ∈ t ∧ Ev (LoadConfig instance_dir) (Ok config) ∈ t ∧
     Ev (ReadEnv (path_join instance_dir ".sandbox.env")) (Ok env) ∈ t ∧
     check_secrets (db_postgres_enabled config) (mcp_firecrawl config) env = []) ∧
  preflight_passed t.

Definition gate_ok (t : trace answer) (c : cli_call) : Prop := mutates c = true → gate_passed t.

Definition unlocking (c : cli_call) : bool :=
  match c with AcquireStateLock | ReleaseStateLock => true | _ => false end.

Lemma gate_app t t' : gate_passed t → Forall (λ e, unlocking (ev_call e) = false) t' →
  gate_passed (t ++ t').
Proof.
  intros (Hl & (euid & He & Hne) & (c0 & Hm) & (dir & config & env & H1 & H2 & H3 & H4) &
    user & c & outcome & gate & e & verdicts & H5 & H6) Ht.
  split_and!.
  - unfold lock_after in *. rewrite foldl_app, Hl. clear -Ht.
    induction Ht as [|[c a] t' Hc _ IH]; [done|]. cbn [foldl].
    assert (lock_step inst Cleared (Ev c a) = Cleared) as ->; [|done].
    destruct c; try done. cbn. by destruct a as [[]|].
  - exists euid. set_solver.
  - exists c0. set_solver.
  - exists dir, config, env. set_solver.
  - exists user, c, outcome, gate, e, verdicts. set_solver.
Qed.

Lemma wp_gated {A} (m : cmd A) (Q : res A → trace answer → Prop) t :
  calls_in (λ c, unlocking c = false) m → gate_passed t →
  (∀ r t', gate_passed t' → Q r t') → wp gate_ok m Q t.
Proof.
  intros Hm Hg HQ. eapply (wp_calls_in (λ c, unlocking c = false)); [done|..].
  - intros t' c Ht' Hc _. by apply gate_app.
  - intros t' r Ht'. apply HQ. by apply gate_app.
Qed.

(** Calls that change nothing. *)
Lemma wp_harmless {A} (m : cmd A) (Q : res A → trace answer → Prop) t :
  calls_in (λ c, mutates c = false) m → (∀ r t', Q r t') → wp gate_ok m Q t.
Proof.
  intros Hm HQ. eapply (wp_calls_in (λ c, mutates c = false)); [done| |by intros].
  intros t' c _ Hc. unfold gate_ok. by rewrite Hc.
Qed.

Ltac phases := unfold start_handover, phase_workspace_shared_group, phase_acl_grant, grant_plan,
  phase_grant_post_hydrate_daemon_read, phase_helper_mkdir_chown_cache_log,
  phase_helper_cp_chown_ro_files, phase_compose_up, run_checked, resolve_full_host_config, exit1,
  hand_over, build_attach_argv.

Lemma filter_files_calls P paths : (∀ p, P (IsFile p)) → calls_in P (filter_files paths).
Proof.
  intros HP. induction paths as [|p paths IH]; [done|]. cbn [filter_files]. calls_tac; auto.
Qed.

Lemma start_locked_gated instance_dir host_user config host_config no_handover t :
  gate_passed t →
  wp gate_ok (start_locked h uid stat_uid abspath dev_user inst instance_dir host_user config
                host_config no_handover) (λ _ _, True) t.
Proof.
  intros Hg. unfold start_locked.
  assert (∀ granted e t, gate_passed t →
    wp gate_ok (start_handler instance_dir host_user config granted e) (λ _ _, True) t) as Hh.
  { intros granted e t0 Hg0. unfold start_handler. destruct (start_caught e); [|done].
    apply wp_bind. apply wp_gated; [|done|].
    - destruct granted; cbn [when]; unfold revoke_acls; calls_tac; done.
    - intros [[]|e'] t1 Hg1; [|done]. by apply wp_harmless. }
  apply wp_bind.
  eapply (wp_mono _ _ (λ r t', ∀ x, r = Ok x →
    match x with inl _ => gate_passed t' | inr e => start_caught e = true → gate_passed t' end)).
  { intros [[base|e]|e] t1 H1; [..|done].
    - apply wp_bind. apply wp_gated; [|by apply (H1 (inl base))|].
      + unfold attempt, start_after_grants. phases. calls_tac; try done. by apply filter_files_calls.
      + intros [[[]|e]|e] t2 Hg2; [|by apply Hh|done].
        apply wp_bind. split; [done|]. intros a. hnf. apply wp_harmless; [|done]. phases. calls_tac; done.
    - specialize (H1 (inr e) eq_refl). cbn in H1. destruct (start_caught e) eqn:Ec; [by apply Hh; apply H1|].
      unfold start_handler. rewrite Ec. done. }
  unfold attempt, start_before_grants. apply wp_catch, wp_bind, wp_bind, wp_perform; [by intros _|].
  assert (∀ a, gate_passed (t ++ [Ev (AllocateSlot inst) a])) as Hg' by (intros a; apply gate_app; auto).
  intros [base|e]; [|by intros x [= <-]]. apply wp_bind, wp_catch.
  apply wp_gated; [phases; calls_tac; done|done|].
  intros [[]|e] t1 Hg1; [by intros x [= <-]|]. destruct (bool_decide _); [|by intros x [= <-]].
  apply wp_bind. split; [done|]. intros a. by intros x [= <-].
Qed.

(** The steps before the lock. *)
Lemma wp_harmless_bind {A B} (m : cmd A) (f : A → cmd B) t :
  calls_in (λ c, mutates c = false) m → (∀ a t', wp gate_ok (f a) (λ _ _, True) (t ++ t')) →
  wp gate_ok (m ≫= f) (λ _ _, True) t.
Proof.
  intros Hm Hf. apply wp_bind. apply (wp_calls_in (λ c, mutates c = false)); [done| |].
  - intros t' c _ Hc. unfold gate_ok. by rewrite Hc.
  - by intros t' [a|e] _.
Qed.

Lemma root_refused t : wp gate_ok refuse_root_euid (λ r t', r = Ok tt →
  ∃ euid, Ev Geteuid (Ok euid) ∈ t' ∧ euid ≠ 0%Z) t.
Proof.
  unfold refuse_root_euid. wp_call; [done|]. intros [euid|]; [|done].
  destruct (Z.eqb_spec euid 0) as [|He]; cbn [when]; [done|].
  intros _. exists euid. split; [set_solver|done].
Qed.

Lemma state_calls : calls_in (λ c, mutates c = false) require_per_user_state_initialized.
Proof. unfold require_per_user_state_initialized, exit1. by calls_tac. Qed.

Lemma marker_read t : wp gate_ok resolve_full_host_config (λ r t', ∀ c, r = Ok c →
  ∃ t'', t' = t ++ t'' ∧ ∃ c, Ev FromMarker (Ok c) ∈ t'') t.
Proof.
  unfold resolve_full_host_config. apply wp_catch; wp_call; [done|].
  intros [c|e]; [|by destruct (bool_decide _)]. intros ? _. eexists. split; [done|]. exists c. set_solver.
Qed.

Lemma warm_check_calls instance_dir host_user mode :
  calls_in (λ c, mutates c = false) (warm_check loads instance_dir host_user mode).
Proof. unfold warm_check, container_status. by calls_tac. Qed.

Lemma preflight_seen host_user mode t :
  wp gate_ok (preflight loads set_len host_user mode) (λ r t', r = Ok tt →
    ∃ t'', t' = t ++ t'' ∧ preflight_passed t'') t.
Proof.
  unfold preflight. apply wp_bind. destruct (minimal_host_config host_user mode) as [c|]; [|done]. unfold lift at 1; cbn [wp].
  wp_call; [done|]. intros [outcome|]; [|done]. apply wp_bind.
  destruct (evaluate_preflight_gate outcome) as [gate|] eqn:Eg; [|done]. unfold lift at 1; cbn [wp].
  destruct (reachable gate) eqn:Er; cbn [negb]; [|done].
  wp_call; [done|]. intros [e|]; [|done]. apply wp_bind.
  destruct (interpret_preflight_bundle _ _ _ _ _ _) as [verdicts|] eqn:Ev; [|done]. unfold lift at 1; cbn [wp].
  destruct (existsb _ verdicts) eqn:Ex; cbn [when]; [done|]. intros _. eexists. split; [by rewrite <- app_assoc|].
  exists host_user, c, outcome, gate, e, verdicts. split_and!; [set_solver|done..|].
  apply Forall_forall. intros v Hv Hf. apply not_true_iff_false in Ex. apply Ex. apply existsb_exists.
  exists v. split; [by apply list_elem_of_In|]. by rewrite bool_decide_eq_true_2.
Qed.

(** C8: Start changes nothing unguarded.  In every run of start, each call
    that changes the host, the instance or the daemon comes after these
    answers, whatever fails on the way: the user is not root, the host's marker
    was read, the instance's configuration and secrets are complete, the one
    preflight crossing is reachable with no failing verdict, and the state lock
    is held with the backup lock seen free under it. *)
Theorem start_changes_guarded no_handover t r :
  runs (start h uid stat_uid abspath loads set_len dev_user inst no_handover) t r →
  ∀ t1 e t2, t = t1 ++ e :: t2 → mutates (ev_call e) = true → gate_passed t1.
Proof.
  intros Hr t1 e t2 Ht. eapply (wp_sound gate_ok _ (λ _ _, True) []) in Hr as [_ Hr]; [by eapply Hr|].
  clear. unfold start, start_run. apply wp_bind.
  eapply wp_mono; [|exact (root_refused [])]. intros [[]|] t1 H1; [|done]. specialize (H1 eq_refl).
  apply wp_harmless_bind; [by apply state_calls|]. intros [] t2.
  unfold lookup_instance_or_exit. apply wp_bind; wp_call; [done|].
  intros [[instance_dir|]|]; [|done..]. cbn [wp mret prog_ret].
  apply wp_harmless_bind; [by calls_tac|]. intros initialized t3.
  apply wp_harmless_bind; [by calls_tac|]. intros [] t4.
  wp_call; [done|]. intros [config|]; [|done].
  apply wp_bind. eapply wp_mono; [|apply marker_read]. intros [host_config|] t5 H5; [|done].
  destruct (H5 _ eq_refl) as (t6 & -> & Hm). clear H5.
  apply wp_harmless_bind; [by calls_tac|]. intros host_user t7.
  wp_call; [done|]. intros [env|]; [|done].
  destruct (decide (check_secrets (db_postgres_enabled config) (mcp_firecrawl config) env = [])) as [Hs|Hs];
    [rewrite (bool_decide_eq_true_2 _ Hs)|by rewrite (bool_decide_eq_false_2 _ Hs)].
  apply wp_bind. cbn [negb when wp mret prog_ret]. apply wp_bind. eapply wp_mono; [|apply preflight_seen]. intros [[]|] t8 H8; [|done].
  destruct (H8 eq_refl) as (t9 & -> & Hp). clear H8.
  apply wp_harmless_bind; [by apply warm_check_calls|]. intros [] t10; [done|].
  unfold acquire_or_exit. apply wp_bind, wp_catch; wp_call; [done|].
  intros [[]|e]; [|by destruct (bool_decide _)].
  unfold refuse_backup_holding_lock. apply wp_bind; wp_call; [done|]. intros [[]|]; [done| |done].
  cbn [when wp mret prog_ret]. apply start_locked_gated. split_and!.
  - unfold lock_after. rewrite !foldl_app. cbn. by rewrite String.eqb_refl.
  - destruct H1 as (euid & H1 & Hne). exists euid. split; [|done]. clear -H1. set_solver.
  - destruct Hm as (c & Hm). exists c. clear -Hm. set_solver.
  - exists instance_dir, config, env. clear -Hs. split_and!; [set_solver..|done].
  - destruct Hp as (user & c & outcome & gate & e & verdicts & Hp & Hrest).
    exists user, c, outcome, gate, e, verdicts. split; [|done]. clear -Hp. set_solver.
Qed.
End gated.

(** On a ready host the first change is the slot; the lock was taken before. *)
Lemma start_changes_guarded_witness :
  let owner := λ p : string, if String.eqb p "/i" then None else Some 1000%Z in
  ∃ t r t1 e t2,
    (t, r) = run_env (demo_env (λ _, None)) (start demo_ids 1000 owner (λ p, p) demo_loads
               (λ l, List.length l) None "i" true) [] ∧
    t = t1 ++ e :: t2 ∧ ev_call e = AllocateSlot "i" ∧
    gate_passed demo_loads (λ l, List.length l) "i" t1 ∧ r = Ok tt.
Proof.
  intros owner.
  pose proof (run_env_runs (demo_env (λ _, None)) (start demo_ids 1000 owner (λ p, p) demo_loads
    (λ l, List.length l) None "i" true) []) as Hruns.
  set (x := run_env _ _ _) in Hruns.
  assert (∃ e t2, x.1 = take 15 x.1 ++ e :: t2 ∧ ev_call e = AllocateSlot "i") as (e & t2 & Ht & He).
  { vm_compute. eexists _, _. split; reflexivity. }
  exists x.1, x.2, (take 15 x.1), e, t2. split; [symmetry; apply surjective_pairing|]. split; [exact Ht|].
  split; [exact He|]. split; [|vm_compute; reflexivity].
  eapply (start_changes_guarded demo_ids 1000 owner (λ p, p) demo_loads (λ l, List.length l) None "i" true);
    [exact Hruns|exact Ht|by rewrite He].
Defined.
