(* ===== verification/DryRun.v ===== *)
(** * cli.main: start --dry-run

    The command returns the lines it previews, in order: an action, which is
    shown by its [render_command], or a command.  The context of the templates
    is a function of what [BuildContext] is given. *)
From S2P Require Import Prelude PyStr HostConfig Json Images Dispatch Preflight Doctor PrivilegeBoundary Recipes Secrets Interact Cli Lifecycle.
From Stdlib Require Import Ascii String.
Open Scope nat_scope.

Inductive preview : Type :=
  | PreviewAction (a : Action)
  | PreviewCommand (argv : list string).

Section dry_run.
Context (h : host_env) (uid : Z) (stat_uid : string → option Z) (abspath : string → string)
  (loads : string → option JsonValue) (set_len : list JsonValue → nat) (dev_user : option string).

(** [except SandboxExecutionError]: the plan is unavailable, what was shown of
    it stays. *)
Definition unavailable (shown : list preview) (e : exn) : res (list preview) :=
  if is_sandbox_execution_error e then Ok shown else Err e.

Definition preview_shared_group (paths : list string) (host_user : string) (s : HostSettings)
    : res (list preview) :=
  match workspace_bridge_gid h s with
  | Ok bridge_gid => Ok (map PreviewAction
      (flat_map (λ ws, workspace_shared_group_plan ws bridge_gid dev_user host_user) paths))
  | Err e => unavailable [] e
  end.

Definition preview_helper (instance_dir host_user : string) : res (list preview) :=
  match helper_mkdir_chown_plan h instance_dir host_user with
  | Err e => unavailable [] e
  | Ok mkdirs =>
      match helper_cp_chown_plan h instance_dir host_user with
      | Ok cps => Ok (map PreviewAction (mkdirs ++ cps)%list)
      | Err e => unavailable (map PreviewAction mkdirs) e
      end
  end.

(** Every candidate, whether it is a file or not. *)
Definition preview_daemon_read (instance_dir host_user : string) : list preview :=
  map (λ p, PreviewCommand (daemon_read_command host_user p)) (daemon_read_candidates instance_dir).

Definition peek_preview (inst : string) : cmd Z :=
  catch ('(slot, _) ← do (PeekSlot inst); _ ← lift (Ipam.derive_subnets slot); mret slot)
    (λ e, if bool_decide (e = IPAMExhaustedError) then exit1 else raise e).

Definition dry_run_pipeline (inst : string) : cmd (list preview) :=
  instance_dir ← lookup_instance_or_exit inst;
  config ← do (LoadConfig instance_dir);
  host_config ← resolve_full_host_config;
  host_user ← lift (resolve_daemon_owner h host_config);
  slot ← peek_preview inst;
  _ ← catch (do (BuildContext config slot instance_dir))
        (λ e, if bool_decide (e = WorkspaceBridgeGroupMissingError) then exit1 else raise e);
  errors ← do (ValidateTemplates config slot instance_dir);
  _ ← when (negb (bool_decide ((errors : list string) = []))) exit1;
  _ ← do (ReadEnv (path_join instance_dir ".sandbox.env"));
  preview_host_config ← resolve_full_host_config;
  shared ← lift (preview_shared_group (ws_paths config) host_user (host host_config));
  grants ← lift (grant_plan uid stat_uid abspath dev_user instance_dir host_user config);
  helper ← lift (preview_helper instance_dir host_user);
  argv ← build_attach_argv h inst
           (match workspace_names config with [ws] => ws | _ => "<ws>" end) preview_host_config;
  mret (shared ++ map PreviewAction grants ++ preview_daemon_read instance_dir host_user ++ helper ++
        [PreviewAction (ComposeUpAction inst); PreviewCommand argv])%list.

(** [start] with its option. *)
Definition start_command (inst : string) (dry_run no_handover : bool) : cmd unit :=
  _ ← refuse_root_euid;
  _ ← require_per_user_state_initialized;
  if dry_run then _ ← dry_run_pipeline inst; mret tt
  else start_run h uid stat_uid abspath loads set_len dev_user inst no_handover.
End dry_run.

(** ** The preview and the plan *)

Open Scope list_scope.

Definition preview_actions (l : list preview) : list Action :=
  omap (λ p, match p with PreviewAction a => Some a | PreviewCommand _ => None end) l.

Lemma preview_actions_map l : preview_actions (map PreviewAction l) = l.
Proof. induction l as [|a l IH]; [done|]. cbn. by rewrite <- IH at 2. Qed.

Lemma preview_actions_app l1 l2 : preview_actions (l1 ++ l2) = preview_actions l1 ++ preview_actions l2.
Proof. apply omap_app. Qed.

Lemma preview_daemon_read_actions d u : preview_actions (preview_daemon_read d u) = [].
Proof. unfold preview_daemon_read. by induction (daemon_read_candidates d). Qed.

Lemma preview_actions_shown p q d r a argv : preview_actions d = [] →
  preview_actions (map PreviewAction p ++ map PreviewAction q ++ d ++ map PreviewAction r ++
    [PreviewAction a; PreviewCommand argv]) = p ++ q ++ r ++ [a].
Proof. intros Hd. by rewrite !preview_actions_app, Hd, !preview_actions_map. Qed.

Section dry_run_plan.
Context (h : host_env) (uid : Z) (stat_uid : string → option Z) (abspath : string → string)
  (dev_user : option string) (inst : string).

(** A dry run may make a call. *)
Definition harmless (t : trace answer) (c : cli_call) : Prop := mutates c = false.

Lemma harmless_bind {A B} (m : cmd A) (f : A → cmd B) Q t :
  calls_in (λ c, mutates c = false) m →
  (∀ a t', wp harmless (f a) Q (t ++ t')) → (∀ e t', Q (Err e) t') → wp harmless (m ≫= f) Q t.
Proof.
  intros Hm Hf HQ. apply wp_bind. apply (wp_calls_in (λ c, mutates c = false)); [done..|].
  intros t' [a|e] _; [apply Hf|apply HQ].
Qed.

Lemma lift_bind {A B} (r : res A) (f : A → cmd B) Q t :
  (∀ a, r = Ok a → wp harmless (f a) Q t) → (∀ e t', Q (Err e) t') → wp harmless (lift r ≫= f) Q t.
Proof. intros Hf HQ. apply wp_bind. destruct r; cbn; auto. Qed.

(** What is shown agrees with what start reads and plans. *)
Definition previews_start (r : res (list preview)) (t : trace answer) : Prop :=
  ∀ shown, r = Ok shown → ∃ instance_dir config host_config host_user,
    Ev (RegistryGet inst) (Ok (Some instance_dir)) ∈ t ∧ Ev (LoadConfig instance_dir) (Ok config) ∈ t ∧
    Ev FromMarker (Ok host_config) ∈ t ∧ resolve_daemon_owner h host_config = Ok host_user ∧
    ∀ bridge_gid grants mkdirs cps,
      workspace_bridge_gid h (host host_config) = Ok bridge_gid →
      acl_grant_plan uid stat_uid abspath instance_dir host_user (ws_paths config) dev_user = Some grants →
      helper_mkdir_chown_plan h instance_dir host_user = Ok mkdirs →
      helper_cp_chown_plan h instance_dir host_user = Ok cps →
      preview_actions shown = start_actions dev_user inst config bridge_gid host_user grants mkdirs cps.

Lemma Ok_inj {A} (x y : A) : Ok x = Ok y → x = y.
Proof. congruence. Qed.

(** The dry run shows what start will do and does none of it.  In every
    run, no call changes the host, the instance or the daemon.  If it returns,
    the previewed actions are those that start carries out from the lock on,
    in its order ([start_actions]), for the configuration and marker that it
    read, whenever the plans exist. *)
Theorem dry_run_previews_start t r :
  runs (dry_run_pipeline h uid stat_uid abspath dev_user inst) t r →
  Forall (λ e, mutates (ev_call e) = false) t ∧
  previews_start r t.
Proof.
  intros Hr. eapply (wp_sound harmless _ previews_start []) in Hr as [HQ Hok].
  - split; [|exact HQ]. apply Forall_forall. intros e (t1 & t2 & ->)%list_elem_of_split. by apply (Hok t1 e t2).
  - clear. unfold previews_start, dry_run_pipeline, lookup_instance_or_exit.
    apply wp_bind; wp_call; [done|]. intros [[instance_dir|]|]; [|done..]. cbn [wp mret prog_ret].
    wp_call; [done|]. intros [config|]; [|done].
    apply wp_bind. unfold resolve_full_host_config at 1. apply wp_catch; wp_call; [done|].
    intros [host_config|e]; [|by destruct (bool_decide _)].
    apply lift_bind; [|done]. intros host_user Howner.
    apply harmless_bind; [unfold peek_preview, exit1; calls_tac; done| |done]. intros slot t1.
    apply harmless_bind; [unfold exit1; calls_tac; done| |done]. intros [] t2.
    apply harmless_bind; [by calls_tac| |done]. intros errors t3.
    apply harmless_bind; [unfold exit1; calls_tac; done| |done]. intros [] t4.
    apply harmless_bind; [by calls_tac| |done]. intros env t5.
    apply harmless_bind; [unfold resolve_full_host_config, exit1; calls_tac; done| |done]. intros phc t6.
    apply lift_bind; [|done]. intros shared Hshared. apply lift_bind; [|done]. intros grants Hgrants.
    apply lift_bind; [|done]. intros helper Hhelper.
    apply harmless_bind; [unfold build_attach_argv; calls_tac; done| |done]. intros argv t7 shown <-%Ok_inj.
    exists instance_dir, config, host_config, host_user.
    split_and!; [set_solver..|done|]. intros gid gs mk cp Hg Hgs Hmk Hcp.
    unfold preview_shared_group in Hshared. rewrite Hg in Hshared. injection Hshared as <-.
    unfold preview_helper in Hhelper. rewrite Hmk, Hcp in Hhelper. injection Hhelper as <-.
    unfold grant_plan in Hgrants. rewrite Hgs in Hgrants. injection Hgrants as <-.
    unfold start_actions, shared_group_actions. rewrite (app_assoc mk).
    apply preview_actions_shown, preview_daemon_read_actions.
Qed.
End dry_run_plan.

(** On a ready host the whole plan of the demo instance is shown. *)
Lemma dry_run_previews_start_witness :
  let owner := λ p : string, if String.eqb p "/i" then None else Some 1000%Z in
  let e := MkDispatchEnv (JDoc (JObj {["i" := JStr "/i"]})) (Ipam.Ledger Ipam.demo_ledger) "alice" (λ _, Err KeyError) in
  ∃ t r, (t, r) = run_env (λ t c, match c return res (answer c) with ReadDispatchEnv => Ok e
                                   | c => demo_env (λ _, None) t c end)
                    (dry_run_pipeline demo_ids 1000 owner (λ p, p) None "i") [] ∧
    is_ok r = true ∧ previews_start demo_ids 1000 owner (λ p, p) None "i" r t.
Proof.
  intros owner e. set (env := λ (t : trace answer) c, match c return res (answer c) with
    ReadDispatchEnv => Ok e | c => demo_env (λ _, None) t c end).
  pose proof (run_env_runs env (dry_run_pipeline demo_ids 1000 owner (λ p, p) None "i") []) as Hruns.
  eexists _, _. split; [symmetry; apply surjective_pairing|]. split; [vm_compute; reflexivity|].
  exact (proj2 (dry_run_previews_start demo_ids 1000 owner (λ p, p) None "i" _ _ Hruns)).
Defined.
