(* ===== verification/Teardown.v ===== *)
(** * cli.main: destroy, and the order of stop

    Destroy asks, takes the locks, stops the containers, backs up, and only
    then removes anything. *)
From S2P Require Import Prelude PyStr HostConfig Json Images Dispatch Preflight Doctor PrivilegeBoundary Recipes Secrets Interact Cli Lifecycle.
From Stdlib Require Import Ascii String.
Open Scope nat_scope.

(** [except BackupError] *)
Definition is_backup_error (e : exn) : bool :=
  bool_decide (e ∈ [BackupRsyncError; BackupPathError; BackupSpecNotFoundError; BackupSpecAmbiguousError]).

(** [available] is a set, given as the list of its elements in order. *)
Definition resolve_backup_workspaces_spec (spec : string) (available : list string) : res (list string) :=
  let parts := map strip (split_char "," spec) in
  if bool_decide ("all" ∈ parts) && (1 <? List.length parts) then Err BadParameter
  else if bool_decide (parts = ["all"]) then Ok available
  else if bool_decide (parts = ["none"]) then Ok []
  else if bool_decide ("none" ∈ parts) then Err BadParameter
  else if bool_decide (List.filter (λ p, negb (bool_decide (p ∈ available))) parts = []) then Ok parts
  else Err BadParameter.

Definition backup_question (name : string) : string := "Back up workspace '" +:+ name +:+ "'?".

Fixpoint prompt_backup_selection (names : list string) : cmd (list string) :=
  match names with
  | [] => mret []
  | name :: names =>
      yes ← do (Confirm (backup_question name));
      selected ← prompt_backup_selection names;
      mret (if (yes : bool) then name :: selected else selected)
  end.

Definition confirm_question : string := "Type the sandbox name to confirm".

Section destroy.
Context (h : host_env) (inst : string).

(** D5 to D10, under both locks. *)
Definition destroy_irreversible (instance_dir host_user : string) (config : InstanceConfig)
    (mode : DockerExecutionMode) : cmd unit :=
  _ ← catch (phase_stop_teardown h instance_dir host_user config true mode) (λ e,
        if is_sandbox_execution_error e
        then _ ← phase_unlink h instance_dir host_user; revoke_acls instance_dir host_user config
        else raise e);
  _ ← catch (do (Rmtree instance_dir)) (λ e, if bool_decide (e = FileNotFoundError) then mret tt else raise e);
  _ ← for_each (map (λ w, path (snd w)) (workspaces config)) (λ p,
        catch (do (Rmtree p)) (λ e, if is_os_error e then mret tt else raise e));
  _ ← catch (do (Rmdir (path_join3 (sandbox_ai_home h) "workspaces" inst)))
        (λ e, if is_os_error e then mret tt else raise e);
  _ ← catch (do (ReleaseSlot inst)) (λ _, mret tt);
  catch (do (RegistryRemove inst)) (λ _, mret tt).

(** D3 and D4. *)
Definition destroy_backup (config : InstanceConfig) (ws : string) : cmd unit :=
  target ← lift (match assoc ws (workspaces config) with Some w => Ok w | None => Err KeyError end);
  catch (do (CreateBackup inst ws (path target) (bootstrap_mode target) false))
    (λ e, if is_backup_error e then exit1 else raise e).

(** The body of [with acquire_backup_lock(inst)]. *)
Definition destroy_locked (instance_dir host_user : string) (config : InstanceConfig)
    (mode : DockerExecutionMode) (backup_set : list string) : cmd unit :=
  _ ← release_lock;
  _ ← catch (compose_down host_user config false mode)
        (λ e, if is_sandbox_execution_error e then mret tt else raise e);
  _ ← for_each backup_set (destroy_backup config);
  _ ← acquire_or_exit;
  finally_do (destroy_irreversible instance_dir host_user config mode) release_lock.

Definition destroy_confirmed (force : bool) : cmd bool :=
  if force then mret true
  else typed ← do (Prompt confirm_question); mret (String.eqb typed inst).

Definition destroy_backup_set (backup_workspaces : option string) (config : InstanceConfig)
    : cmd (list string) :=
  match backup_workspaces with
  | Some spec => lift (resolve_backup_workspaces_spec spec (workspace_names config))
  | None => tty ← do StdinIsTty;
            if (tty : bool) then prompt_backup_selection (workspace_names config) else exit1
  end.

(** [str(sandbox_ai_home() / "instances") + os.sep] *)
Definition instances_prefix : string := path_join (sandbox_ai_home h) "instances" +:+ "/".

Definition destroy (force : bool) (backup_workspaces : option string) : cmd unit :=
  _ ← refuse_root_euid;
  _ ← require_per_user_state_initialized;
  instance_dir ← lookup_instance_or_exit inst;
  _ ← when (negb (startswith instances_prefix instance_dir)) exit1;
  config ← do (LoadConfig instance_dir);
  host_config ← resolve_full_host_config;
  host_user ← lift (resolve_daemon_owner h host_config);
  confirmed ← destroy_confirmed force;
  if negb confirmed then mret tt
  else
    backup_set ← destroy_backup_set backup_workspaces config;
    _ ← acquire_or_exit;
    _ ← refuse_backup_holding_lock inst;
    _ ← do (AcquireBackupLock inst);
    finally_do
      (destroy_locked instance_dir host_user config (docker_execution_mode (host host_config)) backup_set)
      (do (ReleaseBackupLock inst)).
End destroy.

(** ** What must come before *)

Open Scope list_scope.

Definition state_step (b : bool) (e : event answer) : bool :=
  match ev_call e with
  | AcquireStateLock => is_ok (ev_answer e) || b
  | ReleaseStateLock => false
  | _ => b
  end.
Definition backup_step (b : bool) (e : event answer) : bool :=
  match ev_call e with
  | AcquireBackupLock _ => is_ok (ev_answer e) || b
  | ReleaseBackupLock _ => false
  | _ => b
  end.

(** The locks that a command holds after a trace. *)
Definition state_held (t : trace answer) : bool := foldl state_step false t.
Definition backup_held (t : trace answer) : bool := foldl backup_step false t.

Definition on_lock (c : cli_call) : bool :=
  match c with
  | AcquireStateLock | ReleaseStateLock | AcquireBackupLock _ | ReleaseBackupLock _ => true
  | _ => false
  end.

(** The calls of destroy that cannot be undone. *)
Definition irreversible (c : cli_call) : bool :=
  match c with
  | Invoke _ args _ => bool_decide ("--volumes" ∈ tail args)
  | UnlinkFile _ | Exec _ | Rmtree _ | Rmdir _ | ReleaseSlot _ | RegistryRemove _ => true
  | _ => false
  end.

Lemma state_held_app t1 t2 : state_held (t1 ++ t2) = foldl state_step (state_held t1) t2.
Proof. apply foldl_app. Qed.
Lemma backup_held_app t1 t2 : backup_held (t1 ++ t2) = foldl backup_step (backup_held t1) t2.
Proof. apply foldl_app. Qed.

Lemma held_quiet t1 t2 : Forall (λ e, on_lock (ev_call e) = false) t2 →
  state_held (t1 ++ t2) = state_held t1 ∧ backup_held (t1 ++ t2) = backup_held t1.
Proof.
  rewrite state_held_app, backup_held_app. generalize (state_held t1), (backup_held t1).
  induction t2 as [|[c a] t2 IH]; intros b b'; [done|]. intros [Hc Ht]%Forall_cons.
  destruct c; try done; by apply IH.
Qed.

Section destroy_safe.
Context (h : host_env) (inst : string) (force : bool) (backup_workspaces : option string).

(** What was read and asked, and the backups it calls for. *)
Definition destroy_asked (instance_dir : string) (config : InstanceConfig) (backup_set : list string)
    (t : trace answer) : Prop :=
  Ev (RegistryGet inst) (Ok (Some instance_dir)) ∈ t ∧ startswith (instances_prefix h) instance_dir = true ∧
  Ev (LoadConfig instance_dir) (Ok config) ∈ t ∧
  (force = true ∨ Ev (Prompt confirm_question) (Ok inst) ∈ t) ∧
  match backup_workspaces with
  | Some spec => resolve_backup_workspaces_spec spec (workspace_names config) = Ok backup_set
  | None => ∀ ws, ws ∈ workspace_names config → ws ∉ backup_set →
              Ev (Confirm (backup_question ws)) (Ok false) ∈ t
  end.

(** The tree that the configuration gives the workspace was backed up. *)
Definition backed_up (config : InstanceConfig) (ws : string) (t : trace answer) : Prop :=
  ∃ w, assoc ws (workspaces config) = Some w ∧
    Ev (CreateBackup inst ws (path w) (bootstrap_mode w) false) (Ok tt) ∈ t.

(** What an irreversible call may touch: the instance's own. *)
Definition own_target (instance_dir : string) (config : InstanceConfig) (c : cli_call) : Prop :=
  match c with
  | Invoke op args _ => op = "compose-down" ∧ args = [ic_name config; "--volumes"]
  | Exec a => ∃ host_user, a ∈ acl_revoke_plan instance_dir host_user (ws_paths config)
  | UnlinkFile p => ∃ host_user plan, helper_cp_chown_plan h instance_dir host_user = Ok plan ∧
                      p ∈ unlink_targets plan
  | Rmtree p => p = instance_dir ∨ p ∈ map (λ w, path (snd w)) (workspaces config)
  | Rmdir p => p = path_join3 (sandbox_ai_home h) "workspaces" inst
  | ReleaseSlot i | RegistryRemove i => i = inst
  | _ => True
  end.

Definition destroy_cleared (t : trace answer) (c : cli_call) : Prop :=
  ∃ instance_dir config backup_set,
    destroy_asked instance_dir config backup_set t ∧
    (∀ ws, ws ∈ backup_set → backed_up config ws t) ∧
    state_held t = true ∧ backup_held t = true ∧ own_target instance_dir config c.

Definition destroy_ok (t : trace answer) (c : cli_call) : Prop :=
  irreversible c = true → destroy_cleared t c.

Lemma destroy_asked_app d config l t t' : destroy_asked d config l t → destroy_asked d config l (t ++ t').
Proof.
  intros (H1 & H2 & H3 & H4 & H5). split_and!; [set_solver|done|set_solver|set_solver|].
  destruct backup_workspaces; [done|]. intros ws Hws Hn. apply elem_of_app. left. by apply H5.
Qed.

Lemma backed_up_app config ws t t' : backed_up config ws t → backed_up config ws (t ++ t').
Proof. intros (w & Hw & Hin). exists w. split; [done|]. apply elem_of_app. by left. Qed.

(** ** The irreversible part *)

Section locked.
Context (instance_dir host_user : string) (config : InstanceConfig) (mode : DockerExecutionMode)
  (backup_set : list string).

(** A call of the irreversible part: its paths are the instance's own. *)
Definition own (c : cli_call) : Prop := on_lock c = false ∧ own_target instance_dir config c.

Lemma calls_in_for_each_in {A} P (l : list A) (f : A → cmd unit) :
  (∀ x, x ∈ l → calls_in P (f x)) → calls_in P (for_each l f).
Proof.
  induction l as [|x l IH]; intros Hf; cbn [for_each]; [done|].
  apply calls_in_bind; [apply Hf; set_solver|]. intros _. apply IH. set_solver.
Qed.

Lemma phase_unlink_own : calls_in own (phase_unlink h instance_dir host_user).
Proof.
  unfold phase_unlink. destruct (helper_cp_chown_plan h instance_dir host_user) as [plan|e] eqn:Hp; [|done].
  apply (calls_in_for_each_in own (unlink_targets plan)). intros p Hin.
  calls_tac; try done. split; [done|]. by exists host_user, plan.
Qed.

Lemma revoke_acls_own : calls_in own (revoke_acls instance_dir host_user config).
Proof.
  unfold revoke_acls. apply calls_in_for_each_in. intros a Ha. calls_tac; try done.
  split; [done|]. by exists host_user.
Qed.

Lemma destroy_irreversible_own :
  calls_in own (destroy_irreversible h inst instance_dir host_user config mode).
Proof.
  unfold destroy_irreversible, phase_stop_teardown, compose_down.
  apply calls_in_bind; [|intros _; apply calls_in_bind; [|intros _; apply calls_in_bind; [|intros _]]].
  - calls_tac; try done; try apply phase_unlink_own; apply revoke_acls_own.
  - calls_tac; try done. split; [done|]. by left.
  - apply calls_in_for_each_in. intros p Hp. calls_tac; try done. split; [done|]. by right.
  - by calls_tac.
Qed.

Lemma destroy_locked_ok t : destroy_asked instance_dir config backup_set t → backup_held t = true →
  wp destroy_ok (destroy_locked h inst instance_dir host_user config mode backup_set)
    (λ _ t', backup_held t' = true ∧ state_held t' = false) t.
Proof.
  intros Ha Hb. unfold destroy_locked. apply wp_bind. split; [done|]. intros a. hnf.
  set (t0 := t ++ _). assert (destroy_asked instance_dir config backup_set t0) as Ha0 by by apply destroy_asked_app.
  assert (backup_held t0 = true ∧ state_held t0 = false) as [Hb0 Hs0]
    by (unfold t0; by rewrite backup_held_app, state_held_app, Hb).
  clearbody t0. clear t Ha Hb a.
  apply (wp_bind_calls (λ c, on_lock c = false ∧ irreversible c = false)).
  { unfold compose_down. by calls_tac. }
  { intros t' c _ [_ Hc]. unfold destroy_ok. by rewrite Hc. }
  2: { intros e t' Ht. destruct (held_quiet t0 t') as [-> ->]; [|done].
       eapply Forall_impl; [exact Ht|]. by intros ? []. }
  intros [] t1 Ht1. assert (Forall (λ e, on_lock (ev_call e) = false) t1) as Hq1
    by (eapply Forall_impl; [exact Ht1|]; by intros ? []).
  destruct (held_quiet t0 t1 Hq1) as [Hs1 Hb1]. rewrite Hs0 in Hs1. rewrite Hb0 in Hb1.
  apply (destroy_asked_app _ _ _ _ t1) in Ha0. revert Hs1 Hb1 Ha0. generalize (t0 ++ t1).
  clear. intros t Hs Hb Ha. apply wp_bind.
  apply (wp_for_each _ (λ done t, state_held t = false ∧ backup_held t = true ∧
    destroy_asked instance_dir config backup_set t ∧ ∀ ws, ws ∈ done → backed_up config ws t)).
  { split_and!; [done..|]. intros ws Hws. set_solver. }
  { intros l1 ws l2 t' _ (Hs' & Hb' & Ha' & Hd). unfold destroy_backup. apply wp_bind.
    destruct (assoc ws (workspaces config)) as [target|] eqn:Hw; [|by split]. unfold lift at 1; cbn [wp].
    apply wp_catch; wp_call; [done|]. intros a.
    assert (state_held (t' ++ [Ev (CreateBackup inst ws (path target) (bootstrap_mode target) false) a]) = false ∧
      backup_held (t' ++ [Ev (CreateBackup inst ws (path target) (bootstrap_mode target) false) a]) = true)
      as [Hs2 Hb2] by (rewrite state_held_app, backup_held_app, Hs', Hb'; done).
    destruct a as [[]|e].
    - split_and!; [done|done|by apply destroy_asked_app|]. intros w [Hin| ->%list_elem_of_singleton]%elem_of_app.
      + by apply backed_up_app, Hd.
      + exists target. split; [done|set_solver].
    - by destruct (is_backup_error e). }
  intros t' (Hs' & Hb' & Ha' & Hd). unfold acquire_or_exit. apply wp_bind, wp_catch; wp_call; [done|].
  intros [[]|e]. 2: { assert (state_held (t' ++ [Ev AcquireStateLock (Err e)]) = false ∧
      backup_held (t' ++ [Ev AcquireStateLock (Err e)]) = true) as [Hs2 Hb2]
      by (rewrite state_held_app, backup_held_app, Hs', Hb'; done). by destruct (bool_decide _). }
  set (t1 := t' ++ _). assert (state_held t1 = true ∧ backup_held t1 = true) as [Hs1 Hb1]
    by (unfold t1; rewrite state_held_app, backup_held_app, Hb'; done).
  assert (destroy_asked instance_dir config backup_set t1) as Ha1 by by apply destroy_asked_app.
  assert (∀ ws, ws ∈ backup_set → backed_up config ws t1) as Hd1 by (intros ws Hws; by apply backed_up_app, Hd).
  clearbody t1. apply wp_finally, (wp_calls_in own); [apply destroy_irreversible_own|..].
  - intros t2 c Ht2 [Hc Hown] _. destruct (held_quiet t1 t2) as [Hs2 Hb2].
    { eapply Forall_impl; [exact Ht2|]. by intros ? []. }
    exists instance_dir, config, backup_set. split_and!; [by apply destroy_asked_app| |congruence..|done].
    intros ws Hws. by apply backed_up_app, Hd1.
  - intros t2 r Ht2. destruct (held_quiet t1 t2) as [Hs2 Hb2].
    { eapply Forall_impl; [exact Ht2|]. by intros ? []. }
    unfold release_lock. split; [done|]. intros a. cbn [wp mret prog_ret].
    assert (backup_held ((t1 ++ t2) ++ [Ev ReleaseStateLock a]) = true ∧
            state_held ((t1 ++ t2) ++ [Ev ReleaseStateLock a]) = false) as [H1 H2]
      by (rewrite (backup_held_app (t1 ++ t2)), (state_held_app (t1 ++ t2)), Hb2, Hb1; done).
    by destruct r.
Qed.
End locked.
(** ** The questions *)

Lemma prompt_selection_spec names t :
  wp destroy_ok (prompt_backup_selection names) (λ r t', ∃ t'', t' = t ++ t'' ∧
    Forall (λ e, on_lock (ev_call e) = false) t'' ∧
    ∀ l, r = Ok l → ∀ ws, ws ∈ names → ws ∉ l → Ev (Confirm (backup_question ws)) (Ok false) ∈ t'') t.
Proof.
  revert t; induction names as [|name names IH]; intros t; cbn [prompt_backup_selection].
  { exists []. split_and!; [by rewrite app_nil_r|constructor|set_solver]. }
  wp_call; [done|]. intros [yes|e]; [|by eexists; split_and!; [done|repeat constructor|]].
  apply wp_bind. eapply wp_mono; [|apply IH]. intros [l|e] t' (t'' & -> & Hq & Hl).
  - exists ([Ev (Confirm (backup_question name)) (Ok yes)] ++ t''). rewrite app_assoc.
    split_and!; [done|by constructor|]. intros l' [= <-] ws [->|Hws]%elem_of_cons Hn.
    + destruct yes; set_solver.
    + apply elem_of_app. right. apply (Hl _ eq_refl); [done|]. destruct yes; set_solver.
  - exists ([Ev (Confirm (backup_question name)) (Ok yes)] ++ t''). rewrite app_assoc.
    by split_and!; [|constructor|].
Qed.

Lemma backup_set_spec config t :
  wp destroy_ok (destroy_backup_set backup_workspaces config) (λ r t', ∃ t'', t' = t ++ t'' ∧
    Forall (λ e, on_lock (ev_call e) = false) t'' ∧
    ∀ l, r = Ok l → match backup_workspaces with
      | Some spec => resolve_backup_workspaces_spec spec (workspace_names config) = Ok l
      | None => ∀ ws, ws ∈ workspace_names config → ws ∉ l →
                  Ev (Confirm (backup_question ws)) (Ok false) ∈ t''
      end) t.
Proof.
  unfold destroy_backup_set. destruct backup_workspaces as [spec|].
  { exists []. split_and!; [by rewrite app_nil_r|constructor|]. by intros l Hl. }
  wp_call; [done|]. intros [[]|e]; [|by eexists; split_and!; [done|repeat constructor|]..].
  eapply wp_mono; [|apply prompt_selection_spec]. intros r t' (t'' & -> & Hq & Hl).
  exists ([Ev StdinIsTty (Ok true)] ++ t''). rewrite app_assoc. split_and!; [done|by constructor|].
  intros l Hr ws H1 H2. apply elem_of_app. right. by apply (Hl l).
Qed.

Lemma confirmed_spec t :
  wp destroy_ok (destroy_confirmed inst force) (λ r t', ∃ t'', t' = t ++ t'' ∧
    Forall (λ e, on_lock (ev_call e) = false) t'' ∧
    (r = Ok true → force = true ∨ Ev (Prompt confirm_question) (Ok inst) ∈ t'')) t.
Proof.
  unfold destroy_confirmed. destruct force.
  { exists []. split_and!; [by rewrite app_nil_r|constructor|by left]. }
  wp_call; [done|]. intros [typed|e]; (eexists; split_and!; [done|by repeat constructor|]); [|done].
  intros [= ->%String.eqb_eq]. right. set_solver.
Qed.

(** The locks at the end: the backup lock is free, and the state lock too once
    the backup lock was taken. *)
Definition destroy_released (t : trace answer) : Prop :=
  backup_held t = false ∧ (state_held t = true → ∀ i, AcquireBackupLock i ∉ succeeded t).

Lemma released_quiet t : Forall (λ e, on_lock (ev_call e) = false) t → destroy_released t.
Proof.
  intros Ht. destruct (held_quiet [] t Ht) as [Hs Hb]. cbn [app] in *. split; [done|]. by rewrite Hs.
Qed.
(** From the first lock on. *)
Lemma destroy_from_lock instance_dir host_user config mode backup_set t :
  Forall (λ e, on_lock (ev_call e) = false) t → destroy_asked instance_dir config backup_set t →
  wp destroy_ok
    (_ ← acquire_or_exit; _ ← refuse_backup_holding_lock inst; _ ← do (AcquireBackupLock inst);
     finally_do (destroy_locked h inst instance_dir host_user config mode backup_set)
       (do (ReleaseBackupLock inst)))
    (λ _ t', destroy_released t') t.
Proof.
  intros Hq Ha. destruct (held_quiet [] t Hq) as [Hs Hb]. cbn [app] in Hs, Hb.
  assert (∀ i, AcquireBackupLock i ∉ succeeded t) as Hno.
  { intros i. clear -Hq. induction Hq as [|[c a] t Hc _ IH]; [apply not_elem_of_nil|].
    unfold succeeded in *. cbn [omap list_omap ev_answer ev_call]. destruct a; [|done].
    intros [<-|]%elem_of_cons; done. }
  unfold acquire_or_exit. apply wp_bind, wp_catch; wp_call; [done|]. intros [[]|e].
  2: { assert (destroy_released (t ++ [Ev AcquireStateLock (Err e)])) as Hrel
         by (split; rewrite ?backup_held_app, ?state_held_app, ?Hs, ?Hb; done).
       by destruct (bool_decide _). }
  set (t1 := t ++ _). assert (state_held t1 = true ∧ backup_held t1 = false) as [Hs1 Hb1]
    by (unfold t1; rewrite state_held_app, backup_held_app, Hb; done).
  assert (∀ i, AcquireBackupLock i ∉ succeeded t1) as Hno1
    by (intros i; unfold t1; rewrite succeeded_app; cbn; specialize (Hno i); set_solver).
  assert (destroy_asked instance_dir config backup_set t1) as Ha1 by by apply destroy_asked_app.
  clearbody t1. clear t Hq Ha Hs Hb Hno. unfold refuse_backup_holding_lock.
  apply wp_bind; wp_call; [done|]. intros [held|e].
  2: { split; rewrite ?backup_held_app; [done|]. intros _ i. rewrite succeeded_app. cbn.
       rewrite app_nil_r. apply Hno1. }
  destruct held; cbn [when].
  { apply wp_bind. split; [done|]. intros a. cbn [wp mret prog_ret exit1 raise].
    split; rewrite ?(backup_held_app (_ ++ _)), ?(state_held_app (_ ++ _)), ?backup_held_app, ?Hb1; done. }
  cbn [wp mret prog_ret]. wp_call; [done|]. intros [[]|e].
  2: { split; rewrite ?(backup_held_app (_ ++ _)), ?backup_held_app, ?Hb1; [done|]. intros _ i.
       rewrite !succeeded_app. cbn. specialize (Hno1 i). set_solver. }
  apply wp_finally. eapply wp_mono; [|apply (destroy_locked_ok _ _ _ _ backup_set)].
  - intros r t' [Hb' Hs']. wp_call; [done|]. intros a.
    assert (destroy_released (t' ++ [Ev (ReleaseBackupLock inst) a])) as Hrel
      by (split; rewrite ?backup_held_app, ?state_held_app, ?Hs'; done). by destruct a.
  - by apply destroy_asked_app, destroy_asked_app.
  - rewrite !backup_held_app, Hb1. done.
Qed.

(** The steps before the locks. *)
Abbreviation quiet t := (Forall (λ e : event answer, on_lock (ev_call e) = false) t).
Abbreviation goes_on m t := (wp destroy_ok m (λ _ t', destroy_released t') t).

Lemma quiet_spec_bind {A B} (R : res A → trace answer → Prop) (m : cmd A) (f : A → cmd B) t :
  quiet t →
  wp destroy_ok m (λ r t', ∃ t'', t' = t ++ t'' ∧ quiet t'' ∧ R r t'') t →
  (∀ a t'', quiet (t ++ t'') → R (Ok a) t'' → goes_on (f a) (t ++ t'')) →
  goes_on (m ≫= f) t.
Proof.
  intros Hq Hm Hf. apply wp_bind. eapply wp_mono; [|exact Hm]. intros r t' (t'' & -> & Hq' & HR).
  assert (quiet (t ++ t'')) as Hq2 by (by apply Forall_app). destruct r; [by apply Hf|].
  by apply released_quiet.
Qed.

Lemma quiet_bind {A B} (m : cmd A) (f : A → cmd B) t : quiet t →
  calls_in (λ c, on_lock c = false ∧ irreversible c = false) m →
  (∀ a t'', quiet (t ++ t'') → goes_on (f a) (t ++ t'')) → goes_on (m ≫= f) t.
Proof.
  intros Hq Hm Hf. apply (quiet_spec_bind (λ _ _, True)); [done| |by intros; apply Hf].
  eapply wp_calls_in; [exact Hm|..].
  - intros t' c _ [_ Hc]. unfold destroy_ok. by rewrite Hc.
  - intros t' r Ht'. exists t'. split_and!; [done| |done]. eapply Forall_impl; [exact Ht'|]. by intros ? [].
Qed.

Lemma quiet_call {B} c (f : answer c → cmd B) t : quiet t → on_lock c = false → irreversible c = false →
  (∀ a, quiet (t ++ [Ev c (Ok a)]) → goes_on (f a) (t ++ [Ev c (Ok a)])) → goes_on (do c ≫= f) t.
Proof.
  intros Hq Hl Hi Hf. apply wp_bind, (wp_perform _ c); [unfold destroy_ok; by rewrite Hi|].
  intros a. assert (quiet (t ++ [Ev c a])) as Hq' by (apply Forall_app; split; [done|by constructor]).
  destruct a; [by apply Hf|]. by apply released_quiet.
Qed.

Lemma lookup_spec t :
  wp destroy_ok (lookup_instance_or_exit inst) (λ r t', ∃ t'', t' = t ++ t'' ∧ quiet t'' ∧
    ∀ d, r = Ok d → Ev (RegistryGet inst) (Ok (Some d)) ∈ t'') t.
Proof.
  unfold lookup_instance_or_exit. wp_call; [done|].
  intros [[d|]|e]; (eexists; split_and!; [done|by repeat constructor|]); [|done..].
  intros ? [= <-]. set_solver.
Qed.

End destroy_safe.

(** ** Past the point of no return *)

Section finishing.
Context (h : host_env) (inst instance_dir host_user : string) (config : InstanceConfig)
  (mode : DockerExecutionMode).

(** The failures that destroy is written for: an operation of the daemon or an
    action fails with [SandboxExecutionError], a file operation with an
    [OSError], and the instance's own tree is removable. *)
Definition expected (e : event answer) : Prop :=
  match ev_answer e with
  | Ok _ => True
  | Err x =>
      match ev_call e with
      | Invoke _ _ _ | Exec _ => is_sandbox_execution_error x = true
      | UnlinkFile _ | Rmdir _ => is_os_error x = true
      | Rmtree p => if String.eqb p instance_dir then x = FileNotFoundError else is_os_error x = true
      | _ => True
      end
  end.

(** The calls so far end with [l], as long as all failures were expected. *)
Definition reached (l : list cli_call) (t : trace answer) : Prop :=
  Forall expected t → ∃ t0, made t = t0 ++ l.
Definition on_course (l : list cli_call) (r : res unit) (t : trace answer) : Prop :=
  Forall expected t → r = Ok tt ∧ ∃ t0, made t = t0 ++ l.

Lemma course_bind l l' (m : cmd unit) (f : unit → cmd unit) t : wp anything m (on_course l) t →
  (∀ t', reached l t' → wp anything (f tt) (on_course l') t') → wp anything (m ≫= f) (on_course l') t.
Proof.
  intros Hm Hf. apply wp_bind. eapply wp_mono; [|exact Hm]. intros [[]|e] t' Ht.
  - apply Hf. intros He. by apply Ht.
  - intros He. by apply Ht in He as [[=] _].
Qed.

Lemma course_ok l t e : reached l t → on_course (l ++ [ev_call e]) (Ok tt) (t ++ [e]).
Proof.
  intros Hl [He _]%Forall_app. split; [done|]. destruct (Hl He) as [t0 Ht]. exists t0.
  by rewrite made_app, Ht, <- app_assoc.
Qed.

Lemma course_absurd l r t e : ¬ expected e → on_course l r (t ++ [e]).
Proof. intros He [_ H]%Forall_app. destruct He. by apply Forall_singleton. Qed.

Lemma course_nil t : on_course [] (Ok tt) t.
Proof. intros _. split; [done|]. exists (made t). by rewrite app_nil_r. Qed.

(** After an unexpected failure nothing is claimed. *)
Lemma course_lost (m : cmd unit) l t : ¬ Forall expected t → wp anything m (on_course l) t.
Proof.
  revert t; induction m as [r|c k IH]; intros t Ht; [by intros ?|]. split; [done|]. intros a. apply IH.
  by rewrite Forall_app; intros [? _].
Qed.

(** A call whose expected failures are swallowed. *)
Ltac swallowed := apply wp_catch; wp_call; [done|]; let x := fresh in let E := fresh in
  intros [[]|x];
  [first [apply course_nil | by apply (course_ok _ _ (Ev _ _))]|];
  first [ apply course_nil | by apply (course_ok _ _ (Ev _ _)) |
    lazymatch goal with |- context [if ?b then _ else _] => destruct b eqn:E end;
    [ first [apply course_nil | by apply (course_ok _ _ (Ev _ _))]
    | apply course_absurd; unfold expected; cbn; by rewrite E ] ].

(** Steps of which only success matters. *)
Lemma course_each {A} (l : list A) (f : A → cmd unit) t :
  (∀ x t, wp anything (f x) (on_course []) t) → wp anything (for_each l f) (on_course []) t.
Proof.
  intros Hf. apply (wp_for_each _ (λ _ _, True)); [done| |].
  - intros l1 x l2 t' _ _. eapply wp_mono; [|apply Hf]. intros [[]|e] t'' H; [done|].
    intros He. by apply H in He as [[=] _].
  - intros t' _ He. split; [done|]. exists (made t'). by rewrite app_nil_r.
Qed.

(** With the plan of the files, and failures as the operations document them,
    destroy finishes. *)
Lemma destroy_finishes_expected plan t r :
  helper_cp_chown_plan h instance_dir host_user = Ok plan →
  is_ok (minimal_host_config host_user mode) = true →
  runs (destroy_irreversible h inst instance_dir host_user config mode) t r →
  Forall expected t →
  r = Ok tt ∧ ∃ t0, made t = t0 ++ Rmtree instance_dir :: map (λ w, Rmtree (path (snd w))) (workspaces config)
                      ++ [Rmdir (path_join3 (sandbox_ai_home h) "workspaces" inst);
                          ReleaseSlot inst; RegistryRemove inst].
Proof.
  intros Hplan Hc Hr. eapply (wp_sound anything _ (on_course _) []) in Hr as [HQ _]; [exact HQ|].
  assert (∀ t, wp anything (phase_unlink h instance_dir host_user) (on_course []) t) as Hunlink.
  { intros t'. unfold phase_unlink. rewrite Hplan. cbn [lift]. apply course_each. intros p t''. swallowed. }
  assert (∀ t, wp anything (revoke_acls instance_dir host_user config) (on_course []) t) as Hrevoke.
  { intros t'. unfold revoke_acls. apply course_each. intros p t''. swallowed. }
  unfold destroy_irreversible. eapply (course_bind []).
  { apply wp_catch. unfold phase_stop_teardown, compose_down. apply wp_bind, wp_bind.
    destruct (minimal_host_config host_user mode) as [c|]; [|done]. unfold lift at 1; cbn [wp]. wp_call; [done|].
    intros [[]|e].
    - apply wp_bind. eapply wp_mono; [|apply Hunlink]. intros [[]|e] t' Ht.
      + eapply wp_mono; [|apply Hrevoke]. intros [[]|e] t'' Ht''; [done|].
        apply course_lost. intros He. by apply Ht'' in He as [[=] _].
      + apply course_lost. intros He. by apply Ht in He as [[=] _].
    - destruct (is_sandbox_execution_error e) eqn:E; [|by apply course_absurd; unfold expected; cbn; rewrite E].
      eapply (course_bind []); [apply Hunlink|]. intros t' _. apply Hrevoke. }
  intros t1 H1. eapply (course_bind [Rmtree instance_dir]).
  { apply wp_catch; wp_call; [done|]. intros [[]|e]; [by apply (course_ok [] _ (Ev _ _))|].
    case_bool_decide as E; [by apply (course_ok [] _ (Ev (Rmtree instance_dir) (Err e)))|].
    apply course_absurd. unfold expected. cbn. by rewrite String.eqb_refl. }
  clear t1 H1. intros t1 H1. eapply (course_bind (Rmtree instance_dir :: map _ _)).
  { apply (wp_for_each _ (λ l, reached (Rmtree instance_dir :: map Rmtree l))); [done| |].
    - intros l1 p l2 t' _ Hl. eapply (wp_mono _ _ (on_course ((Rmtree instance_dir :: map Rmtree l1) ++ [Rmtree p]))).
      { intros [[]|e] t'' Ht; [|intros He; by apply Ht in He as [[=] _]].
        rewrite map_app. intros He. by apply Ht. }
      apply wp_catch; wp_call; [done|]. intros [[]|e]; [by apply (course_ok _ _ (Ev _ _))|].
      destruct (is_os_error e) eqn:E; [by apply (course_ok _ _ (Ev (Rmtree p) (Err e)))|].
      apply course_absurd. unfold expected. cbn. destruct (String.eqb p instance_dir); [by intros ->|congruence].
    - intros t' Hl He. split; [done|]. exact (Hl He). }
  clear t1 H1. intros t1 H1. eapply (course_bind (_ ++ [Rmdir _])); [swallowed|].
  clear t1 H1. intros t1 H1. eapply (course_bind (_ ++ [ReleaseSlot _])); [swallowed|].
  clear t1 H1. intros t1 H1. rewrite <- map_map.
  replace (Rmtree instance_dir :: _) with
    ((((Rmtree instance_dir :: map Rmtree (map (λ w, path (snd w)) (workspaces config)))
      ++ [Rmdir (path_join3 (sandbox_ai_home h) "workspaces" inst)]) ++ [ReleaseSlot inst]) ++ [RegistryRemove inst])
    by (cbn; by rewrite <- !app_assoc). swallowed.
Qed.
End finishing.

(** Without the plan of the helper's files, say when the host's subordinate
    ids are gone, destroy stops before it removes anything: the plan is made
    again in the handler of its own failure. *)
Lemma destroy_needs_the_plan h inst instance_dir host_user config mode e t r :
  helper_cp_chown_plan h instance_dir host_user = Err e →
  runs (destroy_irreversible h inst instance_dir host_user config mode) t r →
  is_ok r = false ∧ Forall (λ c, match c with Rmtree _ => False | _ => True end) (made t).
Proof.
  intros Hplan Hr.
  eapply (wp_sound anything _ (λ r t, is_ok r = false ∧
    Forall (λ c, match c with Rmtree _ => False | _ => True end) (made t)) []) in Hr as [HQ _]; [exact HQ|].
  unfold destroy_irreversible, phase_stop_teardown, compose_down, phase_unlink. rewrite Hplan.
  apply wp_bind, wp_catch, wp_bind, wp_bind. destruct (minimal_host_config host_user mode) as [c|x]; unfold lift; cbn [wp].
  - wp_call; [done|]. intros [[]|x].
    + cbn. destruct (is_sandbox_execution_error e); cbn; (split; [done|by repeat constructor]).
    + destruct (is_sandbox_execution_error x); cbn; (split; [done|by repeat constructor]).
  - destruct (is_sandbox_execution_error x); cbn; (split; [done|by repeat constructor]).
Qed.

(** C10: Past the point of no return, destroy finishes when the plan of the
    helper's files can be computed.  Given that plan and a minimal host
    configuration, if every failure is of the class its operation documents
    ([expected]: [SandboxExecutionError] of the daemon and of the actions,
    [OSError] of file operations, and the instance's own tree removable or
    absent), then whichever and however many fail, it returns; and its last
    calls remove the instance's tree and each workspace's, the workspaces'
    directory, the slot and the entry in the registry, each of them attempted.
    Without that plan it raises before it removes any tree. *)
Theorem destroy_finishes (h : host_env) inst instance_dir host_user config mode t r :
  runs (destroy_irreversible h inst instance_dir host_user config mode) t r →
  match helper_cp_chown_plan h instance_dir host_user with
  | Ok _ =>
      is_ok (minimal_host_config host_user mode) = true → Forall (expected instance_dir) t →
      r = Ok tt ∧
      ∃ t0, made t = t0 ++ Rmtree instance_dir :: map (λ w, Rmtree (path (snd w))) (workspaces config)
                      ++ [Rmdir (path_join3 (sandbox_ai_home h) "workspaces" inst);
                          ReleaseSlot inst; RegistryRemove inst]
  | Err _ => is_ok r = false ∧ Forall (λ c, match c with Rmtree _ => False | _ => True end) (made t)
  end.
Proof.
  intros Hr. destruct (helper_cp_chown_plan h instance_dir host_user) as [plan|e] eqn:Hp.
  - intros Hc He. by eapply destroy_finishes_expected.
  - by eapply destroy_needs_the_plan.
Qed.

(** ** Stop *)

Section stop_order.
Context (h : host_env) (loads : string → option JsonValue) (inst : string).

Definition came_down (t : trace answer) : Prop :=
  ∃ args c, Ev (Invoke "compose-down" args c) (Ok tt) ∈ t.

Definition stop_ok (t : trace answer) (c : cli_call) : Prop :=
  mutates c = true → state_held t = true ∧ Ev (BackupLockHeld inst) (Ok false) ∈ t ∧
    match c with Invoke _ _ _ => True | _ => came_down t end.

Lemma stop_quiet_bind {A B} (Q : res B → trace answer → Prop) (m : cmd A) (f : A → cmd B) t :
  calls_in (λ c, on_lock c = false ∧ mutates c = false) m → (∀ e t', Q (Err e) t') →
  (∀ a t', state_held (t ++ t') = state_held t → wp stop_ok (f a) Q (t ++ t')) →
  wp stop_ok (m ≫= f) Q t.
Proof.
  intros Hm He Hf. apply (wp_bind_calls (λ c, on_lock c = false ∧ mutates c = false)); [done|..].
  - intros t' c _ [_ Hc]. unfold stop_ok. by rewrite Hc.
  - intros a t' Ht. apply Hf. apply held_quiet. eapply Forall_impl; [exact Ht|]. by intros ? [].
  - by intros.
Qed.

(** After compose-down: the unlinks and the revokes. *)
Lemma stop_after_down {A} (m : cmd A) (Q : res A → trace answer → Prop) t :
  calls_in (λ c, on_lock c = false) m → state_held t = true →
  Ev (BackupLockHeld inst) (Ok false) ∈ t → came_down t →
  (∀ r t', state_held (t ++ t') = true → came_down (t ++ t') → Q r (t ++ t')) → wp stop_ok m Q t.
Proof.
  intros Hm Hs Hb (args & c & Hd) HQ. apply (wp_calls_in (λ c, on_lock c = false)); [done|..].
  - intros t' c' Ht _ _. split_and!; [by rewrite (proj1 (held_quiet t t' Ht))|set_solver|].
    destruct c'; try done; exists args, c; set_solver.
  - intros t' r Ht. apply HQ; [by rewrite (proj1 (held_quiet t t' Ht))|]. exists args, c. set_solver.
Qed.

(** Stop takes things down in order.  In every run, each call that changes
    something is made with the state lock held and the backup lock seen free;
    the containers come first, and a file is unlinked or a grant revoked only
    after they came down.  If stop returns, the lock is free. *)
Theorem stop_in_order clean t r :
  runs (stop h loads inst clean) t r →
  (∀ t1 e t2, t = t1 ++ e :: t2 → stop_ok t1 (ev_call e)) ∧ (r = Ok tt → state_held t = false).
Proof.
  intros Hr. eapply (wp_sound stop_ok _ (λ r t, r = Ok tt → state_held t = false) []) in Hr as [HQ Hok].
  { split; [|exact HQ]. intros t1 e t2 Ht. by apply (Hok t1 e t2). }
  clear t r Hr. unfold stop.
  apply stop_quiet_bind; [unfold refuse_root_euid, exit1; by calls_tac|done|]. intros [] t1 H1.
  apply stop_quiet_bind; [unfold require_per_user_state_initialized, exit1; by calls_tac|done|]. intros [] t2 H2.
  apply stop_quiet_bind; [unfold lookup_instance_or_exit, exit1; by calls_tac|done|]. intros instance_dir t3 H3.
  apply stop_quiet_bind; [by calls_tac|done|]. intros config t4 H4.
  apply stop_quiet_bind; [unfold resolve_full_host_config, exit1; by calls_tac|done|]. intros host_config t5 H5.
  apply stop_quiet_bind; [by calls_tac|done|]. intros host_user t6 H6.
  apply stop_quiet_bind; [unfold warm_check, container_status; by calls_tac|done|]. intros warm t7 H7.
  rewrite H6, H5, H4, H3, H2, H1 in H7. clear H1 H2 H3 H4 H5 H6.
  match type of H7 with state_held ?l = _ => generalize dependent l; intros t Hs end.
  destruct warm; cbn [negb]; [|by intros _].
  unfold acquire_or_exit. apply wp_bind, wp_catch; wp_call; [done|].
  intros [[]|e]; [|by destruct (bool_decide _)].
  unfold refuse_backup_holding_lock. apply wp_bind, wp_bind; wp_call; [done|]. intros [[]|]; [done| |done].
  cbn [when wp mret prog_ret]. unfold phase_stop_teardown, compose_down. apply wp_bind, wp_bind, wp_bind.
  destruct (minimal_host_config _ _) as [c|]; [|done]. unfold lift; cbn [wp]. wp_call.
  { intros _. split_and!; [by rewrite !state_held_app, Hs|set_solver|done]. }
  intros [[]|]; [|done]. apply wp_bind. rewrite <- !app_assoc.
  set (t0 := t ++ _). assert (state_held t0 = true) as Hs0 by (unfold t0; by rewrite state_held_app, Hs).
  assert (Ev (BackupLockHeld inst) (Ok false) ∈ t0) as Hb0 by (unfold t0; set_solver).
  assert (came_down t0) as Hd0 by (unfold t0; eexists _, c; apply elem_of_app; right; do 2 apply list_elem_of_further; apply list_elem_of_here). clearbody t0.
  apply stop_after_down; [unfold phase_unlink; by calls_tac|done..|]. intros [[]|] t' Hs' Hd'; [|done].
  apply stop_after_down; [unfold revoke_acls; by calls_tac|done|set_solver|done|].
  intros [[]|] t'' _ _; [|done]. split; [done|]. intros a _. by rewrite state_held_app.
Qed.
End stop_order.

(** ** Concrete runs *)

Definition demo_dir : string := "/home/alice/.sandbox-ai/instances/i".

(** The demo host, with the instance under the prefix. *)
Definition demo_destroy_env (bad : cli_call → option exn) (t : trace answer) (c : cli_call) : res (answer c) :=
  match c return res (answer c) with
  | RegistryGet _ => Ok (Some demo_dir)
  | c => demo_env bad t c
  end.

Definition is_rmtree (c : cli_call) : bool := match c with Rmtree _ => true | _ => false end.


(** Every operation that may fail fails. *)
Lemma destroy_finishes_witness :
  let bad c := match c with
    | Invoke _ _ _ | Exec _ => Some (SandboxExecutionError "x" false)
    | UnlinkFile _ | Rmdir _ => Some OSError
    | Rmtree p => Some (if String.eqb p "/i" then FileNotFoundError else OSError)
    | ReleaseSlot _ | RegistryRemove _ => Some RuntimeError
    | _ => None end in
  ∃ t r, (t, r) = run_env (demo_env bad) (destroy_irreversible demo_ids "i" "/i" "sandbox" demo_config SEPARATE_USER) [] ∧
    r = Ok tt ∧ succeeded t = [] ∧ last (made t) = Some (RegistryRemove "i").
Proof.
  intros bad.
  pose proof (run_env_runs (demo_env bad) (destroy_irreversible demo_ids "i" "/i" "sandbox" demo_config SEPARATE_USER) []) as Hruns.
  destruct (helper_cp_chown_plan demo_ids "/i" "sandbox") as [plan|] eqn:Hp; [|vm_compute in Hp; discriminate Hp].
  eexists _, _. split; [symmetry; apply surjective_pairing|].
  pose proof (destroy_finishes demo_ids "i" "/i" "sandbox" demo_config SEPARATE_USER _ _ Hruns) as Hf.
  rewrite Hp in Hf. destruct Hf as [Hr (t0 & Ht)]; [vm_compute; reflexivity|..].
  - rewrite Forall_fold_right. vm_compute. repeat split.
  - split; [exact Hr|]. split; [vm_compute; reflexivity|]. rewrite Ht, last_app. reflexivity.
Defined.

(** A running instance: the last call before the release is a revoke. *)
Lemma stop_in_order_witness :
  let env := λ (t : trace answer) c, match c return res (answer c) with
    | Probe "compose-ps" _ _ => Ok (MkProbe true false "R" "" None)
    | c => demo_env (λ _, None) t c end in
  ∃ t r t1 e t2,
    (t, r) = run_env env (stop demo_ids demo_loads "i" true) [] ∧
    t = t1 ++ e :: t2 ∧ List.length t2 = 1 ∧ mutates (ev_call e) = true ∧
    state_held t1 = true ∧ came_down t1 ∧ r = Ok tt ∧ state_held t = false.
Proof.
  intros env.
  pose proof (run_env_runs env (stop demo_ids demo_loads "i" true) []) as Hruns.
  set (x := run_env _ _ _) in Hruns.
  assert (∃ n e t2, x.1 = take n x.1 ++ e :: t2 ∧ List.length t2 = 1 ∧
    (if ev_call e is Exec _ then true else false) = true) as (n & e & t2 & Ht & Hl & He).
  { exists (List.length (made x.1) - 2). vm_compute. eexists _, _. split_and!; reflexivity. }
  assert (x.2 = Ok tt) as Hx by (vm_compute; reflexivity).
  exists x.1, x.2, (take n x.1), e, t2. split; [symmetry; apply surjective_pairing|]. split; [exact Ht|].
  split; [exact Hl|].
  destruct (stop_in_order demo_ids demo_loads "i" true x.1 x.2 Hruns) as [H1 H2].
  assert (mutates (ev_call e) = true) as Hm by (clear -He; destruct (ev_call e); discriminate He || reflexivity).
  destruct (H1 _ _ _ Ht Hm) as (Hs & _ & Hd). split_and!; [exact Hm|exact Hs| |exact Hx|exact (H2 Hx)].
  clear -He Hd. destruct (ev_call e); discriminate He || exact Hd.
Defined.
