(* ===== verification/Workspaces.v ===== *)
(** * cli.main: the workspace commands; core.scaffold: mutate_workspaces

    [abspath] is [os.path.abspath].  A workspace table of sandbox.toml is an
    association list in the file's order, a table in it a map from its keys to
    their texts; both have no key twice. *)
From stdpp Require Import sorting.
From S2P Require Import Prelude PyStr HostConfig Json Images Dispatch Preflight Doctor PrivilegeBoundary Recipes Secrets Interact Cli Lifecycle Teardown.
From Stdlib Require Import Ascii String.
Open Scope nat_scope.

(** ** Names and flags *)

Definition RESERVED_NAMES : list string :=
  ["_backups"; "default"; "all"; "none"; "system"; "isolated"; "core_proxy"; "dns"; "egress"; "ipc"].
Definition WORKSPACE_NAME_MAX : nat := 32.

Definition validate_name (name : string) (max_len : nat) : res unit :=
  _ ← require (nonempty name) BadParameter;
  _ ← require (str_len name <=? max_len) BadParameter;
  _ ← require (negb (startswith "-" name || startswith "_" name)) BadParameter;
  _ ← require (INSTANCE_NAME_REGEX name) BadParameter;
  require (negb (mem name RESERVED_NAMES)) BadParameter.

Section flags.
Context (abspath : string → string) (workspaces_root : string).

Definition fresh_name (name : string) (seen : list string) : res unit :=
  _ ← validate_name name WORKSPACE_NAME_MAX; require (negb (mem name seen)) BadParameter.

Fixpoint parse_copy_specs (raws : list string) (seen : list string)
    : res (list WorkspaceSpec * list string) :=
  match raws with
  | [] => Ok ([], seen)
  | raw :: raws =>
      _ ← require (has_char "=" raw) BadParameter;
      let '(name, _, src) := partition_char "=" raw in
      _ ← require (nonempty name && nonempty src) BadParameter;
      _ ← fresh_name name seen;
      '(specs, seen) ← parse_copy_specs raws (name :: seen);
      Ok (MkSpec name "copy" (Some (abspath src)) (path_join workspaces_root name) :: specs, seen)
  end.

Fixpoint parse_empty_specs (names : list string) (seen : list string) : res (list WorkspaceSpec) :=
  match names with
  | [] => Ok []
  | name :: names =>
      _ ← fresh_name name seen;
      specs ← parse_empty_specs names (name :: seen);
      Ok (MkSpec name "empty" None (path_join workspaces_root name) :: specs)
  end.

Definition parse_workspace_flags (copy_specs empty_specs : list string) : res (list WorkspaceSpec) :=
  let empty_specs := match copy_specs, empty_specs with [], [] => ["main"] | _, _ => empty_specs end in
  '(copies, seen) ← parse_copy_specs copy_specs [];
  empties ← parse_empty_specs empty_specs seen;
  Ok (copies ++ empties)%list.
End flags.

(** ** The workspace table of sandbox.toml *)

Abbreviation toml_table := (gmap string string).
Abbreviation workspace_tables := (list (string * toml_table)).

(** The fields that a spec sets in its table. *)
Definition set_fields (s : WorkspaceSpec) (sub : toml_table) : toml_table :=
  let sub := <["bootstrap_mode" := ws_bootstrap_mode s]> sub in
  let sub := match ws_source s with Some src => <["source" := src]> sub | None => delete "source" sub end in
  <["path" := ws_path s]> sub.

Definition spec_le (s1 s2 : WorkspaceSpec) : Prop := String.compare (ws_name s1) (ws_name s2) ≠ Gt.
#[export] Instance spec_le_dec s1 s2 : Decision (spec_le s1 s2).
Proof. unfold spec_le. solve_decision. Defined.

(** A survivor is updated in its place, another spec is appended. *)
Fixpoint put_spec (s : WorkspaceSpec) (t : workspace_tables) : workspace_tables :=
  match t with
  | [] => [(ws_name s, set_fields s ∅)]
  | (name, sub) :: t =>
      if String.eqb name (ws_name s) then (name, set_fields s sub) :: t else (name, sub) :: put_spec s t
  end.

Definition mutate_workspaces (specs : list WorkspaceSpec) (ws_table : workspace_tables) : workspace_tables :=
  foldl (λ t s, put_spec s t)
    (List.filter (λ e, mem (fst e) (map ws_name specs)) ws_table)
    (merge_sort spec_le specs).

(** The workspaces that a table denotes. *)
Definition spec_of (e : string * toml_table) : option WorkspaceSpec :=
  mode ← snd e !! "bootstrap_mode"; p ← snd e !! "path";
  Some (MkSpec (fst e) mode (snd e !! "source") p).

(** ** The commands *)

Definition spec_of_config (w : string * WorkspaceEntry) : WorkspaceSpec :=
  MkSpec (fst w) (bootstrap_mode (snd w)) (source (snd w)) (path (snd w)).

(** The copies a request asks for: [(source, path)]. *)
Definition copies (specs : list WorkspaceSpec) : list (string * string) :=
  omap (λ s, if String.eqb (ws_bootstrap_mode s) "copy"
             then src ← ws_source s; Some (src, ws_path s) else None) specs.

Definition has_workspace (name : string) (config : InstanceConfig) : bool :=
  mem name (map fst (workspaces config)).

Section commands.
Context (h : host_env) (loads : string → option JsonValue) (abspath : string → string) (inst : string).

Definition workspaces_root : string := path_join3 (sandbox_ai_home h) "workspaces" inst.

(** [try: ... finally: _release_lock(lock_fd)], after taking the lock. *)
Definition with_state_lock (body : cmd unit) : cmd unit :=
  _ ← acquire_or_exit; finally_do body release_lock.

Definition workspace_add (copy empty : list string) : cmd unit :=
  _ ← refuse_root_euid;
  _ ← require_per_user_state_initialized;
  _ ← when (bool_decide (copy = []) && bool_decide (empty = [])) exit1;
  instance_dir ← lookup_instance_or_exit inst;
  config ← do (LoadConfig instance_dir);
  new_specs ← lift (parse_workspace_flags abspath workspaces_root copy empty);
  _ ← when (existsb (λ s, has_workspace (ws_name s) config) new_specs) exit1;
  _ ← for_each (copies new_specs) (λ c, do (PreflightSource (fst c)));
  _ ← require_instance_stopped h loads inst instance_dir;
  _ ← refuse_if_backup_in_progress inst;
  with_state_lock (
    _ ← for_each new_specs (λ s, do (Makedirs (ws_path s)));
    _ ← for_each (copies new_specs) (λ '(src, p), _ ← do (CopyWorkspace src p); do (Chmod p 448));
    do (MutateWorkspaces instance_dir (map spec_of_config (workspaces config) ++ new_specs)%list)).

(** [response.strip().lower() not in ("n", "no")] *)
Definition wants_backup (response : string) : bool := negb (mem (lower (strip response)) ["n"; "no"]).

Definition removal_question (ws : string) : string :=
  "Backup workspace '" +:+ ws +:+ "' before removing? [Y/n]".

Definition workspace_remove (ws : string) (backup purge : bool) : cmd unit :=
  _ ← refuse_root_euid;
  _ ← require_per_user_state_initialized;
  _ ← when (backup && purge) exit1;
  instance_dir ← lookup_instance_or_exit inst;
  config ← do (LoadConfig instance_dir);
  _ ← when (negb (has_workspace ws config)) exit1;
  _ ← when ((List.length (workspaces config) =? 1) && has_workspace ws config) exit1;
  backup ← (if backup || purge then mret backup
            else tty ← do StdinIsTty;
                 if (tty : bool) then response ← do (Prompt (removal_question ws)); mret (wants_backup response)
                 else exit1);
  _ ← require_instance_stopped h loads inst instance_dir;
  _ ← when (negb backup) (refuse_if_backup_in_progress inst);
  target ← lift (match assoc ws (workspaces config) with Some w => Ok w | None => Err KeyError end);
  _ ← when backup
        (catch (do (CreateBackup inst ws (path target) (bootstrap_mode target) true))
           (λ e, if is_backup_error e then exit1 else raise e));
  with_state_lock (
    _ ← do (Rmtree (path target));
    do (MutateWorkspaces instance_dir
          (map spec_of_config (List.filter (λ w, negb (String.eqb (fst w) ws)) (workspaces config))))).

Definition workspace_rename (old new : string) : cmd unit :=
  _ ← refuse_root_euid;
  _ ← require_per_user_state_initialized;
  _ ← when (String.eqb old new) exit1;
  _ ← lift (validate_name new WORKSPACE_NAME_MAX);
  instance_dir ← lookup_instance_or_exit inst;
  config ← do (LoadConfig instance_dir);
  _ ← when (negb (has_workspace old config)) exit1;
  _ ← when (has_workspace new config) exit1;
  _ ← require_instance_stopped h loads inst instance_dir;
  _ ← refuse_if_backup_in_progress inst;
  old_spec ← lift (match assoc old (workspaces config) with Some w => Ok w | None => Err KeyError end);
  let new_path := path_join workspaces_root new in
  with_state_lock (
    _ ← catch (do (Rename (path old_spec) new_path))
          (λ e, if bool_decide (e = CrossDeviceError) then exit1 else raise e);
    do (MutateWorkspaces instance_dir
          (map (λ w, if String.eqb (fst w) old
                     then MkSpec new (bootstrap_mode (snd w)) (source (snd w)) new_path
                     else spec_of_config w) (workspaces config)))).

Definition workspace_restore (ws : string) (from_spec : option string) : cmd unit :=
  _ ← refuse_root_euid;
  _ ← require_per_user_state_initialized;
  _ ← lift (validate_name ws WORKSPACE_NAME_MAX);
  instance_dir ← lookup_instance_or_exit inst;
  config ← do (LoadConfig instance_dir);
  _ ← when (has_workspace ws config) exit1;
  backup ← catch (do (ResolveBackup from_spec ws)) (λ e,
             if bool_decide (e ∈ [BackupSpecAmbiguousError; BackupSpecNotFoundError]) then exit1 else raise e);
  _ ← require_instance_stopped h loads inst instance_dir;
  _ ← refuse_if_backup_in_progress inst;
  with_state_lock (
    new_path ← do (RestoreBackup backup inst ws);
    do (MutateWorkspaces instance_dir
          (map spec_of_config (workspaces config) ++ [MkSpec ws "copy" (Some backup) new_path])%list)).

Inductive workspace_command :=
  | WsAdd (copy empty : list string)
  | WsRemove (ws : string) (backup purge : bool)
  | WsRename (old new : string)
  | WsRestore (ws : string) (from_spec : option string).

Definition workspace (c : workspace_command) : cmd unit :=
  match c with
  | WsAdd copy empty => workspace_add copy empty
  | WsRemove ws backup purge => workspace_remove ws backup purge
  | WsRename old new => workspace_rename old new
  | WsRestore ws from_spec => workspace_restore ws from_spec
  end.
End commands.

(** ** The table after an edit *)

Open Scope list_scope.

Lemma put_spec_names s t :
  map fst (put_spec s t) = if mem (ws_name s) (map fst t) then map fst t else map fst t ++ [ws_name s].
Proof.
  unfold mem. induction t as [|[k sub] t IH]; [done|]. cbn. rewrite (String.eqb_sym (ws_name s) k).
  destruct (String.eqb k (ws_name s)); cbn; [done|]. rewrite IH. by destruct (existsb _ _).
Qed.

Lemma put_spec_assoc s t k :
  assoc k (put_spec s t) = if String.eqb k (ws_name s)
    then Some (set_fields s (default ∅ (assoc k t))) else assoc k t.
Proof.
  induction t as [|[k' sub] t IH]; cbn.
  - by destruct (String.eqb k (ws_name s)).
  - destruct (String.eqb_spec k' (ws_name s)) as [->|Hn]; cbn.
    + by destruct (String.eqb k (ws_name s)).
    + destruct (String.eqb_spec k k') as [->|]; [|done]. by destruct (String.eqb_spec k' (ws_name s)).
Qed.

(** Putting specs with distinct names, one after another. *)
Lemma put_specs_names l t : NoDup (map ws_name l) →
  map fst (foldl (λ t s, put_spec s t) t l) =
    map fst t ++ List.filter (λ n, negb (mem n (map fst t))) (map ws_name l).
Proof.
  revert t; induction l as [|s l IH]; intros t; cbn; [by rewrite app_nil_r|].
  intros [Hs Hl]%NoDup_cons. rewrite IH, put_spec_names by done.
  destruct (mem (ws_name s) (map fst t)) eqn:E; cbn; [done|]. rewrite <- app_assoc. cbn. do 2 f_equal.
  apply List.filter_ext_in. intros n Hn%list_elem_of_In. f_equal. unfold mem. rewrite existsb_app. cbn.
  destruct (String.eqb_spec n (ws_name s)) as [->|]; [done|]. by rewrite !orb_false_r.
Qed.

Lemma put_specs_assoc_other l t k : k ∉ map ws_name l →
  assoc k (foldl (λ t s, put_spec s t) t l) = assoc k t.
Proof.
  revert t; induction l as [|s l IH]; intros t; cbn; [done|]. intros [Hs Hl]%not_elem_of_cons.
  rewrite IH, put_spec_assoc by done. by destruct (String.eqb_spec k (ws_name s)).
Qed.

Lemma put_specs_assoc l t s : NoDup (map ws_name l) → s ∈ l →
  assoc (ws_name s) (foldl (λ t s, put_spec s t) t l) =
    Some (set_fields s (default ∅ (assoc (ws_name s) t))).
Proof.
  revert t; induction l as [|s' l IH]; intros t; cbn; [set_solver|].
  intros [Hs Hl]%NoDup_cons [->|Hin]%elem_of_cons.
  - rewrite put_specs_assoc_other, put_spec_assoc by done. by rewrite String.eqb_refl.
  - rewrite IH, put_spec_assoc by done. destruct (String.eqb_spec (ws_name s) (ws_name s')) as [E|]; [|done].
    destruct Hs. rewrite <- E. apply list_elem_of_fmap. by exists s.
Qed.

Lemma assoc_filter {A} (p : string → bool) (t : list (string * A)) k :
  assoc k (List.filter (λ e, p (fst e)) t) = if p k then assoc k t else None.
Proof.
  induction t as [|[k' a] t IH]; cbn; [by destruct (p k)|].
  destruct (p k') eqn:E; cbn; rewrite IH; destruct (String.eqb_spec k k') as [->|]; rewrite ?E; done.
Qed.

(** The names of a table, in order. *)
Definition names (t : workspace_tables) : list string := map fst t.

Lemma set_fields_spec s sub :
  spec_of (ws_name s, set_fields s sub) = Some s ∧
  ∀ k, k ∉ ["bootstrap_mode"; "source"; "path"] → set_fields s sub !! k = sub !! k.
Proof.
  unfold spec_of, set_fields. destruct s as [n m src p]; cbn. split.
  - destruct src; by simplify_map_eq.
  - intros k Hk. rewrite !not_elem_of_cons in Hk. destruct Hk as (? & ? & ? & _).
    destruct src; by simplify_map_eq.
Qed.

Lemma mutate_absent specs t n : n ∉ map ws_name specs → assoc n (mutate_workspaces specs t) = None.
Proof.
  intros Hn. unfold mutate_workspaces.
  rewrite put_specs_assoc_other by (by rewrite (merge_sort_Permutation spec_le specs)).
  rewrite (assoc_filter (λ n, mem n (map ws_name specs))).
  destruct (mem n (map ws_name specs)) eqn:E; [|done]. by apply mem_spec in E.
Qed.

Lemma mutate_present specs t s : NoDup (map ws_name specs) → s ∈ specs →
  assoc (ws_name s) (mutate_workspaces specs t) = Some (set_fields s (default ∅ (assoc (ws_name s) t))).
Proof.
  intros Hnd Hs. unfold mutate_workspaces.
  rewrite put_specs_assoc; [|by rewrite (merge_sort_Permutation spec_le specs)..].
  rewrite (assoc_filter (λ n, mem n (map ws_name specs))).
  assert (mem (ws_name s) (map ws_name specs) = true) as ->
    by (apply mem_spec, list_elem_of_fmap; by exists s). done.
Qed.

(** Editing the workspaces of sandbox.toml is exact.  For specs with
    distinct names, the new table has exactly their names: the survivors first,
    in the file's order, then the new ones sorted.  Each table reads back as
    its spec, and a survivor keeps every key that is not a field of the spec;
    no other name is left. *)
Theorem mutate_workspaces_exact specs t : NoDup (map ws_name specs) →
  let t' := mutate_workspaces specs t in
  names t' = List.filter (λ n, mem n (map ws_name specs)) (names t) ++
             List.filter (λ n, negb (mem n (names t))) (map ws_name (merge_sort spec_le specs)) ∧
  (∀ s, s ∈ specs → ∃ sub, assoc (ws_name s) t' = Some sub ∧ spec_of (ws_name s, sub) = Some s ∧
     ∀ k, k ∉ ["bootstrap_mode"; "source"; "path"] → sub !! k = default ∅ (assoc (ws_name s) t) !! k) ∧
  ∀ n, n ∉ map ws_name specs → assoc n t' = None.
Proof.
  intros Hnd t'. split_and!.
  - assert (merge_sort spec_le specs ≡ₚ specs) as Hp by apply merge_sort_Permutation.
    assert (map fst (List.filter (λ e, mem (fst e) (map ws_name specs)) t) =
            List.filter (λ n, mem n (map ws_name specs)) (map fst t)) as Hf.
    { clear. induction t as [|[k sub] t IH]; cbn; [done|]. destruct (mem k _); cbn; by rewrite IH. }
    unfold t', mutate_workspaces, names. rewrite put_specs_names, Hf by (by rewrite Hp).
    f_equal. apply List.filter_ext_in. intros n Hn%list_elem_of_In. rewrite Hp in Hn.
    f_equal. apply eq_true_iff_eq. rewrite !mem_spec, list_elem_of_In, List.filter_In, <- list_elem_of_In.
    rewrite mem_spec. tauto.
  - intros s Hs. eexists. split; [by apply mutate_present|]. apply set_fields_spec.
  - intros n. apply mutate_absent.
Qed.

(** Replacing by the specs of a table read earlier drops what was added since. *)
Lemma mutate_loses_concurrent (old new added : list WorkspaceSpec) t n :
  NoDup (map ws_name (old ++ added)) → NoDup (map ws_name (old ++ new)) →
  n ∈ map ws_name added → n ∉ map ws_name (old ++ new) →
  is_Some (assoc n (mutate_workspaces (old ++ added) t)) ∧
  assoc n (mutate_workspaces (old ++ new) (mutate_workspaces (old ++ added) t)) = None.
Proof.
  intros H1 H2 Hn Hn'. split.
  - apply list_elem_of_fmap in Hn as (s & -> & Hs). rewrite mutate_present; [done..|]. set_solver.
  - by apply mutate_absent.
Qed.

Lemma mutate_workspaces_exact_witness :
  let old := [("b", {[ "bootstrap_mode" := "empty"; "path" := "/w/b"; "note" := "keep" ]} : toml_table);
              ("a", {[ "bootstrap_mode" := "empty"; "path" := "/w/a" ]})] in
  let specs := [MkSpec "c" "copy" (Some "/src") "/w/c"; MkSpec "b" "copy" (Some "/x") "/w/b"] in
  NoDup (map ws_name specs) ∧ names (mutate_workspaces specs old) = ["b"; "c"] ∧
  omap spec_of (mutate_workspaces specs old) = rev specs ∧
  ∃ sub, assoc "b" (mutate_workspaces specs old) = Some sub ∧ sub !! "note" = Some "keep".
Proof.
  intros old specs. assert (NoDup (map ws_name specs)) as Hnd by (by apply (bool_decide_unpack _)).
  split; [exact Hnd|]. destruct (mutate_workspaces_exact specs old Hnd) as (Hn & Hs & _).
  split; [rewrite Hn; vm_compute; reflexivity|]. split; [vm_compute; reflexivity|].
  destruct (Hs (MkSpec "b" "copy" (Some "/x") "/w/b")) as (sub & H1 & _ & H2); [right; left|].
  exists sub. split; [exact H1|]. rewrite H2 by (by apply (bool_decide_unpack _)). vm_compute. reflexivity.
Defined.

(** ** What a command edits *)

(** No name is requested twice, and each is placed under the root. *)
Lemma parse_copy_sound abspath root raws seen specs seen' :
  parse_copy_specs abspath root raws seen = Ok (specs, seen') →
  seen' = rev (map ws_name specs) ++ seen ∧ NoDup (map ws_name specs) ∧
  Forall (λ s, ws_name s ∉ seen ∧ validate_name (ws_name s) WORKSPACE_NAME_MAX = Ok tt ∧
     ws_bootstrap_mode s = "copy" ∧ ws_path s = path_join root (ws_name s)) specs.
Proof.
  revert seen specs; induction raws as [|raw raws IH]; intros seen specs; cbn [parse_copy_specs].
  { intros [= <- <-]. split_and!; [done|constructor..]. }
  intros H. apply res_bind_Ok in H as ([] & _ & H). destruct (partition_char "=" raw) as [[name sep] src].
  apply res_bind_Ok in H as ([] & _ & H). apply res_bind_Ok in H as ([] & Hf & H).
  apply res_bind_Ok in H as ([specs' seen''] & Hr & [= <- <-]).
  unfold fresh_name in Hf. apply res_bind_Ok in Hf as ([] & Hv & Hm%require_Ok).
  apply negb_true_iff, not_true_iff_false in Hm. rewrite mem_spec in Hm.
  destruct (IH _ _ Hr) as (-> & Hnd & Hall). cbn. split_and!.
  - by rewrite <- app_assoc.
  - constructor; [|done]. intros (s & -> & Hs)%list_elem_of_fmap. rewrite Forall_forall in Hall.
    destruct (Hall s Hs) as [Hs' _]. set_solver.
  - constructor; [by split_and!|]. eapply Forall_impl; [exact Hall|]. cbn. intros sp (? & ? & ? & ?). set_solver.
Qed.

Lemma parse_empty_sound root raws seen specs :
  parse_empty_specs root raws seen = Ok specs →
  NoDup (map ws_name specs) ∧ map ws_name specs = raws ∧
  Forall (λ s, ws_name s ∉ seen ∧ validate_name (ws_name s) WORKSPACE_NAME_MAX = Ok tt ∧
     ws_bootstrap_mode s = "empty" ∧ ws_path s = path_join root (ws_name s)) specs.
Proof.
  revert seen specs; induction raws as [|name raws IH]; intros seen specs; cbn [parse_empty_specs].
  { intros [= <-]. split_and!; [constructor|done|constructor]. }
  intros H. apply res_bind_Ok in H as ([] & Hf & H). apply res_bind_Ok in H as (specs' & Hr & [= <-]).
  unfold fresh_name in Hf. apply res_bind_Ok in Hf as ([] & Hv & Hm%require_Ok).
  apply negb_true_iff, not_true_iff_false in Hm. rewrite mem_spec in Hm.
  destruct (IH _ _ Hr) as (Hnd & <- & Hall). cbn. split_and!; [|done|].
  - constructor; [|done]. intros (s & -> & Hs)%list_elem_of_fmap. rewrite Forall_forall in Hall.
    destruct (Hall s Hs) as [Hs' _]. set_solver.
  - constructor; [by split_and!|]. eapply Forall_impl; [exact Hall|]. cbn. intros sp (? & ? & ? & ?). set_solver.
Qed.

Lemma parse_flags_sound abspath root copy empty specs :
  parse_workspace_flags abspath root copy empty = Ok specs →
  specs ≠ [] ∧ NoDup (map ws_name specs) ∧
  Forall (λ s, validate_name (ws_name s) WORKSPACE_NAME_MAX = Ok tt ∧
     ws_path s = path_join root (ws_name s)) specs.
Proof.
  unfold parse_workspace_flags.
  intros ([cs seen] & Hc & (es & He & [= <-])%res_bind_Ok)%res_bind_Ok.
  pose proof (parse_copy_sound _ _ _ _ _ _ Hc) as (-> & Hnc & Hac).
  destruct (parse_empty_sound _ _ _ _ He) as (Hne & Hme & Hae). split_and!.
  - destruct cs; [|done]. destruct es; [|done]. cbn in Hme. destruct copy as [|raw copy].
    + by destruct empty.
    + cbn [parse_copy_specs] in Hc. apply res_bind_Ok in Hc as ([] & _ & Hc).
      destruct (partition_char "=" raw) as [[name sep] src]. apply res_bind_Ok in Hc as ([] & _ & Hc).
      apply res_bind_Ok in Hc as ([] & _ & Hc). by apply res_bind_Ok in Hc as ([] & _ & Hc).
  - rewrite map_app. apply NoDup_app. split_and!; [done| |done].
    intros n Hn (s & -> & Hs)%list_elem_of_fmap. rewrite Forall_forall in Hae.
    destruct (Hae s Hs) as [H _]. apply H. rewrite app_nil_r. apply list_elem_of_In, in_rev.
    by rewrite rev_involutive, <- list_elem_of_In.
  - apply Forall_app. split; (eapply Forall_impl; [eassumption|]); cbn; naive_solver.
Qed.

Section guarded.
Context (h : host_env) (loads : string → option JsonValue) (abspath : string → string) (inst : string)
  (cmd0 : workspace_command).

(** A removal is backed up, or the user did not want that. *)
Definition removal_backed (t : trace answer) (ws : string) (w : WorkspaceEntry) (backup purge : bool) : Prop :=
  Ev (CreateBackup inst ws (path w) (bootstrap_mode w) true) (Ok tt) ∈ t ∨
  backup = false ∧ (purge = true ∨
    ∃ response, Ev (Prompt (removal_question ws)) (Ok response) ∈ t ∧ wants_backup response = false).

(** The changes that a command may make to the instance at [instance_dir] with
    the configuration it read, and what must have succeeded before each. *)
Definition edit (instance_dir : string) (config : InstanceConfig) (t : trace answer) (c : cli_call) : Prop :=
  match cmd0 with
  | WsAdd copy empty => ∃ new,
      parse_workspace_flags abspath (workspaces_root h inst) copy empty = Ok new ∧
      existsb (λ s, has_workspace (ws_name s) config) new = false ∧
      match c with
      | Makedirs p => p ∈ map ws_path new
      | CopyWorkspace src p => (src, p) ∈ copies new
      | Chmod p mode => mode = 448%Z ∧ ∃ src, (src, p) ∈ copies new ∧ Ev (CopyWorkspace src p) (Ok tt) ∈ t
      | MutateWorkspaces d specs => d = instance_dir ∧
          specs = map spec_of_config (workspaces config) ++ new ∧
          (∀ s, s ∈ new → Ev (Makedirs (ws_path s)) (Ok tt) ∈ t) ∧
          (∀ src p, (src, p) ∈ copies new → Ev (CopyWorkspace src p) (Ok tt) ∈ t ∧ Ev (Chmod p 448) (Ok tt) ∈ t)
      | _ => False
      end
  | WsRemove ws backup purge => ∃ w,
      assoc ws (workspaces config) = Some w ∧ List.length (workspaces config) ≠ 1 ∧
      match c with
      | CreateBackup i ws' src mode lock =>
          i = inst ∧ ws' = ws ∧ src = path w ∧ mode = bootstrap_mode w ∧ lock = true
      | Rmtree p => p = path w ∧ removal_backed t ws w backup purge
      | MutateWorkspaces d specs => d = instance_dir ∧
          specs = map spec_of_config (List.filter (λ w, negb (String.eqb (fst w) ws)) (workspaces config)) ∧
          Ev (Rmtree (path w)) (Ok tt) ∈ t ∧ removal_backed t ws w backup purge
      | _ => False
      end
  | WsRename old new => ∃ w,
      let new_path := path_join (workspaces_root h inst) new in
      validate_name new WORKSPACE_NAME_MAX = Ok tt ∧
      assoc old (workspaces config) = Some w ∧ has_workspace new config = false ∧
      match c with
      | Rename a b => a = path w ∧ b = new_path
      | MutateWorkspaces d specs => d = instance_dir ∧
          specs = map (λ w, if String.eqb (fst w) old
                        then MkSpec new (bootstrap_mode (snd w)) (source (snd w)) new_path
                        else spec_of_config w) (workspaces config) ∧
          Ev (Rename (path w) new_path) (Ok tt) ∈ t
      | _ => False
      end
  | WsRestore ws from_spec => ∃ backup,
      validate_name ws WORKSPACE_NAME_MAX = Ok tt ∧ has_workspace ws config = false ∧
      Ev (ResolveBackup from_spec ws) (Ok backup) ∈ t ∧
      match c with
      | RestoreBackup b i ws' => b = backup ∧ i = inst ∧ ws' = ws
      | MutateWorkspaces d specs => d = instance_dir ∧ ∃ new_path,
          Ev (RestoreBackup backup inst ws) (Ok new_path) ∈ t ∧
          specs = map spec_of_config (workspaces config) ++ [MkSpec ws "copy" (Some backup) new_path]
      | _ => False
      end
  end.

(** The program ran, as a part of the trace, and did not exit. *)
Definition passed {A} (m : cmd A) (t : trace answer) : Prop :=
  ∃ t1 t2 t3 a, t = t1 ++ t2 ++ t3 ∧ runs m t2 (Ok a).

Definition changes (c : cli_call) : bool :=
  mutates c || match c with Makedirs _ => true | _ => false end.

(** The removal's own backup, which holds the backup lock while it runs. *)
Definition own_backup (config : InstanceConfig) (t : trace answer) : Prop :=
  ∃ ws backup purge w, cmd0 = WsRemove ws backup purge ∧ assoc ws (workspaces config) = Some w ∧
    Ev (CreateBackup inst ws (path w) (bootstrap_mode w) true) (Ok tt) ∈ t.

(** Before a change: the instance was found stopped, the change is one of the
    command's, and the state lock is held with no backup in progress; the
    command's own backup comes before the lock. *)
Definition ws_ready (t : trace answer) (c : cli_call) : Prop :=
  ∃ instance_dir config,
    Ev (RegistryGet inst) (Ok (Some instance_dir)) ∈ t ∧ Ev (LoadConfig instance_dir) (Ok config) ∈ t ∧
    passed (require_instance_stopped h loads inst instance_dir) t ∧
    edit instance_dir config t c ∧
    match c with
    | CreateBackup _ _ _ _ _ => True
    | _ => state_held t = true ∧ (passed (refuse_if_backup_in_progress inst) t ∨ own_backup config t)
    end.

Definition ws_ok (t : trace answer) (c : cli_call) : Prop := changes c = true → ws_ready t c.

(** Guards, questions and reads. *)
Definition asks (c : cli_call) : Prop := on_lock c = false ∧ changes c = false.

Abbreviation unlocked t := (Forall (λ e : event answer, on_lock (ev_call e) = false) t).
Abbreviation ends_unlocked m t := (wp ws_ok m (λ _ t', state_held t' = false) t).

Lemma unlocked_free t : unlocked t → state_held t = false.
Proof. intros Ht. by destruct (held_quiet [] t Ht). Qed.

(** A part that only asks: what follows may use its run. *)
Lemma asks_bind {A B} (m : cmd A) (f : A → cmd B) t : unlocked t → calls_in asks m →
  (∀ a t', runs m t' (Ok a) → unlocked (t ++ t') → ends_unlocked (f a) (t ++ t')) →
  ends_unlocked (m ≫= f) t.
Proof.
  intros Ht Hm Hf. apply wp_bind. eapply wp_mono; [|apply (wp_runs asks); [done|]].
  - intros r t' (t'' & -> & Hr & Ha). assert (unlocked (t ++ t'')) as Hu.
    { apply Forall_app. split; [done|]. eapply Forall_impl; [exact Ha|]. by intros ? []. }
    destruct r as [a|e]; [by apply Hf|]. by apply unlocked_free.
  - intros t' c [_ Hc]. unfold ws_ok. by rewrite Hc.
Qed.

Lemma passed_app {A} (m : cmd A) t t' : passed m t → passed m (t ++ t').
Proof.
  intros (t1 & t2 & t3 & a & -> & Hr). exists t1, t2, (t3 ++ t'), a. by rewrite <- !app_assoc.
Qed.

Lemma passed_here {A} (m : cmd A) t t' a : runs m t' (Ok a) → passed m (t ++ t').
Proof. intros Hr. exists t, t', [], a. by rewrite app_nil_r. Qed.

Lemma when_false b t : runs (when b exit1 : cmd unit) t (Ok tt) → b = false.
Proof. destruct b; [|done]. by intros [_ ?]%runs_Ret. Qed.

Lemma lift_Ok {A} (r : res A) t a : runs (lift r : cmd A) t (Ok a) → r = Ok a.
Proof. by intros [_ ?]%runs_Ret. Qed.

Lemma lookup_run t d : runs (lookup_instance_or_exit inst) t (Ok d) →
  Ev (RegistryGet inst) (Ok (Some d)) ∈ t.
Proof.
  intros (t1 & t2 & [d'|] & -> & ->%(@runs_perform _ answer (RegistryGet inst)) & [-> Hr]%runs_Ret)%runs_bind_Ok; [|done].
  injection Hr as ->. set_solver.
Qed.

(** What the body of the lock may call, given what was read. *)
Definition allowed (instance_dir : string) (config : InstanceConfig) (t : trace answer) (c : cli_call) : Prop :=
  on_lock c = false ∧ match c with CreateBackup _ _ _ _ _ => False | _ => edit instance_dir config t c end.

(** Calls that keep a promise leave a trace that keeps it. *)
Lemma wp_track {A} (P : cli_call → Prop) (ok ok' : trace answer → cli_call → Prop) (m : cmd A) Q t :
  (∀ t c, ok t c → P c) →
  (∀ t' c, Forall (λ e, P (ev_call e)) t' → ok (t ++ t') c → ok' (t ++ t') c) →
  wp ok m Q t → wp ok' m (λ r t'', ∃ t', t'' = t ++ t' ∧ Forall (λ e, P (ev_call e)) t' ∧ Q r t'') t.
Proof.
  intros HP. revert t; induction m as [r|c k IH]; intros t Hok; cbn [wp].
  - intros HQ. exists []. rewrite app_nil_r. split_and!; [done|constructor|done].
  - intros [Hc Hk]. split.
    { specialize (Hok [] c). rewrite app_nil_r in Hok. by apply Hok. }
    intros a. eapply wp_mono; [|apply IH; [|exact (Hk a)]].
    + intros r t'' (t' & -> & Ht' & HQ). exists (Ev c a :: t'). rewrite <- app_assoc in *.
      split_and!; [done|constructor; [by eapply HP|done]|done].
    + intros t' c' Ht'. rewrite <- app_assoc. apply Hok. constructor; [by eapply HP|done].
Qed.

Lemma locked_part instance_dir config body t : unlocked t →
  Ev (RegistryGet inst) (Ok (Some instance_dir)) ∈ t → Ev (LoadConfig instance_dir) (Ok config) ∈ t →
  passed (require_instance_stopped h loads inst instance_dir) t →
  (passed (refuse_if_backup_in_progress inst) t ∨ own_backup config t) →
  wp (allowed instance_dir config) body (λ _ _, True) (t ++ [Ev AcquireStateLock (Ok tt)]) →
  ends_unlocked (with_state_lock body) t.
Proof.
  intros Hu Hd Hc Hs Hb Hbody. unfold with_state_lock, acquire_or_exit.
  apply wp_bind, wp_catch; wp_call; [done|].
  assert (∀ a, state_held (t ++ [Ev AcquireStateLock a]) = is_ok a) as Hh
    by (intros a; rewrite state_held_app, (unlocked_free t Hu); by destruct a).
  intros [[]|e]; [|by destruct (bool_decide _); exact (Hh (Err e))].
  specialize (Hh (Ok tt)). cbn [is_ok] in Hh.
  apply wp_finally. eapply wp_mono; [|eapply (wp_track (λ c, on_lock c = false)); [| |exact Hbody]].
  - intros r t'' (t' & -> & Hq & _).
    unfold release_lock. split; [done|]. intros a. cbn [wp mret prog_ret].
    assert (state_held ((((t ++ [Ev AcquireStateLock (Ok tt)]) ++ t') ++ [Ev ReleaseStateLock a])) = false)
      by (by rewrite (state_held_app (_ ++ t'))). by destruct r.
  - by intros t' c [Hl _].
  - intros t' c Hq [Hl Hcall] _.
    exists instance_dir, config. rewrite <- app_assoc in *. split_and!; [set_solver..|by apply passed_app| |].
    { by destruct c. }
    assert (state_held (t ++ [Ev AcquireStateLock (Ok tt)] ++ t') = true) as Hh'
      by (rewrite app_assoc; by rewrite (proj1 (held_quiet _ t' Hq))).
    assert (passed (refuse_if_backup_in_progress inst) (t ++ [Ev AcquireStateLock (Ok tt)] ++ t') ∨
      own_backup config (t ++ [Ev AcquireStateLock (Ok tt)] ++ t')).
    { destruct Hb as [Hb|(ws & b & pu & w & H1 & H2 & Hb)]; [left; by apply passed_app|right].
      exists ws, b, pu, w. split_and!; [done..|]. apply elem_of_app. by left. }
    by destruct c.
Qed.
(** One step of the part before the lock. *)
Ltac ask := apply asks_bind;
  [ assumption
  | unfold refuse_root_euid, require_per_user_state_initialized, lookup_instance_or_exit,
      require_instance_stopped, resolve_full_host_config, warm_check, container_status,
      refuse_if_backup_in_progress, exit1; by calls_tac
  | match goal with H : Forall _ _ |- _ => clear H end ].

(** The body of add: directories, then copies, then the table. *)
Lemma add_body d config copy empty new t : cmd0 = WsAdd copy empty →
  parse_workspace_flags abspath (workspaces_root h inst) copy empty = Ok new →
  existsb (λ s, has_workspace (ws_name s) config) new = false →
  wp (allowed d config)
    (_ ← for_each new (λ s, do (Makedirs (ws_path s)));
     _ ← for_each (copies new) (λ '(src, p), _ ← do (CopyWorkspace src p); do (Chmod p 448));
     do (MutateWorkspaces d (map spec_of_config (workspaces config) ++ new))) (λ _ _, True) t.
Proof.
  intros Ec Hp Hd. assert (∀ t c, on_lock c = false → edit d config t c →
    match c with CreateBackup _ _ _ _ _ => False | _ => True end → allowed d config t c) as Hal
    by (intros t' c H1 H2 H3; split; [done|by destruct c]).
  apply wp_bind, (wp_for_each _ (λ l t, ∀ s, s ∈ l → Ev (Makedirs (ws_path s)) (Ok tt) ∈ t)); [set_solver|..].
  { intros l1 s l2 t' -> HI. wp_call.
    - apply Hal; [done| |done]. unfold edit. rewrite Ec. eexists. split_and!; [done..|].
      rewrite map_app. set_solver.
    - intros [[]|e]; [|done]. intros s' [Hs'|<-%list_elem_of_singleton]%elem_of_app; [set_solver|].
      apply elem_of_app. right. apply list_elem_of_here. }
  intros t1 H1. apply wp_bind, (wp_for_each _ (λ l t, (∀ s, s ∈ new → Ev (Makedirs (ws_path s)) (Ok tt) ∈ t) ∧
    ∀ src p, (src, p) ∈ l → Ev (CopyWorkspace src p) (Ok tt) ∈ t ∧ Ev (Chmod p 448) (Ok tt) ∈ t));
    [set_solver|..].
  { intros l1 [src p] l2 t' Hl [HI1 HI2]. assert ((src, p) ∈ copies new) as Hin by (rewrite Hl; set_solver).
    wp_call.
    { apply Hal; [done| |done]. unfold edit. rewrite Ec. by eexists. }
    intros [[]|e]; [|done]. wp_call.
    { apply Hal; [done| |done]. unfold edit. rewrite Ec. eexists. split_and!; [done..|].
      exists src. split; [done|]. apply elem_of_app. right. apply list_elem_of_here. }
    intros [[]|e]; [|done]. split; [set_solver|].
    intros src' p' [Hin'|[= -> ->]%list_elem_of_singleton]%elem_of_app.
    - destruct (HI2 _ _ Hin'). set_solver.
    - set_solver. }
  intros t2 [HI1 HI2]. wp_call; [|done]. apply Hal; [done| |done]. unfold edit. rewrite Ec. by eexists.
Qed.

Lemma add_guarded copy empty : cmd0 = WsAdd copy empty →
  ends_unlocked (workspace_add h loads abspath inst copy empty) [].
Proof.
  intros Ec. assert (unlocked []) as Hq by constructor. unfold workspace_add.
  ask. intros [] t1 _ Hq. ask. intros [] t2 _ Hq. ask. intros [] t3 _ Hq.
  ask. intros d t4 Hd%lookup_run Hq. ask. intros config t5 ->%(@runs_perform _ answer (LoadConfig d)) Hq.
  ask. intros new t6 Hnew%lift_Ok Hq. ask. intros [] t7 Hdis%when_false Hq. ask. intros [] t8 _ Hq.
  ask. intros [] t9 Hst Hq. ask. intros [] t10 Hbk Hq.
  apply (locked_part d config); [done|set_solver|set_solver| |left; by eapply passed_here|].
  - apply passed_app. by eapply passed_here.
  - by eapply add_body.
Qed.

Lemma assoc_lift_Ok ws (config : InstanceConfig) w :
  match assoc ws (workspaces config) with Some w => Ok w | None => Err KeyError end = Ok w →
  assoc ws (workspaces config) = Some w.
Proof. destruct (assoc ws (workspaces config)); [by intros [= ->]|done]. Qed.

Lemma rename_guarded old new : cmd0 = WsRename old new →
  ends_unlocked (workspace_rename h loads inst old new) [].
Proof.
  intros Ec. assert (unlocked []) as Hq by constructor. unfold workspace_rename.
  ask. intros [] t1 _ Hq. ask. intros [] t2 _ Hq. ask. intros [] t3 _ Hq. ask. intros [] t4 Hv%lift_Ok Hq.
  ask. intros d t5 Hd%lookup_run Hq. ask. intros config t6 ->%(@runs_perform _ answer (LoadConfig d)) Hq.
  ask. intros [] t7 Hold%when_false%negb_false_iff Hq. ask. intros [] t8 Hnew%when_false Hq.
  ask. intros [] t9 Hst Hq. ask. intros [] t10 Hbk Hq. ask. intros w t11 Hw%lift_Ok Hq.
  apply (locked_part d config); [done|set_solver|set_solver| |left; by apply passed_app; eapply passed_here|].
  - apply passed_app, passed_app. by eapply passed_here.
  - apply assoc_lift_Ok in Hw. apply wp_bind, wp_catch; wp_call.
    { split; [done|]. unfold edit. rewrite Ec. by exists w. }
    intros [[]|e]; [|by destruct (bool_decide _)]. wp_call; [|done].
    split; [done|]. unfold edit. rewrite Ec. exists w. split_and!; [done..|]. set_solver.
Qed.

Lemma resolve_run ws from_spec t backup :
  runs (catch (do (ResolveBackup from_spec ws)) (λ e,
    if bool_decide (e ∈ [BackupSpecAmbiguousError; BackupSpecNotFoundError]) then exit1 else raise e)) t (Ok backup) →
  Ev (ResolveBackup from_spec ws) (Ok backup) ∈ t.
Proof.
  intros [(b & [= <-] & ->%(@runs_perform _ answer (ResolveBackup from_spec ws)))|(t1 & t2 & e & -> & _ & H)]%runs_catch.
  - apply list_elem_of_here.
  - exfalso. destruct (bool_decide _); by apply runs_Ret in H as [_ ?].
Qed.

Lemma restore_guarded ws from_spec : cmd0 = WsRestore ws from_spec →
  ends_unlocked (workspace_restore h loads inst ws from_spec) [].
Proof.
  intros Ec. assert (unlocked []) as Hq by constructor. unfold workspace_restore.
  ask. intros [] t1 _ Hq. ask. intros [] t2 _ Hq. ask. intros [] t3 Hv%lift_Ok Hq.
  ask. intros d t4 Hd%lookup_run Hq. ask. intros config t5 ->%(@runs_perform _ answer (LoadConfig d)) Hq.
  ask. intros [] t6 Hnew%when_false Hq. ask. intros backup t7 Hres%resolve_run Hq.
  ask. intros [] t8 Hst Hq. ask. intros [] t9 Hbk Hq.
  apply (locked_part d config); [done|set_solver|set_solver| |left; by eapply passed_here|].
  - apply passed_app. by eapply passed_here.
  - wp_call.
    { split; [done|]. unfold edit. rewrite Ec. exists backup. split_and!; [done..| |done|done|done]. set_solver. }
    intros [new_path|e]; [|done]. wp_call; [|done].
    split; [done|]. unfold edit. rewrite Ec. exists backup. split_and!; [done..|set_solver|done|].
    exists new_path. split; [set_solver|done].
Qed.

(** When no backup is made, that was the choice. *)
Lemma removal_choice ws (backup purge b : bool) t :
  runs (if backup || purge then mret backup
        else tty ← do StdinIsTty;
             if (tty : bool) then response ← do (Prompt (removal_question ws)); mret (wants_backup response)
             else exit1 : cmd bool) t (Ok b) →
  b = true ∨ backup = false ∧ (purge = true ∨
    ∃ response, Ev (Prompt (removal_question ws)) (Ok response) ∈ t ∧ wants_backup response = false).
Proof.
  destruct backup; cbn [orb]; [intros [_ [= ->]]%runs_Ret; by left|].
  destruct purge; [intros _; right; split; [done|by left]|].
  intros (t1 & t2 & [] & -> & _ & H)%runs_bind_Ok; [|by apply runs_Ret in H as [_ ?]].
  apply runs_bind_Ok in H as (t3 & t4 & response & -> & Hr & H).
  apply (runs_perform (answer := answer) (Prompt (removal_question ws))) in Hr as ->.
  apply runs_Ret in H as [-> [= ->]].
  destruct (wants_backup response) eqn:E; [by left|right]. split; [done|right]. exists response.
  split; [set_solver|done].
Qed.

Lemma remove_body d config ws backup purge w t : cmd0 = WsRemove ws backup purge →
  assoc ws (workspaces config) = Some w → List.length (workspaces config) ≠ 1 →
  removal_backed t ws w backup purge →
  wp (allowed d config) (_ ← do (Rmtree (path w)); do (MutateWorkspaces d
    (map spec_of_config (List.filter (λ w, negb (String.eqb (fst w) ws)) (workspaces config))))) (λ _ _, True) t.
Proof.
  intros Ec Hw Hlen Hb. wp_call.
  { split; [done|]. unfold edit. rewrite Ec. by exists w. }
  intros [[]|e]; [|done]. wp_call; [|done]. split; [done|]. unfold edit. rewrite Ec. exists w.
  split_and!; [done..|set_solver|]. destruct Hb as [Hb|[Hf Hb]]; [left; set_solver|right]. split; [done|].
  destruct Hb as [Hb|(response & Hr & Hn)]; [by left|right]. exists response. split; [set_solver|done].
Qed.

Lemma remove_guarded ws backup purge : cmd0 = WsRemove ws backup purge →
  ends_unlocked (workspace_remove h loads inst ws backup purge) [].
Proof.
  intros Ec. assert (unlocked []) as Hq by constructor. unfold workspace_remove.
  ask. intros [] t1 _ Hq. ask. intros [] t2 _ Hq. ask. intros [] t3 _ Hq.
  ask. intros d t4 Hd%lookup_run Hq. ask. intros config t5 ->%(@runs_perform _ answer (LoadConfig d)) Hq.
  ask. intros [] t6 Hhas%when_false%negb_false_iff Hq. ask. intros [] t7 Hlast%when_false Hq.
  rewrite Hhas, andb_true_r in Hlast. apply Nat.eqb_neq in Hlast.
  ask. intros b t8 Hb%removal_choice Hq. ask. intros [] t9 Hst Hq. ask. intros [] t10 Hbk Hq.
  ask. intros w t11 Hw%lift_Ok%assoc_lift_Ok Hq.
  assert (passed (require_instance_stopped h loads inst d)
    (((((((((((([] ++ t1) ++ t2) ++ t3) ++ t4) ++ [Ev (LoadConfig d) (Ok config)]) ++ t6) ++ t7) ++ t8) ++ t9)
      ++ t10) ++ t11))) as Hpass by (do 2 apply passed_app; by eapply passed_here).
  destruct b; cbn [when negb] in *.
  - apply wp_bind, wp_catch; wp_call.
    { intros _. exists d, config. split_and!; [set_solver..|done| |done]. unfold edit. rewrite Ec. by exists w. }
    intros a. set (e := Ev _ a). match goal with |- context [?t ++ [e]] => set (t0 := t) in * end.
    assert (unlocked (t0 ++ [e])) as Hq' by (apply Forall_app; split; [done|by repeat constructor]).
    destruct a as [[]|x]; [|destruct (is_backup_error x); by apply unlocked_free].
    assert (e ∈ t0 ++ [e]) as Hin by (apply elem_of_app; right; apply list_elem_of_here).
    apply (locked_part d config); [done|unfold t0; set_solver|unfold t0; set_solver|by apply passed_app| |].
    + right. by exists ws, backup, purge, w.
    + eapply (remove_body d config ws backup purge); [done..|]. left. apply elem_of_app. by left.
  - apply wp_bind. cbn [wp mret prog_ret]. apply (locked_part d config); [done|set_solver|set_solver|done| |].
    + left. apply passed_app. by eapply passed_here.
    + eapply (remove_body d config ws backup purge); [done..|]. destruct Hb as [[=]|[-> Hb]].
      right. split; [done|]. destruct Hb as [->|(response & Hr & Hw')]; [by left|right].
      exists response. split; [set_solver|done].
Qed.

End guarded.

(** What a command writes keeps the names distinct, and is not empty. *)
Lemma edited_names h abspath inst c d d' config t specs :
  edit h abspath inst c d config t (MutateWorkspaces d' specs) →
  NoDup (map fst (workspaces config)) → workspaces config ≠ [] →
  NoDup (map ws_name specs) ∧ specs ≠ [].
Proof.
  intros He Hnd Hne. assert (∀ l, map ws_name (map spec_of_config l) = map fst l) as Hmap
    by (intros l; by rewrite map_map).
  assert (∀ n, has_workspace n config = false → n ∉ map fst (workspaces config)) as Hnot.
  { intros n Hn%not_true_iff_false Hin. apply Hn. by apply mem_spec. }
  destruct c as [copy empty|ws b p|old new|ws f]; cbn in He.
  - destruct He as (news & Hp & Hdis & _ & -> & _). apply parse_flags_sound in Hp as (Hn & Hd & _).
    split; [|by destruct (workspaces config)]. rewrite map_app, Hmap. apply NoDup_app. split_and!; [done| |done].
    intros n Hin (s & -> & Hs)%list_elem_of_fmap. apply (Hnot (ws_name s)); [|done].
    apply not_true_iff_false in Hdis. apply not_true_iff_false. intros Ht. apply Hdis, existsb_exists.
    exists s. by split; [apply list_elem_of_In|].
  - destruct He as (w0 & _ & Hlen & _ & -> & _). rewrite Hmap. split.
    + clear -Hnd. induction (workspaces config) as [|[k w] l IH]; [done|]. apply NoDup_cons in Hnd as [Hk Hl].
      cbn. destruct (String.eqb k ws); cbn; [by apply IH|]. constructor; [|by apply IH].
      intros Hin. apply Hk. apply list_elem_of_In, in_map_iff in Hin as (x & Hx & Hin).
      apply List.filter_In in Hin as [Hin _]. apply list_elem_of_In, in_map_iff. by exists x.
    + destruct (workspaces config) as [|[k w] [|[k' w'] l]]; [done..|]. cbn.
      apply NoDup_cons in Hnd as [Hk _]. destruct (String.eqb_spec k ws) as [->|]; [|done]. cbn.
      destruct (String.eqb_spec k' ws) as [->|]; [|done]. destruct Hk. apply list_elem_of_here.
  - destruct He as (w0 & _ & _ & Hnew & _ & -> & _). split; [|by destruct (workspaces config)].
    apply Hnot in Hnew. rewrite map_map. clear -Hnd Hnew.
    induction (workspaces config) as [|[k w] l IH]; [constructor|]. apply NoDup_cons in Hnd as [Hk Hl].
    apply not_elem_of_cons in Hnew as [Hn1 Hn2]. cbn. constructor; [|by apply IH].
    intros ([k' w'] & E & Hin)%list_elem_of_fmap. cbn in *.
    assert (k' ∈ map fst l) as Hk' by (apply list_elem_of_fmap; by exists (k', w')).
    destruct (String.eqb_spec k old), (String.eqb_spec k' old); cbn in E; subst; done.
  - destruct He as (b & _ & Hnew & _ & _ & p & _ & ->). split; [|by destruct (workspaces config)].
    rewrite map_app, Hmap. apply NoDup_app. split_and!; [done| |apply NoDup_singleton].
    intros n Hin ->%list_elem_of_singleton. by apply Hnot in Hnew.
Qed.

(** When the daemon cannot be asked, an instance counts as stopped: the guard
    of the workspace commands lets a removal through. *)
Lemma unreachable_daemon_is_stopped loads d user mode
    (env : trace answer → ∀ c, res (answer c)) past :
  (∀ t op args c, ∃ o, env t (Probe op args c) = Ok o ∧ ok o = false) →
  (run_env env (warm_check loads d user mode) past).2 ≠ Ok true.
Proof.
  intros Henv. unfold warm_check, container_status, perform, mbind, prog_bind. cbn.
  repeat match goal with
  | |- context [env ?t (Probe ?op ?args ?c)] =>
      let o := fresh in let Ho := fresh in destruct (Henv t op args c) as (o & -> & Ho); cbn; rewrite Ho; cbn
  | |- context [env ?t ?c] => let a := fresh in destruct (env t c) as [a|]; cbn; [|done]
  | |- context [if ?b then _ else _] => destruct b; cbn
  | |- context [minimal_host_config ?u ?m] => destruct (minimal_host_config u m); cbn; [|done]
  end; done.
Qed.

