(* ===== verification/HostBatch.v ===== *)
(** * core.setup.host_batch: the host-root batch of operator-rootless setup

    Classification, application and renderings as programs over the calls of
    [host_call], with the escalated command of cli/main.py.  [Accounts] is what
    a read of the account and subid files gives at that moment. *)
From S2P Require Import Prelude PyStr HostConfig Subid Json SetupState Interact.
From Stdlib Require Import Ascii String.
Open Scope nat_scope.

Inductive BatchItem := SUBID | GROUPADD | SYSCTL | NFTABLES | DELEGATE | LINGER | RUNSC | MARKER.
#[export] Instance batch_item_eq_dec : EqDecision BatchItem.
Proof. solve_decision. Defined.

Definition item_value (i : BatchItem) : string :=
  match i with
  | SUBID => "subid" | GROUPADD => "groupadd" | SYSCTL => "sysctl" | NFTABLES => "nftables"
  | DELEGATE => "delegate" | LINGER => "linger" | RUNSC => "runsc" | MARKER => "marker"
  end.

Definition HOST_ROOT_BATCH : list BatchItem :=
  [SUBID; GROUPADD; SYSCTL; NFTABLES; DELEGATE; LINGER; RUNSC; MARKER].

(** [BatchItem(value)]; [None] is its [ValueError]. *)
Definition item_of_value (v : string) : option BatchItem :=
  List.find (λ i, String.eqb (item_value i) v) HOST_ROOT_BATCH.

Record BatchParams := MkParams {
  operator : string;
  operator_uid : Z;
  bridge_group : string;
  bridge_gid : Z;
  distro_family : string;
  bp_mode : DockerExecutionMode
}.

Inductive host_call : Type :=
  (* reads *)
  | RootEuid
  | Accounts
  | GroupEntry (group : string)
  | ReadText (p : string)
  | Distro
  | DriftStatus
  | MarkerEntryOf (operator : string)
  | Query (argv : list string) (check : bool)
  | ExitCode (argv : list string)
  | PathExists (p : string)
  (* changes *)
  | Run (argv : list string)
  | WriteRootFile (p body : string) (mode : Z)
  | InstallPinned (force : bool)
  | WriteMarker (operator : string) (mode : DockerExecutionMode) (group : string) (gid : Z)
  (* of the phases that reach the daemon: the executor's run, and a truncating write *)
  | Exec (argv : list string) (sentinel : bool)
  | WriteInPlace (p text : string).

Definition host_answer (c : host_call) : Type :=
  match c with
  | RootEuid => Z
  | Accounts => host_env
  | GroupEntry _ => option (Z * list string)
  | ReadText _ => option string
  | Distro => option string
  | DriftStatus => string
  | MarkerEntryOf _ => option MarkerEntry
  | Query _ _ => string
  | ExitCode _ => Z
  | PathExists _ => bool
  | Exec _ _ => string
  | _ => unit
  end.

Abbreviation root := (prog host_answer).
Abbreviation host c := (perform (answer := host_answer) c).

(** ** What the items render *)

(** The dash is written as its UTF-8 bytes. *)
Definition MANAGED_HEADER : string := "# sandbox-ai managed — do not edit; rerun 'sudo sandbox setup'".
Definition MODULES_LOAD_DROPIN : string := "/etc/modules-load.d/sandbox-ai.conf".
Definition SYSCTL_DROPIN : string := "/etc/sysctl.d/49-sandbox-ai.conf".
Definition MAX_USER_NS : string := "15000".

Definition nftables_modules (distro_family : string) : list string :=
  if String.eqb distro_family "fedora" then ["ip_tables"]
  else if String.eqb distro_family "arch" then ["nf_tables"; "ip_tables"]
  else ["nf_tables"].

Definition render_modules_load_dropin (distro_family : string) : string :=
  join NL (MANAGED_HEADER :: nftables_modules distro_family) +:+ NL.

Definition is_debian_family (distro : option string) : bool := bool_decide (distro = Some "debian").

Definition render_sysctl_dropin (distro : option string) : string :=
  join NL ([MANAGED_HEADER; "user.max_user_namespaces=" +:+ MAX_USER_NS] ++
           (if is_debian_family distro then ["kernel.unprivileged_userns_clone=1"] else []))%list +:+ NL.

Definition delegate_dropin_path_for_uid (uid : Z) : string :=
  "/etc/systemd/system/user-" +:+ str_of_Z uid +:+ ".service.d/sandbox-ai-delegate.conf".
Definition render_delegate_dropin : string :=
  MANAGED_HEADER +:+ NL +:+ "[Service]" +:+ NL +:+ "Delegate=yes" +:+ NL.

(** The picker always returns; see [Subid]. *)
Definition subid_range_arg (h : host_env) : string :=
  match pick_free_subid_block h None with
  | Some (start, size) => str_of_Z start +:+ "-" +:+ str_of_Z (start + size - 1)
  | None => ""
  end.

(** ** Reads *)

(** The second line on, first words. *)
Definition lsmod_names (stdout : string) : list string :=
  omap (λ line, head (split_ws line)) (drop 1 (splitlines stdout)).

(** [except (OSError, subprocess.SubprocessError)] *)
Definition tolerated (e : exn) : bool :=
  bool_decide (e ∈ [FileNotFoundError; BlockingIOError; OSError; CrossDeviceError; CalledProcessError]).

Definition module_loaded (module : string) : root bool :=
  catch (stdout ← host (Query ["lsmod"] true); mret (bool_decide (module ∈ lsmod_names stdout)))
    (λ e, if tolerated e then mret false else raise e).

Definition controllers_path (uid : Z) : string :=
  "/sys/fs/cgroup/user.slice/user-" +:+ str_of_Z uid +:+ ".slice/user@" +:+ str_of_Z uid +:+
  ".service/cgroup.controllers".

Definition delegation_present (uid : Z) : root bool :=
  raw ← host (ReadText (controllers_path uid));
  let got := match (raw : option string) with Some s => split_ws s | None => [] end in
  mret (bool_decide (["cpu"; "memory"; "pids"] ⊆ got)).

Definition gid_in_subgid_range (gid : Z) (ranges : list (Z * Z)) : bool :=
  existsb (λ '(first, count), (first <=? gid) && (gid <? first + count))%Z ranges.

(** In [gr_mem], or by the primary gid. *)
Definition operator_in_group (operator group : string) : root bool :=
  e ← host (GroupEntry group);
  match (e : option (Z * list string)) with
  | None => mret false
  | Some (gid, members) =>
      if bool_decide (operator ∈ members) then mret true
      else h ← host Accounts;
           mret (match getpwnam (h : host_env) operator with
                 | Some pw => (gid =? pw_gid pw)%Z
                 | None => false
                 end)
  end.

(** ** The appliers *)

Definition apply_subid (p : BatchParams) : root unit :=
  h ← host Accounts;
  let range_arg := subid_range_arg h in
  h ← host Accounts;
  _ ← when (bool_decide (parse_subuid_for_user h (operator p) = []))
        (host (Run ["usermod"; "--add-subuids"; range_arg; operator p]));
  h ← host Accounts;
  when (bool_decide (parse_subgid_for_user h (operator p) = []))
    (host (Run ["usermod"; "--add-subgids"; range_arg; operator p])).

Definition apply_groupadd (p : BatchParams) : root unit :=
  existing ← host (GroupEntry (bridge_group p));
  _ ← match (existing : option (Z * list string)) with
      | None => host (Run ["groupadd"; "-g"; str_of_Z (bridge_gid p); bridge_group p])
      | Some (gid, _) =>
          h ← host Accounts;
          when (negb (gid_in_subgid_range gid (parse_subgid_for_user h (operator p)))) (raise RuntimeError)
      end;
  there ← operator_in_group (operator p) (bridge_group p);
  when (negb there) (host (Run ["usermod"; "-aG"; bridge_group p; operator p])).

Definition apply_sysctl (p : BatchParams) : root unit :=
  distro ← host Distro;
  _ ← host (WriteRootFile SYSCTL_DROPIN (render_sysctl_dropin distro) 420);
  _ ← host (Run ["sysctl"; "-w"; "user.max_user_namespaces=" +:+ MAX_USER_NS]);
  distro ← host Distro;
  when (is_debian_family distro) (host (Run ["sysctl"; "-w"; "kernel.unprivileged_userns_clone=1"])).

Definition apply_nftables (p : BatchParams) : root unit :=
  _ ← for_each (nftables_modules (distro_family p)) (λ module,
        loaded ← module_loaded module; when (negb loaded) (host (Run ["modprobe"; module])));
  observed ← host (ReadText MODULES_LOAD_DROPIN);
  let expected := render_modules_load_dropin (distro_family p) in
  when (negb (bool_decide ((observed : option string) = Some expected)))
    (host (WriteRootFile MODULES_LOAD_DROPIN expected 420)).

Definition apply_delegate (p : BatchParams) : root unit :=
  _ ← host (WriteRootFile (delegate_dropin_path_for_uid (operator_uid p)) render_delegate_dropin 420);
  host (Run ["systemctl"; "daemon-reload"]).

Definition apply_linger (p : BatchParams) : root unit :=
  host (Run ["loginctl"; "enable-linger"; operator p]).

Definition apply_runsc (p : BatchParams) : root unit := host (InstallPinned true).

(** [grp.getgrnam(...).gr_gid] raises [KeyError] without the group. *)
Definition apply_marker (p : BatchParams) : root unit :=
  e ← host (GroupEntry (bridge_group p));
  match (e : option (Z * list string)) with
  | Some (gid, _) => host (WriteMarker (operator p) (bp_mode p) (bridge_group p) gid)
  | None => raise KeyError
  end.

Definition APPLIERS (i : BatchItem) : BatchParams → root unit :=
  match i with
  | SUBID => apply_subid | GROUPADD => apply_groupadd | SYSCTL => apply_sysctl
  | NFTABLES => apply_nftables | DELEGATE => apply_delegate | LINGER => apply_linger
  | RUNSC => apply_runsc | MARKER => apply_marker
  end.

(** The items of a set, in the canonical order. *)
Definition selected (items : list BatchItem) : list BatchItem :=
  List.filter (λ i, bool_decide (i ∈ items)) HOST_ROOT_BATCH.

Definition apply_host_root_batch (items : list BatchItem) (p : BatchParams) : root unit :=
  for_each HOST_ROOT_BATCH (λ i, when (bool_decide (i ∈ items)) (APPLIERS i p)).

(** ** The classifier *)

Definition subid_satisfied (operator : string) : root bool :=
  h ← host Accounts;
  if bool_decide (parse_subuid_for_user h operator = []) then mret false
  else h ← host Accounts; mret (negb (bool_decide (parse_subgid_for_user h operator = []))).

Definition group_satisfied (operator bridge_group : string) : root bool :=
  e ← host (GroupEntry bridge_group);
  match (e : option (Z * list string)) with
  | None => mret false
  | Some _ => operator_in_group operator bridge_group
  end.

Definition sysctl_satisfied : root bool :=
  observed ← host (ReadText SYSCTL_DROPIN);
  distro ← host Distro;
  mret (bool_decide ((observed : option string) = Some (render_sysctl_dropin distro))).

(** [any(...)] stops at the first module that is not loaded. *)
Fixpoint all_loaded (modules : list string) : root bool :=
  match modules with
  | [] => mret true
  | m :: modules => loaded ← module_loaded m; if (loaded : bool) then all_loaded modules else mret false
  end.

Definition nftables_satisfied (distro_family : string) : root bool :=
  loaded ← all_loaded (nftables_modules distro_family);
  if negb loaded then mret false
  else
    observed ← host (ReadText MODULES_LOAD_DROPIN);
    mret (bool_decide ((observed : option string) = Some (render_modules_load_dropin distro_family))).

Definition runsc_satisfied : root bool :=
  st ← host DriftStatus; mret (String.eqb st "match").

Definition linger_satisfied (operator : string) : root bool :=
  catch (stdout ← host (Query ["loginctl"; "show-user"; operator; "--property=Linger"] false);
         mret (contains "Linger=yes" stdout))
    (λ e, if tolerated e then mret false else raise e).

Definition marker_satisfied (operator : string) (mode : DockerExecutionMode) : root bool :=
  e ← host (MarkerEntryOf operator);
  mret (match (e : option MarkerEntry) with
        | Some e => bool_decide (me_mode e = mode)
        | None => false
        end).

(** What each item is asked. *)
Definition satisfied (p : BatchParams) (i : BatchItem) : root bool :=
  match i with
  | SUBID => subid_satisfied (operator p)
  | GROUPADD => group_satisfied (operator p) (bridge_group p)
  | SYSCTL => sysctl_satisfied
  | NFTABLES => nftables_satisfied (distro_family p)
  | DELEGATE => delegation_present (operator_uid p)
  | LINGER => linger_satisfied (operator p)
  | RUNSC => runsc_satisfied
  | MARKER => marker_satisfied (operator p) (bp_mode p)
  end.

Fixpoint unsatisfied (p : BatchParams) (items : list BatchItem) : root (list BatchItem) :=
  match items with
  | [] => mret []
  | i :: items => b ← satisfied p i; rest ← unsatisfied p items; mret (if (b : bool) then rest else i :: rest)
  end.

Definition batch_params (operator : string) (mode : DockerExecutionMode) : root BatchParams :=
  h ← host Accounts;
  uid ← lift (match getpwnam (h : host_env) operator with Some pw => Ok (pw_uid pw) | None => Err KeyError end);
  h ← host Accounts;
  gid ← lift (autodetect_workspace_bridge_gid_recommendation h operator 1000);
  family ← host Distro;
  mret (MkParams operator uid (workspace_bridge_group_for operator mode) gid
          (default "" (family : option string)) mode).

Definition classify_host_root_batch (operator : string) (mode : DockerExecutionMode)
    : root (list BatchItem * BatchParams) :=
  p ← batch_params operator mode;
  items ← unsatisfied p HOST_ROOT_BATCH;
  mret (items, p).

(** ** The renderings *)

Definition build_bootstrap_argv (items : list BatchItem) (p : BatchParams) : list string :=
  (["sandbox"; "_bootstrap-host"] ++ flat_map (λ i, ["--item"; item_value i]) (selected items) ++
   ["--operator"; operator p; "--operator-uid"; str_of_Z (operator_uid p);
    "--bridge-group"; bridge_group p; "--bridge-gid"; str_of_Z (bridge_gid p);
    "--distro-family"; distro_family p; "--docker-execution-mode"; mode_value OPERATOR_ROOTLESS])%list.

Definition remediation_line (h : host_env) (p : BatchParams) (i : BatchItem) : string :=
  match i with
  | SUBID => "sudo usermod --add-subuids " +:+ subid_range_arg h +:+ " --add-subgids " +:+
             subid_range_arg h +:+ " " +:+ operator p
  | GROUPADD => "sudo groupadd -g " +:+ str_of_Z (bridge_gid p) +:+ " " +:+ bridge_group p +:+
                " && sudo usermod -aG " +:+ bridge_group p +:+ " " +:+ operator p
  | SYSCTL => "sudo tee " +:+ SYSCTL_DROPIN +:+ " <<'EOF' && sudo sysctl --system"
  | NFTABLES => let modules := join " " (nftables_modules (distro_family p)) in
                "sudo modprobe " +:+ modules +:+ " && echo '" +:+ modules +:+ "' | sudo tee " +:+
                MODULES_LOAD_DROPIN
  | DELEGATE => "sudo install -Dm0644 /dev/stdin " +:+ delegate_dropin_path_for_uid (operator_uid p) +:+
                " && sudo systemctl daemon-reload"
  | LINGER => "sudo loginctl enable-linger " +:+ operator p
  | RUNSC => "sudo sandbox setup --update-runsc  # installs the pinned runsc root-owned"
  | MARKER => "sudo sandbox setup --docker-execution-mode " +:+ mode_value (bp_mode p) +:+
              "  # writes the root-owned mode marker"
  end.

Definition remediation_lines (h : host_env) (items : list BatchItem) (p : BatchParams) : list string :=
  "# sandbox-ai operator-rootless host-root prerequisites (run in order):" ::
  map (remediation_line h p) (selected items).

Definition render_remediation_block (h : host_env) (items : list BatchItem) (p : BatchParams) : string :=
  join NL (remediation_lines h items p) +:+ NL.

(** ** cli.main: the escalated command *)

(** [except (subprocess.SubprocessError, OSError, SandboxExecutionError)] *)
Definition batch_failure (e : exn) : bool := tolerated e || is_sandbox_execution_error e.

Fixpoint items_of_values (values : list string) : option (list BatchItem) :=
  match values with
  | [] => Some []
  | v :: values => i ← item_of_value v; l ← items_of_values values; Some (i :: l)
  end.

Definition bootstrap_host (items : list string) (operator : string) (operator_uid : Z)
    (bridge_group : string) (bridge_gid : Z) (distro_family docker_execution_mode : string) : root unit :=
  euid ← host RootEuid;
  if negb (euid =? 0)%Z then raise (Exit 1)
  else match items_of_values items, mode_of_value docker_execution_mode with
  | Some batch_items, Ok mode =>
      catch (apply_host_root_batch batch_items
               (MkParams operator operator_uid bridge_group bridge_gid distro_family mode))
        (λ e, if batch_failure e then raise (Exit 1) else raise e)
  | _, _ => raise (Exit 1)
  end.

(** ** Application *)

Open Scope list_scope.

Definition is_marker_write (c : host_call) : bool :=
  match c with WriteMarker _ _ _ _ => true | _ => false end.

Definition is_change (c : host_call) : bool :=
  match c with
  | Run _ | WriteRootFile _ _ _ | InstallPinned _ | WriteMarker _ _ _ _ | Exec _ _ | WriteInPlace _ _ => true
  | _ => false
  end.

Ltac appliers := unfold APPLIERS, apply_subid, apply_groupadd, apply_sysctl, apply_nftables, apply_delegate,
  apply_linger, apply_runsc, apply_marker, operator_in_group, module_loaded.

(** Only the last item writes the marker. *)
Lemma applier_no_marker i p : i ≠ MARKER → calls_in (λ c, is_marker_write c = false) (APPLIERS i p).
Proof. intros Hi. destruct i; try done; appliers; by calls_tac. Qed.

(** Skipping is running the selection. *)
Lemma runs_selected {A} (b : A → bool) (f : A → root unit) l t r :
  runs (for_each l (λ x, when (b x) (f x))) t r ↔ runs (for_each (List.filter b l) f) t r.
Proof.
  revert t; induction l as [|x l IH]; intros t; [done|]. cbn [for_each List.filter].
  destruct (b x); cbn [when]; [|apply IH]. cbn [for_each].
  assert (∀ m : root unit, runs (m ≫= λ _, for_each l (λ x, when (b x) (f x))) t r ↔
    runs (m ≫= λ _, for_each (List.filter b l) f) t r) as H; [|apply H].
  clear -IH. intros m. revert t; induction m as [[a|e]|c k IHm]; intros t; [apply IH|done|].
  split; intros (a & t' & -> & Hr)%runs_Do; constructor; by apply IHm.
Qed.

(** The requested items but the marker. *)
Definition before_marker (items : list BatchItem) : list BatchItem :=
  List.filter (λ i, negb (bool_decide (i = MARKER))) (selected items).

Lemma selected_split items : selected items = before_marker items ++ (if bool_decide (MARKER ∈ items) then [MARKER] else []).
Proof.
  unfold before_marker, selected. change HOST_ROOT_BATCH with ([SUBID; GROUPADD; SYSCTL; NFTABLES; DELEGATE; LINGER; RUNSC] ++ [MARKER]).
  rewrite !List.filter_app. assert (∀ l, Forall (λ i, i ≠ MARKER) l → List.filter (λ i, negb (bool_decide (i = MARKER))) l = l) as H.
  { intros l Hl. induction Hl as [|i l Hi _ IH]; [done|]. cbn. rewrite bool_decide_eq_false_2 by done.
    cbn. by rewrite IH. }
  rewrite H.
  - set (F := List.filter _ [SUBID; GROUPADD; SYSCTL; NFTABLES; DELEGATE; LINGER; RUNSC]). clearbody F.
    cbn [List.filter]. destruct (bool_decide (MARKER ∈ items)); cbn [List.filter]; [|by rewrite !app_nil_r].
    rewrite bool_decide_eq_true_2 by done. cbn. by rewrite app_nil_r.
  - apply Forall_forall. intros i Hi%list_elem_of_In%List.filter_In. destruct Hi as [Hi _].
    apply list_elem_of_In in Hi. set_solver.
Qed.

Lemma before_marker_not items i : i ∈ before_marker items → i ≠ MARKER.
Proof.
  unfold before_marker. intros Hi%list_elem_of_In%List.filter_In. destruct Hi as [_ Hi].
  by apply negb_true_iff, bool_decide_eq_false in Hi.
Qed.

Lemma selected_prefix l1 i l2 base tl : l1 ++ i :: l2 = base ++ tl → Forall (λ i, i ≠ MARKER) base →
  tl = [] ∨ tl = [MARKER] → Forall (λ i, i ≠ MARKER) l1 ∧ (i = MARKER → l1 = base).
Proof.
  revert base; induction l1 as [|x l1 IH]; intros [|y base] Heq Hb Htl; cbn [app] in Heq.
  - done.
  - injection Heq as -> _. apply Forall_cons in Hb as [? _]. by split; [constructor|].
  - destruct Htl as [-> | ->]; [done|]. injection Heq as _ Heq. by destruct l1.
  - injection Heq as -> Heq. apply Forall_cons in Hb as [Hy Hb].
    destruct (IH base Heq Hb Htl) as [H1 H2]. split; [by constructor|]. intros Hi. by rewrite (H2 Hi).
Qed.

Abbreviation no_marker t := (Forall (λ e : event host_answer, is_marker_write (ev_call e) = false) t).

Lemma runs_no_marker p l ts : Forall (λ i, i ≠ MARKER) l →
  Forall2 (λ i t, runs (APPLIERS i p) t (Ok tt)) l ts → no_marker (List.concat ts).
Proof.
  intros Hl Hts. induction Hts as [|i t l ts Hi _ IH]; [constructor|]. apply Forall_cons in Hl as [Hn Hl].
  cbn [List.concat]. apply Forall_app. split; [|by apply IH]. apply (runs_calls_in (λ c, is_marker_write c = false) _ _ _ Hi). by apply applier_no_marker.
Qed.

Lemma marker_after l tm t1 e t2 : no_marker l → is_marker_write (ev_call e) = true →
  l ++ tm = t1 ++ e :: t2 → ∃ t', t1 = l ++ t' ∧ tm = t' ++ e :: t2.
Proof.
  intros Hl He. revert t1; induction Hl as [|x l Hx _ IH]; intros t1 Ht; cbn [app] in *; [by exists t1|].
  destruct t1 as [|y t1]; injection Ht as -> Ht; [congruence|].
  apply IH in Ht as (t' & -> & ->). by exists t'.
Qed.

Lemma marker_run p tm r t' e t2 : runs (apply_marker p) tm r → tm = t' ++ e :: t2 →
  is_marker_write (ev_call e) = true →
  t2 = [] ∧ ∃ gid members, Ev (GroupEntry (bridge_group p)) (Ok (Some (gid, members))) ∈ t' ∧
    ev_call e = WriteMarker (operator p) (bp_mode p) (bridge_group p) gid.
Proof.
  intros (a & t & -> & Hr)%runs_Do Ht He.
  destruct t' as [|x t']; injection Ht as <- Ht; [done|].
  destruct a as [[[gid members]|]|x]; cbn in Hr.
  - apply runs_Do in Hr as (a & t0 & -> & [-> _]%runs_Ret). destruct t' as [|y t']; injection Ht as <- Ht.
    + subst. split; [done|]. exists gid, members. split; [apply list_elem_of_here|done].
    + by destruct t'.
  - apply runs_Ret in Hr as [-> _]. by destruct t'.
  - apply runs_Ret in Hr as [-> _]. by destruct t'.
Qed.

(** C20: The marker is written last, after everything else succeeded.  In every
    run of the escalated batch, whatever fails: the requested items are applied
    one after another in the canonical order, and the first that raises ends
    the batch with its exception.  If the marker is written at all, every other
    requested item was applied without an exception before, nothing is called
    after it, and it records the gid that the group has then. *)
Theorem marker_only_after_all items p t r :
  runs (apply_host_root_batch items p) t r →
  (∃ l1 l2 ts, selected items = l1 ++ l2 ∧ Forall2 (λ i t, runs (APPLIERS i p) t (Ok tt)) l1 ts ∧
     match l2 with
     | [] => t = List.concat ts ∧ r = Ok tt
     | i :: _ => ∃ t' e, t = List.concat ts ++ t' ∧ runs (APPLIERS i p) t' (Err e) ∧ r = Err e
     end) ∧
  ∀ t1 e t2, t = t1 ++ e :: t2 → is_marker_write (ev_call e) = true →
    t2 = [] ∧ ∃ ts t' gid members,
      Forall2 (λ i t, runs (APPLIERS i p) t (Ok tt)) (before_marker items) ts ∧
      t1 = List.concat ts ++ t' ∧ Ev (GroupEntry (bridge_group p)) (Ok (Some (gid, members))) ∈ t' ∧
      ev_call e = WriteMarker (operator p) (bp_mode p) (bridge_group p) gid.
Proof.
  intros Hr. apply runs_selected in Hr. fold (selected items) in Hr.
  apply runs_for_each in Hr as (l1 & l2 & ts & Hsel & Hts & Hend). split; [by exists l1, l2, ts|].
  intros t1 e t2 Ht He.
  assert ((∃ ts tm r', Forall2 (λ i t, runs (APPLIERS i p) t (Ok tt)) (before_marker items) ts ∧
     t = List.concat ts ++ tm ∧ runs (APPLIERS MARKER p) tm r') ∨ no_marker t) as [(ts0 & tm & r' & H1 & -> & H2)|Hno].
  - rewrite selected_split in Hsel. pose proof (before_marker_not items) as Hnot.
    rewrite <- Forall_forall in Hnot. destruct l2 as [|i l2].
    + destruct Hend as [-> ->]. rewrite app_nil_r in Hsel. subst l1. destruct (bool_decide _).
      * apply Forall2_app_inv_l in Hts as (ts0 & tss & H1 & H2 & ->). left.
        apply Forall2_cons_inv_l in H2 as (tm & tss' & H2 & Hnil%Forall2_nil_inv_l & ->). subst.
        exists ts0, tm, (Ok tt). rewrite List.concat_app. cbn. by rewrite app_nil_r.
      * right. rewrite app_nil_r in Hts. by eapply runs_no_marker.
    + destruct Hend as (t' & x & -> & Hx & ->). symmetry in Hsel. apply selected_prefix in Hsel as [Hl1 Hl]; [|done|by destruct (bool_decide _); auto].
      destruct (decide (i = MARKER)) as [->|Hi].
      * left. exists ts, t', (Err x). by rewrite <- Hl.
      * right. apply Forall_app. split; [exact (runs_no_marker p l1 ts Hl1 Hts)|].
        apply (runs_calls_in (λ c, is_marker_write c = false) _ _ _ Hx). by apply applier_no_marker.
  - apply marker_after in Ht as (t' & -> & Htm);
      [|eapply runs_no_marker; [|done]; apply Forall_forall, before_marker_not|done].
    destruct (marker_run p tm r' t' e t2 H2 Htm He) as (-> & gid & members & Hg & Hc). split; [done|].
    by exists ts0, t', gid, members.
  - rewrite Forall_forall in Hno. rewrite (Hno e) in He; [done|]. rewrite Ht. set_solver.
Qed.

(** ** Classification of a host that keeps still *)

(** What the reads give; [sn_query] is the output of [lsmod] and [loginctl]. *)
Record snapshot := MkSnapshot {
  sn_accounts : host_env;
  sn_group : string → option (Z * list string);
  sn_file : string → option string;
  sn_distro : option string;
  sn_drift : string;
  sn_marker : string → option MarkerEntry;
  sn_query : list string → res string
}.

Definition answers (s : snapshot) (past : trace host_answer) (c : host_call) : res (host_answer c) :=
  match c return res (host_answer c) with
  | RootEuid => Ok 1000%Z
  | Accounts => Ok (sn_accounts s)
  | GroupEntry g => Ok (sn_group s g)
  | ReadText p => Ok (sn_file s p)
  | Distro => Ok (sn_distro s)
  | DriftStatus => Ok (sn_drift s)
  | MarkerEntryOf o => Ok (sn_marker s o)
  | Query argv _ => sn_query s argv
  | ExitCode _ => Ok 0%Z
  | PathExists _ => Ok true
  | Exec _ _ => Ok ""
  | _ => Ok tt
  end.

(** What the batch provides, item by item. *)
Definition provided (s : snapshot) (p : BatchParams) (i : BatchItem) : bool :=
  let h := sn_accounts s in
  let lsmod := match sn_query s ["lsmod"] with Ok out => lsmod_names out | Err _ => [] end in
  match i with
  | SUBID => negb (bool_decide (parse_subuid_for_user h (operator p) = [])) &&
             negb (bool_decide (parse_subgid_for_user h (operator p) = []))
  | GROUPADD => match sn_group s (bridge_group p) with
                | Some (gid, members) => bool_decide (operator p ∈ members) ||
                    match getpwnam h (operator p) with Some pw => (gid =? pw_gid pw)%Z | None => false end
                | None => false
                end
  | SYSCTL => bool_decide (sn_file s SYSCTL_DROPIN = Some (render_sysctl_dropin (sn_distro s)))
  | NFTABLES => forallb (λ m, bool_decide (m ∈ lsmod)) (nftables_modules (distro_family p)) &&
                bool_decide (sn_file s MODULES_LOAD_DROPIN = Some (render_modules_load_dropin (distro_family p)))
  | DELEGATE => bool_decide (["cpu"; "memory"; "pids"] ⊆
                  match sn_file s (controllers_path (operator_uid p)) with Some t => split_ws t | None => [] end)
  | LINGER => match sn_query s ["loginctl"; "show-user"; operator p; "--property=Linger"] with
              | Ok out => contains "Linger=yes" out | Err _ => false end
  | RUNSC => String.eqb (sn_drift s) "match"
  | MARKER => match sn_marker s (operator p) with Some e => bool_decide (me_mode e = bp_mode p) | None => false end
  end.

Lemma run_env_then {A B} (env : trace host_answer → ∀ c, res (host_answer c)) (m : root A) (f : A → root B) past r :
  (run_env env m past).2 = r →
  (run_env env (m ≫= f) past).2 =
    match r with Ok a => (run_env env (f a) (past ++ (run_env env m past).1)).2 | Err e => Err e end.
Proof.
  intros <-. rewrite run_env_bind. destruct (run_env env m past) as [t [a|e]]; [|done]. cbn.
  by destruct (run_env env (f a) (past ++ t)).
Qed.

Section classify.
Context (s : snapshot).
Hypothesis queries : ∀ argv e, sn_query s argv = Err e → tolerated e = true.

Abbreviation result m past := ((run_env (answers s) m past).2).

Lemma module_loaded_result m past :
  result (module_loaded m) past =
    Ok (bool_decide (m ∈ match sn_query s ["lsmod"] with Ok out => lsmod_names out | Err _ => [] end)).
Proof.
  unfold module_loaded, perform, mbind, prog_bind. cbn.
  destruct (sn_query s ["lsmod"]) as [out|e] eqn:E; [done|]. cbn. rewrite (queries _ _ E). cbn.
  by rewrite bool_decide_eq_false_2 by set_solver.
Qed.

Lemma all_loaded_result l past :
  result (all_loaded l) past =
    Ok (forallb (λ m, bool_decide (m ∈ match sn_query s ["lsmod"] with Ok out => lsmod_names out | Err _ => [] end)) l).
Proof.
  revert past; induction l as [|m l IH]; intros past; [done|]. cbn [all_loaded].
  rewrite (run_env_then _ _ _ _ _ (module_loaded_result m past)). cbn [forallb]. destruct (bool_decide _); [apply IH|done].
Qed.

Lemma satisfied_result p i past : result (satisfied p i) past = Ok (provided s p i).
Proof.
  destruct i; cbn [satisfied provided].
  - unfold subid_satisfied. cbn. by destruct (bool_decide _).
  - unfold group_satisfied, operator_in_group. cbn.
    destruct (sn_group s (bridge_group p)) as [[gid members]|] eqn:E; cbn; rewrite ?E; [|done]. cbn.
    by destruct (bool_decide _).
  - done.
  - unfold nftables_satisfied. rewrite (run_env_then _ _ _ _ _ (all_loaded_result _ past)).
    by destruct (forallb _ _).
  - done.
  - unfold linger_satisfied, perform, mbind, prog_bind. cbn.
    destruct (sn_query s _) as [out|e] eqn:E; [done|]. cbn. by rewrite (queries _ _ E).
  - done.
  - done.
Qed.

Lemma unsatisfied_result p l past :
  result (unsatisfied p l) past = Ok (List.filter (λ i, negb (provided s p i)) l).
Proof.
  revert past; induction l as [|i l IH]; intros past; [done|]. cbn [unsatisfied List.filter].
  rewrite (run_env_then _ _ _ _ _ (satisfied_result p i past)), (run_env_then _ _ _ _ _ (IH _)).
  by destruct (provided s p i).
Qed.

(** The classifier asks for exactly what is missing.  On a host whose reads
    stay the same, it changes nothing and returns the items the host does not
    provide, in the canonical order, with the operator's uid, the recommended
    gid and the distribution; it fails exactly when the operator has no account
    or no gid can be recommended. *)
Theorem classify_exact operator mode :
  (∀ t r, runs (classify_host_root_batch operator mode) t r → Forall (λ e, is_change (ev_call e) = false) t) ∧
  (run_env (answers s) (classify_host_root_batch operator mode) []).2 =
    match getpwnam (sn_accounts s) operator with
    | None => Err KeyError
    | Some pw =>
        gid ← autodetect_workspace_bridge_gid_recommendation (sn_accounts s) operator 1000;
        let p := MkParams operator (pw_uid pw) (workspace_bridge_group_for operator mode) gid
                   (default "" (sn_distro s)) mode in
        Ok (List.filter (λ i, negb (provided s p i)) HOST_ROOT_BATCH, p)
    end.
Proof.
  split.
  - intros t r Hr. apply (runs_calls_in (λ c, is_change c = false) _ _ _ Hr).
    unfold classify_host_root_batch, batch_params. apply calls_in_bind; [by calls_tac|]. intros p.
    apply calls_in_bind; [|by calls_tac].
    assert (∀ l, calls_in (λ c, is_change c = false) (all_loaded l)) as Hl.
    { induction l as [|m l IH]; cbn [all_loaded]; [done|]. unfold module_loaded. calls_tac; done. }
    induction HOST_ROOT_BATCH as [|i l IH]; cbn [unsatisfied]; [done|].
    apply calls_in_bind; [|intros b; apply calls_in_bind; [done|by calls_tac]].
    destruct i; cbn [satisfied]; unfold subid_satisfied, group_satisfied, operator_in_group, sysctl_satisfied,
      nftables_satisfied, delegation_present, linger_satisfied, runsc_satisfied, marker_satisfied; calls_tac; done.
  - unfold classify_host_root_batch.
    assert (∀ past, result (batch_params operator mode) past = match getpwnam (sn_accounts s) operator with
      | None => Err KeyError
      | Some pw => gid ← autodetect_workspace_bridge_gid_recommendation (sn_accounts s) operator 1000;
          Ok (MkParams operator (pw_uid pw) (workspace_bridge_group_for operator mode) gid
                (default "" (sn_distro s)) mode) end) as Hp.
    { intros past. unfold batch_params, perform, mbind, prog_bind. cbn.
      destruct (getpwnam _ operator); [|done]. cbn. by destruct (autodetect_workspace_bridge_gid_recommendation _ _ _). }
    rewrite (run_env_then _ _ _ _ _ (Hp [])). destruct (getpwnam _ operator); [|done].
    destruct (autodetect_workspace_bridge_gid_recommendation _ _ _); [|done]. cbn [mbind res_bind].
    by rewrite (run_env_then _ _ _ _ _ (unsatisfied_result _ _ _)).
Qed.
End classify.

(** An operator without a subordinate gid range, whose ranges the batch is
    there to add, cannot be classified. *)
Lemma no_range_no_batch s operator mode pw :
  getpwnam (sn_accounts s) operator = Some pw → parse_subgid_for_user (sn_accounts s) operator = [] →
  (run_env (answers s) (classify_host_root_batch operator mode) []).2 = Err NoSubgidRangeError.
Proof.
  intros Hpw Hg. unfold classify_host_root_batch, batch_params, perform, mbind, prog_bind. cbn.
  rewrite Hpw. cbn. unfold autodetect_workspace_bridge_gid_recommendation. by rewrite Hg.
Qed.

(** A group outside the operator's range, with the operator in it, counts as
    provided, so its guard in [apply_groupadd] is not reached and the marker
    records its gid. *)
Lemma foreign_group_recorded s p gid members :
  sn_group s (bridge_group p) = Some (gid, members) → operator p ∈ members →
  gid_in_subgid_range gid (parse_subgid_for_user (sn_accounts s) (operator p)) = false →
  provided s p GROUPADD = true ∧
  (run_env (answers s) (apply_groupadd p) []).2 = Err RuntimeError ∧
  last (made (run_env (answers s) (apply_marker p) []).1) =
    Some (WriteMarker (operator p) (bp_mode p) (bridge_group p) gid).
Proof.
  intros Hg Hm Hr. split_and!.
  - cbn. rewrite Hg. by rewrite bool_decide_eq_true_2.
  - unfold apply_groupadd, perform, mbind, prog_bind. cbn. rewrite Hg. cbn. by rewrite Hr.
  - unfold apply_marker, perform, mbind, prog_bind. cbn. by rewrite Hg.
Qed.

(** The line of the sysctl item opens a here-document, and no later line of the
    block closes it: a shell takes the other lines as its text. *)
Lemma remediation_swallowed h p i : remediation_line h p i ≠ "EOF" ∧
  startswith "sudo " (remediation_line h p i) = true.
Proof. destruct i; cbn [remediation_line]; by split. Qed.

(** ** The escalation *)

Lemma item_of_value_spec i : item_of_value (item_value i) = Some i.
Proof. by destruct i. Qed.

Lemma items_of_values_map l : items_of_values (map item_value l) = Some l.
Proof. induction l as [|i l IH]; [done|]. cbn [map items_of_values]. by rewrite item_of_value_spec, IH. Qed.

Lemma selected_idemp items : selected (selected items) = selected items.
Proof.
  unfold selected at 1 3. apply List.filter_ext_in. intros i Hi.
  apply bool_decide_ext. unfold selected. rewrite list_elem_of_In, List.filter_In, bool_decide_eq_true. tauto.
Qed.

(** The values that follow [--item] in an argv of pairs. *)
Fixpoint item_values (argv : list string) : list string :=
  match argv with
  | flag :: v :: argv => if String.eqb flag "--item" then v :: item_values argv else item_values argv
  | _ => []
  end.

(** Escalation hands over the batch it was planned for, and its failures
    are reported.  The flags of the escalated command name the selected items
    in canonical order, and it applies exactly those, whatever order it was
    given.  It applies nothing unless it is root and all the names are known;
    it returns only if every item was applied; and a process, file or sandbox
    failure of an applier ends with status 1. *)
Theorem escalation_exact items p t r :
  let argv := build_bootstrap_argv items p in
  item_values (drop 2 argv) = map item_value (selected items) ∧
  (runs (bootstrap_host (item_values (drop 2 argv)) (operator p) (operator_uid p) (bridge_group p)
           (bridge_gid p) (distro_family p) (mode_value (bp_mode p))) t r →
   (∃ e, t = [e] ∧ r ≠ Ok tt) ∨
   ∃ t' r', t = Ev RootEuid (Ok 0%Z) :: t' ∧ runs (apply_host_root_batch items p) t' r' ∧
     r = match r' with Err e => if batch_failure e then Err (Exit 1) else Err e | Ok _ => Ok tt end).
Proof.
  intros argv.
  assert (item_values (drop 2 argv) = map item_value (selected items)) as Hv.
  { unfold argv, build_bootstrap_argv. cbn [app drop]. rewrite drop_0.
    assert (∀ l tl, item_values tl = [] →
      item_values (flat_map (λ i, ["--item"; item_value i]) l ++ tl) = map item_value l) as H; [|by apply H].
    intros l tl Htl. induction l as [|i l IH]; [done|]. cbn [flat_map app item_values map].
    by rewrite String.eqb_refl, IH. }
  split; [done|]. rewrite Hv. unfold bootstrap_host. intros (a & t' & -> & Hr)%runs_Do.
  destruct a as [euid|e]; [|apply runs_Ret in Hr as [-> ->]; left; by eexists].
  cbn in Hr. destruct (Z.eqb_spec euid 0) as [->|Hne]; cbn [negb] in Hr.
  - rewrite items_of_values_map in Hr. assert (mode_of_value (mode_value (bp_mode p)) = Ok (bp_mode p)) as Hmode
      by (by destruct (bp_mode p)). rewrite Hmode in Hr. right.
    assert (∀ t r, runs (apply_host_root_batch (selected items) p) t r → runs (apply_host_root_batch items p) t r) as Hsel.
    { intros t r' H. apply runs_selected. apply runs_selected in H. fold (selected items).
      fold (selected (selected items)) in H. by rewrite selected_idemp in H. }
    destruct p as [op uid g gid fam mode]. cbn [operator operator_uid bridge_group bridge_gid distro_family bp_mode] in *.
    apply runs_catch in Hr as [([] & -> & Hr)|(t1 & t2 & e & -> & H1 & H2)].
    + exists t', (Ok tt). split_and!; [done|by apply Hsel|done].
    + exists t1, (Err e). assert (t2 = [] ∧ r = if batch_failure e then Err (Exit 1) else Err e) as [-> ->]
        by (by destruct (batch_failure e); apply runs_Ret in H2 as [-> ->]).
      rewrite app_nil_r. split_and!; [done|by apply Hsel|done].
  - apply runs_Ret in Hr as [-> ->]. left. by eexists.
Qed.

(** ** A concrete host *)

Definition demo_accounts : host_env := HostEnv
  (λ u, if String.eqb u "alice" then Some (Passwd 1000 1000 "/home/alice") else None)
  (λ _, None) [] (Some ("alice:100000:65536" +:+ NL)) (Some ("alice:100000:65536" +:+ NL)) "alice" "/h".

(** Everything is missing but the ranges and the modules. *)
Definition demo_snapshot : snapshot := MkSnapshot demo_accounts (λ _, None)
  (λ p, if String.eqb p MODULES_LOAD_DROPIN then Some (render_modules_load_dropin "debian") else None)
  (Some "debian") "absent" (λ _, None)
  (λ argv, if bool_decide (argv = ["lsmod"]) then Ok ("Module Size" +:+ NL +:+ "nf_tables 1" +:+ NL) else Err OSError).

Lemma classify_exact_witness :
  (∀ argv e, sn_query demo_snapshot argv = Err e → tolerated e = true) ∧
  (run_env (answers demo_snapshot) (classify_host_root_batch "alice" OPERATOR_ROOTLESS) []).2 =
    Ok ([GROUPADD; SYSCTL; DELEGATE; LINGER; RUNSC; MARKER],
        MkParams "alice" 1000 "sb-ws-alice" 100999 "debian" OPERATOR_ROOTLESS).
Proof.
  assert (∀ argv e, sn_query demo_snapshot argv = Err e → tolerated e = true) as Hq.
  { intros argv e. cbn [sn_query demo_snapshot]. destruct (bool_decide _); [discriminate|]. intros [= <-]. reflexivity. }
  split; [exact Hq|]. rewrite (proj2 (classify_exact demo_snapshot Hq "alice" OPERATOR_ROOTLESS)). vm_compute. reflexivity.
Defined.

Definition demo_params : BatchParams := MkParams "alice" 1000 "sb-ws-alice" 100999 "debian" OPERATOR_ROOTLESS.

(** The group exists: the marker records its gid, last. *)
Lemma marker_only_after_all_witness :
  let s := MkSnapshot demo_accounts (λ _, Some (100500%Z, ["alice"])) (λ _, None) (Some "debian") "absent"
             (λ _, None) (λ _, Err OSError) in
  ∃ t r t1 e, (t, r) = run_env (answers s) (apply_host_root_batch [MARKER; LINGER] demo_params) [] ∧
    t = t1 ++ [e] ∧ ev_call e = WriteMarker "alice" OPERATOR_ROOTLESS "sb-ws-alice" 100500 ∧ r = Ok tt ∧
    ∃ ts t', Forall2 (λ i t, runs (APPLIERS i demo_params) t (Ok tt)) [LINGER] ts ∧ t1 = List.concat ts ++ t'.
Proof.
  intros s. pose proof (run_env_runs (answers s) (apply_host_root_batch [MARKER; LINGER] demo_params) []) as Hr.
  set (x := run_env _ _ _) in Hr.
  assert (∃ t1 e, x.1 = t1 ++ [e] ∧ ev_call e = WriteMarker "alice" OPERATOR_ROOTLESS "sb-ws-alice" 100500)
    as (t1 & e & Ht & He).
  { vm_compute. eexists [_; _], _. split; reflexivity. }
  exists x.1, x.2, t1, e. split; [symmetry; apply surjective_pairing|]. split; [exact Ht|]. split; [exact He|].
  split; [vm_compute; reflexivity|].
  destruct (marker_only_after_all [MARKER; LINGER] demo_params x.1 x.2 Hr) as [_ Hm].
  destruct (Hm t1 e [] Ht) as (_ & ts & t' & gid & members & Hts & Ht1 & _); [by rewrite He|].
  exists ts, t'. split; [exact Hts|exact Ht1].
Defined.

(** A failing [loginctl] ends the escalation with status 1. *)
Lemma escalation_exact_witness :
  let env := λ (t : trace host_answer) c, match c return res (host_answer c) with
    | RootEuid => Ok 0%Z
    | Run _ => Err CalledProcessError
    | c => answers demo_snapshot t c end in
  let argv := build_bootstrap_argv [LINGER; SUBID] demo_params in
  item_values (drop 2 argv) = ["subid"; "linger"] ∧
  ∃ t r, (t, r) = run_env env (bootstrap_host (item_values (drop 2 argv)) "alice" 1000 "sb-ws-alice" 100999
                    "debian" "operator-rootless") [] ∧ r = Err (Exit 1) ∧
    ∃ t' e, runs (apply_host_root_batch [LINGER; SUBID] demo_params) t' (Err e).
Proof.
  intros env argv.
  pose proof (run_env_runs env (bootstrap_host (item_values (drop 2 argv)) "alice" 1000 "sb-ws-alice" 100999
    "debian" "operator-rootless") []) as Hr.
  set (x := run_env _ _ _) in Hr.
  assert (x.2 = Err (Exit 1)) as Hx2 by (vm_compute; reflexivity).
  assert (1 < List.length x.1) as Hx1 by (vm_compute; lia).
  destruct (escalation_exact [LINGER; SUBID] demo_params x.1 x.2) as [Hv Hx].
  split; [exact Hv|]. exists x.1, x.2. split; [symmetry; apply surjective_pairing|]. split; [exact Hx2|].
  destruct (Hx Hr) as [(e & He & _)|(t' & r' & Ht & H1 & H2)].
  - rewrite He in Hx1. cbn in Hx1. lia.
  - exists t'. destruct r' as [[]|e]; [rewrite Hx2 in H2; discriminate H2|]. exists e. exact H1.
Defined.
