(* ===== verification/Scaffold.v ===== *)
(** * core.scaffold: the instance directory and sandbox.toml

    The secrets of core/scaffold.py are in [Secrets], [mutate_workspaces] is in
    [Workspaces].  [read_toml] reads the part of TOML that the template uses:
    tables, comments, basic strings without escapes; a value of another form is
    skipped.  It is the reader against which the writer is proved. *)
From stdpp Require Import sorting.
From S2P Require Import Prelude PyStr HostConfig Images Dispatch Recipes Interact Cli Workspaces.
From Stdlib Require Import Ascii String.
Open Scope nat_scope.

Definition INSTANCE_SUBDIRS : list string :=
  ["docker/core"; "docker/admin"; "docker/extras"; "docker/coredns"; "config/core"; "config/coredns";
   "config/dnsdist"; "config/proxy"; "log/proxy"; "log/orchestrator"; "cache/core";
   "custom/config/core"; "secrets"].

(** The directories [create_instance_dirs] makes, with their modes. *)
Definition create_instance_dirs (instance_dir : string) (workspaces : list WorkspaceSpec) : list (string * Z) :=
  (map (λ subdir, (path_join instance_dir subdir, 511%Z)) INSTANCE_SUBDIRS ++
   map (λ ws, (ws_path ws, 448%Z)) workspaces)%list.

(** ** sandbox.toml *)

(** [key = "value"] *)
Definition pair_line (key value : string) : string := key +:+ " = " +:+ DQ +:+ value +:+ DQ.

Definition workspace_lines (ws : WorkspaceSpec) : list string :=
  (["[workspaces." +:+ ws_name ws +:+ "]"; pair_line "bootstrap_mode" (ws_bootstrap_mode ws)] ++
   match ws_source ws with Some src => [pair_line "source" src] | None => [] end ++
   [pair_line "path" (ws_path ws); ""])%list.

Definition render_workspaces_section (workspaces : list WorkspaceSpec) : string :=
  rstrip (join NL (flat_map workspace_lines (merge_sort spec_le workspaces))) +:+ NL.

Definition quoted (s : string) : string := DQ +:+ s +:+ DQ.

(** The lines of the template after the workspaces. *)
Definition core_lines (core_base_image git_user git_email : string) : list string :=
  ["[core]"; pair_line "shm_size" "2gb"; "pids_limit = 400"; pair_line "mem_limit" "8gb"; "cpus = 4.0";
   pair_line "base_image" core_base_image; pair_line "base_distro_family" "wolfi";
   pair_line "git_user" git_user; pair_line "git_email" git_email; ""].

Definition DOMAINS : list string :=
  [".github.com"; ".githubusercontent.com"; ".api.anthropic.com"; ".npmjs.com"; ".npmjs.org"; ".pypi.org";
   ".pythonhosted.org"; ".crates.io"; ".rust-lang.org"; ".golang.org"; ".go.dev"; ".debian.org"; ".ubuntu.com"].
Definition READ_ONLY_DOMAINS : list string :=
  [".pypi.org"; ".pythonhosted.org"; ".npmjs.com"; ".npmjs.org"; ".crates.io"; ".rust-lang.org"; ".golang.org";
   ".go.dev"; ".debian.org"; ".ubuntu.com"].

Definition array_lines (key : string) (items : list string) : list string :=
  ((key +:+ " = [") :: map (λ d, "  " +:+ quoted d +:+ ",") items ++ ["]"])%list.

Definition other_lines (db_postgres_image : string) : list string :=
  (["[runtimes]"; "python = true"; "typescript = true"; "rust = true"; "go = false"; "";
    "[runtimes.node]"; pair_line "version" "20.12.2"; pair_line "nvm_version" "0.39.7"; "";
    "[components]"; "mcp_firecrawl = false"; "mcp_puppeteer = false"; "";
    "[components.db_postgres]"; "enabled = true"; "expose_host_ports = [5432]"; pair_line "pg_user" "sandbox";
    pair_line "pg_db" "sandbox_db"; pair_line "image" db_postgres_image; "";
    "[components.ingress]"; "web_ports = [3000, 8080]"; ""; "[proxy.whitelist]"] ++
   array_lines "domains" DOMAINS ++ array_lines "read_only_domains" READ_ONLY_DOMAINS)%list.

Definition head_lines (name host_uid : string) : list string :=
  ["# sandbox.toml"; "# Sandbox instance infrastructure configuration."; "# Generated by: sandbox init"; "";
   "[instance]"; pair_line "name" name; pair_line "host_uid" host_uid; ""].

(** [_SANDBOX_TOML_TEMPLATE.format(...)]; the section ends its own line. *)
Definition sandbox_toml (uid : Z) (instance_name : string) (workspaces : list WorkspaceSpec)
    (git_user git_email core_base_image db_postgres_image : string) : string :=
  join NL (head_lines instance_name (str_of_Z uid)) +:+ NL +:+ render_workspaces_section workspaces +:+ NL +:+ NL +:+
  join NL (core_lines core_base_image git_user git_email ++ other_lines db_postgres_image)%list +:+ NL.

(** The path and the text that [write_sandbox_toml] writes. *)
Definition write_sandbox_toml (uid : Z) (instance_dir instance_name : string) (workspaces : list WorkspaceSpec)
    (git_user git_email : string) : res (string * string) :=
  core ← image "wolfi_base"; db ← image "postgres";
  Ok (path_join instance_dir "sandbox.toml",
      sandbox_toml uid instance_name workspaces git_user git_email (pinned core) (pinned db)).

(** ** The default ACLs *)

Definition default_acl_command (dev_user target : string) : list string :=
  ["setfacl"; "-d"; "-m"; "u:" +:+ dev_user +:+ ":rwx"; target].

Definition apply_default_acls (instance_dir : string) (workspace_paths : list string) (dev_user : string)
    : list (list string) :=
  map (default_acl_command dev_user)
    (path_join instance_dir "log/" :: path_join instance_dir "cache/" :: workspace_paths).

(** ** A reader of the text *)

(** A character of a basic string that stands for itself. *)
Definition plain_char (c : ascii) : bool :=
  negb (Ascii.eqb c dq || Ascii.eqb c "\" || (code c <? 32)%N || (code c =? 127)%N).
Definition plain (s : string) : bool := str_forall plain_char s.

Definition is_key_char (c : ascii) : bool :=
  is_lower c || is_upper c || is_dec c || Ascii.eqb c "_" || Ascii.eqb c "-".
Definition is_header_char (c : ascii) : bool := is_key_char c || Ascii.eqb c ".".

(** The tables read so far, the current one first.  A table or a key twice is
    an error, and so is a string that does not end where it must. *)
Definition read_pair (acc : workspace_tables) (key value : string) : option workspace_tables :=
  match acc with
  | [] => Some [("", {[ key := value ]})]
  | (name, sub) :: acc =>
      if bool_decide (is_Some (sub !! key)) then None else Some ((name, <[key := value]> sub) :: acc)
  end.

Definition read_line (acc : workspace_tables) (line : string) : option workspace_tables :=
  match line with
  | "" => Some acc
  | String c rest =>
      if Ascii.eqb c "#" then Some acc
      else if Ascii.eqb c "[" then
        let '(name, close) := span is_header_char rest in
        if String.eqb close "]" && negb (mem name (map fst acc)) then Some ((name, ∅) :: acc) else None
      else if is_key_char c then
        let '(key, rest) := span is_key_char line in
        if startswith " = " rest then
          match sdrop 3 rest with
          | String q value =>
              if Ascii.eqb q dq then
                let '(s, close) := span plain_char value in
                if String.eqb close DQ then read_pair acc key s else None
              else Some acc
          | "" => None
          end
        else None
      else Some acc
  end.

Fixpoint read_lines (acc : workspace_tables) (lines : list string) : option workspace_tables :=
  match lines with
  | [] => Some acc
  | line :: lines => acc ← read_line acc line; read_lines acc lines
  end.

Definition read_toml (text : string) : option workspace_tables := (λ l, rev l) <$> read_lines [] (split_char nl text).

(** The workspace that a table denotes. *)
Definition workspace_of (e : string * toml_table) : option WorkspaceSpec :=
  if startswith "workspaces." (fst e) then spec_of (sdrop 11 (fst e), snd e) else None.

(** ** Reading what was written *)

Open Scope list_scope.

Lemma read_lines_app acc l1 l2 : read_lines acc (l1 ++ l2) = read_lines acc l1 ≫= λ acc, read_lines acc l2.
Proof.
  revert acc; induction l1 as [|l l1 IH]; intros acc; cbn; [done|].
  destruct (read_line acc l); cbn; [apply IH|done].
Qed.

Lemma read_pair_line acc key v : str_forall is_key_char key = true → nonempty key = true → plain v = true →
  read_line acc (pair_line key v) = read_pair acc key v.
Proof.
  intros Hk Hne Hv. unfold read_line, pair_line. destruct key as [|c k]; [done|].
  assert (is_key_char c = true) as Hc by (cbn in Hk; by apply andb_prop in Hk as [? _]).
  assert (span plain_char (v +:+ DQ) = (v, DQ)) as Hspan by (apply span_app; [done|by intros ? ? [= <- _]]).
  assert (span is_key_char (String c k +:+ " = " +:+ DQ +:+ v +:+ DQ) = (String c k, " = " +:+ DQ +:+ v +:+ DQ)) as ->
    by (apply span_app; [done|by intros ? ? [= <- _]]).
  change (String c k +:+ " = " +:+ DQ +:+ v +:+ DQ) with (String c (k +:+ " = " +:+ DQ +:+ v +:+ DQ)).
  cbv beta iota. destruct (Ascii.eqb_spec c "#") as [->|_]; [done|].
  destruct (Ascii.eqb_spec c "[") as [->|_]; [done|]. rewrite Hc.
  change (sdrop 3 (" = " +:+ DQ +:+ v +:+ DQ)) with (String dq (v +:+ DQ)). cbv iota.
  by rewrite Ascii.eqb_refl, Hspan.
Qed.

Lemma read_header acc name : str_forall is_header_char name = true → mem name (map fst acc) = false →
  read_line acc ("[" +:+ name +:+ "]") = Some ((name, ∅) :: acc).
Proof.
  intros Hn Hm. cbn. rewrite (span_app is_header_char name "]"); [|done|by intros ? ? [= <- _]].
  by rewrite Hm.
Qed.

(** Tables that were read before do not matter but for their names. *)
Definition header_of (line : string) : list string :=
  match line with String c rest => if Ascii.eqb c "[" then [(span is_header_char rest).1] else [] | "" => [] end.

Lemma read_line_frame a line r extra : a ≠ [] → read_line a line = Some r →
  (∀ n, n ∈ header_of line → mem n (map fst extra) = false) →
  r ≠ [] ∧ read_line (a ++ extra) line = Some (r ++ extra).
Proof.
  intros Ha Hr Hn. destruct line as [|c rest]; [by injection Hr as <-|]. unfold read_line in *. cbn [header_of] in Hn.
  destruct (Ascii.eqb c "#"); [by injection Hr as <-|]. destruct (Ascii.eqb c "[").
  - destruct (span is_header_char rest) as [name close]. destruct (String.eqb close "]"); [|done]. cbn in *.
    unfold mem in *. rewrite map_app, existsb_app, (Hn name) by set_solver.
    destruct (existsb _ _); [done|]. by injection Hr as <-.
  - destruct (is_key_char c); [|by injection Hr as <-]. destruct (span is_key_char (String c rest)) as [key rest'].
    destruct (startswith " = " rest'); [|done]. destruct (sdrop 3 rest') as [|q value]; [done|].
    destruct (Ascii.eqb q dq); [|by injection Hr as <-]. destruct (span plain_char value) as [s close].
    destruct (String.eqb close DQ); [|done]. unfold read_pair in *. destruct a as [|[name sub] a]; [done|]. cbn.
    destruct (bool_decide _); [done|]. by injection Hr as <-.
Qed.

Lemma read_lines_frame a lines r extra : a ≠ [] → read_lines a lines = Some r →
  (∀ n, n ∈ flat_map header_of lines → mem n (map fst extra) = false) →
  read_lines (a ++ extra) lines = Some (r ++ extra).
Proof.
  revert a; induction lines as [|line lines IH]; intros a Ha Hr Hn; cbn in *; [by injection Hr as ->|].
  destruct (read_line a line) as [a'|] eqn:E; [|done]. cbn in Hr.
  destruct (read_line_frame a line a' extra Ha E) as [Ha' ->]; [intros n Hin; apply Hn; set_solver|]. cbn.
  apply IH; [done..|]. intros n Hin. apply Hn. set_solver.
Qed.

(** ** The lines of the text *)

Abbreviation no_nl := (λ s, has_char nl s = false).

Lemma split_join l : l ≠ [] → Forall no_nl l → split_char nl (join NL l) = l.
Proof.
  intros Hne Hl. induction Hl as [|s l Hs Hl IH]; [done|]. destruct l as [|t l].
  - cbn. by apply split_char_none.
  - change (join NL (s :: t :: l)) with (s +:+ String nl (join NL (t :: l))).
    rewrite split_char_app by done. by rewrite IH.
Qed.

Lemma rstrip_snoc s c : is_space c = false → rstrip (s +:+ String c NL) = s +:+ String c "".
Proof.
  intros Hc. unfold rstrip. induction s as [|a s IH]; cbn [String.append rstrip_p].
  - cbn. rewrite Hc. done.
  - rewrite IH. by destruct s.
Qed.

Lemma join_snoc l s : l ≠ [] → join NL (l ++ [s]) = join NL l +:+ NL +:+ s.
Proof.
  induction l as [|a l IH]; [done|]. intros _. destruct l as [|b l].
  - done.
  - change (join NL (a :: b :: l)) with (a +:+ NL +:+ join NL (b :: l)).
    change (join NL ((a :: b :: l) ++ [s])) with (a +:+ NL +:+ join NL ((b :: l) ++ [s])).
    rewrite IH by done. by rewrite !app_assoc_str.
Qed.

(** A string that may be written between quotes, and a name that may be a key. *)
Definition plain_spec (s : WorkspaceSpec) : Prop :=
  str_forall is_key_char (ws_name s) = true ∧ plain (ws_bootstrap_mode s) = true ∧
  plain (ws_path s) = true ∧ default true (plain <$> ws_source s) = true.

Lemma plain_no_nl s : plain s = true → has_char nl s = false.
Proof. apply str_forall_not_exists. intros c Hc. by destruct (Ascii.eqb_spec nl c) as [<-|]. Qed.

Lemma pair_line_no_nl key v : has_char nl key = false → plain v = true → has_char nl (pair_line key v) = false.
Proof. intros Hk Hv%plain_no_nl. unfold pair_line. rewrite !has_char_app, Hk, Hv. done. Qed.

Lemma workspace_lines_no_nl ws : plain_spec ws → Forall no_nl (workspace_lines ws).
Proof.
  intros (Hn & Hm & Hp & Hs). unfold workspace_lines.
  assert (has_char nl (ws_name ws) = false) as Hnl.
  { revert Hn. apply str_forall_not_exists. intros c Hc. by destruct (Ascii.eqb_spec nl c) as [<-|]. }
  constructor; [by rewrite !has_char_app, Hnl|]. constructor; [by apply pair_line_no_nl|].
  apply Forall_app. split; [|by repeat constructor; apply pair_line_no_nl].
  destruct (ws_source ws); [|constructor]. by repeat constructor; apply pair_line_no_nl.
Qed.

(** The section reads as the lines of its workspaces. *)
Lemma read_section acc l : Forall plain_spec l →
  read_lines acc (split_char nl (rstrip (join NL (flat_map workspace_lines l)))) =
    read_lines acc (flat_map workspace_lines l).
Proof.
  intros Hl. destruct l as [|ws l _] using rev_ind; [done|]. apply Forall_app in Hl as [Hl Hws].
  rewrite Forall_singleton in Hws. rewrite flat_map_app. cbn [flat_map]. rewrite app_nil_r.
  set (L := flat_map workspace_lines l ++ ["[workspaces." +:+ ws_name ws +:+ "]";
    pair_line "bootstrap_mode" (ws_bootstrap_mode ws)] ++
    match ws_source ws with Some src => [pair_line "source" src] | None => [] end).
  assert (flat_map workspace_lines l ++ workspace_lines ws = (L ++ [pair_line "path" (ws_path ws)]) ++ [""]) as Heq.
  { unfold L, workspace_lines. by rewrite <- !app_assoc. }
  assert (Forall no_nl ((L ++ [pair_line "path" (ws_path ws)]) ++ [""])) as Hno.
  { rewrite <- Heq. apply Forall_app. split; [|exact (workspace_lines_no_nl ws Hws)].
    apply Forall_flat_map. eapply Forall_impl; [exact Hl|]. apply workspace_lines_no_nl. }
  assert (L ≠ []) as HL by (unfold L; destruct (flat_map workspace_lines l); discriminate).
  rewrite Heq. clearbody L. clear Heq.
  rewrite join_snoc by (destruct L; discriminate). rewrite app_nil_r_str. rewrite join_snoc by done.
  unfold pair_line at 1. rewrite !app_assoc_str.
  replace (rstrip _) with (join NL (L ++ [pair_line "path" (ws_path ws)])).
  - rewrite split_join; [|destruct L; discriminate|by apply Forall_app in Hno as [? _]].
    rewrite (read_lines_app acc (L ++ _) [""]). by destruct (read_lines acc (L ++ _)).
  - rewrite join_snoc by done. unfold pair_line. symmetry.
    pose proof (rstrip_snoc (join NL L +:+ NL +:+ "path = " +:+ DQ +:+ ws_path ws) dq eq_refl) as H.
    rewrite !app_assoc_str in H. exact H.
Qed.

(** ** Reading them *)

Definition workspace_table (ws : WorkspaceSpec) : string * toml_table :=
  ("workspaces." +:+ ws_name ws, set_fields ws ∅).

Lemma read_workspace_lines acc ws : plain_spec ws → mem ("workspaces." +:+ ws_name ws) (map fst acc) = false →
  read_lines acc (workspace_lines ws) = Some (workspace_table ws :: acc).
Proof.
  intros (Hn & Hm & Hp & Hs) Hfree. unfold workspace_lines. cbn [read_lines app].
  assert (read_line acc ("[workspaces." +:+ ws_name ws +:+ "]") = Some (("workspaces." +:+ ws_name ws, ∅) :: acc)) as ->.
  { change ("[workspaces." +:+ ws_name ws +:+ "]") with ("[" +:+ ("workspaces." +:+ ws_name ws) +:+ "]").
    apply read_header; [|done]. rewrite str_forall_app. cbn.
    eapply str_forall_impl; [|exact Hn]. intros c Hc. unfold is_header_char. by rewrite Hc. }
  cbn [mbind option_bind]. rewrite read_pair_line by done. cbn [mbind option_bind read_pair].
  rewrite bool_decide_eq_false_2 by (by rewrite lookup_empty; intros []).
  unfold workspace_table, set_fields. destruct (ws_source ws) as [src|]; cbn [app read_lines mbind option_bind].
  - rewrite read_pair_line by done. cbn [read_pair].
    rewrite bool_decide_eq_false_2 by (rewrite lookup_insert_ne, lookup_empty by done; by intros []).
    cbn [mbind option_bind]. rewrite read_pair_line by done. cbn [read_pair].
    rewrite bool_decide_eq_false_2 by (rewrite !lookup_insert_ne, lookup_empty by done; by intros []). done.
  - rewrite read_pair_line by done. cbn [read_pair].
    rewrite bool_decide_eq_false_2 by (rewrite lookup_insert_ne, lookup_empty by done; by intros []).
    cbn. rewrite delete_id; [done|]. by rewrite lookup_insert_ne, lookup_empty.
Qed.

Lemma read_workspaces acc l : Forall plain_spec l → NoDup (map ws_name l) →
  (∀ ws, ws ∈ l → mem ("workspaces." +:+ ws_name ws) (map fst acc) = false) →
  read_lines acc (flat_map workspace_lines l) = Some (rev (map workspace_table l) ++ acc).
Proof.
  revert acc; induction l as [|ws l IH]; intros acc Hl Hnd Hfree; [done|].
  apply Forall_cons in Hl as [Hws Hl]. apply NoDup_cons in Hnd as [Hn Hnd].
  cbn [flat_map map rev]. rewrite read_lines_app, read_workspace_lines by (done || (apply Hfree; left)).
  cbn [mbind option_bind]. rewrite IH; [by rewrite <- app_assoc|done|done|].
  intros w Hw. change (String.eqb ("workspaces." +:+ ws_name w) ("workspaces." +:+ ws_name ws) ||
    mem ("workspaces." +:+ ws_name w) (map fst acc) = false). rewrite Hfree by (by right). rewrite orb_false_r.
  apply String.eqb_neq. intros Heq%app_inv_l_str. apply Hn. rewrite <- Heq.
  apply list_elem_of_fmap. by exists w.
Qed.

(** What follows the workspaces. *)
Definition core_table (core_base_image git_user git_email : string) : toml_table :=
  <["git_email" := git_email]> (<["git_user" := git_user]> (<["base_distro_family" := "wolfi"]>
    (<["base_image" := core_base_image]> (<["mem_limit" := "8gb"]> (<["shm_size" := "2gb"]> ∅))))).

Lemma read_pair_new name sub acc k v : sub !! k = None →
  read_pair ((name, sub) :: acc) k v = Some ((name, <[k := v]> sub) :: acc).
Proof. intros Hk. cbn. by rewrite Hk. Qed.

(** Read the next line. *)
Ltac next_line := first
  [ rewrite read_pair_line by done; rewrite read_pair_new by (by simplify_map_eq)
  | match goal with |- context [read_line ?a ?l] => change (read_line a l) with (Some a) end ];
  cbn [mbind option_bind].

Lemma read_core acc image git_user git_email : plain image = true → plain git_user = true → plain git_email = true →
  mem "core" (map fst acc) = false →
  read_lines acc (core_lines image git_user git_email) = Some (("core", core_table image git_user git_email) :: acc).
Proof.
  intros Hi Hu He Hfree. unfold core_lines. cbn [read_lines].
  rewrite (read_header acc "core" eq_refl Hfree : read_line acc "[core]" = _). cbn [mbind option_bind].
  do 9 next_line. done.
Qed.

Lemma read_head name uid : plain name = true → plain uid = true →
  read_lines [] (head_lines name uid) = Some [("instance", <["host_uid" := uid]> (<["name" := name]> ∅))].
Proof.
  intros Hn Hu. unfold head_lines. cbn [read_lines]. do 4 next_line.
  rewrite (read_header [] "instance" eq_refl eq_refl : read_line [] "[instance]" = _). cbn [mbind option_bind].
  do 3 next_line. done.
Qed.

(** Lines that begin with a table read the same after others. *)
Lemma read_block acc name rest r : str_forall is_header_char name = true →
  read_lines [] (("[" +:+ name +:+ "]") :: rest) = Some r → mem name (map fst acc) = false →
  (∀ n, n ∈ flat_map header_of rest → mem n (map fst acc) = false) →
  read_lines acc (("[" +:+ name +:+ "]") :: rest) = Some (r ++ acc).
Proof.
  intros Hname Hr Hm Hn. cbn [read_lines] in *. rewrite read_header in Hr |- * by done.
  cbn [mbind option_bind] in *. by apply (read_lines_frame [(name, ∅)] rest r acc).
Qed.

Lemma workspace_of_table ws : workspace_of (workspace_table ws) = Some ws.
Proof.
  unfold workspace_of, workspace_table. cbn [fst snd]. rewrite startswith_app.
  change (sdrop 11 ("workspaces." +:+ ws_name ws)) with (ws_name ws). apply set_fields_spec.
Qed.

Lemma name_not_workspace n ws : startswith "workspaces." n = false → String.eqb n ("workspaces." +:+ ws_name ws) = false.
Proof. intros Hn. apply String.eqb_neq. intros ->. by rewrite startswith_app in Hn. Qed.

Lemma mem_workspace_tables n l tl : startswith "workspaces." n = false →
  mem n (map fst (rev (map workspace_table l) ++ tl)) = mem n (map fst tl).
Proof.
  intros Hn. rewrite map_app. unfold mem. rewrite existsb_app. replace (existsb _ _) with false; [done|].
  symmetry. apply not_true_iff_false. intros (m & Hm & Heq%String.eqb_eq)%existsb_exists. subst m.
  apply in_map_iff in Hm as (e & <- & (ws & <- & _)%in_rev%in_map_iff).
  cbn [fst workspace_table] in Hn. by rewrite startswith_app in Hn.
Qed.

Lemma assoc_workspace_tables n l tl : startswith "workspaces." n = false →
  assoc n (map workspace_table l ++ tl) = assoc n tl.
Proof.
  intros Hn. induction l as [|ws l IH]; [done|]. cbn [map app assoc workspace_table].
  by rewrite name_not_workspace, IH.
Qed.

Lemma str_of_Z_plain n : (0 <= n)%Z → plain (str_of_Z n) = true.
Proof.
  intros Hn. unfold plain. eapply str_forall_impl; [|by apply str_of_Z_dec]. intros c Hc.
  unfold plain_char, is_dec, in_rangeb in *. apply andb_prop in Hc as [H1 H2]. rewrite N.leb_le in *.
  destruct (Ascii.eqb_spec c dq) as [->|_]; [by destruct H1|]. destruct (Ascii.eqb_spec c "\") as [->|_]; [by destruct H2|].
  cbn. apply negb_true_iff, orb_false_iff. split; [apply N.ltb_ge; lia|apply N.eqb_neq; lia].
Qed.

(** The lines of the whole text. *)
Lemma sandbox_toml_lines uid inst specs git_user git_email core db :
  Forall no_nl (head_lines inst (str_of_Z uid)) →
  Forall no_nl (core_lines core git_user git_email ++ other_lines db) →
  split_char nl (sandbox_toml uid inst specs git_user git_email core db) =
    head_lines inst (str_of_Z uid) ++
    split_char nl (rstrip (join NL (flat_map workspace_lines (merge_sort spec_le specs)))) ++
    [""; ""] ++ (core_lines core git_user git_email ++ other_lines db) ++ [""].
Proof.
  intros H1 H2. unfold sandbox_toml, render_workspaces_section. rewrite app_assoc_str.
  set (S := rstrip _). set (A := join NL (head_lines _ _)). set (B := join NL (core_lines _ _ _ ++ _)).
  change (A +:+ NL +:+ S +:+ NL +:+ NL +:+ NL +:+ B +:+ NL)
    with (A +:+ String nl (S +:+ String nl (String nl (String nl (B +:+ String nl ""))))).
  rewrite !split_char_cat. unfold A, B. rewrite !split_join by done.
  change (split_char nl (String nl (String nl ?x))) with ("" :: "" :: split_char nl x).
  by rewrite split_char_cat, split_join.
Qed.

Lemma core_lines_no_nl core git_user git_email : plain core = true → plain git_user = true → plain git_email = true →
  Forall no_nl (core_lines core git_user git_email).
Proof. intros H1 H2 H3. unfold core_lines. by repeat constructor; apply pair_line_no_nl. Qed.

(** The whole text, read: the tables in the file's order. *)
Lemma read_sandbox_toml uid inst specs git_user git_email core db others :
  (0 <= uid)%Z → plain inst = true → Forall plain_spec specs → NoDup (map ws_name specs) →
  plain core = true → plain git_user = true → plain git_email = true →
  Forall no_nl (other_lines db) → read_lines [] (other_lines db) = Some others →
  flat_map header_of (other_lines db) =
    ["runtimes"; "runtimes.node"; "components"; "components.db_postgres"; "components.ingress"; "proxy.whitelist"] →
  read_toml (sandbox_toml uid inst specs git_user git_email core db) =
    Some (("instance", <["host_uid" := str_of_Z uid]> (<["name" := inst]> ∅)) ::
          map workspace_table (merge_sort spec_le specs) ++
          ("core", core_table core git_user git_email) :: rev others).
Proof.
  intros Hu Hi Hs Hnd Hc Hgu Hge Hno Hr Hh. unfold read_toml.
  pose proof (str_of_Z_plain uid Hu) as Hup.
  pose proof (merge_sort_Permutation spec_le specs) as Hp. set (l := merge_sort spec_le specs) in *.
  rewrite sandbox_toml_lines; [|by repeat constructor; apply pair_line_no_nl|].
  2: { apply Forall_app. split; [by apply core_lines_no_nl|done]. }
  rewrite read_lines_app, read_head by done. cbn [mbind option_bind].
  assert (Forall plain_spec l) as Hl by (by rewrite Hp).
  rewrite read_lines_app, (read_section _ l Hl), read_workspaces; [|done|by rewrite Hp|].
  2: { intros ws _. cbn. by destruct (ws_name ws). }
  cbn [mbind option_bind]. rewrite read_lines_app. cbn [read_lines read_line mbind option_bind].
  rewrite read_lines_app, read_lines_app, read_core by (done || by rewrite mem_workspace_tables).
  cbn [mbind option_bind].
  assert (∃ rest, other_lines db = ("[" +:+ "runtimes" +:+ "]") :: rest) as [rest Hrest] by (eexists; reflexivity).
  rewrite Hrest in *.
  assert (∀ n, startswith "workspaces." n = false → n ≠ "core" → n ≠ "instance" →
    mem n (map fst (("core", core_table core git_user git_email) ::
      rev (map workspace_table l) ++ [("instance", <["host_uid" := str_of_Z uid]> (<["name" := inst]> ∅))])) = false) as Hm.
  { intros n H1 H2 H3. change (String.eqb n "core" || mem n (map fst (rev (map workspace_table l) ++
      [("instance", <["host_uid" := str_of_Z uid]> (<["name" := inst]> ∅))])) = false).
    rewrite mem_workspace_tables by done. cbn. by rewrite !(proj2 (String.eqb_neq _ _)). }
  injection Hh as Hh. rewrite (read_block _ "runtimes" rest others); [|done|done|by apply Hm|].
  2: { rewrite Hh. intros n Hn. repeat (apply elem_of_cons in Hn as [->|Hn]; [by apply Hm|]). by apply elem_of_nil in Hn. }
  cbn. rewrite !rev_app_distr. cbn. rewrite rev_app_distr, rev_involutive. cbn. by rewrite <- app_assoc.
Qed.

(** What the tables denote. *)
Lemma tables_denote uid inst specs git_user git_email core others :
  omap workspace_of (rev others) = [] →
  let tables := ("instance", <["host_uid" := uid]> (<["name" := inst]> ∅)) ::
    map workspace_table (merge_sort spec_le specs) ++ ("core", core_table core git_user git_email) :: rev others in
  omap workspace_of tables = merge_sort spec_le specs ∧
  (assoc "instance" tables ≫= λ t, t !! "name") = Some inst ∧
  (assoc "instance" tables ≫= λ t, t !! "host_uid") = Some uid ∧
  (assoc "core" tables ≫= λ t, t !! "git_user") = Some git_user ∧
  (assoc "core" tables ≫= λ t, t !! "git_email") = Some git_email.
Proof.
  intros Ho tables. unfold tables. cbn [assoc String.eqb Ascii.eqb eqb mbind option_bind].
  rewrite !assoc_workspace_tables by done. split_and!; [|by simplify_map_eq..].
  change (omap workspace_of (map workspace_table (merge_sort spec_le specs) ++
    ("core", core_table core git_user git_email) :: rev others) = merge_sort spec_le specs).
  rewrite omap_app. change (omap workspace_of (_ :: rev others)) with (omap workspace_of (rev others)).
  rewrite Ho, app_nil_r. generalize (merge_sort spec_le specs). intros l.
  induction l as [|ws l IH]; [done|]. cbn [map omap list_omap]. by rewrite workspace_of_table, IH.
Qed.

(** C22: init writes what the other commands read.  For workspaces with distinct
    names made of key characters, and for texts without a quote, a backslash or
    a control character, the written sandbox.toml reads back: its workspace
    tables are exactly the requested workspaces, in name order, and the
    instance, the uid and the git identity are the given ones. *)
Theorem sandbox_toml_reads_back uid instance_dir inst specs git_user git_email :
  (0 <= uid)%Z → plain inst = true → Forall plain_spec specs → NoDup (map ws_name specs) →
  plain git_user = true → plain git_email = true →
  ∃ text tables,
    write_sandbox_toml uid instance_dir inst specs git_user git_email =
      Ok (path_join instance_dir "sandbox.toml", text) ∧
    read_toml text = Some tables ∧ omap workspace_of tables = merge_sort spec_le specs ∧
    (assoc "instance" tables ≫= λ t, t !! "name") = Some inst ∧
    (assoc "instance" tables ≫= λ t, t !! "host_uid") = Some (str_of_Z uid) ∧
    (assoc "core" tables ≫= λ t, t !! "git_user") = Some git_user ∧
    (assoc "core" tables ≫= λ t, t !! "git_email") = Some git_email.
Proof.
  intros Hu Hi Hs Hnd Hgu Hge. unfold write_sandbox_toml.
  destruct (image "wolfi_base") as [core|] eqn:Ec; [|done]. destruct (image "postgres") as [db|] eqn:Ed; [|done].
  cbn [mbind res_bind]. injection Ec as <-. injection Ed as <-.
  eexists _, _. split; [reflexivity|].
  match goal with |- context [sandbox_toml _ _ _ _ _ (pinned ?x) (pinned ?y)] =>
    set (core := pinned x); set (db := pinned y) end.
  assert (plain core = true) as Hc by (by vm_compute).
  assert (Forall no_nl (other_lines db)) as Hno by (by apply (bool_decide_unpack _); vm_compute).
  set (others := default [] (read_lines [] (other_lines db))).
  assert (read_lines [] (other_lines db) = Some others) as Hr by (vm_compute; reflexivity).
  assert (omap workspace_of (rev others) = []) as Ho by (by vm_compute).
  rewrite (read_sandbox_toml uid inst specs git_user git_email core db others) by done.
  split; [reflexivity|]. by apply tables_denote.
Qed.

(** A quote in the git identity breaks the file: its line is no line of TOML.
    A line break in it adds a line of its own. *)
Lemma git_user_breaks_toml acc : read_line acc (pair_line "git_user" ("Ann " +:+ DQ +:+ "Nick" +:+ DQ +:+ " Doe")) = None.
Proof. done. Qed.

Lemma git_user_injects acc :
  read_lines acc (split_char nl (pair_line "git_user" ("x" +:+ DQ +:+ NL +:+ "privileged = " +:+ DQ +:+ "yes"))) =
  read_lines acc [pair_line "git_user" "x"; pair_line "privileged" "yes"].
Proof. done. Qed.

Lemma sandbox_toml_reads_back_witness :
  let specs := [MkSpec "web" "copy" (Some "/src/web") "/h/workspaces/a/web"; MkSpec "api" "empty" None "/h/workspaces/a/api"] in
  ∃ text tables, write_sandbox_toml 1000 "/h/instances/a" "a" specs "Ann" "ann@example.org" =
      Ok ("/h/instances/a/sandbox.toml", text) ∧
    read_toml text = Some tables ∧ omap workspace_of tables = rev specs.
Proof.
  intros specs. assert (Forall plain_spec specs) as Hs by (repeat constructor).
  assert (NoDup (map ws_name specs)) as Hnd by (by apply (bool_decide_unpack _)).
  destruct (sandbox_toml_reads_back 1000 "/h/instances/a" "a" specs "Ann" "ann@example.org") as (text & tables & H1 & H2 & H3 & _);
    [lia|reflexivity|exact Hs|exact Hnd|reflexivity|reflexivity|].
  exists text, tables. split; [exact H1|]. split; [exact H2|]. rewrite H3. vm_compute. reflexivity.
Defined.
