(* ===== verification/Init.v ===== *)
(** * cli.main: init

    A program over [init_call]: the calls that the other commands share, by
    [Base], and those of init alone.  [abspath] is [os.path.abspath], [uid] the
    user's, [set_len] of [PrivilegeBoundary].  What a dry run prints is left
    out, and so is the hint about secrets in the environment. *)
From stdpp Require Import sorting.
From S2P Require Import Prelude PyStr HostConfig Walker Json Images Dispatch Preflight Doctor PrivilegeBoundary Secrets Interact Cli Lifecycle Workspaces Scaffold.
From Stdlib Require Import Ascii String.
Open Scope nat_scope.

Inductive init_call : Type :=
  | Base (c : cli_call)
  (* reads *)
  | Environ
  | ReadSecretsFile (p : string)
  | LocalChecks (user : string) (mode : DockerExecutionMode)
  | GitConfig (key : string)
  (* changes *)
  | MakeDir (p : string) (mode : Z)
  | WriteText (p text : string)
  | CreateEnvFile (p : string) (db_postgres mcp_firecrawl : bool)
  | Register (inst instance_dir : string)
  | SeedSecrets (p : string) (secrets : list (string * string))
  | PromptSecrets (p : string) (required : list string).

(** [GitConfig] gives the exit code and the output; [ReadSecretsFile] gives
    [None] for a file that cannot be read. *)
Definition init_answer (c : init_call) : Type :=
  match c with
  | Base c => answer c
  | Environ => string → option string
  | ReadSecretsFile _ => option string
  | LocalChecks _ _ => list CheckResult
  | GitConfig _ => Z * string
  | _ => unit
  end.

Abbreviation iprog := (prog init_answer).
Abbreviation ask c := (perform (answer := init_answer) c).

(** A program of the shared calls. *)
Fixpoint embed {A} (m : cmd A) : iprog A :=
  match m with
  | Ret r => Ret r
  | Do c k => Do (answer := init_answer) (Base c) (λ a, embed (k a))
  end.

(** ** The source of a copied workspace *)

Section source.
Context (home : string) (abspath realpath : string → string) (lstat : string → option bool)
  (exists_ readable : string → bool).

(** The walk returns within its fuel ([walk_ancestors_spec]); [RuntimeError]
    stands for the other case.  The warning about the size is left out. *)
Definition preflight_workspace_source (source instance_workspaces : string) : res unit :=
  let path := realpath source in
  _ ← require (exists_ path) BadParameter;
  _ ← require (readable path) BadParameter;
  _ ← match walk_ancestors home abspath realpath lstat path with
      | Some (Ok _) => Ok tt
      | Some (Err BoundaryPathError) => Err BadParameter
      | Some (Err e) => Err e
      | None => Err RuntimeError
      end;
  let root := realpath instance_workspaces in
  require (negb (startswith (root +:+ "/") path || String.eqb path root)) BadParameter.
End source.

(** ** The checks *)

Definition INSTANCE_NAME_MAX : nat := 30.

Section init.
Context (h : host_env) (loads : string → option JsonValue) (set_len : list JsonValue → nat)
  (abspath : string → string) (uid : Z) (inst : string).

(** [ensure_per_user_state] *)
Definition user_state_dirs (home : string) : list string :=
  home :: map (path_join home) ["config"; "state"; "instances"; "workspaces"].

Definition ensure_per_user_state (home : string) : iprog unit :=
  for_each (user_state_dirs home) (λ p, ask (MakeDir p 448)).

Definition refuse_secret_error {A} (m : iprog A) : iprog A :=
  catch m (λ e, if bool_decide (e = SecretSeedingError) then raise (Exit 1) else raise e).

Definition resolve_secrets (dry_run secrets_from_env : bool) (secrets_from_file : option string)
    : iprog (option (list (string * string))) :=
  if dry_run then mret None
  else if secrets_from_env then
    env ← ask Environ;
    s ← refuse_secret_error (lift (resolve_secrets_from_env env));
    mret (Some s)
  else match secrets_from_file with
  | Some p =>
      s ← refuse_secret_error (raw ← ask (ReadSecretsFile p); lift (parse_secrets_file raw));
      mret (Some s)
  | None => mret None
  end.

Definition init_preflight (user : string) (mode : DockerExecutionMode) : iprog unit :=
  c ← lift (minimal_host_config user mode);
  outcome ← ask (Base (Probe "preflight" [] c));
  gate ← lift (evaluate_preflight_gate outcome);
  if negb (reachable gate) then raise (Exit 1)
  else
    results ← ask (LocalChecks user mode);
    _ ← when (existsb (λ r, bool_decide (status r = FAILED)) results) (raise (Exit 1));
    e ← ask (Base ReadDispatchEnv);
    collision ← lift (interpret_compose_collision_segment loads set_len (de_registry e) (de_dev_username e)
                        (assoc "compose-ls" (per_op gate)));
    when (bool_decide (status collision = FAILED)) (raise (Exit 1)).

(** [None] when git is not installed. *)
Definition git_value (key : string) : iprog (option string) :=
  catch ('(code, out) ← ask (GitConfig key); mret (Some (if (code =? 0)%Z then strip out else "")))
    (λ e, if bool_decide (e = FileNotFoundError) then mret None else raise e).

Definition detect_git_config : iprog (string * string) :=
  name ← git_value "user.name";
  match name with
  | None => mret ("", "")
  | Some name => email ← git_value "user.email"; mret (name, default "" email)
  end.

Definition git_identity (git_user git_email : string) : iprog (string * string) :=
  if nonempty git_user && nonempty git_email then mret (git_user, git_email)
  else
    '(name, email) ← detect_git_config;
    mret (if nonempty git_user then git_user else name, if nonempty git_email then git_email else email).

Record init_request := MkRequest {
  rq_specs : list WorkspaceSpec;
  rq_git_user : string;
  rq_git_email : string;
  rq_secrets : option (list (string * string))
}.

(** Everything before the dry run ends. *)
Definition init_checks (copy empty : list string) (git_user git_email : string)
    (dry_run secrets_from_env : bool) (secrets_from_file : option string) : iprog init_request :=
  _ ← embed refuse_root_euid;
  _ ← lift (validate_name inst INSTANCE_NAME_MAX);
  _ ← when (secrets_from_env && bool_decide (is_Some secrets_from_file)) (raise (Exit 1));
  seeded ← resolve_secrets dry_run secrets_from_env secrets_from_file;
  host_config ← embed resolve_full_host_config;
  _ ← ensure_per_user_state (sandbox_ai_home h);
  specs ← lift (parse_workspace_flags abspath (workspaces_root h inst) copy empty);
  registered ← ask (Base (RegistryGet inst));
  _ ← when (bool_decide (is_Some (registered : option string))) (raise (Exit 1));
  resolved_user ← lift (resolve_daemon_owner h host_config);
  _ ← when (negb dry_run) (init_preflight resolved_user (docker_execution_mode (host host_config)));
  '(git_user, git_email) ← git_identity git_user git_email;
  _ ← for_each (copies specs) (λ c, ask (Base (PreflightSource (fst c))));
  mret (MkRequest specs git_user git_email seeded).

(** ** The scaffold *)

Definition registry_path : string := path_join3 (sandbox_ai_home h) "state" "instances.json".

Definition ensure_registry_seed : iprog unit :=
  there ← ask (Base (PathExists registry_path)); when (negb there) (ask (WriteText registry_path "{}")).

(** The names that are prompted for. *)
Definition required_secrets (config : InstanceConfig) : list string :=
  (REQUIRED_INSTANCE_SECRETS ++ (if mcp_firecrawl config then ["FIRECRAWL_API_KEY"] else []))%list.

Definition secrets_call (env_path : string) (config : InstanceConfig)
    (seeded : option (list (string * string))) : init_call :=
  match seeded with
  | Some s => SeedSecrets env_path s
  | None => PromptSecrets env_path (required_secrets config)
  end.

Definition write_secrets (env_path : string) (config : InstanceConfig)
    (seeded : option (list (string * string))) : iprog unit :=
  match seeded with
  | Some s => ask (SeedSecrets env_path s)
  | None => ask (PromptSecrets env_path (required_secrets config))
  end.

(** S1 and S2: the directories, the copies and the configuration file. *)
Definition init_scaffold (rq : init_request) : iprog unit :=
  let instance_dir := instance_home h inst in
  _ ← for_each (create_instance_dirs instance_dir (rq_specs rq)) (λ '(p, mode), ask (MakeDir p mode));
  _ ← for_each (copies (rq_specs rq)) (λ '(src, p), ask (Base (CopyWorkspace src p)));
  '(toml_path, text) ← lift (write_sandbox_toml uid instance_dir inst (rq_specs rq) (rq_git_user rq) (rq_git_email rq));
  ask (WriteText toml_path text).

(** From S3 on, with the configuration that was read back. *)
Definition init_finish (rq : init_request) (config : InstanceConfig) : iprog unit :=
  let instance_dir := instance_home h inst in
  let env_path := path_join instance_dir ".sandbox.env" in
  _ ← ask (CreateEnvFile env_path (db_postgres_enabled config) (mcp_firecrawl config));
  env ← ask Environ;
  _ ← for_each (apply_default_acls instance_dir (map (λ w, path (snd w)) (workspaces config)) (default "dev" (env "USER")))
        (λ argv, ask (Base (RunCommand argv)));
  _ ← ensure_registry_seed;
  _ ← ask (Register inst instance_dir);
  _ ← write_secrets env_path config (rq_secrets rq);
  ask (WriteText (path_join instance_dir ".initialized") "").

Definition init_apply (rq : init_request) : iprog unit :=
  _ ← init_scaffold rq;
  config ← ask (Base (LoadConfig (instance_home h inst)));
  init_finish rq config.

Definition init (copy empty : list string) (git_user git_email : string)
    (dry_run secrets_from_env : bool) (secrets_from_file : option string) : iprog unit :=
  rq ← init_checks copy empty git_user git_email dry_run secrets_from_env secrets_from_file;
  if dry_run then mret tt else init_apply rq.

(** ** What it changes, in order *)

Open Scope list_scope.

Definition init_change (c : init_call) : bool :=
  match c with
  | Base c => changes c
  | Environ | ReadSecretsFile _ | LocalChecks _ _ | GitConfig _ => false
  | _ => true
  end.

(** The user's tree, which the checks make. *)
Definition tree_plan : list init_call := map (λ p, MakeDir p 448) (user_state_dirs (sandbox_ai_home h)).

(** Up to the configuration file. *)
Definition scaffold_plan (rq : init_request) : list init_call :=
  let instance_dir := instance_home h inst in
  map (λ '(p, mode), MakeDir p mode) (create_instance_dirs instance_dir (rq_specs rq)) ++
  map (λ '(src, p), Base (CopyWorkspace src p)) (copies (rq_specs rq)) ++
  match write_sandbox_toml uid instance_dir inst (rq_specs rq) (rq_git_user rq) (rq_git_email rq) with
  | Ok (p, text) => [WriteText p text]
  | Err _ => []
  end.

(** From the configuration that was read back, ending with the sentinel. *)
Definition finish_plan (rq : init_request) (config : InstanceConfig) (dev_user : string) (fresh : bool)
    : list init_call :=
  let instance_dir := instance_home h inst in
  let env_path := path_join instance_dir ".sandbox.env" in
  CreateEnvFile env_path (db_postgres_enabled config) (mcp_firecrawl config) ::
  map (λ argv, Base (RunCommand argv))
    (apply_default_acls instance_dir (map (λ w, path (snd w)) (workspaces config)) dev_user) ++
  (if fresh then [WriteText registry_path "{}"] else []) ++
  [Register inst instance_dir; secrets_call env_path config (rq_secrets rq);
   WriteText (path_join instance_dir ".initialized") ""].

Lemma flat_map_single {A B} (f : A → B) l : flat_map (λ x, [f x]) l = map f l.
Proof. induction l as [|x l IH]; [done|]. cbn. by rewrite IH. Qed.

Abbreviation stepwise := (stepwise init_change).
Abbreviation stepped := (stepped init_change).

(** ** The checks change nothing but the user's tree *)

Lemma embed_calls {A} (P : init_call → Prop) (m : cmd A) :
  calls_in (λ c, P (Base c)) m → calls_in P (embed m).
Proof. induction m as [r|c k IH]; [done|]. intros [HP Hm]. split; [done|]. intros a. by apply IH. Qed.

Lemma tree_stepwise : stepwise tree_plan (ensure_per_user_state (sandbox_ai_home h)).
Proof.
  unfold tree_plan. rewrite <- flat_map_single. apply stepwise_for_each. intros p. by apply (stepwise_change (answer := init_answer) init_change (MakeDir p 448)).
Qed.

Ltac quiet := apply stepwise_calls_in;
  unfold resolve_secrets, refuse_secret_error, init_preflight, git_identity, detect_git_config, git_value;
  repeat (first [apply embed_calls; unfold refuse_root_euid, resolve_full_host_config, exit1 | progress calls_tac]); try done.

Lemma checks_stepwise copy empty git_user git_email dry_run from_env from_file :
  stepwise tree_plan (init_checks copy empty git_user git_email dry_run from_env from_file).
Proof.
  unfold init_checks. rewrite <- (app_nil_r tree_plan).
  do 5 (apply (stepwise_bind init_change [] (tree_plan ++ [])); [quiet|intros]).
  apply stepwise_bind; [apply tree_stepwise|intros]. quiet.
Qed.

(** ** The scaffold follows its plan *)

Abbreviation changed c := (stepwise_change (answer := init_answer) init_change c eq_refl).

Lemma scaffold_stepwise rq : stepwise (scaffold_plan rq) (init_scaffold rq).
Proof.
  unfold scaffold_plan, init_scaffold. apply stepwise_bind; [|intros _ [] _; apply stepwise_bind; [|intros _ [] _]].
  - rewrite <- flat_map_single. apply stepwise_for_each. intros [p mode]. apply (changed (MakeDir p mode)).
  - rewrite <- flat_map_single. apply stepwise_for_each. intros [src p]. apply (changed (Base (CopyWorkspace src p))).
  - destruct (write_sandbox_toml _ _ _ _ _ _) as [[p text]|e]; [apply (changed (WriteText p text))|apply stepwise_raise].
Qed.

Definition register_plan (rq : init_request) (config : InstanceConfig) : list init_call :=
  let instance_dir := instance_home h inst in
  [Register inst instance_dir; secrets_call (path_join instance_dir ".sandbox.env") config (rq_secrets rq);
   WriteText (path_join instance_dir ".initialized") ""].

Lemma register_stepwise rq config :
  let instance_dir := instance_home h inst in
  stepwise (register_plan rq config)
    (_ ← ask (Register inst instance_dir);
     _ ← write_secrets (path_join instance_dir ".sandbox.env") config (rq_secrets rq);
     ask (WriteText (path_join instance_dir ".initialized") "")).
Proof.
  intros d. apply (stepwise_bind init_change [_]); [apply (changed (Register inst d))|intros _ [] _].
  apply (stepwise_bind init_change [_] [_]); [|intros _ [] _; apply (changed (WriteText _ _))].
  unfold write_secrets, secrets_call. destruct (rq_secrets rq); [apply (changed (SeedSecrets _ _))|apply (changed (PromptSecrets _ _))].
Qed.

Lemma ask_quiet c t r : init_change c = false → runs (ask c) t r →
  Forall (λ e, init_change (ev_call e) = false) t.
Proof. intros Hc Hr. by apply (runs_calls_in (λ c, init_change c = false) (ask c) t r Hr). Qed.

Ltac quiet_call H := match type of H with runs (perform ?c) ?t ?r =>
  pose proof (ask_quiet c t r eq_refl H); clear H; rename select (Forall _ t) into H end.

Lemma seed_stepped t r : runs ensure_registry_seed t r → ∃ fresh : bool,
  stepped (if fresh then [WriteText registry_path "{}"] else []) t r.
Proof.
  intros [(e & -> & Hr)|(t1 & t2 & there & -> & H1 & Hr)]%runs_bind.
  - exists false. apply stepped_none; [|done]. by quiet_call Hr.
  - quiet_call H1. exists (negb there).
    apply (stepped_app init_change [] _ _ _ ()); [by apply stepped_none|].
    destruct there; [by apply (stepwise_Ret init_change (Ok ()))|by apply (changed (WriteText registry_path "{}"))].
Qed.

Lemma finish_stepped rq config t r : runs (init_finish rq config) t r → ∃ dev_user fresh,
  stepped (finish_plan rq config dev_user fresh) t r.
Proof.
  unfold init_finish, finish_plan. fold (register_plan rq config).
  set (d := instance_home h inst). set (create := CreateEnvFile _ _ _).
  intros [(e & -> & Hr)|(t1 & t2 & [] & -> & H1 & Hr)]%runs_bind.
  { exists "", false. apply (stepped_err (A := unit) init_change [create]). by apply (changed create). }
  apply (changed create) in H1. apply runs_bind in Hr as [(e & -> & Hr)|(t2' & t3 & env & -> & H2 & Hr)].
  { exists "", false. apply (stepped_app init_change [create] _ _ _ ()); [done|].
    apply stepped_none; [|done]. by quiet_call Hr. }
  quiet_call H2. exists (default "dev" (env "USER")).
  set (acls := apply_default_acls _ _ _) in *.
  assert (∀ fresh : bool, stepped (map (λ argv, Base (RunCommand argv)) acls ++
    (if fresh then [WriteText registry_path "{}"] else []) ++ register_plan rq config) t3 r →
    stepped (create :: map (λ argv, Base (RunCommand argv)) acls ++
    (if fresh then [WriteText registry_path "{}"] else []) ++ register_plan rq config) (t1 ++ t2' ++ t3) r) as Hwrap.
  { intros fresh H. apply (stepped_app init_change [create] _ _ _ ()); [done|].
    apply (stepped_app init_change [] _ _ _ ()); [by apply stepped_none|done]. }
  assert (stepwise (map (λ argv, Base (RunCommand argv)) acls) (for_each acls (λ argv, ask (Base (RunCommand argv))))) as Hacl.
  { rewrite <- flat_map_single. apply stepwise_for_each. intros argv. apply (changed (Base (RunCommand argv))). }
  apply runs_bind in Hr as [(e & -> & Hr)|(t4 & t5 & [] & -> & H3 & Hr)].
  { exists false. apply (Hwrap false), (stepped_err (A := unit) init_change). by apply Hacl. }
  apply Hacl in H3. apply runs_bind in Hr as [(e & -> & Hr)|(t6 & t7 & [] & -> & H4 & Hr)].
  - apply seed_stepped in Hr as [fresh Hr]. exists fresh. apply Hwrap.
    eapply stepped_app; [exact H3|]. by eapply (stepped_err (A := unit) init_change).
  - apply seed_stepped in H4 as [fresh H4]. exists fresh. apply Hwrap.
    eapply stepped_app; [exact H3|]. eapply stepped_app; [exact H4|]. by apply register_stepwise.
Qed.

(** ** What the checks established *)

Definition base_event (e : event answer) : event init_answer := Ev (answer := init_answer) (Base (ev_call e)) (ev_answer e).

Lemma runs_embed {A} (m : cmd A) t r : runs (embed m) t r → ∃ t0, t = map base_event t0 ∧ runs m t0 r.
Proof.
  revert t; induction m as [r0|c k IH]; intros t Hr.
  - apply runs_Ret in Hr as [-> ->]. exists []. split; [done|constructor].
  - apply runs_Do in Hr as (a & t' & -> & (t0 & -> & Hr)%IH).
    exists (Ev c a :: t0). split; [done|by constructor].
Qed.

Record cleared (copy empty : list string) (dry_run secrets_from_env : bool) (secrets_from_file : option string)
    (t : trace init_answer) (rq : init_request) : Prop := MkCleared {
  cl_user : ∃ euid, Ev (Base Geteuid) (Ok euid) ∈ t ∧ euid ≠ 0%Z;
  cl_name : validate_name inst INSTANCE_NAME_MAX = Ok tt;
  cl_new : Ev (Base (RegistryGet inst)) (Ok None) ∈ t;
  cl_specs : parse_workspace_flags abspath (workspaces_root h inst) copy empty = Ok (rq_specs rq);
  cl_sources : ∀ src p, (src, p) ∈ copies (rq_specs rq) → Ev (Base (PreflightSource src)) (Ok tt) ∈ t;
  cl_secrets : dry_run = false → secrets_from_env || bool_decide (is_Some secrets_from_file) = true →
    (∃ env, Ev Environ (Ok env) ∈ t ∧ ∃ s, resolve_secrets_from_env env = Ok s ∧ rq_secrets rq = Some s) ∨
    (∃ p raw, Ev (ReadSecretsFile p) (Ok raw) ∈ t ∧ ∃ s, parse_secrets_file raw = Ok s ∧ rq_secrets rq = Some s);
  cl_host : ∃ hc user, Ev (Base FromMarker) (Ok hc) ∈ t ∧ resolve_daemon_owner h hc = Ok user ∧
    (dry_run = false → ∃ c outcome gate results,
      minimal_host_config user (docker_execution_mode (host hc)) = Ok c ∧
      Ev (Base (Probe "preflight" [] c)) (Ok outcome) ∈ t ∧
      evaluate_preflight_gate outcome = Ok gate ∧ reachable gate = true ∧
      Ev (LocalChecks user (docker_execution_mode (host hc))) (Ok results) ∈ t ∧
      existsb (λ r, bool_decide (status r = FAILED)) results = false)
}.

(** One step of a run that returned. *)
Ltac step H t a H1 := let t2 := fresh "rest" in
  apply runs_bind_Ok in H as (t & t2 & a & -> & H1 & H).

Lemma lifted {A} (x : res A) t a : runs (lift x : iprog A) t (Ok a) → t = [] ∧ x = Ok a.
Proof. by intros [-> <-]%runs_Ret. Qed.

Lemma guard_passed b e t : runs (when b (raise e) : iprog unit) t (Ok tt) → b = false.
Proof. destruct b; [|done]. by intros [_ ?]%runs_Ret. Qed.

Lemma asked c t a : runs (ask c) t (Ok a) → t = [Ev c (Ok a)].
Proof. apply runs_perform. Qed.

Ltac one_call H := lazymatch type of H with runs (perform ?c) ?t (Ok ?a) =>
  apply (asked c t a) in H; subst t end.

Lemma secrets_resolved dry_run from_env from_file t s :
  runs (resolve_secrets dry_run from_env from_file) t (Ok s) → dry_run = false →
  from_env || bool_decide (is_Some from_file) = true →
  (∃ env, Ev Environ (Ok env) ∈ t ∧ ∃ l, resolve_secrets_from_env env = Ok l ∧ s = Some l) ∨
  (∃ p raw, Ev (ReadSecretsFile p) (Ok raw) ∈ t ∧ ∃ l, parse_secrets_file raw = Ok l ∧ s = Some l).
Proof.
  intros Hr -> Hf. unfold resolve_secrets, refuse_secret_error in Hr.
  assert (∀ (m : iprog _) t l, runs (catch m (λ e, if bool_decide (e = SecretSeedingError) then raise (Exit 1) else raise e)) t (Ok l) →
    runs m t (Ok l : res (list (string * string)))) as Hc.
  { clear. intros m t l [(a & [= ->] & Hr)|(t1 & t2 & e & -> & _ & Hr)]%runs_catch; [done|].
    by destruct (bool_decide _); apply runs_Ret in Hr as [_ ?]. }
  destruct from_env.
  - left. step Hr t1 env H1. one_call H1. step Hr t2 l H2.
    apply Hc, lifted in H2 as [-> H2]. apply runs_Ret in Hr as [-> [= ->]].
    exists env. split; [set_solver|]. by exists l.
  - destruct from_file as [p|]; [|done]. right. step Hr t1 l H1. apply Hc in H1. step H1 t2 raw H2.
    one_call H2. apply lifted in H1 as [-> H1]. apply runs_Ret in Hr as [-> [= ->]].
    exists p, raw. split; [set_solver|]. by exists l.
Qed.

Lemma sources_passed l t : runs (for_each l (λ c : string * string, ask (Base (PreflightSource (fst c))))) t (Ok tt) →
  ∀ src p, (src, p) ∈ l → Ev (Base (PreflightSource src)) (Ok tt) ∈ t.
Proof.
  revert t; induction l as [|[src p] l IH]; intros t Hr; [set_solver|]. cbn [for_each] in Hr.
  step Hr t1 a H1. destruct a. one_call H1. intros src' p' [[= -> ->]|Hin]%elem_of_cons; [set_solver|].
  apply elem_of_app. right. by eapply IH.
Qed.

Lemma preflight_passed user mode t : runs (init_preflight user mode) t (Ok tt) →
  ∃ c outcome gate results, minimal_host_config user mode = Ok c ∧
    Ev (Base (Probe "preflight" [] c)) (Ok outcome) ∈ t ∧
    evaluate_preflight_gate outcome = Ok gate ∧ reachable gate = true ∧
    Ev (LocalChecks user mode) (Ok results) ∈ t ∧
    existsb (λ r, bool_decide (status r = FAILED)) results = false.
Proof.
  unfold init_preflight. intros Hr. step Hr t1 c H1. apply lifted in H1 as [-> Hc].
  step Hr t2 outcome H2. one_call H2.
  step Hr t3 gate H3. apply lifted in H3 as [-> Hg]. destruct (reachable gate) eqn:Eg; cbn [negb] in Hr;
    [|by apply runs_Ret in Hr as [_ ?]].
  step Hr t4 results H4. one_call H4. step Hr t5 a H5. destruct a.
  apply guard_passed in H5. exists c, outcome, gate, results. split_and!; set_solver.
Qed.

Lemma checks_cleared copy empty git_user git_email dry_run from_env from_file t rq :
  runs (init_checks copy empty git_user git_email dry_run from_env from_file) t (Ok rq) →
  cleared copy empty dry_run from_env from_file t rq.
Proof.
  unfold init_checks. intros Hr.
  step Hr t1 u H1. destruct u. apply runs_embed in H1 as (t1' & -> & H1).
  unfold refuse_root_euid in H1. apply runs_bind_Ok in H1 as (ta & tb & euid & -> & Ha & Hb).
  apply (@runs_perform _ answer Geteuid) in Ha as ->.
  destruct (Z.eqb_spec euid 0) as [|Heuid]; [by apply runs_Ret in Hb as [_ ?]|]. apply runs_Ret in Hb as [-> _].
  step Hr t2 u H2. apply lifted in H2 as [-> Hname]. destruct u. step Hr t3 u H3. destruct u. clear H3.
  step Hr t4 seeded H4. step Hr t5 hc H5. apply runs_embed in H5 as (t5' & -> & H5).
  unfold resolve_full_host_config in H5. apply runs_catch in H5 as [(a & [= <-] & H5)|(ta & tb & e & -> & _ & Hb)].
  2: { by destruct (bool_decide _); apply runs_Ret in Hb as [_ ?]. }
  apply (@runs_perform _ answer FromMarker) in H5 as ->.
  step Hr t6 u H6. step Hr t7 specs H7. apply lifted in H7 as [-> Hspecs].
  step Hr t8 reg H8. one_call H8. step Hr t9 u' H9. destruct u'.
  apply guard_passed in H9. destruct reg as [d|]; [by rewrite bool_decide_eq_true_2 in H9|].
  step Hr t10 user H10. apply lifted in H10 as [-> Huser]. step Hr t11 u' H11. destruct u'.
  step Hr t12 git H12. destruct git as [gu ge]. step Hr t13 u' H13. destruct u'. apply runs_Ret in Hr as [-> [= ->]].
  constructor; cbn [rq_specs rq_secrets].
  - exists euid. split; [set_solver|done].
  - done.
  - set_solver.
  - done.
  - intros src p Hin. pose proof (sources_passed _ _ H13 src p Hin). set_solver.
  - intros Hd Hf. destruct (secrets_resolved _ _ _ _ _ H4 Hd Hf) as [(env & He & Hs)|(p & raw & He & Hs)].
    + left. exists env. split; [set_solver|done].
    + right. exists p, raw. split; [set_solver|done].
  - exists hc, user. split_and!; [set_solver|done|]. intros ->. cbn [negb when] in H11.
    destruct (preflight_passed _ _ _ H11) as (c & o & g & rs & ? & ? & ? & ? & ? & ?).
    exists c, o, g, rs. split_and!; [done|set_solver|done|done|set_solver|done].
Qed.

(** ** The command *)

(** C21: init changes nothing before its checks, and finishes with the sentinel.
    In every run, whatever fails: a first part is the run of the checks, which
    make only the user's five directories.  If they raise or the run is dry,
    nothing follows.  Otherwise every check was passed (the user is not root,
    the name is valid and new, the host is set up, the daemon was reached and
    no local check failed, every source was accepted, the required secrets were
    complete), and the changes that follow are a first part of the plan, each
    made after the one before succeeded: directories, copies, the configuration
    file, then from the configuration read back the secrets file, the default
    ACLs, the registry, the secrets and the sentinel.  A run that returns has
    achieved all of it. *)
Theorem init_in_order copy empty git_user git_email dry_run from_env from_file t r :
  runs (init copy empty git_user git_email dry_run from_env from_file) t r →
  ∃ t1 t2 r1, t = t1 ++ t2 ∧
    runs (init_checks copy empty git_user git_email dry_run from_env from_file) t1 r1 ∧
    stepped tree_plan t1 r1 ∧
    match r1 with
    | Err e => t2 = [] ∧ r = Err e
    | Ok rq => cleared copy empty dry_run from_env from_file t1 rq ∧
        if dry_run then t2 = [] ∧ r = Ok tt
        else ∃ config dev_user fresh,
          stepped (scaffold_plan rq ++ finish_plan rq config dev_user fresh) t2 r ∧
          (List.length (scaffold_plan rq) < List.length (attempted init_change t2) →
           Ev (Base (LoadConfig (instance_home h inst))) (Ok config) ∈ t2)
    end.
Proof.
  intros [(e & -> & Hr)|(t1 & t2 & rq & -> & H1 & Hr)]%runs_bind.
  { exists t, [], (Err e). rewrite app_nil_r. split_and!; [done..| |done|done]. by eapply checks_stepwise. }
  exists t1, t2, (Ok rq). split_and!; [done..|by eapply checks_stepwise|by eapply checks_cleared|].
  destruct dry_run; [by apply runs_Ret in Hr as [-> ->]|]. unfold init_apply in Hr.
  apply runs_bind in Hr as [(e & -> & Hr)|(t3 & t4 & [] & -> & H3 & Hr)].
  { apply scaffold_stepwise in Hr. exists (MkInstanceConfig "" [] false false), "", false.
    split; [by apply (stepped_err (A := unit) init_change)|].
    destruct Hr as (k & n & _ & Hn & _ & Hl & _). rewrite Hn. rewrite length_take. lia. }
  apply scaffold_stepwise in H3.
  assert (List.length (attempted init_change t3) = List.length (scaffold_plan rq)) as Hlen.
  { destruct H3 as (k & n & _ & Hn & ? & ? & Hok). specialize (Hok eq_refl). rewrite Hn, length_take. lia. }
  apply runs_bind in Hr as [(e & -> & Hr)|(t5 & t6 & config & -> & H5 & Hr)].
  - exists (MkInstanceConfig "" [] false false), "", false. quiet_call Hr.
    split; [eapply stepped_app; [exact H3|]; by apply stepped_none|].
    rewrite attempted_app, length_app, Hlen, (proj1 (attempted_none _ _ Hr)). cbn. lia.
  - one_call H5. destruct (finish_stepped rq config _ _ Hr) as (dev_user & fresh & Hf).
    exists config, dev_user, fresh. split; [|intros _; set_solver].
    eapply stepped_app; [exact H3|]. apply (stepped_app init_change [] _ _ _ ()); [by apply stepped_none; repeat constructor|done].
Qed.
End init.

(** A dry run makes the user's directories, although it says that it writes
    nothing. *)
Definition init_demo (failing : init_call → option exn) (t : trace init_answer) (c : init_call) : res (init_answer c) :=
  match failing c with
  | Some e => Err e
  | None => match c return res (init_answer c) with
      | Base (RegistryGet _) => Ok None
      | Base c => Ok (demo_answer c)
      | Environ => Ok (λ _, None)
      | ReadSecretsFile _ => Ok None
      | LocalChecks _ _ => Ok []
      | GitConfig _ => Ok (0%Z, "Ann" +:+ NL)
      | _ => Ok tt
      end
  end.

Abbreviation demo_init := (init demo_ids demo_loads (λ l, List.length l) (λ p, p) 1000 "blue").

Lemma dry_run_makes_directories :
  attempted init_change (run_env (init_demo (λ _, None)) (demo_init [] [] "" "" true false None) []).1 = tree_plan demo_ids.
Proof. vm_compute. reflexivity. Qed.

(** A source that contains the destination is accepted: only the other
    direction is looked at. *)
Lemma source_contains_destination :
  preflight_workspace_source "/home/ann" (λ p, p) (λ p, p) (λ _, Some false) (λ _, true) (λ _, true)
    "/home/ann/.sandbox-ai" "/home/ann/.sandbox-ai/workspaces/blue" = Ok tt.
Proof. vm_compute. reflexivity. Qed.

(** The file of secrets is there already: the run stops after the configuration. *)
Lemma init_in_order_witness :
  let failing c := match c with CreateEnvFile _ _ _ => Some OSError | _ => None end in
  ∃ t r t1 t2 rq config dev_user fresh,
    (t, r) = run_env (init_demo failing) (demo_init ["web=/src"] [] "" "" false false None) [] ∧
    r = Err OSError ∧ t = t1 ++ t2 ∧
    cleared demo_ids (λ p, p) "blue" ["web=/src"] [] false false None t1 rq ∧
    stepped init_change (scaffold_plan demo_ids 1000 "blue" rq ++ finish_plan demo_ids "blue" rq config dev_user fresh) t2 r.
Proof.
  intros failing.
  pose proof (run_env_runs (init_demo failing) (demo_init ["web=/src"] [] "" "" false false None) []) as Hr.
  set (x := run_env _ _ _) in Hr.
  assert (x.2 = Err OSError) as Hx by (vm_compute; reflexivity).
  assert (5 < List.length (attempted init_change x.1)) as Hl by (vm_compute; lia).
  destruct (init_in_order demo_ids demo_loads (λ l, List.length l) (λ p, p) 1000 "blue" ["web=/src"] [] "" "" false false None
    x.1 x.2 Hr) as (t1 & t2 & r1 & Ht & _ & H1 & H2).
  destruct r1 as [rq|e].
  - destruct H2 as (Hc & config & dev_user & fresh & Hs & _).
    exists x.1, x.2, t1, t2, rq, config, dev_user, fresh. split; [symmetry; apply surjective_pairing|].
    split; [exact Hx|]. split; [exact Ht|]. split; [exact Hc|exact Hs].
  - exfalso. destruct H2 as [-> _]. rewrite app_nil_r in Ht. rewrite <- Ht in H1.
    destruct H1 as (k & n & _ & Hn & _ & Hle & _). rewrite Hn, length_take in Hl. cbn in Hle, Hl. lia.
Defined.
