(* ===== verification/OnState.v ===== *)
(** * Programs on a state

    A program of [Interact] on a machine whose calls have a meaning: [step s c a
    s'] says that in state [s] the call may answer [a] and leave [s'].  [swp] is
    the weakest precondition with an invariant [I] that holds before every call
    and at the end, so also where a process dies. *)
From S2P Require Import Prelude Interact.

Section on_state.
Context {call : Type} {answer : call → Type} {S : Type}.
Context (step : S → ∀ c : call, res (answer c) → S → Prop).

(** The states along a trace. *)
Fixpoint path (s : S) (t : trace answer) (s' : S) : Prop :=
  match t with
  | [] => s = s'
  | e :: t => ∃ s1, step s (ev_call e) (ev_answer e) s1 ∧ path s1 t s'
  end.

Section swp.
Context (I : S → Prop).

Fixpoint swp {A} (m : prog answer A) (Q : res A → S → Prop) (s : S) : Prop :=
  I s ∧ match m with
  | Ret r => Q r s
  | Do c k => ∀ a s', step s c a s' → swp (k a) Q s'
  end.

Lemma swp_inv {A} (m : prog answer A) Q s : swp m Q s → I s.
Proof. destruct m; by intros []. Qed.

Lemma swp_post {A} (m : prog answer A) Q s t r s' : runs m t r → path s t s' → swp m Q s → Q r s'.
Proof.
  intros Hr. revert s; induction Hr as [r|c k a t r _ IH]; intros s Hp [HI Hm]; cbn in Hp; [by subst|].
  destruct Hp as (s1 & Hs & Hp). by eapply IH; [|apply (Hm a)].
Qed.

(** The invariant at every moment of a run. *)
Lemma swp_always {A} (m : prog answer A) Q s t1 t2 r s1 : runs m (t1 ++ t2) r → path s t1 s1 → swp m Q s → I s1.
Proof.
  revert m s; induction t1 as [|e t1 IH]; intros m s Hr Hp Hm; cbn in Hp; [subst; by eapply swp_inv|].
  destruct Hp as (s2 & Hs & Hp). destruct m as [r'|c k]; [by apply runs_Ret in Hr as [? _]|].
  apply runs_Do in Hr as (a & t & [= -> <-] & Hr). destruct Hm as [_ Hm]. by eapply IH; [| |apply (Hm a)].
Qed.

Lemma swp_mono {A} (m : prog answer A) (Q Q' : res A → S → Prop) s :
  (∀ r s', I s' → Q r s' → Q' r s') → swp m Q s → swp m Q' s.
Proof.
  intros HQ. revert s; induction m as [r|c k IH]; intros s [HI Hm]; (split; [done|]); [by apply HQ|].
  intros a s' Hs. by apply IH, Hm.
Qed.

Lemma swp_ret {A} (r : res A) (Q : res A → S → Prop) s : I s → Q r s → swp (Ret r) Q s.
Proof. by split. Qed.

Lemma swp_bind {A B} (m : prog answer A) (f : A → prog answer B) Q s :
  swp m (λ r s', match r with Ok a => swp (f a) Q s' | Err e => Q (Err e) s' end) s → swp (m ≫= f) Q s.
Proof.
  revert s; induction m as [[a|e]|c k IH]; intros s; [by intros [_ ?]|done|].
  intros [HI Hm]. split; [done|]. intros a s' Hs. by apply IH, Hm.
Qed.

Lemma swp_perform c (Q : res (answer c) → S → Prop) s :
  I s → (∀ a s', step s c a s' → I s' ∧ Q a s') → swp (perform c) Q s.
Proof. intros HI Hc. split; [done|]. intros a s' Hs. by destruct (Hc a s' Hs). Qed.

(** A call before the rest of a program. *)
Lemma swp_call {A} c (f : answer c → prog answer A) Q s :
  I s → (∀ a s', step s c (Ok a) s' → swp (f a) Q s') →
  (∀ e s', step s c (Err e) s' → I s' ∧ Q (Err e) s') → swp (perform c ≫= f) Q s.
Proof.
  intros HI Hf He. split; [done|]. intros [a|e] s' Hs; [by apply Hf|]. by apply He.
Qed.

Lemma swp_catch {A} (m : prog answer A) handler Q s :
  swp m (λ r s', match r with Ok a => Q (Ok a) s' | Err e => swp (handler e) Q s' end) s →
  swp (catch m handler) Q s.
Proof.
  revert s; induction m as [[a|e]|c k IH]; intros s; [done|by intros [_ ?]|].
  intros [HI Hm]. split; [done|]. intros a s' Hs. by apply IH, Hm.
Qed.

Lemma swp_finally {A} (m : prog answer A) (fin : prog answer unit) Q s :
  swp m (λ r s', swp fin (λ r' s'', match r' with Ok _ => Q r s'' | Err e => Q (Err e) s'' end) s') s →
  swp (finally_do m fin) Q s.
Proof.
  revert s; induction m as [r|c k IH]; intros s; cbn [finally_do swp].
  - intros [_ Hf]. apply swp_bind. eapply swp_mono; [|exact Hf].
    intros [[]|e] s' HI HQ; [by apply swp_ret|done].
  - intros [HI Hm]. split; [done|]. intros a s' Hs. by apply IH, Hm.
Qed.

Lemma swp_when b (m : prog answer unit) Q s :
  I s → (b = true → swp m Q s) → (b = false → Q (Ok tt) s) → swp (when b m) Q s.
Proof. intros HI Ht Hf. destruct b; cbn [when]; [by apply Ht|]. split; [done|]. by apply Hf. Qed.
End swp.

Lemma swp_inv_mono {A} (I I' : S → Prop) (m : prog answer A) Q s :
  (∀ s, I s → I' s) → swp I m Q s → swp I' m Q s.
Proof.
  intros HI. revert s; induction m as [r|c k IH]; intros s [? Hm]; (split; [by apply HI|]); [done|].
  intros a s' Hs. by apply IH, Hm.
Qed.

(** A program that only reads. *)
Lemma swp_reads {A} (m : prog answer A) (Q : res A → Prop) s t r s' :
  runs m t r → path s t s' → swp (eq s) m (λ r _, Q r) s → s' = s ∧ Q r.
Proof.
  intros Hr Hp Hm. split; [|exact (swp_post (eq s) m (λ r _, Q r) s t r s' Hr Hp Hm)].
  symmetry. apply (swp_always (eq s) m (λ r _, Q r) s t [] r); [by rewrite app_nil_r|done|done].
Qed.

(** ** Reading

    A program that reads the value [v], or fails on a [fault]. *)
Section gives.
Context (I : S → Prop) (fault : Prop).

Definition gives {A} (m : prog answer A) (s : S) (v : A) : Prop :=
  swp I m (λ r s', s' = s ∧ match r with Ok x => x = v | Err _ => fault end) s.

Lemma gives_read (c : call) s (v : answer c) :
  (∀ a s', step s c a s' → s' = s ∧ match a with Ok x => x = v | Err _ => fault end) → I s → gives (perform c) s v.
Proof. intros Hc HI. apply swp_perform; [done|]. by intros [x|e] s' [-> H]%Hc. Qed.

Lemma gives_ret {A} s (v : A) : I s → gives (mret v) s v.
Proof. intros HI. by apply swp_ret. Qed.

Lemma gives_lift {A} (r : res A) s v : I s → r = Ok v → gives (lift r) s v.
Proof. intros HI ->. by apply gives_ret. Qed.

Lemma gives_bind {A B} (m : prog answer A) (f : A → prog answer B) s v w : gives m s v → gives (f v) s w → gives (m ≫= f) s w.
Proof. intros Hm Hf. apply swp_bind. eapply swp_mono, Hm. intros [x|e] s' HI [-> H]; [by subst|done]. Qed.

Lemma swp_gives {A B} (m : prog answer A) (f : A → prog answer B) Q s v : gives m s v →
  swp I (f v) Q s → (∀ e, fault → Q (Err e) s) → swp I (m ≫= f) Q s.
Proof.
  intros Hm Hf He. apply swp_bind. eapply swp_mono, Hm. intros [x|e] s' HI [-> H]; [by subst|by apply He].
Qed.
End gives.

(** ** Executable runs

    A host that answers every call from its state. *)
Fixpoint exec (machine : S → ∀ c : call, res (answer c) * S) {A} (m : prog answer A) (s : S)
    : trace answer * res A * S :=
  match m with
  | Ret r => ([], r, s)
  | Do c k =>
      let '(a, s1) := machine s c in
      let '(t, r, s2) := exec machine (k a) s1 in (Ev c a :: t, r, s2)
  end.

Lemma exec_runs machine {A} (m : prog answer A) s : runs m (exec machine m s).1.1 (exec machine m s).1.2.
Proof.
  revert s; induction m as [r|c k IH]; intros s; cbn [exec]; [constructor|].
  destruct (machine s c) as [a s1]. specialize (IH a s1).
  destruct (exec machine (k a) s1) as [[t r] s2]. by constructor.
Qed.

Lemma exec_path machine {A} (m : prog answer A) s : (∀ s c, step s c (machine s c).1 (machine s c).2) →
  path s (exec machine m s).1.1 (exec machine m s).2.
Proof.
  intros Hm. revert s; induction m as [r|c k IH]; intros s; cbn [exec]; [done|].
  pose proof (Hm s c) as Hc. destruct (machine s c) as [a s1]. specialize (IH a s1).
  destruct (exec machine (k a) s1) as [[t r] s2]. by exists s1.
Qed.

(** Of a run whose result is known. *)
Lemma exec_at machine {A} (m : prog answer A) s t r s' : exec machine m s = (t, r, s') →
  (∀ s c, step s c (machine s c).1 (machine s c).2) → runs m t r ∧ path s t s'.
Proof.
  intros He Hm. pose proof (exec_runs machine m s) as Hr. pose proof (exec_path machine m s Hm) as Hp.
  by rewrite He in Hr, Hp.
Qed.
End on_state.
