(* ===== verification/BinaryInstall.v ===== *)
(** * core.binary_install: the pinned binary, and its setup phase and check

    The programs of core/binary_install.py, core/setup/l6a_runsc.py and
    core/doctor/checks/runsc_pinned_match.py over the calls of [bin_call], which
    act on the regular files of the reserved directory: content, mode, whether
    root owns it and its immutable bit.  The digest is a parameter. *)
From S2P Require Import Prelude PyStr HostConfig Doctor PhaseRunner Interact OnState.
From Stdlib Require Import Ascii String.
Open Scope nat_scope.

(** ** BINARY_REGISTRY (core/hydration.py) *)

Inductive FetchMethod := GVISOR_TARBALL.
Record BinaryPin := MkPin { url_template : string; version : string; bp_sha512 : string; fetch_method : FetchMethod }.

Definition runsc_sha512 : string :=
  "e227a71c95e794119f6648a44083df945392c6cd457f36abbc49c2b6e0b87c7f01b94e6bf4632f4cb22ee34fbec7a2c34ca03d30efa9c689db76a6215a6e44e1".

Definition BINARY_REGISTRY (name : string) : option BinaryPin :=
  if String.eqb name "runsc" then
    Some (MkPin "https://storage.googleapis.com/gvisor/releases/release/20260511/$(arch)/runsc"
                "20260511" runsc_sha512 GVISOR_TARBALL)
  else None.

(** [BINARY_REGISTRY[name]] *)
Definition registry_pin (name : string) : res BinaryPin := from_option Ok (Err KeyError) (BINARY_REGISTRY name).

Definition RESERVED_DIR : string := "/usr/local/libexec/sandbox-ai".
Definition ARCH_TOKEN : string := "$(arch)".
Definition SHA_DISPLAY_PREFIX : nat := 16.

Definition target_path (name : string) : string := RESERVED_DIR +:+ "/" +:+ name.
Definition staging_path (name : string) : string := RESERVED_DIR +:+ "/." +:+ name +:+ ".staging".
(** What [tempfile.mkstemp] makes of the prefix; [suffix] is its random part. *)
Definition temp_path (prefix suffix : string) : string := RESERVED_DIR +:+ "/" +:+ prefix +:+ suffix.
Definition dl_prefix (name : string) : string := "." +:+ name +:+ ".dl.".
Abbreviation dl_path name := (temp_path (dl_prefix name)).

Definition pinned_sha (name : string) : res string := pin ← registry_pin name; Ok (bp_sha512 pin).
Definition resolved_url (name machine : string) : res string :=
  pin ← registry_pin name; Ok (replace ARCH_TOKEN machine (url_template pin)).

Inductive DriftStatus := absent | matching | drift.
#[export] Instance drift_status_eq_dec : EqDecision DriftStatus.
Proof. solve_decision. Defined.
Record DriftResult := MkDrift { drift_status : DriftStatus; installed_sha : option string; dr_pinned_sha : string }.

Definition classify (installed : option string) (pinned : string) : DriftStatus :=
  match installed with
  | None => absent
  | Some sha => if String.eqb sha pinned then matching else drift
  end.

(** ** The calls *)

Record bfile := MkFile { content : string; mode : Z; of_root : bool; immutable : bool }.

Inductive bin_call : Type :=
  (* reads *)
  | IsFile (p : string)
  | Exists (p : string)
  | ReadBytes (p : string)
  | Machine
  | Urlopen (url : string)
  (* changes *)
  | MkReserved
  | Mkstemp (prefix : string)
  | WriteBytes (p data : string)
  | Rename (src dst : string)
  | Unlink (p : string)
  | Chmod (p : string) (m : Z)
  | ChownRoot (p : string)
  | Chattr (seal : bool) (p : string).

Definition bin_answer (c : bin_call) : Type :=
  match c with
  | IsFile _ | Exists _ => bool
  | ReadBytes _ | Machine | Urlopen _ | Mkstemp _ => string
  | _ => unit
  end.

Abbreviation bprog := (prog bin_answer).
Abbreviation bcall c := (perform (answer := bin_answer) c).

Section binary_install.
Context (sha512 : string → string).

(** The digest of the chunks is that of the content. *)
Definition file_sha512 (p : string) : bprog string := data ← bcall (ReadBytes p); mret (sha512 data).

Definition detect_drift (name : string) : bprog DriftResult :=
  pinned ← lift (pinned_sha name);
  there ← bcall (IsFile (target_path name));
  installed ← (if (there : bool) then sha ← file_sha512 (target_path name); mret (Some sha) else mret None);
  mret (MkDrift (classify installed pinned) installed pinned).

Definition verify_only (name : string) : bprog DriftResult := detect_drift name.

(** [BinarySha512MismatchError] is a [SandboxExecutionError]. *)
Definition BinarySha512MismatchError (name expected actual : string) : exn :=
  SandboxExecutionError ("[FATAL] Sandbox Execution Fault: pinned binary '" +:+ name +:+
    "' sha512 mismatch (expected " +:+ expected +:+ ", got " +:+ actual +:+ "); refusing to install.") false.

Definition download_and_verify (name dest : string) : bprog unit :=
  _ ← lift (registry_pin name);
  machine ← bcall Machine;
  url ← lift (resolved_url name machine);
  data ← bcall (Urlopen url);
  _ ← bcall (WriteBytes dest data);
  actual ← file_sha512 dest;
  expected ← lift (pinned_sha name);
  when (negb (String.eqb actual expected)) (raise (BinarySha512MismatchError name expected actual)).

Definition discard (p : string) : bprog unit :=
  there ← bcall (Exists p); when there (bcall (Unlink p)).

(** [os.replace] and [os.rename] are the same call here. *)
Definition stage_download (name tmp : string) : bprog unit :=
  finally_do (_ ← download_and_verify name tmp; bcall (Rename tmp (staging_path name))) (discard tmp).

Definition unseal (force : bool) (name : string) : bprog unit :=
  when force (there ← bcall (Exists (target_path name)); when there (bcall (Chattr false (target_path name)))).

Definition place_staged (name : string) (force : bool) : bprog unit :=
  finally_do
    (_ ← bcall (Chmod (staging_path name) 493);
     _ ← bcall (ChownRoot (staging_path name));
     _ ← unseal force name;
     _ ← bcall (Rename (staging_path name) (target_path name));
     bcall (Chattr true (target_path name)))
    (discard (staging_path name)).

Definition install_pinned (name : string) (force : bool) : bprog unit :=
  _ ← bcall MkReserved;
  tmp ← bcall (Mkstemp (dl_prefix name));
  _ ← stage_download name tmp;
  place_staged name force.

(** ** core/setup/l6a_runsc.py; [force] is the toggle [_FORCE.enabled] *)

(** The ellipsis is written as its UTF-8 bytes. *)
Definition ELLIPSIS : string := "…".
Definition sha_prefix (sha : string) : string := substring 0 SHA_DISPLAY_PREFIX sha +:+ ELLIPSIS.

Definition l6a_probe (force : bool) : bprog (PhaseResult * string) :=
  d ← detect_drift "runsc";
  mret match drift_status d with
  | absent => (MISSING, "runsc absent at /usr/local/libexec/sandbox-ai/runsc; will install")
  | matching => (ALREADY_CORRECT, "runsc present and matches the pinned sha512")
  | drift =>
      let detail := "runsc version drift: installed sha " +:+ sha_prefix (default "?" (installed_sha d)) +:+
        ", pinned sha " +:+ sha_prefix (dr_pinned_sha d) +:+ ". To update: sudo sandbox setup --update-runsc" in
      (DRIFT, if force then detail +:+ " (--update-runsc: will overwrite)" else detail)
  end.

Definition l6a_act (force : bool) : bprog string :=
  d ← detect_drift "runsc";
  if bool_decide (drift_status d = drift) && negb force then
    mret ("runsc drift left in place (installed sha " +:+ default "None" (installed_sha d) +:+
          ", pinned sha " +:+ dr_pinned_sha d +:+ "); run --update-runsc to overwrite")
  else
    _ ← install_pinned "runsc" force;
    mret "runsc installed at /usr/local/libexec/sandbox-ai/runsc".

Definition l6a_reverify : bprog bool :=
  d ← detect_drift "runsc"; mret (bool_decide (drift_status d = matching)).

(** ** core/doctor/checks/runsc_pinned_match.py *)

Definition check_runsc_pinned_match : bprog CheckResult :=
  d ← verify_only "runsc";
  mret match drift_status d with
  | matching =>
      MkCheckResult PASS "runsc pinned match"
        ("runsc matches pinned sha (" +:+ sha_prefix (default "" (installed_sha d)) +:+ ")") None None ""
  | absent =>
      MkCheckResult SKIP "runsc pinned match" "runsc not installed; run 'sudo sandbox setup' to install"
        (Some "run 'sudo sandbox setup' to install runsc") None ""
  | drift =>
      MkCheckResult WARN "runsc pinned match"
        ("runsc drift: installed sha " +:+ sha_prefix (default "" (installed_sha d)) +:+ ", pinned sha " +:+
         sha_prefix (dr_pinned_sha d) +:+ ". Run 'sudo sandbox setup --update-runsc' to apply.")
        (Some "run 'sudo sandbox setup --update-runsc' to apply the pinned version") None ""
  end.
End binary_install.

(** ** The disk the calls act on *)

Abbreviation disk := (gmap string bfile).

Definition with_content (d : string) (f : bfile) : bfile := MkFile d (mode f) (of_root f) (immutable f).
Definition with_mode (m : Z) (f : bfile) : bfile := MkFile (content f) m (of_root f) (immutable f).
Definition with_root (f : bfile) : bfile := MkFile (content f) (mode f) true (immutable f).
Definition with_seal (b : bool) (f : bfile) : bfile := MkFile (content f) (mode f) (of_root f) b.

(** A change of a file's attributes, which the immutable bit refuses. *)
Definition changes (g : bfile → bfile) (p : string) (s : disk) (a : res unit) (s' : disk) : Prop :=
  match a with
  | Ok _ => ∃ f, s !! p = Some f ∧ immutable f = false ∧ s' = <[p := g f]> s
  | Err _ => s' = s
  end.

(** A failed write may leave any content, a failed [chattr] either bit. *)
Definition bin_step (s : disk) (c : bin_call) : res (bin_answer c) → disk → Prop :=
  match c with
  | IsFile p | Exists p => λ a s', s' = s ∧ ∀ b, a = Ok b → b = bool_decide (is_Some (s !! p))
  | ReadBytes p => λ a s', s' = s ∧ ∀ d, a = Ok d → content <$> s !! p = Some d
  | Machine | Urlopen _ => λ a s', s' = s
  | MkReserved => λ a s', s' = s
  | Mkstemp prefix => λ a s',
      match a with
      | Ok p => (∃ suffix, p = temp_path prefix suffix) ∧ s !! p = None ∧
                ∃ o, s' = <[p := MkFile "" 384 o false]> s
      | Err _ => s' = s
      end
  | WriteBytes p data => λ a s',
      match a with
      | Ok _ => changes (with_content data) p s (Ok tt) s'
      | Err _ => s' = s ∨ ∃ d, changes (with_content d) p s (Ok tt) s'
      end
  | Rename src dst => λ a s',
      match a with
      | Ok _ => ∃ f, s !! src = Some f ∧ immutable f = false ∧
                (∀ g, s !! dst = Some g → immutable g = false) ∧ s' = <[dst := f]> (delete src s)
      | Err _ => s' = s
      end
  | Unlink p => λ a s',
      match a with
      | Ok _ => ∃ f, s !! p = Some f ∧ immutable f = false ∧ s' = delete p s
      | Err _ => s' = s
      end
  | Chmod p m => λ a s', changes (with_mode m) p s a s'
  | ChownRoot p => λ a s', changes with_root p s a s'
  | Chattr b p => λ a s',
      let sealed := ∃ f, s !! p = Some f ∧ s' = <[p := with_seal b f]> s in
      match a with Ok _ => sealed | Err _ => s' = s ∨ sealed end
  end.

(** ** What an installation does to the disk *)

(** The call at the head of a program. *)
Ltac bin_call_step :=
  lazymatch goal with
  | |- swp _ ?I (perform ?c ≫= ?f) ?Q ?s => apply (swp_call bin_step I c f Q s)
  | |- swp _ ?I (perform ?c) ?Q ?s => apply (swp_perform bin_step I c Q s)
  end.

Lemma length_sapp s1 s2 : String.length (s1 +:+ s2) = String.length s1 + String.length s2.
Proof. induction s1 as [|c s1 IH]; [done|]. cbn. by rewrite IH. Qed.

Lemma sapp_inv_l s s1 s2 : s +:+ s1 = s +:+ s2 → s1 = s2.
Proof. induction s as [|c s IH]; [done|]. cbn. intros [= H]. by apply IH. Qed.

Lemma reserved_paths_differ name suffix :
  target_path name ≠ staging_path name ∧ dl_path name suffix ≠ target_path name ∧
  dl_path name suffix ≠ staging_path name.
Proof.
  unfold target_path, staging_path, temp_path, dl_prefix. split_and!; intros H%sapp_inv_l.
  1,2: apply (f_equal String.length) in H; cbn in H; rewrite !length_sapp in H; cbn in H;
    rewrite ?length_sapp in H; cbn in H; lia.
  cbn in H. injection H as H. rewrite app_assoc_str in H. apply sapp_inv_l in H. done.
Qed.

Section install.
Context (name : string) (force : bool).
Local Abbreviation T := (target_path name).
Local Abbreviation St := (staging_path name).
(** What may be installed, and where it is fetched to. *)
Context (good : string → Prop) (prefix : string).
Definition temp_apart : Prop := ∀ suffix, temp_path prefix suffix ≠ T ∧ temp_path prefix suffix ≠ St.
Context (Hapart : temp_apart) (s : disk).

Definition good_content (f : bfile) : Prop := good (content f).
(** A file whose content is a good one, executable and root's. *)
Definition pinned_file (f : bfile) : Prop := good_content f ∧ mode f = 493%Z ∧ of_root f = true.

Definition others (s1 : disk) : Prop := ∀ q, q ≠ T → q ≠ St → s1 !! q = s !! q.

(** What holds of the disk [s1] at every moment of an installation begun on [s]. *)
Definition during (s1 : disk) : Prop :=
  (with_seal false <$> s1 !! T = with_seal false <$> s !! T ∨ ∃ f, s1 !! T = Some f ∧ pinned_file f) ∧
  (force = false → ∀ f, s !! T = Some f → immutable f = true → s1 !! T = Some f) ∧
  (∀ q, q ≠ T → q ≠ St → s1 !! q = s !! q ∨ s !! q = None ∧ ∃ suffix, q = temp_path prefix suffix).

Definition placed (s1 : disk) : Prop :=
  (∃ f, s1 !! T = Some f ∧ pinned_file f ∧ immutable f = true) ∧ s1 !! St = None ∧ others s1.

Lemma during_refl : during s.
Proof. split_and!; [by left|by intros|by left]. Qed.

Lemma during_agree s1 s2 : (∀ q, q ≠ St → s2 !! q = s1 !! q) → during s1 → during s2.
Proof.
  pose proof (reserved_paths_differ name "") as (? & _ & _).
  intros Hq (? & ? & Ho). unfold during. rewrite (Hq T) by done.
  split_and!; [done|done|]. intros q ??. rewrite (Hq q) by done. by apply Ho.
Qed.

Lemma during_temp s1 s2 suffix : s !! temp_path prefix suffix = None →
  (∀ q, q ≠ St → q ≠ temp_path prefix suffix → s2 !! q = s1 !! q) → during s1 → during s2.
Proof.
  pose proof (reserved_paths_differ name "") as (? & _ & _). destruct (Hapart suffix).
  intros Hn Hq (? & ? & Ho). unfold during. rewrite (Hq T) by done.
  split_and!; [done|done|]. intros q ??. destruct (decide (q = temp_path prefix suffix)) as [->|]; [right; eauto|].
  rewrite (Hq q) by done. by apply Ho.
Qed.

Lemma during_target s1 f : (force = false → ∀ g, s1 !! T = Some g → immutable g = false) →
  (pinned_file f ∨ ∃ g b, s1 !! T = Some g ∧ f = with_seal b g) → during s1 → during (<[T := f]> s1).
Proof.
  intros Hf Hg (Ht & Hs & Ho). unfold during. rewrite lookup_insert_eq. split_and!.
  - destruct Hg as [?|(g & b & Hg & ->)]; [eauto|]. rewrite Hg in Ht.
    destruct Ht as [Ht|(g' & [= <-] & Hp)]; [left|right].
    + by rewrite <- Ht.
    + exists (with_seal b g). split; [done|]. by destruct Hp as (? & ? & ?).
  - intros Hforce g Hg' Hi. specialize (Hs Hforce g Hg' Hi). specialize (Hf Hforce g Hs). congruence.
  - intros q ??. rewrite lookup_insert_ne by done. by apply Ho.
Qed.

(** Every change of the two stages keeps [during]; a change of a path that is
    neither the target nor the temporary is [during_agree]'s. *)
Local Abbreviation Inv := during.

Lemma swp_discard p (Q : res unit → disk → Prop) s1 : Inv s1 →
  Inv (delete p s1) →
  (∀ s2, Inv s2 → s2 !! p = None → (∀ q, q ≠ p → s2 !! q = s1 !! q) → Q (Ok tt) s2) →
  (∀ e, Q (Err e) s1) → swp bin_step Inv (discard p) Q s1.
Proof.
  intros HI Hd HQ He. unfold discard. bin_call_step; [done| |by intros e s' [-> _]].
  intros b s' [-> Hb]. specialize (Hb b eq_refl). apply swp_when; [done| |].
  - intros _. bin_call_step; [done|]. intros [[]|e] s'.
    + intros (f & Hf & _ & ->). split; [done|].
      apply HQ; [done|by rewrite lookup_delete_eq|intros q ?; by rewrite lookup_delete_ne].
    + by intros ->.
  - intros ->. symmetry in Hb. rewrite bool_decide_eq_false in Hb.
    apply HQ; [done| |done]. destruct (s1 !! p) eqn:E; [|done]. by destruct Hb.
Qed.

(** The staging path holds the verified content, in the file [f]. *)
Definition ready (f : bfile) (s1 : disk) : Prop :=
  others s1 ∧ s1 !! St = Some f ∧ good_content f ∧ immutable f = false.

Lemma ready_change g f s1 s2 : (∀ f, content (g f) = content f ∧ immutable (g f) = immutable f) →
  changes g St s1 (Ok tt) s2 → ready f s1 → Inv s1 → ready (g f) s2 ∧ Inv s2.
Proof.
  intros Hg (f' & Hf & Hi & ->) (Ho & Hs & Hc & _) HI. destruct (Hg f) as [Hgc Hgi].
  replace f' with f in * by congruence. split.
  - split_and!; [|by rewrite lookup_insert_eq|by unfold good_content; rewrite Hgc|by rewrite Hgi].
    intros q ??. rewrite lookup_insert_ne by done. by apply Ho.
  - apply (during_agree s1); [|done]. intros q ?. by rewrite lookup_insert_ne.
Qed.

Section staging.
Context (suffix : string).
Local Abbreviation tmp := (temp_path prefix suffix).
Hypothesis Hfresh : s !! tmp = None.

(** The temporary is there, of the caller's making. *)
Definition downloading (s1 : disk) : Prop :=
  (∃ f, s1 !! tmp = Some f ∧ immutable f = false) ∧ ∀ q, q ≠ tmp → s1 !! q = s !! q.

Lemma downloading_inv s1 : downloading s1 → Inv s1.
Proof. intros [_ Hq]. apply (during_temp s s1 suffix); [done| |apply during_refl]. intros q _. apply Hq. Qed.
Hint Resolve downloading_inv : core.

Lemma downloading_write s1 s2 d : downloading s1 → changes (with_content d) tmp s1 (Ok tt) s2 →
  downloading s2 ∧ content <$> s2 !! tmp = Some d.
Proof.
  intros [_ Hq] (f & Hf & Hi & ->). rewrite lookup_insert_eq. split; [split|done].
  - exists (with_content d f). by rewrite lookup_insert_eq.
  - intros q ?. rewrite lookup_insert_ne by done. by apply Hq.
Qed.

(** A fetched file goes to the staging path and the temporary is gone. *)
Lemma during_gone s1 s2 : Inv s1 → (∀ q, q ≠ St → q ≠ tmp → s2 !! q = s1 !! q) → Inv s2.
Proof. intros ??. by eapply during_temp. Qed.

Lemma swp_drop s1 : Inv s1 → swp bin_step Inv (discard tmp) (λ _ _, True) s1.
Proof.
  intros HI. apply swp_discard; [done| |done..]. eapply during_gone; [done|]. intros q ??. by rewrite lookup_delete_ne.
Qed.

Lemma swp_promote s1 f : downloading s1 → s1 !! tmp = Some f → good_content f → immutable f = false →
  swp bin_step Inv (bcall (Rename tmp St))
    (λ r, swp bin_step Inv (discard tmp) (λ r' s2, r = Ok tt → r' = Ok tt → ready f s2)) s1.
Proof.
  intros Hd Hf Hc Hi. destruct (Hapart suffix) as [_ ?]. pose proof (downloading_inv _ Hd) as HI.
  destruct Hd as [_ Hd]. bin_call_step; [done|]. intros [[]|e] s3; cbn [bin_step].
  2: { intros ->. split; [done|]. eapply swp_mono; [|by apply swp_drop]. by intros. }
  intros (f' & Hf' & _ & _ & ->). replace f' with f in * by congruence.
  assert (HI3 : Inv (<[St:=f]> (delete tmp s1))).
  { eapply during_gone; [exact HI|]. intros q ??. rewrite lookup_insert_ne by done. by rewrite lookup_delete_ne. }
  split; [done|]. apply swp_discard; [done| | |by intros].
  - eapply during_gone; [exact HI3|]. intros q ??. by rewrite lookup_delete_ne.
  - intros s4 _ Ht4 Hq4 _ _. split_and!; [|by rewrite Hq4, lookup_insert_eq|done|done].
    intros q ??. destruct (decide (q = tmp)) as [->|]; [by rewrite Ht4|].
    rewrite Hq4, lookup_insert_ne, lookup_delete_ne by done. by apply Hd.
Qed.
End staging.

Lemma swp_unseal f s1 : ready f s1 → Inv s1 →
  swp bin_step Inv (unseal force name) (λ _ s2, ready f s2) s1.
Proof.
  destruct (reserved_paths_differ name "") as (? & _ & _). intros Hr HI. unfold unseal.
  apply swp_when; [done| |done]. intros Hforce. bin_call_step; [done| |by intros e s' [-> _]].
  intros b s' [-> _]. apply swp_when; [done| |done]. intros _. bin_call_step; [done|].
  assert (Hcase : ∀ s2, (∃ g, s1 !! T = Some g ∧ s2 = <[T := with_seal false g]> s1) → Inv s2 ∧ ready f s2).
  { intros s2 (g & Hg & ->). split.
    - apply during_target; [by rewrite Hforce|eauto|done].
    - destruct Hr as (Ho & Hs & ? & ?). split_and!; [|by rewrite lookup_insert_ne|done|done].
      intros q ??. rewrite lookup_insert_ne by done. by apply Ho. }
  intros [[]|e] s2; cbn [bin_step]; [by apply Hcase|]. intros [->|?]; [done|by apply Hcase].
Qed.

Lemma swp_place_staged f s1 : ready f s1 → Inv s1 →
  swp bin_step Inv (place_staged name force) (λ r s2, r = Ok tt → placed s2) s1.
Proof.
  destruct (reserved_paths_differ name "") as (? & _ & _).
  assert (Hdel : ∀ s1, Inv s1 → Inv (delete St s1))
    by (intros ??; eapply during_agree; [|done]; intros q ?; by rewrite lookup_delete_ne).
  assert (Hdie : ∀ (e : exn) s2, Inv s2 → swp bin_step Inv (discard St)
      (λ r s3, match r with Ok _ => (Err e : res unit) = Ok tt → placed s3 | Err e' => Err e' = Ok tt → placed s3 end) s2)
    by (intros; apply swp_discard; [done|by apply Hdel|by intros|by intros]).
  intros Hr HI. unfold place_staged. apply swp_finally.
  bin_call_step; [done| |by intros e s' ->; split; [|by apply Hdie]].
  intros [] s2 H2. destruct (ready_change (with_mode 493) f s1 s2) as [Hr2 HI2]; [done..|].
  bin_call_step; [done| |by intros e s' ->; split; [|by apply Hdie]].
  intros [] s3 H3. destruct (ready_change with_root (with_mode 493 f) s2 s3) as [Hr3 HI3]; [done..|].
  set (f3 := with_root (with_mode 493 f)) in *.
  apply swp_bind. eapply swp_mono; [|by apply (swp_unseal f3)].
  intros [[]|e] s4 HI4 Hr4; [|by apply Hdie].
  bin_call_step; [done| |by intros e s' ->; split; [|by apply Hdie]].
  intros [] s5 (f' & Hf' & Hi & Ht & ->). destruct Hr4 as (Ho & Hs & Hc & _).
  replace f' with f3 in * by congruence. clear f' Hf'.
  assert (Hp : pinned_file f3) by done.
  assert (HI5 : Inv (<[T:=f3]> (delete St s4))).
  { apply during_target; [|by left|by apply Hdel]. intros _ g. rewrite lookup_delete_ne by done. apply Ht. }
  assert (Hseal : Inv (<[T := with_seal true f3]> (<[T:=f3]> (delete St s4)))).
  { apply during_target; [|by left|done].
    intros _ g. rewrite lookup_insert_eq. by intros [= <-]. }
  bin_call_step; [done|]. intros [[]|e] s6; cbn [bin_step].
  2: { intros [->|(g & [= <-]%(eq_trans (eq_sym (lookup_insert_eq _ _ _))) & ->)]; by split; [|apply Hdie]. }
  intros (g & [= <-]%(eq_trans (eq_sym (lookup_insert_eq _ _ _))) & ->). split; [done|].
  apply swp_discard; [done|by apply Hdel| |by intros]. intros s7 _ Hst Hq _. split_and!; [|done|].
  - exists (with_seal true f3). by rewrite Hq, lookup_insert_eq.
  - intros q ??. rewrite Hq, !lookup_insert_ne, lookup_delete_ne by done. by apply Ho.
Qed.

End install.

Section pinned.
Context (sha512 : string → string) (name : string) (force : bool) (s : disk).

(** The content that BINARY_REGISTRY pins. *)
Definition pinned_content (c : string) : Prop := Ok (sha512 c) = pinned_sha name.

Lemma pinned_apart : temp_apart name (dl_prefix name).
Proof. intros suffix. by destruct (reserved_paths_differ name suffix) as (_ & ? & ?). Qed.
Hint Resolve pinned_apart : core.

Local Abbreviation pinned_during := (during name force pinned_content (dl_prefix name)).
Local Abbreviation pinned_placed := (placed name pinned_content).
Local Abbreviation St := (staging_path name).
Local Abbreviation Inv := (pinned_during s).
Local Abbreviation ready := (ready name pinned_content s).
Local Abbreviation good_content := (good_content pinned_content).

Section download.
Context (suffix : string) (Hfresh : s !! dl_path name suffix = None).
Local Abbreviation tmp := (dl_path name suffix).
Local Abbreviation downloading := (downloading (dl_prefix name) s suffix).
Hint Resolve downloading_inv : core.

Lemma swp_download s1 : downloading s1 →
  swp bin_step Inv (download_and_verify sha512 name tmp)
    (λ r s2, downloading s2 ∧
             (r = Ok tt → ∃ f, s2 !! tmp = Some f ∧ good_content f ∧ immutable f = false)) s1.
Proof.
  intros Hs. unfold download_and_verify, file_sha512. apply swp_bind. apply swp_ret; [eauto|].
  destruct (registry_pin name) as [pin|] eqn:Hpin; [|done].
  bin_call_step; [eauto| |by intros e s' ->; split; [eauto|done]]. intros machine s' ->.
  apply swp_bind. apply swp_ret; [eauto|]. destruct (resolved_url name machine); [|done].
  bin_call_step; [eauto| |by intros e s' ->; split; [eauto|done]]. intros data s' ->.
  bin_call_step; [eauto| |].
  2: { intros e s' [->|[d Hd]]; [by split; [eauto|]|].
       destruct (downloading_write _ _ _ _ _ _ Hs Hd) as [? _]. split; [eauto|done]. }
  intros [] s2 Hw. destruct (downloading_write _ _ _ _ _ _ Hs Hw) as [Hs2 Hc]. clear Hs Hw.
  apply swp_bind. bin_call_step; [eauto| |by intros e s' [-> _]; split; [eauto|done]].
  intros d s' [-> Hd]. specialize (Hd d eq_refl). apply swp_ret; [eauto|]. cbv beta iota.
  apply swp_bind. apply swp_ret; [eauto|].
  destruct (pinned_sha name) as [expected|] eqn:Hp; [|done].
  apply swp_when; [eauto|by intros _; apply swp_ret; [eauto|]|].
  intros Heq%negb_false_iff%String.eqb_eq. split; [done|]. intros _.
  destruct Hs2 as [(f & Hf & Hi) _]. exists f. split_and!; [done| |done].
  rewrite Hf in Hd. injection Hd as <-. unfold good_content, pinned_content; by rewrite Heq.
Qed.

Lemma swp_stage_download s1 : downloading s1 →
  swp bin_step Inv (stage_download sha512 name tmp)
    (λ r s2, r = Ok tt → ∃ f, ready f s2) s1.
Proof.
  intros Hs. unfold stage_download. apply swp_finally, swp_bind.
  eapply swp_mono; [|by apply swp_download]. intros [[]|e] s2 HI [Hd Hok]; cbv beta iota.
  2: { eapply swp_mono; [|by eapply swp_drop; eauto]. by intros [[]|e'] s3. }
  destruct (Hok eq_refl) as (f & Hf & Hc & Hi). eapply swp_mono; [|by eapply swp_promote; eauto].
  intros r s3 _ H3. eapply swp_mono; [|exact H3]. intros [[]|e'] s4 _; [|done]. intros H4 Hr. exists f. by apply H4.
Qed.
End download.

Lemma swp_install : swp bin_step Inv (install_pinned sha512 name force) (λ r s2, r = Ok tt → pinned_placed s s2) s.
Proof.
  pose proof (during_refl name force pinned_content (dl_prefix name) s) as HI. unfold install_pinned.
  bin_call_step; [done| |by intros e s' ->]. intros [] s' ->.
  bin_call_step; [done| |by intros e s' ->]. intros tmp s1 ([suffix ->] & Hn & o & ->).
  assert (Hd : downloading (dl_prefix name) s suffix (<[dl_path name suffix := MkFile "" 384 o false]> s)).
  { split; [eexists; by rewrite lookup_insert_eq|]. intros q ?. by rewrite lookup_insert_ne. }
  apply swp_bind. eapply swp_mono; [|by apply swp_stage_download].
  intros [[]|e] s2 HI2 Hr; [|done]. destruct (Hr eq_refl) as [f Hf]. by eapply swp_place_staged.
Qed.
End pinned.
Abbreviation pinned_during sha512 name force := (during name force (pinned_content sha512 name) (dl_prefix name)).
Abbreviation pinned_placed sha512 name := (placed name (pinned_content sha512 name)).

(** C23: Installing a pinned binary is atomic.  At every moment of every
    run, failures included, the file at the target path is the one of before, up
    to its immutable flag, or holds the pinned content; apart from its staging
    path no other file changes, and at most a new download is there besides; an
    installation that returns has put the pinned binary in place, owned by root,
    mode 0755, and left nothing else. *)
Theorem install_pinned_atomic sha512 name force s t1 t2 r s1 :
  runs (install_pinned sha512 name force) (t1 ++ t2) r → path bin_step s t1 s1 →
  pinned_during sha512 name force s s1 ∧ (t2 = [] → r = Ok tt → pinned_placed sha512 name s s1).
Proof.
  intros Hr Hp. pose proof (swp_install sha512 name force s) as Hw. split; [by eapply swp_always|].
  intros -> ->. rewrite app_nil_r in Hr. by apply (swp_post _ _ _ _ _ _ _ _ Hr Hp Hw).
Qed.

(** ** The setup phase *)

Definition drift_of (sha512 : string → string) (s : disk) (name : string) (pinned : string) : DriftResult :=
  let installed := sha512 ∘ content <$> s !! target_path name in MkDrift (classify installed pinned) installed pinned.

Definition runsc_drift (sha512 : string → string) (s : disk) : DriftResult := drift_of sha512 s "runsc" runsc_sha512.

Section phase.
Context (sha512 : string → string) (I : disk → Prop).

(** A probe leaves the disk as it is. *)
Lemma swp_detect s name pinned Q : pinned_sha name = Ok pinned → I s →
  Q (Ok (drift_of sha512 s name pinned)) s → (∀ e, Q (Err e) s) →
  swp bin_step I (detect_drift sha512 name) Q s.
Proof.
  intros Hp HI HQ He. unfold detect_drift, file_sha512. apply swp_bind, swp_ret; [done|]. rewrite Hp.
  bin_call_step; [done| |by intros e s' [-> _]]. intros b s' [-> Hb]. specialize (Hb b eq_refl).
  unfold drift_of in HQ. destruct b; symmetry in Hb.
  - rewrite bool_decide_eq_true in Hb. destruct Hb as [f Hf]. rewrite Hf in HQ.
    apply swp_bind. apply swp_bind. bin_call_step; [done| |by intros e s' [-> _]].
    intros d s' [-> Hd]. specialize (Hd d eq_refl). rewrite Hf in Hd. injection Hd as <-.
    by repeat (apply swp_ret; [done|]).
  - rewrite bool_decide_eq_false, <- eq_None_not_Some in Hb. rewrite Hb in HQ. by repeat (apply swp_ret; [done|]).
Qed.

Lemma placed_matches s s1 : pinned_placed sha512 "runsc" s s1 → drift_status (runsc_drift sha512 s1) = matching.
Proof.
  intros ((f & Hf & (Hc & _) & _) & _). unfold runsc_drift, drift_of. cbn [drift_status]. rewrite Hf. cbn.
  injection Hc as ->. by rewrite String.eqb_refl.
Qed.

Lemma swp_l6a_reverify s (Q : res bool → disk → Prop) : I s →
  Q (Ok (bool_decide (drift_status (runsc_drift sha512 s) = matching))) s → (∀ e, Q (Err e) s) →
  swp bin_step I (l6a_reverify sha512) Q s.
Proof.
  intros HI HQ He. unfold l6a_reverify. apply swp_bind. apply (swp_detect s _ runsc_sha512); [done|done| |done].
  by apply swp_ret.
Qed.
End phase.

Section phase_spec.
Context (sha512 : string → string) (force : bool) (s : disk).

Definition left_alone : Prop := drift_status (runsc_drift sha512 s) = drift ∧ force = false.

(** What the phase may have done when the disk is [s1]. *)
Definition phase_moment (s1 : disk) : Prop :=
  pinned_during sha512 "runsc" force s s1 ∧ (left_alone → s1 = s).

Lemma swp_l6a_act :
  swp bin_step phase_moment (l6a_act sha512 force)
    (λ r s1, (∃ msg, r = Ok msg) → ¬ left_alone → pinned_placed sha512 "runsc" s s1) s.
Proof.
  assert (HI : phase_moment s) by (split; [apply during_refl|done]).
  unfold l6a_act. apply swp_bind. apply (swp_detect sha512 _ s _ runsc_sha512); [done|done| |by intros e [? [=]]].
  destruct (decide left_alone) as [Hl|Hl].
  - destruct Hl as [Hd Hf]. rewrite bool_decide_true by done. rewrite Hf. apply swp_ret; [done|].
    intros _ []. by split.
  - assert (bool_decide (drift_status (drift_of sha512 s "runsc" runsc_sha512) = drift) && negb force = false) as ->.
    { apply not_true_is_false. intros [Hd%bool_decide_eq_true Hf%negb_true_iff]%andb_true_iff. by apply Hl. }
    apply swp_bind. eapply swp_inv_mono, swp_mono, swp_install; [by split|].
    intros [[]|e] s1 HI1 Hp; [|by intros [? [=]]]. apply swp_ret; [done|]. intros _ _. by apply Hp.
Qed.
End phase_spec.

(** The act of the runsc phase leaves a drifted binary alone unless
    it is forced, and when it returns otherwise, the binary is the pinned one. *)
Theorem l6a_act_spec sha512 force s t1 t2 r s1 :
  runs (l6a_act sha512 force) (t1 ++ t2) r → path bin_step s t1 s1 →
  phase_moment sha512 force s s1 ∧
  (t2 = [] → ∀ msg, r = Ok msg →
   drift_status (runsc_drift sha512 s1) = matching ↔ ¬ left_alone sha512 force s).
Proof.
  intros Hr Hp. pose proof (swp_l6a_act sha512 force s) as Hw.
  assert (Hm : phase_moment sha512 force s s1) by (by eapply swp_always). split; [done|].
  intros -> msg ->. rewrite app_nil_r in Hr.
  pose proof (swp_post _ _ _ _ _ _ _ _ Hr Hp Hw (ex_intro _ msg eq_refl)) as Hplaced. split.
  - intros Hmatch Hl. destruct Hm as [_ Hs]. rewrite (Hs Hl) in Hmatch. destruct Hl. congruence.
  - intros Hl. by eapply placed_matches, Hplaced.
Qed.

(** The probe, the reverify and the doctor's check read the same
    disk, change nothing, and give the same verdict on the binary. *)
Theorem runsc_verdicts_agree sha512 force s t1 t2 t3 s1 s2 s3 verdict detail c b :
  runs (l6a_probe sha512 force) t1 (Ok (verdict, detail)) → path bin_step s t1 s1 →
  runs (check_runsc_pinned_match sha512) t2 (Ok c) → path bin_step s t2 s2 →
  runs (l6a_reverify sha512) t3 (Ok b) → path bin_step s t3 s3 →
  s1 = s ∧ s2 = s ∧ s3 = s ∧
  (verdict = ALREADY_CORRECT ↔ b = true) ∧ (status c = PASS ↔ b = true) ∧
  (verdict = MISSING ↔ s !! target_path "runsc" = None) ∧ (status c = SKIP ↔ s !! target_path "runsc" = None).
Proof.
  intros Hr1 Hp1 Hr2 Hp2 Hr3 Hp3.
  assert (Hnone : drift_status (runsc_drift sha512 s) = absent ↔ s !! target_path "runsc" = None).
  { unfold runsc_drift, drift_of, classify. cbn [drift_status]. destruct (s !! target_path "runsc"); cbn; [|done].
    by destruct (String.eqb _ _). }
  pose (verdicts A (f : DriftStatus → A) := f (drift_status (runsc_drift sha512 s))).
  destruct (swp_reads bin_step (l6a_probe sha512 force) (λ r, ∀ v d, r = Ok (v, d) →
    v = verdicts _ (λ d, match d with absent => MISSING | matching => ALREADY_CORRECT | drift => DRIFT end)) s t1 _ s1 Hr1 Hp1) as [-> Hv].
  { unfold l6a_probe. apply swp_bind, (swp_detect sha512 (eq s) s _ runsc_sha512); [done|done| |done].
       apply swp_ret; [done|]. intros v d H. unfold verdicts, runsc_drift. destruct (drift_status _); congruence. }
  destruct (swp_reads bin_step (check_runsc_pinned_match sha512) (λ r, ∀ c, r = Ok c →
    status c = verdicts _ (λ d, match d with absent => SKIP | matching => PASS | drift => WARN end)) s t2 _ s2 Hr2 Hp2) as [-> Hc].
  { unfold check_runsc_pinned_match. apply swp_bind, (swp_detect sha512 (eq s) s _ runsc_sha512); [done|done| |done].
       apply swp_ret; [done|]. intros c' H. unfold verdicts, runsc_drift. destruct (drift_status _); by apply (f_equal (λ r, match r with Ok c => status c | Err _ => FAILED end)) in H. }
  destruct (swp_reads bin_step (l6a_reverify sha512) (λ r, ∀ b, r = Ok b →
    b = verdicts _ (λ d, bool_decide (d = matching))) s t3 _ s3 Hr3 Hp3) as [-> Hb].
  { apply swp_l6a_reverify; [done|by intros ? [= <-]|done]. }
  unfold verdicts in *.
  rewrite (Hv _ _ eq_refl), (Hc _ eq_refl), (Hb _ eq_refl), <- Hnone.
  by destruct (drift_status _).
Qed.

(** ** Executable runs *)

(** One of the states a call may leave; a failed call leaves the one it had. *)
Definition bin_do (s : disk) (c : bin_call) : res (bin_answer c) → option disk :=
  match c with
  | IsFile p | Exists p => λ a, match a with
      | Ok b => if bool_decide (b = bool_decide (is_Some (s !! p))) then Some s else None | Err _ => Some s end
  | ReadBytes p => λ a, match a with
      | Ok d => if bool_decide (content <$> s !! p = Some d) then Some s else None | Err _ => Some s end
  | Machine | Urlopen _ => λ a, Some s
  | MkReserved => λ a, Some s
  | Mkstemp prefix => λ a, match a with
      | Ok p => if bool_decide (p = temp_path prefix "abcd1234" ∧ s !! p = None)
                then Some (<[p := MkFile "" 384 true false]> s) else None
      | Err _ => Some s end
  | WriteBytes p data => λ a, match a with
      | Ok _ => f ← s !! p; if immutable f then None else Some (<[p := with_content data f]> s) | Err _ => Some s end
  | Rename src dst => λ a, match a with
      | Ok _ => f ← s !! src;
          if immutable f || from_option immutable false (s !! dst) then None
          else Some (<[dst := f]> (delete src s))
      | Err _ => Some s end
  | Unlink p => λ a, match a with
      | Ok _ => f ← s !! p; if immutable f then None else Some (delete p s) | Err _ => Some s end
  | Chmod p m => λ a, match a with
      | Ok _ => f ← s !! p; if immutable f then None else Some (<[p := with_mode m f]> s) | Err _ => Some s end
  | ChownRoot p => λ a, match a with
      | Ok _ => f ← s !! p; if immutable f then None else Some (<[p := with_root f]> s) | Err _ => Some s end
  | Chattr b p => λ a, match a with
      | Ok _ => f ← s !! p; Some (<[p := with_seal b f]> s) | Err _ => Some s end
  end.

Lemma bin_do_step s c a s' : bin_do s c a = Some s' → bin_step s c a s'.
Proof.
  destruct c; cbn [bin_do bin_step]; unfold changes; intros H; destruct a as [a|e];
    repeat (case_bool_decide; try done); simplify_option_eq;
    try destruct (immutable _) eqn:?; cbn in *; simplify_eq; try solve [naive_solver].
  destruct (s !! dst) as [g|]; cbn in H; [destruct (immutable g) eqn:?; [done|]|]; injection H as <-; naive_solver.
Qed.

Fixpoint bin_path (s : disk) (t : list (@event bin_call bin_answer)) : option disk :=
  match t with
  | [] => Some s
  | e :: t => s1 ← bin_do s (ev_call e) (ev_answer e); bin_path s1 t
  end.

Lemma bin_path_path s t s' : bin_path s t = Some s' → path bin_step s t s'.
Proof.
  revert s; induction t as [|e t IH]; intros s; cbn [bin_path path]; [by intros [= ->]|].
  destruct (bin_do s _ _) as [s1|] eqn:E; [|done]. cbn. intros H. exists s1. split; [by apply bin_do_step|by apply IH].
Qed.

(** A host whose upstream serves [data]; [fails h c] is whether the call fails. *)
Definition bin_host (disk0 : disk) (data : string) (fails : bin_call → bool)
    (h : list (@event bin_call bin_answer)) (c : bin_call) : res (bin_answer c) :=
  let now := default disk0 (bin_path disk0 h) in
  if fails c then Err CalledProcessError else
  match c with
  | IsFile p | Exists p => Ok (bool_decide (is_Some (now !! p)))
  | ReadBytes p => from_option (λ f, Ok (content f)) (Err FileNotFoundError) (now !! p)
  | Machine => Ok "x86_64"
  | Urlopen _ => Ok data
  | Mkstemp prefix => Ok (temp_path prefix "abcd1234")
  | _ => Ok tt
  end.

Definition toy_sha512 (d : string) : string := if String.eqb d "elf" then runsc_sha512 else d.
Definition no_fault (c : bin_call) : bool := false.
Definition seal_fails (c : bin_call) : bool := match c with Chattr true _ => true | _ => false end.

Definition install_on (disk0 : disk) (data : string) (force : bool) (fails : bin_call → bool)
    : trace bin_answer * res unit :=
  run_env (bin_host disk0 data fails) (install_pinned toy_sha512 "runsc" force) [].

Definition old_disk : disk := {[target_path "runsc" := MkFile "old" 493 true true]}.
Definition new_disk (seal : bool) : disk := {[target_path "runsc" := MkFile "elf" 493 true seal]}.

Lemma install_pinned_atomic_witness :
  (install_on old_disk "elf" true no_fault).2 = Ok tt ∧
  pinned_placed toy_sha512 "runsc" old_disk (new_disk true).
Proof.
  assert (Hr : (install_on old_disk "elf" true no_fault).2 = Ok tt) by (vm_compute; reflexivity).
  split; [exact Hr|].
  pose proof (run_env_runs (bin_host old_disk "elf" no_fault) (install_pinned toy_sha512 "runsc" true) []) as Hruns.
  fold (install_on old_disk "elf" true no_fault) in Hruns. rewrite <- (app_nil_r (fst _)) in Hruns.
  refine (proj2 (install_pinned_atomic _ _ _ old_disk _ [] _ _ Hruns _) eq_refl Hr).
  apply bin_path_path. vm_compute. reflexivity.
Defined.

(** With the last [chattr] failing, the new binary is in place unsealed, and
    the next probe has nothing to do. *)
Lemma unsealed_install_is_correct :
  (install_on old_disk "elf" true seal_fails).2 = Err CalledProcessError ∧
  bin_path old_disk (install_on old_disk "elf" true seal_fails).1 = Some (new_disk false) ∧
  (run_env (bin_host (new_disk false) "elf" no_fault) (l6a_probe toy_sha512 false) []).2 =
    Ok (ALREADY_CORRECT, "runsc present and matches the pinned sha512").
Proof. split_and!; vm_compute; reflexivity. Qed.

(** The pinned digest is one machine's, the address each machine's own. *)
Lemma pin_is_of_one_machine :
  resolved_url "runsc" "aarch64" = Ok "https://storage.googleapis.com/gvisor/releases/release/20260511/aarch64/runsc" ∧
  resolved_url "runsc" "x86_64" = Ok "https://storage.googleapis.com/gvisor/releases/release/20260511/x86_64/runsc" ∧
  pinned_sha "runsc" = Ok runsc_sha512.
Proof. split_and!; vm_compute; reflexivity. Qed.

Lemma l6a_act_spec_witness :
  phase_moment toy_sha512 false old_disk old_disk ∧ left_alone toy_sha512 false old_disk.
Proof.
  assert (Hl : left_alone toy_sha512 false old_disk) by (split; vm_compute; reflexivity).
  split; [|exact Hl].
  pose proof (run_env_runs (bin_host old_disk "elf" no_fault) (l6a_act toy_sha512 false) []) as Hruns.
  rewrite <- (app_nil_r (fst _)) in Hruns.
  refine (proj1 (l6a_act_spec _ _ old_disk _ [] _ _ Hruns _)).
  apply bin_path_path. vm_compute. reflexivity.
Defined.

Definition empty_disk : disk := ∅.

Definition on_empty {A} (m : bprog A) : trace bin_answer * res A := run_env (bin_host empty_disk "elf" no_fault) m [].

Definition skipped_check : CheckResult :=
  MkCheckResult SKIP "runsc pinned match" "runsc not installed; run 'sudo sandbox setup' to install"
    (Some "run 'sudo sandbox setup' to install runsc") None "".

Lemma runsc_verdicts_agree_witness : (on_empty (l6a_reverify toy_sha512)).2 = Ok false ∧ SKIP ≠ PASS.
Proof.
  assert (E1 : (on_empty (l6a_probe toy_sha512 false)).2 =
    Ok (MISSING, "runsc absent at /usr/local/libexec/sandbox-ai/runsc; will install")) by (vm_compute; reflexivity).
  assert (E2 : (on_empty (check_runsc_pinned_match toy_sha512)).2 = Ok skipped_check) by (vm_compute; reflexivity).
  assert (E3 : (on_empty (l6a_reverify toy_sha512)).2 = Ok false) by (vm_compute; reflexivity).
  split; [exact E3|].
  assert (Hrun : ∀ A (m : bprog A) r, (on_empty m).2 = r → runs m (on_empty m).1 r)
    by (intros A m r <-; apply run_env_runs).
  destruct (runsc_verdicts_agree toy_sha512 false empty_disk _ _ _ empty_disk empty_disk empty_disk _ _ _ _
    (Hrun _ _ _ E1) ltac:(apply bin_path_path; vm_compute; reflexivity)
    (Hrun _ _ _ E2) ltac:(apply bin_path_path; vm_compute; reflexivity)
    (Hrun _ _ _ E3) ltac:(apply bin_path_path; vm_compute; reflexivity)) as (_ & _ & _ & _ & [Ha _] & _).
  intros H; discriminate (Ha H).
Defined.
