(* ===== verification/HostPhases.v ===== *)
(** * core.setup.l1_kernel, l2_host_prereqs and l2a_delegate

    The probe, act and reverify of the phases that work as root, as programs
    over the calls of [host_call], and the host those calls act on.  Each phase
    keeps the contract [PhaseContract] that the runner relies on. *)
From S2P Require Import Prelude PyStr HostConfig Subid PhaseRunner Interact OnState HostBatch.
From Stdlib Require Import Ascii String.
Open Scope nat_scope.

(** ** What a phase promises the runner *)

Section contract.
Context {call : Type} {answer : call → Type} {S : Type}.

Record PhaseBody := MkBody {
  body_probe : prog answer (PhaseResult * string);
  body_act : prog answer string;
  body_reverify : prog answer bool
}.

(** [step true] lets reads fail, [step false] does not.  A probe and a reverify
    change nothing; a host they call correct is converged, and so is one that
    [act] returns from, where a reverify without a failing read says so. *)
Class PhaseContract (step : bool → S → ∀ c : call, res (answer c) → S → Prop) (b : PhaseBody)
    (converged : S → Prop) : Prop := {
  probe_sound s : swp (step true) (eq s) (body_probe b) (λ r _, ∀ detail, r = Ok (ALREADY_CORRECT, detail) → converged s) s;
  reverify_sound faults s : swp (step faults) (eq s) (body_reverify b)
    (λ r _, ∀ v, r = Ok v → (v = true → converged s) ∧ (faults = false → converged s → v = true)) s;
  act_converges s : swp (step true) (λ _, True) (body_act b) (λ r s', (∃ detail, r = Ok detail) → converged s') s
}.

Context (step : bool → S → ∀ c : call, res (answer c) → S → Prop) (b : PhaseBody) (converged : S → Prop)
  `{!PhaseContract step b converged}.

Lemma contract_runs s t1 detail s1 t2 v s2 :
  runs (body_act b) t1 (Ok detail) → path (step true) s t1 s1 →
  runs (body_reverify b) t2 (Ok v) → path (step false) s1 t2 s2 → converged s1 ∧ s2 = s1 ∧ v = true.
Proof.
  intros Ha Hpa Hv Hpv.
  assert (Hc : converged s1) by (eapply (swp_post _ _ _ _ _ _ _ _ Ha Hpa (act_converges s)); eauto).
  destruct (swp_reads _ _ _ _ _ _ _ Hv Hpv (reverify_sound false s1)) as [-> Hq].
  split_and!; [done|done|]. by apply (proj2 (Hq v eq_refl)).
Qed.

Lemma contract_probe s t v detail s1 :
  runs (body_probe b) t (Ok (v, detail)) → path (step true) s t s1 → s1 = s ∧ (v = ALREADY_CORRECT → converged s).
Proof.
  intros Hr Hp. destruct (swp_reads _ _ _ _ _ _ _ Hr Hp (probe_sound s)) as [-> Hq].
  split; [done|]. intros ->. by eapply Hq.
Qed.
End contract.
Arguments PhaseBody {call} answer.

Abbreviation host_body := (PhaseBody host_answer).

(** ** l1_kernel *)

Definition CGROUP_CONTROLLERS : string := "/sys/fs/cgroup/cgroup.controllers".

Definition acl_fs_supported : root bool :=
  catch (rc ← host (ExitCode ["getfacl"; "-p"; "/"]); mret (Z.eqb rc 0))
    (λ e, if tolerated e then mret false else raise e).

Definition cgroup_v2_active : root bool := host (PathExists CGROUP_CONTROLLERS).

Definition expected_sysctl : root string := distro ← host Distro; mret (render_sysctl_dropin distro).

Definition l1_probe : root (PhaseResult * string) :=
  acl ← acl_fs_supported;
  if negb acl then
    mret (CONFLICT, "verify-only failure: the root filesystem does not support POSIX " +:+
                    "ACLs (setfacl/getfacl). setup cannot fix this.")
  else
    v2 ← cgroup_v2_active;
    if negb v2 then
      mret (CONFLICT, "verify-only failure: the cgroup v2 unified hierarchy is not " +:+
                      "active (/sys/fs/cgroup/cgroup.controllers absent). setup cannot fix this.")
    else
      expected ← expected_sysctl;
      observed ← host (ReadText SYSCTL_DROPIN);
      mret match (observed : option string) with
      | None => (MISSING, SYSCTL_DROPIN +:+ " absent")
      | Some text =>
          if String.eqb text expected then (ALREADY_CORRECT, "sysctl drop-in matches source")
          else (DRIFT, SYSCTL_DROPIN +:+ " content differs from source")
      end.

Definition l1_act : root string :=
  expected ← expected_sysctl;
  _ ← host (WriteRootFile SYSCTL_DROPIN expected 420);
  let applied := "user.max_user_namespaces=" +:+ MAX_USER_NS in
  _ ← host (Run ["sysctl"; "-w"; applied]);
  distro ← host Distro;
  extra ← (if is_debian_family distro then
             _ ← host (Run ["sysctl"; "-w"; "kernel.unprivileged_userns_clone=1"]);
             mret ", kernel.unprivileged_userns_clone=1"
           else mret "");
  mret ("wrote " +:+ SYSCTL_DROPIN +:+ " (" +:+ applied +:+ extra +:+ ")").

Definition l1_reverify : root bool :=
  observed ← host (ReadText SYSCTL_DROPIN);
  expected ← expected_sysctl;
  mret (bool_decide ((observed : option string) = Some expected)).

Definition l1_body : host_body := MkBody l1_probe l1_act l1_reverify.

(** ** l2a_delegate *)

(** [pwd.getpwnam] of the setup runner's guard. *)
Definition pw_of (h : host_env) : PhaseRunner.passwd := λ u, e ← getpwnam h u; Some (pw_uid e, pw_dir e).

Section delegate.
Context (exc_str : exn → string) (ctx : SetupContext).

Definition delegate_dropin_path : root string :=
  h ← host Accounts;
  pw ← lift (resolve_sandbox_pw (pw_of h) (ctx_config ctx));
  mret (delegate_dropin_path_for_uid pw.1).

Definition l2a_probe : root (PhaseResult * string) :=
  h ← host Accounts;
  guard ← lift (probe_sandbox_pw_or_missing exc_str (pw_of h) (ctx_config ctx));
  match guard with
  | inr missing => mret missing
  | inl pw =>
      let dropin := delegate_dropin_path_for_uid pw.1 in
      observed ← host (ReadText dropin);
      mret match (observed : option string) with
      | None => (MISSING, dropin +:+ " absent")
      | Some text =>
          if String.eqb text render_delegate_dropin then (ALREADY_CORRECT, "Delegate drop-in matches source")
          else (DRIFT, dropin +:+ " content differs from source")
      end
  end.

Definition l2a_act : root string :=
  dropin ← delegate_dropin_path;
  _ ← host (WriteRootFile dropin render_delegate_dropin 420);
  _ ← host (Run ["systemctl"; "daemon-reload"]);
  mret ("wrote " +:+ dropin +:+ "; daemon-reload").

Definition l2a_reverify : root bool :=
  dropin ← delegate_dropin_path;
  observed ← host (ReadText dropin);
  mret (bool_decide ((observed : option string) = Some render_delegate_dropin)).

Definition l2a_body : host_body := MkBody l2a_probe l2a_act l2a_reverify.
End delegate.

(** ** l2_host_prereqs *)

Inductive SubidStatus := Adequate | Absent | Inadequate | Overlapping.
#[export] Instance subid_status_eq_dec : EqDecision SubidStatus.
Proof. solve_decision. Defined.

Definition range_total (ranges : list (Z * Z)) : Z := foldr Z.add 0%Z (map snd ranges).
Definition adequate_range (ranges : list (Z * Z)) : bool := (MIN_SUBID_RANGE <=? range_total ranges)%Z.

(** The user's ranges of both files, with the file's name; then everyone else's. *)
Definition own_ranges (h : host_env) (user : string) : list (string * (Z * Z)) :=
  (map (λ r, ("subuid", r)) (parse_subuid_for_user h user) ++
   map (λ r, ("subgid", r)) (parse_subgid_for_user h user))%list.

Definition foreign_ranges (h : host_env) (user : string) : list (Z * Z) :=
  omap (λ '(u, start, count), if String.eqb u user then None else Some (start, count))
    (read_all_subid_ranges_by_user h).

Definition overlap_detail (user : string) (own : string * (Z * Z)) (f : Z * Z) : string :=
  "/etc/" +:+ own.1 +:+ " range " +:+ str_of_Z own.2.1 +:+ ":" +:+ str_of_Z own.2.2 +:+ " for " +:+ user +:+
  " overlaps another user's range " +:+ str_of_Z f.1 +:+ ":" +:+ str_of_Z f.2 +:+
  "; subid ranges must be disjoint per user. Manually correct the overlap and re-run setup.".

(** The first overlapping pair in the order of the loops. *)
Definition cross_user_overlap (h : host_env) (user : string) : option string :=
  head (o ← own_ranges h user; f ← foreign_ranges h user;
        if ranges_overlap o.2.1 o.2.2 f.1 f.2 then [overlap_detail user o f] else []).

Definition inadequate_detail (user : string) (label : string) (ranges : list (Z * Z)) : option string :=
  match ranges with
  | [] => None
  | _ => if adequate_range ranges then None else Some
      ("existing /etc/" +:+ label +:+ " entry for " +:+ user +:+ " has range " +:+ str_of_Z (range_total ranges) +:+
       "; minimum required is " +:+ str_of_Z MIN_SUBID_RANGE +:+ ". Refusing to shrink existing range. " +:+
       "Manually update /etc/" +:+ label +:+ " and re-run setup.")
  end.

(** The files are read once here. *)
Definition subid_status (h : host_env) (user : string) : SubidStatus * string :=
  let uid_ranges := parse_subuid_for_user h user in
  let gid_ranges := parse_subgid_for_user h user in
  let one_absent := negb (bool_decide (uid_ranges ≠ [])) || negb (bool_decide (gid_ranges ≠ [])) in
  if negb (bool_decide (uid_ranges ≠ [])) && negb (bool_decide (gid_ranges ≠ [])) then
    (Absent, "no /etc/subuid or /etc/subgid entry")
  else match inadequate_detail user "subuid" uid_ranges, inadequate_detail user "subgid" gid_ranges with
  | Some detail, _ | None, Some detail => (Inadequate, detail)
  | None, None =>
      match cross_user_overlap h user with
      | Some detail => (Overlapping, detail)
      | None => if one_absent then (Absent, "one of /etc/subuid or /etc/subgid entry is absent")
                else (Adequate, "subuid/subgid ranges adequate")
      end
  end.

Definition user_exists (name : string) : root bool :=
  h ← host Accounts; mret (bool_decide (is_Some (getpwnam (h : host_env) name))).
Definition group_exists (name : string) : root bool :=
  e ← host (GroupEntry name); mret (bool_decide (is_Some (e : option (Z * list string)))).
Definition group_gid (name : string) : root Z :=
  e ← host (GroupEntry name); lift (from_option (λ e, Ok e.1) (Err KeyError) (e : option (Z * list string))).

Definition MACHINED : list string := ["systemctl"; "is-active"; "systemd-machined"].
Definition machined_active : root bool :=
  catch (out ← host (Query MACHINED false); mret (String.eqb (strip out) "active"))
    (λ e, if tolerated e then mret false else raise e).

Section prereqs.
Context (ctx : SetupContext).

Definition l2_user : root string :=
  h ← host Accounts; lift (resolve_daemon_owner_settings h (HostConfig.host (ctx_config ctx))).
Definition l2_group : string := workspace_bridge_group (HostConfig.host (ctx_config ctx)).

Definition status_of (user : string) : root (SubidStatus * string) :=
  h ← host Accounts; mret (subid_status h user).

(** The group's gid is in the user's subordinate range. *)
Definition group_in_range (gid : Z) (user : string) : root bool :=
  h ← host Accounts; mret (gid_in_subgid_range gid (parse_subgid_for_user h user)).

Definition l2_probe : root (PhaseResult * string) :=
  user ← l2_user;
  there ← user_exists user;
  if negb there then mret (MISSING, "sandbox user " +:+ py_repr user +:+ " absent") else
  st ← status_of user;
  match st with
  | (Inadequate, detail) | (Overlapping, detail) => mret (CONFLICT, detail)
  | (Absent, detail) => mret (MISSING, "subid entries for " +:+ py_repr user +:+ ": " +:+ detail)
  | (Adequate, _) =>
      active ← machined_active;
      if negb active then mret (MISSING, "systemd-machined not active") else
      grouped ← group_exists l2_group;
      if negb grouped then mret (MISSING, "bridge group " +:+ py_repr l2_group +:+ " absent") else
      gid ← group_gid l2_group;
      inside ← group_in_range gid user;
      if negb inside then
        mret (DRIFT, "bridge group " +:+ py_repr l2_group +:+ " exists at gid " +:+ str_of_Z gid +:+
                     " which is outside " +:+ py_repr user +:+ "'s /etc/subgid range; the group must " +:+
                     "sit inside the subgid range")
      else
        member ← operator_in_group (ctx_operator ctx) l2_group;
        if negb member then
          mret (MISSING, "operator " +:+ py_repr (ctx_operator ctx) +:+ " not in group " +:+ py_repr l2_group)
        else
          mret (ALREADY_CORRECT, "machined active; user " +:+ py_repr user +:+ ", group " +:+ py_repr l2_group +:+
                ", operator " +:+ py_repr (ctx_operator ctx) +:+ " membership, subid ranges all present")
  end.

(** Each step gives what it did. *)
Definition act_machined : root (list string) :=
  active ← machined_active;
  if negb active then
    _ ← host (Run ["systemctl"; "enable"; "--now"; "systemd-machined"]); mret ["enabled systemd-machined"]
  else mret [].

Definition act_user (user : string) : root (list string) :=
  there ← user_exists user;
  if negb there then
    _ ← host (Run ["useradd"; "--system"; "--shell"; "/bin/bash"; "--create-home"; user]);
    mret ["created user " +:+ user]
  else mret [].

Definition act_range (option_ file user range_arg : string) (own : host_env → string → list (Z * Z))
    : root (list string) :=
  h ← host Accounts;
  match own h user with
  | [] => _ ← host (Run ["usermod"; option_; range_arg; user]); mret ["appended /etc/" +:+ file +:+ " entry"]
  | _ => mret []
  end.

(** The second half of a [RuntimeError]'s message is not kept. *)
Definition act_subid (user : string) : root (list string) :=
  st ← status_of user;
  match st.1 with
  | Inadequate | Overlapping => raise RuntimeError
  | Absent =>
      h ← host Accounts;
      let range_arg := subid_range_arg h in
      a1 ← act_range "--add-subuids" "subuid" user range_arg parse_subuid_for_user;
      a2 ← act_range "--add-subgids" "subgid" user range_arg parse_subgid_for_user;
      mret (a1 ++ a2)%list
  | Adequate => mret []
  end.

Definition act_group (user : string) : root (list string) :=
  grouped ← group_exists l2_group;
  if negb grouped then
    h ← host Accounts;
    gid ← lift (autodetect_workspace_bridge_gid_recommendation h user 1000);
    _ ← host (Run ["groupadd"; "-g"; str_of_Z gid; l2_group]);
    mret ["created group " +:+ l2_group +:+ " (gid " +:+ str_of_Z gid +:+ ")"]
  else
    gid ← group_gid l2_group;
    inside ← group_in_range gid user;
    if negb inside then raise RuntimeError else mret [].

Definition act_member : root (list string) :=
  member ← operator_in_group (ctx_operator ctx) l2_group;
  if negb member then
    _ ← host (Run ["usermod"; "-aG"; l2_group; ctx_operator ctx]);
    mret ["added " +:+ ctx_operator ctx +:+ " to " +:+ l2_group]
  else mret [].

Definition l2_act : root string :=
  user ← l2_user;
  a1 ← act_machined;
  a2 ← act_user user;
  a3 ← act_subid user;
  a4 ← act_group user;
  a5 ← act_member;
  let actions := (a1 ++ a2 ++ a3 ++ a4 ++ a5)%list in
  mret (if bool_decide (actions ≠ []) then join "; " actions else "L2 already converged").

Definition l2_reverify : root bool :=
  user ← l2_user;
  active ← machined_active;
  if negb active then mret false else
  there ← user_exists user;
  if negb there then mret false else
  st ← status_of user;
  if negb (bool_decide (st.1 = Adequate)) then mret false else
  grouped ← group_exists l2_group;
  if negb grouped then mret false else
  gid ← group_gid l2_group;
  inside ← group_in_range gid user;
  if negb inside then mret false else
  operator_in_group (ctx_operator ctx) l2_group.

Definition l2_body : host_body := MkBody l2_probe l2_act l2_reverify.
End prereqs.

(** *** Who can become root *)

Definition ADMIN_GROUPS : list string := ["sudo"; "wheel"; "admin"].

Definition user_admin_groups (h : host_env) (group : string → option (Z * list string)) (user : string) : list string :=
  let primary := pw_gid <$> getpwnam h user in
  List.filter (λ g, match group g with
    | None => false
    | Some (gid, members) => bool_decide (user ∈ members) || bool_decide (Some gid = primary)
    end) ADMIN_GROUPS.

Record SudoersGrant := MkGrant { granted : bool; nopasswd : bool; determinable : bool }.

(** [None] is an [OSError]; the texts are ASCII, where [casefold] is [lower]. *)
Definition user_sudoers_grant (proc : option (string * string * Z)) : SudoersGrant :=
  match proc with
  | None => MkGrant false false false
  | Some (stdout, stderr, returncode) =>
      let combined := lower (stdout +:+ NL +:+ stderr) in
      if contains "not allowed to run sudo" combined then MkGrant false false true
      else if contains "may run the following commands" combined || contains "may run the following command" combined
      then MkGrant true (contains "nopasswd" combined) true
      else if contains "may not list" combined then MkGrant false false false
      else if negb (Z.eqb returncode 0) then MkGrant true false true
      else MkGrant false false false
  end.

Definition sudoers_query (user : string) (self_query : bool) : list string :=
  (["sudo"; "-n"; "-l"] ++ (if self_query then [] else ["-U"; user]))%list.

(** ** The host *)

Record hstate := HState {
  hs_passwd : gmap string HostConfig.passwd;
  hs_groups : gmap string (Z * list string);
  hs_subuid : option string;
  hs_subgid : option string;
  hs_user : string; (* of the process *)
  hs_home : string;
  hs_machined : bool;
  hs_acl : bool;
  hs_cgroup2 : bool;
  hs_distro : option string;
  hs_files : gmap string string
}.

Definition env_of (s : hstate) : host_env :=
  HostEnv (λ u, hs_passwd s !! u) (λ g, fst <$> hs_groups s !! g) (map (fst ∘ snd) (map_to_list (hs_groups s)))
    (hs_subuid s) (hs_subgid s) (hs_user s) (hs_home s).

Definition with_files (f : gmap string string → gmap string string) (s : hstate) : hstate :=
  HState (hs_passwd s) (hs_groups s) (hs_subuid s) (hs_subgid s) (hs_user s) (hs_home s) (hs_machined s)
    (hs_acl s) (hs_cgroup2 s) (hs_distro s) (f (hs_files s)).
Definition with_groups (g : gmap string (Z * list string)) (s : hstate) : hstate :=
  HState (hs_passwd s) g (hs_subuid s) (hs_subgid s) (hs_user s) (hs_home s) (hs_machined s)
    (hs_acl s) (hs_cgroup2 s) (hs_distro s) (hs_files s).
Definition with_subids (u g : option string) (s : hstate) : hstate :=
  HState (hs_passwd s) (hs_groups s) u g (hs_user s) (hs_home s) (hs_machined s)
    (hs_acl s) (hs_cgroup2 s) (hs_distro s) (hs_files s).
Definition with_machined (s : hstate) : hstate :=
  HState (hs_passwd s) (hs_groups s) (hs_subuid s) (hs_subgid s) (hs_user s) (hs_home s) true
    (hs_acl s) (hs_cgroup2 s) (hs_distro s) (hs_files s).
Definition with_user (u : string) (pw : HostConfig.passwd) (g : gmap string (Z * list string)) (s : hstate) : hstate :=
  HState (<[u := pw]> (hs_passwd s)) g (hs_subuid s) (hs_subgid s) (hs_user s) (hs_home s) (hs_machined s)
    (hs_acl s) (hs_cgroup2 s) (hs_distro s) (hs_files s).

(** [new] is [old] and one entry more at its end. *)
Definition appended (old new : option string) (user : string) (start count : Z) : Prop :=
  all_users_ranges_by_user new = (all_users_ranges_by_user old ++ [(user, start, count)])%list.

Definition range_text (start count : Z) : string := str_of_Z start +:+ "-" +:+ str_of_Z (start + count - 1).

(** What the tools do when they succeed; [useradd] may make a group of the
    user's name. *)
Inductive tool : list string → hstate → hstate → Prop :=
  | tool_machined s : tool ["systemctl"; "enable"; "--now"; "systemd-machined"] s (with_machined s)
  | tool_useradd u pw g s : hs_passwd s !! u = None →
      g = hs_groups s ∨ hs_groups s !! u = None ∧ g = <[u := (pw_gid pw, [])]> (hs_groups s) →
      tool ["useradd"; "--system"; "--shell"; "/bin/bash"; "--create-home"; u] s (with_user u pw g s)
  | tool_subuids u start count new s : (0 <= start)%Z → appended (hs_subuid s) new u start count →
      tool ["usermod"; "--add-subuids"; range_text start count; u] s (with_subids new (hs_subgid s) s)
  | tool_subgids u start count new s : (0 <= start)%Z → appended (hs_subgid s) new u start count →
      tool ["usermod"; "--add-subgids"; range_text start count; u] s (with_subids (hs_subuid s) new s)
  | tool_groupadd gid g s : hs_groups s !! g = None →
      tool ["groupadd"; "-g"; str_of_Z gid; g] s (with_groups (<[g := (gid, [])]> (hs_groups s)) s)
  | tool_member gid members g u s : hs_groups s !! g = Some (gid, members) →
      tool ["usermod"; "-aG"; g; u] s (with_groups (<[g := (gid, members ++ [u])]> (hs_groups s)) s)
  | tool_same argv s : head argv = Some "sysctl" ∨ argv = ["systemctl"; "daemon-reload"] → tool argv s s.

(** A read that succeeds tells the host; one that fails needs [faults]. *)
Definition reads {A} (faults : bool) (s s' : hstate) (a : res A) (P : A → Prop) : Prop :=
  s' = s ∧ match a with Ok x => P x | Err _ => faults = true end.

Definition host_step (faults : bool) (s : hstate) (c : host_call) : res (host_answer c) → hstate → Prop :=
  match c with
  | RootEuid => λ a s', reads faults s s' a (λ _, True)
  | Accounts => λ a s', reads faults s s' a (λ h, h = env_of s)
  | GroupEntry g => λ a s', reads faults s s' a (λ e, e = hs_groups s !! g)
  | ReadText p => λ a s', reads faults s s' a (λ t, t = hs_files s !! p)
  | Distro => λ a s', reads faults s s' a (λ d, d = hs_distro s)
  | DriftStatus => λ a s', reads faults s s' a (λ _, True)
  | MarkerEntryOf _ => λ a s', reads faults s s' a (λ _, True)
  | Query argv _ => λ a s', reads faults s s' a (λ out, argv = MACHINED → (strip out = "active" ↔ hs_machined s = true))
  | ExitCode argv => λ a s', reads faults s s' a (λ rc, argv = ["getfacl"; "-p"; "/"] → (rc = 0%Z ↔ hs_acl s = true))
  | PathExists p => λ a s', reads faults s s' a (λ b, p = CGROUP_CONTROLLERS → b = hs_cgroup2 s)
  | Run argv => λ a s', match a with Ok _ => tool argv s s' | Err _ => s' = s ∨ tool argv s s' end
  | WriteRootFile p body _ | WriteInPlace p body => λ a s',
      match a with
      | Ok _ => s' = with_files <[p := body]> s
      | Err _ => s' = s ∨ ∃ text, s' = with_files <[p := text]> s
      end
  | InstallPinned _ => λ a s', True
  | WriteMarker _ _ _ _ => λ a s', True
  | Exec _ _ => λ a s', True
  end.

(** The call at the head of a program. *)
Ltac host_call_step :=
  lazymatch goal with
  | |- swp ?st ?I (perform ?c ≫= ?f) ?Q ?s => apply (swp_call st I c f Q s)
  | |- swp ?st ?I (perform ?c) ?Q ?s => apply (swp_perform st I c Q s)
  end.

(** ** L1 and L2a *)

Definition l1_converged (s : hstate) : Prop :=
  hs_files s !! SYSCTL_DROPIN = Some (render_sysctl_dropin (hs_distro s)).

Definition l2a_converged (ctx : SetupContext) (s : hstate) : Prop :=
  ∃ pw, resolve_sandbox_pw (pw_of (env_of s)) (ctx_config ctx) = Ok pw ∧
        hs_files s !! delegate_dropin_path_for_uid pw.1 = Some render_delegate_dropin.

Section proofs.
Context (faults : bool) (I : hstate → Prop).

(** A read goes on with what the host holds, or with its failure. *)
Lemma swp_read {A} (c : host_call) (P : hstate → host_answer c → Prop) (f : host_answer c → root A) Q s :
  (∀ a s', host_step faults s c a s' → reads faults s s' a (P s)) → I s →
  (∀ x, P s x → swp (host_step faults) I (f x) Q s) → (∀ e, faults = true → Q (Err e) s) →
  swp (host_step faults) I (perform c ≫= f) Q s.
Proof.
  intros Hc HI Hf He. apply swp_call; [done| |].
  - intros a s' [-> H]%Hc. by apply Hf.
  - intros e s' [-> H]%Hc. split; [done|by apply He].
Qed.

Local Abbreviation hgives := (gives (host_step faults) I (faults = true)).

Lemma gives_accounts s : I s → hgives (host Accounts) s (env_of s).
Proof. by apply gives_read. Qed.
Lemma gives_text p s : I s → hgives (host (ReadText p)) s (hs_files s !! p).
Proof. by apply gives_read. Qed.
Lemma gives_distro s : I s → hgives (host Distro) s (hs_distro s).
Proof. by apply gives_read. Qed.
Lemma gives_group g s : I s → hgives (host (GroupEntry g)) s (hs_groups s !! g).
Proof. by apply gives_read. Qed.

Lemma gives_expected_sysctl s : I s → hgives expected_sysctl s (render_sysctl_dropin (hs_distro s)).
Proof. intros HI. eapply gives_bind; [by apply gives_distro|by apply gives_ret]. Qed.

(** A read whose tolerated failures count as false. *)
Lemma swp_tolerant {A} (c : host_call) (f : host_answer c → bool) (v : bool) (g : bool → root A) Q s :
  (∀ a s', host_step faults s c a s' → reads faults s s' a (λ x, f x = v)) → I s →
  swp (host_step faults) I (g v) Q s → (faults = true → swp (host_step faults) I (g false) Q s) →
  (∀ e, faults = true → Q (Err e) s) →
  swp (host_step faults) I (catch (x ← perform c; mret (f x)) (λ e, if tolerated e then mret false else raise e) ≫= g) Q s.
Proof.
  intros Hc HI Hv Hf He. apply swp_bind, swp_catch, swp_call; [done| |].
  - intros x s' [-> H]%Hc. apply swp_ret; [done|]. by rewrite H.
  - intros e s' [-> H]%Hc. split; [done|]. destruct (tolerated e); apply swp_ret; auto.
Qed.

Lemma bool_of_iff (b : bool) (P : Prop) `{!Decision P} : (P ↔ b = true) → bool_decide P = b.
Proof. intros H. apply eq_bool_prop_intro. rewrite bool_decide_spec, Is_true_true. done. Qed.
End proofs.

(** A failure meets what is asked of a result. *)
Ltac no_result := solve [intros; repeat match goal with H : ∃ _, _ |- _ => destruct H end; done].
Ltac give lem := eapply swp_gives; [apply lem; done| |no_result].
(** A change, in the states it may leave. *)
Ltac change_step := host_call_step; [done| |by intros; split; [|no_result]].

Lemma sysctl_same faults l s s' : host_step faults s (Run ("sysctl" :: l)) (Ok tt) s' → s' = s.
Proof. intros H. by inversion H. Qed.

#[export] Instance l1_contract : PhaseContract host_step l1_body l1_converged.
Proof.
  split; cbn [l1_body body_probe body_act body_reverify].
  - intros s. unfold l1_probe, acl_fs_supported, cgroup_v2_active.
    eapply (swp_tolerant true (eq s) (ExitCode _) (λ rc, Z.eqb rc 0) (hs_acl s)); [|done| |by intros; apply swp_ret|done].
    { intros a s' [-> H]. split; [done|]. destruct a; [|done]. apply eq_bool_prop_intro.
      rewrite !Is_true_true, Z.eqb_eq. by apply H. }
    destruct (hs_acl s); [|by apply swp_ret]. cbn [negb].
    host_call_step; [done| |by intros e s' [-> _]]. intros v2 s' [-> Hv2].
    destruct v2; [|by apply swp_ret]. cbn [negb].
    give gives_expected_sysctl. give gives_text. apply swp_ret; [done|]. intros detail H.
    destruct (hs_files s !! SYSCTL_DROPIN) as [text|] eqn:E; [|done].
    destruct (String.eqb_spec text (render_sysctl_dropin (hs_distro s))) as [Heq|]; [|done].
    unfold l1_converged. congruence.
  - intros faults s. unfold l1_reverify. give gives_text. give gives_expected_sysctl.
    apply swp_ret; [done|]. intros v [= <-]. unfold l1_converged. by rewrite bool_decide_eq_true.
  - intros s. unfold l1_act. give gives_expected_sysctl.
    change_step. intros [] s1 ->. change_step. intros [] s2 ->%sysctl_same.
    assert (Hc : l1_converged (with_files <[SYSCTL_DROPIN := render_sysctl_dropin (hs_distro s)]> s))
      by apply lookup_insert_eq.
    give gives_distro. destruct (is_debian_family _); apply swp_bind; [change_step; intros [] s3 ->%sysctl_same|].
    all: by repeat (apply swp_ret; [done|]).
Qed.

Section delegate_proofs.
Context (exc_str : exn → string) (ctx : SetupContext).

(** The path, or an exception. *)
Lemma swp_dropin_path {A} faults (I : hstate → Prop) (f : string → root A) Q s : I s →
  (∀ pw, resolve_sandbox_pw (pw_of (env_of s)) (ctx_config ctx) = Ok pw →
   swp (host_step faults) I (f (delegate_dropin_path_for_uid pw.1)) Q s) → (∀ e, Q (Err e) s) →
  swp (host_step faults) I (delegate_dropin_path ctx ≫= f) Q s.
Proof.
  intros HI Hf He. apply swp_bind. unfold delegate_dropin_path.
  eapply swp_gives; [by apply gives_accounts| |by intros]. apply swp_bind, swp_ret; [done|].
  destruct (resolve_sandbox_pw _ _) as [pw|e]; [|done]. apply swp_ret; [done|]. by apply Hf.
Qed.

#[export] Instance l2a_contract : PhaseContract host_step (l2a_body exc_str ctx) (l2a_converged ctx).
Proof.
  split; cbn [l2a_body body_probe body_act body_reverify].
  - intros s. unfold l2a_probe. give gives_accounts. apply swp_bind, swp_ret; [done|].
    destruct (probe_sandbox_pw_or_missing _ _ _) as [[pw|[v d]]|e] eqn:Hg; [| |done].
    + give gives_text. apply swp_ret; [done|]. intros detail H. exists pw. split.
      * unfold probe_sandbox_pw_or_missing in Hg.
        destruct (resolve_sandbox_pw _ _) as [pw'|[]]; congruence.
      * destruct (hs_files s !! _) as [text|]; [|done].
        destruct (String.eqb_spec text render_delegate_dropin); [congruence|done].
    + apply swp_ret; [done|]. intros detail [= -> _]. unfold probe_sandbox_pw_or_missing in Hg.
      destruct (resolve_sandbox_pw _ _) as [pw'|[]]; congruence.
  - intros faults s. unfold l2a_reverify. apply swp_dropin_path; [done| |done]. intros pw Hpw.
    give gives_text. apply swp_ret; [done|]. intros v [= <-]. unfold l2a_converged.
    rewrite bool_decide_eq_true. split; [by eauto|]. intros _ (pw' & Hpw' & H). congruence.
  - intros s. unfold l2a_act. apply swp_dropin_path; [done| |by intros e [? ?]]. intros pw Hpw.
    change_step. intros [] s1 ->. change_step. intros [] s2 H.
    assert (s2 = with_files <[delegate_dropin_path_for_uid pw.1 := render_delegate_dropin]> s) as -> by (by inversion H).
    apply swp_ret; [done|]. intros _. exists pw. split; [done|]. apply lookup_insert_eq.
Qed.
End delegate_proofs.

(** ** L2: the subordinate ranges *)

Open Scope list_scope.

Definition of_user (user : string) (e : string * Z * Z) : option (Z * Z) :=
  let '(u, start, count) := e in if String.eqb u user then Some (start, count) else None.

Lemma parse_of_user text user : parse_subid_file text user = omap (of_user user) (all_users_ranges_by_user text).
Proof.
  destruct text as [text|]; [|done]. cbn. induction (splitlines text) as [|l ls IH]; [done|].
  cbn. destruct (parse_subid_line l) as [[[u start] count]|]; cbn; [|exact IH].
  destruct (String.eqb u user); cbn; by rewrite IH.
Qed.

Lemma range_text_inj a c a' c' : (0 <= a)%Z → (0 <= a')%Z → range_text a c = range_text a' c' → a = a' ∧ c = c'.
Proof.
  intros Ha Ha' H0. pose proof H0 as H. apply (f_equal (split_char "-")) in H. unfold range_text in H, H0.
  assert (Hs : ∀ x y, (0 <= x)%Z → split_char "-" (str_of_Z x +:+ "-" +:+ str_of_Z y) = str_of_Z x :: split_char "-" (str_of_Z y)).
  { intros x y Hx. apply (split_char_app "-" (str_of_Z x) (str_of_Z y)). by apply str_of_Z_no_char. }
  rewrite !Hs in H by done. injection H as H1%str_of_Z_inj _. subst a'. split; [done|].
  apply (inj (String.append _)), (inj (String.append _)), str_of_Z_inj in H0. lia.
Qed.

Lemma pick_block h : ∃ start, (0 <= start)%Z ∧ pick_free_subid_block h None = Some (start, SUBID_RANGE_SIZE) ∧
  Forall (range_apart (start, SUBID_RANGE_SIZE)) (read_all_subid_ranges h).
Proof.
  destruct (pick_fuel_enough (read_all_subid_ranges h)) as (k & Hk & Hend).
  destruct (pick_loop_spec (read_all_subid_ranges h) (pick_fuel (read_all_subid_ranges h)) 0 k)
    as (j & Hj & Hp & Hfree & _); [lia|by apply block_beyond_end|].
  exists (block_start j). split_and!; [unfold block_start, SUBID_BASE, SUBID_RANGE_SIZE; lia|done|by apply block_taken_false].
Qed.

Lemma no_overlap h user : cross_user_overlap h user = None ↔
  ∀ o f, o ∈ own_ranges h user → f ∈ foreign_ranges h user → ranges_overlap o.2.1 o.2.2 f.1 f.2 = false.
Proof.
  unfold cross_user_overlap. set (l := o ← own_ranges h user; _). split.
  - intros Hl o f Ho Hf. destruct (ranges_overlap _ _ _ _) eqn:E; [|done].
    assert (overlap_detail user o f ∈ l) as Hin; [|destruct l; [by apply elem_of_nil in Hin|done]].
    unfold l. apply list_elem_of_bind. exists o. split; [|done]. apply list_elem_of_bind. exists f. split; [|done].
    rewrite E. by left.
  - intros H. destruct l as [|d l'] eqn:El; [done|]. assert (Hin : d ∈ l) by (rewrite El; left). exfalso.
    unfold l in Hin. apply list_elem_of_bind in Hin as (o & Hin & Ho). apply list_elem_of_bind in Hin as (f & Hin & Hf).
    rewrite (H o f Ho Hf) in Hin. by apply elem_of_nil in Hin.
Qed.

Lemma absent_facts h user : (subid_status h user).1 = Absent →
  inadequate_detail user "subuid" (parse_subuid_for_user h user) = None ∧
  inadequate_detail user "subgid" (parse_subgid_for_user h user) = None ∧ cross_user_overlap h user = None.
Proof.
  unfold subid_status. destruct (parse_subuid_for_user h user) as [|u us] eqn:Eu, (parse_subgid_for_user h user) as [|g gs] eqn:Eg;
    rewrite ?bool_decide_eq_true_2, ?bool_decide_eq_false_2 by done; cbn [negb andb orb].
  { intros _. unfold cross_user_overlap, own_ranges. by rewrite Eu, Eg. }
  all: destruct (inadequate_detail user "subuid" _) eqn:E1; [done|];
    destruct (inadequate_detail user "subgid" _) eqn:E2; [done|];
    by destruct (cross_user_overlap h user).
Qed.

Lemma adequate_detail user label ranges : inadequate_detail user label ranges = None ↔ ranges = [] ∨ adequate_range ranges = true.
Proof. destruct ranges as [|r l]; cbn; [tauto|]. destruct (adequate_range (r :: l)); split; try done; intros; (by right) || naive_solver. Qed.

Lemma adequate_intro h user : parse_subuid_for_user h user ≠ [] → parse_subgid_for_user h user ≠ [] →
  inadequate_detail user "subuid" (parse_subuid_for_user h user) = None →
  inadequate_detail user "subgid" (parse_subgid_for_user h user) = None → cross_user_overlap h user = None →
  (subid_status h user).1 = Adequate.
Proof.
  intros Hu Hg Ha Hb Hc. unfold subid_status. rewrite Ha, Hb, Hc, !(bool_decide_eq_true_2 (_ ≠ [])) by done. done.
Qed.

(** A file in which the user has ranges, or gets the block. *)
Definition provided (user : string) (start : Z) (old new : option string) : Prop :=
  (parse_subid_file old user ≠ [] ∧ new = old) ∨
  (parse_subid_file old user = [] ∧ appended old new user start SUBID_RANGE_SIZE).

Lemma provided_parse user start old new label : provided user start old new →
  inadequate_detail user label (parse_subid_file old user) = None →
  parse_subid_file new user ≠ [] ∧ inadequate_detail user label (parse_subid_file new user) = None ∧
  (∀ r, r ∈ parse_subid_file new user → r ∈ parse_subid_file old user ∨ r = (start, SUBID_RANGE_SIZE)) ∧
  omap (λ '(u, a, c), if String.eqb u user then None else Some (a, c)) (all_users_ranges_by_user new) =
  omap (λ '(u, a, c), if String.eqb u user then None else Some (a, c)) (all_users_ranges_by_user old).
Proof.
  intros [[Hn ->]|[Hold Happ]] Hd; [by split_and!; auto|].
  assert (parse_subid_file new user = [(start, SUBID_RANGE_SIZE)]) as Hnew.
  { rewrite parse_of_user, Happ, omap_app, <- parse_of_user, Hold. cbn. by rewrite String.eqb_refl. }
  rewrite Hnew. split_and!; [done| |by intros r ->%list_elem_of_singleton; right|].
  - cbn [inadequate_detail]. by replace (adequate_range _) with true by (by vm_compute).
  - rewrite Happ, omap_app. cbn. rewrite String.eqb_refl. by rewrite app_nil_r.
Qed.

Lemma provided_adequate h h' user start : (subid_status h user).1 = Absent →
  Forall (range_apart (start, SUBID_RANGE_SIZE)) (read_all_subid_ranges h) →
  provided user start (subuid_text h) (subuid_text h') → provided user start (subgid_text h) (subgid_text h') →
  (subid_status h' user).1 = Adequate.
Proof.
  intros (Hu & Hg & Hc)%absent_facts Hap Hpu Hpg.
  destruct (provided_parse _ _ _ _ "subuid" Hpu Hu) as (Hu1 & Hu2 & Hu3 & Hu4).
  destruct (provided_parse _ _ _ _ "subgid" Hpg Hg) as (Hg1 & Hg2 & Hg3 & Hg4).
  apply adequate_intro; try done. apply no_overlap. intros o f Ho Hf.
  assert (Hf' : f ∈ foreign_ranges h user).
  { unfold foreign_ranges, read_all_subid_ranges_by_user in *. rewrite omap_app in *. by rewrite <- Hu4, <- Hg4. }
  assert (Hown : o ∈ own_ranges h user ∨ o.2 = (start, SUBID_RANGE_SIZE)).
  { unfold own_ranges in *. rewrite elem_of_app, !list_elem_of_fmap in *.
    destruct Ho as [(r & -> & Hr)|(r & -> & Hr)]; [destruct (Hu3 r Hr)|destruct (Hg3 r Hr)]; eauto. }
  destruct Hown as [Hown| ->]; [by apply (proj1 (no_overlap h user) Hc)|].
  apply ranges_overlap_apart. rewrite Forall_forall in Hap. destruct f as [fs fc]. apply Hap.
  unfold foreign_ranges in Hf'. apply list_elem_of_omap in Hf' as ([[u a] c] & Hin & Heq).
  destruct (String.eqb u user); [done|]. injection Heq as -> ->.
  unfold read_all_subid_ranges. apply list_elem_of_fmap. by exists (u, fs, fc).
Qed.

Abbreviation hgives faults I := (gives (host_step faults%bool) I (faults%bool = true)).

(** ** L2: what its steps read and leave *)

Definition member_of (s : hstate) (op g : string) : bool :=
  match hs_groups s !! g with
  | None => false
  | Some (gid, members) =>
      bool_decide (op ∈ members) || from_option (λ pw, Z.eqb gid (pw_gid pw)) false (hs_passwd s !! op)
  end.

Definition in_range (s : hstate) (user : string) (gid : Z) : bool :=
  gid_in_subgid_range gid (parse_subgid_for_user (env_of s) user).

Section prereq_reads.
Context (faults : bool) (I : hstate → Prop) (s : hstate) (HI : I s).

Lemma gives_user_exists u : hgives faults I (user_exists u) s (bool_decide (is_Some (hs_passwd s !! u))).
Proof. eapply gives_bind; [by apply gives_accounts|by apply gives_ret]. Qed.
Lemma gives_group_exists g : hgives faults I (group_exists g) s (bool_decide (is_Some (hs_groups s !! g))).
Proof. eapply gives_bind; [by apply gives_group|by apply gives_ret]. Qed.
Lemma gives_group_gid g e : hs_groups s !! g = Some e → hgives faults I (group_gid g) s e.1.
Proof. intros Hg. eapply gives_bind; [by apply gives_group|]. apply gives_lift; [done|]. by rewrite Hg. Qed.
Lemma gives_status u : hgives faults I (status_of u) s (subid_status (env_of s) u).
Proof. eapply gives_bind; [by apply gives_accounts|by apply gives_ret]. Qed.
Lemma gives_in_range gid u : hgives faults I (group_in_range gid u) s (in_range s u gid).
Proof. eapply gives_bind; [by apply gives_accounts|by apply gives_ret]. Qed.
Lemma gives_member op g : hgives faults I (operator_in_group op g) s (member_of s op g).
Proof.
  unfold operator_in_group, member_of. eapply gives_bind; [by apply gives_group|].
  destruct (hs_groups s !! g) as [[gid members]|]; [|by apply gives_ret].
  case_bool_decide; [by apply gives_ret|]. eapply gives_bind; [by apply gives_accounts|].
  cbn [env_of getpwnam]. by destruct (hs_passwd s !! op); apply gives_ret.
Qed.

Lemma swp_machined {A} (g : bool → root A) Q :
  swp (host_step faults) I (g (hs_machined s)) Q s → (faults = true → swp (host_step faults) I (g false) Q s) →
  (∀ e, faults = true → Q (Err e) s) → swp (host_step faults) I (machined_active ≫= g) Q s.
Proof.
  apply (swp_tolerant faults I (Query MACHINED false) (λ out, String.eqb (strip out) "active")); [|done].
  intros a s' [-> H]. split; [done|]. destruct a; [|done]. apply eq_bool_prop_intro.
  rewrite !Is_true_true, String.eqb_eq. by apply H.
Qed.

Lemma swp_l2_user {A} ctx (f : string → root A) Q :
  (∀ user, resolve_daemon_owner_settings (env_of s) (HostConfig.host (ctx_config ctx)) = Ok user →
   swp (host_step faults) I (f user) Q s) → (∀ e, Q (Err e) s) →
  swp (host_step faults) I (l2_user ctx ≫= f) Q s.
Proof.
  intros Hf He. unfold l2_user. apply swp_bind. eapply swp_gives; [by apply gives_accounts| |by intros].
  apply swp_ret; [done|]. destruct (resolve_daemon_owner_settings _ _); [by apply Hf|done].
Qed.
End prereq_reads.

(** ** L2: what its tools may do *)

(** [s] is [s0] with more: no entry of the account and subid files is changed
    or removed, and the new ranges are [user]'s. *)
Record grown (user : string) (s0 s : hstate) : Prop := {
  grown_subuid : ∃ more, all_users_ranges_by_user (hs_subuid s) = all_users_ranges_by_user (hs_subuid s0) ++ more ∧
    Forall (λ e, e.1.1 = user) more;
  grown_subgid : ∃ more, all_users_ranges_by_user (hs_subgid s) = all_users_ranges_by_user (hs_subgid s0) ++ more ∧
    Forall (λ e, e.1.1 = user) more;
  grown_passwd : ∀ u pw, hs_passwd s0 !! u = Some pw → hs_passwd s !! u = Some pw;
  grown_groups : ∀ g gid ms, hs_groups s0 !! g = Some (gid, ms) → ∃ more, hs_groups s !! g = Some (gid, ms ++ more);
  grown_machined : hs_machined s0 = true → hs_machined s = true;
  grown_user : hs_user s = hs_user s0;
  grown_files : hs_files s = hs_files s0
}.

Lemma grown_refl user s : grown user s s.
Proof. split; try done; try (exists []; by rewrite app_nil_r). Qed.

Lemma grown_trans user s1 s2 s3 : grown user s1 s2 → grown user s2 s3 → grown user s1 s3.
Proof.
  intros [(m1 & Hu1 & Fu1) (n1 & Hg1 & Fg1) P1 G1 M1 U1 F1] [(m2 & Hu2 & Fu2) (n2 & Hg2 & Fg2) P2 G2 M2 U2 F2].
  split; [|..|congruence|congruence]; auto.
  - exists (m1 ++ m2). rewrite Hu2, Hu1, app_assoc. by rewrite Forall_app.
  - exists (n1 ++ n2). rewrite Hg2, Hg1, app_assoc. by rewrite Forall_app.
  - intros g gid ms (more & H)%G1. apply G2 in H as [more' H]. exists (more ++ more'). by rewrite app_assoc.
Qed.

Definition subid_of (user : string) (argv : list string) : Prop :=
  ∀ opt r u, argv = ["usermod"; opt; r; u] → opt = "--add-subuids" ∨ opt = "--add-subgids" → u = user.

Lemma tool_grown user argv s s' : tool argv s s' → subid_of user argv → grown user s s'.
Proof.
  intros Ht Hu. pose proof (grown_refl user s) as Hr. destruct Ht as [s|u pw g s Hn Hg|u a c new s Ha Happ|u a c new s Ha Happ|gid g s Hn|gid ms g u s Hg|argv s Hs].
  - by destruct Hr; split.
  - destruct Hr; split; try done; cbn [with_user hs_passwd hs_groups].
    + intros v pw' Hv. rewrite lookup_insert_ne; [done|congruence].
    + intros v gid ms Hv. exists []. rewrite app_nil_r. destruct Hg as [->|[Hno ->]]; [done|].
      rewrite lookup_insert_ne; [done|congruence].
  - destruct Hr; split; try done. exists [(u, a, c)]. split; [done|]. constructor; [|done].
    by eapply (Hu "--add-subuids"); [|left].
  - destruct Hr; split; try done. exists [(u, a, c)]. split; [done|]. constructor; [|done].
    by eapply (Hu "--add-subgids"); [|right].
  - destruct Hr; split; try done. intros v gid' ms Hv. exists []. rewrite app_nil_r. cbn [with_groups hs_groups].
    rewrite lookup_insert_ne; [done|congruence].
  - destruct Hr; split; try done. intros v gid' ms' Hv. cbn [with_groups hs_groups].
    destruct (decide (g = v)) as [->|].
    + rewrite lookup_insert_eq. exists [u]. congruence.
    + exists []. by rewrite lookup_insert_ne, app_nil_r.
  - done.
Qed.

Lemma scan_range_in used first acc m off n g :
  scan_range used first acc m off n = Some g → (first + off <= g < first + off + Z.of_nat n)%Z.
Proof.
  revert off; induction n as [|n IH]; intros off; cbn [scan_range]; [done|].
  destruct (Z.ltb _ _); [intros H%IH; lia|]. case_bool_decide; [intros H1%IH; lia|]. intros [= <-]. lia.
Qed.

Lemma recommended_in_range h user m gid : autodetect_workspace_bridge_gid_recommendation h user m = Ok gid →
  gid_in_subgid_range gid (parse_subgid_for_user h user) = true.
Proof.
  unfold autodetect_workspace_bridge_gid_recommendation. destruct (parse_subgid_for_user h user) as [|r rs]; [done|].
  set (l := r :: rs). clearbody l. destruct (scan_ranges _ l 0 m) eqn:E; [|done]. intros [= <-].
  revert E; generalize 0%Z; induction l as [|[first count] l IH]; intros acc; cbn [scan_ranges]; [done|].
  cbn [gid_in_subgid_range existsb]. destruct (scan_range _ first acc m 0 (Z.to_nat count)) as [g|] eqn:E.
  - intros [= ->]. apply scan_range_in in E. replace ((first <=? z)%Z) with true by (symmetry; apply Z.leb_le; lia).
    by replace ((z <? first + count)%Z) with true by (symmetry; apply Z.ltb_lt; lia).
  - intros H%IH. unfold gid_in_subgid_range in H. rewrite H. by rewrite orb_true_r.
Qed.

Section l2_proofs.
Context (ctx : SetupContext).
Local Abbreviation op := (ctx_operator ctx).
Local Abbreviation grp := (l2_group ctx).

(** The bridge group exists, at a gid of the user's subordinate range. *)
Definition group_good (s : hstate) (user : string) : Prop :=
  ∃ gid members, hs_groups s !! grp = Some (gid, members) ∧ in_range s user gid = true.

Definition l2_good (s : hstate) (user : string) : Prop :=
  hs_machined s = true ∧ is_Some (hs_passwd s !! user) ∧ (subid_status (env_of s) user).1 = Adequate ∧
  group_good s user ∧ member_of s op grp = true.

Definition l2_converged (s : hstate) : Prop :=
  ∃ user, resolve_daemon_owner_settings (env_of s) (HostConfig.host (ctx_config ctx)) = Ok user ∧ l2_good s user.

Lemma l2_probe_sound s : swp (host_step true) (eq s) (l2_probe ctx)
  (λ r _, ∀ detail, r = Ok (ALREADY_CORRECT, detail) → l2_converged s) s.
Proof.
  unfold l2_probe. apply swp_l2_user; [done| |done]. intros user Hu.
  give gives_user_exists. case_bool_decide as Hpw; cbn [negb]; [|by apply swp_ret].
  give gives_status. destruct (subid_status (env_of s) user) as [[] detail] eqn:Hst; [|by apply swp_ret..].
  apply swp_machined; [done| |by intros; apply swp_ret|done].
  destruct (hs_machined s) eqn:Hm; cbn [negb]; [|by apply swp_ret].
  give gives_group_exists. case_bool_decide as Hg; cbn [negb]; [|by apply swp_ret]. destruct Hg as [[gid members] Hg].
  eapply swp_gives; [by apply gives_group_gid| |done]. cbn [fst].
  give gives_in_range. destruct (in_range s user gid) eqn:Hr; cbn [negb]; [|by apply swp_ret].
  give gives_member. destruct (member_of s op grp) eqn:Hmem; cbn [negb]; [|by apply swp_ret].
  apply swp_ret; [done|]. intros _ _. exists user. split; [done|]. split_and!; try done; [by rewrite Hst|].
  by exists gid, members.
Qed.

Lemma l2_reverify_sound faults s : swp (host_step faults) (eq s) (l2_reverify ctx)
  (λ r _, ∀ v, r = Ok v → (v = true → l2_converged s) ∧ (faults = false → l2_converged s → v = true)) s.
Proof.
  assert (Hgood : ∀ user, resolve_daemon_owner_settings (env_of s) (HostConfig.host (ctx_config ctx)) = Ok user →
    l2_converged s → l2_good s user) by (intros user Hu (user' & Hu' & ?); congruence).
  assert (Hno : ∀ user, resolve_daemon_owner_settings (env_of s) (HostConfig.host (ctx_config ctx)) = Ok user →
    (faults = false → ¬ l2_good s user) → swp (host_step faults) (eq s) (mret false)
    (λ r _, ∀ v, r = Ok v → (v = true → l2_converged s) ∧ (faults = false → l2_converged s → v = true)) s).
  { intros user Hu Hn. apply swp_ret; [done|]. intros v [= <-]. split; [done|]. intros Hf Hc.
    by destruct (Hn Hf); apply Hgood. }
  unfold l2_reverify. apply swp_l2_user; [done| |done]. intros user Hu. specialize (Hno user Hu).
  apply swp_machined; [done| | |done]; [|intros ->; cbn [negb]; by apply Hno].
  destruct (hs_machined s) eqn:Hm; cbn [negb]; [|apply Hno; intros _ [? _]; congruence].
  give gives_user_exists. case_bool_decide as Hpw; cbn [negb]; [|by apply Hno; intros _ (_ & ? & _)].
  give gives_status. case_bool_decide as Hst; cbn [negb]; [|by apply Hno; intros _ (_ & _ & ? & _)].
  give gives_group_exists. case_bool_decide as Hg; cbn [negb].
  2: { apply Hno. intros _ (_ & _ & _ & (gid & ms & E & _) & _). destruct Hg. by rewrite E. }
  destruct Hg as [[gid members] Hg]. eapply swp_gives; [by apply gives_group_gid| |done]. cbn [fst].
  give gives_in_range. destruct (in_range s user gid) eqn:Hr; cbn [negb].
  2: { apply Hno. intros _ (_ & _ & _ & (gid' & ms & E & ?) & _). congruence. }
  eapply swp_mono; [|by apply (gives_member faults (eq s))]. intros r s' _ [-> H] v ->. subst v. split.
  - intros Hmem. exists user. split; [done|]. split_and!; try done. by exists gid, members.
  - intros _ Hc. by apply (Hgood user Hu) in Hc as (_ & _ & _ & _ & ?).
Qed.

(** ** L2: the steps of its act *)

Section act.
Context (user : string) (s0 : hstate).
Local Abbreviation I := (grown user s0).
Local Abbreviation sp := (swp (host_step true) I).

Lemma swp_run {A} argv (f : unit → root A) Q s : subid_of user argv → I s →
  (∀ s', tool argv s s' → I s' → sp (f tt) Q s') → (∀ e s', Q (Err e) s') → sp (host (Run argv) ≫= f) Q s.
Proof.
  intros Hargv HI Hf He.
  assert (Hg : ∀ s', tool argv s s' → I s') by (intros; eapply grown_trans, tool_grown; done).
  host_call_step; [done| |].
  - intros [] s' Ht. by apply Hf; [|apply Hg].
  - intros e s' [->|Ht]; by split; [auto|].
Qed.

Lemma swp_act_machined {A} (f : list string → root A) Q s : I s →
  (∀ l, I (with_machined s) → sp (f l) Q (with_machined s)) → (∀ e s', Q (Err e) s') → sp (act_machined ≫= f) Q s.
Proof.
  intros HI Hf He. unfold act_machined. apply swp_bind.
  assert (Hen : sp (_ ← host (Run ["systemctl"; "enable"; "--now"; "systemd-machined"]); mret ["enabled systemd-machined"])
    (λ r s', match r with Ok a => sp (f a) Q s' | Err e => Q (Err e) s' end) s).
  { apply swp_run; [by intros|done| |done]. intros s' Ht HI'.
    assert (s' = with_machined s) as -> by (inversion Ht; subst; try done; naive_solver).
    apply swp_ret; [done|by apply Hf]. }
  apply swp_machined; [done| | |done].
  - destruct (hs_machined s) eqn:Hm; cbn [negb]; [|done].
    assert (with_machined s = s) as Heq by (destruct s; cbn in *; by subst). rewrite Heq in Hf.
    apply swp_ret; [done|by apply Hf].
  - intros _. exact Hen.
Qed.

Lemma swp_act_user {A} (f : list string → root A) Q s : I s →
  (∀ l s', I s' → grown user s s' → is_Some (hs_passwd s' !! user) → sp (f l) Q s') →
  (∀ e s', Q (Err e) s') → sp (act_user user ≫= f) Q s.
Proof.
  intros HI Hf He. unfold act_user. apply swp_bind. eapply swp_gives; [by apply gives_user_exists| |done].
  case_bool_decide as Hpw; cbn [negb]; [by apply swp_ret; [|apply Hf; [|apply grown_refl|]]|].
  apply swp_run; [by intros|done| |done]. intros s' Ht HI'. apply swp_ret; [done|].
  apply Hf; [done|by eapply tool_grown; [|intros]|].
  inversion Ht; subst; try naive_solver. cbn. by rewrite lookup_insert_eq.
Qed.

(** One of the two files, with the block the user lacks. *)
Lemma swp_act_range {A} opt file start (f : list string → root A) Q s own set :
  own = parse_subuid_for_user ∧ opt = "--add-subuids" ∧ set = (λ new, with_subids new (hs_subgid s) s) ∨
  own = parse_subgid_for_user ∧ opt = "--add-subgids" ∧ set = (λ new, with_subids (hs_subuid s) new s) →
  (0 <= start)%Z → I s →
  (∀ l new, let old := if String.eqb opt "--add-subuids" then hs_subuid s else hs_subgid s in
    provided user start old new → I (set new) → grown user s (set new) → sp (f l) Q (set new)) →
  (∀ e s', Q (Err e) s') → sp (act_range opt file user (range_text start SUBID_RANGE_SIZE) own ≫= f) Q s.
Proof.
  intros Hown Hstart HI Hf He. unfold act_range. apply swp_bind. eapply swp_gives; [by apply gives_accounts| |done].
  assert (Hsame : own (env_of s) user ≠ [] → set (if String.eqb opt "--add-subuids" then hs_subuid s else hs_subgid s) = s
    ∧ provided user start (if String.eqb opt "--add-subuids" then hs_subuid s else hs_subgid s)
        (if String.eqb opt "--add-subuids" then hs_subuid s else hs_subgid s)).
  { destruct Hown as [(-> & -> & ->)|(-> & -> & ->)]; cbn; intros Hn; (split; [by destruct s|by left]). }
  destruct (own (env_of s) user) as [|r rs] eqn:Hold.
  2: { destruct (Hsame ltac:(done)) as [Heq Hp]. apply swp_ret; [done|].
       specialize (Hf [] _ Hp). rewrite Heq in Hf. apply Hf; [done|apply grown_refl]. }
  clear Hsame. apply swp_run; [|done| |done].
  { intros o r u [= _ _ ->] _. done. }
  intros s' Ht HI'. apply swp_ret; [done|].
  assert (Hg : grown user s s') by (eapply tool_grown; [done|]; by intros o r u [= _ _ ->] _).
  destruct Hown as [(-> & -> & ->)|(-> & -> & ->)]; inversion Ht as [| |u a c new x Ha Happ|u a c new x Ha Happ| | |? ? [|]]; subst; try done.
  all: match goal with H : range_text _ _ = range_text _ _ |- _ =>
      apply range_text_inj in H as [-> ->]; [|done|done] end.
  all: by apply (Hf _ new); [right|..].
Qed.

Lemma swp_act_subid {A} (f : list string → root A) Q s : I s →
  (∀ l s', I s' → grown user s s' → (subid_status (env_of s') user).1 = Adequate → sp (f l) Q s') →
  (∀ e s', Q (Err e) s') → sp (act_subid user ≫= f) Q s.
Proof.
  intros HI Hf He. unfold act_subid. apply swp_bind. eapply swp_gives; [by apply gives_status| |done].
  destruct (subid_status (env_of s) user).1 eqn:Hst; [by apply swp_ret; [|apply Hf; [|apply grown_refl|]]| |by apply swp_ret..].
  eapply swp_gives; [by apply gives_accounts| |done].
  destruct (pick_block (env_of s)) as (start & Hstart & Hpick & Hap). unfold subid_range_arg. rewrite Hpick.
  change (str_of_Z start +:+ "-" +:+ _) with (range_text start SUBID_RANGE_SIZE).
  eapply swp_act_range; [by left|done|done| |done]. intros l1 uid' old1 Hp1 HI1 Hg1.
  eapply swp_act_range; [by right|done|done| |done]. intros l2 gid' old2 Hp2 HI2 Hg2.
  apply swp_ret; [done|]. apply Hf; [done|by eapply grown_trans|].
  by apply (provided_adequate (env_of s) _ user start).
Qed.

Definition same_subids (s s' : hstate) : Prop := hs_subuid s' = hs_subuid s ∧ hs_subgid s' = hs_subgid s.

Lemma swp_act_group {A} (f : list string → root A) Q s : I s →
  (∀ l s', I s' → grown user s s' → same_subids s s' → group_good s' user → sp (f l) Q s') →
  (∀ e s', Q (Err e) s') → sp (act_group ctx user ≫= f) Q s.
Proof.
  intros HI Hf He. unfold act_group. apply swp_bind. eapply swp_gives; [by apply gives_group_exists| |done].
  case_bool_decide as Hg; cbn [negb].
  - destruct Hg as [[gid ms] Hg]. eapply swp_gives; [by apply gives_group_gid| |done]. cbn [fst].
    eapply swp_gives; [by apply gives_in_range| |done].
    destruct (in_range s user gid) eqn:Hr; cbn [negb]; [|by apply swp_ret].
    apply swp_ret; [done|]. apply Hf; [done|apply grown_refl|done|by exists gid, ms].
  - eapply swp_gives; [by apply gives_accounts| |done]. apply swp_bind, swp_ret; [done|].
    destruct (autodetect_workspace_bridge_gid_recommendation _ _ _) as [gid|] eqn:Hgid; [|done].
    apply swp_run; [by intros|done| |done]. intros s' Ht HI'. apply swp_ret; [done|].
    assert (Hgr : grown user s s') by (by eapply tool_grown; [|intros]).
    apply recommended_in_range in Hgid.
    inversion Ht as [| | | |gid' g x Hn| |? ? [|]]; subst; try done.
    match goal with H : str_of_Z _ = str_of_Z _ |- _ => apply str_of_Z_inj in H as -> end.
    apply Hf; [done|done|done|]. exists gid, []. split; [by apply lookup_insert_eq|done].
Qed.

Lemma swp_act_member {A} (f : list string → root A) Q s : I s → is_Some (hs_groups s !! grp) →
  (∀ l s', I s' → grown user s s' → same_subids s s' → member_of s' op grp = true → sp (f l) Q s') →
  (∀ e s', Q (Err e) s') → sp (act_member ctx ≫= f) Q s.
Proof.
  intros HI [[gid ms] Hg] Hf He. unfold act_member. apply swp_bind. eapply swp_gives; [by apply gives_member| |done].
  destruct (member_of s op grp) eqn:Hmem; cbn [negb]; [by apply swp_ret; [|apply Hf; [|apply grown_refl|..]]|].
  assert (Hno : ∀ P, subid_of P ["usermod"; "-aG"; grp; op]) by (intros P o r u [= <- _ _] [|]; done).
  apply swp_run; [done|done| |done]. intros s' Ht HI'. apply swp_ret; [done|].
  assert (Hgr : grown user s s') by (by eapply tool_grown).
  inversion Ht as [| | | | |gid' ms' g u x Hg'|? ? [|]]; subst; try done.
  apply Hf; [done|done|done|]. unfold member_of. cbn [with_groups hs_groups]. rewrite lookup_insert_eq.
  apply orb_true_iff. left. apply bool_decide_eq_true. set_solver.
Qed.
End act.

Lemma status_same s s' user : same_subids s s' → subid_status (env_of s') user = subid_status (env_of s) user.
Proof.
  intros [Hu Hg]. unfold subid_status, cross_user_overlap, own_ranges, foreign_ranges, read_all_subid_ranges_by_user,
    parse_subuid_for_user, parse_subgid_for_user. cbn [env_of subuid_text subgid_text]. by rewrite Hu, Hg.
Qed.

Lemma group_good_grown s s' user : grown user s s' → same_subids s s' → group_good s user → group_good s' user.
Proof.
  intros Hg [_ Hs] (gid & ms & Hgid & Hr). destruct (grown_groups _ _ _ Hg _ _ _ Hgid) as [more Hm].
  exists gid, (ms ++ more). split; [done|]. unfold in_range, parse_subgid_for_user in *. cbn in *. by rewrite Hs.
Qed.

(** At every moment the host has only grown, and a result means it is good. *)
Lemma swp_l2_act user s : resolve_daemon_owner_settings (env_of s) (HostConfig.host (ctx_config ctx)) = Ok user →
  swp (host_step true) (grown user s) (l2_act ctx) (λ r s', (∃ detail, r = Ok detail) → l2_good s' user) s.
Proof.
  intros Hu. unfold l2_act. apply swp_l2_user; [apply grown_refl| |by intros e [? [=]]].
  intros user' Hu'. replace user' with user by congruence. clear user' Hu'.
  apply swp_act_machined; [apply grown_refl| |by intros e s' [? [=]]]. intros l1 HI1.
  apply swp_act_user; [done| |by intros e s' [? [=]]]. intros l2 s2 HI2 Hg2 Hpw.
  apply swp_act_subid; [done| |by intros e s' [? [=]]]. intros l3 s3 HI3 Hg3 Hst.
  apply swp_act_group; [done| |by intros e s' [? [=]]]. intros l4 s4 HI4 Hg4 Hs4 Hgrp.
  apply swp_act_member; [done| | |by intros e s' [? [=]]].
  { destruct Hgrp as (gid & ms & -> & _). by eexists. }
  intros l5 s5 HI5 Hg5 Hs5 Hmem. apply swp_ret; [done|]. intros _.
  assert (Hall : grown user s2 s5) by (eapply grown_trans; [done|]; by eapply grown_trans).
  split_and!.
  - apply (grown_machined _ _ _ Hall), (grown_machined _ _ _ Hg2). done.
  - destruct Hpw as [pw Hpw]. exists pw. by apply (grown_passwd _ _ _ Hall).
  - rewrite (status_same s4 s5), (status_same s3 s4); done.
  - by apply (group_good_grown s4).
  - done.
Qed.

#[export] Instance l2_contract : PhaseContract host_step (l2_body ctx) l2_converged.
Proof.
  split; cbn [l2_body body_probe body_act body_reverify].
  - exact l2_probe_sound.
  - exact l2_reverify_sound.
  - intros s. destruct (resolve_daemon_owner_settings (env_of s) (HostConfig.host (ctx_config ctx))) as [user|e] eqn:Hu.
    + eapply (swp_inv_mono _ (grown user s) (λ _, True)); [by intros|]. eapply swp_mono; [|by apply swp_l2_act].
      intros r s' Hg Hgood Hr. exists user. split; [|by apply Hgood].
      unfold resolve_daemon_owner_settings in *. cbn [env_of getuser] in *. by rewrite (grown_user _ _ _ Hg).
    + unfold l2_act. apply swp_l2_user; [done|by intros user ?; congruence|by intros e' [? [=]]].
Qed.
End l2_proofs.

(** ** A host that runs *)

Definition USERADD : list string := ["useradd"; "--system"; "--shell"; "/bin/bash"; "--create-home"].

(** [start-end], back to a start and a count. *)
Definition read_range (r : string) : option (Z * Z) :=
  match split_char "-" r with
  | [a; b] => x ← py_int a; y ← py_int b; Some (x, y - x + 1)%Z
  | _ => None
  end.

#[export] Instance appended_dec old new user start count : Decision (appended old new user start count).
Proof. unfold appended. apply _. Defined.

(** The file with one entry more, when that reads back. *)
Definition add_range (old : option string) (user r : string) : option (option string) :=
  '(start, count) ← read_range r;
  let new := Some (default "" old +:+ user +:+ ":" +:+ str_of_Z start +:+ ":" +:+ str_of_Z count +:+ NL) in
  if bool_decide ((0 <= start)%Z ∧ range_text start count = r ∧ appended old new user start count)
  then Some new else None.

Definition run_tool (argv : list string) (s : hstate) : option hstate :=
  if bool_decide (argv = ["systemctl"; "enable"; "--now"; "systemd-machined"]) then Some (with_machined s)
  else if bool_decide (head argv = Some "sysctl" ∨ argv = ["systemctl"; "daemon-reload"]) then Some s
  else match argv with
  | [tool_; opt; x; y] =>
      if negb (String.eqb tool_ "usermod") then
        if bool_decide (tool_ = "groupadd" ∧ opt = "-g" ∧ hs_groups s !! y = None) then
          gid ← py_int x; if String.eqb (str_of_Z gid) x then Some (with_groups (<[y := (gid, [])]> (hs_groups s)) s) else None
        else None
      else if String.eqb opt "--add-subuids" then new ← add_range (hs_subuid s) y x; Some (with_subids new (hs_subgid s) s)
      else if String.eqb opt "--add-subgids" then new ← add_range (hs_subgid s) y x; Some (with_subids (hs_subuid s) new s)
      else if String.eqb opt "-aG" then
        '(gid, members) ← hs_groups s !! x; Some (with_groups (<[x := (gid, members ++ [y])]> (hs_groups s)) s)
      else None
  | [a; b; c; d; e; u] =>
      if bool_decide ([a; b; c; d; e] = USERADD ∧ hs_passwd s !! u = None)
      then Some (with_user u (Passwd 997 997 ("/home/" +:+ u)) (hs_groups s) s) else None
  | _ => None
  end.

Lemma add_range_spec old user r new : add_range old user r = Some new →
  ∃ start count, (0 <= start)%Z ∧ r = range_text start count ∧ appended old new user start count.
Proof.
  unfold add_range. destruct (read_range r) as [[start count]|]; [|done]. cbn.
  case_bool_decide as H; [|done]. intros [= <-]. destruct H as (? & <- & ?). by exists start, count.
Qed.

Lemma run_tool_spec argv s s' : run_tool argv s = Some s' → tool argv s s'.
Proof.
  unfold run_tool. case_bool_decide as H1; [intros [= <-]; subst; constructor|].
  case_bool_decide as H2; [intros [= <-]; by constructor|]. clear H1 H2.
  destruct argv as [|t [|o [|x [|y [|z [|u [|]]]]]]]; try done.
  - destruct (String.eqb_spec t "usermod") as [->|]; cbn [negb].
    2: { case_bool_decide as H; [|done]. destruct H as (-> & -> & H). destruct (py_int x) as [gid|]; [|done]. cbn.
         destruct (String.eqb_spec (str_of_Z gid) x) as [<-|]; [|done]. intros [= <-]. by constructor. }
    destruct (String.eqb_spec o "--add-subuids") as [->|].
    { destruct (add_range _ _ _) as [new|] eqn:E; [|done]. intros [= <-].
      apply add_range_spec in E as (start & count & ? & -> & ?). by constructor. }
    destruct (String.eqb_spec o "--add-subgids") as [->|].
    { destruct (add_range _ _ _) as [new|] eqn:E; [|done]. intros [= <-].
      apply add_range_spec in E as (start & count & ? & -> & ?). by constructor. }
    destruct (String.eqb_spec o "-aG") as [->|]; [|done].
    destruct (hs_groups s !! x) as [[gid members]|] eqn:E; [|done]. intros [= <-]. by constructor.
  - case_bool_decide as H; [|done]. destruct H as [[= -> -> -> -> ->] H]. intros [= <-]. constructor; [done|by left].
Qed.

Definition host_machine (s : hstate) (c : host_call) : res (host_answer c) * hstate :=
  match c return res (host_answer c) * hstate with
  | RootEuid => (Ok 0%Z, s)
  | Accounts => (Ok (env_of s), s)
  | GroupEntry g => (Ok (hs_groups s !! g), s)
  | ReadText p => (Ok (hs_files s !! p), s)
  | Distro => (Ok (hs_distro s), s)
  | DriftStatus => (Ok "match", s)
  | MarkerEntryOf _ => (Ok None, s)
  | Query _ _ => (Ok (if hs_machined s then "active" else "inactive"), s)
  | ExitCode _ => (Ok (if hs_acl s then 0 else 1)%Z, s)
  | PathExists _ => (Ok (hs_cgroup2 s), s)
  | Run argv => match run_tool argv s with Some s' => (Ok tt, s') | None => (Err CalledProcessError, s) end
  | WriteRootFile p body _ => (Ok tt, with_files <[p := body]> s)
  | WriteInPlace p body => (Ok tt, with_files <[p := body]> s)
  | InstallPinned _ => (Ok tt, s)
  | WriteMarker _ _ _ _ => (Ok tt, s)
  | Exec _ _ => (Ok "", s)
  end.

Lemma host_machine_step faults s c : host_step faults s c (host_machine s c).1 (host_machine s c).2.
Proof.
  destruct c; cbn [host_machine host_step fst snd]; unfold reads; try done.
  - split; [done|]. intros _. by destruct (hs_machined s).
  - split; [done|]. intros _. by destruct (hs_acl s).
  - destruct (run_tool argv s) eqn:E; cbn; [by apply run_tool_spec|by left].
Qed.

(** ** Properties *)

(** The prerequisites phase only adds.  At every moment of every run
    of its act, the accounts, groups and subordinate ranges of before are all
    there unchanged, and each added range belongs to the daemon's owner. *)
Theorem l2_only_adds ctx user s t1 t2 r s1 :
  resolve_daemon_owner_settings (env_of s) (HostConfig.host (ctx_config ctx)) = Ok user →
  runs (l2_act ctx) (t1 ++ t2) r → path (host_step true) s t1 s1 → grown user s s1.
Proof. intros Hu Hr Hp. by eapply swp_always, swp_l2_act. Qed.

(** C31: The prerequisites phase converges.  Once its act has returned,
    machined is active, the owner exists with adequate ranges apart from every
    other user's, the bridge group lies in its range and the operator is in it;
    the reverify that follows changes nothing and says true. *)
Theorem l2_converges ctx s t1 detail s1 t2 v s2 :
  runs (l2_act ctx) t1 (Ok detail) → path (host_step true) s t1 s1 →
  runs (l2_reverify ctx) t2 (Ok v) → path (host_step false) s1 t2 s2 →
  l2_converged ctx s1 ∧ s2 = s1 ∧ v = true.
Proof. apply (contract_runs host_step (l2_body ctx) (l2_converged ctx)). Qed.

(** A host with only the operator's account, and another user's ranges. *)
Definition bare_host : hstate :=
  HState {["dev" := Passwd 1000 1000 "/home/dev"]} {["dev" := (1000%Z, [])]}
    (Some ("dev:100000:65536" +:+ NL)) (Some ("dev:100000:65536" +:+ NL)) "root" "/root" false true true (Some "debian") ∅.

Definition demo_ctx : SetupContext :=
  MkSetupContext (MkHostConfig (MkHostSettings (Some "sandbox") SEPARATE_USER "sb-ws")) "dev".

Definition act_run := exec host_machine (l2_act demo_ctx) bare_host.

Lemma bare_host_set_up : act_run.1.2 =
  Ok "enabled systemd-machined; created user sandbox; appended /etc/subuid entry; appended /etc/subgid entry; created group sb-ws (gid 166535); added dev to sb-ws".
Proof. vm_compute. reflexivity. Qed.

Definition reverify_run := exec host_machine (l2_reverify demo_ctx) act_run.2.

Lemma l2_converges_witness : reverify_run.1.2 = Ok true ∧ l2_converged demo_ctx act_run.2.
Proof.
  assert (Hv : reverify_run.1.2 = Ok true) by (vm_compute; reflexivity).
  split; [exact Hv|].
  pose proof (exec_runs host_machine (l2_act demo_ctx) bare_host) as Ha.
  pose proof (exec_runs host_machine (l2_reverify demo_ctx) act_run.2) as Hr.
  fold act_run in Ha. fold reverify_run in Hr. rewrite bare_host_set_up in Ha. rewrite Hv in Hr.
  exact (proj1 (l2_converges demo_ctx bare_host _ _ act_run.2 _ _ _ Ha
    (exec_path _ host_machine _ _ (host_machine_step true)) Hr
    (exec_path _ host_machine _ _ (host_machine_step false)))).
Defined.

Lemma l2_only_adds_witness : grown "sandbox" bare_host act_run.2.
Proof.
  pose proof (exec_runs host_machine (l2_act demo_ctx) bare_host) as Ha. fold act_run in Ha.
  rewrite <- (app_nil_r act_run.1.1) in Ha.
  exact (l2_only_adds demo_ctx "sandbox" bare_host _ [] _ _ eq_refl Ha
    (exec_path _ host_machine _ _ (host_machine_step true))).
Defined.

(** An error of [sudo] that is neither a refusal nor a listing counts as a
    grant. *)
Lemma unknown_user_granted :
  user_sudoers_grant (Some ("", "sudo: unknown user ghost", 1%Z)) = MkGrant true false true.
Proof. vm_compute. reflexivity. Qed.
