(* ===== verification/DaemonPhases.v ===== *)
(** * core.setup.l5_dockerd, l6_daemon_json and l7_helper_image

    The phases that reach the rootless daemon of its owner, as programs over the
    calls of [host_call], and a host with a daemon.  The [json] module is a
    pair of parameters. *)
From S2P Require Import Prelude PyStr HostConfig Json Images PrivilegeBoundary PhaseRunner Interact OnState HostBatch HostPhases.
From Stdlib Require Import Ascii String.
Open Scope nat_scope.

Definition bash_c (inner : string) : list string := ["/bin/bash"; "-c"; inner].

Section phases.
Context (exc_str : exn → string) (ctx : SetupContext).
Context (json_loads : string → option JsonValue) (json_dumps : JsonValue → string).

Definition op_rootless : bool := is_operator_rootless (ctx_config ctx).
Definition crossing : root (list string) := h ← host Accounts; lift (daemon_owner_crossing (pw_of h) ctx).

(** A crossed command; the sentinel recovers the exit a crossing masks. *)
Definition crossed (inner : string) : root string :=
  prefix ← crossing; host (Exec (prefix ++ bash_c inner)%list (negb op_rootless)).

(** [try: ... except SandboxExecutionError: return False] *)
Definition or_false (m : root bool) : root bool :=
  catch m (λ e, if is_sandbox_execution_error e then mret false else raise e).

(** [pwd.getpwnam] *)
Definition passwd_entry (user : string) : root (Z * string) :=
  h ← host Accounts; lift (from_option Ok (Err KeyError) (pw_of h user)).

Definition wait_user_manager_ready (user : string) : root unit :=
  pw ← passwd_entry user;
  let unit_ := "user@" +:+ str_of_Z pw.1 +:+ ".service" in
  _ ← host (Exec (bash_c ("for i in $(seq 1 30); do systemctl is-active " +:+ unit_ +:+ " >/dev/null 2>&1 " +:+
    "&& exit 0; sleep 1; done; echo '" +:+ unit_ +:+ " did not become active' >&2; exit 1")) false);
  mret tt.

(** ** l5_dockerd *)

Definition linger_query (user : string) : list string := ["loginctl"; "show-user"; user; "--property=Linger"].

Definition linger_enabled (user : string) : root bool :=
  or_false (out ← host (Exec (linger_query user) false); mret (contains "Linger=yes" out)).

Definition dockerd_reachable : root bool :=
  prefix ← crossing;
  or_false (_ ← host (Exec (prefix ++ bash_c "docker info")%list (negb op_rootless)); mret true).

(** The guard of the probes, in separate-user mode only. *)
Definition user_guard : root (option (PhaseResult * string)) :=
  if op_rootless then mret None
  else h ← host Accounts;
       guard ← lift (probe_sandbox_pw_or_missing exc_str (pw_of h) (ctx_config ctx));
       mret match guard with inl _ => None | inr missing => Some missing end.

Definition l5_missing (detail : string) : string :=
  "sandbox user " +:+ from_option py_repr "None" (sandbox_user ctx) +:+
  " does not exist yet (created by L2); dockerd will be installed (" +:+ detail +:+ ")".

Definition l5_probe : root (PhaseResult * string) :=
  guard ← user_guard;
  match guard with
  | Some (result, detail) => mret (result, l5_missing detail)
  | None =>
      user ← lift (daemon_owner_user ctx);
      linger ← (if op_rootless then mret true else linger_enabled user);
      if negb linger then
        mret (MISSING, "linger not enabled for " +:+ py_repr user +:+ "; will enable + install dockerd")
      else
        up ← dockerd_reachable;
        if negb up then
          mret (MISSING, "rootless dockerd not reachable as " +:+ py_repr user +:+ "; will install")
        else mret (ALREADY_CORRECT, "rootless dockerd reachable for " +:+ py_repr user)
  end.

Definition l5_act : root string :=
  user ← lift (daemon_owner_user ctx);
  _ ← when (negb op_rootless)
        (_ ← host (Exec ["loginctl"; "enable-linger"; user] false); wait_user_manager_ready user);
  up ← dockerd_reachable;
  if (up : bool) then mret ("rootless dockerd already up for " +:+ py_repr user)
  else
    _ ← crossed "dockerd-rootless-setuptool.sh install";
    mret ("rootless dockerd installed for " +:+ py_repr user).

Definition l5_reverify : root bool :=
  linger ← (if op_rootless then mret true
            else user ← lift (daemon_owner_user ctx); linger_enabled user);
  if negb linger then mret false else dockerd_reachable.

Definition l5_body : host_body := MkBody l5_probe l5_act l5_reverify.

(** ** l6_daemon_json *)

Definition EXPECTED_RUNTIME : JsonValue :=
  JObj {["path" := JStr "/usr/local/libexec/sandbox-ai/runsc";
         "runtimeArgs" := JList [JStr "--oci-seccomp"; JStr "--ignore-cgroups"]]}.

(** [v == EXPECTED_RUNTIME] *)
Definition is_expected (v : JsonValue) : bool :=
  match v with
  | JObj m =>
      match m !! "path", m !! "runtimeArgs" with
      | Some (JStr p), Some (JList [JStr a; JStr b]) =>
          String.eqb p "/usr/local/libexec/sandbox-ai/runsc" && String.eqb a "--oci-seccomp" &&
          String.eqb b "--ignore-cgroups" && Nat.eqb (size m) 2
      | _, _ => false
      end
  | _ => false
  end.

Definition daemon_json_path : root string :=
  owner ← lift (daemon_owner_user ctx);
  pw ← passwd_entry owner;
  mret (path_join (path_join3 pw.2 ".config" "docker") "daemon.json").

(** The document of a file's text; [None] is an absent file. *)
Definition parse_doc (path : string) (text : option string) : res (option (gmap string JsonValue)) :=
  match text with
  | None => Ok None
  | Some text =>
      if negb (nonempty (strip text)) then Ok (Some ∅)
      else match json_loads text with
      | None => Err JSONDecodeError
      | Some (JObj m) => Ok (Some m)
      | Some _ => Err (SandboxExecutionError ("[FATAL] Sandbox Execution Fault: " +:+ path +:+
          " is not a JSON object; refusing to merge the reserved runtime key.") false)
      end
  end.

Definition read_doc (path : string) : root (option (gmap string JsonValue)) :=
  text ← host (ReadText path); lift (parse_doc path text).

(** A JSON null is read as an absent key. *)
Definition observed_runtime (doc : gmap string JsonValue) : option JsonValue :=
  match doc !! "runtimes" with
  | Some (JObj runtimes) =>
      match runtimes !! RESERVED_RUNTIME_KEY with Some JNull => None | v => v end
  | _ => None
  end.

Definition LIST_RUNTIMES : string := "docker info --format '{{json .Runtimes}}'".

Definition runtime_registered : root bool :=
  prefix ← crossing;
  or_false (out ← host (Exec (prefix ++ bash_c LIST_RUNTIMES)%list (negb op_rootless));
            mret (contains RESERVED_RUNTIME_KEY out)).

Definition l6_probe : root (PhaseResult * string) :=
  guard ← user_guard;
  match guard with
  | Some missing => mret missing
  | None =>
      path ← daemon_json_path;
      doc ← read_doc path;
      match doc with
      | None => mret (MISSING, path +:+ " absent; will create with reserved key")
      | Some doc =>
          match observed_runtime doc with
          | None => mret (MISSING, path +:+ " present but reserved runtime key absent; will merge")
          | Some v =>
              if negb (is_expected v) then
                mret (DRIFT, path +:+ " reserved runtime key differs from expected; will converge")
              else
                registered ← runtime_registered;
                if negb registered then
                  mret (DRIFT, path +:+ " has the reserved runtime key but docker has not loaded it; " +:+
                               "will restart + verify registration")
                else mret (ALREADY_CORRECT, "reserved runtime key present and loaded by docker")
          end
      end
  end.

Definition RESTART : string :=
  "systemctl --user reset-failed docker.service; systemctl --user restart --no-block docker".
Definition POLL : string :=
  "for i in $(seq 1 30); do docker info --format '{{json .Runtimes}}' 2>/dev/null | grep -qF " +:+
  RESERVED_RUNTIME_KEY +:+ " && exit 0; sleep 1; done; exit 1".

Definition restart_and_poll : root unit :=
  _ ← when (negb op_rootless) (user ← lift (daemon_owner_user ctx); wait_user_manager_ready user);
  _ ← crossed RESTART;
  _ ← crossed POLL;
  mret tt.

(** The document with the reserved key; what else it holds is kept. *)
Definition merge_runtime (doc : gmap string JsonValue) : gmap string JsonValue :=
  let runtimes := match doc !! "runtimes" with Some (JObj m) => m | _ => ∅ end in
  <["runtimes" := JObj (<[RESERVED_RUNTIME_KEY := EXPECTED_RUNTIME]> runtimes)]> doc.

Definition l6_act : root string :=
  path ← daemon_json_path;
  doc ← read_doc path;
  let new_text := json_dumps (JObj (merge_runtime (default ∅ doc))) +:+ NL in
  old ← host (ReadText path);
  _ ← when (negb (String.eqb new_text (default "" (old : option string)))) (host (WriteInPlace path new_text));
  _ ← restart_and_poll;
  mret "reserved runtime key ensured; rootless docker restarted + runtime loaded".

Definition l6_reverify : root bool :=
  path ← daemon_json_path;
  doc ← read_doc path;
  match doc with
  | None => mret false
  | Some doc =>
      match observed_runtime doc with
      | Some v => if is_expected v then runtime_registered else mret false
      | None => mret false
      end
  end.

Definition l6_body : host_body := MkBody l6_probe l6_act l6_reverify.

(** ** l7_helper_image *)

Definition helper_pin : ImagePin :=
  MkImagePin "busybox" "1.36.1-musl" "sha256:3c6ae8008e2c2eedd141725c30b20d9c36b026eb796688f88205845ef17aa213".
Definition HELPER_REF : string := pinned helper_pin.
Definition HELPER_TAGGED : string := tagged helper_pin.

Definition ref_present (ref : string) : root bool :=
  prefix ← crossing;
  or_false (_ ← host (Exec (prefix ++ bash_c ("docker image inspect " +:+ ref))%list (negb op_rootless)); mret true).

Definition l7_probe : root (PhaseResult * string) :=
  there ← ref_present HELPER_REF;
  if (there : bool) then mret (ALREADY_CORRECT, "helper image " +:+ HELPER_REF +:+ " already cached")
  else
    other ← ref_present HELPER_TAGGED;
    if (other : bool) then
      mret (DRIFT, HELPER_TAGGED +:+ " present but not at the pinned digest " +:+ HELPER_REF +:+
                   "; will re-pull the pinned digest")
    else mret (MISSING, "helper image " +:+ HELPER_REF +:+ " not cached; will pull").

Definition l7_act : root string :=
  _ ← crossed ("docker pull " +:+ HELPER_REF);
  mret ("helper image " +:+ HELPER_REF +:+ " pulled").

Definition l7_reverify : root bool := ref_present HELPER_REF.

Definition l7_body : host_body := MkBody l7_probe l7_act l7_reverify.
End phases.

Lemma helper_pin_registered : image "busybox_musl" = Ok helper_pin.
Proof. reflexivity. Qed.

(** ** A host with a daemon *)

Record dstate := DState {
  d_host : hstate;
  d_linger : gset string;
  d_up : bool;
  d_runtimes : string; (* what [docker info] prints of them *)
  d_images : gset string (* the references that resolve *)
}.

(** The commands of the phases, as the daemon's host takes them. *)
Inductive command :=
  | ShowLinger (user : string) | EnableLinger (user : string)
  | DockerInfo | ListRuntimes | InstallDaemon | RestartDaemon | PollRuntime
  | InspectImage (ref : string) | PullImage (ref : string) | OtherCommand.

Definition after_prefix (p s : string) : option string :=
  if startswith p s then Some (sdrop (String.length p) s) else None.

Definition inner_command (inner : string) : command :=
  if String.eqb inner "docker info" then DockerInfo
  else if String.eqb inner LIST_RUNTIMES then ListRuntimes
  else if String.eqb inner "dockerd-rootless-setuptool.sh install" then InstallDaemon
  else if String.eqb inner RESTART then RestartDaemon
  else if String.eqb inner POLL then PollRuntime
  else match after_prefix "docker image inspect " inner, after_prefix "docker pull " inner with
       | Some ref, _ => InspectImage ref
       | None, Some ref => PullImage ref
       | None, None => OtherCommand
       end.

Section host.
Context (ctx : SetupContext).
Local Abbreviation rootless := (op_rootless ctx).

(** What a crossed [bash -c] runs, behind the prefix of the owner. *)
Definition crossed_inner (h : hstate) (argv : list string) : option string :=
  match rev argv, daemon_owner_crossing (pw_of (env_of h)) ctx with
  | inner :: c :: b :: p, Ok prefix =>
      if String.eqb b "/bin/bash" then
        if String.eqb c "-c" then if bool_decide (rev p = prefix) then Some inner else None else None
      else None
  | _, _ => None
  end.

Definition command_of (h : hstate) (argv : list string) : command :=
  match crossed_inner h argv with
  | Some inner => inner_command inner
  | None =>
      match argv with
      | [l; q; u; p] => if bool_decide ([l; q; p] = ["loginctl"; "show-user"; "--property=Linger"]) then ShowLinger u else OtherCommand
      | [l; q; u] => if bool_decide ([l; q] = ["loginctl"; "enable-linger"]) then EnableLinger u else OtherCommand
      | _ => OtherCommand
      end
  end.

(** A command that asks whether [P]; its exit is its answer, where [known]. *)
Definition asks {A} (faults known : bool) (s s' : dstate) (a : res A) (P : Prop) (out : A → Prop) : Prop :=
  s' = s ∧ match a with
           | Ok x => known = true → P ∧ out x
           | Err e => faults = true ∨ is_sandbox_execution_error e = true ∧ ¬ P
           end.

Definition exec_step (faults known : bool) (s : dstate) (c : command) (a : res string) (s' : dstate) : Prop :=
  match c with
  | ShowLinger u =>
      s' = s ∧ match a with
               | Ok out => contains "Linger=yes" out = bool_decide (u ∈ d_linger s)
               | Err e => faults = true ∨ is_sandbox_execution_error e = true ∧ u ∉ d_linger s
               end
  | EnableLinger u => match a with Ok _ => u ∈ d_linger s' | Err _ => True end
  | DockerInfo => asks faults known s s' a (d_up s = true) (λ _, True)
  | ListRuntimes => asks faults known s s' a (d_up s = true) (λ out, out = d_runtimes s)
  | InstallDaemon => match a with Ok _ => known = true → d_up s' = true | Err _ => True end
  | RestartDaemon => True
  | PollRuntime =>
      match a with
      | Ok _ => known = true → d_up s' = true ∧ contains RESERVED_RUNTIME_KEY (d_runtimes s') = true
      | Err _ => True
      end
  | InspectImage ref => asks faults known s s' a (ref ∈ d_images s) (λ _, True)
  | PullImage ref => match a with Ok _ => known = true → ref ∈ d_images s' | Err _ => True end
  | OtherCommand => True
  end.

(** The daemon's commands leave the host's files and accounts alone, and nobody
    stops lingering.  A crossing without a sentinel hides its exit. *)
Definition dstep (faults : bool) (s : dstate) (c : host_call) : res (host_answer c) → dstate → Prop :=
  match c with
  | Exec argv sentinel => λ a s',
      d_host s' = d_host s ∧ d_linger s ⊆ d_linger s' ∧
      exec_step faults (sentinel || rootless) s (command_of (d_host s) argv) a s'
  | c => λ a s', host_step faults (d_host s) c a (d_host s') ∧
                 s' = DState (d_host s') (d_linger s) (d_up s) (d_runtimes s) (d_images s)
  end.

Lemma crossed_inner_app h prefix inner : daemon_owner_crossing (pw_of (env_of h)) ctx = Ok prefix →
  crossed_inner h (prefix ++ bash_c inner)%list = Some inner.
Proof.
  intros Hp. unfold crossed_inner, bash_c. rewrite rev_app_distr, Hp. cbn.
  by rewrite bool_decide_eq_true_2 by by rewrite rev_involutive.
Qed.

Lemma command_crossed h prefix inner : daemon_owner_crossing (pw_of (env_of h)) ctx = Ok prefix →
  command_of h (prefix ++ bash_c inner)%list = inner_command inner.
Proof. intros Hp. unfold command_of. by rewrite (crossed_inner_app h prefix). Qed.

Lemma command_linger h u : command_of h (linger_query u) = ShowLinger u.
Proof. unfold command_of, crossed_inner, linger_query. cbn. by destruct (daemon_owner_crossing _ _). Qed.

Lemma command_enable h u : command_of h ["loginctl"; "enable-linger"; u] = EnableLinger u.
Proof. unfold command_of, crossed_inner. cbn. by destruct (daemon_owner_crossing _ _). Qed.

Lemma inner_inspect ref : inner_command ("docker image inspect " +:+ ref) = InspectImage ref.
Proof. reflexivity. Qed.
Lemma inner_pull ref : inner_command ("docker pull " +:+ ref) = PullImage ref.
Proof. reflexivity. Qed.

(** ** Reading that host *)

Section reads.
Context (faults : bool) (I : dstate → Prop).
Local Abbreviation dgives := (gives (dstep faults) I (faults = true)).

(** A read of the host underneath. *)
Lemma dgives_read c s v : (∀ a s', dstep faults s c a s' → host_step faults (d_host s) c a (d_host s') ∧
    s' = DState (d_host s') (d_linger s) (d_up s) (d_runtimes s) (d_images s)) →
  (∀ a h', host_step faults (d_host s) c a h' → reads faults (d_host s) h' a (λ x, x = v)) → I s → dgives (perform c) s v.
Proof.
  intros Hc Hr HI. apply gives_read; [|done]. intros a s' [H Hs]%Hc. apply Hr in H as [Hh Ha].
  split; [|done]. rewrite Hh in Hs. by destruct s.
Qed.

Lemma dgives_accounts s : I s → dgives (host Accounts) s (env_of (d_host s)).
Proof. by apply dgives_read. Qed.
Lemma dgives_text p s : I s → dgives (host (ReadText p)) s (hs_files (d_host s) !! p).
Proof. by apply dgives_read. Qed.

(** A crossing, or an exception. *)
Lemma swp_crossing {A} (f : list string → root A) Q s : I s →
  (∀ prefix, daemon_owner_crossing (pw_of (env_of (d_host s))) ctx = Ok prefix → swp (dstep faults) I (f prefix) Q s) →
  (∀ e, (faults = true ∨ ∃ e', daemon_owner_crossing (pw_of (env_of (d_host s))) ctx = Err e') → Q (Err e) s) →
  swp (dstep faults) I (crossing ctx ≫= f) Q s.
Proof.
  intros HI Hf He. apply swp_bind. unfold crossing. eapply swp_gives; [by apply dgives_accounts| |by auto].
  apply swp_ret; [done|]. destruct (daemon_owner_crossing _ _) eqn:E; [by apply Hf|]. eauto.
Qed.

Lemma swp_entry {A} user (f : Z * string → root A) Q s : I s →
  (∀ pw, pw_of (env_of (d_host s)) user = Some pw → swp (dstep faults) I (f pw) Q s) → (∀ e, Q (Err e) s) →
  swp (dstep faults) I (passwd_entry user ≫= f) Q s.
Proof.
  intros HI Hf He. apply swp_bind. unfold passwd_entry. eapply swp_gives; [by apply dgives_accounts| |by auto].
  apply swp_ret; [done|]. destruct (pw_of _ user) eqn:E; [by apply Hf|apply He].
Qed.

(** A question put to a crossed command whose failures count as no. *)
Lemma swp_asks argv sentinel (f : string → bool) (P : Prop) out (Q : res bool → dstate → Prop) s : I s →
  (∀ a s', dstep faults s (Exec argv sentinel) a s' → asks faults true s s' a P out) →
  (∀ x, P → out x → Q (Ok (f x)) s) → (faults = true ∨ ¬ P → Q (Ok false) s) → (∀ e, faults = true → Q (Err e) s) →
  swp (dstep faults) I (or_false (x ← host (Exec argv sentinel); mret (f x))) Q s.
Proof.
  intros HI Hc Ht Hf He. unfold or_false. apply swp_catch. host_call_step; [done| |].
  - intros x s' [-> H]%Hc. apply swp_ret; [done|]. destruct H; [done|]. by apply Ht.
  - intros e s' [-> H]%Hc. split; [done|]. destruct (is_sandbox_execution_error e) eqn:E; apply swp_ret; try done.
    + apply Hf. destruct H as [|[_ ?]]; [by left|by right].
    + apply He. by destruct H as [|[? _]].
Qed.

(** The same, crossed. *)
Lemma swp_asks_crossed inner (f : string → bool) (P : Prop) out (Q : res bool → dstate → Prop) s : I s →
  (∀ a s', exec_step faults true s (inner_command inner) a s' → asks faults true s s' a P out) →
  (∀ x, P → out x → Q (Ok (f x)) s) → (faults = true ∨ ¬ P → Q (Ok false) s) → (∀ e, Q (Err e) s) →
  swp (dstep faults) I (prefix ← crossing ctx;
    or_false (x ← host (Exec (prefix ++ bash_c inner)%list (negb rootless)); mret (f x))) Q s.
Proof.
  intros HI Hc Ht Hf He. apply swp_crossing; [done| |done]. intros prefix Hp.
  eapply swp_asks; [done| |done|done|done]. intros a s' (_ & _ & H). apply Hc.
  rewrite (command_crossed _ prefix) in H by done. by rewrite orb_negb_l in H.
Qed.
End reads.

Ltac dgive lem := eapply swp_gives; [apply lem; done| |no_result].

(** ** L5 *)

Section questions.
Context (faults : bool) (I : dstate → Prop).
Local Abbreviation dsp := (swp (dstep faults) I).

Lemma swp_guard {A} exc_str (f : option (PhaseResult * string) → root A) Q s : I s →
  dsp (f None) Q s → (∀ detail, dsp (f (Some (MISSING, detail))) Q s) → (∀ e, Q (Err e) s) →
  dsp (user_guard exc_str ctx ≫= f) Q s.
Proof.
  intros HI Hn Hm He. apply swp_bind. unfold user_guard. destruct rootless; [by apply swp_ret|].
  eapply swp_gives; [by apply dgives_accounts| |by auto]. apply swp_bind, swp_ret; [done|].
  unfold probe_sandbox_pw_or_missing. destruct (resolve_sandbox_pw _ _) as [pw|[]]; try done; by apply swp_ret.
Qed.

Lemma swp_linger user (Q : res bool → dstate → Prop) s : I s →
  Q (Ok (bool_decide (user ∈ d_linger s))) s → (faults = true → Q (Ok false) s) → (∀ e, faults = true → Q (Err e) s) →
  dsp (linger_enabled user) Q s.
Proof.
  intros HI Hg Hf He. unfold linger_enabled, or_false. apply swp_catch. host_call_step; [done| |].
  - intros out s' (_ & _ & H). rewrite command_linger in H. destruct H as [-> H]. apply swp_ret; [done|]. by rewrite H.
  - intros e s' (_ & _ & H). rewrite command_linger in H. destruct H as [-> H]. split; [done|].
    destruct (is_sandbox_execution_error e) eqn:E; apply swp_ret; try done.
    + destruct H as [H|[_ H]]; [by apply Hf|]. by rewrite bool_decide_eq_false_2 in Hg.
    + apply He. by destruct H as [|[? _]].
Qed.

Lemma swp_reachable (Q : res bool → dstate → Prop) s : I s →
  (d_up s = true → Q (Ok true) s) → (faults = true ∨ d_up s ≠ true → Q (Ok false) s) →
  (∀ e, Q (Err e) s) → dsp (dockerd_reachable ctx) Q s.
Proof. intros HI Ht Hf He. apply (swp_asks_crossed faults I "docker info" (λ _, true) (d_up s = true) (λ _, True)); auto. Qed.
End questions.

Definition l5_converged (s : dstate) : Prop :=
  (rootless = false → ∃ user, daemon_owner_user ctx = Ok user ∧ user ∈ d_linger s) ∧ d_up s = true.

Lemma l5_probe_sound exc_str s : swp (dstep true) (eq s) (l5_probe exc_str ctx)
  (λ r _, ∀ detail, r = Ok (ALREADY_CORRECT, detail) → l5_converged s) s.
Proof.
  unfold l5_probe. apply swp_guard; [done| |by intros; apply swp_ret|done].
  apply swp_bind, swp_ret; [done|]. destruct (daemon_owner_user ctx) as [user|] eqn:Hu; [|done].
  assert (Hup : (rootless = false → user ∈ d_linger s) → swp (dstep true) (eq s)
    (up ← dockerd_reachable ctx;
     if negb up then mret (MISSING, "rootless dockerd not reachable as " +:+ py_repr user +:+ "; will install")
     else mret (ALREADY_CORRECT, "rootless dockerd reachable for " +:+ py_repr user))
    (λ r _, ∀ detail, r = Ok (ALREADY_CORRECT, detail) → l5_converged s) s).
  { intros Hl. apply swp_bind, swp_reachable; [done| |by intros; apply swp_ret|done].
    intros Hd. apply swp_ret; [done|]. intros _ _. split; [|done]. intros Hr. eauto. }
  destruct rootless; [apply swp_bind, swp_ret; [done|]; cbn [negb]; by apply Hup|].
  apply swp_bind, swp_linger; [done| |by intros; apply swp_ret|done].
  case_bool_decide; cbn [negb]; [by apply Hup|by apply swp_ret].
Qed.

Lemma l5_reverify_sound faults s : swp (dstep faults) (eq s) (l5_reverify ctx)
  (λ r _, ∀ v, r = Ok v → (v = true → l5_converged s) ∧ (faults = false → l5_converged s → v = true)) s.
Proof.
  set (Q := λ r : res bool, ∀ v, r = Ok v → (v = true → l5_converged s) ∧ (faults = false → l5_converged s → v = true)).
  assert (Hup : (rootless = false → ∃ user, daemon_owner_user ctx = Ok user ∧ user ∈ d_linger s) →
    swp (dstep faults) (eq s) (dockerd_reachable ctx) (λ r _, Q r) s).
  { intros Hl. apply swp_reachable; [done|by intros ? v [= <-]| |done]. intros Hf v [= <-]. split; [done|].
    intros -> [_ ?]. by destruct Hf. }
  assert (Hno : (faults = false → ¬ l5_converged s) → Q (Ok false)) by (intros H v [= <-]; split; [done|]; intros; by destruct H).
  unfold l5_reverify, l5_converged in *. destruct rootless eqn:Hr; [apply swp_bind, swp_ret; [done|]; cbn [negb]; by apply Hup|].
  apply swp_bind, swp_bind, swp_ret; [done|]. destruct (daemon_owner_user ctx) as [user|] eqn:Hu; [|done].
  apply swp_linger; [done| |by intros Hf; apply swp_ret; [|apply Hno; congruence]|done].
  case_bool_decide as Hl; cbn [negb]; [apply Hup; eauto|].
  apply swp_ret; [done|]. apply Hno. intros _ [Hc _]. destruct (Hc eq_refl) as (u & ? & ?). congruence.
Qed.

(** A command that the daemon's host runs; nobody stops lingering. *)
Lemma swp_exec argv sentinel (Q : res string → dstate → Prop) s :
  (∀ a s', d_host s' = d_host s → d_linger s ⊆ d_linger s' →
   exec_step true (sentinel || rootless) s (command_of (d_host s) argv) a s' → Q a s') →
  swp (dstep true) (λ _, True) (host (Exec argv sentinel)) Q s.
Proof. intros HQ. host_call_step; [done|]. intros a s' (Hh & Hl & H). split; [done|]. by apply HQ. Qed.

Lemma swp_crossed inner (Q : res string → dstate → Prop) s :
  (∀ a s', d_host s' = d_host s → d_linger s ⊆ d_linger s' → exec_step true true s (inner_command inner) a s' → Q a s') →
  (∀ e, Q (Err e) s) → swp (dstep true) (λ _, True) (crossed ctx inner) Q s.
Proof.
  intros HQ He. unfold crossed. apply swp_crossing; [done| |done]. intros prefix Hp.
  apply swp_exec. intros a s' Hh Hl H. rewrite (command_crossed _ prefix), orb_negb_l in H by done. by apply HQ.
Qed.

Lemma swp_wait user (Q : res unit → dstate → Prop) s :
  (∀ r s', d_host s' = d_host s → d_linger s ⊆ d_linger s' → Q r s') →
  swp (dstep true) (λ _, True) (wait_user_manager_ready user) Q s.
Proof.
  intros HQ. unfold wait_user_manager_ready. apply swp_entry; [done| |intros; by apply HQ]. intros pw _.
  apply swp_bind, swp_exec. intros [out|e] s' Hh Hl _; [apply swp_ret; [done|]|]; by apply HQ.
Qed.

Lemma l5_act_converges s : swp (dstep true) (λ _, True) (l5_act ctx)
  (λ r s', (∃ detail, r = Ok detail) → l5_converged s') s.
Proof.
  unfold l5_act. apply swp_bind, swp_ret; [done|]. destruct (daemon_owner_user ctx) as [user|] eqn:Hu; [|by intros [? [=]]].
  assert (Hinstall : ∀ s1, (rootless = false → user ∈ d_linger s1) → swp (dstep true) (λ _, True)
    (up ← dockerd_reachable ctx;
     if (up : bool) then mret ("rootless dockerd already up for " +:+ py_repr user)
     else _ ← crossed ctx "dockerd-rootless-setuptool.sh install";
          mret ("rootless dockerd installed for " +:+ py_repr user))
    (λ r s', (∃ detail, r = Ok detail) → l5_converged s') s1).
  { intros s1 Hl. apply swp_bind, swp_reachable; [done| | |by intros e [? [=]]].
    - intros Hup. apply swp_ret; [done|]. intros _. split; [|done]. intros Hr. exists user. auto.
    - intros _. apply swp_bind, swp_crossed; [|by intros e [? [=]]].
      intros [out|e] s' Hh Hlin H; [|by intros [? [=]]]. apply swp_ret; [done|]. intros _.
      split; [|by apply H]. intros Hr. exists user. split; [done|]. apply Hlin. auto. }
  apply swp_bind, swp_when; [done| |by intros ?%negb_false_iff; apply Hinstall; congruence].
  intros _. apply swp_bind, swp_exec. intros [out|e] s1 Hh Hl H; [|by intros [? [=]]].
  rewrite command_enable in H. apply swp_wait. intros [[]|e] s2 Hh2 Hl2; [|by intros [? [=]]].
  apply Hinstall. intros _. by apply Hl2.
Qed.

#[export] Instance l5_contract exc_str : PhaseContract dstep (l5_body exc_str ctx) l5_converged.
Proof. split; [apply l5_probe_sound|apply l5_reverify_sound|apply l5_act_converges]. Qed.

(** ** L7 *)

Definition l7_converged (s : dstate) : Prop := HELPER_REF ∈ d_images s.

Lemma swp_ref_present faults I ref (Q : res bool → dstate → Prop) s : I s →
  (ref ∈ d_images s → Q (Ok true) s) → (faults = true ∨ ref ∉ d_images s → Q (Ok false) s) →
  (∀ e, Q (Err e) s) → swp (dstep faults) I (ref_present ctx ref) Q s.
Proof.
  intros HI Ht Hf He.
  apply (swp_asks_crossed faults I ("docker image inspect " +:+ ref) (λ _, true) (ref ∈ d_images s) (λ _, True)); auto.
Qed.

#[export] Instance l7_contract : PhaseContract dstep (l7_body ctx) l7_converged.
Proof.
  split; cbn [l7_body body_probe body_act body_reverify].
  - intros s. unfold l7_probe. apply swp_bind, swp_ref_present; [done|by intros; apply swp_ret| |done].
    intros _. apply swp_bind, swp_ref_present; [done|by intros; apply swp_ret|by intros; apply swp_ret|done].
  - intros faults s. unfold l7_reverify. apply swp_ref_present; [done|by intros ? v [= <-]| |done].
    intros Hf v [= <-]. split; [done|]. intros -> ?. by destruct Hf.
  - intros s. unfold l7_act. apply swp_bind, swp_crossed; [|by intros e [? [=]]].
    intros [out|e] s' _ _ H; [|by intros [? [=]]]. apply swp_ret; [done|]. intros _. rewrite inner_pull in H. by apply H.
Qed.

(** ** L6 *)

Lemma is_expected_spec v : is_expected v = true ↔ v = EXPECTED_RUNTIME.
Proof.
  split; [|intros ->; reflexivity]. unfold is_expected, EXPECTED_RUNTIME. destruct v as [| | | | | |m]; try done.
  destruct (m !! "path") as [[| | | |p| |]|] eqn:Hp; try done.
  destruct (m !! "runtimeArgs") as [[| | | | |[|[| | | |a| |] [|[| | | |b| |] []]]|]|] eqn:Ha; try done.
  rewrite !andb_true_iff, !String.eqb_eq, Nat.eqb_eq. intros [[[-> ->] ->] Hsize]. f_equal.
  assert (Hrest : delete "runtimeArgs" (delete "path" m) = ∅).
  { apply map_size_empty_iff. rewrite !map_size_delete, lookup_delete_ne, Ha, Hp, Hsize by done. reflexivity. }
  apply map_eq. intros k. destruct (decide (k = "path")) as [->|]; [done|].
  destruct (decide (k = "runtimeArgs")) as [->|]; [done|].
  assert (delete "runtimeArgs" (delete "path" m) !! k = None) as H by (by rewrite Hrest).
  rewrite !lookup_delete_ne in H by done. by rewrite H, lookup_insert_ne, lookup_singleton_ne.
Qed.

Lemma observed_merge doc : observed_runtime (merge_runtime doc) = Some EXPECTED_RUNTIME.
Proof. unfold observed_runtime, merge_runtime. by rewrite !lookup_insert_eq. Qed.

Lemma merge_idempotent doc : merge_runtime (merge_runtime doc) = merge_runtime doc.
Proof. unfold merge_runtime. by rewrite lookup_insert_eq, !insert_insert_eq. Qed.

Section l6.
Context (json_loads : string → option JsonValue) (json_dumps : JsonValue → string).

(** A document that was read, with the key, is written so that it reads back. *)
Definition json_reads_back : Prop := ∀ m, m = ∅ ∨ (∃ text, json_loads text = Some (JObj m)) →
  let text := json_dumps (JObj (merge_runtime m)) +:+ NL in
  nonempty (strip text) = true ∧ json_loads text = Some (JObj (merge_runtime m)).

Definition path_of (s : dstate) : res string :=
  owner ← daemon_owner_user ctx;
  pw ← from_option Ok (Err KeyError) (pw_of (env_of (d_host s)) owner);
  Ok (path_join (path_join3 pw.2 ".config" "docker") "daemon.json").

Definition doc_at (s : dstate) (path : string) : res (option (gmap string JsonValue)) :=
  parse_doc json_loads path (hs_files (d_host s) !! path).

Definition l6_converged (s : dstate) : Prop :=
  ∃ path doc, path_of s = Ok path ∧ doc_at s path = Ok (Some doc) ∧
    observed_runtime doc = Some EXPECTED_RUNTIME ∧ d_up s = true ∧
    contains RESERVED_RUNTIME_KEY (d_runtimes s) = true.

Section reads.
Context (faults : bool) (I : dstate → Prop).
Local Abbreviation dsp := (swp (dstep faults) I).

Lemma swp_path {A} (f : string → root A) Q s : I s →
  (∀ path, path_of s = Ok path → dsp (f path) Q s) → (∀ e, Q (Err e) s) → dsp (daemon_json_path ctx ≫= f) Q s.
Proof.
  intros HI Hf He. unfold path_of in Hf. apply swp_bind. unfold daemon_json_path. apply swp_bind, swp_ret; [done|].
  destruct (daemon_owner_user ctx) as [owner|]; [|by apply He].
  apply swp_entry; [done| |done]. intros pw Hpw. apply swp_ret; [done|]. apply Hf. cbn [mbind res_bind]. by rewrite Hpw.
Qed.

Lemma swp_doc {A} path (f : option (gmap string JsonValue) → root A) Q s : I s →
  (∀ doc, doc_at s path = Ok doc → dsp (f doc) Q s) → (∀ e, Q (Err e) s) → dsp (read_doc json_loads path ≫= f) Q s.
Proof.
  intros HI Hf He. apply swp_bind. unfold read_doc. eapply swp_gives; [by apply dgives_text| |by auto].
  apply swp_ret; [done|]. unfold doc_at in Hf. destruct (parse_doc _ _ _); [by apply Hf|by apply He].
Qed.

Lemma swp_registered (Q : res bool → dstate → Prop) s : I s →
  (d_up s = true → Q (Ok (contains RESERVED_RUNTIME_KEY (d_runtimes s))) s) →
  (faults = true ∨ d_up s ≠ true → Q (Ok false) s) → (∀ e, Q (Err e) s) → dsp (runtime_registered ctx) Q s.
Proof.
  intros HI Ht Hf He.
  apply (swp_asks_crossed faults I LIST_RUNTIMES (contains RESERVED_RUNTIME_KEY) (d_up s = true) (λ out, out = d_runtimes s)); auto.
  by intros x Hup ->; apply Ht.
Qed.
End reads.

Lemma l6_probe_sound exc_str s : swp (dstep true) (eq s) (l6_probe exc_str ctx json_loads)
  (λ r _, ∀ detail, r = Ok (ALREADY_CORRECT, detail) → l6_converged s) s.
Proof.
  unfold l6_probe. apply swp_guard; [done| |by intros; apply swp_ret|done].
  apply swp_path; [done| |done]. intros path Hpath. apply swp_doc; [done| |done]. intros [doc|] Hdoc; [|by apply swp_ret].
  destruct (observed_runtime doc) as [v|] eqn:Hv; [|by apply swp_ret].
  destruct (is_expected v) eqn:He; cbn [negb]; [|by apply swp_ret]. apply is_expected_spec in He as ->.
  apply swp_bind, swp_registered; [done| |by intros; apply swp_ret|done]. intros Hup.
  destruct (contains _ _) eqn:Hc; cbn [negb]; apply swp_ret; try done. intros _ _. by exists path, doc.
Qed.

Lemma l6_reverify_sound faults s : swp (dstep faults) (eq s) (l6_reverify ctx json_loads)
  (λ r _, ∀ v, r = Ok v → (v = true → l6_converged s) ∧ (faults = false → l6_converged s → v = true)) s.
Proof.
  unfold l6_reverify. apply swp_path; [done| |done]. intros path Hpath. apply swp_doc; [done| |done]. intros doc Hdoc.
  assert (Hno : (faults = false → ¬ l6_converged s) → swp (dstep faults) (eq s) (mret false)
    (λ r _, ∀ v, r = Ok v → (v = true → l6_converged s) ∧ (faults = false → l6_converged s → v = true)) s).
  { intros H. apply swp_ret; [done|]. intros v [= <-]. split; [done|]. intros; by destruct H. }
  assert (Hthis : l6_converged s → ∃ d, doc = Some d ∧ observed_runtime d = Some EXPECTED_RUNTIME ∧ d_up s = true ∧
    contains RESERVED_RUNTIME_KEY (d_runtimes s) = true).
  { intros (p & d & Hp & Hd & H). replace p with path in * by congruence. exists d. split; [congruence|done]. }
  destruct doc as [doc|]; [|by apply Hno; intros _ (d & [=] & _)%Hthis].
  destruct (observed_runtime doc) as [v|] eqn:Hv.
  2: { apply Hno. intros _ (d & [= <-] & H & _)%Hthis. congruence. }
  destruct (is_expected v) eqn:He.
  2: { apply Hno. intros _ (d & [= <-] & H & _)%Hthis. rewrite Hv in H. injection H as ->. by vm_compute in He. }
  apply is_expected_spec in He as ->. apply swp_registered; [done| | |done].
  - intros Hup v [= <-]. split; [intros Hc; by exists path, doc|]. by intros _ (d & _ & _ & _ & ?)%Hthis.
  - intros Hf v [= <-]. split; [done|]. intros -> (d & _ & _ & ? & _)%Hthis. by destruct Hf.
Qed.

Lemma parse_doc_source path text doc : parse_doc json_loads path text = Ok doc →
  default ∅ doc = ∅ ∨ ∃ t, json_loads t = Some (JObj (default ∅ doc)).
Proof.
  unfold parse_doc. destruct text as [text|]; [|by intros [= <-]; left].
  destruct (nonempty (strip text)); cbn [negb]; [|by intros [= <-]; left].
  destruct (json_loads text) as [[]|] eqn:E; try done. intros [= <-]. right. by eexists.
Qed.

(** The restart and the poll leave the file, with the runtime loaded. *)
Lemma swp_restart (Q : res unit → dstate → Prop) s :
  (∀ s', d_host s' = d_host s → d_up s' = true → contains RESERVED_RUNTIME_KEY (d_runtimes s') = true → Q (Ok tt) s') →
  (∀ e s', Q (Err e) s') → swp (dstep true) (λ _, True) (restart_and_poll ctx) Q s.
Proof.
  intros HQ He. unfold restart_and_poll.
  assert (Hrest : ∀ s1, d_host s1 = d_host s → swp (dstep true) (λ _, True)
    (_ ← crossed ctx RESTART; _ ← crossed ctx POLL; mret tt) Q s1).
  { intros s1 H1. apply swp_bind, swp_crossed; [|done]. intros [out|e] s2 H2 _ _; [|done].
    apply swp_bind, swp_crossed; [|done]. intros [out'|e] s3 H3 _ H; [|done]. apply swp_ret; [done|].
    destruct (H eq_refl). apply HQ; [congruence|done|done]. }
  apply swp_bind, swp_when; [done| |by intros _; apply Hrest].
  intros _. apply swp_bind, swp_ret; [done|]. destruct (daemon_owner_user ctx); [|done].
  apply swp_wait. intros [[]|e] s1 H1 _; [by apply Hrest|done].
Qed.

Lemma path_of_files s s' text : d_host s' = with_files text (d_host s) → path_of s' = path_of s.
Proof. intros H. unfold path_of, pw_of. by rewrite H. Qed.

Context (Hjson : json_reads_back).

Lemma l6_act_converges s : swp (dstep true) (λ _, True) (l6_act ctx json_loads json_dumps)
  (λ r s', (∃ detail, r = Ok detail) → l6_converged s') s.
Proof.
  unfold l6_act. apply swp_path; [done| |by intros e [? [=]]]. intros path Hpath.
  apply swp_doc; [done| |by intros e [? [=]]]. intros doc Hdoc.
  eapply swp_gives; [by apply dgives_text| |by intros e _ [? [=]]].
  destruct (Hjson (default ∅ doc) (parse_doc_source _ _ _ Hdoc)) as [Hblank Hloads].
  set (new_text := json_dumps (JObj (merge_runtime (default ∅ doc))) +:+ NL) in *.
  assert (Hparse : parse_doc json_loads path (Some new_text) = Ok (Some (merge_runtime (default ∅ doc))))
    by (unfold parse_doc; by rewrite Hblank, Hloads).
  assert (Hrest : ∀ s1, d_host s1 = with_files <[path := new_text]> (d_host s) → swp (dstep true) (λ _, True)
    (_ ← restart_and_poll ctx; mret "reserved runtime key ensured; rootless docker restarted + runtime loaded")
    (λ r s', (∃ detail, r = Ok detail) → l6_converged s') s1).
  { intros s1 H1. apply swp_bind, swp_restart; [|by intros e s' [? [=]]]. intros s2 H2 Hup Hrt.
    apply swp_ret; [done|]. intros _. rewrite H1 in H2. exists path, (merge_runtime (default ∅ doc)). split_and!; try done.
    - by rewrite (path_of_files s _ _ H2).
    - unfold doc_at. rewrite H2. cbn [with_files hs_files]. by rewrite lookup_insert_eq.
    - apply observed_merge. }
  apply swp_bind, swp_when; [done| |].
  - intros _. host_call_step; [done|]. intros [[]|e] s1 [H1 _]; (split; [done|]); [by apply Hrest|by intros [? [=]]].
  - intros Hsame%negb_false_iff%String.eqb_eq. apply Hrest.
    assert (hs_files (d_host s) !! path = Some new_text) as Hf.
    { destruct (hs_files (d_host s) !! path) as [old|]; cbn in Hsame; [congruence|]. rewrite Hsame in Hblank. by vm_compute in Hblank. }
    destruct s as [h ? ? ? ?]; cbn in *. destruct h; cbn in *. unfold with_files; cbn. by rewrite insert_id.
Qed.

Lemma l6_contract exc_str : PhaseContract dstep (l6_body exc_str ctx json_loads json_dumps) l6_converged.
Proof. split; [apply l6_probe_sound|apply l6_reverify_sound|apply l6_act_converges]. Qed.
End l6.
End host.

(** ** A daemon that runs *)

Definition silent (b : bool) (out : string) : res string :=
  if b then Ok out else Err (SandboxExecutionError "exit 1" false).

Definition daemon_run (s : dstate) (c : command) : res string * dstate :=
  let set up runtimes images linger := DState (d_host s) linger up runtimes images in
  match c with
  | ShowLinger u => (Ok (if bool_decide (u ∈ d_linger s) then "Linger=yes" else "Linger=no"), s)
  | EnableLinger u => (Ok "", set (d_up s) (d_runtimes s) (d_images s) ({[u]} ∪ d_linger s))
  | DockerInfo => (silent (d_up s) "Server Version: 27", s)
  | ListRuntimes => (silent (d_up s) (d_runtimes s), s)
  | InstallDaemon => (Ok "", set true (d_runtimes s) (d_images s) (d_linger s))
  | RestartDaemon => (Ok "", set (d_up s) RESERVED_RUNTIME_KEY (d_images s) (d_linger s))
  | PollRuntime => (silent (d_up s && contains RESERVED_RUNTIME_KEY (d_runtimes s)) "", s)
  | InspectImage ref => (silent (bool_decide (ref ∈ d_images s)) "[]", s)
  | PullImage ref => (Ok "", set (d_up s) (d_runtimes s) ({[ref]} ∪ d_images s) (d_linger s))
  | OtherCommand => (Ok "", s)
  end.

Definition daemon_machine (ctx : SetupContext) (s : dstate) (c : host_call) : res (host_answer c) * dstate :=
  match c return res (host_answer c) * dstate with
  | Exec argv _ => daemon_run s (command_of ctx (d_host s) argv)
  | c => let r := host_machine (d_host s) c in
         (r.1, DState r.2 (d_linger s) (d_up s) (d_runtimes s) (d_images s))
  end.

Lemma daemon_run_step faults known s c : d_host (daemon_run s c).2 = d_host s ∧ d_linger s ⊆ d_linger (daemon_run s c).2 ∧
  exec_step faults known s c (daemon_run s c).1 (daemon_run s c).2.
Proof.
  destruct c; cbn [daemon_run exec_step fst snd]; unfold asks; split_and!; try done; try (cbn; set_solver).
  - by case_bool_decide.
  - destruct (d_up s) eqn:E; cbn; [done|]. by right.
  - destruct (d_up s) eqn:E; cbn; [done|]. by right.
  - by destruct (d_up s), (contains RESERVED_RUNTIME_KEY (d_runtimes s)).
  - case_bool_decide; cbn; [done|]. by right.
Qed.

Lemma daemon_machine_step ctx faults s c : dstep ctx faults s c (daemon_machine ctx s c).1 (daemon_machine ctx s c).2.
Proof.
  destruct c; try (cbn [daemon_machine dstep fst snd d_host]; split; [apply (host_machine_step faults (d_host s))|done]).
  apply daemon_run_step.
Qed.

(** ** Properties *)

Inductive daemon_phase := L5 | L6 | L7.

Section converge.
Context (exc_str : exn → string) (ctx : SetupContext).
Context (json_loads : string → option JsonValue) (json_dumps : JsonValue → string).

Definition daemon_body (p : daemon_phase) : host_body :=
  match p with
  | L5 => l5_body exc_str ctx | L6 => l6_body exc_str ctx json_loads json_dumps | L7 => l7_body ctx
  end.

Definition daemon_converged (p : daemon_phase) : dstate → Prop :=
  match p with L5 => l5_converged ctx | L6 => l6_converged ctx json_loads | L7 => l7_converged end.

Lemma daemon_contract p : json_reads_back json_loads json_dumps →
  PhaseContract (dstep ctx) (daemon_body p) (daemon_converged p).
Proof. intros Hj. destruct p; cbn; [apply _|by apply l6_contract|apply _]. Qed.
End converge.

(** C32: The phases of the daemon keep the contract of a phase.  A probe
    changes nothing, and what it calls correct is converged; once an act has
    returned the phase is converged (the daemon is reachable, the runtime is
    recorded and loaded, the helper image is cached), and a reverify without a
    failing read confirms it and changes nothing. *)
Theorem daemon_phases_converge exc_str ctx json_loads json_dumps p s t0 v0 d0 s0 t1 detail s1 t2 v s2 :
  json_reads_back json_loads json_dumps →
  let b := daemon_body exc_str ctx json_loads json_dumps p in
  let good := daemon_converged ctx json_loads p in
  (runs (body_probe b) t0 (Ok (v0, d0)) → path (dstep ctx true) s t0 s0 → s0 = s ∧ (v0 = ALREADY_CORRECT → good s)) ∧
  (runs (body_act b) t1 (Ok detail) → path (dstep ctx true) s t1 s1 →
   runs (body_reverify b) t2 (Ok v) → path (dstep ctx false) s1 t2 s2 → good s1 ∧ s2 = s1 ∧ v = true).
Proof.
  intros Hj b good. pose proof (daemon_contract exc_str ctx json_loads json_dumps p Hj) as Hc. split.
  - by apply contract_probe.
  - by apply contract_runs.
Qed.

(** Merging the reserved runtime sets it to the expected value, keeps
    every other key of the document and every other runtime, and is idempotent. *)
Theorem merge_runtime_spec doc :
  observed_runtime (merge_runtime doc) = Some EXPECTED_RUNTIME ∧ merge_runtime (merge_runtime doc) = merge_runtime doc ∧
  (∀ k, k ≠ "runtimes" → merge_runtime doc !! k = doc !! k) ∧
  (∀ m k v, doc !! "runtimes" = Some (JObj m) → k ≠ RESERVED_RUNTIME_KEY → m !! k = v →
   ∃ m', merge_runtime doc !! "runtimes" = Some (JObj m') ∧ m' !! k = v).
Proof.
  split_and!; [apply observed_merge|..].
  - apply merge_idempotent.
  - intros k Hk. unfold merge_runtime. by rewrite lookup_insert_ne.
  - intros m k v Hm Hk Hv. unfold merge_runtime. rewrite lookup_insert_eq, Hm. eexists. split; [done|].
    by rewrite lookup_insert_ne.
Qed.

(** A file of one document. *)
Definition demo_loads (t : string) : option JsonValue :=
  if String.eqb t ("doc" +:+ NL) then Some (JObj (merge_runtime ∅)) else None.
Definition demo_dumps (v : JsonValue) : string := "doc".

Lemma demo_json : json_reads_back demo_loads demo_dumps.
Proof.
  intros m Hm. split; [by vm_compute|]. cbn [demo_dumps]. unfold demo_loads.
  change (("doc" +:+ NL =? "doc" +:+ NL)%string) with true. cbn match. destruct Hm as [->|[t Ht]]; [done|].
  unfold demo_loads in Ht. destruct (String.eqb t _); [|done]. injection Ht as <-. by rewrite merge_idempotent.
Qed.

Definition daemon_host : dstate := DState act_run.2 {["sandbox"]} true "runc" ∅.
Definition l6_run := exec (daemon_machine demo_ctx) (l6_act demo_ctx demo_loads demo_dumps) daemon_host.
Definition l6_check := exec (daemon_machine demo_ctx) (l6_reverify demo_ctx demo_loads) l6_run.2.

Lemma daemon_phases_converge_witness : l6_check.1.2 = Ok true ∧ l6_converged demo_ctx demo_loads l6_run.2.
Proof.
  assert (Ha : l6_run.1.2 = Ok "reserved runtime key ensured; rootless docker restarted + runtime loaded") by (vm_compute; reflexivity).
  assert (Hv : l6_check.1.2 = Ok true) by (vm_compute; reflexivity).
  split; [exact Hv|].
  pose proof (exec_runs (daemon_machine demo_ctx) (l6_act demo_ctx demo_loads demo_dumps) daemon_host) as Hra.
  pose proof (exec_runs (daemon_machine demo_ctx) (l6_reverify demo_ctx demo_loads) l6_run.2) as Hrv.
  fold l6_run in Hra. fold l6_check in Hrv. rewrite Ha in Hra. rewrite Hv in Hrv.
  exact (proj1 (proj2 (daemon_phases_converge (λ _, "") demo_ctx demo_loads demo_dumps L6 daemon_host [] FAIL "" daemon_host
    _ _ l6_run.2 _ _ _ demo_json) Hra (exec_path _ _ _ _ (daemon_machine_step demo_ctx true)) Hrv
    (exec_path _ _ _ _ (daemon_machine_step demo_ctx false)))).
Defined.

Lemma merge_runtime_spec_witness :
  let doc := {["log-driver" := JStr "local"; "runtimes" := JObj {["runsc" := JNull]}]} : gmap string JsonValue in
  merge_runtime doc !! "log-driver" = Some (JStr "local").
Proof. exact (proj1 (proj2 (proj2 (merge_runtime_spec _))) "log-driver" ltac:(discriminate)). Defined.

(** A blank file reads as an empty document: after a write that was cut short
    the next run records the reserved key alone. *)
Lemma blank_daemon_json : parse_doc demo_loads "daemon.json" (Some NL) = Ok (Some ∅).
Proof. reflexivity. Qed.

(** Any runtime whose name or path holds the key counts as the reserved one. *)
Lemma other_runtime_counts : contains RESERVED_RUNTIME_KEY "sandbox-ai-runsc-old" = true.
Proof. vm_compute. reflexivity. Qed.
