(* ===== verification/HostIdentity.v ===== *)
(** * core.setup.l0_identity: operator, distribution, binaries and launchers

    L0 only reads; a [l0_host] is what its reads give.  The regular expressions
    are searches written out, with the backtracking that can matter. *)
From stdpp Require Import sorting.
From S2P Require Import Prelude PyStr HostConfig Doctor PhaseRunner.
From Stdlib Require Import Ascii String.
Open Scope nat_scope.

Record l0_host := L0Host {
  os_release : option string; (* [None] when the file is absent *)
  sudo_V : option string; (* the output of [sudo -V]; [None] when it cannot run *)
  sudoers : option string; (* [None] when it cannot be read *)
  sudo_version_out : option string;
  executable : string → bool; (* [os.access(path, os.X_OK)] *)
  file_identity : string → option (Z * Z) (* device and inode *)
}.

(** ** Operator resolution *)

(** [pwd.getpwnam(name).pw_uid]; a uid that is no number is a bare [ValueError]. *)
Definition resolve_operator (uid_of : string → option Z) (SUDO_USER SUDO_UID : option string)
    (operator_flag : option string) : res string :=
  match operator_flag with
  | Some flag => match uid_of flag with Some _ => Ok flag | None => Err OperatorResolutionError end
  | None =>
      match SUDO_USER, SUDO_UID with
      | Some user, Some uid =>
          if nonempty user && nonempty uid then
            match uid_of user with
            | None => Err OperatorResolutionError
            | Some pw_uid =>
                match py_int uid with
                | None => Err ValueError
                | Some n => if Z.eqb pw_uid n then Ok user else Err OperatorResolutionError
                end
            end
          else Err OperatorResolutionError
      | _, _ => Err OperatorResolutionError
      end
  end.

(** ** Distribution *)

Definition VALIDATED_DISTROS : list string := ["debian"; "ubuntu"].
Definition UNTESTED_DISTROS : list string := ["fedora"; "rhel"; "centos"; "arch"; "manjaro"].

Definition read_os_release (h : l0_host) : gmap string string :=
  match os_release h with None => ∅ | Some content => os_release_fields (splitlines content) ∅ end.

Definition distro_identity (h : l0_host) : string * string :=
  let fields := read_os_release h in
  let version := default "" (fields !! "VERSION_ID") in
  (lower (strip (default "" (fields !! "ID"))),
   if nonempty version then version else default "" (fields !! "VERSION")).

Inductive tier := validated | untested | unrecognized.
#[export] Instance tier_eq_dec : EqDecision tier.
Proof. solve_decision. Defined.

Definition classify_distro (h : l0_host) : tier * string * string :=
  let '(raw_id, version) := distro_identity h in
  if bool_decide (raw_id ∈ VALIDATED_DISTROS) then (validated, raw_id, version)
  else if bool_decide (raw_id ∈ UNTESTED_DISTROS) then (untested, raw_id, version)
  else (unrecognized, if nonempty raw_id then raw_id else "unknown", version).

Definition WARN_SIGN : string := "⚠".
Definition CROSS : string := "✗".

Definition untested_distro_warning (raw_id version : string) (with_prompt : bool) : string :=
  join NL ([WARN_SIGN +:+ " Untested distro"; "";
    "  Detected: " +:+ strip (raw_id +:+ " " +:+ version); "";
    "  Debian and Ubuntu are sandbox-ai's reference distros. On other distros";
    "  it uses the same logic with distro-specific package commands, but has";
    "  not been end-to-end validated."; "";
    "  To preview the steps without applying any, re-run with --dry-run.";
    "  Manual remediation steps for each phase are documented in sandbox-ai's";
    "  setup guide."] ++
    (if with_prompt then [""; "  Press Enter to continue, Ctrl-C to abort."] else []))%list.

Definition unsupported_distro_refusal (raw_id version : string) : string :=
  join NL [CROSS +:+ " Unsupported distro"; "";
    "  Detected: " +:+ strip (raw_id +:+ " " +:+ version); "";
    "  sandbox-ai's setup currently supports: Debian, Ubuntu, Fedora, RHEL,";
    "  CentOS, Arch, Manjaro."; "";
    "  If you'd like to use sandbox-ai on a different distro, the setup guide";
    "  documents the manual ceremony steps so you can perform them by hand."; "";
    "  Setup refuses to proceed on unrecognized distros to avoid making";
    "  unpredictable system changes."].

(** What is printed, whether to wait for Enter, and whether to go on. *)
Inductive distro_gate := GateOpen | GateRefused (text : string) | GateWarned (text : string) (wait : bool).

Definition emit_distro_gate (h : l0_host) (is_tty assume_yes : bool) : distro_gate :=
  match classify_distro h with
  | (validated, _, _) => GateOpen
  | (unrecognized, raw_id, version) => GateRefused (unsupported_distro_refusal raw_id version)
  | (untested, raw_id, version) =>
      let with_prompt := is_tty && negb assume_yes in
      GateWarned (untested_distro_warning raw_id version with_prompt) with_prompt
  end.

(** ** The secure path *)

Definition DEFAULT_SECURE_PATH : string := "/usr/local/sbin:/usr/local/bin:/usr/sbin:/usr/bin:/sbin:/bin".

Definition group_char (c : ascii) : bool := negb (Ascii.eqb c dq || Ascii.eqb c nl).

(** The quote and the group, after [i] of the blanks. *)
Definition value_at (i : nat) (s : string) : option string :=
  let group r := let g := (span group_char r).1 in if nonempty g then Some g else None in
  match sdrop i s with
  | String c r => if Ascii.eqb c dq then (match group r with Some g => Some g | None => group (String c r) end)
                  else group (String c r)
  | "" => None
  end.

(** The blanks are given back one by one until the rest matches. *)
Fixpoint value_after (i : nat) (s : string) : option string :=
  match value_at i s with
  | Some g => Some g
  | None => match i with O => None | S i => value_after i s end
  end.

(** The name, blanks, an equals sign, blanks, an optional quote and the group
    up to a quote or the end of the line: the group, at the start of [s]. *)
Definition secure_path_at (s : string) : option string :=
  if startswith "secure_path" s then
    match (span is_space (sdrop 11 s)).2 with
    | String c r => if Ascii.eqb c "=" then value_after (str_len (span is_space r).1) r else None
    | "" => None
    end
  else None.

Fixpoint secure_path_search (s : string) : option string :=
  match secure_path_at s with
  | Some g => Some g
  | None => match s with "" => None | String _ s => secure_path_search s end
  end.

(** The first [Defaults] line of the sudoers file that matches. *)
Fixpoint sudoers_secure_path (lines : list string) : string :=
  match lines with
  | [] => ""
  | line :: lines =>
      let stripped := strip line in
      if startswith "Defaults" stripped && contains "secure_path" stripped then
        match secure_path_search stripped with
        | Some g => g
        | None => sudoers_secure_path lines
        end
      else sudoers_secure_path lines
  end.

Definition secure_path_dirs (h : l0_host) : list string :=
  let raw := default "" (sudo_V h ≫= secure_path_search) in
  let raw := if nonempty raw then raw
             else match sudoers h with None => "" | Some text => sudoers_secure_path (splitlines text) end in
  let raw := if nonempty raw then raw else DEFAULT_SECURE_PATH in
  List.filter nonempty (split_char ":" raw).

(** ** Required binaries *)

Definition REQUIRED_BINARIES : list string :=
  ["sudo"; "setfacl"; "getfacl"; "rsync"; "loginctl"; "useradd"; "usermod"; "groupadd"; "visudo"; "chattr";
   "sysctl"; "tlog-rec"].

Definition BINARY_PACKAGE (binary : string) : string :=
  if bool_decide (binary ∈ ["setfacl"; "getfacl"]) then "acl"
  else if String.eqb binary "tlog-rec" then "tlog" else binary.

Definition TLOG_ARCH_INSTALL : string := "paru -S tlog".
Definition TLOG_DEBIAN_INSTALL : string :=
  "sudo apt install tlog (Ubuntu / Debian <=12); on Debian 13+ (trixie) tlog " +:+
  "is not packaged — build from source: https://github.com/Scribery/tlog".

Definition binary_install_cmd (binary : string) (distro_family : option string) : string :=
  if String.eqb binary "tlog-rec" && bool_decide (distro_family = Some "arch") then TLOG_ARCH_INSTALL
  else if String.eqb binary "tlog-rec" && bool_decide (distro_family = Some "debian") then TLOG_DEBIAN_INSTALL
  else get_install_cmd distro_family (BINARY_PACKAGE binary).

Definition missing_binaries (h : l0_host) : list string :=
  List.filter (λ b, negb (existsb (λ d, executable h (path_join d b)) (secure_path_dirs h))) REQUIRED_BINARIES.

(** ** The version of sudo *)

Definition SUDO_FLOOR : Z * Z * Z * Z := (1, 9, 5, 2)%Z.

Definition digits (s : string) : string * string := span is_dec s.
Definition num (d : string) : Z := default 0%Z (py_int d).

(** [(\d+)\.(\d+)\.(\d+)(?:p(\d+))?] at the start of [s]. *)
Definition version_at (s : string) : option (Z * Z * Z * Z) :=
  let '(a, r) := digits s in
  match r with
  | String "." r =>
      let '(b, r) := digits r in
      match r with
      | String "." r =>
          let '(c, r) := digits r in
          if nonempty a && nonempty b && nonempty c then
            Some (num a, num b, num c,
                  match r with String "p" r => num (digits r).1 | _ => 0%Z end)
          else None
      | _ => None
      end
  | _ => None
  end.

Fixpoint version_search (s : string) : option (Z * Z * Z * Z) :=
  match version_at s with
  | Some v => Some v
  | None => match s with "" => None | String _ s => version_search s end
  end.

Definition parse_sudo_version (h : l0_host) : option (Z * Z * Z * Z) := sudo_version_out h ≫= version_search.

(** Tuples compare lexicographically. *)
Definition version_ge (v w : Z * Z * Z * Z) : bool :=
  let '(a, b, c, d) := v in
  let '(a', b', c', d') := w in
  ((a' <? a) || (a =? a') && ((b' <? b) || (b =? b') && ((c' <? c) || (c =? c') && (d' <=? d))))%Z.

Definition sudo_floor_warning (h : l0_host) : option string :=
  match parse_sudo_version h with
  | None => None
  | Some v =>
      if version_ge v SUDO_FLOOR then None
      else let '(a, b, c, d) := v in
        Some ("sudo " +:+ str_of_Z a +:+ "." +:+ str_of_Z b +:+ "." +:+ str_of_Z c +:+
              (if (d =? 0)%Z then "" else "p" +:+ str_of_Z d) +:+
              " predates the validated floor 1.9.5p2; the V9 rule shape is unverified on this version — only EOL distros [RHEL 7, Debian 10] are below")
  end.

(** ** The single canonical launcher *)

Definition CANONICAL_MACHINECTL_DIRS : list string := ["/usr/bin"; "/usr/sbin"].

(** The executable candidates, without repetition, in the order of the path. *)
Fixpoint found_in (h : l0_host) (binary : string) (dirs found : list string) : list string :=
  match dirs with
  | [] => found
  | d :: dirs =>
      let candidate := path_join d binary in
      found_in h binary dirs
        (if executable h candidate && negb (bool_decide (candidate ∈ found)) then found ++ [candidate] else found)%list
  end.

(** A path that cannot be statted is its own key. *)
Definition file_key (h : l0_host) (path : string) : (Z * Z) + string :=
  match file_identity h path with Some i => inl i | None => inr path end.

(** [distinct.setdefault(key, []).append(path)] *)
Fixpoint add_alias (key : (Z * Z) + string) (path : string) (groups : list (((Z * Z) + string) * list string))
    : list (((Z * Z) + string) * list string) :=
  match groups with
  | [] => [(key, [path])]
  | (k, l) :: groups => if bool_decide (k = key) then (k, l ++ [path])%list :: groups else (k, l) :: add_alias key path groups
  end.

Definition distinct_files (h : l0_host) (found : list string) : list (((Z * Z) + string) * list string) :=
  foldl (λ groups path, add_alias (file_key h path) path groups) [] found.

(** Python orders texts by code point, as their UTF-8 bytes are. *)
Definition str_le (a b : string) : Prop := String.leb a b = true.
#[export] Instance str_le_dec a b : Decision (str_le a b).
Proof. unfold str_le. apply _. Defined.

Definition canonical_dir (p : string) : bool := bool_decide (dirname p ∈ CANONICAL_MACHINECTL_DIRS).

Inductive resolution :=
  | Resolved (path : string)
  | NoBinary (secure_path : list string)
  | DistinctBinaries (count : nat) (found : list string)
  | NotCanonical (found : list string).

Definition resolve_secure_path_binary (h : l0_host) (binary : string) : resolution :=
  let found := found_in h binary (secure_path_dirs h) [] in
  match distinct_files h found with
  | [] => NoBinary (secure_path_dirs h)
  | [(_, aliases)] =>
      let canonical := merge_sort str_le (List.filter canonical_dir aliases) in
      match List.find (λ p, String.eqb (dirname p) "/usr/bin") canonical, canonical with
      | Some preferred, _ => Resolved preferred
      | None, first :: _ => Resolved first
      | None, [] => NotCanonical found
      end
  | groups => DistinctBinaries (List.length groups) found
  end.

Definition resolve_machinectl_path (h : l0_host) : resolution := resolve_secure_path_binary h "machinectl".
Definition systemd_run_binary_name : string := default "" (head (pipe_cmd "")).
Definition resolve_systemd_run_path (h : l0_host) : resolution := resolve_secure_path_binary h systemd_run_binary_name.

(** *** What a refusal says *)

Definition repr_list (l : list string) : string := "[" +:+ join ", " (map py_repr l) +:+ "]".

Definition machinectl_refusal (r : resolution) : string :=
  match r with
  | Resolved path => path
  | NoBinary secure_path =>
      "no executable 'machinectl' found on the sudoers secure_path (" +:+ join ":" secure_path +:+
      "); the orchestrator's relative `sudo machinectl …` can never be granted by any rule. " +:+
      "Install the systemd-container package."
  | DistinctBinaries count found =>
      "machinectl does not resolve to a single canonical secure_path entry; found " +:+ str_of_Z (Z.of_nat count) +:+
      " genuinely distinct binaries: " +:+ repr_list found +:+
      ". Remove the unexpected copy; the orchestrator expects the single systemd /usr/bin/machinectl."
  | NotCanonical found =>
      "machinectl resolves to a single binary but only outside a canonical systemd location; found: " +:+
      repr_list found +:+ ". The orchestrator expects the single systemd /usr/bin/machinectl."
  end.

Definition systemd_run_refusal (r : resolution) : string :=
  match r with
  | Resolved path => path
  | NoBinary secure_path =>
      "no executable transient-unit launcher found on the sudoers secure_path (" +:+ join ":" secure_path +:+
      "); the SUDO pipe `Cmnd_Spec` can never be granted/resolved by any rule. It ships with systemd."
  | DistinctBinaries count found =>
      "the transient-unit launcher does not resolve to a single canonical secure_path entry; found " +:+
      str_of_Z (Z.of_nat count) +:+ " genuinely distinct binaries: " +:+ repr_list found +:+
      ". Remove the unexpected copy; the orchestrator expects the single systemd /usr/bin launcher."
  | NotCanonical found =>
      "the transient-unit launcher resolves to a single binary but only outside a canonical systemd location; found: " +:+
      repr_list found +:+ ". The orchestrator expects the single systemd /usr/bin launcher."
  end.

(** ** The phase *)

Section phase.
Context (ctx : SetupContext) (h : l0_host).

Definition missing_text (missing : list string) : string :=
  join "; " (map (λ b, binary_install_cmd b (detect_distro (os_release h))) missing).

Definition tier_text (t : tier) : string :=
  match t with validated => "validated" | untested => "untested" | unrecognized => "unrecognized" end.

Definition l0_detail (raw_id : string) (t : tier) (machinectl_detail : string) : string :=
  "operator=" +:+ ctx_operator ctx +:+ ", distro=" +:+ raw_id +:+ " (" +:+ tier_text t +:+ ")" +:+ machinectl_detail +:+
  from_option (λ w, " [WARN: " +:+ w +:+ "]") "" (sudo_floor_warning h) +:+
  (if bool_decide (t = untested) then " [WARN: untested distro " +:+ raw_id +:+ "]" else "").

Definition l0_probe : PhaseResult * string :=
  let '(t, raw_id, version) := classify_distro h in
  if bool_decide (t = unrecognized) then (CONFLICT, unsupported_distro_refusal raw_id version)
  else match missing_binaries h with
  | [] =>
      if is_operator_rootless (ctx_config ctx) then (ALREADY_CORRECT, l0_detail raw_id t "")
      else match resolve_machinectl_path h with
      | Resolved path => (ALREADY_CORRECT, l0_detail raw_id t (", machinectl=" +:+ path))
      | r => (CONFLICT, machinectl_refusal r)
      end
  | missing => (CONFLICT, "required binaries missing: " +:+ join ", " missing +:+ " — install: " +:+ missing_text missing)
  end.

Definition l0_act : res string :=
  match missing_binaries h with [] => Ok "L0 prerequisites satisfied" | _ => Err RuntimeError end.

Definition l0_reverify : bool :=
  match missing_binaries h with
  | [] => if is_operator_rootless (ctx_config ctx) then true
          else match resolve_machinectl_path h with Resolved _ => true | _ => false end
  | _ => false
  end.
End phase.

(** ** Lemmas *)

Open Scope list_scope.

Lemma elem_of_found h binary dirs acc p : p ∈ found_in h binary dirs acc ↔
  p ∈ acc ∨ ∃ d, d ∈ dirs ∧ p = path_join d binary ∧ executable h p = true.
Proof.
  revert acc; induction dirs as [|d dirs IH]; intros acc; cbn [found_in].
  - split; [by left|]. intros [?|(d & Hd%elem_of_nil & _)]; done.
  - rewrite IH. destruct (executable h (path_join d binary)) eqn:Hx; cbn [andb]; [case_bool_decide as Hin; cbn [negb]|].
    + set_solver.
    + set_solver.
    + split; [set_solver|]. intros [?|(d' & Hd & -> & ?)]; [by left|]. apply elem_of_cons in Hd as [->|]; [congruence|].
      right. by exists d'.
Qed.

(** What a grouping by key holds of the paths grouped so far. *)
Definition grouped (h : l0_host) (paths : list string) (groups : list (((Z * Z) + string) * list string)) : Prop :=
  NoDup (map fst groups) ∧ (∀ k l, (k, l) ∈ groups → l ≠ []) ∧
  (∀ p, p ∈ paths → ∃ l, (file_key h p, l) ∈ groups ∧ p ∈ l) ∧
  (∀ k l p, (k, l) ∈ groups → p ∈ l → p ∈ paths ∧ file_key h p = k).

Lemma add_alias_keys key p groups : map fst (add_alias key p groups) =
  if bool_decide (key ∈ map fst groups) then map fst groups else map fst groups ++ [key].
Proof.
  induction groups as [|[k l] groups IH]; [done|]. cbn [add_alias]. destruct (decide (k = key)) as [->|Hk].
  - rewrite (bool_decide_eq_true_2 (key = key)) by done. by rewrite bool_decide_eq_true_2 by left.
  - rewrite (bool_decide_eq_false_2 (k = key)) by done. cbn [map fst]. rewrite IH. destruct (decide (key ∈ map fst groups)) as [Hin|Hin].
    + rewrite !bool_decide_eq_true_2; [done|by right|done].
    + rewrite !bool_decide_eq_false_2; [done| |done]. by intros [|]%elem_of_cons.
Qed.

Lemma elem_of_add_alias key p groups k l : NoDup (map fst groups) → (k, l) ∈ add_alias key p groups →
  (k ≠ key ∧ (k, l) ∈ groups) ∨ (k = key ∧ ((∃ l', (k, l') ∈ groups ∧ l = l' ++ [p]) ∨ l = [p])).
Proof.
  induction groups as [|[k' l'] groups IH]; cbn [add_alias map fst].
  - intros _ [= -> ->]%list_elem_of_singleton. right. auto.
  - intros [Hn Hnd]%NoDup_cons. case_bool_decide as Hk.
    + subst k'. intros [[= -> ->]|Hin]%elem_of_cons.
      * right. split; [done|]. left. exists l'. split; [left|done].
      * left. split; [|by right]. intros ->. apply Hn. apply list_elem_of_fmap. by exists (key, l).
    + intros [[= -> ->]|Hin]%elem_of_cons; [left; split; [done|left]|].
      destruct (IH Hnd Hin) as [[? ?]|(-> & [(l'' & ? & ->)| ->])]; [left; split; [done|by right]| |].
      * right. split; [done|]. left. exists l''. split; [by right|done].
      * right. auto.
Qed.

Lemma add_alias_has key p groups : (∃ l, (key, l) ∈ add_alias key p groups ∧ p ∈ l) ∧
  ∀ k l q, (k, l) ∈ groups → q ∈ l → ∃ l', (k, l') ∈ add_alias key p groups ∧ q ∈ l'.
Proof.
  induction groups as [|[k' l'] groups [(l & Hl & Hp) IH]]; cbn [add_alias].
  - split; [exists [p]; split; by left|]. by intros k l q ?%elem_of_nil.
  - case_bool_decide as Hk.
    + subst k'. split; [exists (l' ++ [p]); split; [left|set_solver]|].
      intros k l0 q [[= -> ->]|Hin]%elem_of_cons Hq; [exists (l' ++ [p]); split; [left|set_solver]|].
      exists l0. split; [by right|done].
    + split; [exists l; split; [by right|done]|].
      intros k l0 q [[= -> ->]|Hin]%elem_of_cons Hq; [exists l'; split; [left|done]|].
      destruct (IH k l0 q Hin Hq) as (l1 & ? & ?). exists l1. split; [by right|done].
Qed.

Lemma grouped_add h paths groups p : grouped h paths groups → grouped h (paths ++ [p]) (add_alias (file_key h p) p groups).
Proof.
  intros (Hnd & Hne & Hall & Hin). destruct (add_alias_has (file_key h p) p groups) as [Hp Hkeep]. split_and!.
  - rewrite add_alias_keys. case_bool_decide; [done|]. apply NoDup_app. split_and!; [done| |apply NoDup_singleton].
    intros k Hk ->%list_elem_of_singleton. done.
  - intros k l Hl. apply elem_of_add_alias in Hl as [[_ ?]|(_ & [(l' & _ & ->)| ->])]; [by eapply Hne|by destruct l'|done|done].
  - intros q [Hq|Hq]%elem_of_app.
    + destruct (Hall q Hq) as (l & Hl & Hql). by eapply Hkeep.
    + by apply list_elem_of_singleton in Hq as ->.
  - intros k l q Hl Hq. apply elem_of_add_alias in Hl as [[_ ?]|(-> & [(l' & Hl' & ->)| ->])]; [| | |done].
    + destruct (Hin k l q) as [? ?]; [done|done|]. set_solver.
    + apply elem_of_app in Hq as [Hq|Hq%list_elem_of_singleton]; [|subst; set_solver].
      destruct (Hin _ _ _ Hl' Hq). set_solver.
    + apply list_elem_of_singleton in Hq as ->. set_solver.
Qed.

Lemma distinct_files_grouped h found : grouped h found (distinct_files h found).
Proof.
  unfold distinct_files. assert (∀ paths groups, grouped h paths groups →
    grouped h (paths ++ found) (foldl (λ g p, add_alias (file_key h p) p g) groups found)) as H.
  { induction found as [|p found IH]; intros paths groups Hg; [by rewrite app_nil_r|]. cbn [foldl].
    rewrite (cons_middle p paths found), app_assoc. by apply IH, grouped_add. }
  apply (H [] []). split_and!; [apply NoDup_nil_2|by intros ?? ?%elem_of_nil|by intros ? ?%elem_of_nil|by intros ??? ?%elem_of_nil].
Qed.

(** ** Properties *)

(** The directories that sudo searches, by where they are read: what [sudo -V]
    prints, the first [Defaults] line of the sudoers file with the setting, or
    the default. *)
Definition sets_path (line v : string) : Prop :=
  startswith "Defaults" (strip line) = true ∧ contains "secure_path" (strip line) = true ∧
  secure_path_search (strip line) = Some v.

Inductive secure_path_of (h : l0_host) : list string → Prop :=
  | From_sudo_V out v : sudo_V h = Some out → secure_path_search out = Some v →
      secure_path_of h (List.filter nonempty (split_char ":" v))
  | From_sudoers text before line after v : (sudo_V h ≫= secure_path_search) = None →
      sudoers h = Some text → splitlines text = before ++ line :: after →
      (∀ l v', l ∈ before → ¬ sets_path l v') → sets_path line v →
      secure_path_of h (List.filter nonempty (split_char ":" v))
  | From_default : (sudo_V h ≫= secure_path_search) = None →
      (∀ text l v, sudoers h = Some text → l ∈ splitlines text → ¬ sets_path l v) →
      secure_path_of h ["/usr/local/sbin"; "/usr/local/bin"; "/usr/sbin"; "/usr/bin"; "/sbin"; "/bin"].

Lemma value_at_nonempty i s g : value_at i s = Some g → nonempty g = true.
Proof.
  unfold value_at. destruct (sdrop i s) as [|c r]; [done|].
  destruct (Ascii.eqb c dq); [destruct (nonempty (span group_char r).1) eqn:E1; [by intros [= <-]|]|];
    (destruct (nonempty (span group_char (String c r)).1) eqn:E; [by intros [= <-]|done]).
Qed.

Lemma search_nonempty s g : secure_path_search s = Some g → nonempty g = true.
Proof.
  assert (∀ i r g, value_after i r = Some g → nonempty g = true) as Ha.
  { intros i; induction i as [|i IH]; intros r g'; cbn [value_after];
      (destruct (value_at _ r) eqn:E; [intros [= <-]; by eapply value_at_nonempty|]); [done|apply IH]. }
  assert (∀ r g, secure_path_at r = Some g → nonempty g = true) as Hat.
  { intros r g'. unfold secure_path_at. destruct (startswith _ r); [|done].
    destruct (span is_space (sdrop 11 r)).2 as [|c t]; [done|]. destruct (Ascii.eqb c "="); [apply Ha|done]. }
  induction s as [|c s IH]; cbn [secure_path_search]; (destruct (secure_path_at _) eqn:E;
    [intros [= <-]; by eapply Hat|]); [done|exact IH].
Qed.

(** Reading the sudoers file finds the first line with the setting. *)
Lemma sudoers_secure_path_spec lines :
  (sudoers_secure_path lines = "" ∧ ∀ l v, l ∈ lines → ¬ sets_path l v) ∨
  ∃ before line after v, lines = before ++ line :: after ∧ (∀ l v', l ∈ before → ¬ sets_path l v') ∧
    sets_path line v ∧ sudoers_secure_path lines = v.
Proof.
  induction lines as [|l lines IH]; [left; split; [done|by intros ?? ?%elem_of_nil]|]. cbn [sudoers_secure_path].
  destruct (startswith "Defaults" (strip l) && contains "secure_path" (strip l)) eqn:Ed;
    [destruct (secure_path_search (strip l)) as [g|] eqn:Es|].
  - right. apply andb_true_iff in Ed as [? ?]. exists [], l, lines, g. split_and!; [done|by intros ?? ?%elem_of_nil|done|done].
  - assert (∀ v, ¬ sets_path l v) as Hl by (intros v (_ & _ & H); congruence).
    destruct IH as [[-> Hn]|(b & x & a & v & -> & Hb & Hx & ->)]; [left|right].
    + split; [done|]. intros l' v [->|Hin]%elem_of_cons; [apply Hl|by apply Hn].
    + exists (l :: b), x, a, v. split_and!; [done| |done|done]. intros l' v' [->|Hin]%elem_of_cons; [apply Hl|by apply Hb].
  - assert (∀ v, ¬ sets_path l v) as Hl.
    { intros v (H1 & H2 & _). by rewrite H1, H2 in Ed. }
    destruct IH as [[-> Hn]|(b & x & a & v & -> & Hb & Hx & ->)]; [left|right].
    + split; [done|]. intros l' v [->|Hin]%elem_of_cons; [apply Hl|by apply Hn].
    + exists (l :: b), x, a, v. split_and!; [done| |done|done]. intros l' v' [->|Hin]%elem_of_cons; [apply Hl|by apply Hb].
Qed.

Lemma secure_path_dirs_spec h : secure_path_of h (secure_path_dirs h).
Proof.
  unfold secure_path_dirs. destruct (sudo_V h ≫= secure_path_search) as [v|] eqn:Ev; cbn [default].
  - destruct (sudo_V h) as [out|] eqn:Eo; [|done]. cbn in Ev. pose proof (search_nonempty _ _ Ev) as Hv.
    cbn [from_option id]. rewrite Hv. cbn iota. rewrite Hv. by eapply From_sudo_V.
  - cbn [from_option id nonempty]. destruct (sudoers h) as [text|] eqn:Et.
    2: { apply From_default; [done|]. by rewrite Et. }
    destruct (sudoers_secure_path_spec (splitlines text)) as [[-> Hn]|(b & x & a & v & Hs & Hb & Hx & ->)].
    + apply From_default; [done|]. rewrite Et. intros t l v [= <-]. apply Hn.
    + pose proof Hx as (_ & _ & Hv%search_nonempty). rewrite Hv. by eapply From_sudoers.
Qed.

(** An executable in one of the directories. *)
Definition candidate (h : l0_host) (dirs : list string) (binary p : string) : Prop :=
  ∃ d, d ∈ dirs ∧ p = path_join d binary ∧ executable h p = true.

(** One and the same file; a path that cannot be statted is only itself. *)
Definition same_file (h : l0_host) (p q : string) : Prop :=
  match file_identity h p, file_identity h q with
  | Some i, Some j => i = j
  | None, None => p = q
  | _, _ => False
  end.

Lemma same_file_key h p q : same_file h p q ↔ file_key h p = file_key h q.
Proof. unfold same_file, file_key. destruct (file_identity h p), (file_identity h q); naive_solver. Qed.

(** The candidates that were found, each once. *)
Definition lists_candidates (h : l0_host) (dirs : list string) (binary : string) (l : list string) : Prop :=
  NoDup l ∧ ∀ p, p ∈ l ↔ candidate h dirs binary p.

Lemma found_in_nodup h binary dirs acc : NoDup acc → NoDup (found_in h binary dirs acc).
Proof.
  revert acc; induction dirs as [|d dirs IH]; intros acc Hn; cbn [found_in]; [done|].
  apply IH. destruct (executable h (path_join d binary)); cbn [andb]; [|done].
  case_bool_decide; cbn [negb]; [done|]. apply NoDup_app. split_and!; [done| |apply NoDup_singleton].
  by intros x Hx ->%list_elem_of_singleton.
Qed.

Lemma found_lists h binary : lists_candidates h (secure_path_dirs h) binary (found_in h binary (secure_path_dirs h) []).
Proof.
  split; [apply found_in_nodup, NoDup_nil_2|]. intros p. rewrite elem_of_found.
  split; [intros [?%elem_of_nil|]; done|by right].
Qed.

Lemma canonical_dir_true p : canonical_dir p = true ↔ dirname p = "/usr/bin" ∨ dirname p = "/usr/sbin".
Proof. unfold canonical_dir, CANONICAL_MACHINECTL_DIRS. rewrite bool_decide_eq_true. set_solver. Qed.

(** One path of each group. *)
Lemma group_representatives h found groups : grouped h found groups →
  ∃ reps, List.length reps = List.length groups ∧ (∀ p, p ∈ reps → p ∈ found) ∧
    (∀ i j p q, reps !! i = Some p → reps !! j = Some q → same_file h p q → i = j) ∧
    ∀ p, p ∈ found → ∃ q, q ∈ reps ∧ same_file h p q.
Proof.
  intros (Hnd & Hne & Hall & Hin).
  assert (∀ g, g ∈ groups → ∃ p, head g.2 = Some p ∧ p ∈ found ∧ file_key h p = g.1) as Hrep.
  { intros [k l] Hg. pose proof (Hne k l Hg). destruct l as [|p l]; [done|]. exists p. split; [done|].
    apply (Hin k (p :: l)); [done|left]. }
  exists (map (λ g, default "" (head g.2)) groups). rewrite length_map. split_and!; [done|..].
  - intros p (g & -> & Hg)%list_elem_of_fmap. by destruct (Hrep g Hg) as (p & -> & Hp & _).
  - intros i j p q. rewrite !list_lookup_fmap. destruct (groups !! i) as [g|] eqn:Ei; [|done].
    destruct (groups !! j) as [g'|] eqn:Ej; [|done]. intros [= <-] [= <-] Hs%same_file_key.
    destruct (Hrep g) as (p & Hp & _ & Hk); [by eapply list_elem_of_lookup_2|].
    destruct (Hrep g') as (q & Hq & _ & Hk'); [by eapply list_elem_of_lookup_2|].
    rewrite Hp, Hq in Hs. cbn in Hs. eapply (NoDup_lookup _ i j g.1 Hnd).
    + by rewrite list_lookup_fmap, Ei.
    + rewrite list_lookup_fmap, Ej. cbn. congruence.
  - intros p Hp. destruct (Hall p Hp) as (l & Hg & _). destruct (Hrep _ Hg) as (q & Hq & _ & Hk).
    exists q. split; [|by apply same_file_key]. apply list_elem_of_fmap. exists (file_key h p, l). by rewrite Hq.
Qed.

Lemma preferred_spec aliases : let canonical := merge_sort str_le (List.filter canonical_dir aliases) in
  match List.find (λ p, String.eqb (dirname p) "/usr/bin") canonical, canonical with
  | Some p, _ => p ∈ aliases ∧ canonical_dir p = true ∧ dirname p = "/usr/bin"
  | None, p :: _ => p ∈ aliases ∧ canonical_dir p = true ∧ ∀ q, q ∈ aliases → dirname q ≠ "/usr/bin"
  | None, [] => ∀ q, q ∈ aliases → canonical_dir q = false
  end.
Proof.
  intros canonical. assert (Hin : ∀ p, p ∈ canonical ↔ p ∈ aliases ∧ canonical_dir p = true).
  { intros p. unfold canonical. by rewrite merge_sort_Permutation, !list_elem_of_In, List.filter_In. }
  destruct (List.find _ canonical) as [p|] eqn:Hf.
  - apply List.find_some in Hf as [Hp%list_elem_of_In Hd%String.eqb_eq]. apply Hin in Hp as [? ?]. done.
  - pose proof (List.find_none _ _ Hf) as Hn.
    assert (Hno : ∀ q, q ∈ aliases → dirname q ≠ "/usr/bin").
    { intros q Hq Hd. assert (q ∈ canonical) as Hc%list_elem_of_In.
      - apply Hin. split; [done|]. unfold canonical_dir. rewrite Hd. by apply bool_decide_eq_true; left.
      - apply Hn in Hc. rewrite Hd in Hc. done. }
    destruct canonical as [|p l].
    + intros q Hq. destruct (canonical_dir q) eqn:E; [|done]. by assert (q ∈ []) as ?%elem_of_nil by by apply Hin.
    + destruct (proj1 (Hin p) ltac:(left)) as [? ?]. done.
Qed.

(** C27: The single launcher.  The directories searched are those that
    [sudo -V] names, else those of the first [Defaults] line of the sudoers file
    that sets them, else the six of the default; the candidates are the
    executables of that name in them.  A resolved binary is a candidate in
    /usr/bin or /usr/sbin, all candidates are one file with it, and it is the one
    under /usr/bin if any is.  A refusal means that there is no candidate, that
    the candidates are that many different files, two at least, or that the one
    file has no path in those two directories; it lists the candidates. *)
Theorem secure_path_resolution h binary : ∃ dirs, secure_path_of h dirs ∧
  match resolve_secure_path_binary h binary with
  | Resolved p => candidate h dirs binary p ∧ (dirname p = "/usr/bin" ∨ dirname p = "/usr/sbin") ∧
      (∀ q, candidate h dirs binary q → same_file h q p) ∧
      (dirname p = "/usr/bin" ∨ ∀ q, candidate h dirs binary q → dirname q ≠ "/usr/bin")
  | NoBinary l => l = dirs ∧ ∀ p, ¬ candidate h dirs binary p
  | DistinctBinaries n l => lists_candidates h dirs binary l ∧ 2 <= n ∧
      ∃ reps, List.length reps = n ∧ (∀ p, p ∈ reps → p ∈ l) ∧
        (∀ i j p q, reps !! i = Some p → reps !! j = Some q → same_file h p q → i = j) ∧
        ∀ p, p ∈ l → ∃ q, q ∈ reps ∧ same_file h p q
  | NotCanonical l => lists_candidates h dirs binary l ∧ l ≠ [] ∧ (∀ p q, p ∈ l → q ∈ l → same_file h p q) ∧
      ∀ q, q ∈ l → dirname q ≠ "/usr/bin" ∧ dirname q ≠ "/usr/sbin"
  end.
Proof.
  exists (secure_path_dirs h). split; [apply secure_path_dirs_spec|].
  unfold resolve_secure_path_binary. pose proof (found_lists h binary) as Hl. pose proof Hl as [_ Hcand].
  set (found := found_in h binary (secure_path_dirs h) []) in *.
  destruct (distinct_files_grouped h found) as (Hnd & Hne & Hall & Hin).
  destruct (distinct_files h found) as [|[k aliases] [|g groups]] eqn:Eg.
  - split; [done|]. intros p Hp%Hcand. destruct (Hall p Hp) as (l0 & ?%elem_of_nil & _); done.
  - assert (Hal : ∀ p, p ∈ aliases ↔ p ∈ found).
    { intros p. split; [intros Hp; by apply (Hin k aliases p); [left|]|]. intros (l & [= _ ->]%list_elem_of_singleton & ?)%Hall. done. }
    assert (Hk : ∀ p, p ∈ found → file_key h p = k) by (intros p Hp%Hal; by apply (Hin k aliases p); [left|]).
    assert (Hsame : ∀ p q, p ∈ found → q ∈ found → same_file h p q) by (intros; apply same_file_key; by rewrite !Hk).
    pose proof (preferred_spec aliases) as Hp. cbv zeta in Hp.
    destruct (List.find _ _) as [p|]; [|destruct (merge_sort str_le (List.filter canonical_dir aliases)) as [|p l]].
    + destruct Hp as (Hp%Hal & Hc%canonical_dir_true & Hd).
      split_and!; [by apply Hcand|done|intros q Hq%Hcand; by apply Hsame|by left].
    + split_and!; [done| |done|].
      * intros Hf. apply (Hne k aliases); [left|]. destruct aliases as [|p l]; [done|].
        assert (p ∈ found) as H by (apply Hal; left). rewrite Hf in H. by apply elem_of_nil in H.
      * intros q Hq%Hal%Hp. apply not_true_iff_false in Hq. rewrite canonical_dir_true in Hq. naive_solver.
    + destruct Hp as (Hp%Hal & Hc%canonical_dir_true & Hd).
      split_and!; [by apply Hcand|done|intros q Hq%Hcand; by apply Hsame|].
      right. intros q Hq%Hcand%Hal. by apply Hd.
  - split_and!; [done|cbn; lia|]. rewrite <- Eg in *. clear Eg.
    exact (group_representatives h found (distinct_files h found) (conj Hnd (conj Hne (conj Hall Hin)))).
Qed.

(** L0 calls the host correct exactly when its distribution is known
    and its reverify would pass, and after a passing reverify its act succeeds. *)
Theorem l0_probe_exact ctx h :
  (l0_probe ctx h).1 =
    (if negb (bool_decide ((classify_distro h).1.1 = unrecognized)) && l0_reverify ctx h then ALREADY_CORRECT else CONFLICT) ∧
  (l0_reverify ctx h = true → l0_act h = Ok "L0 prerequisites satisfied").
Proof.
  unfold l0_probe, l0_reverify, l0_act. destruct (classify_distro h) as [[t raw_id] version]. cbn [fst].
  split; [|by destruct (missing_binaries h)].
  case_bool_decide; cbn [negb andb]; [done|]. destruct (missing_binaries h); [|done].
  destruct (is_operator_rootless _); [done|]. by destruct (resolve_machinectl_path h).
Qed.

(** An operator is an existing account, the flag's or the one of [sudo]. *)
Lemma resolve_operator_exists uid_of SUDO_USER SUDO_UID flag u :
  resolve_operator uid_of SUDO_USER SUDO_UID flag = Ok u → ∃ uid, uid_of u = Some uid ∧
    (flag = Some u ∨ flag = None ∧ SUDO_USER = Some u ∧ SUDO_UID ≫= py_int = Some uid).
Proof.
  unfold resolve_operator. destruct flag as [f|].
  - destruct (uid_of f) as [uid|] eqn:E; [|done]. intros [= <-]. exists uid. auto.
  - destruct SUDO_USER as [user|], SUDO_UID as [text|]; try done.
    destruct (nonempty user && nonempty text); [|done]. destruct (uid_of user) as [uid|] eqn:E; [|done].
    destruct (py_int text) as [n|] eqn:En; [|done]. destruct (Z.eqb_spec uid n) as [->|]; [|done].
    intros [= <-]. exists n. cbn. rewrite En. auto.
Qed.

(** What [sudo -V] prints of its path does not name it [secure_path], so the
    path of a drop-in under sudoers.d is not seen. *)
Lemma secure_path_of_sudo_V_unread h : sudo_V h = Some ("Value to override user's $PATH with: /opt/bin:/usr/bin" +:+ NL) →
  sudoers h = Some ("@includedir /etc/sudoers.d" +:+ NL) →
  secure_path_dirs h = ["/usr/local/sbin"; "/usr/local/bin"; "/usr/sbin"; "/usr/bin"; "/sbin"; "/bin"].
Proof. intros HV HS. unfold secure_path_dirs. rewrite HV, HS. vm_compute. reflexivity. Qed.

(** A uid that is no number escapes the resolver's own error. *)
Lemma sudo_uid_not_a_number : resolve_operator (λ _, Some 1000%Z) (Some "dev") (Some "abc") None = Err ValueError.
Proof. vm_compute. reflexivity. Qed.

Definition demo_l0 : l0_host :=
  L0Host (Some ("ID=debian" +:+ NL +:+ "VERSION_ID=13" +:+ NL)) None (Some ("Defaults secure_path=/usr/sbin:/usr/bin" +:+ NL))
    (Some "Sudo version 1.9.16p2") (λ p, bool_decide (p ∈ ["/usr/bin/machinectl"; "/usr/sbin/machinectl"]))
    (λ p, Some (1, 7)%Z).

Example usrmerge_is_one : resolve_machinectl_path demo_l0 = Resolved "/usr/bin/machinectl".
Proof. vm_compute. reflexivity. Qed.
Example floor_is_met : sudo_floor_warning demo_l0 = None.
Proof. vm_compute. reflexivity. Qed.

(** L0 asserts one machinectl only; a host without the launcher of the crossing
    passes. *)
Lemma l0_ignores_launcher : ∃ h, resolve_systemd_run_path h = NoBinary (secure_path_dirs h) ∧
  l0_reverify (MkSetupContext (MkHostConfig (MkHostSettings (Some "sandbox") SEPARATE_USER "sb-ws")) "ann") h = true.
Proof.
  exists (L0Host (os_release demo_l0) None (sudoers demo_l0) None
    (λ p, negb (String.eqb (basename p) "systemd-run") && String.eqb (dirname p) "/usr/bin") (λ p, Some (1, 7)%Z)).
  split; vm_compute; reflexivity.
Qed.
