(* ===== verification/Hydration.v ===== *)
(** * core.hydration: the configuration model, and core.host_resources

    A sandbox.toml is the value [tomllib] gives: a table is a list in the order
    of the file.  Pydantic's conversions of scalars are a parameter with the laws
    the code relies on; its sections, defaults and validators are the code's. *)
From S2P Require Import Prelude PyStr HostConfig Ipam Images.
From Stdlib Require Import Ascii String.
Open Scope nat_scope.

(** ** Values of tomllib

    A finite float is its decimal, [m] over ten to the [e]. *)
Inductive pyfloat := Dec (m : Z) (e : nat) | Inf (negative : bool) | NaN.

Inductive Toml :=
  | TStr (s : string)
  | TInt (n : Z)
  | TFloat (f : pyfloat)
  | TBool (b : bool)
  | TArr (l : list Toml)
  | TTable (t : list (string * Toml))
  | TDate (iso : string).
Abbreviation table := (list (string * Toml)).

(** [f > n] *)
Definition float_gt (f : pyfloat) (n : Z) : bool :=
  match f with
  | Dec m e => (n * 10 ^ Z.of_nat e <? m)%Z
  | Inf negative => negb negative
  | NaN => false
  end.
Definition float_of_int (n : Z) : pyfloat := Dec n 0.

Fixpoint zeros (n : nat) : string := match n with O => "" | S n => String "0" (zeros n) end.

(** [str(f)], of at most fifteen digits and no exponent. *)
Definition float_str (f : pyfloat) : string :=
  match f with
  | Dec m e =>
      let scale := (10 ^ Z.of_nat e)%Z in
      let frac := str_of_Z (Z.abs m mod scale) in
      let padded := rstrip_char "0" (zeros (e - str_len frac) +:+ frac) in
      (if (m <? 0)%Z then "-" else "") +:+ str_of_Z (Z.abs m / scale) +:+ "." +:+
      (if nonempty padded then padded else "0")
  | Inf negative => if negative then "-inf" else "inf"
  | NaN => "nan"
  end.

(** ** core.host_resources *)

Definition SIZE_MULTIPLIERS : list (string * Z) :=
  [("b", 1); ("k", 1024); ("kb", 1024); ("m", 1024 ^ 2); ("mb", 1024 ^ 2); ("g", 1024 ^ 3); ("gb", 1024 ^ 3)]%Z.

(** [cpu_count] is [os.cpu_count()], [affinity] the length of the affinity set. *)
Definition host_cpu_count (cpu_count : option Z) (affinity : Z) : Z := Z.max (default affinity cpu_count) 1.

(** [os.sysconf] of the page size and of the number of physical pages. *)
Definition host_ram_bytes (page_size phys_pages : Z) : Z := (page_size * phys_pages)%Z.

Definition SIZE_SUFFIXES : list string := ["gb"; "mb"; "kb"; "g"; "m"; "k"; "b"].

(** The loop ends at the first suffix that the text has. *)
Definition parse_docker_size (value : Z + string) : res Z :=
  match value with
  | inl n => Ok n
  | inr value =>
      let text := lower (strip value) in
      if negb (nonempty text) then Err ValueError
      else if isdigit text then from_option Ok (Err ValueError) (py_int text)
      else match List.find (λ suffix, endswith suffix text) SIZE_SUFFIXES with
           | Some suffix =>
               let number := strip (stake (str_len text - str_len suffix) text) in
               if isdigit number then
                 from_option (λ n, Ok (n * default 0 (assoc suffix SIZE_MULTIPLIERS))%Z) (Err ValueError) (py_int number)
               else Err ValueError
           | None => Err ValueError
           end
  end.

(** ** The model *)

Inductive BootstrapMode := COPY | EMPTY.
#[export] Instance BootstrapMode_eq_dec : EqDecision BootstrapMode.
Proof. solve_decision. Defined.

Definition bootstrap_value (m : BootstrapMode) : string := match m with COPY => "copy" | EMPTY => "empty" end.
Definition bootstrap_of_value (s : string) : option BootstrapMode :=
  if String.eqb s "copy" then Some COPY else if String.eqb s "empty" then Some EMPTY else None.

Record WorkspaceConfig := MkWorkspaceConfig { bootstrap_mode : BootstrapMode; source : option string; ws_path : string }.
Record SandboxInstanceSection := MkInstanceSection { name : string; host_uid : string }.
Record CoreConfig := MkCore {
  shm_size : string; pids_limit : Z; mem_limit : string; cpus : pyfloat;
  base_image : string; base_distro_family : string; git_user : string; git_email : string }.
Record RuntimesConfig := MkRuntimes { python : bool; typescript : bool; rust : bool; go : bool }.
Record NodeConfig := MkNode { version : string; nvm_version : string }.
Record DbPostgresConfig := MkDb {
  enabled : bool; expose_host_ports : list Z; pg_user : string; pg_db : string; db_image : string }.
Record IngressConfig := MkIngress { web_ports : list Z }.
Record ComponentsConfig := MkComponents { mcp_firecrawl : bool; mcp_puppeteer : bool }.
Record ProxyWhitelistConfig := MkWhitelist { domains : list string; read_only_domains : list string }.

Record InstanceConfig := MkInstanceConfig {
  instance : SandboxInstanceSection;
  workspaces : list (string * WorkspaceConfig);
  core : CoreConfig;
  runtimes : RuntimesConfig;
  runtimes_node : NodeConfig;
  components : ComponentsConfig;
  components_db_postgres : DbPostgresConfig;
  components_ingress : IngressConfig;
  proxy_whitelist : ProxyWhitelistConfig
}.

Definition registry_pinned (key : string) : string := match image key with Ok pin => pinned pin | Err _ => "" end.

(** ** Validation *)

(** Pydantic's conversions, and what the code relies on: a value of the type of
    the field is taken as it is, and a [str] field takes nothing else. *)
Record coercions := MkCoercions {
  to_str : Toml → option string;
  to_int : Toml → option Z;
  to_float : Toml → option pyfloat;
  to_bool : Toml → option bool
}.

Record coercions_ok (c : coercions) : Prop := {
  to_str_exact v s : to_str c v = Some s ↔ v = TStr s;
  to_int_int n : to_int c (TInt n) = Some n;
  to_float_float f : to_float c (TFloat f) = Some f;
  to_float_int n : to_float c (TInt n) = Some (float_of_int n);
  to_bool_bool b : to_bool c (TBool b) = Some b
}.

Definition required {A} (t : table) (key : string) (read : Toml → option A) : res A :=
  match assoc key t with None => Err ValidationError | Some v => from_option Ok (Err ValidationError) (read v) end.
Definition optional {A} (t : table) (key : string) (read : Toml → option A) (absent : A) : res A :=
  match assoc key t with None => Ok absent | Some v => from_option Ok (Err ValidationError) (read v) end.
Definition list_of {A} (read : Toml → option A) (v : Toml) : option (list A) :=
  match v with TArr l => mapM read l | _ => None end.
(** A field whose type is a model wants a table. *)
Definition as_table (v : Toml) : res table := match v with TTable t => Ok t | _ => Err ValidationError end.

Section validate.
Context (c : coercions).

Definition to_bootstrap (v : Toml) : option BootstrapMode := to_str c v ≫= bootstrap_of_value.

Definition truthy_source (s : option string) : bool := match s with Some s => nonempty s | None => false end.

Definition validate_workspace (v : Toml) : res WorkspaceConfig :=
  t ← as_table v;
  mode ← required t "bootstrap_mode" to_bootstrap;
  source ← optional t "source" (λ v, Some <$> to_str c v) None;
  path ← required t "path" (to_str c);
  if bool_decide (mode = COPY) && negb (truthy_source source) then Err ValidationError
  else Ok (MkWorkspaceConfig mode source path).

Definition validate_instance (t : table) : res SandboxInstanceSection :=
  name ← required t "name" (to_str c);
  uid ← required t "host_uid" (to_str c);
  Ok (MkInstanceSection name uid).

Definition validate_core (t : table) : res CoreConfig :=
  shm ← optional t "shm_size" (to_str c) "2gb";
  pids ← optional t "pids_limit" (to_int c) 400%Z;
  mem ← optional t "mem_limit" (to_str c) "8gb";
  cpus ← optional t "cpus" (to_float c) (Dec 40 1);
  base ← optional t "base_image" (to_str c) (registry_pinned "wolfi_base");
  family ← optional t "base_distro_family" (to_str c) "wolfi";
  user ← optional t "git_user" (to_str c) "";
  email ← optional t "git_email" (to_str c) "";
  Ok (MkCore shm pids mem cpus base family user email).

Definition validate_runtimes (t : table) : res RuntimesConfig :=
  p ← optional t "python" (to_bool c) true;
  ts ← optional t "typescript" (to_bool c) true;
  r ← optional t "rust" (to_bool c) true;
  g ← optional t "go" (to_bool c) false;
  Ok (MkRuntimes p ts r g).

Definition validate_node (t : table) : res NodeConfig :=
  v ← optional t "version" (to_str c) "20.12.2";
  nvm ← optional t "nvm_version" (to_str c) "0.39.7";
  Ok (MkNode v nvm).

Definition validate_db (t : table) : res DbPostgresConfig :=
  on ← optional t "enabled" (to_bool c) true;
  ports ← optional t "expose_host_ports" (list_of (to_int c)) [5432%Z];
  user ← optional t "pg_user" (to_str c) "sandbox";
  db ← optional t "pg_db" (to_str c) "sandbox_db";
  img ← optional t "image" (to_str c) (registry_pinned "postgres");
  Ok (MkDb on ports user db img).

Definition validate_ingress (t : table) : res IngressConfig :=
  ports ← optional t "web_ports" (list_of (to_int c)) [3000; 8080]%Z; Ok (MkIngress ports).

Definition validate_components (t : table) : res ComponentsConfig :=
  f ← optional t "mcp_firecrawl" (to_bool c) false;
  p ← optional t "mcp_puppeteer" (to_bool c) false;
  Ok (MkComponents f p).

Definition validate_whitelist (t : table) : res ProxyWhitelistConfig :=
  d ← optional t "domains" (list_of (to_str c)) [];
  r ← optional t "read_only_domains" (list_of (to_str c)) [];
  Ok (MkWhitelist d r).

(** [raw.get(key, {})] where the code goes on with a method of a dict. *)
Definition get_dict (t : table) (key : string) : res table :=
  match assoc key t with None => Ok [] | Some (TTable t) => Ok t | Some _ => Err AttributeError end.
(** [raw.get(key, {})] where pydantic validates the value. *)
Definition get_raw (t : table) (key : string) : Toml := default (TTable []) (assoc key t).

Definition is_bool_value (v : Toml) : bool := match v with TBool _ => true | _ => false end.

(** What [from_toml] hands to the model. *)
Record flat := MkFlat {
  fl_instance : Toml; fl_workspaces : Toml; fl_core : Toml; fl_runtimes : table; fl_node : Toml;
  fl_components : table; fl_db : Toml; fl_ingress : Toml; fl_whitelist : Toml; fl_admin : option Toml }.

Definition flatten (raw : table) : res flat :=
  runtimes ← get_dict raw "runtimes";
  components_raw ← get_dict raw "components";
  proxy ← get_dict raw "proxy";
  Ok (MkFlat (get_raw raw "instance") (get_raw raw "workspaces") (get_raw raw "core")
        (List.filter (λ kv, negb (String.eqb kv.1 "node")) runtimes) (get_raw runtimes "node")
        (List.filter (λ kv, is_bool_value kv.2) components_raw)
        (get_raw components_raw "db_postgres") (get_raw components_raw "ingress")
        (get_raw proxy "whitelist") (assoc "admin" raw)).

Definition validate_named (kv : string * Toml) : res (string * WorkspaceConfig) :=
  w ← validate_workspace kv.2; Ok (kv.1, w).

Definition model_validate (f : flat) : res InstanceConfig :=
  if bool_decide (is_Some (fl_admin f)) then Err ValidationError
  else
    inst ← (t ← as_table (fl_instance f); validate_instance t);
    ws ← (t ← as_table (fl_workspaces f); res_map validate_named t);
    if bool_decide (ws = []) then Err ValidationError
    else
      core ← (t ← as_table (fl_core f); validate_core t);
      rt ← validate_runtimes (fl_runtimes f);
      node ← (t ← as_table (fl_node f); validate_node t);
      comp ← validate_components (fl_components f);
      db ← (t ← as_table (fl_db f); validate_db t);
      ingress ← (t ← as_table (fl_ingress f); validate_ingress t);
      wl ← (t ← as_table (fl_whitelist f); validate_whitelist t);
      Ok (MkInstanceConfig inst ws core rt node comp db ingress wl).

(** [raw] is what [tomllib] reads; [None] is a text it rejects. *)
Definition from_toml (raw : option table) : res InstanceConfig :=
  match raw with
  | None => Err TOMLDecodeError
  | Some raw => f ← flatten raw; model_validate f
  end.
End validate.

(** ** Printing a configuration *)

Definition encode_workspace (w : WorkspaceConfig) : Toml :=
  TTable (("bootstrap_mode", TStr (bootstrap_value (bootstrap_mode w))) ::
          match source w with Some s => [("source", TStr s)] | None => [] end ++ [("path", TStr (ws_path w))])%list.

Definition encode (cfg : InstanceConfig) : table :=
  let co := core cfg in let rt := runtimes cfg in let db := components_db_postgres cfg in
  [("instance", TTable [("name", TStr (name (instance cfg))); ("host_uid", TStr (host_uid (instance cfg)))]);
   ("workspaces", TTable (map (λ nw, (nw.1, encode_workspace nw.2)) (workspaces cfg)));
   ("core", TTable [("shm_size", TStr (shm_size co)); ("pids_limit", TInt (pids_limit co)); ("mem_limit", TStr (mem_limit co));
      ("cpus", TFloat (cpus co)); ("base_image", TStr (base_image co)); ("base_distro_family", TStr (base_distro_family co));
      ("git_user", TStr (git_user co)); ("git_email", TStr (git_email co))]);
   ("runtimes", TTable [("python", TBool (python rt)); ("typescript", TBool (typescript rt)); ("rust", TBool (rust rt));
      ("go", TBool (go rt));
      ("node", TTable [("version", TStr (version (runtimes_node cfg))); ("nvm_version", TStr (nvm_version (runtimes_node cfg)))])]);
   ("components", TTable [("mcp_firecrawl", TBool (mcp_firecrawl (components cfg)));
      ("mcp_puppeteer", TBool (mcp_puppeteer (components cfg)));
      ("db_postgres", TTable [("enabled", TBool (enabled db)); ("expose_host_ports", TArr (map TInt (expose_host_ports db)));
         ("pg_user", TStr (pg_user db)); ("pg_db", TStr (pg_db db)); ("image", TStr (db_image db))]);
      ("ingress", TTable [("web_ports", TArr (map TInt (web_ports (components_ingress cfg))))])]);
   ("proxy", TTable [("whitelist", TTable [("domains", TArr (map TStr (domains (proxy_whitelist cfg))));
      ("read_only_domains", TArr (map TStr (read_only_domains (proxy_whitelist cfg))))])])].

(** ** Lemmas *)

Definition workspace_ok (w : WorkspaceConfig) : Prop := bootstrap_mode w = COPY → ∃ s, source w = Some s ∧ s ≠ "".
Definition config_ok (cfg : InstanceConfig) : Prop := workspaces cfg ≠ [] ∧ Forall (λ nw, workspace_ok nw.2) (workspaces cfg).

Lemma truthy_source_spec s : truthy_source s = true ↔ ∃ t, s = Some t ∧ t ≠ "".
Proof.
  destruct s as [[|a t]|]; cbn; split; try done; [by intros (? & [= <-] & ?)| |by intros (? & ? & _)].
  intros _. by exists (String a t).
Qed.

Lemma bootstrap_of_value_spec s m : bootstrap_of_value s = Some m ↔ s = bootstrap_value m.
Proof.
  unfold bootstrap_of_value. destruct (String.eqb_spec s "copy") as [->|H1].
  - destruct m; cbn; split; congruence.
  - destruct (String.eqb_spec s "empty") as [->|H2]; destruct m; cbn; split; congruence.
Qed.

Section laws.
Context (c : coercions) (Hc : coercions_ok c).

Lemma to_str_str s : to_str c (TStr s) = Some s.
Proof. by apply (to_str_exact c Hc). Qed.

Lemma list_of_map {A} (read : Toml → option A) inj l : (∀ x, read (inj x) = Some x) → list_of read (TArr (map inj l)) = Some l.
Proof. intros Hr. unfold list_of. induction l as [|x l IH]; [done|]. cbn. by rewrite Hr, IH. Qed.

Lemma validate_encoded_workspace w : workspace_ok w → validate_workspace c (encode_workspace w) = Ok w.
Proof.
  intros Hw. destruct w as [m src p]. unfold validate_workspace, encode_workspace, to_bootstrap, required, optional.
  cbn [as_table mbind res_bind bootstrap_mode source ws_path].
  assert (Hs : bool_decide (m = COPY) && negb (truthy_source src) = false).
  { case_bool_decide as Hm; [|done]. destruct (Hw Hm) as (s & Hs & Hn). cbn in Hs. subst. by destruct s. }
  destruct m, src as [s|]; cbn -[truthy_source]; rewrite !to_str_str; cbn -[truthy_source]; rewrite ?to_str_str; cbn -[truthy_source];
    rewrite ?to_str_str; cbn -[truthy_source]; try done; cbn in Hs |- *; by rewrite Hs.
Qed.

Lemma validate_encoded ws : Forall (λ nw, workspace_ok nw.2) ws →
  res_map (validate_named c) (map (λ nw, (nw.1, encode_workspace nw.2)) ws) = Ok ws.
Proof.
  induction 1 as [|[n w] ws Hw _ IH]; [done|].
  assert (Hn : validate_named c (n, encode_workspace w) = Ok (n, w)).
  { unfold validate_named. change ((n, encode_workspace w).2) with (encode_workspace w).
    by rewrite (validate_encoded_workspace w Hw). }
  change (res_map (validate_named c) (map _ ((n, w) :: ws))) with
    (y ← validate_named c (n, encode_workspace w); ys ← res_map (validate_named c) (map (λ nw, (nw.1, encode_workspace nw.2)) ws); Ok (y :: ys)).
  by rewrite Hn, IH.
Qed.
End laws.

(** What a field holds: the value read at its key, or its default. *)
Definition read_as {A} (t : table) (key : string) (read : Toml → option A) (absent v : A) : Prop :=
  match assoc key t with None => v = absent | Some x => read x = Some v end.

Lemma optional_Ok {A} t key (read : Toml → option A) absent v : optional t key read absent = Ok v ↔ read_as t key read absent v.
Proof.
  unfold optional, read_as. destruct (assoc key t) as [x|]; [destruct (read x); cbn|]; split; congruence.
Qed.

Lemma required_Ok {A} t key (read : Toml → option A) v : required t key read = Ok v ↔ ∃ x, assoc key t = Some x ∧ read x = Some v.
Proof.
  unfold required. destruct (assoc key t) as [x|]; [destruct (read x) eqn:E; cbn|]; split; try done; try (by intros (? & [= <-] & ?); congruence); try (by intros (? & ? & _)).
  all: intros [= <-]; eauto.
Qed.

Lemma as_table_Ok v t : as_table v = Ok t ↔ v = TTable t.
Proof. destruct v; cbn; split; congruence. Qed.

(** A table of the file, empty when absent. *)
Definition section_is (t : table) (key : string) (sub : table) : Prop :=
  assoc key t = Some (TTable sub) ∨ assoc key t = None ∧ sub = [].

Lemma get_raw_table t key sub : as_table (get_raw t key) = Ok sub ↔ section_is t key sub.
Proof.
  unfold get_raw, section_is. rewrite as_table_Ok. destruct (assoc key t) as [v|]; cbn; split; [intros ->; by left|intros [[= ->]|[? _]]; done| |intros [?|[_ ->]]; done].
  intros [= ->]. by right.
Qed.

Lemma get_dict_Ok t key sub : get_dict t key = Ok sub ↔ section_is t key sub.
Proof.
  unfold get_dict, section_is. destruct (assoc key t) as [[]|]; cbn; split; try done; try (by intros [[= ->]|[? _]]); try (by intros [?|[_ ->]]).
  - intros [= ->]. by left.
  - intros [= <-]. by right.
Qed.

(** A workspace of the file and what became of it. *)
Definition workspace_read (c : coercions) (kv : string * Toml) (nw : string * WorkspaceConfig) : Prop :=
  kv.1 = nw.1 ∧ ∃ t, kv.2 = TTable t ∧ workspace_ok nw.2 ∧
    assoc "bootstrap_mode" t = Some (TStr (bootstrap_value (bootstrap_mode nw.2))) ∧
    assoc "path" t = Some (TStr (ws_path nw.2)) ∧ assoc "source" t = TStr <$> source nw.2.

Lemma validate_workspace_Ok c v w : coercions_ok c → validate_workspace c v = Ok w →
  ∃ t, v = TTable t ∧ workspace_ok w ∧ assoc "bootstrap_mode" t = Some (TStr (bootstrap_value (bootstrap_mode w))) ∧
    assoc "path" t = Some (TStr (ws_path w)) ∧ assoc "source" t = TStr <$> source w.
Proof.
  intros Hc. unfold validate_workspace. intros (t & ->%as_table_Ok & (m & Hm & (s & Hs & (p & Hp & H)%res_bind_Ok)%res_bind_Ok)%res_bind_Ok)%res_bind_Ok.
  apply required_Ok in Hm as (x & Hx & Hm), Hp as (y & Hy & Hp%(to_str_exact c Hc)). subst y.
  unfold to_bootstrap in Hm. apply bind_Some in Hm as (z & Hz%(to_str_exact c Hc) & ->%bootstrap_of_value_spec). subst x.
  destruct (bool_decide (m = COPY) && negb (truthy_source s)) eqn:E; [done|]. injection H as <-. exists t. cbn.
  split_and!; [done| |done|done|].
  - intros Hcp. cbn in Hcp. rewrite bool_decide_true in E by done. cbn in E. apply negb_false_iff, truthy_source_spec in E. exact E.
  - apply optional_Ok in Hs. unfold read_as in Hs. destruct (assoc "source" t) as [x|]; [|by subst].
    destruct (to_str c x) as [u|] eqn:Eu; [|done]. apply (to_str_exact c Hc) in Eu as ->. injection Hs as <-. done.
Qed.

Lemma validate_named_all c t ws : coercions_ok c → res_map (validate_named c) t = Ok ws → Forall2 (workspace_read c) t ws.
Proof.
  intros Hc. revert ws; induction t as [|[k v] t IH]; intros ws; cbn [res_map]; [intros H; injection H as <-; constructor|].
  intros (nw & Hn & (ws' & Hws & [= <-])%res_bind_Ok)%res_bind_Ok. constructor; [|by apply IH].
  unfold validate_named in Hn. apply res_bind_Ok in Hn as (w & Hw & [= <-]). split; [done|]. by apply (validate_workspace_Ok c).
Qed.

(** ** Properties *)

(** A toggle holds the boolean of the file; one that is absent, or whose value
    is no boolean, is off. *)
Definition toggle_typed (t : table) (key : string) (v : bool) : Prop :=
  (key, TBool v) ∈ t ∨ v = false ∧ ∀ b, (key, TBool b) ∉ t.

Lemma toggle_read c t key v : coercions_ok c →
  read_as (List.filter (λ kv, is_bool_value kv.2) t) key (to_bool c) false v → toggle_typed t key v.
Proof.
  intros Hc. unfold read_as, toggle_typed. induction t as [|[k x] t IH]; cbn.
  - intros ->. right. split; [done|]. by intros b ?%elem_of_nil.
  - destruct (is_bool_value x) eqn:Ex; cbn.
    + destruct x as [| | |b| | |]; try done. destruct (String.eqb_spec key k) as [->|Hn].
      * rewrite (to_bool_bool c Hc). intros [= ->]. left. left.
      * intros [?|[-> H]]%IH; [left; by right|right]. split; [done|]. intros b' [[= ? _]|?]%elem_of_cons; [done|by eapply H].
    + intros [?|[-> H]]%IH; [left; by right|right]. split; [done|].
      intros b' [[= -> <-]|?]%elem_of_cons; [done|by eapply H].
Qed.

Lemma assoc_without (t : table) key other : key ≠ other →
  assoc key (List.filter (λ kv, negb (String.eqb kv.1 other)) t) = assoc key t.
Proof.
  intros Hn. induction t as [|[k x] t IH]; cbn; [done|].
  destruct (String.eqb_spec k other) as [->|]; cbn; rewrite IH; [|done].
  by destruct (String.eqb_spec key other).
Qed.

Lemma read_without {A} (t : table) key other (read : Toml → option A) absent v : key ≠ other →
  read_as (List.filter (λ kv, negb (String.eqb kv.1 other)) t) key read absent v → read_as t key read absent v.
Proof. intros Hn. unfold read_as. by rewrite assoc_without. Qed.

(** What every section holds. *)
Record typed_as (c : coercions) (raw : table) (cfg : InstanceConfig) : Prop := {
  no_admin : assoc "admin" raw = None;
  instance_typed : ∃ t, section_is raw "instance" t ∧ assoc "name" t = Some (TStr (name (instance cfg))) ∧
    assoc "host_uid" t = Some (TStr (host_uid (instance cfg)));
  workspaces_typed : ∃ t, section_is raw "workspaces" t ∧ t ≠ [] ∧ Forall2 (workspace_read c) t (workspaces cfg);
  core_typed : ∃ t, section_is raw "core" t ∧ let co := core cfg in
    read_as t "shm_size" (to_str c) "2gb" (shm_size co) ∧ read_as t "pids_limit" (to_int c) 400%Z (pids_limit co) ∧
    read_as t "mem_limit" (to_str c) "8gb" (mem_limit co) ∧ read_as t "cpus" (to_float c) (Dec 40 1) (cpus co) ∧
    read_as t "base_image" (to_str c) (registry_pinned "wolfi_base") (base_image co) ∧
    read_as t "base_distro_family" (to_str c) "wolfi" (base_distro_family co) ∧
    read_as t "git_user" (to_str c) "" (git_user co) ∧ read_as t "git_email" (to_str c) "" (git_email co);
  runtimes_typed : ∃ t, section_is raw "runtimes" t ∧ let rt := runtimes cfg in
    read_as t "python" (to_bool c) true (python rt) ∧ read_as t "typescript" (to_bool c) true (typescript rt) ∧
    read_as t "rust" (to_bool c) true (rust rt) ∧ read_as t "go" (to_bool c) false (go rt) ∧
    ∃ t', section_is t "node" t' ∧ read_as t' "version" (to_str c) "20.12.2" (version (runtimes_node cfg)) ∧
      read_as t' "nvm_version" (to_str c) "0.39.7" (nvm_version (runtimes_node cfg));
  components_typed : ∃ t, section_is raw "components" t ∧
    toggle_typed t "mcp_firecrawl" (mcp_firecrawl (components cfg)) ∧
    toggle_typed t "mcp_puppeteer" (mcp_puppeteer (components cfg)) ∧
    (∃ t', section_is t "db_postgres" t' ∧ let db := components_db_postgres cfg in
       read_as t' "enabled" (to_bool c) true (enabled db) ∧
       read_as t' "expose_host_ports" (list_of (to_int c)) [5432%Z] (expose_host_ports db) ∧
       read_as t' "pg_user" (to_str c) "sandbox" (pg_user db) ∧ read_as t' "pg_db" (to_str c) "sandbox_db" (pg_db db) ∧
       read_as t' "image" (to_str c) (registry_pinned "postgres") (db_image db)) ∧
    ∃ t', section_is t "ingress" t' ∧
      read_as t' "web_ports" (list_of (to_int c)) [3000; 8080]%Z (web_ports (components_ingress cfg));
  whitelist_typed : ∃ t t', section_is raw "proxy" t ∧ section_is t "whitelist" t' ∧
    read_as t' "domains" (list_of (to_str c)) [] (domains (proxy_whitelist cfg)) ∧
    read_as t' "read_only_domains" (list_of (to_str c)) [] (read_only_domains (proxy_whitelist cfg))
}.

Ltac unbind H := repeat (apply res_bind_Ok in H as (? & ? & H)).

(** C28: A configuration that is accepted is well typed.  It has a workspace,
    each with its mode and path, and a source that is not empty where it is
    copied; no admin section; the name and the uid are texts of the file; and
    each field of every section is the value of the file, read at the type of
    the field, or the default when it is absent.  The two component toggles are
    the exception: one whose value is no boolean is off, without an error. *)
Theorem from_toml_typed c raw cfg : coercions_ok c → from_toml c raw = Ok cfg →
  ∃ t, raw = Some t ∧ config_ok cfg ∧ typed_as c t cfg.
Proof.
  intros Hc. unfold from_toml. destruct raw as [raw|]; [|done]. intros (f & Hf & H)%res_bind_Ok. exists raw. split; [done|].
  unfold flatten in Hf. apply res_bind_Ok in Hf as (rt & Hrt%get_dict_Ok & (comp & Hcomp%get_dict_Ok & (proxy & Hproxy%get_dict_Ok & [= <-])%res_bind_Ok)%res_bind_Ok).
  unfold model_validate in H. cbn [fl_admin fl_instance fl_workspaces fl_core fl_runtimes fl_node fl_components fl_db fl_ingress fl_whitelist] in H.
  case_bool_decide as Hadm; [done|]. apply eq_None_not_Some in Hadm.
  apply res_bind_Ok in H as (inst & (it & Hit%get_raw_table & Hi)%res_bind_Ok & (ws & (wt & Hwt%get_raw_table & Hw)%res_bind_Ok & H)%res_bind_Ok).
  case_bool_decide as Hne; [done|].
  apply res_bind_Ok in H as (co & (ct & Hct%get_raw_table & Hco)%res_bind_Ok & H).
  apply res_bind_Ok in H as (rtc & Hrtc & H).
  apply res_bind_Ok in H as (node & (nt & Hnt%get_raw_table & Hnode)%res_bind_Ok & H). apply res_bind_Ok in H as (cm & Hcm & H).
  apply res_bind_Ok in H as (db & (dt & Hdt%get_raw_table & Hdb)%res_bind_Ok & H).
  apply res_bind_Ok in H as (ing & (gt & Hgt%get_raw_table & Hing)%res_bind_Ok & H).
  apply res_bind_Ok in H as (wl & (lt & Hlt%get_raw_table & Hwl)%res_bind_Ok & [= <-]).
  pose proof (validate_named_all c wt ws Hc Hw) as Hall. split.
  - split; [done|]. cbn. clear -Hall. induction Hall as [|kv nw t ws [_ (t' & _ & Hok & _)] _ IH]; constructor; done.
  - unfold validate_instance in Hi. unbind Hi. injection Hi as <-.
    unfold validate_core in Hco. unbind Hco. injection Hco as <-.
    unfold validate_runtimes in Hrtc. unbind Hrtc. injection Hrtc as <-.
    unfold validate_node in Hnode. unbind Hnode. injection Hnode as <-.
    unfold validate_ingress in Hing. unbind Hing. injection Hing as <-.
    unfold validate_components in Hcm. unbind Hcm. injection Hcm as <-.
    unfold validate_db in Hdb. unbind Hdb. injection Hdb as <-.
    unfold validate_whitelist in Hwl. unbind Hwl. injection Hwl as <-.
    repeat match goal with
    | E : optional _ _ _ _ = Ok _ |- _ => apply optional_Ok in E
    | E : required _ _ (to_str c) = Ok _ |- _ => apply required_Ok in E as (? & ? & E%(to_str_exact c Hc)); subst
    end.
    split; cbn.
    + exact Hadm.
    + by exists it.
    + exists wt. split_and!; [done| |done]. by intros ->; inversion Hall; subst.
    + by exists ct.
    + exists rt. split_and!; [done|(eapply read_without; [|eassumption]; done)..|by exists nt].
    + exists comp. split_and!; [done|(eapply toggle_read; eassumption)..|by exists dt|by exists gt].
    + by exists proxy, lt.
Qed.

(** C29: What is written is read.  Printing a configuration that has a
    workspace, and a source for each that is copied, as the tables of a
    sandbox.toml and reading it back gives the configuration. *)
Theorem config_roundtrip c cfg : coercions_ok c → config_ok cfg → from_toml c (Some (encode cfg)) = Ok cfg.
Proof.
  intros Hc [Hne Hws]. pose proof (to_str_str c Hc) as Hs.
  pose proof (λ l, list_of_map (to_str c) TStr l (to_str_str c Hc)) as Hls.
  pose proof (λ l, list_of_map (to_int c) TInt l (to_int_int c Hc)) as Hli.
  pose proof (to_int_int c Hc) as Hi. pose proof (to_float_float c Hc) as Hf. pose proof (to_bool_bool c Hc) as Hb.
  pose proof (validate_encoded c Hc (workspaces cfg) Hws) as Hw.
  destruct cfg as [[n u] ws [a1 a2 a3 a4 a5 a6 a7 a8] [b1 b2 b3 b4] [d1 d2] [e1 e2] [f1 f2 f3 f4 f5] [g1] [h1 h2]].
  unfold from_toml, encode. cbn [mbind res_bind]. cbn -[res_map list_of encode_workspace].
  unfold model_validate, validate_instance, validate_core, validate_runtimes, validate_node, validate_db, validate_ingress,
    validate_components, validate_whitelist, optional, required. cbn -[res_map list_of encode_workspace registry_pinned].
  rewrite !Hs. cbn -[res_map list_of encode_workspace registry_pinned]. cbn [workspaces] in Hw. rewrite Hw.
  cbn -[list_of registry_pinned bool_decide]. rewrite bool_decide_false by done. rewrite ?Hs, ?Hi, ?Hf, ?Hb. cbn -[list_of registry_pinned].
  rewrite ?Hs, ?Hi, ?Hf, ?Hb, ?Hls, ?Hli. done.
Qed.

(** ** Concrete conversions and a concrete file *)

(** Pydantic's strict ones, with integers for floats. *)
Definition strict : coercions := MkCoercions
  (λ v, match v with TStr s => Some s | _ => None end) (λ v, match v with TInt n => Some n | _ => None end)
  (λ v, match v with TFloat f => Some f | TInt n => Some (float_of_int n) | _ => None end)
  (λ v, match v with TBool b => Some b | _ => None end).

Lemma strict_ok : coercions_ok strict.
Proof. split; try done. intros v s. destruct v; cbn; split; congruence. Qed.

Definition small_file (more : table) : table :=
  ([("instance", TTable [("name", TStr "web"); ("host_uid", TStr "1000")]);
    ("workspaces", TTable [("main", TTable [("bootstrap_mode", TStr "copy"); ("source", TStr "/src"); ("path", TStr "/w/main")])])] ++ more)%list.

Definition small_config : InstanceConfig :=
  MkInstanceConfig (MkInstanceSection "web" "1000") [("main", MkWorkspaceConfig COPY (Some "/src") "/w/main")]
    (MkCore "2gb" 400 "8gb" (Dec 40 1) (registry_pinned "wolfi_base") "wolfi" "" "") (MkRuntimes true true true false)
    (MkNode "20.12.2" "0.39.7") (MkComponents false false) (MkDb true [5432%Z] "sandbox" "sandbox_db" (registry_pinned "postgres"))
    (MkIngress [3000; 8080]%Z) (MkWhitelist [] []).

Lemma small_file_read : from_toml strict (Some (small_file [])) = Ok small_config.
Proof. vm_compute. reflexivity. Qed.

Lemma from_toml_typed_witness : config_ok small_config ∧ typed_as strict (small_file []) small_config.
Proof.
  destruct (from_toml_typed strict (Some (small_file [])) small_config strict_ok small_file_read) as (t & Ht & Hok & Hty).
  injection Ht as <-. split; [exact Hok|exact Hty].
Defined.

Lemma config_roundtrip_witness : from_toml strict (Some (encode small_config)) = Ok small_config.
Proof.
  apply (config_roundtrip strict small_config strict_ok). split; [discriminate|].
  constructor; [|constructor]. intros _. exists "/src". split; [reflexivity|discriminate].
Defined.

(** ** What the model shows *)

(** A toggle that is no TOML boolean is dropped before the validation. *)
Lemma toggle_dropped v : is_bool_value v = false →
  from_toml strict (Some (small_file [("components", TTable [("mcp_firecrawl", v)])])) = Ok small_config.
Proof. destruct v; intros H; try discriminate H; vm_compute; reflexivity. Qed.

(** A section that is no table is an [AttributeError], not a validation error. *)
Lemma scalar_section_escapes : from_toml strict (Some (small_file [("runtimes", TInt 3)])) = Err AttributeError ∧
  from_toml strict (Some (small_file [("core", TInt 3)])) = Err ValidationError.
Proof. split; vm_compute; reflexivity. Qed.

Lemma legacy_admin_refused t : from_toml strict (Some (small_file [("admin", t)])) = Err ValidationError.
Proof. vm_compute. reflexivity. Qed.

(** ** Docker sizes *)

Example size_2gb : parse_docker_size (inr "2gb") = Ok 2147483648%Z.
Proof. vm_compute. reflexivity. Qed.
Example size_blank_suffix : parse_docker_size (inr " 512 M ") = Ok 536870912%Z.
Proof. vm_compute. reflexivity. Qed.
Example size_fraction : parse_docker_size (inr "1.5gb") = Err ValueError.
Proof. vm_compute. reflexivity. Qed.
