(* ===== verification/Rendering.v ===== *)
(** * core.hydration: the template context, the rendered tree and its dry run

    The template engine and the packaged static files are parameters: what a
    template renders to in a context, and the bytes of a file.  The rendered
    files live on the disk of [Credentials], whose directories exist. *)
From stdpp Require Import sorting.
From S2P Require Import Prelude PyStr HostConfig Ipam Images Json PrivilegeBoundary Credentials Hydration.
From Stdlib Require Import Ascii String.
Open Scope nat_scope.

Abbreviation context := (list (string * JsonValue)).

(** ** The context *)

Definition ADMIN_CPUS : pyfloat := Dec 40 1.

(** The effective limit, and whether it was reduced. *)
Definition clamp_cpus (value : pyfloat) (host_cpus : Z) : pyfloat * bool :=
  if float_gt value host_cpus then (float_of_int host_cpus, true) else (value, false).

Definition cpu_warning (label : string) (configured : pyfloat) (host_cpus : Z) (effective : pyfloat) : string :=
  label +:+ "=" +:+ float_str configured +:+ " exceeds the host's " +:+ str_of_Z host_cpus +:+ " CPUs — clamped to " +:+ float_str effective.

Definition or_default (s d : string) : string := if nonempty s then s else d.

Definition workspace_le (a b : string * WorkspaceConfig) : Prop := String.leb a.1 b.1 = true.
#[export] Instance workspace_le_dec a b : Decision (workspace_le a b).
Proof. unfold workspace_le. apply _. Defined.

Definition workspace_value (nw : string * WorkspaceConfig) : JsonValue :=
  JObj {["name" := JStr nw.1; "path" := JStr (Hydration.ws_path nw.2);
         "bootstrap_mode" := JStr (bootstrap_value (Hydration.bootstrap_mode nw.2));
         "source" := from_option JStr JNull (Hydration.source nw.2)]}.

Definition strs (l : list string) : JsonValue := JList (map JStr l).

Definition CLAUDE_RULES : string := "custom/config/core/CLAUDE.md".

Section build.
(** The host, the text of a file ([None] when absent), the key of the console
    as base64, and the host's count of processors. *)
Context (h : host_env) (read : string → option string) (console_key : string) (host_cpus : Z).

Definition read_optional_file (path : string) : string := from_option rstrip "" (read path).

Definition bridge_extra (host : option HostSettings) : res context :=
  match host with
  | None => Ok []
  | Some s =>
      bridge_gid ← workspace_bridge_gid h s;
      owner ← resolve_daemon_owner_settings h s;
      n ← in_container_gid_for_host_gid h bridge_gid owner;
      Ok [("in_container_workspace_bridge_gid", JInt n)]
  end.

Definition build_jinja_context (config : InstanceConfig) (base_index : Z) (proxy_password instance_dir : string)
    (host : option HostSettings) : res context :=
  subnets ← derive_subnets base_index;
  ips ← derive_static_ips base_index;
  let '(core_cpus, _) := clamp_cpus (cpus (core config)) host_cpus in
  let '(admin_cpus, _) := clamp_cpus ADMIN_CPUS host_cpus in
  extra ← bridge_extra host;
  match subnets with
  | [isolated; core_proxy; dns; egress; ipc] =>
      Ok ([("isolated_subnet", JStr isolated); ("core_proxy_subnet", JStr core_proxy); ("dns_subnet", JStr dns);
           ("egress_subnet", JStr egress); ("ipc_subnet", JStr ipc)] ++
          map (λ kv, (kv.1, JStr kv.2)) ips ++
          [("proxy_password", JStr proxy_password);
           ("proxy_url_core", JStr ("http://proxyuser:" +:+ proxy_password +:+ "@proxy:3128"));
           ("dnsdist_console_key", JStr console_key);
           ("instance_dir", JStr instance_dir);
           ("workspaces", JList (map workspace_value (merge_sort workspace_le (workspaces config))));
           ("custom_config_core", JStr "/home/agent/.sandbox/custom");
           ("instance_name", JStr (name (instance config)));
           ("host_uid", JStr (host_uid (instance config)));
           ("git_user", JStr (or_default (git_user (core config)) "Agent"));
           ("git_email", JStr (or_default (git_email (core config)) "agent@sandbox.local"));
           ("core_base_image", JStr (base_image (core config)));
           ("core_distro_family", JStr (base_distro_family (core config)));
           ("core_pids_limit", JInt (pids_limit (core config)));
           ("core_shm_size", JStr (shm_size (core config)));
           ("core_mem_limit", JStr (mem_limit (core config)));
           ("core_memswap_limit", JStr (mem_limit (core config)));
           ("core_cpus", JStr (float_str core_cpus));
           ("admin_cpus", JStr (float_str admin_cpus));
           ("runtimes", JObj {["python" := JBool (python (runtimes config)); "typescript" := JBool (typescript (runtimes config));
                               "rust" := JBool (rust (runtimes config)); "go" := JBool (go (runtimes config))]});
           ("nvm_version", JStr (nvm_version (runtimes_node config)));
           ("node_version", JStr (version (runtimes_node config)));
           ("runtime", JStr RESERVED_RUNTIME_KEY);
           ("dns_image", JStr (registry_pinned "coredns"));
           ("proxy_image", JStr (registry_pinned "squid"));
           ("dnsdist_image", JStr (registry_pinned "dnsdist"));
           ("busybox_image", JStr (registry_pinned "busybox_musl"));
           ("golang_alpine_image", JStr (registry_pinned "golang_alpine"));
           ("db_postgres_image", JStr (db_image (components_db_postgres config)));
           ("proxy_whitelist_domains", strs (domains (proxy_whitelist config)));
           ("proxy_whitelist_domains_coredns", strs (map (lstrip_char ".") (domains (proxy_whitelist config))));
           ("proxy_whitelist_read_only_domains", strs (read_only_domains (proxy_whitelist config)));
           ("pg_user", JStr (pg_user (components_db_postgres config)));
           ("pg_db", JStr (pg_db (components_db_postgres config)));
           ("db_postgres_enabled", JBool (enabled (components_db_postgres config)));
           ("mcp_firecrawl_enabled", JBool (mcp_firecrawl (components config)));
           ("custom_claude_rules", JStr (read_optional_file (path_join instance_dir CLAUDE_RULES)))] ++ extra)%list
  | _ => Err ValueError
  end.
End build.

(** ** Rendering *)

Definition JINJA_RENDERED_DOCKER : list (string * string) := [("compose.yml", "docker/compose.yml")].
Definition JINJA_RENDERED_CONFIG : list (string * string) :=
  [("coredns/Corefile", "config/coredns/Corefile"); ("dnsdist/dnsdist.conf", "config/dnsdist/dnsdist.conf");
   ("proxy/squid.conf", "config/proxy/squid.conf"); ("core/.gitconfig", "config/core/.gitconfig");
   ("core/.npmrc", "config/core/.npmrc"); ("core/.bashrc", "config/core/.bashrc");
   ("core/CLAUDE.md", "config/core/CLAUDE.md"); ("core/sshd_config", "config/core/sshd_config")].
Definition STATIC_CONFIG_CORE : list string := [].
Definition STATIC_CONFIG_PROXY : list string := ["ERR_SANDBOX_403"].

(** A value of the context as a list of texts, as [context.get(key, [])]. *)
Definition context_strs (ctx : context) (key : string) : list string :=
  match assoc key ctx with
  | Some (JList l) => omap (λ v, match v with JStr s => Some s | _ => None end) l
  | _ => []
  end.
Definition context_str (ctx : context) (key : string) : res string :=
  match assoc key ctx with Some (JStr s) => Ok s | Some _ => Err TypeError | None => Err KeyError end.

Definition lines_of (l : list string) : string := String.concat "" (map (λ d, d +:+ NL) l).

(** The entries of the read-only list that the other list does not have. *)
Definition orphaned_domains (ctx : context) : list string :=
  List.filter (λ d, negb (bool_decide (d ∈ context_strs ctx "proxy_whitelist_domains"))) (context_strs ctx "proxy_whitelist_read_only_domains").

Definition claude_json (ip : option string) : string :=
  match ip with
  | None => "{}" +:+ NL
  | Some ip =>
      join NL ["{"; "  " +:+ DQ +:+ "mcpServers" +:+ DQ +:+ ": {"; "    " +:+ DQ +:+ "firecrawl" +:+ DQ +:+ ": {";
        "      " +:+ DQ +:+ "type" +:+ DQ +:+ ": " +:+ DQ +:+ "http" +:+ DQ +:+ ",";
        "      " +:+ DQ +:+ "url" +:+ DQ +:+ ": " +:+ DQ +:+ "http://" +:+ ip +:+ ":3000/mcp" +:+ DQ;
        "    }"; "  }"; "}"] +:+ NL
  end.

Section render.
(** The user that runs, the engine (its result or its exception) and the bytes
    of the packaged files. *)
Context (u : Z) (render : string → context → res string) (static : string → option string).
Context (ctx : context) (instance_dir : string) (db_postgres mcp_firecrawl : bool).

Definition render_file (template_rel output_rel : string) : eff files unit :=
  rendered ← lift_res (render template_rel ctx);
  write_restricted u (path_join instance_dir output_rel) rendered RESTRICTIVE_RO_MODE.

Definition copy_file (src_rel dst_rel : string) : eff files unit :=
  data ← lift_res (from_option Ok (Err FileNotFoundError) (static src_rel));
  write_restricted u (path_join instance_dir dst_rel) data RESTRICTIVE_RO_MODE.

Definition write_text (output_rel text : string) : eff files unit :=
  write_restricted u (path_join instance_dir output_rel) text RESTRICTIVE_RO_MODE.

Fixpoint each {A} (f : A → eff files unit) (l : list A) : eff files unit :=
  match l with [] => mret tt | x :: l => _ ← f x; each f l end.

Definition render_templates : eff files unit :=
  _ ← each (λ st, render_file ("docker/" +:+ st.1) st.2) JINJA_RENDERED_DOCKER;
  _ ← each (λ st, render_file ("config/" +:+ st.1) st.2) JINJA_RENDERED_CONFIG;
  core_family ← lift_res (context_str ctx "core_distro_family");
  _ ← render_file ("docker/core/Dockerfile.core." +:+ core_family) "docker/core/Dockerfile.core";
  _ ← copy_file "docker/admin/Dockerfile.admin" "docker/admin/Dockerfile.admin";
  _ ← copy_file "docker/admin/fwd.go" "docker/admin/fwd.go";
  _ ← copy_file "docker/core/entrypoint.sh" "docker/core/entrypoint.sh";
  _ ← copy_file "docker/coredns/Dockerfile.coredns" "docker/coredns/Dockerfile.coredns";
  _ ← (if db_postgres then render_file "docker/extras/db-postgres.yml" "docker/extras/db-postgres.yml" else mret tt);
  _ ← (if mcp_firecrawl then
         _ ← render_file "docker/extras/mcp-firecrawl.yml" "docker/extras/mcp-firecrawl.yml";
         copy_file "docker/extras/Dockerfile.mcp-firecrawl" "docker/extras/Dockerfile.mcp-firecrawl"
       else mret tt);
  _ ← write_text "config/proxy/allowed_domains.txt" (lines_of (context_strs ctx "proxy_whitelist_domains"));
  _ ← write_text "config/proxy/read_only_domains.txt" (lines_of (context_strs ctx "proxy_whitelist_read_only_domains"));
  _ ← each (λ f, copy_file ("config/proxy/" +:+ f) ("config/proxy/" +:+ f)) STATIC_CONFIG_PROXY;
  ip ← lift_res (if mcp_firecrawl then (ip ← context_str ctx "firecrawl_isolated_ip"; Ok (Some ip)) else Ok None);
  write_text "config/core/.claude.json" (claude_json ip).

(** ** The dry run *)

Definition template_list : list string :=
  (map (λ st, "docker/" +:+ st.1) JINJA_RENDERED_DOCKER ++ map (λ st, "config/" +:+ st.1) JINJA_RENDERED_CONFIG ++
   ["docker/core/Dockerfile.core." +:+ match context_str ctx "core_distro_family" with Ok s => s | Err _ => "wolfi" end] ++
   (if db_postgres then ["docker/extras/db-postgres.yml"] else []) ++
   (if mcp_firecrawl then ["docker/extras/mcp-firecrawl.yml"] else []))%list.

Definition static_list : list string :=
  (map (λ f, "config/proxy/" +:+ f) STATIC_CONFIG_PROXY ++ map (λ f, "config/core/" +:+ f) STATIC_CONFIG_CORE ++
   ["docker/core/entrypoint.sh"; "docker/admin/Dockerfile.admin"; "docker/admin/fwd.go"; "docker/coredns/Dockerfile.coredns"] ++
   (if mcp_firecrawl then ["docker/extras/Dockerfile.mcp-firecrawl"] else []))%list.

(** The count and the errors; another exception of the engine escapes. *)
Fixpoint validate_loop (templates : list string) (validated : nat) (errors : list string) : res (nat * list string) :=
  match templates with
  | [] => Ok (validated, errors)
  | template_rel :: templates =>
      match render template_rel ctx with
      | Ok _ => validate_loop templates (S validated) errors
      | Err TemplateNotFound => validate_loop templates validated (errors ++ ["Template not found: " +:+ template_rel])%list
      | Err (TemplateSyntaxError e) =>
          validate_loop templates validated (errors ++ ["Syntax error in " +:+ template_rel +:+ ": " +:+ e])%list
      | Err (UndefinedError e) =>
          validate_loop templates validated (errors ++ ["Undefined variable in " +:+ template_rel +:+ ": " +:+ e])%list
      | Err e => Err e
      end
  end.

Fixpoint static_loop (paths : list string) (validated : nat) (errors : list string) : nat * list string :=
  match paths with
  | [] => (validated, errors)
  | rel_path :: paths =>
      match static rel_path with
      | Some _ => static_loop paths (S validated) errors
      | None => static_loop paths validated (errors ++ ["Static file missing: " +:+ rel_path])%list
      end
  end.

Definition validate_templates : res (nat * list string) :=
  '(validated, errors) ← validate_loop template_list 0 [];
  Ok (static_loop static_list validated errors).
End render.

(** ** Lemmas *)

(** Programs that do the same from every state. *)
Definition same {S A} (m m' : eff S A) : Prop := ∀ s, m s = m' s.

Section outputs.
Context (u : Z) (render : string → context → res string) (static : string → option string).
Context (ctx : context) (instance_dir : string) (db_postgres mcp_firecrawl : bool) (core_family ip : string).

Definition from_template (rel : string) : res string := render rel ctx.
Definition from_static (rel : string) : res string := from_option Ok (Err FileNotFoundError) (static rel).

(** The outputs in order, each with its text. *)
Definition outputs : list (string * res string) :=
  (map (λ st, (st.2, from_template ("docker/" +:+ st.1))) JINJA_RENDERED_DOCKER ++
   map (λ st, (st.2, from_template ("config/" +:+ st.1))) JINJA_RENDERED_CONFIG ++
   [("docker/core/Dockerfile.core", from_template ("docker/core/Dockerfile.core." +:+ core_family))] ++
   [("docker/admin/Dockerfile.admin", from_static "docker/admin/Dockerfile.admin")] ++
   [("docker/admin/fwd.go", from_static "docker/admin/fwd.go")] ++
   [("docker/core/entrypoint.sh", from_static "docker/core/entrypoint.sh")] ++
   [("docker/coredns/Dockerfile.coredns", from_static "docker/coredns/Dockerfile.coredns")] ++
   (if db_postgres then [("docker/extras/db-postgres.yml", from_template "docker/extras/db-postgres.yml")] else []) ++
   (if mcp_firecrawl then [("docker/extras/mcp-firecrawl.yml", from_template "docker/extras/mcp-firecrawl.yml");
       ("docker/extras/Dockerfile.mcp-firecrawl", from_static "docker/extras/Dockerfile.mcp-firecrawl")] else []) ++
   [("config/proxy/allowed_domains.txt", Ok (lines_of (context_strs ctx "proxy_whitelist_domains")))] ++
   [("config/proxy/read_only_domains.txt", Ok (lines_of (context_strs ctx "proxy_whitelist_read_only_domains")))] ++
   map (λ f, ("config/proxy/" +:+ f, from_static ("config/proxy/" +:+ f))) STATIC_CONFIG_PROXY ++
   [("config/core/.claude.json", Ok (claude_json (if mcp_firecrawl then Some ip else None)))])%list.

Definition write_output (o : string * res string) : eff files unit :=
  text ← lift_res o.2; write_text u instance_dir o.1 text.

Lemma same_each_app (m k : eff files unit) l1 l2 : same m (each write_output l1) → same k (each write_output l2) →
  same (_ ← m; k) (each write_output (l1 ++ l2)).
Proof.
  intros Hm Hk s. unfold mbind, eff_bind. rewrite Hm. clear Hm. revert s; induction l1 as [|o l1 IH]; intros s; [by apply Hk|].
  cbn [each app]. unfold mbind, eff_bind. destruct (write_output o s) as [[[]|e] s']; [apply IH|done].
Qed.

Lemma same_one o m : same m (write_output o) → same m (each write_output [o]).
Proof. intros Hm s. rewrite Hm. cbn [each]. unfold mbind, eff_bind. by destruct (write_output o s) as [[[]|e] s']. Qed.

Lemma same_map {A} (f : A → eff files unit) (g : A → string * res string) l :
  (∀ x, same (f x) (write_output (g x))) → same (each f l) (each write_output (map g l)).
Proof.
  intros Hf s. revert s; induction l as [|x l IH]; intros s; [done|]. cbn [each map]. unfold mbind, eff_bind.
  rewrite Hf. destruct (write_output (g x) s) as [[[]|e] s']; [apply IH|done].
Qed.

Lemma render_templates_outputs : context_str ctx "core_distro_family" = Ok core_family →
  (mcp_firecrawl = true → context_str ctx "firecrawl_isolated_ip" = Ok ip) →
  same (render_templates u render static ctx instance_dir db_postgres mcp_firecrawl) (each write_output outputs).
Proof.
  intros Hf Hi. unfold render_templates, outputs.
  apply same_each_app; [by apply same_map|]. apply same_each_app; [by apply same_map|].
  intros s. unfold mbind at 1, eff_bind at 1, lift_res at 1. rewrite Hf. revert s.
  do 5 (apply same_each_app; [by apply same_one|]).
  apply same_each_app; [destruct db_postgres; [by apply same_one|done]|].
  apply same_each_app.
  { destruct mcp_firecrawl; [|done]. apply (same_each_app _ _ [_] [_]); by apply same_one. }
  do 2 (apply same_each_app; [by apply same_one|]).
  apply same_each_app; [by apply same_map|].
  intros s. unfold mbind at 1, eff_bind at 1, lift_res at 1. destruct mcp_firecrawl.
  - rewrite Hi by done. cbn [mbind res_bind]. revert s. by apply same_one.
  - revert s. by apply same_one.
Qed.
End outputs.

Section writes.
Context (u : Z) (dir : string).

Definition writable (fs : files) (rel : string) : Prop := ∀ f, fs !! path_join dir rel = Some f → f_owner f = u.

Lemma write_output_ok o text fs : o.2 = Ok text → writable fs o.1 →
  write_output u dir o fs = (Ok tt, <[path_join dir o.1 := Credentials.MkFile text RESTRICTIVE_RO_MODE u]> fs).
Proof.
  intros Ho Hw. unfold write_output, write_text, mbind, eff_bind, lift_res, write_restricted. rewrite Ho.
  destruct (fs !! path_join dir o.1) as [f|] eqn:Ef; [|done]. rewrite (Hw f Ef), Z.eqb_refl. done.
Qed.

Lemma path_join_rel_inj a b : startswith "/" a = false → startswith "/" b = false → path_join dir a = path_join dir b → a = b.
Proof. intros Ha Hb. rewrite !path_join_prefix by done. apply app_inv_l_str. Qed.

Lemma each_writes l fs : Forall (λ o, ∃ text, o.2 = Ok text) l → NoDup (map fst l) →
  Forall (λ o, startswith "/" o.1 = false ∧ writable fs o.1) l →
  ∃ fs', each (write_output u dir) l fs = (Ok tt, fs') ∧
    (∀ rel text, (rel, Ok text) ∈ l → fs' !! path_join dir rel = Some (Credentials.MkFile text RESTRICTIVE_RO_MODE u)) ∧
    (∀ q, (∀ o, o ∈ l → q ≠ path_join dir o.1) → fs' !! q = fs !! q).
Proof.
  revert fs; induction l as [|[rel r] l IH]; intros fs Hok Hnd Hw.
  { exists fs. split_and!; [done|by intros ?? ?%elem_of_nil|done]. }
  apply Forall_cons in Hok as [[text Htext] Hok], Hw as [[Hrel Hw1] Hw]. cbn in Htext; subst r. cbn [map fst] in Hnd.
  apply NoDup_cons in Hnd as [Hn Hnd].
  set (fs1 := <[path_join dir rel := Credentials.MkFile text RESTRICTIVE_RO_MODE u]> fs).
  destruct (IH fs1) as (fs' & He & Hin & Hout); [done|done| |].
  { eapply Forall_impl; [exact Hw|]. intros [rel' r'] [Hr' Hw']. split; [done|]. intros f. unfold fs1. cbn.
    destruct (decide (path_join dir rel = path_join dir rel')) as [<-|Hne]; [rewrite lookup_insert_eq; by intros [= <-]|].
    rewrite lookup_insert_ne by done. apply Hw'. }
  exists fs'. split_and!.
  - cbn [each]. unfold mbind, eff_bind. by rewrite (write_output_ok (rel, Ok text) text fs).
  - intros rel' text' [[= -> ->]|Hl]%elem_of_cons; [|by apply Hin]. rewrite Hout; [unfold fs1; by rewrite lookup_insert_eq|].
    intros [rel2 r2] Ho Heq. cbn in Heq. apply Hn, list_elem_of_fmap. exists (rel2, r2). split; [|done]. cbn.
    rewrite Forall_forall in Hw. apply (path_join_rel_inj rel rel2); [done|by apply (Hw _ Ho)|done].
  - intros q Hq. rewrite Hout; [|intros o Ho; apply Hq; by right]. unfold fs1. rewrite lookup_insert_ne; [done|].
    intros Heq. by apply (Hq (rel, Ok text)); [left|].
Qed.

Lemma each_writes_all l fs fs' : each (write_output u dir) l fs = (Ok tt, fs') → Forall (λ o, ∃ text, o.2 = Ok text) l.
Proof.
  revert fs; induction l as [|o l IH]; intros fs; [constructor|]. cbn [each]. intros (?&fs1&H1&H2)%eff_bind_Ok.
  constructor; [|by eapply IH]. unfold write_output in H1. apply eff_bind_Ok in H1 as (text & ? & Ht & _).
  unfold lift_res in Ht. injection Ht as Ht _. eauto.
Qed.
End writes.

Section validation.
Context (render : string → context → res string) (static : string → option string) (ctx : context).

Definition renders (rel : string) : Prop := ∃ text, render rel ctx = Ok text.
Definition packaged (rel : string) : Prop := ∃ text, static rel = Some text.

Lemma validate_loop_grows l n es m es' : validate_loop render ctx l n es = Ok (m, es') → ∃ x, es' = (es ++ x)%list.
Proof.
  revert n es; induction l as [|t l IH]; intros n es; cbn [validate_loop].
  - intros [= _ <-]. exists []. by rewrite app_nil_r.
  - destruct (render t ctx) as [x|[]]; try done; intros H; apply IH in H as [y ->]; rewrite <- ?app_assoc; eauto.
Qed.

Lemma validate_loop_clean l n es m : validate_loop render ctx l n es = Ok (m, []) ↔
  es = [] ∧ m = n + List.length l ∧ Forall renders l.
Proof.
  revert n es; induction l as [|t l IH]; intros n es; cbn [validate_loop].
  - split; [intros [= <- ->]; split_and!; [done|cbn; lia|constructor]|intros (-> & -> & _); f_equal; f_equal; cbn; lia].
  - rewrite Forall_cons. unfold renders at 1. destruct (render t ctx) as [x|e] eqn:E.
    + rewrite IH. cbn [List.length]. split; [intros (? & ? & ?)|intros (? & ? & _ & ?)]; split_and!; try done; try lia. by exists x.
    + split; [|by intros (_ & _ & (? & [=]) & _)]. intros H.
      destruct e; try done; apply validate_loop_grows in H as [y Hy]; by destruct es.
Qed.

Lemma static_loop_clean l n es m : static_loop static l n es = (m, []) ↔ es = [] ∧ m = n + List.length l ∧ Forall packaged l.
Proof.
  assert (Hgrow : ∀ l n es m es', static_loop static l n es = (m, es') → ∃ x, es' = (es ++ x)%list).
  { clear. induction l as [|t l IH]; intros n es m es'; cbn [static_loop].
    - intros [= _ <-]. exists []. by rewrite app_nil_r.
    - destruct (static t); intros H; apply IH in H as [y ->]; rewrite <- ?app_assoc; eauto. }
  revert n es; induction l as [|t l IH]; intros n es; cbn [static_loop].
  - split; [intros [= <- ->]; split_and!; [done|cbn; lia|constructor]|intros (-> & -> & _); f_equal; cbn; lia].
  - rewrite Forall_cons. unfold packaged at 1. destruct (static t) as [x|] eqn:E.
    + rewrite IH. cbn [List.length]. split; [intros (? & ? & ?)|intros (? & ? & _ & ?)]; split_and!; try done; try lia. by exists x.
    + split; [|by intros (_ & _ & (? & [=]) & _)]. intros H. apply Hgrow in H as [y Hy]. by destruct es.
Qed.
End validation.

(** ** The context that the code builds *)

Lemma build_context_inv h read key cpus cfg base pw dir host ctx :
  build_jinja_context h read key cpus cfg base pw dir host = Ok ctx →
  context_str ctx "core_distro_family" = Ok (base_distro_family (core cfg)) ∧
  (∃ ip, context_str ctx "firecrawl_isolated_ip" = Ok ip) ∧
  context_str ctx "core_cpus" = Ok (float_str (clamp_cpus (Hydration.cpus (core cfg)) cpus).1) ∧
  context_str ctx "admin_cpus" = Ok (float_str (clamp_cpus ADMIN_CPUS cpus).1).
Proof.
  unfold build_jinja_context. intros (subnets & [Hb ->]%derive_subnets_Ok & (ips & [_ ->]%derive_static_ips_Ok & H)%res_bind_Ok)%res_bind_Ok.
  destruct (clamp_cpus (Hydration.cpus (core cfg)) cpus) as [c1 b1], (clamp_cpus ADMIN_CPUS cpus) as [c2 b2].
  apply res_bind_Ok in H as (extra & _ & H). cbn [map] in H. injection H as <-.
  unfold context_str. split_and!; [reflexivity|eexists; reflexivity|reflexivity|reflexivity].
Qed.

Definition text_of (ctx : context) (key : string) : string := match context_str ctx key with Ok s => s | Err _ => "" end.

(** The files of the rendered tree, each with its source's text. *)
Definition rendered_tree (render : string → context → res string) (static : string → option string) (ctx : context)
    (db_postgres mcp_firecrawl : bool) : list (string * res string) :=
  outputs render static ctx db_postgres mcp_firecrawl (text_of ctx "core_distro_family") (text_of ctx "firecrawl_isolated_ip").

Lemma tree_paths render static ctx db mcp : NoDup (map fst (rendered_tree render static ctx db mcp)) ∧
  Forall (λ o, startswith "/" o.1 = false) (rendered_tree render static ctx db mcp).
Proof.
  unfold rendered_tree. generalize (text_of ctx "core_distro_family"), (text_of ctx "firecrawl_isolated_ip"). intros family ip.
  split.
  - destruct db, mcp; apply (bool_decide_unpack _); vm_compute; exact I.
  - destruct db, mcp; repeat constructor.
Qed.

(** Split a fact of every element of a literal list. *)
Ltac forall_facts :=
  repeat match goal with
  | H : Forall _ (_ :: _) |- _ =>
      let Hx := fresh "Hx" in let Hl := fresh "Hl" in
      pose proof (Forall_inv H) as Hx; pose proof (Forall_inv_tail H) as Hl; clear H
  end.

Lemma tree_sources render static ctx db mcp : is_ok (context_str ctx "core_distro_family") = true →
  Forall (λ o, ∃ text, o.2 = Ok text) (rendered_tree render static ctx db mcp) ↔
  Forall (renders render ctx) (template_list ctx db mcp) ∧ Forall (packaged static) (static_list mcp).
Proof.
  intros Hf. unfold rendered_tree, template_list, text_of.
  destruct (context_str ctx "core_distro_family") as [family|]; [|done]. clear Hf.
  assert (Hp : ∀ rel, (∃ text, from_static static rel = Ok text) ↔ packaged static rel).
  { intros rel. unfold from_static, packaged. destruct (static rel); cbn; split; intros [? [=]]; eauto. }
  assert (Hr : ∀ rel, (∃ text, from_template render ctx rel = Ok text) ↔ renders render ctx rel) by done.
  unfold outputs, static_list.
  destruct db, mcp; cbn [map app fst snd JINJA_RENDERED_DOCKER JINJA_RENDERED_CONFIG STATIC_CONFIG_PROXY STATIC_CONFIG_CORE];
    (split; [intros H; forall_facts; split|intros [HT HS]; forall_facts]); repeat apply Forall_cons_2; try apply Forall_nil_2; cbn [snd] in *;
    first [by eexists|by apply Hr|by apply Hp].
Qed.

(** ** Properties *)

(** C30: The dry run agrees with the rendering.  For the context the code
    builds, and outputs that are absent or the user's own, the dry run reports
    no error exactly when the rendering goes through; it then has checked each
    template and static file once, every output holds the text of its source at
    mode 0640, and no other file is touched. *)
Theorem dry_run_agrees u render static h read key cpus cfg base pw dir host ctx db mcp fs :
  build_jinja_context h read key cpus cfg base pw dir host = Ok ctx →
  let tree := rendered_tree render static ctx db mcp in
  Forall (λ o, writable u dir fs o.1) tree →
  ((∃ n, validate_templates render static ctx db mcp = Ok (n, [])) ↔
   ∃ fs', render_templates u render static ctx dir db mcp fs = (Ok tt, fs')) ∧
  (∀ n, validate_templates render static ctx db mcp = Ok (n, []) →
   n = List.length (template_list ctx db mcp) + List.length (static_list mcp) ∧
   ∃ fs', render_templates u render static ctx dir db mcp fs = (Ok tt, fs') ∧
     (∀ rel text, (rel, Ok text) ∈ tree → fs' !! path_join dir rel = Some (Credentials.MkFile text RESTRICTIVE_RO_MODE u)) ∧
     (∀ q, (∀ o, o ∈ tree → q ≠ path_join dir o.1) → fs' !! q = fs !! q)).
Proof.
  intros Hb tree Hw. destruct (build_context_inv _ _ _ _ _ _ _ _ _ _ Hb) as (Hf & (ip & Hip) & _).
  assert (Hr : same (render_templates u render static ctx dir db mcp) (each (write_output u dir) tree)).
  { unfold tree, rendered_tree, text_of. rewrite Hf, Hip. by apply render_templates_outputs. }
  destruct (tree_paths render static ctx db mcp) as [Hnd Hrel].
  assert (Hsrc : Forall (λ o, ∃ text, o.2 = Ok text) tree ↔ Forall (renders render ctx) (template_list ctx db mcp) ∧ Forall (packaged static) (static_list mcp))
    by (apply tree_sources; by rewrite Hf).
  assert (Hv : ∀ n, validate_templates render static ctx db mcp = Ok (n, []) ↔
    n = List.length (template_list ctx db mcp) + List.length (static_list mcp) ∧ Forall (λ o, ∃ text, o.2 = Ok text) tree).
  { intros n. unfold validate_templates. rewrite Hsrc. split.
    - intros ([m es] & Hl & Hs)%res_bind_Ok.
      assert (Hs' : static_loop static (static_list mcp) m es = (n, [])) by congruence.
      apply static_loop_clean in Hs' as (-> & -> & ?).
      apply validate_loop_clean in Hl as (_ & -> & ?). split; [lia|done].
    - intros [-> [? ?]]. rewrite (proj2 (validate_loop_clean render ctx _ 0 [] _)) by (split_and!; done).
      cbn [mbind res_bind]. by rewrite (proj2 (static_loop_clean static _ _ [] _)) by (split_and!; done). }
  assert (Hgo : Forall (λ o, ∃ text, o.2 = Ok text) tree → ∃ fs', render_templates u render static ctx dir db mcp fs = (Ok tt, fs') ∧
     (∀ rel text, (rel, Ok text) ∈ tree → fs' !! path_join dir rel = Some (Credentials.MkFile text RESTRICTIVE_RO_MODE u)) ∧
     (∀ q, (∀ o, o ∈ tree → q ≠ path_join dir o.1) → fs' !! q = fs !! q)).
  { intros Hok. destruct (each_writes u dir tree fs) as (fs' & He & H); [done|done| |exists fs'; by rewrite Hr].
    apply Forall_and. by split. }
  split; [split|].
  - intros [n [_ Hok]%Hv]. destruct (Hgo Hok) as (fs' & ? & _). by exists fs'.
  - intros [fs' He]. rewrite Hr in He. apply each_writes_all in He. eexists. apply Hv. by split.
  - intros n [Hn Hok]%Hv. split; [done|]. by apply Hgo.
Qed.

Lemma clamp_fits value host_cpus : float_gt (clamp_cpus value host_cpus).1 host_cpus = false ∧
  (float_gt value host_cpus = false → (clamp_cpus value host_cpus).1 = value) ∧
  (clamp_cpus value host_cpus).2 = float_gt value host_cpus.
Proof.
  unfold clamp_cpus. destruct (float_gt value host_cpus) eqn:E; cbn [fst snd]; [|done]. split_and!; [|done|done].
  cbn. rewrite Z.mul_1_r. apply Z.ltb_irrefl.
Qed.

(** No limit exceeds the host.  The limits of processors in the context
    are the texts of numbers that are not above the count of the host; a
    configured number that already fits is kept as it is, and the count itself
    is at least one. *)
Theorem cpu_limits_fit h read key cpu_count affinity cfg base pw dir host ctx :
  let host_cpus := host_cpu_count cpu_count affinity in
  build_jinja_context h read key host_cpus cfg base pw dir host = Ok ctx →
  (1 <= host_cpus)%Z ∧ ∃ f g, context_str ctx "core_cpus" = Ok (float_str f) ∧ context_str ctx "admin_cpus" = Ok (float_str g) ∧
    float_gt f host_cpus = false ∧ float_gt g host_cpus = false ∧
    (float_gt (Hydration.cpus (core cfg)) host_cpus = false → f = Hydration.cpus (core cfg)) ∧
    (float_gt ADMIN_CPUS host_cpus = false → g = ADMIN_CPUS).
Proof.
  intros n Hb. split; [unfold n, host_cpu_count; lia|].
  destruct (build_context_inv _ _ _ _ _ _ _ _ _ _ Hb) as (_ & _ & Hc & Ha).
  eexists _, _. split; [exact Hc|]. split; [exact Ha|].
  destruct (clamp_fits (Hydration.cpus (core cfg)) n) as (? & ? & _), (clamp_fits ADMIN_CPUS n) as (? & ? & _). done.
Qed.

(** The compose files that the dispatcher names are rendered. *)
Lemma compose_files_rendered render static ctx db mcp dir rel :
  rel ∈ ([path_join3 dir "docker" "compose.yml"] ++
         (if db : bool then [path_join (path_join3 dir "docker" "extras") "db-postgres.yml"] else []) ++
         (if mcp : bool then [path_join (path_join3 dir "docker" "extras") "mcp-firecrawl.yml"] else []))%list →
  ∃ o, o ∈ rendered_tree render static ctx db mcp ∧ rel = path_join dir o.1.
Proof.
  assert (H : ∀ a b c, startswith "/" b = false → b ≠ "" → endswith "/" b = false → startswith "/" c = false →
    path_join (path_join a b) c = path_join a (b +:+ "/" +:+ c)).
  { intros a b c Hb Hn He Hc. rewrite path_join_inst by done. unfold inst_file. rewrite path_join_prefix; [done|].
    by destruct b. }
  assert (Hin : ∀ r text, (r, text) ∈ rendered_tree render static ctx db mcp → ∃ o, o ∈ rendered_tree render static ctx db mcp ∧ path_join dir r = path_join dir o.1).
  { intros r text Ho. by exists (r, text). }
  unfold path_join3. rewrite !(H dir "docker") by done. rewrite !(H dir "docker/extras") by done.
  intros [->%list_elem_of_singleton|[Hd|Hm]%elem_of_app]%elem_of_app.
  - eapply Hin. unfold rendered_tree, outputs. left.
  - destruct db; [|by apply elem_of_nil in Hd]. apply list_elem_of_singleton in Hd as ->. eapply Hin.
    unfold rendered_tree, outputs. cbn. do 14 right. left.
  - destruct mcp; [|by apply elem_of_nil in Hm]. apply list_elem_of_singleton in Hm as ->. eapply Hin.
    unfold rendered_tree, outputs. destruct db; cbn; [do 15 right|do 14 right]; left.
Qed.

(** ** A concrete engine *)

Definition echo_engine (rel : string) (ctx : context) : res string := Ok rel.
Definition no_bridge_host : host_env := HostEnv (λ _, None) (λ _, None) [] None None "ann" "/home/ann".

Definition small_context : context := Eval vm_compute in
  match build_jinja_context no_bridge_host (λ _, None) "key" 2 small_config 0 "pw" "/i" None with Ok ctx => ctx | Err _ => [] end.

Lemma small_context_built : build_jinja_context no_bridge_host (λ _, None) "key" 2 small_config 0 "pw" "/i" None = Ok small_context.
Proof. vm_compute. reflexivity. Qed.

Lemma dry_run_agrees_witness : ∃ n fs', n = 18 ∧
  validate_templates echo_engine (λ rel, Some rel) small_context true true = Ok (n, []) ∧
  render_templates 1000 echo_engine (λ rel, Some rel) small_context "/i" true true ∅ = (Ok tt, fs').
Proof.
  destruct (dry_run_agrees 1000 echo_engine (λ rel, Some rel) no_bridge_host (λ _, None) "key" 2 small_config 0 "pw" "/i" None
    small_context true true ∅ small_context_built) as [_ H].
  - apply Forall_forall. intros o _ f Hf. rewrite lookup_empty in Hf. discriminate Hf.
  - destruct (H 18) as (_ & fs' & Hr & _); [vm_compute; reflexivity|]. exists 18, fs'. split; [reflexivity|]. split; [vm_compute; reflexivity|exact Hr].
Defined.

Lemma cpu_limits_fit_witness : ∃ f, context_str small_context "core_cpus" = Ok (float_str f) ∧ float_gt f 2 = false ∧ float_str f = "2.0".
Proof.
  destruct (cpu_limits_fit no_bridge_host (λ _, None) "key" (Some 2%Z) 1 small_config 0 "pw" "/i" None small_context small_context_built)
    as (_ & f & g & Hf & _ & Hle & _).
  exists f. split; [exact Hf|]. split; [exact Hle|]. vm_compute in Hf. injection Hf as Hf. symmetry. exact Hf.
Defined.

(** ** What the model shows *)

(** A limit that is no number, or not positive, passes the clamp. *)
Lemma clamp_passes_nan host_cpus : clamp_cpus NaN host_cpus = (NaN, false) ∧ float_str NaN = "nan" ∧
  ((0 <= host_cpus)%Z → clamp_cpus (Dec (-10) 1) host_cpus = (Dec (-10) 1, false)) ∧ float_str (Dec (-10) 1) = "-1.0".
Proof.
  split; [done|]. split; [done|]. split; [|vm_compute; reflexivity]. intros H. unfold clamp_cpus, float_gt.
  destruct (Z.ltb_spec (host_cpus * 10 ^ Z.of_nat 1) (-10)); [lia|done].
Qed.
