(* ===== verification/Base64.v ===== *)
(** * base64, and the bytes that cross as text

    [base64.b64encode] and [base64.b64decode] of the language's library, as
    core/dispatch.py uses them: strings of bytes on one side, the text of the
    alphabet on the other.  The decoder is the lenient one: it skips what is not
    of the alphabet and stops at a complete padding. *)
From S2P Require Import Prelude PyStr.
From Stdlib Require Import Ascii String ZifyN.
Open Scope N_scope.

(** The characters of the alphabet, by their value below 64. *)
Definition b64_char (n : N) : ascii :=
  ascii_of_N (if n <? 26 then 65 + n else if n <? 52 then 71 + n else if n <? 62 then n - 4
              else if n =? 62 then 43 else 47).

Definition b64_value (c : ascii) : option N :=
  let n := N_of_ascii c in
  if (65 <=? n) && (n <=? 90) then Some (n - 65) else if (97 <=? n) && (n <=? 122) then Some (n - 71)
  else if (48 <=? n) && (n <=? 57) then Some (n + 4) else if n =? 43 then Some 62 else if n =? 47 then Some 63
  else None.

Definition PAD : ascii := "="%char.

Fixpoint b64encode (s : string) : string :=
  match s with
  | "" => ""
  | String a "" =>
      let a := N_of_ascii a in
      String (b64_char (a / 4)) (String (b64_char (a mod 4 * 16)) (String PAD (String PAD "")))
  | String a (String b "") =>
      let a := N_of_ascii a in let b := N_of_ascii b in
      String (b64_char (a / 4)) (String (b64_char (a mod 4 * 16 + b / 16))
        (String (b64_char (b mod 16 * 4)) (String PAD "")))
  | String a (String b (String c s)) =>
      let a := N_of_ascii a in let b := N_of_ascii b in let c := N_of_ascii c in
      String (b64_char (a / 4)) (String (b64_char (a mod 4 * 16 + b / 16))
        (String (b64_char (b mod 16 * 4 + c / 64)) (String (b64_char (c mod 64)) (b64encode s))))
  end%string.

(** A byte before the rest, if the rest decodes. *)
Definition emit (c : ascii) (r : res string) : res string :=
  match r with Ok s => Ok (String c s) | Err e => Err e end.

(** The decoder's state: the place in the group of four, the bits left over and
    the padding seen.  [binascii.Error] is a [ValueError]. *)
Fixpoint b64_read (quad left pads : N) (s : string) : res string :=
  match s with
  | ""%string => if quad =? 0 then Ok ""%string else Err ValueError
  | String c s =>
      if Ascii.eqb c PAD then
        if 2 <=? quad then if 4 <=? quad + (pads + 1) then Ok ""%string else b64_read quad left (pads + 1) s
        else b64_read quad left pads s
      else match b64_value c with
           | None => b64_read quad left pads s
           | Some v =>
               if quad =? 0 then b64_read 1 v 0 s
               else if quad =? 1 then emit (ascii_of_N (left * 4 + v / 16)) (b64_read 2 (v mod 16) 0 s)
               else if quad =? 2 then emit (ascii_of_N (left * 16 + v / 4)) (b64_read 3 (v mod 4) 0 s)
               else emit (ascii_of_N (left * 64 + v)) (b64_read 0 0 0 s)
           end
  end.

Definition b64decode (s : string) : res string := b64_read 0 0 0 s.

(** ** The round trip *)

Definition below_64 : list N := Eval vm_compute in map N.of_nat (seq 0 64).

Lemma below_64_spec n : n < 64 → n ∈ below_64.
Proof.
  intros H. change (n ∈ map N.of_nat (seq 0 64)). apply list_elem_of_fmap. exists (N.to_nat n).
  split; [lia|]. apply elem_of_seq. lia.
Qed.

(** A property of every value below 64, checked on each. *)
Lemma forall_64 (P : N → bool) n : forallb P below_64 = true → n < 64 → P n = true.
Proof. rewrite forallb_forall. intros H Hn. apply H, list_elem_of_In, below_64_spec, Hn. Qed.

Lemma b64_value_char n : n < 64 → b64_value (b64_char n) = Some n.
Proof.
  intros Hn. refine (bool_decide_eq_true_1 _ (forall_64 (λ n, bool_decide (b64_value (b64_char n) = Some n)) n _ Hn)).
  vm_compute. reflexivity.
Qed.

(** Characters that a single-quoted word of the shell holds as they are. *)
Definition b64_safe (c : ascii) : bool := match b64_value c with Some _ => true | None => Ascii.eqb c PAD end.

Lemma b64_char_not_pad n : n < 64 → Ascii.eqb (b64_char n) PAD = false.
Proof. intros Hn. apply negb_true_iff, (forall_64 (λ n, negb (Ascii.eqb (b64_char n) PAD))); [vm_compute; reflexivity|done]. Qed.

Lemma b64_read_char n quad left pads s : n < 64 →
  b64_read quad left pads (String (b64_char n) s) =
    if quad =? 0 then b64_read 1 n 0 s
    else if quad =? 1 then emit (ascii_of_N (left * 4 + n / 16)) (b64_read 2 (n mod 16) 0 s)
    else if quad =? 2 then emit (ascii_of_N (left * 16 + n / 4)) (b64_read 3 (n mod 4) 0 s)
    else emit (ascii_of_N (left * 64 + n)) (b64_read 0 0 0 s).
Proof. intros Hn. cbn [b64_read]. by rewrite b64_char_not_pad, b64_value_char. Qed.

Lemma N_of_ascii_lt c : N_of_ascii c < 256.
Proof. apply N_ascii_bounded. Qed.

Ltac div_lia := zify; Z.to_euclidean_division_equations; lia.

Lemma byte_back c n : n = N_of_ascii c → ascii_of_N n = c.
Proof. intros ->. apply ascii_N_embedding. Qed.

Lemma string_ind3 (P : string → Prop) :
  P ""%string → (∀ a, P (String a "")) → (∀ a b, P (String a (String b ""))) →
  (∀ a b c s, P s → P (String a (String b (String c s)))) → ∀ s, P s.
Proof.
  intros H0 H1 H2 H3. fix IH 1. intros [|a [|b [|c s]]]; [done|apply H1|apply H2|apply H3, IH].
Qed.

Ltac b64_step := rewrite b64_read_char by div_lia; cbn [N.eqb Pos.eqb].
Ltac b64_byte c := rewrite (byte_back c) by div_lia.

Lemma b64_roundtrip s : b64decode (b64encode s) = Ok s.
Proof.
  unfold b64decode. induction s as [|a|a b|a b c s IH] using string_ind3; cbn [b64encode]; [done|..];
    pose proof (N_of_ascii_lt a); try pose proof (N_of_ascii_lt b); try pose proof (N_of_ascii_lt c);
    do 2 b64_step; b64_byte a.
  - done.
  - b64_step. by b64_byte b.
  - do 2 b64_step. b64_byte b. b64_byte c. by rewrite IH.
Qed.

Lemma b64_char_safe n : n < 64 → b64_safe (b64_char n) = true.
Proof. intros Hn. unfold b64_safe. by rewrite b64_value_char. Qed.

Lemma b64encode_safe s : str_forall b64_safe (b64encode s) = true.
Proof.
  induction s as [|a|a b|a b c s IH] using string_ind3; cbn [b64encode str_forall]; [done|..];
    pose proof (N_of_ascii_lt a); try pose proof (N_of_ascii_lt b); try pose proof (N_of_ascii_lt c);
    rewrite !b64_char_safe by div_lia; [done..|by rewrite IH].
Qed.

(** White space around the text, which the caller strips, is not of the alphabet. *)
Lemma b64_safe_not_space c : b64_safe c = true → is_space c = false.
Proof. destruct c as [[] [] [] [] [] [] [] []]; vm_compute; congruence. Qed.
