(* ===== verification/DispatchBuild.v ===== *)
(** * core.dispatch: the dispatcher's source and the recipe that builds it

    What core/dispatch.py and core/setup/l65_dispatcher.py make of the source
    tree the package ships: the archive that crosses, the digest the manifest
    records, and the shell recipe that builds the binary on the other side, with
    a model of what a shell does with its statements.  The formats of tar and
    gzip and the digest are parameters. *)
From stdpp Require Import sorting.
From S2P Require Import Prelude PyStr Images Base64.
From Stdlib Require Import Ascii String.
Open Scope nat_scope.

(** ** The source tree *)

(** A traversable resource; the children of a directory come in the order of
    its [iterdir], which is any order. *)
Inductive Resource : Type :=
  | RFile (data : string)
  | RDir (children : list (string * Resource)).

Section resource_ind.
Context (P : Resource → Prop).
Context (Hfile : ∀ d, P (RFile d)) (Hdir : ∀ l, Forall (λ x, P x.2) l → P (RDir l)).

Fixpoint resource_ind' (r : Resource) : P r :=
  match r with
  | RFile d => Hfile d
  | RDir l => Hdir l ((fix go l : Forall (λ x, P x.2) l :=
      match l with [] => Forall_nil_2 _ | x :: l => Forall_cons_2 _ x l (resource_ind' x.2) (go l) end) l)
  end.
End resource_ind.

Definition DISPATCH_SOURCE_ENTRIES : list string :=
  ["main.go"; "main_test.go"; "go.mod"; "go.sum"; "vendor"; "fixtures"].

(** [src] is the [dispatch] directory of the package's templates. *)
Abbreviation source := (list (string * Resource)).

Definition under (rel name : string) : string := rel +:+ "/" +:+ name.

(** A [dict]: its items in the order they came in; a key that is there keeps
    its place. *)
Abbreviation dict := (list (string * string)).

Fixpoint dict_put (k v : string) (d : dict) : dict :=
  match d with
  | [] => [(k, v)]
  | (k', v') :: d => if String.eqb k k' then (k', v) :: d else (k', v') :: dict_put k v d
  end.

Fixpoint collect_files (node : Resource) (rel : string) (into : dict) : dict :=
  match node with
  | RFile d => dict_put rel d into
  | RDir children => foldl (λ into x, collect_files x.2 (under rel x.1) into) into children
  end.

(** An entry that is not there is no directory, and reading it raises. *)
Definition resource_at (src : source) (entry : string) : res Resource :=
  from_option Ok (Err FileNotFoundError) (assoc entry src).

Definition sorted_names (l : list string) : list string := map fst (merge_sort key_le (map (λ e, (e, tt)) l)).

Definition source_files (src : source) : res dict :=
  foldl (λ acc entry, into ← acc; r ← resource_at src entry; Ok (collect_files r entry into))
    (Ok []) DISPATCH_SOURCE_ENTRIES.

(** The contents by their sorted paths. *)
Definition sorted_contents (files : dict) : list string := map snd (merge_sort key_le files).

Definition source_bundle_sha512 (sha512 : string → string) (src : source) : res string :=
  files ← source_files src; Ok (sha512 (String.concat "" (sorted_contents files))).

(** ** The archive *)

Record TarInfo := MkTarInfo {
  ti_name : string; ti_isdir : bool; ti_mode : Z; ti_mtime : Z; ti_uid : Z; ti_gid : Z;
  ti_uname : string; ti_gname : string
}.

Definition deterministic_tarinfo (ti : TarInfo) : TarInfo :=
  MkTarInfo (ti_name ti) (ti_isdir ti) (if ti_isdir ti then 493 else 420) 0 0 0 "" "".

Abbreviation member := (TarInfo * option string)%type.

Section archive.
(** What the staging directory's files are like on the host: [gettarinfo]. *)
Context (stat : string → bool → TarInfo).
Definition gettarinfo (arcname : string) (isdir : bool) : TarInfo :=
  let ti := stat arcname isdir in
  MkTarInfo arcname isdir (ti_mode ti) (ti_mtime ti) (ti_uid ti) (ti_gid ti) (ti_uname ti) (ti_gname ti).

(** [tar.add]: a directory, then what it holds in the order of the names. *)
Fixpoint tar_add (r : Resource) (arcname : string) : list member :=
  match r with
  | RFile d => [(deterministic_tarinfo (gettarinfo arcname false), Some d)]
  | RDir children =>
      (deterministic_tarinfo (gettarinfo arcname true), None) ::
      List.concat (map snd (merge_sort key_le (map (λ x, (x.1, tar_add x.2 (under arcname x.1))) children)))
  end.

Definition stage_entries (src : source) : res (list (string * Resource)) :=
  mapM (λ entry, r ← resource_at src entry; Ok (entry, r)) DISPATCH_SOURCE_ENTRIES.

Definition source_members (src : source) : res (list member) :=
  staged ← stage_entries src;
  Ok (List.concat (map (λ e, from_option (λ r, tar_add r e) [] (assoc e staged)) (sorted_names DISPATCH_SOURCE_ENTRIES))).

Context (tar_bytes : list member → string) (gzip : string → string).

Definition dispatch_source_b64 (src : source) : res string :=
  members ← source_members src; Ok (b64encode (gzip (tar_bytes members))).
End archive.

(** ** The recipe *)

Definition BUILD_MOUNT_DST : string := "/build".
Definition COMPILE_INNER : string :=
  "go test ./... && " +:+ "go build -trimpath -ldflags '-s -w' -o /build/dispatch .".

Definition docker_run (image : string) : string :=
  "docker run --rm " +:+ "--network none " +:+ "--env GOFLAGS=-mod=vendor " +:+
  "--mount type=bind,src=" +:+ DQ +:+ "$DIR" +:+ DQ +:+ ",dst=" +:+ BUILD_MOUNT_DST +:+ " " +:+
  "--workdir " +:+ BUILD_MOUNT_DST +:+ " " +:+ shlex_quote image +:+ " " +:+
  "/bin/sh -c " +:+ shlex_quote COMPILE_INNER.

Definition dquoted (s : string) : string := DQ +:+ s +:+ DQ.

(** The statements of the script, which [;] separates. *)
Inductive stmt := DeriveRuntimeDir | RequireRuntimeDir | MakeBuildDir | ArmCleanup
  | Unpack (source_b64 : string) | Build (image : string) | Emit.

Definition stmt_text (x : stmt) : string :=
  match x with
  | DeriveRuntimeDir => "RD=" +:+ dquoted "/run/user/$(id -u)"
  | RequireRuntimeDir =>
      "[ -d " +:+ dquoted "$RD" +:+ " ] || { echo " +:+
      dquoted ("sandbox-ai: per-user runtime dir $RD absent " +:+
              "(is the daemon user lingering? sister-change L5 enables linger)") +:+ " 1>&2; exit 1; }"
  | MakeBuildDir => "DIR=" +:+ dquoted ("$(mktemp -d " +:+ dquoted "$RD/sandbox-ai-build-XXXXXX" +:+ ")")
  | ArmCleanup => "trap 'rm -rf " +:+ dquoted "$DIR" +:+ "' EXIT"
  | Unpack b64 => "printf %s '" +:+ b64 +:+ "' | base64 -d | tar -xz -C " +:+ dquoted "$DIR" +:+ " 1>&2"
  | Build image => docker_run image +:+ " 1>&2"
  | Emit => "base64 -w0 " +:+ dquoted "$DIR/dispatch"
  end.

Definition compile_recipe (image source_b64 : string) : list stmt :=
  [DeriveRuntimeDir; RequireRuntimeDir; MakeBuildDir; ArmCleanup; Unpack source_b64; Build image; Emit].

Definition compile_payload (image source_b64 : string) : string :=
  String.concat "; " (map stmt_text (compile_recipe image source_b64)).

(** ** What a shell makes of it *)

(** The daemon user's side: whether its runtime directory is there, what
    [mktemp] makes, the exit statuses of the unpacking and of the container in a
    directory, and what that directory then holds as [dispatch]. *)
Record builder := MkBuilder {
  runtime_dir : option string;
  mktemp_dir : string → option string;
  unpack : string → string → Z;
  container : string → string → Z * option string
}.

Record shell := MkShell { sh_dir : string; sh_built : option string; sh_status : Z; sh_stdout : string }.

(** One statement: a new state, or the end of the script.  The statements are
    separated by [;], so the status of one is overwritten by the next's. *)
Definition run_stmt (h : builder) (x : stmt) (st : shell) : shell + Z :=
  let status z := inl (MkShell (sh_dir st) (sh_built st) z (sh_stdout st)) in
  match x with
  | DeriveRuntimeDir | ArmCleanup => status 0%Z
  | RequireRuntimeDir => if runtime_dir h is Some _ then status 0%Z else inr 1%Z
  | MakeBuildDir =>
      match runtime_dir h ≫= mktemp_dir h with
      | Some d => inl (MkShell d (sh_built st) 0 (sh_stdout st))
      | None => inl (MkShell "" (sh_built st) 1 (sh_stdout st))
      end
  | Unpack b64 => status (unpack h (sh_dir st) b64)
  | Build image =>
      let '(z, built) := container h (sh_dir st) image in inl (MkShell (sh_dir st) built z (sh_stdout st))
  | Emit =>
      match sh_built st with
      | Some binary => inl (MkShell (sh_dir st) (sh_built st) 0 (sh_stdout st +:+ b64encode binary))
      | None => status 1%Z
      end
  end.

(** The exit status and the standard output of the script. *)
Fixpoint run_stmts (h : builder) (l : list stmt) (st : shell) : Z * string :=
  match l with
  | [] => (sh_status st, sh_stdout st)
  | x :: l => match run_stmt h x st with inl st => run_stmts h l st | inr z => (z, sh_stdout st) end
  end.

Definition run_recipe (h : builder) (image source_b64 : string) : Z * string :=
  run_stmts h (compile_recipe image source_b64) (MkShell "" None 0 "").

(** What the recipe builds: the file the container leaves as the dispatcher. *)
Definition built_binary (h : builder) (image : string) : option string :=
  rd ← runtime_dir h; (container h (default "" (mktemp_dir h rd)) image).2.

Lemma run_recipe_spec h image b64 :
  run_recipe h image b64 =
    match built_binary h image with Some binary => (0%Z, b64encode binary) | None => (1%Z, "") end.
Proof.
  unfold run_recipe, built_binary, compile_recipe. cbn [run_stmts run_stmt sh_dir sh_built sh_status sh_stdout].
  destruct (runtime_dir h) as [rd|]; [|done]. cbn.
  destruct (mktemp_dir h rd) as [d|]; cbn; destruct (container h _ image) as [z [binary|]]; done.
Qed.

(** ** The order of the directories, and the host's metadata, do not matter *)

(** The same files in directories of the same names, listed in any order. *)
Inductive same_tree : Resource → Resource → Prop :=
  | same_file d : same_tree (RFile d) (RFile d)
  | same_dir l l' l2 : Forall2 (λ x y, x.1 = y.1 ∧ same_tree x.2 y.2) l l' → l' ≡ₚ l2 → same_tree (RDir l) (RDir l2).

(** What a file system guarantees of the names in a directory. *)
Fixpoint well_named (r : Resource) : Prop :=
  match r with
  | RFile _ => True
  | RDir l => NoDup (map fst l) ∧ foldr (λ x P, (has_char "/"%char x.1 = false ∧ well_named x.2) ∧ P) True l
  end.

Lemma well_named_dir l : well_named (RDir l) →
  NoDup (map fst l) ∧ Forall (λ x, has_char "/"%char x.1 = false ∧ well_named x.2) l.
Proof. cbn [well_named]. intros [Hn Hl]. split; [done|]. by rewrite Forall_fold_right. Qed.

Lemma same_tree_inv r r' : same_tree r r' →
  match r with
  | RFile d => r' = RFile d
  | RDir l => ∃ l' l2, r' = RDir l2 ∧ Forall2 (λ x y, x.1 = y.1 ∧ same_tree x.2 y.2) l l' ∧ l' ≡ₚ l2
  end.
Proof. intros []; [done|]. by eexists _, _. Qed.

(** Children whose images agree give the same list up to the order. *)
Lemma map_children {B} (f g : string * Resource → B) (P : Resource → Prop) l l' l2 :
  Forall (λ x, P x.2 → ∀ r' y, same_tree x.2 r' → y = (x.1, r') → f x = g y) l →
  Forall (λ x, P x.2) l →
  Forall2 (λ x y, x.1 = y.1 ∧ same_tree x.2 y.2) l l' → l' ≡ₚ l2 → map f l ≡ₚ map g l2.
Proof.
  intros Hf HP H2 Hp. rewrite <- Hp. clear Hp. replace (map g l') with (map f l); [done|].
  induction H2 as [|[n r] [n' r'] l l' [Hn Hs] _ IH]; [done|].
  apply Forall_cons in Hf as [Hf Hfs], HP as [HP HPs]. cbn [fst snd map] in *. subst n'.
  f_equal; [by eapply Hf|by apply IH].
Qed.

Lemma tar_add_same stat stat' r r' arc : same_tree r r' → well_named r → tar_add stat r arc = tar_add stat' r' arc.
Proof.
  revert r' arc. induction r as [d|l IH] using resource_ind'; intros r' arc Hs%same_tree_inv Hw; [by subst|].
  destruct Hs as (l' & l2 & -> & H2 & Hp). apply well_named_dir in Hw as [Hn Hw].
  cbn [tar_add]. f_equal. do 2 f_equal. apply sort_keys_unique.
  - apply (map_children _ _ well_named l l' l2); [|by eapply Forall_impl; [exact Hw|intros ? []]|done|done].
    eapply Forall_impl; [exact IH|]. cbv beta. intros [n r] Hr Hwr r' y Hs ->. cbn [fst snd] in *.
    f_equal. by apply Hr.
  - by rewrite map_map.
Qed.

Fixpoint files_of (r : Resource) (rel : string) : list (string * string) :=
  match r with
  | RFile d => [(rel, d)]
  | RDir l => List.concat (map (λ x, files_of x.2 (under rel x.1)) l)
  end.

Definition put_files (into l : dict) : dict := foldl (λ m x, dict_put x.1 x.2 m) into l.

Lemma collect_files_of r rel into : collect_files r rel into = put_files into (files_of r rel).
Proof.
  revert rel into. induction r as [d|l IH] using resource_ind'; intros rel into; [done|]. cbn [collect_files files_of].
  revert into. induction IH as [|x l Hx _ IHl]; intros into; [done|]. cbn [foldl map List.concat].
  rewrite Hx. unfold put_files in *. by rewrite foldl_app.
Qed.

(** A dict is its items up to their order. *)
Definition dict_map (d : dict) : gmap string string := list_to_map d.

Lemma dict_put_map k v d : dict_map (dict_put k v d) = <[k := v]> (dict_map d).
Proof.
  induction d as [|[k' v'] d IH]; [done|]. cbn. destruct (String.eqb_spec k k') as [->|Hne]; unfold dict_map in *; cbn.
  - by rewrite insert_insert_eq.
  - by rewrite IH, insert_insert_ne.
Qed.

Lemma dict_put_keys k v d x : x ∈ map fst (dict_put k v d) ↔ x = k ∨ x ∈ map fst d.
Proof.
  induction d as [|[k' v'] d IH]; cbn; [set_solver|].
  destruct (String.eqb_spec k k') as [->|Hne]; cbn; rewrite !elem_of_cons; [tauto|]. rewrite IH. tauto.
Qed.

Lemma dict_put_nodup k v d : NoDup (map fst d) → NoDup (map fst (dict_put k v d)).
Proof.
  induction d as [|[k' v'] d IH]; cbn; [intros _; apply NoDup_singleton|]. intros [Hn Hd]%NoDup_cons.
  destruct (String.eqb_spec k k') as [->|Hne]; cbn; apply NoDup_cons; [by split|].
  split; [|by apply IH]. rewrite dict_put_keys. naive_solver.
Qed.

Lemma put_files_nodup l d : NoDup (map fst d) → NoDup (map fst (put_files d l)).
Proof. revert d. induction l as [|[k v] l IH]; intros d Hd; [done|]. cbn. by apply IH, dict_put_nodup. Qed.

Lemma put_files_map l d : dict_map (put_files d l) = foldl (λ m x, <[x.1 := x.2]> m) (dict_map d) l.
Proof. revert d. induction l as [|[k v] l IH]; intros d; [done|]. cbn. by rewrite IH, dict_put_map. Qed.

Lemma put_files_perm d1 d2 l1 l2 : dict_map d1 = dict_map d2 → l1 ≡ₚ l2 → NoDup (map fst l1) →
  dict_map (put_files d1 l1) = dict_map (put_files d2 l2).
Proof.
  rewrite !put_files_map. intros -> Hp. generalize (dict_map d2) as into.
  induction Hp as [|x l1 l2 _ IH|x y l|l1 l2 l3 H12 IH1 _ IH2]; intros into Hn; [done|..].
  - cbn in Hn |- *. apply IH. by apply NoDup_cons in Hn as [_ ?].
  - cbn. rewrite insert_insert_ne; [done|]. cbn in Hn. apply NoDup_cons in Hn as [Hn _]. set_solver.
  - rewrite IH1 by done. apply IH2. by rewrite <- H12.
Qed.

Lemma sorted_contents_same d1 d2 : dict_map d1 = dict_map d2 → NoDup (map fst d1) → NoDup (map fst d2) →
  sorted_contents d1 = sorted_contents d2.
Proof. intros Hm H1 H2. unfold sorted_contents. f_equal. apply sort_keys_unique; [by apply list_to_map_inj|done]. Qed.

Lemma concat_perm {A B} (f : A → list B) l : List.concat (map f l) = l ≫= f.
Proof. induction l as [|x l IH]; [done|]. cbn. by rewrite IH. Qed.

Lemma files_of_same r r' rel : same_tree r r' → files_of r rel ≡ₚ files_of r' rel.
Proof.
  revert r' rel. induction r as [d|l IH] using resource_ind'; intros r' rel Hs%same_tree_inv; [by subst|].
  destruct Hs as (l' & l2 & -> & H2 & Hp). cbn [files_of]. rewrite !concat_perm. rewrite <- Hp.
  clear Hp l2. revert IH. induction H2 as [|[n r] [n' r'] l l' [Hn Hs] _ IHl]; intros IH; [done|].
  apply Forall_cons in IH as [IH IHs]. cbn [mbind list_bind fst snd] in *. subst n'.
  by rewrite (IH r'), IHl.
Qed.

Lemma files_of_below r rel p d : (p, d) ∈ files_of r rel → p = rel ∨ ∃ t, p = under rel t.
Proof.
  revert rel. induction r as [d'|l IH] using resource_ind'; intros rel; cbn [files_of].
  - intros [= -> _]%list_elem_of_singleton. by left.
  - rewrite concat_perm. intros (x & Hp & Hx)%list_elem_of_bind. right.
    rewrite Forall_forall in IH. apply (IH x Hx) in Hp as [->|[t ->]]; [by eexists|].
    exists (under x.1 t). unfold under. by rewrite !app_assoc_str.
Qed.

(** Paths under different names of one directory differ. *)
Lemma below_apart rel n1 n2 p : has_char "/"%char n1 = false → has_char "/"%char n2 = false → n1 ≠ n2 →
  (p = under rel n1 ∨ ∃ t, p = under (under rel n1) t) → (p = under rel n2 ∨ ∃ t, p = under (under rel n2) t) → False.
Proof.
  assert (Hp : ∀ n p, (p = under rel n ∨ ∃ t, p = under (under rel n) t) →
    ∃ t, p +:+ "/" = under rel "" +:+ (n +:+ String "/" t)).
  { unfold under. intros n q [->|[t ->]].
    - exists "". by rewrite !app_assoc_str.
    - exists (t +:+ "/"). by rewrite !app_assoc_str. }
  intros H1 H2 Hne (t1 & E1)%Hp (t2 & E2)%Hp. rewrite E1 in E2. apply app_inv_l_str in E2.
  by apply app_sep_inj in E2 as [? _].
Qed.

Lemma files_of_nodup r rel : well_named r → NoDup (map fst (files_of r rel)).
Proof.
  revert rel. induction r as [d|l IH] using resource_ind'; intros rel Hw; [apply NoDup_singleton|].
  apply well_named_dir in Hw as [Hn Hw]. cbn [files_of]. revert Hn Hw.
  induction IH as [|x l Hx _ IHl]; intros Hn Hw; [constructor|].
  cbn [map] in Hn |- *. apply NoDup_cons in Hn as [Hnx Hn]. apply Forall_cons in Hw as [[Hc Hwx] Hw].
  cbn [List.concat]. rewrite map_app. apply NoDup_app. split_and!; [by apply Hx| |by apply IHl].
  intros p ([p' d] & -> & Hin)%list_elem_of_fmap ([p2 d2] & Hpp & Hin2)%list_elem_of_fmap. cbn [fst] in *. subst p2.
  rewrite concat_perm in Hin2. apply list_elem_of_bind in Hin2 as (y & Hin2 & Hy).
  rewrite Forall_forall in Hw. destruct (Hw y Hy) as [Hcy _].
  eapply (below_apart rel x.1 y.1 p'); [done|done| |by eapply files_of_below|by eapply files_of_below].
  intros E. apply Hnx. rewrite E. by apply list_elem_of_fmap_2.
Qed.

(** The same source, listed differently. *)
Definition same_source (src src' : source) : Prop :=
  ∀ e, e ∈ DISPATCH_SOURCE_ENTRIES → option_Forall2 same_tree (assoc e src) (assoc e src').
Definition well_named_source (src : source) : Prop :=
  ∀ e r, e ∈ DISPATCH_SOURCE_ENTRIES → assoc e src = Some r → well_named r.

Lemma collect_same r r' rel d d' : same_tree r r' → well_named r → dict_map d = dict_map d' →
  NoDup (map fst d) → NoDup (map fst d') →
  dict_map (collect_files r rel d) = dict_map (collect_files r' rel d') ∧
  NoDup (map fst (collect_files r rel d)) ∧ NoDup (map fst (collect_files r' rel d')).
Proof.
  intros Hs Hw Hm Hd Hd'. rewrite !collect_files_of. split_and!; [|by apply put_files_nodup..].
  apply put_files_perm; [done|by apply files_of_same|by apply files_of_nodup].
Qed.

Lemma resource_same src src' e : same_source src src' → well_named_source src → e ∈ DISPATCH_SOURCE_ENTRIES →
  resource_at src e = resource_at src' e ∧ (∃ x, resource_at src e = Err x) ∨
  ∃ r r', resource_at src e = Ok r ∧ resource_at src' e = Ok r' ∧ same_tree r r' ∧ well_named r.
Proof.
  intros Hs Hw He. unfold resource_at. specialize (Hw e). destruct (Hs e He) as [r r' H|]; [right|left; by eauto].
  exists r, r'. split_and!; [done..|by apply Hw].
Qed.

(** Two readings that end alike: the same items in some order, or one error. *)
Definition same_files (x y : res dict) : Prop :=
  match x, y with
  | Ok d, Ok d' => dict_map d = dict_map d' ∧ NoDup (map fst d) ∧ NoDup (map fst d')
  | Err e, Err e' => e = e'
  | _, _ => False
  end.

Lemma source_files_same src src' : same_source src src' → well_named_source src →
  same_files (source_files src) (source_files src').
Proof.
  intros Hs Hw. unfold source_files.
  assert (∀ l x y, (∀ e, e ∈ l → e ∈ DISPATCH_SOURCE_ENTRIES) → same_files x y →
    same_files (foldl (λ acc e, into ← acc; r ← resource_at src e; Ok (collect_files r e into)) x l)
               (foldl (λ acc e, into ← acc; r ← resource_at src' e; Ok (collect_files r e into)) y l)) as Hl.
  2: { apply Hl; [done|]. split_and!; [done|constructor..]. }
  induction l as [|e l IH]; intros x y Hin Hxy; [done|]. cbn [foldl]. apply IH; [intros; apply Hin; by right|].
  destruct x as [d|], y as [d'|]; try done. destruct Hxy as (Hm & Hd & Hd').
  destruct (resource_same src src' e Hs Hw) as [[<- [z ->]]|(r & r' & -> & -> & Hr & Hwr)]; [apply Hin; by left|done|].
  cbn. by apply collect_same.
Qed.

Lemma staged_same src src' l : same_source src src' → well_named_source src → (∀ e, e ∈ l → e ∈ DISPATCH_SOURCE_ENTRIES) →
  let stage := λ src, mapM (λ e, r ← resource_at src e; Ok (e, r)) l in
  (∃ x, stage src = Err x ∧ stage src' = Err x) ∨
  ∃ s s', stage src = Ok s ∧ stage src' = Ok s' ∧ map fst s = l ∧
          Forall2 (λ x y, x.1 = y.1 ∧ same_tree x.2 y.2 ∧ well_named x.2) s s'.
Proof.
  intros Hs Hw. induction l as [|e l IH]; intros Hin stage; unfold stage; cbn [mapM]; [right; by exists [], []|].
  destruct (resource_same src src' e Hs Hw) as [[<- [x ->]]|(r & r' & -> & -> & Hr & Hwr)]; [apply Hin; by left|left; by exists x|].
  cbn. destruct IH as [(x & -> & ->)|(s & s' & -> & -> & <- & H2)]; [intros; apply Hin; by right|left; by exists x|].
  right. exists ((e, r) :: s), ((e, r') :: s'). cbn. split_and!; [done..|by constructor].
Qed.

Lemma assoc_same (s s' : list (string * Resource)) e :
  Forall2 (λ x y, x.1 = y.1 ∧ same_tree x.2 y.2 ∧ well_named x.2) s s' →
  match assoc e s with
  | Some r => ∃ r', assoc e s' = Some r' ∧ same_tree r r' ∧ well_named r
  | None => assoc e s' = None
  end.
Proof.
  induction 1 as [|[n r] [n' r'] s s' (E & Hr & Hw) _ IH]; [done|]. cbn [fst snd assoc] in *. subst n'.
  destruct (String.eqb e n); [by eexists|done].
Qed.

(** C35: The archive that crosses and the digest that the manifest records are
    functions of the source's files alone: two trees with the same files, their
    directories listed in any order, staged on hosts with any owners, modes and
    times, give the same payload text and the same digest, and where one raises
    so does the other. *)
Theorem source_reproducible sha512 tar_bytes gzip stat stat' src src' :
  same_source src src' → well_named_source src →
  dispatch_source_b64 stat tar_bytes gzip src = dispatch_source_b64 stat' tar_bytes gzip src' ∧
  source_bundle_sha512 sha512 src = source_bundle_sha512 sha512 src'.
Proof.
  intros Hs Hw. split.
  2: { unfold source_bundle_sha512. pose proof (source_files_same src src' Hs Hw) as Hf.
       destruct (source_files src), (source_files src'); cbn in Hf |- *; try done; [|by subst].
       destruct Hf as (Hm & H1 & H2). by rewrite (sorted_contents_same _ _ Hm H1 H2). }
  unfold dispatch_source_b64, source_members, stage_entries.
  destruct (staged_same src src' DISPATCH_SOURCE_ENTRIES Hs Hw) as [(x & -> & ->)|(s & s' & -> & -> & Hn & H2)]; [done..|].
  cbn. do 5 f_equal. apply map_ext. intros e. pose proof (assoc_same s s' e H2) as He.
  destruct (assoc e s) as [r|]; [|by rewrite He]. destruct He as (r' & -> & Hr & Hwr). by apply tar_add_same.
Qed.

Definition small_source (main test : string) (vendor : list (string * Resource)) : source :=
  [("main.go", RFile main); ("main_test.go", RFile test); ("go.mod", RFile "module"); ("go.sum", RFile "");
   ("vendor", RDir vendor); ("fixtures", RDir [])].

(** The digest does not see where one file ends and the next begins. *)
Lemma digest_ignores_boundaries sha512 :
  source_bundle_sha512 sha512 (small_source "ab" "c" []) = source_bundle_sha512 sha512 (small_source "a" "bc" []).
Proof. vm_compute. reflexivity. Qed.

(** The status of the container is not that of the recipe: what counts is
    whether the binary is there. *)
Lemma container_status_lost h image b64 z binary :
  runtime_dir h ≠ None → (∀ d i, container h d i = (z, Some binary)) → run_recipe h image b64 = (0%Z, b64encode binary).
Proof.
  intros Hr Hc. rewrite run_recipe_spec. unfold built_binary. destruct (runtime_dir h); [|done]. cbn. by rewrite Hc.
Qed.

Definition two_vendored (a b : string * Resource) : source := small_source "m" "t" [a; b].
Definition flat_file (n : string) : string * Resource := (n, RFile n).
Definition plain_stat (mtime : Z) (name : string) (isdir : bool) : TarInfo := MkTarInfo name isdir 511 mtime 1000 1000 "dev" "dev".
Definition members_text (l : list member) : string := String.concat " " (map (λ m, ti_name m.1 +:+ default "/" m.2) l).

(** The two listings do give the dict in two orders. *)
Example listing_order_shows :
  match source_files (two_vendored (flat_file "a") (flat_file "b")),
        source_files (two_vendored (flat_file "b") (flat_file "a")) with
  | Ok d, Ok d' => map fst d ≠ map fst d'
  | _, _ => False
  end.
Proof. vm_compute. discriminate. Qed.

Lemma source_reproducible_witness :
  dispatch_source_b64 (plain_stat 1) members_text id (two_vendored (flat_file "a") (flat_file "b")) =
  dispatch_source_b64 (plain_stat 2) members_text id (two_vendored (flat_file "b") (flat_file "a")) ∧
  source_bundle_sha512 id (two_vendored (flat_file "a") (flat_file "b")) =
  source_bundle_sha512 id (two_vendored (flat_file "b") (flat_file "a")).
Proof.
  apply (source_reproducible id members_text id).
  - intros e He. unfold DISPATCH_SOURCE_ENTRIES in He. rewrite !elem_of_cons in He.
    destruct He as [->|[->|[->|[->|[->|[->|[]%elem_of_nil]]]]]]; vm_compute; constructor; try constructor.
    + apply (same_dir _ [flat_file "a"; flat_file "b"]); [repeat constructor|]. constructor.
    + apply (same_dir _ []); constructor.
  - intros e r He Hr. unfold DISPATCH_SOURCE_ENTRIES in He. rewrite !elem_of_cons in He.
    destruct He as [->|[->|[->|[->|[->|[->|[]%elem_of_nil]]]]]]; vm_compute in Hr; injection Hr as <-; cbn; try done.
    + split; [|done]. apply NoDup_cons. split; [|by apply NoDup_singleton]. by intros ?%list_elem_of_singleton.
    + split; [constructor|done].
Defined.
