(* ===== verification/DispatcherInstall.v ===== *)
(** * core.setup.l65_dispatcher: the dispatcher, its manifest and its check

    compile_dispatcher of core/dispatch.py, the phase of
    core/setup/l65_dispatcher.py and core/doctor/checks/dispatcher_sha_drift.py,
    as programs over the calls of BinaryInstall and four more: the crossing to
    the daemon user, a read of text, the truncation of the manifest and the
    clock. *)
From S2P Require Import Prelude PyStr Json HostConfig Doctor PhaseRunner Interact OnState BinaryInstall HostPhases Images Base64 DispatchBuild.
From Stdlib Require Import Ascii String.
Open Scope nat_scope.

(** ** The calls *)

Inductive disp_call : Type :=
  | Bin (c : bin_call)
  (* [Executor().run(argv)]: the standard output, or [SandboxExecutionError] *)
  | Cross (argv : list string)
  (* [None] where there is no file *)
  | ReadText (p : string)
  (* [os.open(p, O_WRONLY | O_CREAT | O_TRUNC, 0o644)] *)
  | Truncate (p : string)
  | Now.

Definition disp_answer (c : disp_call) : Type :=
  match c with
  | Bin c => bin_answer c
  | Cross _ | Now => string
  | ReadText _ => option string
  | Truncate _ => unit
  end.

Abbreviation dprog := (prog disp_answer).
Abbreviation dcall c := (perform (answer := disp_answer) c).

(** A program of BinaryInstall is one of these. *)
Fixpoint bin {A} (m : bprog A) : dprog A :=
  match m with
  | Ret r => Ret r
  | Do c k => Do (answer := disp_answer) (Bin c) (λ a, bin (k a))
  end.

(** ** compile_dispatcher (core/dispatch.py) *)

Section l65.
Context (sha512 : string → string) (tar_bytes : list member → string) (gzip : string → string).
Context (stat : string → bool → TarInfo) (src : source).
Context (accounts : host_env) (cfg : HostConfig).
Context (json_loads : string → option JsonValue) (json_dumps : JsonValue → string).

Definition compile_argv : res (list string) :=
  pin ← image "golang_alpine";
  b64 ← dispatch_source_b64 stat tar_bytes gzip src;
  user ← resolve_daemon_owner_settings accounts (HostConfig.host cfg);
  Ok (pipe_cmd user ++ ["/bin/bash"; "-c"; compile_payload (pinned pin) b64])%list.

(** [base64.b64decode(result.stdout.strip())] *)
Definition decoded (stdout : string) : res string := b64decode (strip stdout).

Definition compile_dispatcher (output_path : string) : dprog unit :=
  argv ← lift compile_argv;
  stdout ← dcall (Cross argv);
  binary ← lift (decoded stdout);
  _ ← dcall (Bin (WriteBytes output_path binary));
  dcall (Bin (Chmod output_path 493)).

(** ** The phase *)

Definition TARGET : string := target_path "dispatch".
Definition STAGING : string := staging_path "dispatch".
Definition manifest_path : string := RESERVED_DIR +:+ "/dispatcher.manifest.json".
Definition COMPILE_PREFIX : string := ".dispatch.compile.".

Definition file_sha512_or_none (p : string) : dprog (option string) :=
  there ← dcall (Bin (IsFile p));
  if (there : bool) then sha ← bin (file_sha512 sha512 p); mret (Some sha) else mret None.

(** The text entries of what was parsed. *)
Definition str_entries (m : gmap string JsonValue) : gmap string string := omap as_str m.

(** What the text says: nothing where it is no object, an error where it is no
    JSON. *)
Definition parse_manifest (text : string) : res (option (gmap string string)) :=
  match json_loads text with
  | None => Err JSONDecodeError
  | Some v => Ok (str_entries <$> as_obj v)
  end.

Definition read_manifest : dprog (option (gmap string string)) :=
  text ← dcall (ReadText manifest_path);
  match text with None => mret None | Some t => lift (parse_manifest t) end.

Definition entry_is (k : string) (v : string) (m : gmap string string) : bool := bool_decide (m !! k = Some v).

Definition l65_probe : dprog (PhaseResult * string) :=
  manifest ← read_manifest;
  match manifest with
  | None => mret (MISSING, "dispatcher manifest absent; will compile + install + record")
  | Some m =>
      binary_sha ← file_sha512_or_none TARGET;
      match binary_sha with
      | None => mret (MISSING, TARGET +:+ " absent though manifest exists; will recompile")
      | Some sha =>
          current ← lift (source_bundle_sha512 sha512 src);
          mret (if entry_is "compiled_sha512" sha m && entry_is "source_bundle_sha512" current m
                then (ALREADY_CORRECT, "dispatcher binary + source bundle match the manifest")
                else (DRIFT, "dispatcher binary or source bundle drifted from the manifest; " +:+
                             "will recompile + reinstall + update manifest"))
      end
  end.

Definition manifest_doc (compiled_sha source_sha stamp : string) : JsonValue :=
  JObj (<["compiled_sha512" := JStr compiled_sha]> (<["source_bundle_sha512" := JStr source_sha]>
    {["compile_timestamp" := JStr stamp]})).

Definition write_manifest (compiled_sha source_sha : string) : dprog unit :=
  _ ← dcall (Bin MkReserved);
  stamp ← dcall Now;
  _ ← dcall (Truncate manifest_path);
  _ ← dcall (Bin (WriteBytes manifest_path (json_dumps (manifest_doc compiled_sha source_sha stamp) +:+ NL)));
  _ ← dcall (Bin (Chmod manifest_path 420));
  dcall (Bin (ChownRoot manifest_path)).

(** [_install_compiled] and the cleanup around it: the installation of
    BinaryInstall, with the target always unsealed. *)
Definition install_compiled : bprog unit := place_staged "dispatch" true.

Definition stage_compiled (tmp : string) : dprog unit :=
  finally_do (_ ← compile_dispatcher tmp; dcall (Bin (Rename tmp STAGING))) (bin (discard tmp)).

Definition l65_act : dprog string :=
  _ ← dcall (Bin MkReserved);
  tmp ← dcall (Bin (Mkstemp COMPILE_PREFIX));
  _ ← stage_compiled tmp;
  _ ← bin install_compiled;
  compiled ← file_sha512_or_none TARGET;
  match compiled with
  | None => raise (SandboxExecutionError ("[FATAL] Sandbox Execution Fault: dispatcher missing at " +:+ TARGET +:+
                     " after install; refusing to record manifest.") false)
  | Some compiled_sha =>
      source_sha ← lift (source_bundle_sha512 sha512 src);
      _ ← write_manifest compiled_sha source_sha;
      mret ("dispatcher compiled + installed at " +:+ TARGET +:+ "; manifest recorded")
  end.

Definition l65_reverify : dprog bool :=
  manifest ← read_manifest;
  match manifest with
  | None => mret false
  | Some m =>
      binary_sha ← file_sha512_or_none TARGET;
      match binary_sha with
      | None => mret false
      | Some sha =>
          if entry_is "compiled_sha512" sha m then
            current ← lift (source_bundle_sha512 sha512 src);
            mret (entry_is "source_bundle_sha512" current m)
          else mret false
      end
  end.

Definition l65_body : PhaseBody disp_answer := MkBody l65_probe l65_act l65_reverify.

(** ** core/doctor/checks/dispatcher_sha_drift.py *)

Definition DRIFT_CHECK : string := "dispatcher sha drift".
(** [str(recorded)[:16]], where the entry may be absent. *)
Definition recorded_prefix (r : option string) : string := substring 0 SHA_DISPLAY_PREFIX (default "None" r) +:+ ELLIPSIS.

Definition check_dispatcher_sha_drift : dprog CheckResult :=
  manifest ← read_manifest;
  match manifest with
  | None =>
      mret (MkCheckResult SKIP DRIFT_CHECK ("dispatcher manifest absent at " +:+ manifest_path)
        (Some "run 'sudo sandbox setup' to install the dispatcher") None "")
  | Some m =>
      binary_sha ← file_sha512_or_none TARGET;
      match binary_sha with
      | None =>
          mret (MkCheckResult SKIP DRIFT_CHECK ("dispatcher binary absent at " +:+ TARGET)
            (Some "run 'sudo sandbox setup' to install the dispatcher") None "")
      | Some sha =>
          if negb (entry_is "compiled_sha512" sha m) then
            mret (MkCheckResult WARN DRIFT_CHECK
              ("dispatcher binary differs from setup's recorded sha (recorded " +:+
               recorded_prefix (m !! "compiled_sha512") +:+ ", on-disk " +:+ sha_prefix sha +:+
               "). Re-run 'sudo sandbox setup' to refresh, or investigate tampering.")
              (Some "run 'sudo sandbox setup' to refresh the dispatcher") None "")
          else
            current ← lift (source_bundle_sha512 sha512 src);
            if negb (entry_is "source_bundle_sha512" current m) then
              mret (MkCheckResult WARN DRIFT_CHECK
                ("dispatcher binary was compiled from an older source bundle (wheel upgrade since last setup: recorded " +:+
                 recorded_prefix (m !! "source_bundle_sha512") +:+ ", current " +:+ sha_prefix current +:+
                 "). Re-run 'sudo sandbox setup' to recompile against current source.")
                (Some "run 'sudo sandbox setup' to recompile against current source") None "")
            else
              mret (MkCheckResult PASS DRIFT_CHECK
                ("dispatcher binary + source bundle match the manifest (compiled " +:+ sha_prefix sha +:+ ", source " +:+
                 sha_prefix current +:+ ", compiled at " +:+ default "unknown" (m !! "compile_timestamp") +:+ ")")
                None None "")
      end
  end.
End l65.

(** ** The host the calls act on *)

(** The reserved directory, and what the last crossing sent back. *)
Record lstate := LState { l_disk : disk; l_sent : option string }.

Definition disp_step (s : lstate) (c : disp_call) : res (disp_answer c) → lstate → Prop :=
  match c with
  | Bin c => λ a s', ∃ d, bin_step (l_disk s) c a d ∧ s' = LState d (l_sent s)
  | Cross _ => λ a s', s' = LState (l_disk s) (match a with Ok out => Some out | Err _ => l_sent s end)
  | ReadText p => λ a s', s' = s ∧ ∀ t, a = Ok t → t = content <$> l_disk s !! p
  | Truncate p => λ a s', match a with
      | Ok _ => (∃ f, l_disk s !! p = Some f ∧ immutable f = false ∧
                 s' = LState (<[p := with_content "" f]> (l_disk s)) (l_sent s)) ∨
                (l_disk s !! p = None ∧ ∃ m o, s' = LState (<[p := MkFile "" m o false]> (l_disk s)) (l_sent s))
      | Err _ => s' = s end
  | Now => λ a s', s' = s
  end.

Ltac disp_call_step :=
  lazymatch goal with
  | |- swp _ ?I (perform ?c ≫= ?f) ?Q ?s => apply (swp_call disp_step I c f Q s)
  | |- swp _ ?I (perform ?c) ?Q ?s => apply (swp_perform disp_step I c Q s)
  end.

(** A program of BinaryInstall does here what it does there. *)
Lemma swp_bin {A} (I : lstate → Prop) (m : bprog A) Q s sent :
  swp bin_step (λ d, I (LState d sent)) m (λ r d, Q r (LState d sent)) s → swp disp_step I (bin m) Q (LState s sent).
Proof.
  revert s; induction m as [r|c k IH]; intros s [HI Hm]; (split; [done|]); [done|].
  intros a s' (d & Hd & ->). by apply IH, Hm.
Qed.

Lemma dispatch_apart : temp_apart "dispatch" COMPILE_PREFIX.
Proof.
  intros suffix. split; intros H; unfold temp_path, target_path, staging_path in H; apply sapp_inv_l in H; cbn in H; congruence.
Qed.
#[local] Hint Resolve dispatch_apart : core.

Lemma manifest_apart suffix : manifest_path ≠ TARGET ∧ manifest_path ≠ STAGING ∧ temp_path COMPILE_PREFIX suffix ≠ manifest_path.
Proof.
  split_and!; [by vm_compute..|]. intros H; unfold temp_path, manifest_path in H; apply sapp_inv_l in H. cbn in H. congruence.
Qed.

Section act.
Context (sha512 : string → string) (tar_bytes : list member → string) (gzip : string → string).
Context (stat : string → bool → TarInfo) (src : source) (accounts : host_env) (cfg : HostConfig).
Context (json_loads : string → option JsonValue) (json_dumps : JsonValue → string).
Local Abbreviation compile := (compile_dispatcher tar_bytes gzip stat src accounts cfg).

(** What the crossing last sent, decoded. *)
Definition built (sent : option string) (c : string) : Prop := ∃ out, sent = Some out ∧ decoded out = Ok c.

Context (s : disk).
Local Abbreviation installing := (λ sent, during "dispatch" true (built sent) COMPILE_PREFIX s).

(** The installation is under way, or over with only the manifest to change. *)
Definition l65_moment (s1 : lstate) : Prop :=
  installing (l_sent s1) (l_disk s1) ∨
  ∃ d, placed "dispatch" (built (l_sent s1)) s d ∧ ∀ q, q ≠ manifest_path → l_disk s1 !! q = d !! q.

(** Before the crossing nothing depends on what it sends. *)
Lemma downloading_moment suffix sent d : s !! temp_path COMPILE_PREFIX suffix = None →
  downloading COMPILE_PREFIX s suffix d → l65_moment (LState d sent).
Proof. intros Hn Hd. left. by eapply downloading_inv. Qed.

Lemma installing_moment sent d : installing sent d → l65_moment (LState d sent).
Proof. by left. Qed.
Hint Resolve downloading_moment installing_moment : core.

Lemma swp_compile suffix d sent : s !! temp_path COMPILE_PREFIX suffix = None →
  downloading COMPILE_PREFIX s suffix d →
  swp disp_step l65_moment (compile (temp_path COMPILE_PREFIX suffix))
    (λ r s1, downloading COMPILE_PREFIX s suffix (l_disk s1) ∧
       (r = Ok tt → ∃ f, l_disk s1 !! temp_path COMPILE_PREFIX suffix = Some f ∧
                         good_content (built (l_sent s1)) f ∧ immutable f = false)) (LState d sent).
Proof.
  intros Hn Hd. unfold compile_dispatcher. apply swp_bind, swp_ret; [eauto|].
  destruct (compile_argv _ _ _ _ _ _) as [argv|e]; [|done].
  disp_call_step; [eauto| |by intros e s' ->; split; [eauto|]]. intros out s' ->. cbn [l_disk].
  apply swp_bind, swp_ret; [eauto|]. destruct (decoded out) as [c|e] eqn:Hc; [|done].
  assert (Hw : ∀ d' c', changes (with_content c') (temp_path COMPILE_PREFIX suffix) d (Ok tt) d' →
    downloading COMPILE_PREFIX s suffix d' ∧ content <$> d' !! temp_path COMPILE_PREFIX suffix = Some c')
    by (intros d' c' H; by eapply downloading_write).
  disp_call_step; [eauto| |].
  2: { intros e s' (d' & [->|[c' H]] & ->); [by split; [eauto|]|]. apply Hw in H as [? _]. by split; [eauto|]. }
  intros [] s' (d' & H & ->). apply Hw in H as [Hd' Hc']. cbn [l_disk l_sent]. disp_call_step; [eauto|].
  intros [[]|e] s' (d2 & H & ->); cbn [l_disk l_sent] in *.
  2: { cbn in H. subst d2. by split; [eauto|]. }
  destruct H as (f & Hf & Hi & ->). rewrite Hf in Hc'. injection Hc' as Hcf.
  assert (Hd2 : downloading COMPILE_PREFIX s suffix (<[temp_path COMPILE_PREFIX suffix := with_mode 493 f]> d')).
  { destruct Hd' as [_ Hq]. split; [eexists; by rewrite lookup_insert_eq|].
    intros q ?. rewrite lookup_insert_ne by done. by apply Hq. }
  split; [eauto|]. split; [done|]. intros _. exists (with_mode 493 f). rewrite lookup_insert_eq.
  split_and!; [done| |done]. exists out. cbn. by rewrite Hcf.
Qed.

Lemma swp_stage_compiled suffix d sent : s !! temp_path COMPILE_PREFIX suffix = None →
  downloading COMPILE_PREFIX s suffix d →
  swp disp_step l65_moment (stage_compiled tar_bytes gzip stat src accounts cfg (temp_path COMPILE_PREFIX suffix))
    (λ r s1, r = Ok tt → ∃ f, ready "dispatch" (built (l_sent s1)) s f (l_disk s1) ∧ installing (l_sent s1) (l_disk s1))
    (LState d sent).
Proof.
  intros Hn Hd. unfold stage_compiled. apply swp_finally, swp_bind.
  eapply swp_mono; [|by apply swp_compile]. intros r [d1 sent1] HI [Hd1 Hok]; cbn [l_disk l_sent] in *.
  assert (HI1 : ∀ sent d', installing sent d' → l65_moment (LState d' sent)) by eauto.
  destruct r as [[]|e].
  2: { apply swp_bin. eapply swp_inv_mono, swp_mono, (swp_drop "dispatch" true (built sent1) COMPILE_PREFIX);
         [by apply HI1| |done..|by eapply downloading_inv]. by intros [[]|e'] d2. }
  destruct (Hok eq_refl) as (f & Hf & Hc & Hi).
  apply (swp_bin _ (bcall (Rename (temp_path COMPILE_PREFIX suffix) STAGING))).
  eapply swp_inv_mono, swp_mono, (swp_promote "dispatch" true (built sent1) COMPILE_PREFIX); [by apply HI1| |done..].
  intros r d2 _ Hdrop. apply swp_bin. eapply swp_inv_mono, swp_mono, Hdrop; [by apply HI1|].
  intros [[]|e'] d3 HI3 H3; [|done]. intros Hr. exists f. split; [by apply H3|done].
Qed.

(** A placed binary, whatever becomes of the manifest. *)
Definition l65_placed (s1 : lstate) : Prop :=
  ∃ d, placed "dispatch" (built (l_sent s1)) s d ∧ ∀ q, q ≠ manifest_path → l_disk s1 !! q = d !! q.

Lemma placed_moment s1 : l65_placed s1 → l65_moment s1.
Proof. by right. Qed.
Hint Resolve placed_moment : core.

Lemma placed_change sent d d' : (∀ q, q ≠ manifest_path → d' !! q = d !! q) → l65_placed (LState d sent) →
  l65_placed (LState d' sent).
Proof. intros Hq (d0 & Hp & H). exists d0. split; [done|]. intros q ?. cbn. rewrite Hq by done. by apply H. Qed.

Lemma swp_install_compiled f d sent : ready "dispatch" (built sent) s f d → installing sent d →
  swp disp_step l65_moment (bin install_compiled) (λ r s1, r = Ok tt → l65_placed s1) (LState d sent).
Proof.
  intros Hr Hd. apply swp_bin.
  eapply swp_inv_mono, swp_mono, (swp_place_staged "dispatch" true (built sent) COMPILE_PREFIX s f d Hr Hd); [by left|].
  intros r d' _ H Hok. exists d'. split; [by apply H|done].
Qed.

(** The digest of a file that is there. *)
Lemma swp_sha (I : lstate → Prop) p Q s1 : I s1 → Q (Ok (sha512 ∘ content <$> l_disk s1 !! p)) s1 →
  (∀ e, Q (Err e) s1) → swp disp_step I (file_sha512_or_none sha512 p) Q s1.
Proof.
  intros HI HQ He. destruct s1 as [d sent]. unfold file_sha512_or_none.
  disp_call_step; [done| |by intros e s' (? & [-> _] & ->)].
  intros b s' (d' & [-> Hb] & ->). specialize (Hb b eq_refl). cbn [l_disk] in *. destruct b; symmetry in Hb.
  - rewrite bool_decide_eq_true in Hb. destruct Hb as [f Hf]. rewrite Hf in HQ.
    apply swp_bind, swp_bin. unfold file_sha512. bin_call_step; [done| |by intros e s' [-> _]].
    intros c s' [-> Hc]. specialize (Hc c eq_refl). rewrite Hf in Hc. injection Hc as <-.
    apply swp_ret; [done|]. by apply swp_ret.
  - rewrite bool_decide_eq_false, <- eq_None_not_Some in Hb. rewrite Hb in HQ. by apply swp_ret.
Qed.

(** What the manifest says on a host. *)
Definition observed (s1 : lstate) : res (option (gmap string string)) :=
  match l_disk s1 !! manifest_path with
  | None => Ok None
  | Some f => parse_manifest json_loads (content f)
  end.

Lemma swp_manifest (I : lstate → Prop) Q s1 : I s1 → (∀ m, observed s1 = Ok m → Q (Ok m) s1) →
  (∀ e, Q (Err e) s1) → swp disp_step I (read_manifest json_loads) Q s1.
Proof.
  intros HI HQ He. unfold read_manifest, observed in *. disp_call_step; [done| |by intros e s' [-> _]].
  intros t s' [-> Ht]. specialize (Ht t eq_refl). subst t. destruct (l_disk s1 !! manifest_path) as [f|]; cbn [fmap option_fmap option_map].
  - apply swp_ret; [done|]. destruct (parse_manifest _ _); [by apply HQ|done].
  - apply swp_ret; [done|]. by apply HQ.
Qed.

(** The manifest is of the binary that is there and of the source at hand. *)
Definition l65_converged (s1 : lstate) : Prop :=
  ∃ m f current, observed s1 = Ok (Some m) ∧ l_disk s1 !! TARGET = Some f ∧
    source_bundle_sha512 sha512 src = Ok current ∧
    m !! "compiled_sha512" = Some (sha512 (content f)) ∧ m !! "source_bundle_sha512" = Some current.

(** The manifest is written in a form that reads back. *)
Definition manifest_reads_back : Prop := ∀ c b t,
  json_loads (json_dumps (manifest_doc c b t) +:+ NL) = Some (manifest_doc c b t).

Lemma swp_write_manifest f sha current s1 : manifest_reads_back → l65_placed s1 →
  l_disk s1 !! TARGET = Some f → sha = sha512 (content f) → source_bundle_sha512 sha512 src = Ok current →
  swp disp_step l65_moment (write_manifest json_dumps sha current)
    (λ r s2, r = Ok tt → l65_placed s2 ∧ l65_converged s2 ∧
       ∃ g, l_disk s2 !! manifest_path = Some g ∧ mode g = 420%Z ∧ of_root g = true) s1.
Proof.
  intros Hjson Hp Hf -> Hsrc. destruct s1 as [d sent]. cbn [l_disk] in *. unfold write_manifest.
  pose proof (manifest_apart "") as (Hne & _ & _).
  assert (Hset : ∀ d g, l65_placed (LState d sent) → l65_placed (LState (<[manifest_path := g]> d) sent)).
  { intros d0 g. apply placed_change. intros q ?. by rewrite lookup_insert_ne. }
  assert (Hchg : ∀ h d1 d2, l65_placed (LState d1 sent) → changes h manifest_path d1 (Ok tt) d2 → l65_placed (LState d2 sent)).
  { intros h d1 d2 H1 (g & _ & _ & ->). by apply Hset. }
  disp_call_step; [eauto| |by intros e s' (? & -> & ->); split; [eauto|]]. intros [] s' (? & -> & ->).
  disp_call_step; [eauto| |by intros e s' ->; split; [eauto|]]. intros stamp s' ->.
  disp_call_step; [eauto| |by intros e s' ->; split; [eauto|]]. intros [] s' Htr.
  assert (∃ g, s' = LState (<[manifest_path := g]> d) sent) as [g ->].
  { destruct Htr as [(g & _ & _ & ->)|(_ & m & o & ->)]; by eexists. }
  clear Htr. set (text := json_dumps _ +:+ NL).
  disp_call_step; [by apply placed_moment, Hset| |].
  2: { intros e s' (d' & [->|[c Hc]] & ->); (split; [|done]); apply placed_moment; [by apply Hset|].
       eapply Hchg; [by apply Hset|exact Hc]. }
  intros [] s' (d1 & (g1 & Hg1 & _ & ->) & ->). cbn [l_disk l_sent] in *. rewrite lookup_insert_eq in Hg1. injection Hg1 as <-. cbn [l_disk l_sent].
  rewrite insert_insert_eq.
  disp_call_step; [by apply placed_moment, Hset| |intros e s' (d' & Hd' & ->); cbn in Hd'; subst d'; by split; [apply placed_moment, Hset|]].
  intros [] s' (d2 & (g2 & Hg2 & _ & ->) & ->). cbn [l_disk l_sent] in *. rewrite lookup_insert_eq in Hg2. injection Hg2 as <-. cbn [l_disk l_sent].
  rewrite insert_insert_eq.
  disp_call_step; [by apply placed_moment, Hset|]. intros [[]|e] s' (d3 & Hd3 & ->); cbn [l_disk l_sent] in *.
  2: { cbn in Hd3. subst d3. by split; [apply placed_moment, Hset|]. }
  destruct Hd3 as (g3 & Hg3 & _ & ->). rewrite lookup_insert_eq in Hg3. injection Hg3 as <-. rewrite insert_insert_eq.
  split; [by apply placed_moment, Hset|]. intros _. split; [by apply Hset|]. rewrite lookup_insert_eq. split.
  - exists (str_entries (<["compiled_sha512" := JStr (sha512 (content f))]>
      (<["source_bundle_sha512" := JStr current]> {["compile_timestamp" := JStr stamp]}))), f, current.
    unfold observed. cbn [l_disk]. rewrite lookup_insert_eq. cbn [with_root with_mode with_content content].
    unfold parse_manifest, text. rewrite Hjson. split_and!; [done|by rewrite lookup_insert_ne|done|..];
      unfold str_entries; rewrite lookup_omap, ?lookup_insert_eq; [done|].
    by rewrite lookup_insert_ne, lookup_insert_eq.
  - eexists. split_and!; [done..].
Qed.

Lemma swp_l65_act sent : manifest_reads_back →
  swp disp_step l65_moment (l65_act sha512 tar_bytes gzip stat src accounts cfg json_dumps)
    (λ r s2, ∀ msg, r = Ok msg → l65_placed s2 ∧ l65_converged s2 ∧
       ∃ g, l_disk s2 !! manifest_path = Some g ∧ mode g = 420%Z ∧ of_root g = true) (LState s sent).
Proof.
  intros Hjson. unfold l65_act.
  assert (HI : l65_moment (LState s sent)) by (left; apply during_refl).
  disp_call_step; [done| |by intros e s' (? & -> & ->)]. intros [] s' (? & -> & ->).
  disp_call_step; [done| |by intros e s' (? & -> & ->)].
  intros tmp s' (d & ([suffix ->] & Hn & o & ->) & ->). cbn [l_disk l_sent].
  assert (Hd : downloading COMPILE_PREFIX s suffix (<[temp_path COMPILE_PREFIX suffix := MkFile "" 384 o false]> s)).
  { split; [eexists; by rewrite lookup_insert_eq|]. intros q ?. by rewrite lookup_insert_ne. }
  apply swp_bind. eapply swp_mono; [|by apply swp_stage_compiled].
  intros [[]|e] [d1 sent1] HI1 Hok; [|done]. destruct (Hok eq_refl) as (f & Hr & Hd1). cbn [l_disk l_sent] in *.
  apply swp_bind. eapply swp_mono; [|by eapply swp_install_compiled].
  intros [[]|e] s2 HI2 Hp; [|done]. specialize (Hp eq_refl).
  apply swp_bind, swp_sha; [done| |done].
  assert (∃ f, l_disk s2 !! TARGET = Some f) as [f2 Hf2].
  { destruct Hp as (d2 & ((f2 & Hf2 & _) & _) & Hq). exists f2. rewrite Hq; [done|]. by pose proof (manifest_apart "") as [? _]. }
  rewrite Hf2. cbn [fmap option_fmap option_map]. apply swp_bind, swp_ret; [done|].
  destruct (source_bundle_sha512 sha512 src) as [current|e] eqn:Hsrc; [|done].
  apply swp_bind. eapply swp_mono; [|by eapply swp_write_manifest].
  intros [[]|e] s3 HI3 H3; [|done]. apply swp_ret; [done|]. intros _ _. by apply H3.
Qed.
End act.

(** ** The phase, its reverify and the check *)

Section verdicts.
Context (sha512 : string → string) (tar_bytes : list member → string) (gzip : string → string).
Context (stat : string → bool → TarInfo) (src : source) (accounts : host_env) (cfg : HostConfig).
Context (json_loads : string → option JsonValue) (json_dumps : JsonValue → string).
Local Abbreviation observed := (observed json_loads).
Local Abbreviation converged := (l65_converged sha512 src json_loads).

(** What the three of them see: no manifest or binary, or whether both digests
    of the manifest are those at hand. *)
Definition seen (s : lstate) : option bool :=
  match observed s, l_disk s !! TARGET with
  | Ok (Some m), Some f =>
      Some (entry_is "compiled_sha512" (sha512 (content f)) m &&
            from_option (λ cur, entry_is "source_bundle_sha512" cur m) false
              (match source_bundle_sha512 sha512 src with Ok cur => Some cur | Err _ => None end))
  | _, _ => None
  end.

Lemma seen_converged s : seen s = Some true ↔ converged s.
Proof.
  unfold seen, l65_converged, entry_is. split.
  - destruct (observed s) as [[m|]|]; [|done..]. destruct (l_disk s !! TARGET) as [f|]; [|done].
    destruct (source_bundle_sha512 sha512 src) as [cur|]; cbn; intros [= [H1 H2]%andb_true_iff]; [|done].
    rewrite bool_decide_eq_true in H1, H2. by exists m, f, cur.
  - intros (m & f & cur & -> & -> & -> & H1 & H2). cbn. by rewrite !bool_decide_true.
Qed.

Lemma swp_probe (I : lstate → Prop) s : I s → swp disp_step I (l65_probe sha512 src json_loads)
  (λ r s', s' = s ∧ ∀ v d, r = Ok (v, d) →
     v = match seen s with None => MISSING | Some true => ALREADY_CORRECT | Some false => DRIFT end) s.
Proof.
  intros HI. unfold l65_probe. apply swp_bind, (swp_manifest json_loads); [done| |done].
  intros [m|] Hm; [|apply swp_ret; [done|]; split; [done|]; intros v d [= <- _]; unfold seen; by rewrite Hm].
  apply swp_bind, swp_sha; [done| |done]. unfold seen. rewrite Hm.
  destruct (l_disk s !! TARGET) as [f|]; cbn [fmap option_fmap option_map].
  2: { apply swp_ret; [done|]. split; [done|]. by intros v d [= <- _]. }
  apply swp_bind, swp_ret; [done|]. destruct (source_bundle_sha512 sha512 src) as [cur|]; [|done].
  apply swp_ret; [done|]. split; [done|]. intros v d. cbn. destruct (entry_is _ _ _ && _); by intros [= <- _].
Qed.

Lemma swp_reverify (I : lstate → Prop) s : I s → swp disp_step I (l65_reverify sha512 src json_loads)
  (λ r s', s' = s ∧ ∀ v, r = Ok v → v = true ↔ seen s = Some true) s.
Proof.
  intros HI. unfold l65_reverify. apply swp_bind, (swp_manifest json_loads); [done| |done].
  intros [m|] Hm; [|apply swp_ret; [done|]; split; [done|]; intros v [= <-]; unfold seen; by rewrite Hm].
  apply swp_bind, swp_sha; [done| |done]. unfold seen. rewrite Hm.
  destruct (l_disk s !! TARGET) as [f|]; cbn [fmap option_fmap option_map].
  2: { apply swp_ret; [done|]. split; [done|]. by intros v [= <-]. }
  unfold compose. destruct (entry_is "compiled_sha512" _ m).
  2: { apply swp_ret; [done|]. split; [done|]. by intros v [= <-]. }
  apply swp_bind, swp_ret; [done|]. destruct (source_bundle_sha512 sha512 src) as [cur|]; [|done].
  apply swp_ret; [done|]. split; [done|]. intros v [= <-]. cbn. by destruct (entry_is _ _ _).
Qed.

Lemma swp_check (I : lstate → Prop) s : I s → swp disp_step I (check_dispatcher_sha_drift sha512 src json_loads)
  (λ r s', s' = s ∧ ∀ c, r = Ok c →
     status c = match seen s with None => SKIP | Some true => PASS | Some false => WARN end) s.
Proof.
  intros HI. unfold check_dispatcher_sha_drift. apply swp_bind, (swp_manifest json_loads); [done| |done].
  intros [m|] Hm; [|apply swp_ret; [done|]; split; [done|]; intros c [= <-]; unfold seen; by rewrite Hm].
  apply swp_bind, swp_sha; [done| |done]. unfold seen. rewrite Hm.
  destruct (l_disk s !! TARGET) as [f|]; cbn [fmap option_fmap option_map].
  2: { apply swp_ret; [done|]. split; [done|]. by intros c [= <-]. }
  unfold compose. destruct (entry_is "compiled_sha512" _ m); cbn [negb andb].
  2: { apply swp_ret; [done|]. split; [done|]. by intros c [= <-]. }
  apply swp_bind, swp_ret; [done|]. destruct (source_bundle_sha512 sha512 src) as [cur|]; [|done].
  cbn [from_option]. destruct (entry_is _ cur m); (apply swp_ret; [done|]); (split; [done|]); by intros c [= <-].
Qed.

(** With the sources unreadable nothing is converged and nothing is said. *)
Lemma l65_contract : manifest_reads_back json_loads json_dumps →
  PhaseContract (λ _ : bool, disp_step)
    (l65_body sha512 tar_bytes gzip stat src accounts cfg json_loads json_dumps) converged.
Proof.
  intros Hjson. split.
  - intros s. eapply swp_mono, swp_probe; [|done]. intros r s' _ [-> Hr] detail ->.
    apply seen_converged. specialize (Hr _ _ eq_refl). by destruct (seen s) as [[]|].
  - intros faults s. eapply swp_mono, swp_reverify; [|done]. intros r s' _ [-> Hr] v ->. specialize (Hr v eq_refl).
    rewrite seen_converged in Hr. split; [by intros ?%Hr|]. by intros _ ?%Hr.
  - intros [d sent]. eapply swp_inv_mono, swp_mono, swp_l65_act; [done| |exact Hjson].
    intros r s' _ H [detail ->]. by eapply H.
Qed.
End verdicts.

(** ** Properties *)

Section properties.
Context (sha512 : string → string) (tar_bytes : list member → string) (gzip : string → string).
Context (stat : string → bool → TarInfo) (src : source) (accounts : host_env) (cfg : HostConfig).
Context (json_loads : string → option JsonValue) (json_dumps : JsonValue → string).
Local Abbreviation act := (l65_act sha512 tar_bytes gzip stat src accounts cfg json_dumps).
Local Abbreviation probe := (l65_probe sha512 src json_loads).
Local Abbreviation reverify := (l65_reverify sha512 src json_loads).
Local Abbreviation check := (check_dispatcher_sha_drift sha512 src json_loads).

(** C34: Installing the dispatcher is atomic up to its manifest.  At every moment
    of every run, failures included, the binary at the target is the one of
    before or exactly what the crossing to the daemon user sent, decoded,
    executable and root's; the manifest and every other file are untouched until
    the new binary is sealed in place with its staging and temporary files gone,
    and from then on only the manifest changes.  A run that returns leaves a
    manifest of that binary and of the source at hand, root's and mode 0644. *)
Theorem dispatcher_install_atomic s sent t1 t2 r s1 : manifest_reads_back json_loads json_dumps →
  runs act (t1 ++ t2) r → path disp_step (LState s sent) t1 s1 →
  l65_moment s s1 ∧
  (t2 = [] → ∀ msg, r = Ok msg →
   l65_placed s s1 ∧ l65_converged sha512 src json_loads s1 ∧
   ∃ g, l_disk s1 !! manifest_path = Some g ∧ mode g = 420%Z ∧ of_root g = true).
Proof.
  intros Hjson Hr Hp.
  pose proof (swp_l65_act sha512 tar_bytes gzip stat src accounts cfg json_loads json_dumps s sent Hjson) as Hw.
  split; [by eapply swp_always|]. intros -> msg ->. rewrite app_nil_r in Hr.
  by apply (swp_post _ _ _ _ _ _ _ _ Hr Hp Hw msg).
Qed.

(** The phase keeps the contract of a phase, and the doctor's check sees the
    same: on one host the probe, the reverify and the check change nothing and
    agree on whether the binary and its source are those of the manifest. *)
Theorem dispatcher_verdicts_agree s t1 t2 t3 s1 s2 s3 verdict detail c b :
  runs probe t1 (Ok (verdict, detail)) → path disp_step s t1 s1 →
  runs check t2 (Ok c) → path disp_step s t2 s2 →
  runs reverify t3 (Ok b) → path disp_step s t3 s3 →
  s1 = s ∧ s2 = s ∧ s3 = s ∧
  (b = true ↔ l65_converged sha512 src json_loads s) ∧
  (verdict = ALREADY_CORRECT ↔ b = true) ∧ (status c = PASS ↔ b = true) ∧
  (verdict = MISSING ↔ status c = SKIP) ∧ (verdict = DRIFT ↔ status c = WARN).
Proof.
  intros Hr1 Hp1 Hr2 Hp2 Hr3 Hp3.
  destruct (swp_post _ _ _ _ _ _ _ _ Hr1 Hp1 (swp_probe sha512 src json_loads (λ _, True) s I)) as [-> Hv].
  destruct (swp_post _ _ _ _ _ _ _ _ Hr2 Hp2 (swp_check sha512 src json_loads (λ _, True) s I)) as [-> Hc].
  destruct (swp_post _ _ _ _ _ _ _ _ Hr3 Hp3 (swp_reverify sha512 src json_loads (λ _, True) s I)) as [-> Hb].
  specialize (Hv _ _ eq_refl). specialize (Hc _ eq_refl). specialize (Hb _ eq_refl).
  rewrite <- seen_converged. subst verdict. rewrite Hc, Hb. by destruct (seen sha512 src json_loads s) as [[]|].
Qed.

(** A manifest that is no JSON, as an interrupted write leaves it, stops the
    probe, and with it the phase, until someone removes the file. *)
Lemma torn_manifest_stops_phase s f t r s1 : l_disk s !! manifest_path = Some f → json_loads (content f) = None →
  runs probe t r → path disp_step s t s1 → ∃ e, r = Err e.
Proof.
  intros Hf Hn Hr Hp.
  assert (Hw : swp disp_step (λ _, True) probe (λ r _, ∃ e, r = Err e) s).
  { unfold l65_probe. apply swp_bind, (swp_manifest json_loads); [done| |by eexists].
    unfold observed, parse_manifest. rewrite Hf, Hn. done. }
  exact (swp_post _ _ _ _ _ _ _ _ Hr Hp Hw).
Qed.
End properties.

(** What the recipe builds crosses intact: when the script of the payload
    ends with status 0, its output decodes to the very bytes that the container
    left as the dispatcher, and when it left none the status is not 0. *)
Theorem built_binary_crosses h image b64 :
  match built_binary h image with
  | Some binary => (run_recipe h image b64).1 = 0%Z ∧ decoded (run_recipe h image b64).2 = Ok binary
  | None => (run_recipe h image b64).1 ≠ 0%Z
  end.
Proof.
  rewrite run_recipe_spec. destruct (built_binary h image) as [binary|]; [|done]. split; [done|].
  unfold decoded. cbn [snd]. rewrite strip_id; [apply b64_roundtrip|].
  pose proof (b64encode_safe binary) as Hs. induction (b64encode binary) as [|c s IH]; [done|].
  cbn [str_forall] in *. apply andb_true_iff in Hs as [Hc Hs]. by rewrite (b64_safe_not_space c Hc), IH.
Qed.

(** ** Executable runs *)

(** A host whose build crosses as [out]; a call [fails] picks fails. *)
Section machine.
Context (out : string) (fails : disp_call → bool).

Definition bin_reply (d : disk) (c : bin_call) : res (bin_answer c) :=
  match c with
  | IsFile p | Exists p => Ok (bool_decide (is_Some (d !! p)))
  | ReadBytes p => from_option (λ f, Ok (content f)) (Err FileNotFoundError) (d !! p)
  | Machine => Ok "x86_64"
  | Urlopen _ => Ok ""
  | Mkstemp prefix => Ok (temp_path prefix "abcd1234")
  | _ => Ok tt
  end.

Definition disp_machine (s : lstate) (c : disp_call) : res (disp_answer c) * lstate :=
  if fails c then (Err OSError, s) else
  match c return res (disp_answer c) * lstate with
  | Bin c => match bin_do (l_disk s) c (bin_reply (l_disk s) c) with
             | Some d => (bin_reply (l_disk s) c, LState d (l_sent s))
             | None => (Err OSError, s)
             end
  | Cross _ => (Ok out, LState (l_disk s) (Some out))
  | ReadText p => (Ok (content <$> l_disk s !! p), s)
  | Truncate p =>
      match l_disk s !! p with
      | Some f => if immutable f then (Err OSError, s) else (Ok tt, LState (<[p := with_content "" f]> (l_disk s)) (l_sent s))
      | None => (Ok tt, LState (<[p := MkFile "" 420 true false]> (l_disk s)) (l_sent s))
      end
  | Now => (Ok "2026-01-01", s)
  end.

Lemma bin_fails d c e : bin_step d c (Err e) d.
Proof. destruct c; cbn; try done; by left. Qed.

Lemma disp_fails s c e : disp_step s c (Err e) s.
Proof.
  destruct s as [d sent], c; cbn; try done.
  - exists d. split; [apply bin_fails|done].
Qed.

Lemma disp_machine_step s c : disp_step s c (disp_machine s c).1 (disp_machine s c).2.
Proof.
  unfold disp_machine. destruct (fails c); [apply disp_fails|]. destruct s as [d sent], c as [c|argv|p|p|].
  - cbn [l_disk l_sent]. destruct (bin_do d c _) as [d'|] eqn:E; [|apply disp_fails].
    exists d'. split; [by apply bin_do_step|done].
  - done.
  - cbn. split; [done|]. by intros t [= <-].
  - cbn. destruct (d !! p) as [f|] eqn:E; [|right; split; [done|]; by eexists _, _].
    destruct (immutable f) eqn:Hi; cbn; [done|]. left. by exists f.
  - done.
Qed.
End machine.

Definition COMMA : ascii := ","%char.
(** A toy of the [json] module: the three texts as base64. *)
Definition doc_text (k : string) (v : JsonValue) : string :=
  match v with JObj m => match m !! k with Some (JStr s) => b64encode s | _ => "" end | _ => "" end.
Definition toy_dumps (v : JsonValue) : string :=
  doc_text "compiled_sha512" v +:+ String COMMA (doc_text "source_bundle_sha512" v +:+ String COMMA (doc_text "compile_timestamp" v)).
Definition toy_loads (text : string) : option JsonValue :=
  let '(c, sep, rest) := partition_char COMMA text in
  let '(b, _, t) := partition_char COMMA rest in
  if nonempty sep then
    match b64decode c, b64decode b, b64decode t with
    | Ok c, Ok b, Ok t => Some (manifest_doc c b t) | _, _, _ => None end
  else None.

Lemma b64_no_comma s : has_char COMMA (b64encode s) = false.
Proof.
  apply (str_forall_not_exists b64_safe); [|apply b64encode_safe]. intros a Ha. apply Ascii.eqb_neq. by intros <-.
Qed.

Lemma b64_read_tail s : b64decode (b64encode s +:+ NL) = Ok s.
Proof.
  unfold b64decode. induction s as [|a|a b|a b c s IH] using string_ind3; cbn [b64encode]; [done|..];
    pose proof (N_of_ascii_lt a); try pose proof (N_of_ascii_lt b); try pose proof (N_of_ascii_lt c); cbn [String.append];
    do 2 b64_step; b64_byte a.
  - done.
  - b64_step. by b64_byte b.
  - do 2 b64_step. b64_byte b. b64_byte c. by rewrite IH.
Qed.

Lemma toy_json : manifest_reads_back toy_loads toy_dumps.
Proof.
  intros c b t. unfold toy_loads, toy_dumps.
  replace (doc_text "compiled_sha512" (manifest_doc c b t)) with (b64encode c)
    by (unfold doc_text, manifest_doc; by rewrite lookup_insert_eq).
  replace (doc_text "source_bundle_sha512" (manifest_doc c b t)) with (b64encode b)
    by (unfold doc_text, manifest_doc; by rewrite lookup_insert_ne, lookup_insert_eq).
  replace (doc_text "compile_timestamp" (manifest_doc c b t)) with (b64encode t)
    by (unfold doc_text, manifest_doc; by rewrite !lookup_insert_ne, lookup_singleton_eq).
  rewrite app_assoc_str. cbn [String.append]. rewrite partition_char_app by apply b64_no_comma.
  rewrite app_assoc_str. cbn [String.append]. rewrite partition_char_app by apply b64_no_comma.
  cbn [nonempty ch]. by rewrite !b64_roundtrip, b64_read_tail.
Qed.

Definition toy_sha (c : string) : string := "sha:" +:+ c.
Definition sent_elf : string := b64encode "ELF" +:+ NL.
Definition dispatcher_run (fails : disp_call → bool) (s : lstate) :=
  exec (disp_machine sent_elf fails)
    (l65_act toy_sha members_text id (plain_stat 0) (small_source "m" "t" []) (env_of bare_host)
       (ctx_config demo_ctx) toy_dumps) s.
Definition dispatcher_probe (fails : disp_call → bool) (s : lstate) :=
  exec (disp_machine sent_elf fails) (l65_probe toy_sha (small_source "m" "t" []) toy_loads) s.

Definition nothing_fails (c : disp_call) : bool := false.
Definition no_dispatcher : lstate := LState ∅ None.

Lemma dispatcher_install_atomic_witness :
  (dispatcher_run nothing_fails no_dispatcher).1.2 =
    Ok "dispatcher compiled + installed at /usr/local/libexec/sandbox-ai/dispatch; manifest recorded" ∧
  l65_converged toy_sha (small_source "m" "t" []) toy_loads (dispatcher_run nothing_fails no_dispatcher).2.
Proof.
  pose proof (exec_runs (disp_machine sent_elf nothing_fails)
    (l65_act toy_sha members_text id (plain_stat 0) (small_source "m" "t" []) (env_of bare_host)
       (ctx_config demo_ctx) toy_dumps) no_dispatcher) as Hr.
  fold (dispatcher_run nothing_fails no_dispatcher) in Hr. rewrite <- (app_nil_r (fst (fst _))) in Hr.
  assert (Hok : (dispatcher_run nothing_fails no_dispatcher).1.2 =
    Ok "dispatcher compiled + installed at /usr/local/libexec/sandbox-ai/dispatch; manifest recorded")
    by (vm_compute; reflexivity).
  split; [exact Hok|].
  exact (proj1 (proj2 (proj2 (dispatcher_install_atomic _ _ _ _ _ _ _ toy_loads _ _ _ _ [] _ _ toy_json Hr
    (exec_path disp_step _ _ _ (disp_machine_step sent_elf nothing_fails))) eq_refl _ Hok))).
Defined.

(** A write of the manifest that fails leaves it empty, and the next run's probe
    raises. *)
Definition manifest_write_fails (c : disp_call) : bool :=
  match c with Bin (WriteBytes p _) => String.eqb p manifest_path | _ => false end.

Lemma interrupted_manifest_blocks :
  let left := (dispatcher_run manifest_write_fails no_dispatcher).2 in
  content <$> l_disk left !! manifest_path = Some "" ∧
  content <$> l_disk left !! TARGET = Some "ELF" ∧
  (dispatcher_probe nothing_fails left).1.2 = Err JSONDecodeError.
Proof. vm_compute. split_and!; reflexivity. Qed.

(** An older binary is replaced, and then nothing is left to do. *)
Lemma dispatcher_converges_demo :
  (dispatcher_probe nothing_fails (dispatcher_run nothing_fails no_dispatcher).2).1.2 =
    Ok (ALREADY_CORRECT, "dispatcher binary + source bundle match the manifest").
Proof. vm_compute. reflexivity. Qed.

Lemma dispatcher_verdicts_agree_witness :
  let s := (dispatcher_run nothing_fails no_dispatcher).2 in
  (exec (disp_machine sent_elf nothing_fails) (l65_reverify toy_sha (small_source "m" "t" []) toy_loads) s).1.2 = Ok true ∧
  l65_converged toy_sha (small_source "m" "t" []) toy_loads s.
Proof.
  set (src := small_source "m" "t" []). intros s.
  pose proof (exec_runs (disp_machine sent_elf nothing_fails) (l65_probe toy_sha src toy_loads) s) as H1.
  pose proof (exec_runs (disp_machine sent_elf nothing_fails) (check_dispatcher_sha_drift toy_sha src toy_loads) s) as H2.
  pose proof (exec_runs (disp_machine sent_elf nothing_fails) (l65_reverify toy_sha src toy_loads) s) as H3.
  assert (E1 : (exec (disp_machine sent_elf nothing_fails) (l65_probe toy_sha src toy_loads) s).1.2 =
    Ok (ALREADY_CORRECT, "dispatcher binary + source bundle match the manifest")) by (vm_compute; reflexivity).
  assert (E2 : ∃ c, (exec (disp_machine sent_elf nothing_fails) (check_dispatcher_sha_drift toy_sha src toy_loads) s).1.2 = Ok c)
    by (eexists; vm_compute; reflexivity).
  assert (E3 : (exec (disp_machine sent_elf nothing_fails) (l65_reverify toy_sha src toy_loads) s).1.2 = Ok true)
    by (vm_compute; reflexivity).
  split; [exact E3|]. destruct E2 as [c E2]. rewrite E1 in H1. rewrite E2 in H2. rewrite E3 in H3.
  refine (proj1 (proj1 (proj2 (proj2 (proj2 (dispatcher_verdicts_agree _ _ _ s _ _ _ _ _ _ _ _ _ _
    H1 _ H2 _ H3 _))))) eq_refl); apply exec_path, disp_machine_step.
Defined.
