(* ===== verification/BridgeChecks.v ===== *)
(** * core.doctor.checks.workspace_bridge

    The checks of core/doctor/checks/workspace_bridge.py over a snapshot of what
    they read: a check changes nothing, so the host is a record of answers, an
    error answer being the exception of the read. *)
From S2P Require Import Prelude PyStr Json HostConfig Images Walker Doctor Hydration.
From Stdlib Require Import Ascii String.
Open Scope nat_scope.

(** ** What the checks read *)

Record check_host := CheckHost {
  ch_env : host_env;
  (* [HostConfig.from_marker(getpass.getuser())], and [Path.home()] *)
  ch_config : res HostConfig;
  ch_user_home : string;
  (* [os.getgroups()], the name of [os.getuid()], and the gids of the groups
     whose members include a name *)
  ch_getgroups : list Z;
  ch_current_user : res string;
  ch_groups_with : string → list Z;
  (* instances.json: the pairs of its object in order, [None] where it is none *)
  ch_registry : res (option (list (string * JsonValue)));
  (* [tomllib.load] of a file *)
  ch_toml : string → res table;
  ch_exists : string → bool;
  ch_isdir : string → bool;
  ch_listdir : string → res (list string);
  (* [os.stat]: permission bits, owner, device; an error is an [OSError], as the
     path is one below a directory that was found *)
  ch_mode : string → res Z;
  ch_uid : string → res Z;
  ch_dev : string → res Z;
  (* [os.walk(top, followlinks=False)]: the directory and file paths below *)
  ch_walk_dirs : string → list string;
  ch_walk_files : string → list string;
  (* [os.lstat]: size, and modification time in nanoseconds *)
  ch_lsize : string → res Z;
  ch_lmtime : string → res Z;
  ch_now : Z;
  ch_umask : Z;
  ch_realpath : string → res string;
  ch_cwd : string
}.

(** [except OSError] *)
Definition os_error (e : exn) : bool :=
  match e with OSError | FileNotFoundError | BlockingIOError | CrossDeviceError => true | _ => false end.

Definition ch_home (h : check_host) : string := sandbox_ai_home (ch_env h).

Definition BRIDGE : string := "Workspace Bridge".

Definition verdict (s : Status) (category name detail : string) (remediation : option string) : CheckResult :=
  MkCheckResult s name detail remediation None category.

(** [", ".join(l[:3])] *)
Definition sample (l : list string) : string := join ", " (take 3 l).
Definition len_text {A} (l : list A) : string := str_of_Z (Z.of_nat (List.length l)).

(** The dash and arrow of the texts are written as their UTF-8 bytes. *)
Definition NOT_SET_UP : string := "not set up yet — run `sudo sandbox setup`".

Section checks.
Context (exc_str : exn → string) (h : check_host).
Local Abbreviation bridge := (λ s, verdict s BRIDGE).

(** [_load_host_settings_or_skip] *)
Definition load_host_settings_or_skip (check_name : string) : res (HostSettings + CheckResult) :=
  match ch_config h with
  | Ok c => Ok (inl (host c))
  | Err ModeMarkerMissing => Ok (inr (bridge SKIP check_name NOT_SET_UP None))
  | Err e => Err e
  end.

Definition PICK_A_GID : string := "<pick-a-gid-in-claude-sandbox-subgid-range>".

Definition recommendation (host_user : string) : res string :=
  match autodetect_workspace_bridge_gid_recommendation (ch_env h) host_user 1000 with
  | Ok gid => Ok (str_of_Z gid)
  | Err NoSubgidRangeError | Err NoFreeGidInSubgidRangeError => Ok PICK_A_GID
  | Err e => Err e
  end.

Definition check_workspace_bridge_group_exists (host_user : string) : res CheckResult :=
  loaded ← load_host_settings_or_skip "workspace bridge group";
  match loaded with
  | inr skipped => Ok skipped
  | inl s =>
      let group := workspace_bridge_group s in
      let name := "workspace bridge group " +:+ py_repr group in
      match workspace_bridge_gid (ch_env h) s with
      | Ok gid => Ok (bridge PASS name ("gid=" +:+ str_of_Z gid) None)
      | Err WorkspaceBridgeGroupMissingError =>
          rec ← recommendation host_user;
          Ok (bridge FAILED name ("group " +:+ py_repr group +:+ " does not exist on this host")
                (Some ("sudo groupadd -g " +:+ rec +:+ " " +:+ group +:+ " && sudo usermod -aG " +:+ group +:+
                       " $USER && log out and back in")))
      | Err SubgidOutOfRangeError =>
          Ok (bridge FAILED name (exc_str SubgidOutOfRangeError)
                (Some ("Recreate the bridge group at a gid within " +:+ host_user +:+ "'s /etc/subgid range")))
      | Err e => Err e
      end
  end.

Definition MEMBER_CHECK : string := "operator in workspace bridge group".

Definition check_dev_in_workspace_bridge_group : res CheckResult :=
  loaded ← load_host_settings_or_skip MEMBER_CHECK;
  match loaded with
  | inr skipped => Ok skipped
  | inl s =>
      let group := workspace_bridge_group s in
      match workspace_bridge_gid (ch_env h) s with
      | Err (WorkspaceBridgeGroupMissingError as e) | Err (SubgidOutOfRangeError as e) | Err (NoSubgidRangeError as e) =>
          Ok (bridge FAILED MEMBER_CHECK (exc_str e) (Some "See `workspace bridge group` check"))
      | Err e => Err e
      | Ok gid =>
          if bool_decide (gid ∈ ch_getgroups h) then
            Ok (bridge PASS MEMBER_CHECK ("current process supplementary groups include gid " +:+ str_of_Z gid) None)
          else
            user ← ch_current_user h;
            if bool_decide (gid ∈ ch_groups_with h user) then
              Ok (bridge FAILED MEMBER_CHECK
                    ("User " +:+ py_repr user +:+ " is a member of " +:+ py_repr group +:+
                     " in /etc/group but the current process's supplementary groups do not include gid " +:+ str_of_Z gid)
                    (Some "Log out and log back in to refresh group membership"))
            else
              Ok (bridge FAILED MEMBER_CHECK ("User " +:+ py_repr user +:+ " is not a member of " +:+ py_repr group)
                    (Some ("sudo usermod -aG " +:+ group +:+ " " +:+ user +:+ " && relogin")))
      end
  end.

(** Only [NoSubuidRangeError] is caught. *)
Definition check_subuid_resolver_works (host_user : string) : res CheckResult :=
  match host_id_for_in_container (ch_env h) 1000 host_user with
  | Ok uid => Ok (bridge PASS "subuid resolver" ("in-container uid 1000 → host uid " +:+ str_of_Z uid) None)
  | Err NoSubuidRangeError =>
      Ok (bridge FAILED "subuid resolver" (exc_str NoSubuidRangeError)
            (Some ("Add a /etc/subuid entry for " +:+ host_user +:+ " (rootless docker setup); " +:+
                   "see https://docs.docker.com/engine/security/rootless/")))
  | Err e => Err e
  end.

(** ** Scans of the registered instances *)

(** Missing and malformed registries have no entries. *)
Definition registry_entries : res (list (string * JsonValue)) :=
  match ch_registry h with
  | Ok entries => Ok (default [] entries)
  | Err FileNotFoundError | Err JSONDecodeError => Ok []
  | Err e => Err e
  end.

Definition entry_dir (v : JsonValue) : option string := m ← as_obj v; m !! "instance_dir" ≫= as_str.

Definition registered_dirs (entries : list (string * JsonValue)) : list string :=
  omap (λ e, dir ← entry_dir e.2; if ch_isdir h dir then Some dir else None) entries.

Definition scan_instance_dirs : res (list string) :=
  entries ← registry_entries; Ok (registered_dirs entries).

Definition read_registry_raw : res (list (string * JsonValue)) := registry_entries.

(** [other::r--] *)
Definition world_readable (mode : Z) : bool := negb (Z.eqb (Z.land mode 4) 0).

Definition secret_leak (dir fname : string) : option string :=
  let fpath := path_join dir fname in
  match ch_mode h fpath with
  | Ok st => let mode := Z.land st 511 in
             if world_readable mode then Some (fpath +:+ " (mode " +:+ fmt_04o mode +:+ ")") else None
  | Err _ => None
  end.

Definition secret_leaks (inst : string) : res (list string) :=
  let dir := path_join inst "secrets" in
  if ch_isdir h dir then names ← ch_listdir h dir; Ok (omap (secret_leak dir) (names : list string))
  else Ok [].

Definition check_secrets_hydrated_restrictively : res CheckResult :=
  instances ← scan_instance_dirs;
  found ← mapM secret_leaks instances;
  let leaks := List.concat found in
  Ok (if bool_decide (leaks = []) then
        bridge PASS "secrets hydrated restrictively" "no world-readable secrets in registered instances" None
      else bridge WARN "secrets hydrated restrictively"
             (len_text leaks +:+ " secret(s) world-readable: " +:+ sample leaks)
             (Some "sandbox destroy && sandbox init && sandbox start")).

Definition CACHE_LOG_LEAVES : list string := ["cache/core/.claude"; "log/core"].

(** [uid_for_path] raises [OSError] for an absent leaf. *)
Definition stale_leaves (uid_for_path : string → res Z) (consumer : Z) (inst : string) : list string :=
  omap (λ leaf, let p := path_join inst leaf in
    match uid_for_path p with
    | Ok uid => if Z.eqb uid consumer then None else Some p
    | Err _ => None
    end) CACHE_LOG_LEAVES.

Definition check_pre_existing_instance_layout (host_user : string) (uid_for_path : option (string → res Z)) : res CheckResult :=
  let resolver := default (ch_uid h) uid_for_path in
  match host_id_for_in_container (ch_env h) 1000 host_user with
  | Err NoSubuidRangeError =>
      Ok (bridge SKIP "pre-existing instance layout" "cannot resolve subuid; see `subuid resolver` check" None)
  | Err e => Err e
  | Ok consumer =>
      instances ← scan_instance_dirs;
      let stale := flat_map (stale_leaves resolver consumer) instances in
      Ok (if bool_decide (stale = []) then
            bridge PASS "pre-existing instance layout" "no stale cache/log leaf ownership detected" None
          else bridge WARN "pre-existing instance layout"
                 (len_text stale +:+ " cache/log leaf(s) present but not consumer-subuid-owned: " +:+ sample stale)
                 (Some (join "; " (map (λ p, "rm -rf " +:+ p) stale))))
  end.

(** A workspace of a registered instance, with a path that is text. *)
Definition workspace_rows (inst : string) (data : table) : list (string * string * string) :=
  match assoc "workspaces" data with
  | Some (TTable ws) =>
      omap (λ e, match e.2 with
        | TTable body => match assoc "path" body with Some (TStr p) => Some (inst, e.1, p) | _ => None end
        | _ => None end) ws
  | _ => []
  end.

(** A file that is missing or no TOML is skipped; one that is no UTF-8 raises. *)
Definition toml_or_skip (p : string) : res (option table) :=
  match ch_toml h p with
  | Ok data => Ok (Some data)
  | Err OSError | Err FileNotFoundError | Err TOMLDecodeError => Ok None
  | Err e => Err e
  end.

Definition scan_instance_workspace_paths : res (list (string * string * string)) :=
  instances ← scan_instance_dirs;
  rows ← mapM (λ inst, data ← toml_or_skip (path_join inst "sandbox.toml");
                       Ok (from_option (workspace_rows inst) [] data)) instances;
  Ok (List.concat rows).

(** ** The backups *)

Definition backups_root : string := path_join (path_join (ch_home h) "workspaces") "_backups".

(** The directories of the third level that are no partial ones. *)
Definition subdirs (p : string) : res (list string) :=
  names ← ch_listdir h p; Ok (List.filter (λ n, ch_isdir h (path_join p n)) names).

Definition workspace_entries (dir : string) : res nat :=
  names ← subdirs dir; Ok (List.length (List.filter (λ n, negb (endswith ".partial" n)) names)).

Definition backup_entries : res nat :=
  insts ← subdirs backups_root;
  counts ← mapM (λ inst,
    wss ← subdirs (path_join backups_root inst);
    counts ← mapM (λ ws, workspace_entries (path_join (path_join backups_root inst) ws)) wss;
    Ok (sum_list counts)) insts;
  Ok (sum_list counts).

Definition total_bytes : Z :=
  foldr (λ p t, match ch_lsize h p with Ok n => n + t | Err _ => t end)%Z 0%Z (ch_walk_files h backups_root).

Definition GIB5 : Z := 5 * 1024 * 1024 * 1024.

(** [gb_text] prints the size in GB with two decimals. *)
Definition check_backups_disk_pressure (gb_text : Z → string) : res CheckResult :=
  if negb (ch_isdir h backups_root) then
    Ok (bridge PASS "backups disk pressure" "no backups directory; nothing to measure" None)
  else
    entries ← backup_entries;
    Ok (if Z.ltb GIB5 total_bytes || (50 <? entries) then
          bridge WARN "backups disk pressure"
            ("_backups/ has " +:+ str_of_Z (Z.of_nat entries) +:+ " entries totaling " +:+ gb_text total_bytes +:+ " GB")
            (Some ("Manually `rm -rf` stale entries under " +:+ backups_root))
        else bridge PASS "backups disk pressure"
               ("_backups/ has " +:+ str_of_Z (Z.of_nat entries) +:+ " entries (under 5 GB / 50)") None).

Definition HOUR_NS : Z := 3600 * 1000000000.

Definition stale_partials : list string :=
  List.filter (λ p, endswith ".partial" (basename p) &&
    match ch_lmtime h p with Ok t => Z.ltb HOUR_NS (ch_now h - t) | Err _ => false end) (ch_walk_dirs h backups_root).

Definition check_backups_partial_dirs_present : CheckResult :=
  if negb (ch_isdir h backups_root) then bridge PASS "backups partial dirs" "no backups directory" None
  else if bool_decide (stale_partials = []) then bridge PASS "backups partial dirs" "no stale .partial directories" None
  else bridge WARN "backups partial dirs"
         (len_text stale_partials +:+ " stale .partial dir(s) >1h old: " +:+ sample stale_partials)
         (Some "Manually `rm -rf` the .partial directories after confirming they are abandoned").

(** ** The umask, the boundary and the filesystem *)

(** [saved & 0o020 or saved & 0o002 == 0]: the comparison binds last. *)
Definition umask_warns (saved : Z) : bool := negb (Z.eqb (Z.land saved 16) 0) || Z.eqb (Z.land saved 2) 0.

Definition UMASK_CHECK : string := "operator umask workspace-friendly".

Definition check_dev_umask_workspace_friendly : res CheckResult :=
  rows ← scan_instance_workspace_paths;
  Ok (if bool_decide (rows = []) then bridge SKIP UMASK_CHECK "no workspaces registered; skipping umask check" None
      else if umask_warns (ch_umask h) then
        bridge WARN UMASK_CHECK
          ("operator umask " +:+ fmt_04o (ch_umask h) +:+ " masks group-write; workspace files " +:+
           "won't be group-writable for the agent")
          (Some ("Add `umask 007` to your shell rc (~/.bashrc, ~/.zshrc) so workspace " +:+
                 "files land mode 0660 (group rw, no access for others)"))
      else bridge PASS UMASK_CHECK ("operator umask " +:+ fmt_04o (ch_umask h) +:+ " preserves group write") None).

(** A path with a null byte raises [ValueError], which is not caught. *)
Definition boundary_offender (row : string * string * string) : res (option string) :=
  let '(inst, ws, p) := row in
  match ch_realpath h p with
  | Ok real => Ok (if bool_decide (real ∈ BOUNDARY_PATHS (ch_user_home h))
                   then Some (basename inst +:+ "/" +:+ ws +:+ " (" +:+ real +:+ ")") else None)
  | Err e => if os_error e then Ok None else Err e
  end.

Definition boundary_offenders (rows : list (string * string * string)) : res (list string) :=
  found ← mapM boundary_offender rows; Ok (omap id (found : list (option string))).

Definition check_workspace_path_in_walker_boundary : res CheckResult :=
  rows ← scan_instance_workspace_paths;
  offenders ← boundary_offenders rows;
  Ok (if bool_decide (offenders = []) then
        bridge PASS "workspace path in walker boundary" "all workspace paths are outside the walker boundary list" None
      else bridge FAILED "workspace path in walker boundary"
             (len_text offenders +:+ " workspace(s) at boundary path: " +:+ sample offenders)
             (Some "`sandbox workspace remove --purge` and re-add at a safe path")).

Definition check_workspace_home_single_filesystem : CheckResult :=
  let workspaces := path_join (ch_home h) "workspaces" in
  let name := "workspace home single filesystem" in
  match ch_dev h (ch_home h), ch_dev h workspaces with
  | Ok home_dev, Ok ws_dev =>
      if Z.eqb home_dev ws_dev then bridge PASS name "home and workspaces share a filesystem" None
      else bridge WARN name (ch_home h +:+ " and " +:+ workspaces +:+ " are on different filesystems")
             (Some ("Workspace rename and atomic backup rename will fail with EXDEV. " +:+
                    "Consolidate the trees onto one filesystem."))
  | Err FileNotFoundError, _ | Ok _, Err FileNotFoundError =>
      bridge PASS name "home or workspaces dir absent; nothing to check" None
  | Err e, _ | Ok _, Err e => bridge SKIP name ("stat failed: " +:+ exc_str e) None
  end.
End checks.

(** ** What the verdicts mean *)

Section spec.
Context (h : check_host).

(** An instance of the registry whose directory is there. *)
Definition registered (inst : string) : Prop :=
  ∃ entries k v, registry_entries h = Ok entries ∧ (k, v) ∈ entries ∧ entry_dir v = Some inst ∧ ch_isdir h inst = true.

Lemma elem_of_dirs entries inst : inst ∈ registered_dirs h entries ↔
  ∃ k v, (k, v) ∈ entries ∧ entry_dir v = Some inst ∧ ch_isdir h inst = true.
Proof.
  unfold registered_dirs. rewrite list_elem_of_omap. split.
  - intros ([k v] & Hin & H). cbn in H. destruct (entry_dir v) as [dir|] eqn:E; [|done]. cbn in H.
    destruct (ch_isdir h dir) eqn:Hd; [|done]. injection H as <-. by exists k, v.
  - intros (k & v & Hin & E & Hd). exists (k, v). split; [done|]. cbn. rewrite E. cbn. by rewrite Hd.
Qed.

Lemma scan_registered dirs inst : scan_instance_dirs h = Ok dirs → inst ∈ dirs ↔ registered inst.
Proof.
  unfold scan_instance_dirs, registered. intros (entries & He & [= <-])%res_bind_Ok. rewrite elem_of_dirs, He. split.
  - intros (k & v & H). by exists entries, k, v.
  - intros (entries' & k & v & [= <-] & H). by exists k, v.
Qed.

(** A registry that cannot be read for another reason than being missing or
    malformed. *)
Definition registry_fails (e : exn) : Prop :=
  ch_registry h = Err e ∧ e ≠ FileNotFoundError ∧ e ≠ JSONDecodeError.

Lemma scan_fails e : scan_instance_dirs h = Err e → registry_fails e.
Proof.
  unfold scan_instance_dirs, registry_entries, registry_fails.
  destruct (ch_registry h) as [entries|x]; [done|]. by destruct x; cbn; try done; intros [= <-].
Qed.

(** Reading each member of a list: all can be read, or one cannot. *)
Lemma mapM_res {A B} (f : A → res B) l :
  match mapM f l with
  | Ok ys => Forall2 (λ x y, f x = Ok y) l ys
  | Err e => ∃ x, x ∈ l ∧ f x = Err e
  end.
Proof.
  induction l as [|x l IH]; cbn [mapM]; [constructor|].
  destruct (f x) as [y|e] eqn:Ex; cbn; [|exists x; split; [left|done]].
  destruct (mapM f l) as [ys|e]; cbn; [by constructor|].
  destruct IH as (z & Hz & Ez). exists z. split; [by right|done].
Qed.

Lemma concat_nil_read {A B} (f : A → res (list B)) l ys : Forall2 (λ x y, f x = Ok y) l ys →
  List.concat ys = [] ↔ ∀ x, x ∈ l → f x = Ok [].
Proof.
  induction 1 as [|x y l ys E _ IH]; cbn.
  - split; [by intros _ x ?%elem_of_nil|done].
  - rewrite app_nil, IH. split.
    + by intros [-> Hl] z [->|Hz]%elem_of_cons; [|apply Hl].
    + intros H. split; [|intros z Hz; apply H; by right].
      specialize (H x (list_elem_of_here _ _)). congruence.
Qed.

(** A list made of the parts of each member is empty when each part is. *)
Lemma flat_map_nil {A B} (f : A → list B) l : flat_map f l = [] ↔ ∀ x, x ∈ l → f x = [].
Proof.
  induction l as [|x l IH]; cbn.
  - split; [by intros _ x ?%elem_of_nil|done].
  - rewrite app_nil, IH. split.
    + by intros [Hx Hl] y [->|Hy]%elem_of_cons; [|apply Hl].
    + intros H. split; [apply H; left|]. intros y Hy. apply H. by right.
Qed.

Lemma omap_nil {A B} (f : A → option B) (l : list A) : omap f l = [] ↔ ∀ x, x ∈ l → f x = None.
Proof.
  induction l as [|x l IH]; cbn.
  - split; [by intros _ x ?%elem_of_nil|done].
  - split.
    + destruct (f x) as [y|] eqn:E; [done|]. rewrite IH. by intros H z [->|Hz]%elem_of_cons; [|apply H].
    + intros H. rewrite (H x) by left. apply IH. intros y Hy. apply H. by right.
Qed.

(** A secret of an instance that others may read. *)
Definition exposed (inst fname : string) : Prop :=
  ch_isdir h (path_join inst "secrets") = true ∧ 
  (∃ names, ch_listdir h (path_join inst "secrets") = Ok names ∧ fname ∈ names) ∧
  ∃ st, ch_mode h (path_join (path_join inst "secrets") fname) = Ok st ∧ Z.testbit st 2 = true.

Lemma world_readable_bit st : world_readable (Z.land st 511) = Z.testbit st 2.
Proof.
  unfold world_readable. rewrite <- Z.land_assoc. change (Z.land 511 4) with (2 ^ 2)%Z.
  destruct (Z.testbit st 2) eqn:E.
  - apply negb_true_iff, Z.eqb_neq. intros H. apply (f_equal (λ z, Z.testbit z 2)) in H.
    rewrite Z.land_spec, E, Z.pow2_bits_true in H by lia. by rewrite Z.bits_0 in H.
  - apply negb_false_iff, Z.eqb_eq. apply Z.bits_inj'. intros n Hn. rewrite Z.land_spec, Z.bits_0.
    destruct (decide (n = 2%Z)) as [->|]; [by rewrite E|]. rewrite Z.pow2_bits_false by lia. by rewrite andb_false_r.
Qed.

Lemma secret_leaks_spec inst :
  match secret_leaks h inst with
  | Ok leaks => leaks = [] ↔ ∀ fname, ¬ exposed inst fname
  | Err e => ch_isdir h (path_join inst "secrets") = true ∧ ch_listdir h (path_join inst "secrets") = Err e
  end.
Proof.
  unfold secret_leaks, secret_leak, exposed. destruct (ch_isdir h (path_join inst "secrets")); [|split; [by intros _ f (? & _)|done]].
  destruct (ch_listdir h _) as [names|e]; cbn [mbind res_bind]; [|done]. rewrite omap_nil. split.
  - intros H fname (_ & (names' & [= <-] & Hin) & st & Hm & Hb). specialize (H _ Hin). cbv zeta beta in H.
    rewrite Hm, world_readable_bit, Hb in H. done.
  - intros H fname Hin. cbv zeta. destruct (ch_mode h _) as [st|] eqn:Hm; [|done].
    rewrite world_readable_bit. destruct (Z.testbit st 2) eqn:Hb; [|done]. destruct (H fname). split_and!; [done|by exists names|by exists st].
Qed.

Lemma stale_leaves_nil consumer inst : stale_leaves (ch_uid h) consumer inst = [] ↔
  ∀ leaf uid, leaf ∈ CACHE_LOG_LEAVES → ch_uid h (path_join inst leaf) = Ok uid → uid = consumer.
Proof.
  unfold stale_leaves. rewrite omap_nil. split.
  - intros H leaf uid Hl Hu. specialize (H leaf Hl). cbv zeta in H. rewrite Hu in H.
    destruct (Z.eqb_spec uid consumer); [done|discriminate].
  - intros H leaf Hl. cbv zeta. destruct (ch_uid h _) as [uid|] eqn:Hu; [|done].
    rewrite (H leaf uid Hl Hu). by rewrite Z.eqb_refl.
Qed.

(** A workspace of a registered instance, as its sandbox.toml has it. *)
Definition workspace_at (inst ws p : string) : Prop :=
  registered inst ∧ ∃ data rows body, ch_toml h (path_join inst "sandbox.toml") = Ok data ∧
    assoc "workspaces" data = Some (TTable rows) ∧ (ws, TTable body) ∈ rows ∧ assoc "path" body = Some (TStr p).

Lemma elem_of_rows inst data i ws p : (i, ws, p) ∈ workspace_rows inst data ↔
  i = inst ∧ ∃ rows body, assoc "workspaces" data = Some (TTable rows) ∧ (ws, TTable body) ∈ rows ∧
    assoc "path" body = Some (TStr p).
Proof.
  unfold workspace_rows. destruct (assoc "workspaces" data) as [[| | | | |rows|]|];
    try (split; [by intros ?%elem_of_nil|by intros (_ & ? & ? & [=] & _)]).
  rewrite list_elem_of_omap. split.
  - intros ([n v] & Hin & H). cbn in H. destruct v as [| | | | |body|]; try done.
    destruct (assoc "path" body) as [[p'| | | | | |]|] eqn:E; try done. injection H as <- <- <-.
    split; [done|]. by exists rows, body.
  - intros (-> & rows' & body & [= <-] & Hin & E). exists (ws, TTable body). split; [done|]. cbn. by rewrite E.
Qed.

Lemma scan_workspaces rows inst ws p : scan_instance_workspace_paths h = Ok rows →
  (inst, ws, p) ∈ rows ↔ workspace_at inst ws p.
Proof.
  unfold scan_instance_workspace_paths. intros (dirs & Hd & (parts & Hp & [= <-])%res_bind_Ok)%res_bind_Ok.
  assert (H : ∀ x, x ∈ List.concat parts ↔ ∃ i data, i ∈ dirs ∧ ch_toml h (path_join i "sandbox.toml") = Ok data ∧
    x ∈ workspace_rows i data).
  { clear Hd. revert parts Hp. induction dirs as [|d dirs IH]; intros parts Hp x; cbn [mapM] in Hp.
    - injection Hp as <-. split; [by intros ?%elem_of_nil|by intros (? & ? & ?%elem_of_nil & _)].
    - apply res_bind_Ok in Hp as (part & Hpart & (parts' & Hp' & [= <-])%res_bind_Ok). cbn [List.concat].
      rewrite elem_of_app, (IH parts' Hp'). apply res_bind_Ok in Hpart as (od & Hod & [= <-]). unfold toml_or_skip in Hod.
      destruct (ch_toml h (path_join d "sandbox.toml")) as [data|e] eqn:Et.
      + injection Hod as <-. cbn [from_option]. split.
        * intros [Hx|(i & data' & ? & H)]; [exists d, data; split; [left|done]|exists i, data'; split; [by right|done]].
        * intros (i & data' & [->|Hi]%elem_of_cons & Ht & Hx); [left; congruence|right; eauto].
      + assert (od = None) as -> by (destruct e; try discriminate; by injection Hod as <-). cbn [from_option].
        split; [intros [?%elem_of_nil|(i & data & ? & H)]; [done|exists i, data; split; [by right|done]]|].
        intros (i & data & [->|Hi]%elem_of_cons & Ht & Hx); [congruence|right; eauto]. }
  rewrite H. unfold workspace_at. split.
  - intros (i & data & Hi & Ht & (-> & rows & body & Hr)%elem_of_rows). split; [by eapply scan_registered|].
    by exists data, rows, body.
  - intros (Hr & data & rows & body & Ht & H'). exists inst, data. split_and!; [by apply (scan_registered dirs)|done|].
    apply elem_of_rows. split; [done|]. by exists rows, body.
Qed.

(** A scan of the workspaces stops at a sandbox.toml that cannot be read for
    another reason than being missing or no TOML. *)
Definition toml_fails (e : exn) : Prop := ∃ inst, registered inst ∧
  ch_toml h (path_join inst "sandbox.toml") = Err e ∧ e ≠ OSError ∧ e ≠ FileNotFoundError ∧ e ≠ TOMLDecodeError.

Lemma scan_workspaces_fails e : scan_instance_workspace_paths h = Err e → registry_fails e ∨ toml_fails e.
Proof.
  unfold scan_instance_workspace_paths. destruct (scan_instance_dirs h) as [dirs|x] eqn:Hd; cbn.
  2: { intros [= <-]. left. by apply scan_fails. }
  pose proof (mapM_res (λ inst, data ← toml_or_skip h (path_join inst "sandbox.toml");
    Ok (from_option (workspace_rows inst) [] data)) dirs) as Hm.
  destruct (mapM _ dirs) as [rows|x]; [done|]. cbn. intros [= <-]. right.
  destruct Hm as (inst & Hin & Hx). exists inst. split; [by eapply scan_registered|].
  unfold toml_or_skip in Hx. destruct (ch_toml h _) as [data|y]; [done|].
  destruct y; cbn in Hx; try done; by injection Hx as <-.
Qed.

Lemma Forall2_in_l {A B} (R : A → B → Prop) l l' x : Forall2 R l l' → x ∈ l → ∃ y, R x y.
Proof. induction 1 as [|a b l l' H _ IH]; [by intros ?%elem_of_nil|]. intros [->|Hx]%elem_of_cons; eauto. Qed.

(** The path does not resolve to one of the boundary list. *)
Definition within_boundary (p : string) : Prop :=
  ∀ real, ch_realpath h p = Ok real → real ∉ BOUNDARY_PATHS (ch_user_home h).

Lemma boundary_offenders_spec rows :
  match boundary_offenders h rows with
  | Ok offenders => offenders = [] ↔ ∀ inst ws p, (inst, ws, p) ∈ rows → within_boundary p
  | Err e => ∃ inst ws p, (inst, ws, p) ∈ rows ∧ ch_realpath h p = Err e ∧ os_error e = false
  end.
Proof.
  unfold boundary_offenders. pose proof (mapM_res (boundary_offender h) rows) as Hm.
  destruct (mapM _ rows) as [found|e]; cbn.
  - assert (omap id found = [] ↔ ∀ row, row ∈ rows → boundary_offender h row = Ok None) as ->.
    { induction Hm as [|row y rows found E _ IH]; cbn; [split; [by intros _ x ?%elem_of_nil|done]|].
      destruct y as [o|]; cbn; [|rewrite IH].
      - split; [done|]. intros H. specialize (H row (list_elem_of_here _ _)). congruence.
      - split; [by intros H z [->|Hz]%elem_of_cons; [|apply H]|]. intros H z Hz. apply H. by right. }
    unfold within_boundary. split.
    + intros H inst ws p Hin real Hr. specialize (H _ Hin). cbn in H. rewrite Hr in H. by case_bool_decide.
    + intros H [[inst ws] p] Hin. cbn. destruct (ch_realpath h p) as [real|e] eqn:Hr.
      * rewrite bool_decide_false; [done|]. by eapply H.
      * apply (Forall2_in_l _ _ _ _ Hm) in Hin as (y & E). cbn in E. rewrite Hr in E. by destruct (os_error e).
  - destruct Hm as ([[inst ws] p] & Hin & He). exists inst, ws, p. split; [done|]. cbn in He.
    destruct (ch_realpath h p) as [real|x]; [done|]. destruct (os_error x) eqn:E; [done|]. by injection He as ->.
Qed.

(** A verdict that only an empty list makes a pass. *)
Lemma pass_if_nil {A} `{EqDecision A} (l : list A) (p w : CheckResult) : status p = PASS → status w ≠ PASS →
  status (if bool_decide (l = []) then p else w) = PASS ↔ l = [].
Proof. intros ??. by case_bool_decide. Qed.

Lemma secrets_verdict :
  match check_secrets_hydrated_restrictively h with
  | Ok c => status c = PASS ↔ ∀ inst fname, registered inst → ¬ exposed inst fname
  | Err e => registry_fails e ∨ ∃ inst, registered inst ∧
      ch_isdir h (path_join inst "secrets") = true ∧ ch_listdir h (path_join inst "secrets") = Err e
  end.
Proof.
  unfold check_secrets_hydrated_restrictively.
  destruct (scan_instance_dirs h) as [dirs|e] eqn:Hd; cbn; [|left; by apply scan_fails].
  pose proof (mapM_res (secret_leaks h) dirs) as Hm. destruct (mapM _ dirs) as [found|e]; cbn.
  - rewrite pass_if_nil, (concat_nil_read _ _ _ Hm) by done. setoid_rewrite (scan_registered dirs); [|done]. split.
    + intros H inst fname Hr. pose proof (secret_leaks_spec inst) as Hs. rewrite (H inst Hr) in Hs. by apply Hs.
    + intros H inst Hr. pose proof (secret_leaks_spec inst) as Hs.
      destruct (Forall2_in_l _ _ _ inst Hm) as (y & E); [by apply (scan_registered dirs _ Hd)|].
      rewrite E in Hs. rewrite E. f_equal. apply Hs. intros fname. by apply H.
  - right. destruct Hm as (inst & Hin & He). exists inst. split; [by eapply scan_registered|].
    pose proof (secret_leaks_spec inst) as Hs. by rewrite He in Hs.
Qed.

Lemma layout_verdict host_user :
  match host_id_for_in_container (ch_env h) 1000 host_user, check_pre_existing_instance_layout h host_user None with
  | Err NoSubuidRangeError, Ok c => status c = SKIP
  | Ok consumer, Ok c => status c = PASS ↔ ∀ inst leaf uid, registered inst → leaf ∈ CACHE_LOG_LEAVES →
      ch_uid h (path_join inst leaf) = Ok uid → uid = consumer
  | Ok _, Err e => registry_fails e
  | Err e, Err e' => e' = e
  | Err _, Ok _ => False
  end.
Proof.
  unfold check_pre_existing_instance_layout. destruct (host_id_for_in_container _ _ _) as [consumer|e]; [|by destruct e].
  destruct (scan_instance_dirs h) as [dirs|e] eqn:Hd; cbn; [|by apply scan_fails].
  rewrite pass_if_nil, flat_map_nil by done. setoid_rewrite (scan_registered dirs); [|done].
  setoid_rewrite stale_leaves_nil. naive_solver.
Qed.

Lemma boundary_verdict :
  match check_workspace_path_in_walker_boundary h with
  | Ok c => status c = PASS ↔ ∀ inst ws p, workspace_at inst ws p → within_boundary p
  | Err e => registry_fails e ∨ toml_fails e ∨
      ∃ inst ws p, workspace_at inst ws p ∧ ch_realpath h p = Err e ∧ os_error e = false
  end.
Proof.
  unfold check_workspace_path_in_walker_boundary.
  destruct (scan_instance_workspace_paths h) as [rows|e] eqn:Hr; cbn.
  2: { destruct (scan_workspaces_fails e Hr); tauto. }
  pose proof (boundary_offenders_spec rows) as Hs. 
  destruct (boundary_offenders h rows) as [offenders|e]; cbn; setoid_rewrite (scan_workspaces rows) in Hs; [|done| |done].
  - by rewrite pass_if_nil.
  - tauto.
Qed.
End spec.

(** C36: What the scans of the registered instances report, and when they raise.
    A scan reads every entry of the registry whose directory exists and every
    workspace of its sandbox.toml, and a registry or file that is missing or
    malformed reports nothing.  The check of the secrets, where it returns,
    passes exactly when no file directly in an instance's secrets directory is
    readable by others: the config files, which the specification names too, are
    not looked at ([config_not_scanned]).  The check of the layout is skipped
    where the owner has no subordinate range; where the consumer resolves it
    passes exactly when every cache or log leaf that is there is the consumer's.
    The check of the boundary passes exactly when no workspace resolves to a
    path of the list.  Each raises only for a registry that cannot be read, a
    secrets directory that cannot be listed, a consumer that does not resolve, a
    sandbox.toml that is no text, or a path that cannot be one. *)
Theorem instance_scans_exact h host_user :
  (match check_secrets_hydrated_restrictively h with
   | Ok c => status c = PASS ↔ ∀ inst fname, registered h inst → ¬ exposed h inst fname
   | Err e => registry_fails h e ∨ ∃ inst, registered h inst ∧
       ch_isdir h (path_join inst "secrets") = true ∧ ch_listdir h (path_join inst "secrets") = Err e
   end) ∧
  (match host_id_for_in_container (ch_env h) 1000 host_user, check_pre_existing_instance_layout h host_user None with
   | Err NoSubuidRangeError, Ok c => status c = SKIP
   | Ok consumer, Ok c => status c = PASS ↔ ∀ inst leaf uid, registered h inst → leaf ∈ CACHE_LOG_LEAVES →
       ch_uid h (path_join inst leaf) = Ok uid → uid = consumer
   | Ok _, Err e => registry_fails h e
   | Err e, Err e' => e' = e
   | Err _, Ok _ => False
   end) ∧
  match check_workspace_path_in_walker_boundary h with
  | Ok c => status c = PASS ↔ ∀ inst ws p, workspace_at h inst ws p → within_boundary h p
  | Err e => registry_fails h e ∨ toml_fails h e ∨
      ∃ inst ws p, workspace_at h inst ws p ∧ ch_realpath h p = Err e ∧ os_error e = false
  end.
Proof.
  split; [apply secrets_verdict|split; [apply layout_verdict|apply boundary_verdict]].
Qed.

(** The group's check passes exactly when the group is there with a gid of the
    owner's subordinate range; being a member of a group that is wrong never
    passes. *)
Theorem bridge_group_exact exc_str h host_user s c m : ch_config h = Ok (MkHostConfig s) →
  check_workspace_bridge_group_exists exc_str h host_user = Ok c → check_dev_in_workspace_bridge_group exc_str h = Ok m →
  (status c = PASS ↔ ∃ gid, workspace_bridge_gid (ch_env h) s = Ok gid) ∧
  (status m = PASS ↔ ∃ gid, workspace_bridge_gid (ch_env h) s = Ok gid ∧ gid ∈ ch_getgroups h) ∧
  (status c ≠ PASS → status c = FAILED) ∧ (status m ≠ PASS → status m = FAILED).
Proof.
  intros Hc H1 H2. unfold check_workspace_bridge_group_exists, check_dev_in_workspace_bridge_group,
    load_host_settings_or_skip in *. rewrite Hc in *. cbn in H1, H2.
  destruct (workspace_bridge_gid (ch_env h) s) as [gid|e].
  - injection H1 as <-. cbn. split; [split; [by exists gid|done]|]. revert H2. case_bool_decide as Hg.
    + intros [= <-]. cbn. split; [split; [by exists gid|done]|done].
    + intros (user & Hu & H2)%res_bind_Ok. revert H2. case_bool_decide; intros [= <-]; cbn;
        (split; [split; [done|by intros (? & [= <-] & ?)]|done]).
  - assert (status c = FAILED) as ->.
    { destruct e; try discriminate; [by injection H1 as <-|].
      apply res_bind_Ok in H1 as (rec & _ & H1). by injection H1 as <-. }
    assert (status m = FAILED) as -> by (destruct e; try discriminate; by injection H2 as <-).
    split; [split; [done|by intros [? ?]]|]. split; [split; [done|by intros (? & ? & _)]|done].
Qed.

(** The umask's check warns whenever others may write: the tests are on two
    different bits. *)
Lemma umask_warns_spec saved : umask_warns saved = true ↔ Z.testbit saved 4 = true ∨ Z.testbit saved 1 = false.
Proof.
  assert (Hbit : ∀ n, (0 <= n)%Z → Z.eqb (Z.land saved (2 ^ n)) 0 = negb (Z.testbit saved n)).
  { intros n Hn. destruct (Z.testbit saved n) eqn:E; cbn.
    - apply Z.eqb_neq. intros H. apply (f_equal (λ z, Z.testbit z n)) in H.
      rewrite Z.land_spec, E, Z.pow2_bits_true in H by done. by rewrite Z.bits_0 in H.
    - apply Z.eqb_eq, Z.bits_inj'. intros k Hk. rewrite Z.land_spec, Z.bits_0.
      destruct (decide (k = n)) as [->|]; [by rewrite E|]. rewrite Z.pow2_bits_false by lia. by rewrite andb_false_r. }
  unfold umask_warns. change 16%Z with (2 ^ 4)%Z. change 2%Z with (2 ^ 1)%Z. rewrite !Hbit by lia.
  destruct (Z.testbit saved 4), (Z.testbit saved 1); cbn; naive_solver.
Qed.

(** A demonstration host: one instance with one secret. *)
Definition demo_accounts (subuid subgid : string) : host_env :=
  HostEnv (λ u, if String.eqb u "sandbox" then Some (Passwd 999 999 "/home/sandbox") else None)
    (λ g, if String.eqb g "sb-ws" then Some 101500%Z else None) [101500%Z] (Some subuid) (Some subgid) "dev" "/home/dev/.sandbox-ai".

Definition demo_checks (subuid subgid : string) (secret_mode umask : Z) : check_host :=
  CheckHost (demo_accounts subuid subgid) (Ok (MkHostConfig (MkHostSettings (Some "sandbox") SEPARATE_USER "sb-ws")))
    "/home/dev" [1000%Z] (Ok "dev") (λ _, [])
    (Ok (Some [("web", JObj {["instance_dir" := JStr "/i/web"]})]))
    (λ p, Ok [("workspaces", TTable [("main", TTable [("path", TStr "/")])])])
    (λ _, true) (λ _, true) (λ p, if String.eqb p "/i/web/secrets" then Ok ["key"] else Ok [])
    (λ _, Ok secret_mode) (λ _, Ok 100999%Z) (λ _, Ok 1%Z) (λ _, []) (λ _, []) (λ _, Ok 0%Z) (λ _, Ok 0%Z) 0 umask (λ p, Ok p) "/".

Definition good_range : string := "sandbox:100000:65536" +:+ NL.

Lemma instance_scans_exact_witness :
  exposed (demo_checks good_range good_range 420 18) "/i/web" "key" ∧
  match check_secrets_hydrated_restrictively (demo_checks good_range good_range 420 18) with
  | Ok c => status c ≠ PASS
  | Err _ => False
  end.
Proof.
  set (h := demo_checks good_range good_range 420 18).
  assert (He : exposed h "/i/web" "key").
  { split_and!; [done|exists ["key"]; split; [done|left]|exists 420%Z; split; done]. }
  split; [exact He|]. destruct (instance_scans_exact h "sandbox") as [H _].
  destruct (check_secrets_hydrated_restrictively h) as [c|e] eqn:E; [|vm_compute in E; discriminate].
  intros Hp. refine (proj1 H Hp "/i/web" "key" _ He).
  eexists _, "web", _. split_and!; [reflexivity|apply list_elem_of_singleton; reflexivity|vm_compute; reflexivity|done].
Defined.

(** A config file of mode 0644 is not found: only the files directly in the
    secrets directory are. *)
Example config_not_scanned :
  let h := demo_checks good_range good_range 384 18 in
  let open := λ p, if startswith "/i/web/config" p then Ok 420%Z else ch_mode h p in
  let h' := CheckHost (ch_env h) (ch_config h) (ch_user_home h) (ch_getgroups h) (ch_current_user h) (ch_groups_with h)
    (ch_registry h) (ch_toml h) (ch_exists h) (ch_isdir h)
    (λ p, if String.eqb p "/i/web/config" then Ok ["core.env"] else ch_listdir h p)
    open (ch_uid h) (ch_dev h) (ch_walk_dirs h) (ch_walk_files h) (ch_lsize h) (ch_lmtime h) (ch_now h) (ch_umask h)
    (ch_realpath h) (ch_cwd h) in
  match check_secrets_hydrated_restrictively h' with Ok c => status c = PASS | Err _ => False end.
Proof. vm_compute. reflexivity. Qed.

(** A workspace path with a null byte ends the check in a [ValueError]. *)
Example null_byte_raises : ∃ h, check_workspace_path_in_walker_boundary h = Err ValueError.
Proof.
  set (h := demo_checks good_range good_range 420 18).
  exists (CheckHost (ch_env h) (ch_config h) (ch_user_home h) (ch_getgroups h) (ch_current_user h) (ch_groups_with h)
    (ch_registry h) (ch_toml h) (ch_exists h) (ch_isdir h) (ch_listdir h)
    (ch_mode h) (ch_uid h) (ch_dev h) (ch_walk_dirs h) (ch_walk_files h) (ch_lsize h) (ch_lmtime h) (ch_now h) (ch_umask h)
    (λ _, Err ValueError) (ch_cwd h)).
  vm_compute. reflexivity.
Qed.

Definition silent_text (e : exn) : string := "".

Lemma bridge_group_exact_witness :
  ∃ c m, check_workspace_bridge_group_exists silent_text (demo_checks good_range good_range 420 18) "sandbox" = Ok c ∧
    status c = PASS ∧ status m = FAILED.
Proof.
  set (h := demo_checks good_range good_range 420 18).
  assert (∃ c, check_workspace_bridge_group_exists silent_text h "sandbox" = Ok c) as [c H1] by (eexists; vm_compute; reflexivity).
  assert (∃ m, check_dev_in_workspace_bridge_group silent_text h = Ok m) as [m H2] by (eexists; vm_compute; reflexivity).
  exists c, m. pose proof (bridge_group_exact silent_text h "sandbox" _ c m eq_refl H1 H2) as (Hc & Hm & _ & Hf).
  split; [exact H1|]. split.
  - apply Hc. exists 101500%Z. vm_compute. reflexivity.
  - apply Hf. intros (gid & Hg & Hin)%Hm. vm_compute in Hg. injection Hg as <-.
    apply list_elem_of_singleton in Hin. discriminate.
Defined.

(** With no bits masked group write is preserved, and still the check warns. *)
Lemma permissive_umask_warned :
  umask_warns 0 = true ∧ umask_warns 5 = true ∧ Z.testbit 0 4 = false ∧ Z.testbit 5 4 = false.
Proof. by vm_compute. Qed.

(** A range of fewer than a thousand ids, or none, makes the checks raise. *)
Lemma short_range_raises :
  check_subuid_resolver_works silent_text (demo_checks ("sandbox:100000:500" +:+ NL) good_range 420 18) "sandbox" =
    Err SubuidOutOfRangeError ∧
  check_workspace_bridge_group_exists silent_text (demo_checks good_range "" 420 18) "sandbox" = Err NoSubgidRangeError.
Proof. by vm_compute. Qed.
