(* ===== verification/TreeChecks.v ===== *)
(** * core.doctor.checks: per_user_tree, filesystem, repo_integrity, instance_resources; core.doctor.render

    The checks that look at files and limits, over the snapshot of BridgeChecks
    and what they ask of tools, and the renderer of the results. *)
From S2P Require Import Prelude PyStr Json HostConfig Preflight Images Recipes Walker Doctor Hydration BridgeChecks.
From Stdlib Require Import Ascii String.
Open Scope nat_scope.

Definition result (s : Status) (name detail : string) (remediation : option string) : CheckResult :=
  verdict s "" name detail remediation.

(** ** core/doctor/checks/per_user_tree.py *)

Section tree.
Context (h : check_host).
Local Abbreviation tree := (λ s, verdict s "Per-User Tree").

(** [home / sub if sub else home] *)
Definition tree_dirs : list string := [ch_home h; path_join (ch_home h) "config"; path_join (ch_home h) "state"].

Definition check_per_user_tree_exists : CheckResult :=
  let missing := List.filter (λ d, negb (ch_isdir h d)) tree_dirs in
  if bool_decide (missing = []) then
    result PASS "per-user tree exists" ("All required directories present at " +:+ ch_home h) None
  else result FAILED "per-user tree exists" ("Missing directories: " +:+ join ", " missing)
         (Some ("Run sandbox init to create the per-user tree at " +:+ ch_home h +:+ ".")).

(** [oct(m)] *)
Definition oct (m : Z) : string := "0o" +:+ fmt_o m.

(** The directories whose mode differs, up to the first that is not there. *)
Fixpoint mode_drift (dirs : list string) : res (option (list (string * Z))) :=
  match dirs with
  | [] => Ok (Some [])
  | d :: dirs =>
      if negb (ch_isdir h d) then Ok None
      else
        st ← ch_mode h d;
        rest ← mode_drift dirs;
        let m := Z.land st 4095 in
        Ok (l ← rest; Some (if Z.eqb m 448 then l else (d, m) :: l))
  end.

Definition check_per_user_tree_mode : res CheckResult :=
  drift ← mode_drift tree_dirs;
  Ok match drift with
     | None => result SKIP "per-user tree mode" "Tree not initialized (see per-user tree exists)" None
     | Some [] => result PASS "per-user tree mode" "All directories are mode 0700" None
     | Some l =>
         result WARN "per-user tree mode"
           ("Mode drift detected: " +:+ join ", " (map (λ x, x.1 +:+ " (mode " +:+ oct x.2 +:+ ")") l) +:+ "; expected 0700")
           (Some (join "; " (map (λ x, "chmod 0700 " +:+ x.1) l)))
     end.

Definition legacy_messages : list string :=
  let legacy_toml := path_join (ch_cwd h) "sandbox-ai.toml" in
  let legacy_state := path_join (ch_cwd h) ".state" in
  ((if ch_exists h legacy_toml then
     ["Found legacy " +:+ legacy_toml +:+ ". Per-host config is now setup-determined — " +:+
      "run `sudo sandbox setup`. Delete the legacy file."] else []) ++
   (if ch_isdir h legacy_state then
     ["Found legacy " +:+ legacy_state +:+ ". Orchestrator state now lives at " +:+ path_join (ch_home h) "state" +:+
      ". Migrate manually or delete the legacy directory."] else []))%list.

Definition check_legacy_cwd_files : CheckResult :=
  if bool_decide (legacy_messages = []) then
    result PASS "legacy CWD files" "No legacy CWD-local orchestrator files detected" None
  else result WARN "legacy CWD files" (join " " legacy_messages) None.

Definition check_obsolete_host_toml : CheckResult :=
  let obsolete := path_join (path_join (ch_home h) "config") "sandbox-ai.toml" in
  if ch_exists h obsolete then
    tree WARN "obsolete host toml"
      ("Found an obsolete " +:+ obsolete +:+ ". Host config is now setup-determined — " +:+
       "delete this file and run `sudo sandbox setup`.") None
  else tree PASS "obsolete host toml" "No obsolete canonical host config file detected" None.

Definition check_legacy_sandboxes_dir_detected : CheckResult :=
  let dir := path_join (ch_cwd h) "sandboxes" in
  if ch_isdir h dir then
    tree WARN "legacy sandboxes dir detected" ("pre-change-5 layout at " +:+ dir)
      (Some ("Confirm no useful state remains, then `rm -rf " +:+ dir +:+ "`"))
  else tree PASS "legacy sandboxes dir detected" "no legacy sandboxes/ in CWD" None.

Definition carries_legacy_root (data : table) : bool :=
  match assoc "instance" data with
  | Some (TTable t) => bool_decide (is_Some (assoc "user_project_root" t))
  | _ => false
  end.

Definition check_legacy_workspace_in_user_project_root : res CheckResult :=
  dirs ← scan_instance_dirs h;
  legacy ← mapM (λ dir, data ← toml_or_skip h (path_join dir "sandbox.toml");
                        Ok (if from_option carries_legacy_root false data then [basename dir] else [])) dirs;
  let legacy := List.concat legacy in
  Ok (if bool_decide (legacy = []) then
        tree PASS "legacy user_project_root field" "no legacy user_project_root fields detected" None
      else tree WARN "legacy user_project_root field"
             (len_text legacy +:+ " instance(s) carry legacy field: " +:+ sample legacy)
             (Some ("Run `sandbox destroy <inst> && sandbox init <inst> --copy <ws>=<former-user-project-root>` " +:+ "to migrate."))).

Definition check_legacy_registry_shape : res CheckResult :=
  data ← read_registry_raw h;
  let legacy_keys := List.filter (startswith "/") (map fst data) in
  Ok (if bool_decide (legacy_keys = []) then tree PASS "legacy registry shape" "instances.json is name-keyed" None
      else tree WARN "legacy registry shape" (len_text legacy_keys +:+ " path-keyed entries in instances.json")
             (Some "`rm ~/.sandbox-ai/state/instances.json && sandbox init <each-inst>`")).
End tree.

(** ** core/doctor/checks/repo_integrity.py *)

Definition UNCONDITIONAL_FILES : list string :=
  ["docker/compose.yml"; "docker/core/entrypoint.sh"; "docker/admin/Dockerfile.admin"; "docker/admin/fwd.go";
   "docker/coredns/Dockerfile.coredns"; "config/coredns/Corefile"; "config/dnsdist/dnsdist.conf";
   "config/proxy/squid.conf"; "config/proxy/ERR_SANDBOX_403"; "config/core/.bashrc"; "config/core/.npmrc";
   "config/core/.gitconfig"; "config/core/sshd_config"; "config/core/CLAUDE.md"].

Definition check_tooling_plane (is_file : string → bool) : CheckResult :=
  let missing := List.filter (λ f, negb (is_file f)) UNCONDITIONAL_FILES in
  if bool_decide (missing = []) then result PASS "tooling plane" "All 14 unconditional files present" None
  else result FAILED "tooling plane" ("Missing files: " +:+ join ", " missing)
         (Some "Restore missing files from the repository or re-clone").

(** [tempfile_at] makes and removes a temporary file in a directory. *)
Definition check_state_dir_writable (home : string) (tempfile_at : string → res unit) : res CheckResult :=
  let state_dir := path_join home "state" in
  match tempfile_at state_dir with
  | Ok _ => Ok (result PASS "state dir writable" (state_dir +:+ " is writable") None)
  | Err OSError | Err FileNotFoundError =>
      Ok (result FAILED "state dir writable" (state_dir +:+ " is not writable") (Some ("Fix permissions: chmod 0700 " +:+ state_dir)))
  | Err e => Err e
  end.

(** ** core/doctor/checks/filesystem.py *)

(** What a probe with a subprocess gives: [None] for a timeout or an [OSError]. *)
Record fs_host := FsHost {
  fs_which : string → option string;
  (* the temporary file under the tree with [setfacl -m] and [-b] on it *)
  fs_acl_probe : string → res unit;
  fs_getfacl : string → option (Z * string);
  (* [os.stat]: mode, owner and group *)
  fs_stat : string → res (Z * Z * Z);
  fs_cgroup_controllers : bool;
  fs_abspath : string → string;
  fs_realpath : string → string;
  (* [dispatch.probe] of compose-ls *)
  fs_compose_ls : HostConfig → ProbeOutcome
}.

Section filesystem.
Context (f : fs_host) (env : host_env) (json_loads : string → option JsonValue).

Definition check_setfacl (distro : option string) : CheckResult :=
  match fs_which f "setfacl" with
  | Some path => if nonempty path then result PASS "setfacl" ("Found at " +:+ path) None
                 else result FAILED "setfacl" "setfacl not found on PATH" (Some (get_install_cmd distro "acl"))
  | None => result FAILED "setfacl" "setfacl not found on PATH" (Some (get_install_cmd distro "acl"))
  end.

Definition check_acl_support : res CheckResult :=
  match fs_acl_probe f (sandbox_ai_home env) with
  | Ok _ => Ok (result PASS "ACL support" "Filesystem supports POSIX ACLs" None)
  | Err CalledProcessError | Err OSError | Err FileNotFoundError =>
      Ok (result FAILED "ACL support" "Filesystem does not support POSIX ACLs"
            (Some "Ensure the filesystem is mounted with ACL support (mount -o acl)"))
  | Err e => Err e
  end.

Definition CGROUP_V2_CONTROLLERS : string := "/sys/fs/cgroup/cgroup.controllers".

Definition check_cgroup_v2 : CheckResult :=
  if fs_cgroup_controllers f then result PASS "cgroup v2" "Unified cgroup v2 hierarchy active" None
  else result FAILED "cgroup v2" ("Unified cgroup v2 hierarchy not active (" +:+ CGROUP_V2_CONTROLLERS +:+ " absent)")
         (Some "Boot with the unified cgroup hierarchy (systemd.unified_cgroup_hierarchy=1)").

(** A line of [getfacl] that gives the user the execute bit. *)
Definition grants_exec (user line : string) : bool :=
  let prefix := "user:" +:+ user +:+ ":" in
  let line := strip line in
  startswith prefix line && contains "x" (sdrop (str_len prefix) line).

Definition has_acl_exec (directory user : string) : bool :=
  match fs_getfacl f directory with
  | Some (returncode, stdout) => Z.eqb returncode 0 && existsb (grants_exec user) (splitlines stdout)
  | None => false
  end.

(** [while current != "/"], from the leaf up. *)
Fixpoint components_up (fuel : nat) (current : string) : option (list string) :=
  match fuel with
  | O => None
  | S fuel => if String.eqb current "/" then Some ["/"]
              else (λ l, current :: l) <$> components_up fuel (dirname current)
  end.

Definition mode_exec (uid gid : Z) (st : Z * Z * Z) : bool :=
  let '(mode, owner, group) := st in
  if Z.eqb owner uid then Z.testbit mode 6 else if Z.eqb group gid then Z.testbit mode 3 else Z.testbit mode 0.

Definition traversable (user : string) (pw : passwd) (directory : string) (st : Z * Z * Z) : bool :=
  mode_exec (pw_uid pw) (pw_gid pw) st || has_acl_exec directory user.

(** The first directory that cannot be examined, or not be traversed. *)
Inductive obstacle := NoStat (dir : string) | NoExec (dir : string).
Fixpoint first_obstacle (user : string) (pw : passwd) (dirs : list string) : option obstacle :=
  match dirs with
  | [] => None
  | d :: dirs =>
      match fs_stat f d with
      | Err _ => Some (NoStat d)
      | Ok st => if traversable user pw d st then first_obstacle user pw dirs else Some (NoExec d)
      end
  end.

(** [json.loads(stdout.strip() or "[]")] is an empty list. *)
Definition no_sandbox_running (user : string) (mode : DockerExecutionMode) : res bool :=
  cfg ← minimal_host_config user mode;
  let outcome := fs_compose_ls f cfg in
  Ok (if negb (ok outcome) then false
      else let text := strip (stdout outcome) in
           match json_loads (if nonempty text then text else "[]") with
           | Some (JList []) => true
           | _ => false
           end).

Definition TRAVERSE : string := "ancestor traverse".

Definition check_ancestor_traverse (user : string) (mode : DockerExecutionMode) : option (res CheckResult) :=
  let instances_dir := path_join (sandbox_ai_home env) "instances" in
  let abs_path := fs_abspath f instances_dir in
  match getpwnam env user with
  | None =>
      Some (Ok (result FAILED TRAVERSE ("User '" +:+ user +:+ "' does not exist on this host")
        (Some ("Create user: sudo useradd --system --shell /usr/sbin/nologin " +:+ user))))
  | Some pw =>
      up ← components_up (S (str_len abs_path)) abs_path;
      Some match first_obstacle user pw (reverse up) with
      | Some (NoStat d) =>
          Ok (result FAILED TRAVERSE ("Cannot stat directory: " +:+ d)
                (Some ("Verify directory exists and is accessible: ls -la " +:+ d)))
      | Some (NoExec d) =>
          idle ← no_sandbox_running user mode;
          Ok (if (idle : bool) then
                result SKIP TRAVERSE
                  ("User '" +:+ user +:+ "' cannot yet traverse to " +:+ d +:+ "; the ancestor-traverse ACL is granted at first " +:+
                   "'sandbox start' (no sandbox running). It will be applied then.")
                  (Some ("start a sandbox, or grant manually: setfacl -m u:" +:+ user +:+ ":--x " +:+ d))
              else result FAILED TRAVERSE ("User '" +:+ user +:+ "' lacks execute permission on " +:+ d)
                     (Some ("setfacl -m u:" +:+ user +:+ ":--x " +:+ d)))
      | None =>
          let real_path := fs_realpath f instances_dir in
          Ok (if String.eqb abs_path real_path then
                result PASS TRAVERSE ("All ancestor directories traversable by '" +:+ user +:+ "'") None
              else result WARN TRAVERSE
                     ("All ancestor directories traversable. Symlink divergence detected: " +:+ abs_path +:+ " resolves to " +:+
                      real_path +:+ ". ACLs may need to be applied to the real path.") None)
      end
  end.
End filesystem.

(** ** core/doctor/checks/instance_resources.py *)

Definition RESOURCES : string := "Instance Resources".

Section resources.
Context (h : check_host).
(** A rendered compose file: [None] where it cannot be read or is no YAML; then
    the pairs of its services, in order, [None] where the document or the
    services are no object.  [py_float] is [float] of a text. *)
Context (compose_of : string → option (option (list (string * JsonValue)))) (py_float : string → option pyfloat).
Context (host_cpus host_ram : Z).
Local Abbreviation resources := (λ s, verdict s RESOURCES).

(** The services that are objects; [None] is the skip signal. *)
Definition load_service_limits (dir : string) : option (list (string * gmap string JsonValue)) :=
  match compose_of (path_join (path_join dir "docker") "compose.yml") with
  | Some (Some l) => Some (omap (λ e : string * JsonValue, m ← as_obj e.2; Some (e.1, m)) l)
  | _ => None
  end.

(** [float(raw)] and [str(raw)] of a limit that is a text or a number. *)
Definition cpus_value (raw : JsonValue) : option (pyfloat * string) :=
  match raw with
  | JStr s => f ← py_float s; Some (f, s)
  | JInt n => Some (float_of_int n, str_of_Z n)
  | JFloat r => f ← py_float r; Some (f, r)
  | _ => None
  end.

Definition cpu_offenders (dir : string) (services : list (string * gmap string JsonValue)) : list string :=
  omap (λ e : string * gmap string JsonValue,
    raw ← e.2 !! "cpus"; v ← cpus_value raw;
    if float_gt v.1 host_cpus then Some (basename dir +:+ "/" +:+ e.1 +:+ " cpus=" +:+ v.2) else None) services.

Definition each_instance {A} (g : string → list (string * gmap string JsonValue) → list A) : res (list A) :=
  dirs ← scan_instance_dirs h; Ok (flat_map (λ dir, from_option (g dir) [] (load_service_limits dir)) dirs).

Definition check_host_cpu_capacity : res CheckResult :=
  offenders ← each_instance cpu_offenders;
  Ok (if bool_decide (offenders = []) then
        resources PASS "host CPU capacity" ("all rendered cpus within host count (" +:+ str_of_Z host_cpus +:+ ")") None
      else resources WARN "host CPU capacity"
             (len_text offenders +:+ " service(s) request more CPUs than the host's " +:+ str_of_Z host_cpus +:+ ": " +:+
              join "; " offenders)
             (Some ("Lower each service's cpus to ≤ " +:+ str_of_Z host_cpus +:+ " (the host CPU count) and re-run `sandbox start`"))).

Definition mem_value (raw : JsonValue) : option Z :=
  match raw with
  | JStr s => match parse_docker_size (inr s) with Ok n => Some n | Err _ => None end
  | JInt n => Some n
  | _ => None
  end.

Definition sum_mem_limits (services : list (string * gmap string JsonValue)) : Z :=
  foldr Z.add 0%Z (omap (λ e : string * gmap string JsonValue, e.2 !! "mem_limit" ≫= mem_value) services).

Definition check_instance_memory_overcommit : res CheckResult :=
  over ← each_instance (λ dir services,
    let total := sum_mem_limits services in
    if Z.ltb host_ram total then [basename dir +:+ " requests " +:+ str_of_Z total +:+ " bytes"] else []);
  Ok (if bool_decide (over = []) then
        resources PASS "instance memory over-commit" ("all instances within host RAM (" +:+ str_of_Z host_ram +:+ " bytes)") None
      else resources WARN "instance memory over-commit"
             (len_text over +:+ " instance(s) sum mem_limit above host RAM (" +:+ str_of_Z host_ram +:+ " bytes): " +:+
              join "; " over +:+ " — containers may be OOM-killed under memory pressure")
             (Some ("Lower the services' mem_limit so each instance's total stays ≤ " +:+ str_of_Z host_ram +:+ " bytes (host RAM)"))).
End resources.

(** ** core/doctor/render.py *)

(** A line of the console; the style is [None] where none is given. *)
Inductive out_line := Line (style : option string) (parts : list (string * option string)).
Definition plain_line (text : string) : out_line := Line None [(text, None)].
Definition styled (style text : string) : out_line := Line (Some style) [(text, None)].

(** Grouped by category, the categories in the order of their first result. *)
Fixpoint add_to_group {A} (k : string) (x : A) (groups : list (string * list A)) : list (string * list A) :=
  match groups with
  | [] => [(k, [x])]
  | (k', l) :: groups => if String.eqb k k' then (k', (l ++ [x])%list) :: groups else (k', l) :: add_to_group k x groups
  end.
Definition category_of (r : CheckResult) : string := if nonempty (cr_category r) then cr_category r else "General".
Definition grouped_results (results : list CheckResult) : list (string * list CheckResult) :=
  foldl (λ g r, add_to_group (category_of r) r g) [] results.

Definition fix_line (r : CheckResult) : list out_line :=
  match cr_remediation r with Some s => if nonempty s then [styled "yellow" ("    Fix: " +:+ s)] else [] | None => [] end.

Definition render_result (r : CheckResult) : list out_line :=
  match status r with
  | PASS => [Line (Some "green") (("  ✓ " +:+ cr_name r, None) ::
              (if nonempty (cr_detail r) then [("  " +:+ cr_detail r, Some "dim")] else []))]
  | FAILED =>
      (styled "red bold" ("  ✗ " +:+ cr_name r) :: plain_line ("    " +:+ cr_detail r) :: fix_line r ++
       match cr_doc_ref r with Some s => if nonempty s then [styled "dim" ("    Docs: " +:+ s)] else [] | None => [] end)%list
  | WARN => styled "yellow" ("  ⚠ " +:+ cr_name r) :: plain_line ("    " +:+ cr_detail r) :: fix_line r
  | SKIP => [styled "dim" ("  ⊘ " +:+ cr_name r +:+ " — " +:+ cr_detail r)]
  end.

Definition count_status (s : Status) (results : list CheckResult) : nat :=
  List.length (List.filter (λ r, bool_decide (status r = s)) results).

Definition summary (results : list CheckResult) : out_line :=
  let n s := count_status s results in
  let part s text := if 0 <? n s then " · " +:+ str_of_Z (Z.of_nat (n s)) +:+ text else "" in
  styled (if 0 <? n FAILED then "red bold" else if 0 <? n WARN then "yellow bold" else "green bold")
    (str_of_Z (Z.of_nat (n PASS)) +:+ "/" +:+ len_text results +:+ " passed" +:+
     part WARN " warnings" +:+ part FAILED " failed" +:+ part SKIP " skipped").

Definition render_results (results : list CheckResult) : list out_line :=
  (flat_map (λ g, plain_line (NL +:+ "[bold]" +:+ g.1 +:+ "[/bold]") :: flat_map render_result g.2) (grouped_results results) ++
   [plain_line ""; summary results])%list.

(** ** The traversal *)

Lemma iter_root n : Nat.iter n dirname "/" = "/".
Proof. induction n as [|n IH]; [done|]. change (dirname (Nat.iter n dirname "/") = "/"). by rewrite IH. Qed.

(** Every ancestor up to the root, and enough fuel to reach it. *)
Lemma components_up_spec fuel p : rooted p → str_len p < fuel →
  ∃ l, components_up fuel p = Some l ∧ ∀ d, d ∈ l ↔ ∃ n, d = Nat.iter n dirname p.
Proof.
  revert p; induction fuel as [|fuel IH]; intros p Hp Hf; [lia|]. cbn [components_up].
  destruct (String.eqb_spec p "/") as [->|Hne].
  - exists ["/"]. split; [done|]. intros d. rewrite list_elem_of_singleton. split; [intros ->; by exists 0|].
    intros [n ->]. apply iter_root.
  - destruct (dirname_shrinks p Hp Hne) as [Hr Hl]. destruct (IH (dirname p) Hr) as (l & -> & H); [lia|].
    exists (p :: l). split; [done|]. intros d. rewrite elem_of_cons, H. split.
    + intros [->|[n ->]]; [by exists 0|]. exists (S n). by rewrite Nat.iter_succ_r.
    + intros [[|n] ->]; [by left|right]. exists n. by rewrite Nat.iter_succ_r.
Qed.

Section traverse.
Context (f : fs_host) (env : host_env) (json_loads : string → option JsonValue).

Definition passable (user : string) (pw : passwd) (d : string) : Prop :=
  ∃ st, fs_stat f d = Ok st ∧ traversable f user pw d st = true.

Lemma first_obstacle_spec user pw dirs :
  match first_obstacle f user pw dirs with
  | None => ∀ d, d ∈ dirs → passable user pw d
  | Some (NoStat d) => d ∈ dirs ∧ ∃ e, fs_stat f d = Err e
  | Some (NoExec d) => d ∈ dirs ∧ ∃ st, fs_stat f d = Ok st ∧ traversable f user pw d st = false
  end.
Proof.
  induction dirs as [|d dirs IH]; cbn [first_obstacle]; [by intros d ?%elem_of_nil|].
  destruct (fs_stat f d) as [st|e] eqn:Es; [|split; [left|by exists e]].
  destruct (traversable f user pw d st) eqn:Et; [|split; [left|by exists st]].
  destruct (first_obstacle f user pw dirs) as [[d'|d']|].
  - destruct IH as [? ?]. split; [by right|done].
  - destruct IH as [? ?]. split; [by right|done].
  - intros d' [->|Hd]%elem_of_cons; [by exists st|by apply IH].
Qed.
End traverse.

(** The traversal check always ends, and its verdict is exact.  It walks from
    the directory of the instances up to the root; it passes, with a warning
    where the path resolves through a symlink, exactly when the user may
    traverse every ancestor by the mode bits or a named entry; it is skipped
    only when the daemon was asked and reported no project. *)
Theorem ancestor_traverse_exact f env json_loads user mode pw :
  getpwnam env user = Some pw →
  let abs := fs_abspath f (path_join (sandbox_ai_home env) "instances") in
  rooted abs →
  ∃ r, check_ancestor_traverse f env json_loads user mode = Some r ∧ ∀ c, r = Ok c →
    (status c = PASS ∨ status c = WARN ↔ ∀ n, passable f user pw (Nat.iter n dirname abs)) ∧
    (status c = WARN → fs_realpath f (path_join (sandbox_ai_home env) "instances") ≠ abs) ∧
    (status c = SKIP → no_sandbox_running f json_loads user mode = Ok true).
Proof.
  intros Hpw abs Hr. unfold check_ancestor_traverse. rewrite Hpw. fold abs.
  destruct (components_up_spec (S (str_len abs)) abs Hr) as (l & -> & Hl); [lia|]. cbn [mbind option_bind].
  eexists. split; [done|].
  pose proof (first_obstacle_spec f user pw (reverse l)) as Ho.
  assert (Hin : ∀ d, d ∈ reverse l ↔ ∃ n, d = Nat.iter n dirname abs) by (intros d; by rewrite elem_of_reverse).
  assert (Hall : (∀ n, passable f user pw (Nat.iter n dirname abs)) ↔ ∀ d, d ∈ reverse l → passable f user pw d).
  { split; [by intros H d [n ->]%Hin|]. intros H n. apply H, Hin. by exists n. }
  setoid_rewrite Hall. destruct (first_obstacle f user pw (reverse l)) as [[d|d]|].
  - intros c [= <-]. cbn. split; [|done]. split; [by intros [|]|]. intros H. destruct Ho as [Hd [e He]].
    destruct (H d Hd) as (st & Hst & _). congruence.
  - intros c. destruct (no_sandbox_running f json_loads user mode) as [[]|]; [..|done]; intros [= <-]; cbn; (split; [|done]);
      (split; [by intros [|]|]); intros H; destruct Ho as [Hd (st & Hst & Hf)];
      destruct (H d Hd) as (st' & Hst' & Ht); congruence.
  - intros c [= <-]. destruct (String.eqb_spec abs (fs_realpath f (path_join (sandbox_ai_home env) "instances")));
      cbn; (split; [split; [done|by auto]|]); split; (done || congruence).
Qed.

(** ** The sums and the rendering *)

(** The two limits are reported exactly where a concrete limit exceeds the
    host's. *)
Lemma each_instance_spec {A} h compose_of (g : string → list (string * gmap string JsonValue) → list A) l :
  each_instance h compose_of g = Ok l →
  l = [] ↔ ∀ dir services, registered h dir → load_service_limits compose_of dir = Some services → g dir services = [].
Proof.
  unfold each_instance. intros (dirs & Hd & [= <-])%res_bind_Ok. rewrite flat_map_nil.
  setoid_rewrite (scan_registered h dirs); [|done]. split.
  - intros H dir services Hr Hs. specialize (H dir Hr). by rewrite Hs in H.
  - intros H dir Hr. destruct (load_service_limits compose_of dir) as [services|] eqn:Hs; [|done]. by apply H.
Qed.

Theorem capacity_exact h compose_of py_float cpus ram c1 c2 :
  check_host_cpu_capacity h compose_of py_float cpus = Ok c1 → check_instance_memory_overcommit h compose_of ram = Ok c2 →
  (status c1 = PASS ↔ ∀ dir services name m raw v, registered h dir → load_service_limits compose_of dir = Some services →
     (name, m) ∈ services → m !! "cpus" = Some raw → cpus_value py_float raw = Some v → float_gt v.1 cpus = false) ∧
  (status c2 = PASS ↔ ∀ dir services, registered h dir → load_service_limits compose_of dir = Some services →
     (sum_mem_limits services <= ram)%Z).
Proof.
  unfold check_host_cpu_capacity, check_instance_memory_overcommit.
  intros (l1 & H1 & [= <-])%res_bind_Ok (l2 & H2 & [= <-])%res_bind_Ok. rewrite !pass_if_nil by done.
  rewrite (each_instance_spec _ _ _ _ H1), (each_instance_spec _ _ _ _ H2). split.
  - unfold cpu_offenders. setoid_rewrite omap_nil. split.
    + intros H dir services name m raw v Hr Hs Hin Hraw Hv. specialize (H dir services Hr Hs _ Hin). cbn in H.
      rewrite Hraw in H. cbn in H. rewrite Hv in H. cbn in H. by destruct (float_gt v.1 cpus).
    + intros H dir services Hr Hs [name m] Hin. cbn. destruct (m !! "cpus") as [raw|] eqn:Hraw; [|done]. cbn.
      destruct (cpus_value py_float raw) as [v|] eqn:Hv; [|done]. cbn. by rewrite (H _ _ _ _ _ _ Hr Hs Hin Hraw Hv).
  - split; intros H dir services Hr Hs; specialize (H dir services Hr Hs); cbv zeta in *;
      destruct (Z.ltb_spec ram (sum_mem_limits services)); try done; lia.
Qed.

Lemma add_to_group_perm {A} k (x : A) groups :
  flat_map snd (add_to_group k x groups) ≡ₚ x :: flat_map snd groups ∧
  map fst (add_to_group k x groups) = (map fst groups ++ (if bool_decide (k ∈ map fst groups) then [] else [k]))%list.
Proof.
  induction groups as [|[k' l] groups [IH1 IH2]]; [done|]. cbn [add_to_group].
  destruct (String.eqb_spec k k') as [->|Hne]; cbn [flat_map map fst snd].
  - split.
    + rewrite <- app_assoc. cbn. by rewrite <- Permutation_middle.
    + rewrite bool_decide_true by left. by rewrite app_nil_r.
  - split.
    + rewrite IH1. by rewrite Permutation_middle.
    + rewrite IH2. cbn [app]. f_equal. f_equal. apply (f_equal (λ b : bool, if b then [] else [k])).
      apply bool_decide_ext. rewrite elem_of_cons. naive_solver.
Qed.

Lemma count_status_split results : List.length results =
  count_status PASS results + count_status FAILED results + count_status SKIP results + count_status WARN results.
Proof.
  unfold count_status. induction results as [|r l IH]; [done|]. cbn [List.length List.filter].
  repeat case_bool_decide; cbn [List.length]; try congruence; try lia. by destruct (status r).
Qed.

(** Every result is printed once, under the one heading of its category, and
    the summary counts them all. *)
Theorem render_complete results :
  flat_map snd (grouped_results results) ≡ₚ results ∧ NoDup (map fst (grouped_results results)) ∧
  Forall (λ g, Forall (λ r, category_of r = g.1) g.2) (grouped_results results) ∧
  List.length results = count_status PASS results + count_status FAILED results + count_status SKIP results + count_status WARN results.
Proof.
  split_and!; [..|apply count_status_split]; unfold grouped_results;
  induction results as [|r results IH] using rev_ind; try (by constructor); rewrite foldl_app; cbn [foldl].
  - destruct (add_to_group_perm (category_of r) r (foldl (λ g r, add_to_group (category_of r) r g) [] results)) as [-> _].
    rewrite IH. by rewrite <- Permutation_cons_append.
  - destruct (add_to_group_perm (category_of r) r (foldl (λ g r, add_to_group (category_of r) r g) [] results)) as [_ ->].
    apply NoDup_app. split_and!; [done| |]; case_bool_decide; try constructor; try constructor.
    + intros x _ ?%elem_of_nil. done.
    + intros x Hx ->%list_elem_of_singleton. done.
    + by intros ?%elem_of_nil.
  - induction (foldl _ [] results) as [|[k l] groups IHg]; cbn [add_to_group].
    + repeat constructor.
    + apply Forall_cons in IH as [Hl Hg]. destruct (String.eqb_spec (category_of r) k) as [<-|].
      * constructor; [|done]. cbn in *. apply Forall_app. split; [done|by repeat constructor].
      * constructor; [done|by apply IHg].
Qed.

(** ** Demonstrations *)

Definition demo_fs (acl : string) : fs_host :=
  FsHost (λ _, None) (λ _, Ok tt) (λ d, if String.eqb d "/home/dev" then Some (0%Z, acl) else None)
    (λ d, if String.eqb d "/home/dev" then Ok (488, 1000, 1000)%Z else Ok (493, 0, 0)%Z) true (λ p, p) (λ p, p)
    (λ _, MkProbe true false "[]" "" None).

Definition empty_list_json (s : string) : option JsonValue := if String.eqb s "[]" then Some (JList []) else None.

Lemma ancestor_traverse_exact_witness :
  ∃ c, check_ancestor_traverse (demo_fs "") (demo_accounts good_range good_range) empty_list_json "sandbox" SEPARATE_USER =
    Some (Ok c) ∧ status c = SKIP ∧
    no_sandbox_running (demo_fs "") empty_list_json "sandbox" SEPARATE_USER = Ok true.
Proof.
  destruct (ancestor_traverse_exact (demo_fs "") (demo_accounts good_range good_range) empty_list_json "sandbox"
    SEPARATE_USER (Passwd 999 999 "/home/sandbox") eq_refl) as (r & Hr & Hspec); [done|].
  assert (∃ c, r = Ok c ∧ status c = SKIP) as (c & -> & Hc).
  { vm_compute in Hr. injection Hr as <-. eexists. split; reflexivity. }
  exists c. split; [exact Hr|]. split; [exact Hc|]. by apply (proj2 (proj2 (Hspec c eq_refl))).
Defined.

(** The mask of the list is not looked at: an entry that it cuts still counts. *)
Lemma masked_entry_counts :
  has_acl_exec (demo_fs ("user::rwx" +:+ NL +:+ "user:sandbox:--x" +:+ NL +:+ "mask::---" +:+ NL)) "/home/dev" "sandbox" = true.
Proof. vm_compute. reflexivity. Qed.

Lemma capacity_exact_witness :
  let compose := λ _ : string, Some (Some [("core", JObj {["cpus" := JInt 8; "mem_limit" := JStr "4g"]})]) in
  let h := demo_checks good_range good_range 420 18 in
  ∃ c1, check_host_cpu_capacity h compose (λ _, None) 4 = Ok c1 ∧ status c1 ≠ PASS.
Proof.
  intros compose h.
  assert (∃ c1, check_host_cpu_capacity h compose (λ _, None) 4 = Ok c1) as [c1 H1] by (eexists; vm_compute; reflexivity).
  assert (∃ c2, check_instance_memory_overcommit h compose 1 = Ok c2) as [c2 H2] by (eexists; vm_compute; reflexivity).
  exists c1. split; [exact H1|]. intros Hp.
  assert (Hr : registered h "/i/web").
  { eexists _, "web", _. split_and!; [reflexivity|apply list_elem_of_singleton; reflexivity|vm_compute; reflexivity|done]. }
  pose proof (proj1 (proj1 (capacity_exact h compose (λ _, None) 4 1 c1 c2 H1 H2)) Hp "/i/web" _ "core"
    {["cpus" := JInt 8; "mem_limit" := JStr "4g"]} (JInt 8) (float_of_int 8, "8") Hr eq_refl
    ltac:(apply list_elem_of_singleton; reflexivity) eq_refl eq_refl) as H.
  vm_compute in H. discriminate.
Defined.
