(* ===== verification/InvariantChecks.v ===== *)
(** * core.doctor.checks: setup_invariants, daemon_owner_sudo, binary_integrity_posture, supply_chain

    The audits of what setup installed, over a snapshot of the host.  They call
    the functions of the setup phases, so the models of these are used here, and
    a rule as L3 renders it is shown to pass the audit of the rule. *)
From stdpp Require Import sorting.
From S2P Require Import Prelude PyStr Json HostConfig Images Preflight Dispatch Doctor PhaseRunner HostBatch HostPhases HostIdentity PrivilegeRule BridgeChecks TreeChecks.
From Stdlib Require Import Ascii String.
Open Scope nat_scope.

(** Reading the drop-in, which only root may. *)
Inductive drop_in := Readable (text : string) | NotThere | RootOnly.

Record audit_host := AuditHost {
  ah_env : host_env;
  ah_group : string → option (Z * list string);
  ah_l0 : l0_host;
  ah_SUDO_USER : option string;
  ah_SUDO_UID : option string;
  (* [pwd.getpwuid(os.getuid()).pw_name] *)
  ah_current_user : res string;
  (* mode, owner and group of the reserved directory, where it is one *)
  ah_reserved : option (Z * Z * Z);
  ah_drop_in : string → drop_in;
  ah_hostname : string;
  (* [sudo] run with an argv: its two outputs and status, [None] for [OSError] *)
  ah_sudo : list string → option (string * string * Z)
}.

Definition RESERVED_DIR : string := "/usr/local/libexec/sandbox-ai".
Definition CMND_MARKER : string := DISPATCH_BINARY +:+ "\ ".

(** [[a-z0-9-]] *)
Definition op_char (c : ascii) : bool := is_lower c || is_dec c || Ascii.eqb c "-".

(** The non-overlapping matches of the marker and a group of operation
    characters, from the left; [skip] are the characters of the last match. *)
Fixpoint ops_in (skip : nat) (s : string) : list string :=
  match s with
  | "" => []
  | String _ r =>
      match skip with
      | S skip => ops_in skip r
      | O =>
          if startswith CMND_MARKER s then
            let op := (span op_char (sdrop (str_len CMND_MARKER) s)).1 in
            if nonempty op then op :: ops_in (str_len CMND_MARKER + str_len op - 1) r else ops_in 0 r
          else ops_in 0 r
      end
  end.
Definition extract_ops (drop_in_text : string) : gset string := list_to_set (ops_in 0 drop_in_text).

Definition op_names : gset string := list_to_set (map op_value all_ops).

(** [sorted(s)] of a set of texts. *)
Definition sorted_set (s : gset string) : list string := merge_sort str_le (elements s).

Section audits.
Context (exc_str : exn → string) (h : audit_host).

Definition audit_reserved_dir : list string :=
  match ah_reserved h with
  | None => [RESERVED_DIR +:+ " directory missing"]
  | Some (mode, uid, gid) =>
      let m := Z.land mode 4095 in
      ((if Z.eqb m 493 then [] else [RESERVED_DIR +:+ " mode " +:+ oct m +:+ " != 0o755"]) ++
       (if Z.eqb uid 0 && Z.eqb gid 0 then []
        else [RESERVED_DIR +:+ " owned " +:+ str_of_Z uid +:+ ":" +:+ str_of_Z gid +:+ " != 0:0 (root:root)"]))%list
  end.

Definition in_group (operator : string) (gid : Z) (members : list string) : bool :=
  bool_decide (operator ∈ members) ||
  match getpwnam (ah_env h) operator with Some pw => Z.eqb gid (pw_gid pw) | None => false end.

Definition audit_subid_and_group (user operator bridge_group : string) : list string :=
  let '(status, detail) := subid_status (ah_env h) user in
  ((if bool_decide (status = Adequate) then []
    else ["/etc/subuid|subgid for " +:+ py_repr user +:+ ": " +:+ detail]) ++
   match ah_group h bridge_group with
   | None => ["bridge group " +:+ py_repr bridge_group +:+ " absent per /etc/group"]
   | Some (gid, members) =>
       ((if gid_in_subgid_range gid (parse_subgid_for_user (ah_env h) user) then []
         else ["bridge group " +:+ py_repr bridge_group +:+ " gid " +:+ str_of_Z gid +:+ " outside " +:+ py_repr user +:+
               "'s /etc/subgid range"]) ++
        (if in_group operator gid members then []
         else ["operator " +:+ py_repr operator +:+ " not in " +:+ py_repr bridge_group +:+ " group per " +:+
               "/etc/group. Run 'sudo sandbox setup' to restore (and log " +:+ "out/in to refresh group set)."]))%list
   end)%list.

(** Privileges of the owner by group and by the policy. *)
Definition privilege_paths (admin_groups : list string) (policy : SudoersGrant) : list string :=
  ((if bool_decide (admin_groups = []) then []
    else ["is a member of privilege-granting group(s) " +:+ join ", " admin_groups]) ++
   (if determinable policy && HostPhases.granted policy then
      [if nopasswd policy then "is granted passwordless sudo by the sudoers policy " +:+ "(e.g. a /etc/sudoers.d/ drop-in)"
       else "is granted sudo by the sudoers policy"] else []))%list.

Definition audit_daemon_user_no_admin (c : HostConfig) : list string :=
  match docker_unprivileged_user (HostConfig.host c) with
  | None => []
  | Some daemon_user =>
      let admin_groups := user_admin_groups (ah_env h) (ah_group h) daemon_user in
      let policy := user_sudoers_grant (ah_sudo h (sudoers_query daemon_user false)) in
      if bool_decide (admin_groups = []) && negb (determinable policy && HostPhases.granted policy) then
        if negb (determinable policy) then
          ["dedicated daemon user " +:+ py_repr daemon_user +:+ " is in no privilege-granting " +:+
           "group (sudoers-policy not checked — run 'sudo sandbox doctor' for " +:+ "the full audit)"]
        else []
      else
        let remedy_groups := if bool_decide (admin_groups = []) then "<group>" else join ", " admin_groups in
        ["dedicated daemon user " +:+ py_repr daemon_user +:+ " " +:+ join " and " (privilege_paths admin_groups policy) +:+
         "; a privileged " +:+ "daemon user defeats the separate-user blast-radius reduction (a runtime " +:+
         "escape reaching the daemon owner could escalate). Remove the membership: " +:+
         "'sudo gpasswd -d " +:+ daemon_user +:+ " " +:+ remedy_groups +:+ "' (or 'sudo deluser " +:+ daemon_user +:+
         " <group>'), and revoke any /etc/sudoers.d/ grant for " +:+ py_repr daemon_user +:+ "."]
  end.

Definition audit_machinectl_stability : list string :=
  match resolve_machinectl_path (ah_l0 h) with
  | Resolved _ => []
  | r => ["machinectl-path-stability: " +:+ machinectl_refusal r]
  end.

Definition audit_systemd_run_stability (drop_in_text : option string) : list string :=
  match resolve_systemd_run_path (ah_l0 h) with
  | Resolved resolved =>
      match drop_in_text with
      | None => []
      | Some text =>
          if contains resolved text then []
          else ["pipe-launcher-path-stability: the resolved secure_path byte-pipe " +:+ "launcher " +:+ py_repr resolved +:+
                " is not the launcher pinned in the installed " +:+ "pipe Cmnd_Spec. This drift breaks the orchestrator's sudo_pipe_cmd " +:+
                "SUDO op grant. Remove the unexpected copy or run " +:+ "'sudo sandbox setup' to re-evaluate."]
      end
  | r => ["pipe-launcher-path-stability: " +:+ systemd_run_refusal r]
  end.

Definition DRIFTED : string := "sudoers drop-in content drifted from canonical (F-004".

Definition audit_rule_body (c : HostConfig) (operator text : string) : list string :=
  match docker_unprivileged_user (HostConfig.host c), resolve_systemd_run_path (ah_l0 h) with
  | Some sandbox_user, Resolved path =>
      match render_sudoers_rule path operator (ah_hostname h) sandbox_user with
      | Err e => [DRIFTED +:+ " / op-enum drift): " +:+ exc_str e +:+ ". Run 'sudo sandbox setup' to regenerate."]
      | Ok expected =>
          ((if has_char dq text then
              [DRIFTED +:+ " " +:+ "silent-footgun shape: double-quote in a Cmnd_Spec — the rule " +:+
               "passes 'visudo -cf' but matches nothing at runtime). Run " +:+ "'sudo sandbox setup' to regenerate."]
            else []) ++
           (if negb (bool_decide (extract_ops text = op_names)) then
              [DRIFTED +:+ " / " +:+ "op-enum drift): installed op set != core.dispatch.Op " +:+
               "(missing=" +:+ repr_list (sorted_set (op_names ∖ extract_ops text)) +:+
               ", extra=" +:+ repr_list (sorted_set (extract_ops text ∖ op_names)) +:+ "). Run 'sudo sandbox setup' " +:+
               "to regenerate the rule for the current dispatcher op set."]
            else if negb (String.eqb text expected) then
              [DRIFTED +:+ " / " +:+ "op-enum drift): installed body differs from the re-rendered " +:+
               "canonical body. Run 'sudo sandbox setup' to regenerate."]
            else []))%list
      end
  | _, _ => []
  end.

Definition audit_sudo_floor : list string :=
  match parse_sudo_version (ah_l0 h) with
  | None => []
  | Some v =>
      if version_ge v SUDO_FLOOR then []
      else let '(a, b, c, d) := v in
        ["sudo " +:+ str_of_Z a +:+ "." +:+ str_of_Z b +:+ "." +:+ str_of_Z c +:+
         (if Z.eqb d 0 then "" else "p" +:+ str_of_Z d) +:+
         " predates the validated floor 1.9.5p2; the V9 " +:+
         "sudoers rule shape is unverified on this version (supported " +:+
         "enterprise distros ship ≥1.9.5p2; only EOL distros are below)."]
  end.

(** Setup's precedence, and the real user where it gives none. *)
Definition audit_operator : res string :=
  match resolve_operator (λ u, pw_uid <$> getpwnam (ah_env h) u) (ah_SUDO_USER h) (ah_SUDO_UID h) None with
  | Err OperatorResolutionError => ah_current_user h
  | r => r
  end.

Definition INVARIANTS : string := "setup invariants".
Definition violated (violations : list string) : CheckResult :=
  result WARN INVARIANTS (join "; " violations) (Some "run 'sudo sandbox setup' to restore canonical setup state").

(** What every mode audits. *)
Definition common_violations (user operator : string) (c : HostConfig) : list string :=
  (audit_reserved_dir ++ audit_subid_and_group user operator (workspace_bridge_group (HostConfig.host c)))%list.

(** What only the crossing of the separate user needs. *)
Definition crossing_violations (operator : string) (c : HostConfig) : list string :=
  let d := ah_drop_in h (drop_in_path operator) in
  let text := match d with Readable text => Some text | _ => None end in
  ((match d with
    | NotThere => ["sudoers drop-in " +:+ drop_in_path operator +:+ " missing. Run 'sudo sandbox " +:+ "setup' to restore."]
    | _ => []
    end) ++
   audit_daemon_user_no_admin c ++ audit_machinectl_stability ++ audit_systemd_run_stability text ++
   from_option (audit_rule_body c operator) [] text ++ audit_sudo_floor)%list.

Definition check_setup_invariants (user : string) (mode : DockerExecutionMode) : res CheckResult :=
  c ← minimal_host_config user mode;
  operator ← audit_operator;
  let common := common_violations user operator c in
  match mode with
  | OPERATOR_ROOTLESS =>
      Ok (if bool_decide (common = []) then
            result PASS INVARIANTS
              ("operator-rootless setup invariants hold (operator=" +:+ operator +:+ "); " +:+
               "machinectl-stability + sudoers-rule audits not applicable " +:+
               "(no privilege-boundary crossing in operator-rootless)") None
          else violated common)
  | SEPARATE_USER =>
      let violations := (common ++ crossing_violations operator c)%list in
      let name := basename (drop_in_path operator) in
      Ok (if bool_decide (violations = []) then
            result PASS INVARIANTS
              (match ah_drop_in h (drop_in_path operator) with
               | RootOnly =>
                   "operator-readable setup invariants hold (operator=" +:+ operator +:+ "); " +:+
                   "rule-body + machinectl-stability audits skipped — " +:+ name +:+
                   " is root-only (mode 0440), not readable by " +:+
                   "the operator. The rule is validated at install time by setup's " +:+ "L3a per-op probe."
               | _ => "all setup invariants hold (operator=" +:+ operator +:+ ", drop-in=" +:+ name +:+ ")"
               end) None
          else violated violations)
  end.

(** ** core/doctor/checks/daemon_owner_sudo.py *)

Definition OWNER_SUDO : string := "daemon owner sudo".

Definition escalation_paths (admin_groups : list string) (policy : SudoersGrant) : list string :=
  ((if bool_decide (admin_groups = []) then [] else ["member of sudo/wheel/admin: " +:+ join ", " admin_groups]) ++
   (if HostPhases.granted policy then
      [if nopasswd policy then "passwordless sudo via the sudoers policy " +:+ "(e.g. a /etc/sudoers.d/ drop-in)"
       else "sudo via the sudoers policy"] else []))%list.

Definition check_daemon_owner_sudo (user : string) (mode : DockerExecutionMode) : res CheckResult :=
  c ← minimal_host_config user mode;
  owner ← resolve_daemon_owner_settings (ah_env h) (HostConfig.host c);
  let admin_groups := user_admin_groups (ah_env h) (ah_group h) owner in
  let policy := user_sudoers_grant (ah_sudo h (sudoers_query owner true)) in
  Ok (if bool_decide (admin_groups = []) && negb (HostPhases.granted policy) then
        result PASS OWNER_SUDO
          ("operator-rootless daemon owner " +:+ py_repr owner +:+ " is in no " +:+
           "sudo/wheel/admin group and the sudoers policy grants no sudo; " +:+
           "an escape reaching the daemon owner cannot escalate to root") None
      else
        result WARN OWNER_SUDO
          ("operator-rootless daemon owner " +:+ py_repr owner +:+ " is a sudoer (" +:+
           join "; " (escalation_paths admin_groups policy) +:+ "); " +:+
           "because the daemon owner can sudo, a (rare, gVisor-fronted) escape " +:+
           "reaching the daemon owner could escalate to root — re-enlarging the " +:+
           "blast radius the separate-user dead-end account shrinks")
          (Some ("this is an informed-tradeoff signal (WARN, never FAIL). To shrink the " +:+
                 "blast radius, either (a) run sandboxes as a dedicated non-sudo operator " +:+
                 "account (one in no " +:+ (if bool_decide (admin_groups = []) then "sudo/wheel/admin" else join ", " admin_groups) +:+
                 " group and with no sudoers-policy " +:+ "grant), or (b) set " +:+
                 "docker_execution_mode = separate-user to run the daemon as a dedicated " +:+
                 "dead-end user reached only through the root-owned dispatcher boundary"))).
End audits.

(** ** core/doctor/checks/binary_integrity_posture.py *)

Section posture.
(** A file's text or [None]; a tool on the path; a run's two outputs and status. *)
Context (read_text : string → option string) (which : string → bool)
  (run : list string → option (string * string * Z)) (aide_db : bool).

Definition CMDLINE : string := "/proc/cmdline".
Definition IMA_POLICY : string := "/sys/kernel/security/ima/policy".

Definition probe_dm_verity : string :=
  let cmdline := default "" (read_text CMDLINE) in
  let has_marker := contains "dm-verity" cmdline || contains "verity" cmdline in
  if negb has_marker || negb (which "dmsetup") then "INACTIVE"
  else match run ["dmsetup"; "status"] with
       | None => "INACTIVE"
       | Some (stdout, _, returncode) =>
           if negb (Z.eqb returncode 0) then "INACTIVE" else if contains "verity" stdout then "ACTIVE" else "INACTIVE"
       end.

Definition probe_ima : string :=
  match read_text IMA_POLICY with
  | None => "NOT-APPRAISING"
  | Some policy => if contains "appraise" policy then "APPRAISING" else "NOT-APPRAISING"
  end.

Definition probe_fapolicyd : string :=
  match run ["systemctl"; "is-active"; "fapolicyd"] with
  | None => "NOT-RUNNING"
  | Some (active, _, _) =>
      if negb (String.eqb (strip active) "active") then "NOT-RUNNING"
      else if negb (which "fapolicyd-cli") then "NOT-RUNNING"
      else match run ["fapolicyd-cli"; "--check-status"] with
           | None => "NOT-RUNNING"
           | Some (stdout, stderr, _) =>
               let blob := lower (stdout +:+ stderr) in
               if contains "enforc" blob then "ENFORCING" else if contains "permissive" blob then "PERMISSIVE" else "ENFORCING"
           end
  end.

Definition probe_aide : string :=
  if negb (which "aide") then "NOT-INSTALLED" else if aide_db then "INSTALLED-DB-PRESENT" else "INSTALLED-DB-MISSING".

Definition posture_detail (dm_verity ima fapolicyd aide : string) : string :=
  "dm-verity=" +:+ dm_verity +:+ "; IMA=" +:+ ima +:+ "; fapolicyd=" +:+ fapolicyd +:+ "; AIDE=" +:+ aide.
Definition FULLY_HARDENED : string :=
  "dm-verity=ACTIVE; IMA=APPRAISING; fapolicyd=ENFORCING; AIDE=INSTALLED-DB-PRESENT".
Definition PRODUCTION_HINT : string :=
  "for production hosts, consider configuring dm-verity, IMA-appraise, " +:+
  "fapolicyd, or AIDE; sandbox-ai's manifest detects accidental drift but " +:+
  "does not provide attack-resistant integrity".

Definition check_binary_integrity_posture : CheckResult :=
  let detail := posture_detail probe_dm_verity probe_ima probe_fapolicyd probe_aide in
  let fully_hardened := String.eqb detail FULLY_HARDENED in
  result PASS "binary integrity posture" (if fully_hardened then detail +:+ " (posture is fully hardened)" else detail)
    (if fully_hardened then None else Some PRODUCTION_HINT).
End posture.

(** ** core/doctor/checks/supply_chain.py *)

Section supply.
(** [dispatch.probe] of docker-manifest-inspect, and [json.loads]. *)
Context (inspect : string → ProbeOutcome) (json_loads : string → option JsonValue).

(** [bool(v)] of a decoded value; a float keeps its text. *)
Definition json_truthy (v : JsonValue) : bool :=
  match v with
  | JNull => false
  | JBool b => b
  | JInt n => negb (Z.eqb n 0)
  | JFloat r => negb (bool_decide (r ∈ ["0.0"; "-0.0"]))
  | JStr s => nonempty s
  | JList l => negb (bool_decide (List.length l = 0))
  | JObj m => negb (bool_decide (size m = 0))
  end.

(** [manifest.get] of what is no object raises. *)
Definition tag_drifted (pin : ImagePin) (outcome : ProbeOutcome) : res bool :=
  if ok outcome then
    match json_loads (strip (stdout outcome)) with
    | None => Ok false
    | Some (JObj m) =>
        match m !! "digest" with
        | None => Ok false
        | Some (JStr d) => Ok (nonempty d && negb (String.eqb d (digest pin)))
        | Some v => Ok (json_truthy v)
        end
    | Some _ => Err AttributeError
    end
  else Ok false.

(** [None] where an inspection timed out; else the stale and drifted keys. *)
Fixpoint inspect_pins (pins : list (string * ImagePin)) : res (option (list string * list string)) :=
  match pins with
  | [] => Ok (Some ([], []))
  | (key, pin) :: pins =>
      let outcome := inspect (pinned pin) in
      if timed_out outcome then Ok None
      else if negb (ok outcome) then
        rest ← inspect_pins pins; Ok (option_map (λ x, (key :: x.1, x.2)) rest)
      else
        drifted ← tag_drifted pin (inspect (tagged pin));
        rest ← inspect_pins pins;
        Ok (option_map (λ x, (x.1, if (drifted : bool) then key :: x.2 else x.2)) rest)
  end.

Definition check_image_digests : res CheckResult :=
  found ← inspect_pins IMAGE_REGISTRY;
  Ok match found with
     | None => result SKIP "image digests" "Registry unreachable (timeout during manifest inspection)" None
     | Some (stale, drift) =>
         if bool_decide (stale = []) then
           result PASS "image digests"
             ("All " +:+ len_text IMAGE_REGISTRY +:+ " pinned digests verified" +:+
              (if bool_decide (drift = []) then "" else " (tag drift detected: " +:+ join ", " drift +:+ ")")) None
         else result FAILED "image digests" ("Stale digests: " +:+ join ", " stale)
                (Some "Run scripts/rotate_pins.py to update pinned digests")
     end.
End supply.

(** ** The operations a rule names *)

(** Text in which no match begins. *)
Definition quiet (t : string) : Prop := ∀ s, ops_in 0 (t +:+ s) = ops_in 0 s.

Lemma quiet_app t u : quiet t → quiet u → quiet (t +:+ u).
Proof. intros Ht Hu s. by rewrite app_assoc_str, Ht, Hu. Qed.

Lemma ops_in_next c r : startswith CMND_MARKER (String c r) = false → ops_in 0 (String c r) = ops_in 0 r.
Proof. intros H. cbn [ops_in]. by rewrite H. Qed.

(** The marker is a path, then a backslash before the only blank. *)
Lemma no_start p t s : has_char " " p = false → has_char "\" t = false → startswith (p +:+ "\ ") (t +:+ " " +:+ s) = false.
Proof.
  unfold has_char. revert t; induction p as [|a p IH]; intros t Hp Ht.
  - destruct t as [|c t]; [done|]. cbn [str_exists] in Ht. apply orb_false_iff in Ht as [Hc _].
    cbn [append startswith]. by rewrite Hc.
  - cbn [str_exists] in Hp. apply orb_false_iff in Hp as [Ha Hp]. destruct t as [|c t]; cbn [append startswith].
    + by rewrite Ascii.eqb_sym, Ha.
    + cbn [str_exists] in Ht. apply orb_false_iff in Ht as [_ Ht]. apply andb_false_intro2. by apply IH.
Qed.

Lemma quiet_plain t : has_char "\" t = false → quiet (t +:+ " ").
Proof.
  intros Ht s. rewrite app_assoc_str. induction t as [|c t IH].
  - by apply ops_in_next.
  - pose proof (no_start DISPATCH_BINARY (String c t) s eq_refl Ht) as H. cbn [append] in H |- *.
    rewrite ops_in_next by exact H. apply IH. by apply orb_false_iff in Ht as [_ ?].
Qed.

Lemma quiet_no_slash t : has_char "/" t = false → quiet t.
Proof.
  intros Ht s. induction t as [|c t IH]; [done|]. apply orb_false_iff in Ht as [Hc Ht]. cbn [append].
  rewrite ops_in_next; [by apply IH|]. cbn [CMND_MARKER DISPATCH_BINARY append startswith]. by rewrite Hc.
Qed.

Lemma ops_in_skip t s : ops_in (str_len t) (t +:+ s) = ops_in 0 s.
Proof. induction t as [|c t IH]; [done|]. exact IH. Qed.

Definition ends_op (rest : string) : Prop := ∀ c t, rest = String c t → op_char c = false.

Lemma ops_in_match op rest : str_forall op_char op = true → nonempty op = true → ends_op rest →
  ops_in 0 (CMND_MARKER +:+ op +:+ rest) = op :: ops_in 0 rest.
Proof.
  intros Ho Hn He. assert (∃ c m, CMND_MARKER = String c m) as (c & m & Em) by (by eexists _, _).
  assert (Hs : startswith CMND_MARKER (CMND_MARKER +:+ op +:+ rest) = true) by apply startswith_app.
  assert (Hd : sdrop (str_len CMND_MARKER) (CMND_MARKER +:+ op +:+ rest) = op +:+ rest) by apply sdrop_app.
  rewrite Em in Hs, Hd |- *. cbn [append] in Hs, Hd |- *. cbn [ops_in]. rewrite Em, Hs, Hd, (span_app _ _ _ Ho He).
  cbn [fst]. rewrite Hn. f_equal.
  replace (str_len (String c m) + str_len op - 1) with (str_len (m +:+ op)) by (rewrite str_len_app; change (str_len (String c m)) with (S (str_len m)); lia).
  by rewrite <- (ops_in_skip (m +:+ op)), app_assoc_str.
Qed.

(** The operations of the specifications of one operation. *)
Definition named_ops (op : Op) : list string := if no_arg op then [op_value op; op_value op] else [op_value op].

Definition names (spec op : string) : Prop := ∀ rest, ends_op rest → ops_in 0 (spec +:+ rest) = op :: ops_in 0 rest.

Section rendered.
Context (path user : string).
Hypothesis Hpath : str_forall spec_char path = true.
Hypothesis Huser : plain_user user.

Lemma spec_names op tail : tail ∈ [""; "\ --check"; "\ *"] →
  names (path +:+ " " +:+ spec_args user op "" +:+ tail) (op_value op).
Proof.
  intros Ht rest He. unfold spec_args. rewrite !app_assoc_str.
  assert (escape_cmnd_spec_ws (dispatch_payload (op_value op) []) = CMND_MARKER +:+ op_value op) as -> by (by destruct op).
  assert (Hp : has_char "\" path = false) by (by apply (str_forall_no_char spec_char)).
  assert (Hu : has_char "\" user = false) by (apply (str_forall_no_char username_rest); [done|by apply plain_user_chars]).
  rewrite <- (app_assoc_str path), (quiet_plain path Hp), (quiet_no_slash "-q --pipe --uid=" eq_refl).
  assert (quiet (user +:+ " /bin/bash -c ")) as Hq.
  { change " /bin/bash -c " with (" /bin/bash -c" +:+ " "). rewrite <- app_assoc_str. apply quiet_plain.
    by rewrite has_char_app, Hu. }
  rewrite <- (app_assoc_str user), Hq, !app_assoc_str. cbn [append]. rewrite ops_in_match; [|by destruct op|by destruct op|].
  - f_equal. apply quiet_no_slash.
    apply elem_of_cons in Ht as [->|[->|[->|[]%elem_of_nil]%elem_of_cons]%elem_of_cons]; done.
  - apply elem_of_cons in Ht as [->|[->|[->|[]%elem_of_nil]%elem_of_cons]%elem_of_cons]; [exact He|..]; by intros c t [= <- _].
Qed.

Lemma op_specs_names op : Forall2 names (op_specs path user op) (named_ops op).
Proof.
  unfold op_specs, named_ops. assert (H : ∀ tail, spec_args user op tail = spec_args user op "" +:+ tail).
  { intros tail. unfold spec_args. by rewrite !app_assoc_str. }
  destruct (no_arg op); repeat constructor; rewrite ?(H "\ --check").
  - intros rest. rewrite <- (app_nil_r_str (spec_args user op "")). apply spec_names. by left.
  - apply spec_names. right. by left.
  - apply spec_names. right. right. by left.
Qed.

Lemma all_specs_names : Forall2 names (all_specs path user) (List.concat (map named_ops all_ops)).
Proof.
  unfold all_specs. generalize all_ops as l. induction l as [|op l IH]; [constructor|]. cbn [map List.concat].
  apply Forall2_app; [apply op_specs_names|exact IH].
Qed.

Lemma joined_names specs ops : Forall2 names specs ops →
  ops_in 0 (join (", \" +:+ NL +:+ "    ") specs +:+ NL) = ops.
Proof.
  assert (He : ∀ s, ends_op (", \" +:+ s)) by (intros s c t [= <- _]; done).
  assert (Hn : ends_op NL) by (intros c t [= <- _]; done).
  induction 1 as [|spec op specs ops Hs Hl IH]; [done|]. destruct Hl as [|spec' op' specs ops Hs' Hl].
  - cbn [join String.concat]. by rewrite (Hs NL Hn).
  - change (join ?sep (spec :: spec' :: specs)) with (spec +:+ sep +:+ join sep (spec' :: specs)).
    rewrite !app_assoc_str, (Hs _ (He _)). f_equal. rewrite <- IH. rewrite <- !app_assoc_str.
    rewrite app_assoc_str. by apply quiet_no_slash.
Qed.

Lemma named_ops_all : list_to_set (List.concat (map named_ops all_ops)) = op_names.
Proof.
  unfold op_names. generalize all_ops as l. induction l as [|op l IH]; [done|].
  cbn [map List.concat]. rewrite list_to_set_app_L, IH. unfold named_ops. destruct (no_arg op); set_solver.
Qed.

Lemma rendered_ops operator hostname : has_char "\" operator = false → has_char "\" hostname = false →
  extract_ops (rule_body operator hostname (all_specs path user)) = op_names.
Proof.
  intros Ho Hh. unfold extract_ops, rule_body.
  rewrite (quiet_no_slash SUDOERS_HEADER eq_refl), (quiet_no_slash NL eq_refl), (quiet_no_slash "Defaults fast_glob" eq_refl),
    (quiet_no_slash NL eq_refl).
  rewrite <- (app_assoc_str operator), (quiet_plain operator Ho).
  change ("=(root) NOPASSWD: NOSETENV: \" +:+ ?s) with ("=(root)" +:+ " " +:+ "NOPASSWD: NOSETENV: \" +:+ s).
  assert (Hq : quiet ((hostname +:+ "=(root)") +:+ " ")) by (apply quiet_plain; by rewrite has_char_app, Hh).
  rewrite <- (app_assoc_str hostname), <- (app_assoc_str (hostname +:+ _)), Hq.
  rewrite (quiet_no_slash "NOPASSWD: NOSETENV: \" eq_refl), (quiet_no_slash NL eq_refl), (quiet_no_slash "    " eq_refl).
  rewrite (joined_names _ _ all_specs_names). apply named_ops_all.
Qed.

Lemma rendered_no_quote operator hostname : has_char dq operator = false → has_char dq hostname = false →
  has_char dq (rule_body operator hostname (all_specs path user)) = false.
Proof.
  intros Ho Hh. assert (Hj : has_char dq (join (", \" +:+ NL +:+ "    ") (all_specs path user)) = false).
  { assert (H : ∀ spec, spec ∈ all_specs path user → has_char dq spec = false) by (intros spec; by apply spec_no_quote).
    induction (all_specs path user) as [|spec specs IH]; [done|].
    assert (has_char dq (join (", \" +:+ NL +:+ "    ") specs) = false) as IH' by (apply IH; intros s Hs; apply H; by right).
    destruct specs as [|spec' specs]; [apply H; left|].
    change (join ?sep (spec :: spec' :: specs)) with (spec +:+ sep +:+ join sep (spec' :: specs)).
    rewrite !has_char_app, IH', (H spec) by left. done. }
  unfold rule_body. by rewrite !has_char_app, Ho, Hh, Hj.
Qed.
End rendered.

(** Texts of an operator and a host that neither end a specification nor quote. *)
Definition plain_name (s : string) : Prop := has_char dq s = false ∧ has_char "\" s = false.

Lemma app_nil_2 {A} (l k : list A) : (l ++ k)%list = [] ↔ l = [] ∧ k = [].
Proof. apply app_nil. Qed.

Lemma if_nil {A} (b : bool) (x : A) : (if b then [] else [x]) = [] ↔ b = true.
Proof. by destruct b. Qed.

Section exact.
Context (exc_str : exn → string) (h : audit_host).

(** The audit of the rule accepts the rule that setup would write, and no other. *)
Lemma audit_rule_body_nil c operator text user path :
  docker_unprivileged_user (HostConfig.host c) = Some user → plain_user user →
  resolve_systemd_run_path (ah_l0 h) = Resolved path → str_forall spec_char path = true →
  plain_name operator → plain_name (ah_hostname h) →
  audit_rule_body exc_str h c operator text = [] ↔ render_sudoers_rule path operator (ah_hostname h) user = Ok text.
Proof.
  intros Hu Hpu Hr Hp [Hoq Hob] [Hhq Hhb]. unfold audit_rule_body. rewrite Hu, Hr, render_eq by done. split.
  - intros [_ H]%app_nil_2. destruct (bool_decide _); [|done]. cbn [negb] in H.
    destruct (String.eqb_spec text (rule_body operator (ah_hostname h) (all_specs path user))); [by subst|done].
  - intros [= <-]. rewrite rendered_no_quote, rendered_ops, bool_decide_true, String.eqb_refl by done. done.
Qed.

Lemma reserved_nil : audit_reserved_dir h = [] ↔ ∃ mode, ah_reserved h = Some (mode, 0%Z, 0%Z) ∧ Z.land mode 4095 = 493%Z.
Proof.
  unfold audit_reserved_dir. destruct (ah_reserved h) as [[[mode uid] gid]|]; [|by split; [|intros (? & ? & _)]].
  cbv zeta. rewrite app_nil_2, !if_nil, andb_true_iff, !Z.eqb_eq. split.
  - intros (Hm & -> & ->). eauto.
  - intros (m & [= -> -> ->] & Hm). done.
Qed.

(** The bridge group as the audit wants it. *)
Definition group_audited (user operator group : string) : Prop :=
  ∃ gid members, ah_group h group = Some (gid, members) ∧
    gid_in_subgid_range gid (parse_subgid_for_user (ah_env h) user) = true ∧ in_group h operator gid members = true.

Lemma subid_and_group_nil user operator group : audit_subid_and_group h user operator group = [] ↔
  (subid_status (ah_env h) user).1 = Adequate ∧ group_audited user operator group.
Proof.
  unfold audit_subid_and_group, group_audited. destruct (subid_status (ah_env h) user) as [st detail]. cbn [fst].
  rewrite app_nil_2, if_nil, bool_decide_eq_true. apply and_iff_compat_l.
  destruct (ah_group h group) as [[gid members]|]; [|by split; [|intros (? & ? & ? & _)]].
  rewrite app_nil_2, !if_nil. split; [intros [??]; eauto|by intros (? & ? & [= <- <-] & ?)].
Qed.

(** The owner of the daemon is known to have no way to become root. *)
Definition dead_end (user : string) : Prop :=
  user_admin_groups (ah_env h) (ah_group h) user = [] ∧
  let policy := user_sudoers_grant (ah_sudo h (sudoers_query user false)) in
  determinable policy = true ∧ HostPhases.granted policy = false.

Lemma no_admin_nil c user : docker_unprivileged_user (HostConfig.host c) = Some user →
  audit_daemon_user_no_admin h c = [] ↔ dead_end user.
Proof.
  intros Hu. unfold audit_daemon_user_no_admin, dead_end. rewrite Hu. cbv zeta.
  destruct (user_sudoers_grant _) as [g n d]. cbn. case_bool_decide as Ha; cbn; destruct d, g; cbn; naive_solver.
Qed.

Lemma machinectl_nil : audit_machinectl_stability h = [] ↔ ∃ p, resolve_machinectl_path (ah_l0 h) = Resolved p.
Proof. unfold audit_machinectl_stability. destruct (resolve_machinectl_path _); naive_solver. Qed.

Lemma systemd_run_nil text : audit_systemd_run_stability h text = [] ↔
  ∃ p, resolve_systemd_run_path (ah_l0 h) = Resolved p ∧ ∀ t, text = Some t → contains p t = true.
Proof.
  unfold audit_systemd_run_stability. destruct (resolve_systemd_run_path _) as [p| | |]; [|naive_solver..].
  destruct text as [t|]; [rewrite if_nil|]; naive_solver.
Qed.

Lemma sudo_floor_nil : audit_sudo_floor h = [] ↔ ∀ v, parse_sudo_version (ah_l0 h) = Some v → version_ge v SUDO_FLOOR = true.
Proof.
  unfold audit_sudo_floor. destruct (parse_sudo_version _) as [v|]; [|by split].
  destruct (version_ge v SUDO_FLOOR) eqn:E; [by split; [intros _ ? [= <-]|]|].
  destruct v as [[[a b] c] d]. split; [done|]. intros H. by rewrite (H _ eq_refl) in E.
Qed.

(** What the drop-in must be for an operator who may read it. *)
Definition rule_audited (user operator path : string) : Prop :=
  match ah_drop_in h (drop_in_path operator) with
  | Readable text => render_sudoers_rule path operator (ah_hostname h) user = Ok text
  | NotThere => False
  | RootOnly => True
  end.

Lemma rendered_contains path operator hostname user text : str_forall spec_char path = true → plain_user user →
  render_sudoers_rule path operator hostname user = Ok text → contains path text = true.
Proof.
  intros Hp Hu. rewrite render_eq by done. intros [= <-]. unfold rule_body.
  assert (∃ s specs, all_specs path user = (path +:+ s) :: specs) as (s & specs & ->) by (by eexists _, _).
  do 9 apply contains_app_r. apply contains_spec. exists "    ".
  destruct specs as [|spec specs]; [exists (s +:+ NL)|eexists]; unfold join; cbn [String.concat]; by rewrite !app_assoc_str.
Qed.

Lemma crossing_nil c operator user : docker_unprivileged_user (HostConfig.host c) = Some user → plain_user user →
  plain_name operator → plain_name (ah_hostname h) →
  (∀ p, resolve_systemd_run_path (ah_l0 h) = Resolved p → str_forall spec_char p = true) →
  crossing_violations exc_str h operator c = [] ↔
  dead_end user ∧ (∃ p, resolve_machinectl_path (ah_l0 h) = Resolved p) ∧
  (∃ p, resolve_systemd_run_path (ah_l0 h) = Resolved p ∧ rule_audited user operator p) ∧
  (∀ v, parse_sudo_version (ah_l0 h) = Some v → version_ge v SUDO_FLOOR = true).
Proof.
  intros Hu Hpu Ho Hh Hp. unfold crossing_violations, rule_audited. cbv zeta.
  rewrite !app_nil_2, (no_admin_nil c user Hu), machinectl_nil, systemd_run_nil, sudo_floor_nil.
  destruct (ah_drop_in h (drop_in_path operator)) as [text| |]; cbn [from_option]; [|naive_solver..]. split.
  - intros (_ & ? & ? & (p & Hr & _) & Hb & ?). split_and!; [done|done| |done]. exists p. split; [done|].
    by apply (audit_rule_body_nil c operator text user p) in Hb; auto.
  - intros (? & ? & (p & Hr & Ht) & ?). split_and!; [done|done|done| |by apply (audit_rule_body_nil c operator text user p); auto|done].
    exists p. split; [done|]. intros t [= <-]. by eapply rendered_contains; eauto.
Qed.
End exact.

(** C37: The verdict of the audit, in both modes, for names of the usual
    characters; where it is not a pass it is a warning.  In both modes the
    reserved directory must be root's with mode 0755, the subordinate ranges
    adequate, and the group [sb-ws] with a gid of the range and the operator in
    it: also in operator-rootless mode, whose own group has another name, so
    that a finished setup is warned about.  In operator-rootless mode nothing
    else is audited.  For the separate user the owner of the daemon must also
    be known to have no way to become root (a policy that could not be asked
    for is a warning, though the docstring and the specification exclude it),
    both launchers resolve, sudo is recent enough, and the rule, where it can be
    read, is byte for byte the one that L3 renders for this host: a rule as
    setup installs it is never reported as drifted, any other text is. *)
Theorem setup_invariants_exact exc_str h user mode operator r :
  plain_user user → plain_name operator → plain_name (ah_hostname h) →
  (∀ p, resolve_systemd_run_path (ah_l0 h) = Resolved p → str_forall spec_char p = true) →
  audit_operator h = Ok operator → check_setup_invariants exc_str h user mode = Ok r →
  (status r = PASS ∨ status r = WARN) ∧
  (status r = PASS ↔
    (∃ m, ah_reserved h = Some (m, 0%Z, 0%Z) ∧ Z.land m 4095 = 493%Z) ∧
    (subid_status (ah_env h) user).1 = Adequate ∧ group_audited h user operator "sb-ws" ∧
    match mode with
    | OPERATOR_ROOTLESS => True
    | SEPARATE_USER =>
        dead_end h user ∧ (∃ p, resolve_machinectl_path (ah_l0 h) = Resolved p) ∧
        (∃ p, resolve_systemd_run_path (ah_l0 h) = Resolved p ∧ rule_audited h user operator p) ∧
        (∀ v, parse_sudo_version (ah_l0 h) = Some v → version_ge v SUDO_FLOOR = true)
    end).
Proof.
  intros Hu Ho Hh Hp Hop H. unfold check_setup_invariants in H.
  apply res_bind_Ok in H as (c & Hc & H). rewrite Hop in H. cbn [mbind res_bind] in H.
  unfold minimal_host_config, new_HostSettings, validate_docker_unprivileged_user in Hc. cbn in Hc.
  rewrite (proj1 Hu) in Hc. destruct mode; injection Hc as <-; injection H as <-;
    (split; [case_bool_decide; [by left|by right]|]); rewrite pass_if_nil by done; unfold common_violations;
    rewrite ?app_nil_2, reserved_nil, subid_and_group_nil, ?(crossing_nil _ _ _ _ user) by done; cbn; tauto.
Qed.

(** In the mode without a crossing the audit looks for the group of the other
    mode, so a group of the operator's own never satisfies it. *)
Lemma rootless_group_of_other_mode exc_str h user r : check_setup_invariants exc_str h user OPERATOR_ROOTLESS = Ok r →
  ah_group h "sb-ws" = None → status r = WARN.
Proof.
  unfold check_setup_invariants. intros (c & Hc & (operator & Ho & [= <-])%res_bind_Ok)%res_bind_Ok Hg.
  unfold minimal_host_config, new_HostSettings, validate_docker_unprivileged_user in Hc. cbn in Hc.
  destruct (USERNAME_RE user); [|done]. injection Hc as <-.
  case_bool_decide as Hn; [|done]. unfold common_violations in Hn.
  apply app_nil_2 in Hn as [_ (_ & gid & members & Hg' & _)%subid_and_group_nil]. cbn in Hg'. congruence.
Qed.

(** An operator who may not ask for the owner's privileges is always warned. *)
Lemma undetermined_warns exc_str h user r : check_setup_invariants exc_str h user SEPARATE_USER = Ok r →
  determinable (user_sudoers_grant (ah_sudo h (sudoers_query user false))) = false → status r = WARN.
Proof.
  unfold check_setup_invariants. intros (c & Hc & (operator & Ho & [= <-])%res_bind_Ok)%res_bind_Ok Hd.
  unfold minimal_host_config, new_HostSettings, validate_docker_unprivileged_user in Hc. cbn in Hc.
  destruct (USERNAME_RE user); [|done]. injection Hc as <-.
  case_bool_decide as Hn; [|done]. unfold crossing_violations in Hn. cbv zeta in Hn. rewrite !app_nil_2 in Hn.
  destruct Hn as (_ & _ & (_ & Ht & _)%(no_admin_nil _ _ user) & _); [congruence|done].
Qed.

(** ** The other checks *)

(** The owner's check passes without a group of administrators and without a
    grant; an unanswered query counts as no grant. *)
Theorem owner_sudo_exact h user r : check_daemon_owner_sudo h user OPERATOR_ROOTLESS = Ok r →
  let owner := getuser (ah_env h) in
  (status r = PASS ↔ user_admin_groups (ah_env h) (ah_group h) owner = [] ∧
     HostPhases.granted (user_sudoers_grant (ah_sudo h (sudoers_query owner true))) = false) ∧ status r ≠ FAILED.
Proof.
  unfold check_daemon_owner_sudo. intros (c & Hc & (owner & Ho & [= <-])%res_bind_Ok)%res_bind_Ok.
  unfold minimal_host_config, new_HostSettings, validate_docker_unprivileged_user in Hc. cbn in Hc.
  destruct (USERNAME_RE user); [|done]. injection Hc as <-. injection Ho as <-. cbv zeta.
  case_bool_decide as Ha; destruct (HostPhases.granted _); cbn; (split; [|done]); naive_solver.
Qed.

Lemma inspect_pins_spec inspect json_loads pins found : inspect_pins inspect json_loads pins = Ok found →
  match found with
  | None => ∃ e, e ∈ pins ∧ timed_out (inspect (pinned e.2)) = true
  | Some (stale, _) => (∀ e, e ∈ pins → timed_out (inspect (pinned e.2)) = false) ∧
      (stale = [] ↔ ∀ e, e ∈ pins → ok (inspect (pinned e.2)) = true)
  end.
Proof.
  revert found; induction pins as [|[key pin] pins IH]; intros found; cbn [inspect_pins].
  - intros [= <-]. split; [by intros e ?%elem_of_nil|]. split; [by intros _ e ?%elem_of_nil|done].
  - destruct (timed_out (inspect (pinned pin))) eqn:Et; [intros [= <-]; exists (key, pin); by split; [left|]|].
    assert (Hto : ∀ rest : option (list string * list string), inspect_pins inspect json_loads pins = Ok rest →
      ok (inspect (pinned pin)) = true → ∀ l, match rest with
        | None => ∃ e, e ∈ (key, pin) :: pins ∧ timed_out (inspect (pinned e.2)) = true
        | Some (stale, _) => (∀ e, e ∈ (key, pin) :: pins → timed_out (inspect (pinned e.2)) = false) ∧
            (stale = l → (l = [] ↔ ∀ e, e ∈ (key, pin) :: pins → ok (inspect (pinned e.2)) = true))
        end).
    { intros rest Hrest Hok l. specialize (IH rest Hrest). destruct rest as [[stale drift]|].
      - destruct IH as [IH1 IH2]. split; [by intros e [->|He]%elem_of_cons; auto|]. intros <-. rewrite IH2. split.
        + by intros H e [->|He]%elem_of_cons; auto.
        + intros H e He. apply H. by right.
      - destruct IH as (e & ? & ?). exists e. by split; [right|]. }
    destruct (ok (inspect (pinned pin))) eqn:Eo; cbn [negb].
    + intros (drifted & _ & (rest & Hrest & [= <-])%res_bind_Ok)%res_bind_Ok.
      destruct rest as [[stale drift]|]; cbn.
      * destruct (Hto _ Hrest eq_refl stale) as [? Hs]. split; [done|by apply Hs].
      * by apply (Hto _ Hrest eq_refl []).
    + intros (rest & Hrest & [= <-])%res_bind_Ok. specialize (IH rest Hrest). destruct rest as [[stale drift]|]; cbn.
      * destruct IH as [IH1 _]. split; [by intros e [->|He]%elem_of_cons; auto|]. split; [done|].
        intros H. specialize (H (key, pin) ltac:(left)). cbn in H. congruence.
      * destruct IH as (e & ? & ?). exists e. by split; [right|].
Qed.

(** The digests pass when every pin was confirmed, are skipped when an inspection
    timed out, and fail in between. *)
Theorem image_digests_exact inspect json_loads r : check_image_digests inspect json_loads = Ok r →
  (status r = PASS ↔ ∀ e, e ∈ IMAGE_REGISTRY → timed_out (inspect (pinned e.2)) = false ∧ ok (inspect (pinned e.2)) = true) ∧
  (status r = SKIP ↔ ∃ e, e ∈ IMAGE_REGISTRY ∧ timed_out (inspect (pinned e.2)) = true).
Proof.
  unfold check_image_digests.
  intros (found & Hf%inspect_pins_spec & [= <-])%res_bind_Ok. destruct found as [[stale drift]|].
  - destruct Hf as [Ht Hs]. case_bool_decide as Hn; cbn [status result verdict].
    + split; [split; [|done]|split; [done|]].
      * intros _ e He. split; [by apply Ht|]. by apply (proj1 Hs Hn).
      * intros (e & He & H). rewrite Ht in H; done.
    + split; [split; [done|]|split; [done|]].
      * intros H. destruct Hn. apply Hs. intros e He. by apply H.
      * intros (e & He & H). rewrite Ht in H; done.
  - destruct Hf as (e & He & Ht). cbn [status result verdict]. split; [split; [done|]|split; [eauto|done]].
    intros H. destruct (H e He). congruence.
Qed.

(** The posture is only information: it always passes, and it comes without the
    hint exactly when all four mechanisms are on. *)
Lemma posture_exact read_text which run aide_db :
  let r := check_binary_integrity_posture read_text which run aide_db in
  status r = PASS ∧ (cr_remediation r = None ↔ probe_dm_verity read_text which run = "ACTIVE" ∧
    probe_ima read_text = "APPRAISING" ∧ probe_fapolicyd which run = "ENFORCING" ∧ probe_aide which aide_db = "INSTALLED-DB-PRESENT").
Proof.
  split; [done|]. unfold check_binary_integrity_posture. cbv zeta.
  assert (probe_dm_verity read_text which run ∈ ["ACTIVE"; "INACTIVE"]) as Hd.
  { unfold probe_dm_verity. cbv zeta. destruct (_ || _); [set_solver|]. destruct (run _) as [[[out err] rc]|]; [|set_solver].
    destruct (negb _); [set_solver|]. destruct (contains _ _); set_solver. }
  assert (probe_ima read_text ∈ ["APPRAISING"; "NOT-APPRAISING"]) as Hi.
  { unfold probe_ima. destruct (read_text _); [destruct (contains _ _)|]; set_solver. }
  assert (probe_fapolicyd which run ∈ ["ENFORCING"; "PERMISSIVE"; "NOT-RUNNING"]) as Hf.
  { unfold probe_fapolicyd. destruct (run ["systemctl"; _; _]) as [[[a err] rc]|]; [|set_solver].
    destruct (negb _); [set_solver|]. destruct (negb _); [set_solver|]. destruct (run _) as [[[out err'] rc']|]; [|set_solver].
    cbv zeta. destruct (contains _ _); [set_solver|]. destruct (contains _ _); set_solver. }
  assert (probe_aide which aide_db ∈ ["INSTALLED-DB-PRESENT"; "INSTALLED-DB-MISSING"; "NOT-INSTALLED"]) as Ha.
  { unfold probe_aide. destruct (negb _), aide_db; set_solver. }
  revert Hd Hi Hf Ha. generalize (probe_dm_verity read_text which run), (probe_ima read_text), (probe_fapolicyd which run),
    (probe_aide which aide_db).
  intros d i f a; rewrite !elem_of_cons, !elem_of_nil;
    intros [->|[->|[]]] [->|[->|[]]] [->|[->|[->|[]]]] [->|[->|[->|[]]]]; vm_compute; (split; [done|by intros (? & ? & ? & ?)]).
Qed.

(** ** A host that was set up *)

Definition demo_l0 : l0_host :=
  L0Host None None None (Some "Sudo version 1.9.15p5")
    (λ p, bool_decide (p ∈ ["/usr/bin/machinectl"; "/usr/bin/systemd-run"])) (λ _, None).

Definition demo_rule : string :=
  match render_sudoers_rule "/usr/bin/systemd-run" "dev" "box" "sandbox" with Ok text => text | Err _ => "" end.

Definition demo_audit (text said : string) : audit_host :=
  AuditHost (demo_accounts good_range good_range) (λ g, if String.eqb g "sb-ws" then Some (101500%Z, ["dev"]) else None)
    demo_l0 None None (Ok "dev") (Some (493, 0, 0)%Z) (λ _, Readable text) "box" (λ _, Some ("", said, 1%Z)).

Definition NO_SUDO : string := "User sandbox is not allowed to run sudo on box.".

Lemma setup_invariants_exact_witness :
  ∃ r, check_setup_invariants silent_text (demo_audit demo_rule NO_SUDO) "sandbox" SEPARATE_USER = Ok r ∧ status r = PASS.
Proof.
  set (h := demo_audit demo_rule NO_SUDO).
  assert (∃ r, check_setup_invariants silent_text h "sandbox" SEPARATE_USER = Ok r) as [r Hr] by (by eexists; unfold check_setup_invariants; cbn).
  exists r. split; [exact Hr|].
  assert (Hrun : resolve_systemd_run_path demo_l0 = Resolved "/usr/bin/systemd-run") by (vm_compute; reflexivity).
  refine (proj2 (proj2 (setup_invariants_exact silent_text h "sandbox" SEPARATE_USER "dev" r _ _ _ _ _ Hr)) _).
  - split; reflexivity.
  - split; reflexivity.
  - split; reflexivity.
  - intros p Hp. change (ah_l0 h) with demo_l0 in Hp. rewrite Hrun in Hp. injection Hp as <-. reflexivity.
  - reflexivity.
  - split_and!.
    + exists 493%Z. split; reflexivity.
    + vm_compute. reflexivity.
    + exists 101500%Z, ["dev"]. split_and!; vm_compute; reflexivity.
    + split; [vm_compute; reflexivity|split; vm_compute; reflexivity].
    + exists "/usr/bin/machinectl". vm_compute. reflexivity.
    + exists "/usr/bin/systemd-run". split; [exact Hrun|]. vm_compute. reflexivity.
    + intros v Hv. vm_compute in Hv. injection Hv as <-. reflexivity.
Defined.

Lemma owner_sudo_exact_witness :
  ∃ r, check_daemon_owner_sudo (demo_audit "" NO_SUDO) "sandbox" OPERATOR_ROOTLESS = Ok r ∧ status r = PASS.
Proof.
  eexists. split; [reflexivity|].
  refine (proj2 (proj1 (owner_sudo_exact (demo_audit "" NO_SUDO) "sandbox" _ eq_refl)) _). split; vm_compute; reflexivity.
Defined.

(** A registry that never answers in time. *)
Lemma image_digests_exact_witness :
  ∃ r, check_image_digests (λ _, MkProbe false true "" "" None) empty_list_json = Ok r ∧ status r = SKIP.
Proof.
  eexists. split; [reflexivity|].
  refine (proj2 (proj2 (image_digests_exact (λ _, MkProbe false true "" "" None) empty_list_json _ eq_refl)) _).
  eexists. split; [left|reflexivity].
Defined.

(** A registry that cannot be reached without a timeout is no skip but a failure. *)
Lemma unreachable_registry_fails :
  ∃ r, check_image_digests (λ _, MkProbe false false "" "" None) empty_list_json = Ok r ∧ status r = FAILED.
Proof. eexists. split; reflexivity. Qed.

(** Without an answer of sudo the owner is said to have no grant. *)
Lemma unanswered_is_no_grant :
  ∃ r, check_daemon_owner_sudo (AuditHost (demo_accounts good_range good_range) (λ _, None) demo_l0 None None (Ok "dev") None
    (λ _, NotThere) "box" (λ _, None)) "sandbox" OPERATOR_ROOTLESS = Ok r ∧ status r = PASS.
Proof. eexists. split; reflexivity. Qed.

(** A daemon that says it is not enforcing is reported as enforcing. *)
Lemma not_enforcing_enforces :
  probe_fapolicyd (λ _, true) (λ argv, if bool_decide (argv = ["fapolicyd-cli"; "--check-status"])
    then Some ("fapolicyd is not enforcing", "", 0%Z) else Some ("active", "", 0%Z)) = "ENFORCING".
Proof. vm_compute. reflexivity. Qed.
