(* ===== verification/SetupEntry.v ===== *)
(** * cli.main: the entry of sandbox setup

    Who sets up whom and in which mode: the operator, the mode of the marker and
    the flags, the identity gate, the guards of the flags, the ceremony behind
    them, and the one escalation of the mode without a crossing. *)
From S2P Require Import Prelude PyStr Json HostConfig SetupState PhaseRunner SetupFlow HostIdentity HostBatch.
From Stdlib Require Import Ascii String.
Open Scope nat_scope.

(** A step goes on, is refused with a text before anything is changed, or raises
    what the command does not catch. *)
Inductive entry (A : Type) := Go (a : A) | Refuse (text : string) | Uncaught (e : exn).
Arguments Go {A} a. Arguments Refuse {A} text. Arguments Uncaught {A} e.

#[export] Instance entry_ret : MRet entry := λ A a, Go a.
#[export] Instance entry_bind : MBind entry := λ A B f m,
  match m with Go a => f a | Refuse t => Refuse t | Uncaught e => Uncaught e end.

(** An exception that the command does not catch. *)
Definition uncaught {A} (r : res A) : entry A := match r with Ok a => Go a | Err e => Uncaught e end.
Definition refuse_if (b : bool) (text : string) : entry unit := if b then Refuse text else Go tt.

Record entry_host := EntryHost {
  eh_env : host_env;
  eh_euid : Z;
  eh_SUDO_USER : option string;
  eh_SUDO_UID : option string;
  eh_marker : json_file
}.

Record setup_flags := SetupFlags {
  flag_operator : option string;
  flag_mode : option string;
  flag_user : string; (* --docker-unprivileged-user, of which the default is "sandbox" *)
  flag_dry_run : bool;
  flag_yes : bool;
  flag_update_runsc : bool
}.

Section entry.
Context (exc_str : exn → string) (h : entry_host).

Definition resolve_effective_mode (operator : string) (mode_flag : option DockerExecutionMode) : entry DockerExecutionMode :=
  recorded ← uncaught (read_mode (eh_marker h) operator);
  match recorded with
  | None => Go (default DEFAULT_PROVISIONING_MODE mode_flag)
  | Some recorded =>
      match mode_flag with
      | Some m =>
          if bool_decide (m = recorded) then Go recorded
          else Refuse ("operator '" +:+ operator +:+ "' is provisioned as " +:+ mode_value recorded +:+ "; " +:+
                       "switching to " +:+ mode_value m +:+ " requires teardown first")
      | None => Go recorded
      end
  end.

Definition parse_mode_flag (mode_flag : option string) : entry (option DockerExecutionMode) :=
  match mode_flag with
  | None => Go None
  | Some s => match mode_of_value s with
              | Ok m => Go (Some m)
              | Err _ => Refuse ("Invalid --docker-execution-mode value: '" +:+ s +:+ "'. " +:+
                                 "Must be 'separate-user' or 'operator-rootless'.")
              end
  end.

Definition uid_of (u : string) : option Z := pw_uid <$> getpwnam (eh_env h) u.

Definition resolve_setup_operator (operator_flag : option string) : entry string :=
  match resolve_operator uid_of (eh_SUDO_USER h) (eh_SUDO_UID h) operator_flag with
  | Ok operator => Go operator
  | Err OperatorResolutionError =>
      if negb (Z.eqb (eh_euid h) 0) then Go (getuser (eh_env h)) else Refuse (exc_str OperatorResolutionError)
  | Err e => Uncaught e
  end.

Definition build_setup_context_with_operator (f : setup_flags) : entry SetupContext :=
  operator ← resolve_setup_operator (flag_operator f);
  mode_flag ← parse_mode_flag (flag_mode f);
  mode ← resolve_effective_mode operator mode_flag;
  settings ← uncaught (new_HostSettings (Some (flag_user f)) mode (workspace_bridge_group_for operator mode));
  Go (MkSetupContext (MkHostConfig settings) operator).

Definition refuse_wrong_setup_identity (ctx : SetupContext) : entry unit :=
  if is_operator_rootless (ctx_config ctx) then
    refuse_if (Z.eqb (eh_euid h) 0)
      ("operator-rootless setup must NOT be run as root. Re-invoke as your own " +:+
       "(non-root) operator account, without sudo — the rootless Docker daemon " +:+ "runs as your user.")
  else
    refuse_if (negb (Z.eqb (eh_euid h) 0))
      "sandbox setup must be run as root. Re-invoke as: sudo sandbox setup".

Definition is_root_user (name : string) : bool := bool_decide (uid_of name = Some 0%Z).

Definition guard_setup_flags (ctx : SetupContext) (f : setup_flags) : entry unit :=
  let me := getuser (eh_env h) in
  _ ← (if is_operator_rootless (ctx_config ctx) then
         _ ← refuse_if (negb (String.eqb (flag_user f) "sandbox"))
               ("--docker-unprivileged-user does not apply in operator-rootless mode " +:+
                "(the rootless daemon runs as the operator's own user).");
         match flag_operator f with
         | Some o =>
             refuse_if (negb (String.eqb o me))
               ("--operator '" +:+ o +:+ "' does not match the invoking user '" +:+ me +:+
                "'; operator-rootless setup provisions only for the invoker.")
         | None =>
             match eh_SUDO_USER h with
             | Some u =>
                 refuse_if (negb (String.eqb u me))
                   ("operator-rootless setup resolved the operator from $SUDO_USER='" +:+ u +:+ "', " +:+
                    "but the daemon would run as the invoking user '" +:+ me +:+ "'. " +:+
                    "Run `sandbox setup` directly as the operator (no `sudo -u`).")
             | None => Go tt
             end
         end
       else Go tt);
  owner ← uncaught (resolve_daemon_owner (eh_env h) (ctx_config ctx));
  refuse_if (String.eqb owner "root" || is_root_user owner)
    ("refusing: the resolved daemon owner is '" +:+ owner +:+ "' (root / uid 0); " +:+
     "the rootless daemon owner must never be root.").

(** Everything before the ceremony; none of it changes the host. *)
Definition setup_entry (f : setup_flags) : entry SetupContext :=
  ctx ← build_setup_context_with_operator f;
  _ ← refuse_wrong_setup_identity ctx;
  _ ← guard_setup_flags ctx f;
  Go ctx.

(** What is written to the marker after a separate-user setup. *)
Definition record_separate_user_mode (ctx : SetupContext) (s : marker_dir) : res unit * marker_dir :=
  let settings := HostConfig.host (ctx_config ctx) in
  match workspace_bridge_gid (eh_env h) settings with
  | Err e => (Err e, s)
  | Ok gid =>
      write_mode no_fault (0, 0)%Z (ctx_operator ctx) SEPARATE_USER (workspace_bridge_group settings) gid
        (docker_unprivileged_user settings) s
  end.
End entry.

(** ** The ceremony and the command *)

(** What the process ends with, after the lines it prints. *)
Inductive ended := Exited (code : Z) (lines : list string) | Traceback (e : exn).

Definition ABORTED : string := "aborted by operator (SIGINT). No mutations applied.".

Section command.
Context {W : Type} (exc_str : exn → string) (h : entry_host).

(** The single phase l6a, its dependency taken as met. *)
Definition run_setup_update_runsc (ctx : SetupContext) (phases : list (Phase W)) : W → option (res Z * W) := λ w,
  let phases := List.filter (λ p, String.eqb (phase_id p) "l6a") phases in
  match run_plan_pass exc_str ctx phases true w with
  | None => None
  | Some (Err e) => Some (Err e, w)
  | Some (Ok _) =>
      match run_apply_pass exc_str ctx phases true w with
      | None => None
      | Some (Err e, w) => Some (Err e, w)
      | Some (Ok outcomes, w) => Some (Ok (if apply_pass_failed outcomes then 1%Z else 0%Z), w)
      end
  end.

(** [_setup_body]: an unknown distribution ends it before any phase. *)
Definition setup_ceremony (f : setup_flags) (gate : distro_gate) (phases : list (Phase W)) (is_tty : bool) (response : string)
    (batch : W → nat) (escalate : eff W bool) (record : SetupContext → eff W unit)
    (ctx : SetupContext) : W → option (res Z * W) := λ w,
  let gated (body : W → option (res Z * W)) :=
    match gate with GateRefused _ => Some (Err (Exit 1), w) | _ => body w end in
  if is_operator_rootless (ctx_config ctx) then
    gated (setup_body_operator_rootless exc_str ctx phases (flag_dry_run f) is_tty (flag_yes f) response batch escalate)
  else if flag_update_runsc f then run_setup_update_runsc ctx phases w
  else gated (setup_body_separate_user exc_str ctx phases (flag_dry_run f) is_tty (flag_yes f) response (record ctx)).

Definition setup (f : setup_flags) (ceremony : SetupContext → W → option (res Z * W)) : W → option (ended * W) := λ w,
  match setup_entry exc_str h f with
  | Refuse text => Some (Exited 1 [text], w)
  | Uncaught e => Some (Traceback e, w)
  | Go ctx =>
      match ceremony ctx w with
      | None => None
      | Some (Ok code, w) => Some (Exited code [], w)
      | Some (Err SetupAborted, w) => Some (Exited 130 [ABORTED], w)
      | Some (Err (Exit code), w) => Some (Exited code [], w)
      | Some (Err e, w) => Some (Traceback e, w)
      end
  end.
End command.

(** ** The escalation *)

Definition resolve_sandbox_executable (which : option string) (argv0_realpath : string) : string :=
  match which with Some path => if nonempty path then path else argv0_realpath | None => argv0_realpath end.

Definition bootstrap_argv (executable : string) (items : list BatchItem) (p : BatchParams) : list string :=
  (["env"; "PYTHONDONTWRITEBYTECODE=1"; executable; "_bootstrap-host"] ++ drop 2 (build_bootstrap_argv items p))%list.

(** The commands that are run, and whether the batch was applied; [run] gives a
    command's exit status. *)
Definition run_bootstrap_escalation (run : list string → Z) (executable : string) (items : list BatchItem)
    (p : BatchParams) (is_tty : bool) : list (list string) * bool :=
  let sub_argv := bootstrap_argv executable items p in
  if is_tty then
    let cmd := "sudo" :: sub_argv in ([cmd], Z.eqb (run cmd) 0)
  else
    let probe := ["sudo"; "-n"; "true"] in
    if negb (Z.eqb (run probe) 0) then ([probe], false)
    else let cmd := (["sudo"; "-n"] ++ sub_argv)%list in ([probe; cmd], Z.eqb (run cmd) 0).

Definition host_root_batch_plan_lines (items : list BatchItem) : list string :=
  if bool_decide (items = []) then ["Host-root prerequisites: all satisfied (no escalation needed)."]
  else ["Host-root prerequisites needing one `sudo` escalation: " +:+ join ", " (map item_value (selected items))].

Definition operator_rootless_finalization_lines (items : list BatchItem) (p : BatchParams) : list string :=
  if bool_decide (GROUPADD ∈ items) then
    ["Setup complete.";
     "You were added to the '" +:+ bridge_group p +:+ "' group — log out and " +:+
     "back in to refresh your group membership before `sandbox start`."]
  else ["Setup complete."].

Definition emit_auth_probe_failure (user detail : string) (mode : DockerExecutionMode) : list string :=
  ["preflight crossing failed for user '" +:+ user +:+ "': " +:+ detail;
   match mode with
   | SEPARATE_USER =>
       "Remediation: separate-user ops cross via the root-owned dispatcher " +:+
       "boundary, authorized by a NOPASSWD sudoers rule that `sandbox setup` " +:+
       "writes to /etc/sudoers.d/. A timeout usually means a sudo password " +:+
       "prompt — the per-op dispatcher rule is missing or not passwordless; " +:+
       "re-run `sandbox setup` to (re)install it. Confirm the dedicated user " +:+
       "exists and systemd-machined is running."
   | OPERATOR_ROOTLESS =>
       "Remediation: in operator-rootless mode the daemon runs as your own " +:+
       "account with no privilege crossing. Ensure rootless Docker is installed " +:+
       "and running for your user (run `sandbox doctor`); re-run `sandbox setup` " +:+
       "if the host has not been provisioned."
   end].

(** ** What an entered setup is *)

Lemma entry_bind_Go {A B} (m : entry A) (g : A → entry B) b : (m ≫= g) = Go b ↔ ∃ a, m = Go a ∧ g a = Go b.
Proof. destruct m; cbn; naive_solver. Qed.

Lemma uncaught_Go {A} (r : res A) a : uncaught r = Go a ↔ r = Ok a.
Proof. destruct r; cbn; naive_solver. Qed.

Lemma refuse_if_Go b text u : refuse_if b text = Go u ↔ b = false.
Proof. destruct u, b; cbn; naive_solver. Qed.

Lemma resolve_operator_Ok uid SUDO_USER SUDO_UID flag operator : resolve_operator uid SUDO_USER SUDO_UID flag = Ok operator →
  flag = Some operator ∨ flag = None ∧ SUDO_USER = Some operator.
Proof.
  unfold resolve_operator. destruct flag as [o|]; [destruct (uid o); [intros [= ->]; by left|done]|].
  destruct SUDO_USER as [u|], SUDO_UID as [n|]; try done. destruct (nonempty u && nonempty n); [|done].
  destruct (uid u); [|done]. destruct (py_int n) as [k|]; [|done]. destruct (Z.eqb _ k); [|done]. intros [= ->]. by right.
Qed.

Section entered.
Context (exc_str : exn → string).

Definition mode_of (ctx : SetupContext) : DockerExecutionMode := docker_execution_mode (HostConfig.host (ctx_config ctx)).

Lemma rootless_mode ctx : is_operator_rootless (ctx_config ctx) = bool_decide (mode_of ctx = OPERATOR_ROOTLESS).
Proof. done. Qed.

(** What the builder puts into the context. *)
Lemma build_Go h f ctx : build_setup_context_with_operator exc_str h f = Go ctx → ∃ m,
  resolve_setup_operator exc_str h (flag_operator f) = Go (ctx_operator ctx) ∧ parse_mode_flag (flag_mode f) = Go m ∧
  resolve_effective_mode h (ctx_operator ctx) m = Go (mode_of ctx) ∧ USERNAME_RE (flag_user f) = true ∧
  HostConfig.host (ctx_config ctx) =
    MkHostSettings (Some (flag_user f)) (mode_of ctx) (workspace_bridge_group_for (ctx_operator ctx) (mode_of ctx)).
Proof.
  unfold build_setup_context_with_operator.
  intros (operator & Ho & (m & Hm & (mode & Hmode & (s & Hs & [= <-])%entry_bind_Go)%entry_bind_Go)%entry_bind_Go)%entry_bind_Go.
  apply uncaught_Go in Hs. unfold new_HostSettings, validate_docker_unprivileged_user in Hs. cbn in Hs.
  destruct (USERNAME_RE (flag_user f)) eqn:Hu; [|done]. injection Hs as <-. exists m. done.
Qed.

Lemma effective_Go h operator m mode : resolve_effective_mode h operator m = Go mode →
  ∃ recorded, read_mode (eh_marker h) operator = Ok recorded ∧
    (∀ r, recorded = Some r → mode = r) ∧ (∀ r, m = Some r → mode = r) ∧
    (recorded = None → m = None → mode = OPERATOR_ROOTLESS).
Proof.
  unfold resolve_effective_mode. intros (recorded & Hr%uncaught_Go & H)%entry_bind_Go. exists recorded. split; [done|].
  destruct recorded as [r|], m as [m|]; [case_bool_decide as Hb; [|done]|..]; injection H as <-; naive_solver.
Qed.

Lemma parse_mode_Go s m : parse_mode_flag s = Go m → ∀ v, s = Some v → ∃ mode, m = Some mode ∧ mode_of_value v = Ok mode.
Proof. intros H v ->. cbn in H. destruct (mode_of_value v); naive_solver. Qed.

Lemma setup_entry_Go h f ctx : setup_entry exc_str h f = Go ctx ↔
  build_setup_context_with_operator exc_str h f = Go ctx ∧ refuse_wrong_setup_identity h ctx = Go tt ∧
  guard_setup_flags h ctx f = Go tt.
Proof.
  unfold setup_entry. rewrite entry_bind_Go. split.
  - by intros (c & Hc & ([] & Hi & ([] & Hg & [= <-])%entry_bind_Go)%entry_bind_Go).
  - intros (Hc & Hi & Hg). exists ctx. rewrite Hi, Hg. done.
Qed.

(** C38: A setup that is entered has one owner and one mode.  The mode is the
    recorded one if there is one, else the flag's, else operator-rootless; a
    flag never contradicts it.  The owner of the daemon is never root.  Only
    root enters the separate-user mode; only an operator, for himself, as the
    owner and with no other user asked for, enters the other. *)
Theorem setup_enters_one_mode h f ctx : setup_entry exc_str h f = Go ctx →
  (∃ recorded, read_mode (eh_marker h) (ctx_operator ctx) = Ok recorded ∧
    (∀ r, recorded = Some r → mode_of ctx = r) ∧
    (∀ v, flag_mode f = Some v → mode_of_value v = Ok (mode_of ctx)) ∧
    (recorded = None → flag_mode f = None → mode_of ctx = OPERATOR_ROOTLESS)) ∧
  workspace_bridge_group (HostConfig.host (ctx_config ctx)) = workspace_bridge_group_for (ctx_operator ctx) (mode_of ctx) ∧
  (∃ owner, resolve_daemon_owner (eh_env h) (ctx_config ctx) = Ok owner ∧ owner ≠ "root" ∧ uid_of h owner ≠ Some 0%Z) ∧
  match mode_of ctx with
  | SEPARATE_USER => eh_euid h = 0%Z ∧
      (flag_operator f = Some (ctx_operator ctx) ∨ flag_operator f = None ∧ eh_SUDO_USER h = Some (ctx_operator ctx))
  | OPERATOR_ROOTLESS => eh_euid h ≠ 0%Z ∧ ctx_operator ctx = getuser (eh_env h) ∧ flag_user f = "sandbox"
  end.
Proof.
  intros (Hb & Hi & Hg)%setup_entry_Go. apply build_Go in Hb as (m & Ho & Hm & He & _ & Hs).
  apply effective_Go in He as (recorded & Hr & H1 & H2 & H3). split_and!.
  - exists recorded. split_and!; [done|done| |].
    + intros v Hv. destruct (parse_mode_Go _ _ Hm v Hv) as (mode & -> & Hmode). by rewrite (H2 mode).
    + intros Hn Hf. apply H3; [done|]. rewrite Hf in Hm. by injection Hm as <-.
  - by rewrite Hs.
  - unfold guard_setup_flags in Hg. apply entry_bind_Go in Hg as (_ & _ & (owner & Hw%uncaught_Go & Hn%refuse_if_Go)%entry_bind_Go).
    exists owner. apply orb_false_iff in Hn as [Hne Hroot]. split_and!; [done|by apply String.eqb_neq|intros Hz; unfold is_root_user in Hroot; by rewrite bool_decide_true in Hroot].
  - unfold refuse_wrong_setup_identity in Hi. unfold guard_setup_flags in Hg. rewrite rootless_mode in Hi, Hg.
    apply entry_bind_Go in Hg as ([] & Hg & _). unfold resolve_setup_operator in Ho. destruct (mode_of ctx).
    + cbn in Hi. apply refuse_if_Go, negb_false_iff, Z.eqb_eq in Hi. split; [done|]. rewrite Hi in Ho.
      destruct (resolve_operator _ _ _ _) as [o|e] eqn:Hres; [|by destruct e].
      injection Ho as ->. by eapply resolve_operator_Ok.
    + cbn in Hi, Hg. apply refuse_if_Go, Z.eqb_neq in Hi. apply entry_bind_Go in Hg as ([] & Hu%refuse_if_Go & Hg).
      apply negb_false_iff, String.eqb_eq in Hu. split_and!; [done| |done].
      assert (Hme : ∀ o, flag_operator f = Some o ∨ flag_operator f = None ∧ eh_SUDO_USER h = Some o → o = getuser (eh_env h)).
      { intros o [Hf|[Hf Hsu]]; rewrite Hf in Hg; [|rewrite Hsu in Hg];
          by apply refuse_if_Go, negb_false_iff, String.eqb_eq in Hg. }
      destruct (resolve_operator _ _ _ _) as [o|e] eqn:Hres.
      * injection Ho as ->. by apply Hme; eapply resolve_operator_Ok.
      * destruct e; try done. destruct (negb _); [by injection Ho as <-|done].
Qed.

(** The flags of a later run that asks for a mode, or for none. *)
Definition asking (v : option string) (f : setup_flags) : setup_flags :=
  SetupFlags (flag_operator f) v (flag_user f) (flag_dry_run f) (flag_yes f) (flag_update_runsc f).
Definition recorded_in (m : json_file) (h : entry_host) : entry_host :=
  EntryHost (eh_env h) (eh_euid h) (eh_SUDO_USER h) (eh_SUDO_UID h) m.

Lemma build_with h f ctx v m :
  build_setup_context_with_operator exc_str h f = Go ctx → read_mode m (ctx_operator ctx) = Ok (Some (mode_of ctx)) →
  build_setup_context_with_operator exc_str (recorded_in m h) (asking v f) =
    (mode_flag ← parse_mode_flag v; _ ← resolve_effective_mode (recorded_in m h) (ctx_operator ctx) mode_flag; Go ctx).
Proof.
  intros Hb Hm. pose proof Hb as (m0 & Ho & _ & _ & Hu & Hs)%build_Go. unfold build_setup_context_with_operator.
  change (resolve_setup_operator exc_str (recorded_in m h) (flag_operator (asking v f))) with
    (resolve_setup_operator exc_str h (flag_operator f)). rewrite Ho. cbn [mbind entry_bind flag_mode asking].
  destruct (parse_mode_flag v) as [m1|text|e]; cbn [mbind entry_bind]; [|done..].
  assert (∀ mode, resolve_effective_mode (recorded_in m h) (ctx_operator ctx) m1 = Go mode → mode = mode_of ctx) as Hmode.
  { intros mode (r & Hr & H1 & _)%effective_Go. cbn in Hr. rewrite Hm in Hr. injection Hr as <-. by apply H1. }
  destruct (resolve_effective_mode (recorded_in m h) (ctx_operator ctx) m1) as [mode|text|e]; cbn [mbind entry_bind]; [|done..].
  rewrite (Hmode mode eq_refl). unfold new_HostSettings, validate_docker_unprivileged_user. cbn. rewrite Hu. cbn.
  rewrite <- Hs. by destruct ctx as [[c] o].
Qed.

(** C39: The mode sticks.  Once the marker records the mode that a setup was
    entered with, the same setup is entered with the same context, with or
    without asking for the mode again, and asking for the other mode is
    refused. *)
Theorem setup_mode_sticks h f ctx m :
  setup_entry exc_str h f = Go ctx → read_mode m (ctx_operator ctx) = Ok (Some (mode_of ctx)) →
  setup_entry exc_str (recorded_in m h) (asking None f) = Go ctx ∧
  setup_entry exc_str (recorded_in m h) (asking (Some (mode_value (mode_of ctx))) f) = Go ctx ∧
  ∀ other, other ≠ mode_of ctx →
    ∃ text, setup_entry exc_str (recorded_in m h) (asking (Some (mode_value other)) f) = Refuse text.
Proof.
  intros (Hb & Hi & Hg)%setup_entry_Go Hm.
  assert (Hgo : ∀ v, build_setup_context_with_operator exc_str (recorded_in m h) (asking v f) = Go ctx →
    setup_entry exc_str (recorded_in m h) (asking v f) = Go ctx) by (intros v Hv; by apply setup_entry_Go).
  assert (Hnone : resolve_effective_mode (recorded_in m h) (ctx_operator ctx) None = Go (mode_of ctx)).
  { unfold resolve_effective_mode. cbn [eh_marker recorded_in]. by rewrite Hm. }
  assert (Hsome : ∀ mode, resolve_effective_mode (recorded_in m h) (ctx_operator ctx) (Some mode) =
    if bool_decide (mode = mode_of ctx) then Go (mode_of ctx) else
      Refuse ("operator '" +:+ ctx_operator ctx +:+ "' is provisioned as " +:+ mode_value (mode_of ctx) +:+ "; " +:+
              "switching to " +:+ mode_value mode +:+ " requires teardown first")).
  { intros mode. unfold resolve_effective_mode. cbn [eh_marker recorded_in]. by rewrite Hm. }
  split_and!.
  - apply Hgo. rewrite (build_with h f ctx) by done. cbn. by rewrite Hnone.
  - apply Hgo. rewrite (build_with h f ctx) by done. cbn. rewrite mode_value_roundtrip. cbn. rewrite Hsome.
    by rewrite bool_decide_true.
  - intros other Hne. eexists. unfold setup_entry. rewrite (build_with h f ctx) by done. cbn. rewrite mode_value_roundtrip. cbn.
    rewrite Hsome. by rewrite bool_decide_false.
Qed.

(** What a separate-user setup records makes its mode stick. *)
Lemma separate_user_recorded h f ctx s s' : setup_entry exc_str h f = Go ctx → mode_of ctx = SEPARATE_USER →
  record_separate_user_mode h ctx s = (Ok tt, s') → read_mode (marker s') (ctx_operator ctx) = Ok (Some (mode_of ctx)).
Proof.
  intros _ -> H. unfold record_separate_user_mode in H. destruct (workspace_bridge_gid _ _); [|done].
  by destruct (write_mode_roundtrip _ _ _ _ _ _ _ _ _ H) as (? & _).
Qed.
End entered.

(** The escalation never prompts without a terminal, runs the batch at most once,
    and reports it as applied exactly when it ran and ended with 0. *)
Theorem escalates_once run executable items p is_tty : let '(runs, applied) := run_bootstrap_escalation run executable items p is_tty in
  let batch := if is_tty then "sudo" :: bootstrap_argv executable items p
               else (["sudo"; "-n"] ++ bootstrap_argv executable items p)%list in
  (is_tty = false → ∀ argv, argv ∈ runs → take 2 argv = ["sudo"; "-n"]) ∧
  (applied = true ↔ last runs = Some batch ∧ run batch = 0%Z ∧ (is_tty = false → run ["sudo"; "-n"; "true"] = 0%Z)).
Proof.
  unfold run_bootstrap_escalation. destruct is_tty; cbv zeta.
  - split; [done|]. cbn. rewrite Z.eqb_eq. naive_solver.
  - destruct (Z.eqb_spec (run ["sudo"; "-n"; "true"]) 0) as [Hp|Hp]; cbn [negb].
    + split; [intros _ argv [->| ->%list_elem_of_singleton]%elem_of_cons; done|]. cbn. rewrite Z.eqb_eq. naive_solver.
    + split; [by intros _ argv ->%list_elem_of_singleton|]. split; [done|]. intros (H & _ & Hr). destruct Hp. by apply Hr.
Qed.

(** ** Demonstrations *)

Definition setup_env : host_env :=
  HostEnv (λ u, if String.eqb u "dev" then Some (HostConfig.Passwd 1000 1000 "/home/dev") else
                if String.eqb u "root" then Some (HostConfig.Passwd 0 0 "/root") else None)
    (λ _, None) [] None None "dev" "/home/dev/.sandbox-ai".
Definition no_flags : setup_flags := SetupFlags None None "sandbox" false true false.
Definition as_dev : entry_host := EntryHost setup_env 1000 None None JMissing.
(** The same account through sudo; the process is then root. *)
Definition under_sudo : entry_host :=
  EntryHost (HostEnv (getpwnam setup_env) (λ _, None) [] None None "root" "/root/.sandbox-ai") 0 (Some "dev") (Some "1000") JMissing.

Definition no_text (e : exn) : string := "".
Definition dev_rootless : SetupContext :=
  MkSetupContext (MkHostConfig (MkHostSettings (Some "sandbox") OPERATOR_ROOTLESS "sb-ws-dev")) "dev".

Lemma setup_enters_one_mode_witness : mode_of dev_rootless = OPERATOR_ROOTLESS ∧ ctx_operator dev_rootless = getuser setup_env.
Proof.
  split; [reflexivity|]. pose proof (setup_enters_one_mode no_text as_dev no_flags dev_rootless) as H.
  destruct H as (_ & _ & _ & _ & H & _); [vm_compute; reflexivity|]. exact H.
Defined.

Definition rootless_marker : json_file :=
  JDoc (JObj {["operators" := JObj {["dev" := JObj {["mode" := JStr "operator-rootless"]}]}]}).

Lemma setup_mode_sticks_witness : ∃ text,
  setup_entry no_text (recorded_in rootless_marker as_dev) (asking (Some "separate-user") no_flags) = Refuse text.
Proof.
  destruct (setup_mode_sticks no_text as_dev no_flags dev_rootless rootless_marker) as (_ & _ & H);
    [vm_compute; reflexivity..|]. exact (H SEPARATE_USER ltac:(discriminate)).
Defined.

(** Two of the lines that are printed for a host without sudo rights run the
    setup under sudo, which refuses this mode to root. *)
Lemma remediation_refused :
  (∃ text, setup_entry no_text under_sudo (SetupFlags None None "sandbox" false false true) = Refuse text) ∧
  (∃ text, setup_entry no_text under_sudo (SetupFlags None (Some "operator-rootless") "sandbox" false false false) = Refuse text).
Proof. split; eexists; vm_compute; reflexivity. Qed.

(** A name that is no account name is not refused: the command ends in the
    exception of the validation. *)
Lemma bad_user_uncaught : setup_entry no_text as_dev (SetupFlags None None "1bad" false true false) = Uncaught ValueError.
Proof. vm_compute. reflexivity. Qed.

(** An interrupt while a phase acts is caught by the phase runner: the phase has
    failed, the next one is acted all the same, and the exit code is 1. *)
Definition acting (id : string) (outcome : res string) : Phase (list string) :=
  MkPhase (list string) id id ROOT (λ _ _, Ok (MISSING, "")) (λ _ w, (outcome, id :: w)) (λ _ _, Ok true) [] None
    [SEPARATE_USER; OPERATOR_ROOTLESS].

Lemma interrupt_swallowed :
  setup no_text as_dev no_flags
    (setup_ceremony no_text no_flags GateOpen [acting "a" (Err SetupAborted); acting "b" (Ok "done")] true "" (λ _, 0)
       (λ w, (Ok true, w)) (λ _ w, (Ok tt, w))) [] = Some (Exited 1 [], ["b"; "a"]).
Proof. vm_compute. reflexivity. Qed.

(** An interrupt after the privileged batch says that nothing was applied. *)
Lemma aborted_after_changes :
  setup no_text as_dev no_flags
    (setup_ceremony no_text no_flags GateOpen [acting "a" (Ok "done")] true "" (λ _, 1)
       (λ w, (Err SetupAborted, "batch" :: w)) (λ _ w, (Ok tt, w))) [] = Some (Exited 130 [ABORTED], ["batch"]).
Proof. vm_compute. reflexivity. Qed.
