(* ===== verification/SharedGroup.v ===== *)
(** * cli.main: the shared group of a workspace, and the diagnosis of a traversal

    The recursive recipe that gives a workspace to the bridge group, over a file
    system of inodes: who owns an entry decides whether it can be changed, a
    link is followed by [chmod] and not by [chown], and [os.walk] does not
    descend into links.  A path has no link in its middle. *)
From S2P Require Import Prelude PyStr Json HostConfig Images Recipes Walker Doctor Hydration BridgeChecks TreeChecks.
From Stdlib Require Import Ascii String.
Open Scope nat_scope.

Inductive kind := KDir | KFile | KLink (target : string).
#[export] Instance kind_eq_dec : EqDecision kind.
Proof. solve_decision. Defined.

(** [mine]: the caller owns it and is in the group, so that both calls succeed. *)
Record inode := Inode { i_kind : kind; i_gid : Z; i_perm : Z; mine : bool }.
#[export] Instance inode_eq_dec : EqDecision inode.
Proof. solve_decision. Defined.
Abbreviation files := (gmap string inode).

Definition with_gid (gid : Z) (i : inode) : inode := Inode (i_kind i) gid (i_perm i) (mine i).
Definition with_perm (perm : Z) (i : inode) : inode := Inode (i_kind i) (i_gid i) perm (mine i).

(** The path a path stands for; the kernel follows at most forty links. *)
Fixpoint resolve (fuel : nat) (fs : files) (p : string) : option string :=
  match fs !! p with
  | Some i => match i_kind i, fuel with
              | KLink t, S fuel => resolve fuel fs t
              | KLink _, O => None
              | _, _ => Some p
              end
  | None => None
  end.
Definition MAXSYMLINKS : nat := 40.
Definition target (fs : files) (p : string) : option string := resolve MAXSYMLINKS fs p.

Definition is_kind (k : kind) (fs : files) (p : string) : bool := bool_decide (i_kind <$> fs !! p = Some k).
Definition is_link (fs : files) (p : string) : bool :=
  match fs !! p with Some i => match i_kind i with KLink _ => true | _ => false end | None => false end.
Definition is_dir (fs : files) (p : string) : bool :=
  match target fs p with Some q => is_kind KDir fs q | None => false end.

(** [os.chown(p, -1, gid, follow_symlinks=False)] and [os.chmod(p, mode)] *)
Definition chown (p : string) (gid : Z) (fs : files) : res files :=
  match fs !! p with
  | None => Err FileNotFoundError
  | Some i => if mine i then Ok (<[p := with_gid gid i]> fs) else Err OSError
  end.
Definition chmod (p : string) (mode : Z) (fs : files) : res files :=
  match target fs p with
  | None => Err FileNotFoundError
  | Some q => match fs !! q with
              | None => Err FileNotFoundError
              | Some i => if mine i then Ok (<[q := with_perm mode i]> fs) else Err OSError
              end
  end.

(** ** os.walk *)

(** A directory that cannot be listed is left out without a word. *)
Section walk.
Context (listable : string → bool).

Definition listdir (fs : files) (d : string) : list string :=
  omap (λ p, if String.eqb (dirname p) d && negb (String.eqb p d) then Some (basename p) else None) (map fst (map_to_list fs)).

Fixpoint walk (fuel : nat) (fs : files) (d : string) : list (string * list string * list string) :=
  match fuel with
  | O => []
  | S fuel =>
      if listable d then
        let names := listdir fs d in
        let dirs := List.filter (λ n, is_dir fs (path_join d n)) names in
        let others := List.filter (λ n, negb (is_dir fs (path_join d n))) names in
        (d, dirs, others) ::
        flat_map (λ n, let p := path_join d n in if is_link fs p then [] else walk fuel fs p) dirs
      else []
  end.

(** Paths get longer on the way down, so the longest one bounds the depth. *)
Definition walk_fuel (fs : files) : nat := S (list_max (map (λ x : string * inode, str_len x.1) (map_to_list fs))).

(** ** The recipe *)

Definition SAMPLE_LIMIT : nat := 5.
Definition DIR_MODE : Z := 1528.  (* 0o2770 *)
Definition FILE_MODE : Z := 432.  (* 0o0660 *)

(** Every entry with its path and whether it is among the directories. *)
Definition entries_of (x : string * list string * list string) : list (string * bool) :=
  let '(root, dirs, others) := x in
  map (λ n, (path_join root n, bool_decide (n ∈ dirs))) (dirs ++ others).

Definition note_failure (path : string) (failures : nat * list string) : nat * list string :=
  (S failures.1, if List.length failures.2 <? SAMPLE_LIMIT then failures.2 ++ [path] else failures.2)%list.

Definition share_entry (gid : Z) (acc : files * (nat * list string)) (e : string * bool) : files * (nat * list string) :=
  let '(fs, failures) := acc in
  let '(path, in_dirs) := e in
  match chown path gid fs with
  | Err _ => (fs, note_failure path failures)
  | Ok fs =>
      match (if in_dirs : bool then chmod path DIR_MODE fs
             else if is_link fs path then Ok fs else chmod path FILE_MODE fs) with
      | Err _ => (fs, note_failure path failures)
      | Ok fs => (fs, failures)
      end
  end.

Definition workspace_shared_group_recursive (fs : files) (workspace : string) (bridge_gid : Z) : files * (nat * list string) :=
  foldl (share_entry bridge_gid) (fs, (0, [])) (flat_map entries_of (walk (walk_fuel fs) fs workspace)).
End walk.

(** [os.stat] follows a link; an entry that cannot be examined needs the recipe. *)
Definition workspace_needs_recursive_setup (st : res (Z * Z)) (bridge_gid : Z) : bool :=
  match st with
  | Err _ => true
  | Ok (mode, gid) => negb (negb (Z.eqb (Z.land mode 1024) 0) && Z.eqb gid bridge_gid)
  end.

(** ** The diagnosis of a failed start *)

Section diagnose.
Context (f : fs_host) (env : host_env).

Fixpoint diagnose_dirs (host_user : string) (pw : passwd) (dirs : list string) : string :=
  match dirs with
  | [] => ""
  | d :: dirs =>
      match fs_stat f d with
      | Err _ => "Diagnosis: cannot stat '" +:+ d +:+ "'." +:+ NL +:+ "Fix: verify directory exists and is accessible."
      | Ok st =>
          if mode_exec (pw_uid pw) (pw_gid pw) st then diagnose_dirs host_user pw dirs
          else "Diagnosis: sandbox user '" +:+ host_user +:+ "' lacks execute permission" +:+ " on " +:+ d +:+ NL +:+
               "Fix: setfacl -m u:" +:+ host_user +:+ ":--x " +:+ d +:+ NL +:+
               "Run 'sandbox doctor' for full host readiness diagnostics."
      end
  end.

Definition diagnose_traverse_failure (instance_dir host_user : string) : option string :=
  match getpwnam env host_user with
  | None => Some ("Diagnosis: user '" +:+ host_user +:+ "' does not exist on this host.")
  | Some pw =>
      let abs_path := fs_abspath f instance_dir in
      up ← components_up (S (str_len abs_path)) abs_path;
      Some (diagnose_dirs host_user pw (reverse up))
  end.
End diagnose.

(** ** What the recipe changes *)

Definition same_kinds (fs fs' : files) : Prop := ∀ p, (λ i, (i_kind i, mine i)) <$> fs' !! p = (λ i, (i_kind i, mine i)) <$> fs !! p.

Lemma same_kinds_insert fs p i i' : fs !! p = Some i → i_kind i' = i_kind i → mine i' = mine i → same_kinds fs (<[p := i']> fs).
Proof.
  intros Hp Hk Hm q. destruct (decide (q = p)) as [->|]; [|by rewrite lookup_insert_ne].
  rewrite lookup_insert_eq, Hp. cbn. by rewrite Hk, Hm.
Qed.

Lemma same_kinds_trans fs1 fs2 fs3 : same_kinds fs1 fs2 → same_kinds fs2 fs3 → same_kinds fs1 fs3.
Proof. intros H1 H2 p. by rewrite H2. Qed.

Lemma same_kinds_resolve fs fs' fuel p : same_kinds fs fs' → resolve fuel fs' p = resolve fuel fs p.
Proof.
  intros H. revert p; induction fuel as [|fuel IH]; intros p; cbn [resolve]; specialize (H p);
    destruct (fs' !! p) as [i'|], (fs !! p) as [i|]; try done; cbn in H; injection H as Hk _; rewrite Hk; [done|].
  by destruct (i_kind i).
Qed.

Lemma same_kinds_is_kind k fs fs' p : same_kinds fs fs' → is_kind k fs' p = is_kind k fs p.
Proof.
  intros H. specialize (H p). unfold is_kind. destruct (fs' !! p), (fs !! p); cbn in *; try done. by injection H as -> _.
Qed.

Lemma same_kinds_is_link fs fs' p : same_kinds fs fs' → is_link fs' p = is_link fs p.
Proof.
  intros H. specialize (H p). unfold is_link. destruct (fs' !! p), (fs !! p); cbn in *; try done. by injection H as -> _.
Qed.

Section recipe.
Context (gid : Z) (fs0 : files).

Definition owned (p : string) : bool := match fs0 !! p with Some i => mine i | None => false end.
Definition target_owned (p : string) : bool := match target fs0 p with Some q => owned q | None => false end.

(** Whether the entry is one of the failures. *)
Definition fails (e : string * bool) : bool :=
  negb (owned e.1) || (if e.2 then negb (target_owned e.1) else negb (is_link fs0 e.1) && negb (target_owned e.1)).

(** An entry is among the directories exactly when it leads to one. *)
Definition entry_ok (e : string * bool) : Prop := e.2 = is_dir fs0 e.1.

(** The group and permissions an entry is given. *)
Definition shared (fs : files) (p : string) : Prop :=
  ∃ i, fs !! p = Some i ∧ i_gid i = gid ∧ (i_kind i = KFile → i_perm i = FILE_MODE) ∧ (i_kind i = KDir → i_perm i = DIR_MODE).

Definition touches (e : string * bool) (q : string) : Prop := q = e.1 ∨ e.2 = true ∧ target fs0 e.1 = Some q.

(** What a step from a state of the same kinds keeps and adds. *)
Record step_ok (fs fs' : files) (e : string * bool) : Prop := {
  st_kinds : same_kinds fs0 fs';
  st_keeps p : shared fs p → shared fs' p;
  st_adds : fails e = false → shared fs' e.1;
  st_frame q : fs' !! q ≠ fs !! q → touches e q
}.

Lemma owned_at fs p : same_kinds fs0 fs → owned p = match fs !! p with Some i => mine i | None => false end.
Proof. intros H. specialize (H p). unfold owned. destruct (fs !! p), (fs0 !! p); cbn in H; try done. by injection H as _ ->. Qed.

Lemma kind_at fs p i k : same_kinds fs0 fs → fs !! p = Some i → is_kind k fs0 p = true → i_kind i = k.
Proof.
  intros H Hp Hk. rewrite <- (same_kinds_is_kind k fs0 fs p H) in Hk. unfold is_kind in Hk. rewrite Hp in Hk.
  apply bool_decide_eq_true in Hk. cbn in Hk. by injection Hk.
Qed.

Lemma target_plain fs p i : fs !! p = Some i → is_link fs p = false → target fs p = Some p.
Proof.
  unfold is_link, target, MAXSYMLINKS. intros Hp. rewrite Hp. change (resolve 40 fs p) with
    (match fs !! p with Some i => match i_kind i with KLink t => resolve 39 fs t | _ => Some p end | None => None end).
  rewrite Hp. by destruct (i_kind i).
Qed.

(** [chown] and [chmod] each keep what is shared, when the mode fits the kind. *)
Lemma shared_chown fs p i : fs !! p = Some i → ∀ q, shared fs q → shared (<[p := with_gid gid i]> fs) q.
Proof.
  intros Hp q (j & Hq & Hg & Hf & Hd). unfold shared. destruct (decide (q = p)) as [->|].
  - assert (j = i) as -> by congruence. exists (with_gid gid i). by rewrite lookup_insert_eq.
  - exists j. by rewrite lookup_insert_ne.
Qed.

Lemma shared_chmod fs p i mode : fs !! p = Some i → (i_kind i = KFile → mode = FILE_MODE) → (i_kind i = KDir → mode = DIR_MODE) →
  ∀ q, shared fs q → shared (<[p := with_perm mode i]> fs) q.
Proof.
  intros Hp Hmf Hmd q (j & Hq & Hg & Hf & Hd). unfold shared. destruct (decide (q = p)) as [->|].
  - assert (j = i) as -> by congruence. exists (with_perm mode i). by rewrite lookup_insert_eq.
  - exists j. by rewrite lookup_insert_ne.
Qed.

Lemma frame_insert (fs : files) p i q : <[p := i]> fs !! q ≠ fs !! q → q = p.
Proof. intros H. destruct (decide (q = p)); [done|]. by rewrite lookup_insert_ne in H. Qed.

Lemma share_entry_step fs failures e : same_kinds fs0 fs → entry_ok e →
  (share_entry gid (fs, failures) e).2 = (if fails e then note_failure e.1 failures else failures) ∧
  step_ok fs (share_entry gid (fs, failures) e).1 e.
Proof.
  intros Hk He. destruct e as [path in_dirs]. unfold entry_ok in He. cbn [fst snd] in He.
  assert (Hown := owned_at fs path Hk). unfold share_entry, chown, fails. cbn [fst snd].
  destruct (fs !! path) as [i|] eqn:Hp.
  2:{ rewrite Hown. cbn. split; [done|]. split; [done|done| |done]. unfold fails. cbn. by rewrite Hown. }
  destruct (mine i) eqn:Hm.
  2:{ rewrite Hown. cbn. split; [done|]. split; [done|done| |done]. unfold fails. cbn. by rewrite Hown. }
  rewrite Hown. cbn [negb orb]. set (fs1 := <[path := with_gid gid i]> fs).
  assert (Hk1 : same_kinds fs0 fs1) by (eapply same_kinds_trans; [exact Hk|]; by eapply same_kinds_insert).
  assert (Hg1 : ∃ j, fs1 !! path = Some j ∧ i_gid j = gid ∧ i_kind j = i_kind i) by (exists (with_gid gid i); unfold fs1; by rewrite lookup_insert_eq).
  assert (Hs1 : ∀ q, shared fs q → shared fs1 q) by (by apply shared_chown).
  assert (Hfr1 : ∀ q, fs1 !! q ≠ fs !! q → q = path) by (intros q; apply frame_insert).
  assert (Ht1 : ∀ p, target fs1 p = target fs0 p) by (intros p; by apply same_kinds_resolve).
  assert (Hl1 : is_link fs1 path = is_link fs0 path) by by apply same_kinds_is_link.
  assert (Hto : target_owned path = match target fs0 path with Some q => match fs1 !! q with Some j => mine j | None => false end | None => false end).
  { unfold target_owned. destruct (target fs0 path); [by apply owned_at|done]. }
  (* the entry after chown alone, and after a chmod that fits the kind of its target *)
  assert (Hfail : fails (path, in_dirs) = true → step_ok fs fs1 (path, in_dirs)).
  { intros Hf. split; [done|done|by rewrite Hf|]. intros q Hq%Hfr1. by left. }
  assert (Hset : ∀ q j m, target fs0 path = Some q → fs1 !! q = Some j → (i_kind j = KFile → m = FILE_MODE) →
    (i_kind j = KDir → m = DIR_MODE) → (in_dirs = true ∨ q = path) → step_ok fs (<[q := with_perm m j]> fs1) (path, in_dirs)).
  { intros q j m Hq Hj Hmf Hmd Hor. split.
    - eapply same_kinds_trans; [exact Hk1|]. by eapply same_kinds_insert.
    - intros p Hsh. by apply shared_chmod, Hs1.
    - intros _. destruct Hg1 as (i1 & Hi1 & Hgid & Hkind). cbn [fst]. unfold shared. destruct (decide (q = path)) as [->|Hne].
      + assert (j = i1) as -> by congruence. exists (with_perm m i1). by rewrite lookup_insert_eq.
      + exists i1. rewrite lookup_insert_ne by done. destruct (is_link fs1 path) eqn:El.
        * unfold is_link in El. rewrite Hi1 in El. destruct (i_kind i1); done.
        * pose proof (target_plain fs1 path i1 Hi1 El) as Ht. rewrite Ht1, Hq in Ht. congruence.
    - intros p Hpq. destruct (decide (p = q)) as [->|Hne].
      + destruct Hor as [Hd| ->]; [by right|by left].
      + rewrite lookup_insert_ne in Hpq by done. left. by apply Hfr1. }
  unfold chmod. rewrite Ht1, Hl1, Hto. unfold fails in Hfail. cbn [fst snd] in Hfail. rewrite Hown, Hto in Hfail. cbn [negb orb] in Hfail.
  destruct in_dirs.
  - unfold is_dir in He. destruct (target fs0 path) as [q|] eqn:Eq; [|done].
    destruct (fs1 !! q) as [j|] eqn:Ej; [|by split; [|apply Hfail]].
    destruct (mine j); [|by split; [|apply Hfail]]. split; [done|]. apply Hset; try done; [|by left].
    pose proof (kind_at fs1 q j KDir Hk1 Ej (eq_sym He)) as ->. done.
  - destruct (is_link fs0 path) eqn:El; cbn [negb andb].
    + split; [done|]. split; [done|done| |intros q Hq%Hfr1; by left].
      intros _. destruct Hg1 as (i1 & Hi1 & Hgid & Hkind). exists i1. cbn [fst]. split_and!; [done|done|..];
        unfold is_link in Hl1; rewrite Hi1 in Hl1; by destruct (i_kind i1).
    + destruct Hg1 as (i1 & Hi1 & Hgid & Hkind). pose proof (target_plain fs1 path i1 Hi1 Hl1) as Ht. rewrite Ht1 in Ht.
      rewrite Ht, Hi1 in Hfail |- *. destruct (mine i1); cbn [negb] in Hfail |- *; [|by split; [|apply Hfail]]. split; [done|].
      apply Hset; [done|done|done| |by right]. intros Hd. unfold is_dir in He. rewrite Ht in He.
      rewrite <- (same_kinds_is_kind KDir fs0 fs1) in He by done. unfold is_kind in He. rewrite Hi1 in He. cbn in He.
      rewrite Hd in He. done.
Qed.

(** The failures among the entries, in order. *)
Definition failing (es : list (string * bool)) : list string := map fst (List.filter fails es).

Lemma note_failures es failures : failures.2 = take SAMPLE_LIMIT failures.2 →
  let r := foldl (λ l e, if fails e then note_failure e.1 l else l) failures es in
  r.1 = failures.1 + List.length (failing es) ∧ r.2 = take SAMPLE_LIMIT (failures.2 ++ failing es)%list.
Proof.
  revert failures; induction es as [|e es IH]; intros [n l] Hl; cbn [fst snd] in *.
  - unfold failing. cbn. rewrite app_nil_r. split; [lia|done].
  - cbn [foldl]. unfold failing. cbn [List.filter]. destruct (fails e) eqn:Ef; [|by apply IH].
    cbn [map List.length]. assert (Hlen : List.length l <= SAMPLE_LIMIT) by (rewrite Hl, length_take; lia).
    assert (note_failure e.1 (n, l) = (S n, if List.length l <? SAMPLE_LIMIT then (l ++ [e.1])%list else l)) as -> by done.
    destruct (Nat.ltb_spec (List.length l) SAMPLE_LIMIT) as [Hlt|Hge].
    + destruct (IH (S n, (l ++ [e.1])%list)) as [IH1 IH2]; [cbn [snd]; rewrite take_ge; [done|rewrite length_app; cbn; lia]|].
      cbn [fst snd] in IH1, IH2. rewrite IH1, IH2, <- app_assoc. unfold failing. split; [lia|done].
    + destruct (IH (S n, l)) as [IH1 IH2]; [done|]. cbn [fst snd] in IH1, IH2. rewrite IH1, IH2. unfold failing.
      split; [lia|]. by rewrite !take_app_le by lia.
Qed.

Lemma share_all es : Forall entry_ok es → ∀ fs failures, same_kinds fs0 fs →
  let r := foldl (share_entry gid) (fs, failures) es in
  r.2 = foldl (λ l e, if fails e then note_failure e.1 l else l) failures es ∧ same_kinds fs0 r.1 ∧
  (∀ p, shared fs p → shared r.1 p) ∧ (∀ e, e ∈ es → fails e = false → shared r.1 e.1) ∧
  (∀ q, r.1 !! q ≠ fs !! q → ∃ e, e ∈ es ∧ touches e q).
Proof.
  induction 1 as [|e es He _ IH]; intros fs failures Hk.
  - cbn. split_and!; [done|done|done|by intros e ?%elem_of_nil|done].
  - cbn [foldl]. destruct (share_entry_step fs failures e Hk He) as [Hf [Hk' Hkeep Hadd Hframe]].
    destruct (share_entry gid (fs, failures) e) as [fs' failures'] eqn:Es. cbn [fst snd] in *. subst failures'.
    destruct (IH fs' (if fails e then note_failure e.1 failures else failures) Hk') as (H1 & H2 & H3 & H4 & H5).
    split_and!; [done|done|by auto| |].
    + intros e' [->|Hin]%elem_of_cons Hno; [by apply H3, Hadd|by apply H4].
    + intros q Hq. destruct (decide (fs' !! q = fs !! q)) as [Heq|Hne].
      * rewrite <- Heq in Hq. destruct (H5 q Hq) as (e' & Hin & Ht). exists e'. split; [by right|done].
      * exists e. split; [by left|by apply Hframe].
Qed.
End recipe.

(** ** What is visited *)

Section visited.
Context (listable : string → bool) (fs : files).

Definition visited (ws : string) : list (string * bool) := flat_map entries_of (walk listable (walk_fuel fs) fs ws).

Lemma walk_filters fuel d root dirs others : (root, dirs, others) ∈ walk listable fuel fs d →
  (∀ n, n ∈ dirs → is_dir fs (path_join root n) = true) ∧ (∀ n, n ∈ others → is_dir fs (path_join root n) = false).
Proof.
  revert d; induction fuel as [|fuel IH]; intros d; cbn [walk]; [by intros ?%elem_of_nil|].
  destruct (listable d); [|by intros ?%elem_of_nil]. cbv zeta. rewrite elem_of_cons. intros [[= -> -> ->]|H].
  - split; intros n [_ Hn]%list_elem_of_In%List.filter_In%id; [done|by apply negb_true_iff].
  - apply list_elem_of_In, in_flat_map in H as (n & _ & Hn%list_elem_of_In). cbv zeta in Hn.
    destruct (is_link fs (path_join d n)); [by apply elem_of_nil in Hn|by apply (IH (path_join d n))].
Qed.

Lemma visited_ok ws : Forall (entry_ok fs) (visited ws).
Proof.
  apply Forall_forall. intros e He. unfold visited in He.
  apply list_elem_of_In, in_flat_map in He as ([[root dirs] others] & Hw%list_elem_of_In & He%list_elem_of_In).
  apply walk_filters in Hw as [Hd Ho]. unfold entries_of in He. apply list_elem_of_fmap in He as (n & -> & Hn).
  unfold entry_ok. cbn [fst snd]. apply elem_of_app in Hn as [Hn|Hn].
  - rewrite Hd by done. by apply bool_decide_eq_true.
  - rewrite Ho by done. apply bool_decide_eq_false. intros Hn'. specialize (Hd n Hn'). rewrite Ho in Hd by done. done.
Qed.

(** The directories below the workspace that can be listed, without passing a link. *)
Inductive reaches : string → string → Prop :=
  | reaches_here d : listable d = true → reaches d d
  | reaches_sub d n e : listable d = true → n ∈ listdir fs d → is_dir fs (path_join d n) = true →
      is_link fs (path_join d n) = false → reaches (path_join d n) e → reaches d e.

Hypothesis named : ∀ p, is_Some (fs !! p) → p = "/" ∨ basename p ≠ "".

Lemma basename_no_slash s : has_char "/" (basename s) = false.
Proof.
  unfold basename. induction s as [|c s IH]; [done|]. cbn [path_split]. destruct (path_split s) as [h t]. cbn [snd] in *.
  destruct (nonempty h); cbn [snd]; [done|]. destruct (Ascii.eqb c slash) eqn:E; cbn [snd]; [done|].
  unfold has_char in *. cbn [str_exists]. rewrite IH. rewrite Ascii.eqb_sym in E. unfold slash in E. by rewrite E.
Qed.

Lemma listdir_name d n : n ∈ listdir fs d → ∃ p, is_Some (fs !! p) ∧ n = basename p ∧ n ≠ "" ∧ has_char "/" n = false.
Proof.
  unfold listdir. rewrite list_elem_of_omap. intros (p & Hp & Hn). apply list_elem_of_fmap in Hp as ([q i] & -> & Hq%elem_of_map_to_list).
  cbn in Hn. destruct (String.eqb_spec (dirname q) d) as [Hd|]; [|done]. destruct (String.eqb_spec q d) as [|Hne]; [done|].
  cbn in Hn. injection Hn as <-. exists q. split_and!; [by exists i|done| |apply basename_no_slash].
  destruct (named q) as [->|?]; [by exists i| |done]. by destruct Hne.
Qed.

Lemma path_join_longer d n : n ≠ "" → has_char "/" n = false → str_len d < str_len (path_join d n).
Proof.
  intros Hn Hs. unfold path_join. destruct n as [|c n]; [done|]. unfold has_char in Hs. cbn [str_exists] in Hs.
  apply orb_false_iff in Hs as [Hc _]. cbn [startswith]. rewrite Hc. cbn [andb].
  destruct (_ || _); rewrite !str_len_app; simpl; lia.
Qed.

Lemma dir_here p : is_dir fs p = true → is_Some (fs !! p).
Proof.
  unfold is_dir, target, MAXSYMLINKS. change (resolve 40 fs p) with
    (match fs !! p with Some i => match i_kind i with KLink t => resolve 39 fs t | _ => Some p end | None => None end).
  destruct (fs !! p) as [i|]; [by exists i|done].
Qed.

Lemma len_bounded p : is_Some (fs !! p) → str_len p < walk_fuel fs.
Proof.
  intros [i Hi]. unfold walk_fuel. apply Nat.lt_succ_r. pose proof (list_max_le
    (map (λ x : string * inode, str_len x.1) (map_to_list fs)) (list_max (map (λ x : string * inode, str_len x.1) (map_to_list fs)))) as [H _].
  specialize (H ltac:(lia)). rewrite List.Forall_forall in H. apply H. apply in_map_iff. exists (p, i). split; [done|].
  by apply list_elem_of_In, elem_of_map_to_list.
Qed.

Lemma walk_reaches d e : reaches d e → ∀ fuel, 0 < fuel → walk_fuel fs <= str_len d + fuel →
  ∃ dirs others, (e, dirs, others) ∈ walk listable fuel fs d ∧ ∀ n, n ∈ listdir fs e → n ∈ (dirs ++ others)%list.
Proof.
  induction 1 as [d Hl|d n e Hl Hn Hd Hk _ IH]; intros [|fuel] Hf Hlen; try lia; cbn [walk]; rewrite Hl; cbv zeta.
  - eexists _, _. split; [left|]. intros n Hn. apply elem_of_app. rewrite !list_elem_of_In, !List.filter_In.
    apply list_elem_of_In in Hn. destruct (is_dir fs (path_join d n)); [left|right]; done.
  - destruct (listdir_name d n Hn) as (p & _ & _ & Hne & Hs). pose proof (path_join_longer d n Hne Hs) as Hlong.
    pose proof (len_bounded _ (dir_here _ Hd)) as Hb.
    destruct (IH fuel) as (dirs & others & Hin & Hall); [lia|lia|]. exists dirs, others. split; [right|done].
    apply list_elem_of_In, in_flat_map. exists n. split.
    + apply List.filter_In. split; [by apply list_elem_of_In|done].
    + cbv zeta. rewrite Hk. by apply list_elem_of_In.
Qed.

(** Every entry of a directory that is reached is visited. *)
Lemma visited_reaches ws d n : reaches ws d → n ∈ listdir fs d →
  (path_join d n, is_dir fs (path_join d n)) ∈ visited ws.
Proof.
  intros Hr Hn. assert (0 < walk_fuel fs) as Hf by (unfold walk_fuel; lia).
  destruct (walk_reaches ws d Hr (walk_fuel fs) Hf) as (dirs & others & Hin & Hall); [lia|].
  assert (∃ b, (path_join d n, b) ∈ visited ws) as [b Hb].
  { exists (bool_decide (n ∈ dirs)). unfold visited. apply list_elem_of_In, in_flat_map. exists (d, dirs, others).
    split; [by apply list_elem_of_In|]. apply list_elem_of_In. unfold entries_of. apply list_elem_of_fmap. exists n.
    split; [done|by apply Hall]. }
  pose proof (visited_ok ws) as Hok. rewrite Forall_forall in Hok. specialize (Hok _ Hb). unfold entry_ok in Hok. cbn in Hok. by subst b.
Qed.
End visited.

(** C40: The recursive recipe of the shared group.  It counts exactly the visited
    entries that cannot be changed and names the first five; every other entry
    of a directory that can be reached ends with the group, a directory with
    setgid and 2770, a file with 660; and nothing else changes but the
    directories that links of the workspace lead to. *)
Theorem shared_group_exact listable fs ws gid : (∀ p, is_Some (fs !! p) → p = "/" ∨ basename p ≠ "") →
  let '(fs', (count, sample)) := workspace_shared_group_recursive listable fs ws gid in
  let failures := failing fs (visited listable fs ws) in
  count = List.length failures ∧ sample = take SAMPLE_LIMIT failures ∧
  (∀ d n, reaches listable fs ws d → n ∈ listdir fs d →
     (path_join d n) ∈ failures ∨ shared gid fs' (path_join d n)) ∧
  (∀ q, fs' !! q ≠ fs !! q → ∃ e, e ∈ visited listable fs ws ∧
     (q = e.1 ∨ is_dir fs e.1 = true ∧ target fs e.1 = Some q)).
Proof.
  intros Hn. unfold workspace_shared_group_recursive. fold (visited listable fs ws).
  destruct (share_all gid fs (visited listable fs ws) (visited_ok listable fs ws) fs (0, [])) as (H1 & _ & _ & H4 & H5); [done|].
  destruct (foldl _ _ _) as [fs' [count sample]]. cbn [fst snd] in *.
  destruct (note_failures fs (visited listable fs ws) (0, [])) as [N1 N2]; [done|]. rewrite <- H1 in N1, N2. cbn [fst snd app] in N1, N2.
  split_and!; [done|done| |].
  - intros d n Hr Hd. pose proof (visited_reaches listable fs Hn ws d n Hr Hd) as Hv.
    destruct (fails fs (path_join d n, is_dir fs (path_join d n))) eqn:Ef; [left|right; by apply (H4 _ Hv)].
    unfold failing. apply list_elem_of_fmap. exists (path_join d n, is_dir fs (path_join d n)). split; [done|].
    by apply list_elem_of_In, List.filter_In; split; [apply list_elem_of_In|].
  - intros q Hq. destruct (H5 q Hq) as (e & He & [Ht|[Hd Ht]]); exists e; (split; [done|]); [by left|right].
    split; [|done]. pose proof (visited_ok listable fs ws) as Hok. rewrite Forall_forall in Hok. specialize (Hok e He).
    unfold entry_ok in Hok. by rewrite <- Hok.
Qed.

(** The diagnosis is empty exactly when the mode bits let the user through every
    ancestor. *)
Theorem diagnosis_exact f env dir user pw : getpwnam env user = Some pw → rooted (fs_abspath f dir) →
  ∃ text, diagnose_traverse_failure f env dir user = Some text ∧
    (text = "" ↔ ∀ n, ∃ st, fs_stat f (Nat.iter n dirname (fs_abspath f dir)) = Ok st ∧ mode_exec (pw_uid pw) (pw_gid pw) st = true).
Proof.
  intros Hpw Hr. unfold diagnose_traverse_failure. rewrite Hpw.
  destruct (components_up_spec (S (str_len (fs_abspath f dir))) (fs_abspath f dir) Hr) as (l & -> & Hl); [lia|].
  cbn [mbind option_bind]. eexists. split; [done|].
  assert (Hdirs : ∀ dirs, diagnose_dirs f user pw dirs = "" ↔
    ∀ d, d ∈ dirs → ∃ st, fs_stat f d = Ok st ∧ mode_exec (pw_uid pw) (pw_gid pw) st = true).
  { induction dirs as [|d dirs IH]; cbn [diagnose_dirs]; [by split; [intros _ d ?%elem_of_nil|]|].
    destruct (fs_stat f d) as [st|e] eqn:Es; [destruct (mode_exec _ _ st) eqn:Em|].
    - rewrite IH. split; [intros H d' [->|Hd]%elem_of_cons; eauto|intros H d' Hd; apply H; by right].
    - split; [done|]. intros H. destruct (H d ltac:(left)) as (st' & Hst & Hm). congruence.
    - split; [done|]. intros H. destruct (H d ltac:(left)) as (st' & Hst & Hm). congruence. }
  rewrite Hdirs. split.
  - intros H n. apply H. apply elem_of_reverse, Hl. by exists n.
  - intros H d Hd. apply elem_of_reverse, Hl in Hd as [n ->]. apply H.
Qed.

Theorem needs_setup_exact st gid : workspace_needs_recursive_setup st gid = false ↔
  ∃ mode, st = Ok (mode, gid) ∧ Z.testbit mode 10 = true.
Proof.
  unfold workspace_needs_recursive_setup. destruct st as [[mode g]|]; [|naive_solver].
  rewrite negb_false_iff, andb_true_iff, negb_true_iff, Z.eqb_neq, Z.eqb_eq. change 1024%Z with (2 ^ 10)%Z. split.
  - intros [Hb ->]. exists mode. split; [done|]. destruct (Z.testbit mode 10) eqn:E; [done|]. destruct Hb.
    apply Z.bits_inj'. intros k Hk. rewrite Z.land_spec, Z.bits_0. destruct (decide (k = 10)%Z) as [->|]; [by rewrite E|].
    rewrite Z.pow2_bits_false by lia. by rewrite andb_false_r.
  - intros (m & [= <- <-] & Hb). split; [|done]. intros H. apply (f_equal (λ z, Z.testbit z 10)) in H.
    rewrite Z.land_spec, Hb, Z.pow2_bits_true in H by done. by rewrite Z.bits_0 in H.
Qed.

(** ** Demonstrations *)

(** A workspace with a file and a link that leads out of it. *)
Definition demo_files : files :=
  {["/w" := Inode KDir 1000 448 true; "/w/run.sh" := Inode KFile 1000 493 true;
    "/w/out" := Inode (KLink "/home/dev/.ssh") 1000 511 true; "/home/dev/.ssh" := Inode KDir 1000 448 true]}.

Definition demo_shared : files * (nat * list string) := workspace_shared_group_recursive (λ _, true) demo_files "/w" 101500.

Lemma shared_group_exact_witness : shared 101500 demo_shared.1 "/w/run.sh" ∧ demo_shared.2 = (0, []).
Proof.
  assert (Hs : demo_shared = (demo_shared.1, (0, []))) by (vm_compute; reflexivity).
  split; [|by rewrite Hs].
  pose proof (shared_group_exact (λ _, true) demo_files "/w" 101500) as H. fold demo_shared in H. rewrite Hs in H.
  destruct H as (_ & Hsample & H & _).
  - intros p [i Hp]. right. unfold demo_files in Hp.
    repeat (apply lookup_insert_Some in Hp as [[<- _]|[_ Hp]]; [by vm_compute|]). apply lookup_singleton_Some in Hp as [<- _]. by vm_compute.
  - destruct (H "/w" "run.sh") as [Hf|Hf]; [by apply reaches_here| | |exact Hf].
    + assert (bool_decide ("run.sh" ∈ listdir demo_files "/w") = true) as Hb by (vm_compute; reflexivity). by apply bool_decide_eq_true in Hb.
    + exfalso. destruct (failing demo_files _); [by apply elem_of_nil in Hf|discriminate].
Defined.

(** A link to a directory is among the directories, and [chmod] follows it: the
    directory it leads to becomes accessible to the group, wherever it is. *)
Lemma link_target_opened : i_perm <$> demo_shared.1 !! "/home/dev/.ssh" = Some 1528%Z ∧
  i_perm <$> demo_files !! "/home/dev/.ssh" = Some 448%Z.
Proof. split; vm_compute; reflexivity. Qed.

(** Programs of the workspace are no longer executable afterwards. *)
Lemma executable_bit_lost : i_perm <$> demo_shared.1 !! "/w/run.sh" = Some 432%Z ∧
  i_perm <$> demo_files !! "/w/run.sh" = Some 493%Z.
Proof. split; vm_compute; reflexivity. Qed.

(** The entry that start has granted is not seen: the diagnosis still blames the
    directory that the check of doctor passes. *)
Lemma diagnosis_ignores_grant :
  let f := demo_fs ("user::rwx" +:+ NL +:+ "user:sandbox:--x" +:+ NL +:+ "mask::r-x" +:+ NL) in
  let env := demo_accounts good_range good_range in
  (∃ text, diagnose_traverse_failure f env "/home/dev/.sandbox-ai/instances" "sandbox" = Some text ∧ text ≠ "") ∧
  ∃ c, check_ancestor_traverse f env empty_list_json "sandbox" SEPARATE_USER = Some (Ok c) ∧ status c = PASS.
Proof. split; eexists; (split; [vm_compute; reflexivity|done]). Qed.

Lemma diagnosis_exact_witness :
  ∃ text, diagnose_traverse_failure (demo_fs "") (demo_accounts good_range good_range) "/home" "sandbox" = Some text ∧ text = "".
Proof.
  destruct (diagnosis_exact (demo_fs "") (demo_accounts good_range good_range) "/home" "sandbox"
    (HostConfig.Passwd 999 999 "/home/sandbox") eq_refl) as (text & Ht & Hs); [done|]. exists text. split; [exact Ht|].
  vm_compute in Ht. by injection Ht as <-.
Defined.
