(* ===== verification/ViewCmd.v ===== *)
(** * cli.main: the commands that only look: status, workspace list, doctor

    What they print is built from a snapshot: the calls of the other commands
    answered by a host that stands still, the registry, the ledger of slots and
    the backups as their components have them, and what the file system and
    [du] say.  A table is its title, its columns and its rows. *)
From stdpp Require Import sorting.
From S2P Require Import Prelude PyStr Json HostConfig Ipam Registry Interact Secrets Preflight Doctor Backups Cli TreeChecks Images.
From Stdlib Require Import Ascii String Sorted.
Open Scope nat_scope.

Inductive view :=
  | Said (style : option string) (text : string)
  | Grid (title : string) (columns : list string) (rows : list (list string))
  | Framed (title border : string) (lines : list string).

Definition note (text : string) : view := Said None text.

Record view_host := ViewHost {
  (* the calls of the command line; the host does not change while it looks *)
  vh_cli : ∀ c, res (answer c);
  vh_env : host_env;
  vh_registry : json_file;
  vh_ledger : ipam_state;
  (* [os.stat]: mode and group *)
  vh_stat : string → res (Z * Z);
  (* [du -sh]: its output, [None] where it fails, is too slow or is missing *)
  vh_du : string → option string;
  vh_backups : node;
  (* the files outside it that a link at a record leads to *)
  vh_outside : gmap string string;
  (* the clock in microseconds, and [strptime] of a backup's timestamp in seconds *)
  vh_now : Z;
  vh_strptime : string → option Z
}.

Section view.
Context (json_loads : string → option JsonValue) (h : view_host).

(** A program of the command line on the host as it stands. *)
Definition on_host {A} (m : cmd A) : res A := (run_env (λ _, vh_cli h) m []).2.

(** The slot of an instance: [None] where it has none, or the ledger is full. *)
Definition slot_of (inst : string) : res (option Z) :=
  match (peek_next_slot inst (vh_ledger h)).1 with
  | Ok (slot, is_existing) => Ok (if is_existing : bool then Some slot else None)
  | Err IPAMExhaustedError => Ok None
  | Err e => Err e
  end.

Definition workspace_state_label (ws_path : string) (s : HostSettings) : res string :=
  match vh_stat h ws_path with
  | Err FileNotFoundError => Ok "[red]✗ missing[/red]"
  | Err _ => Ok "[red]✗ inaccessible[/red]"
  | Ok (mode, gid) =>
      match workspace_bridge_gid (vh_env h) s with
      | Err WorkspaceBridgeGroupMissingError => Ok "[yellow]⚠ drift[/yellow]"
      | Err e => Err e
      | Ok expected =>
          Ok (if negb (Z.eqb (Z.land mode 1024) 0) && Z.eqb gid expected then "[green]● ok[/green]"
              else "[yellow]⚠ drift[/yellow]")
      end
  end.

Definition first_word (s : string) : string := (span (λ c, negb (is_space c)) (span is_space s).2).1.
Definition workspace_du_size (ws_path : string) : string :=
  match vh_du h ws_path with
  | Some out => if nonempty (strip out) then first_word out else "—"
  | None => "—"
  end.

(** ** status *)

(** [except Exception]: [typer.Exit] too. *)
Definition summary_row (name dir : string) : res (list string) :=
  let ws_count := match on_host (do (LoadConfig dir)) with
                  | Ok config => str_of_Z (Z.of_nat (List.length (Cli.workspaces config)))
                  | Err _ => "?"
                  end in
  slot ← slot_of name;
  Ok [name; "registered"; ws_count; from_option str_of_Z "—" slot].

Definition render_status_summary : res (list view) :=
  let entries := map_to_list (registry_all (vh_registry h)) in
  if bool_decide (entries = []) then Ok [note "No instances registered. Run `sandbox init <inst>` to create one."]
  else
    rows ← res_map (λ e, summary_row e.1 (instance_dir e.2)) (sorted_items entries);
    Ok [Grid "Sandbox instances" ["Name"; "State"; "Workspaces"; "IPAM slot"] rows].

Definition unhealthy (c : ContainerInfo) : bool :=
  match ct_health c with Some s => bool_decide (lower s ∈ ["unhealthy"; "starting"]) | None => false end.

Definition state_of (containers : list ContainerInfo) : string * string :=
  if bool_decide (containers = []) then ("○ stopped", "red")
  else if existsb unhealthy containers then ("⚠ degraded", "yellow") else ("● running", "green").

Definition workspace_row (s : HostSettings) (detailed : bool) (w : string * WorkspaceEntry) : res (list string) :=
  label ← workspace_state_label (Cli.path w.2) s;
  Ok ([w.1; Cli.bootstrap_mode w.2; Cli.path w.2; label] ++ (if detailed then [workspace_du_size (Cli.path w.2)] else []))%list.

Definition IP_KEYS : list (string * string) :=
  [("core", "agent_isolated_ip"); ("admin", "admin_ipc_ip"); ("coredns", "coredns_dns_ip");
   ("dnsdist", "dnsdist_isolated_ip"); ("db-postgres", "db_postgres_ip"); ("proxy", "proxy_core_ip");
   ("mcp-firecrawl", "mcp_firecrawl_proxy_ip")].

Definition ip_map (slot : option Z) : res (list (string * string)) :=
  match slot with
  | None => Ok []
  | Some slot => ips ← derive_static_ips slot; Ok (map (λ k, (k.1, default "" (assoc k.2 ips))) IP_KEYS)
  end.

Definition health_display (c : ContainerInfo) : string :=
  match ct_health c with
  | None => "—"
  | Some s => if String.eqb (lower s) "unhealthy" then "[red]" +:+ s +:+ "[/red]"
              else if String.eqb (lower s) "healthy" then "[green]" +:+ s +:+ "[/green]" else s
  end.

Definition container_row (ips : list (string * string)) (c : ContainerInfo) : list string :=
  [ct_service c; ct_state c; health_display c; default "" (assoc (ct_service c) ips); ct_status c].

Definition containers_view (inst : string) (containers : list ContainerInfo) : res (list view) :=
  if bool_decide (containers = []) then Ok []
  else
    slot ← slot_of inst;
    ips ← ip_map slot;
    Ok [Grid "Containers" ["Service"; "State"; "Health"; "Network"; "Status"] (map (container_row ips) containers)].

Definition ipam_view (inst : string) : res (list view) :=
  slot ← slot_of inst;
  match slot with
  | None => Ok []
  | Some slot =>
      subnets ← derive_subnets slot;
      Ok (note (NL +:+ "[bold]IPAM[/bold] slot " +:+ str_of_Z slot) ::
          zip_with (λ label subnet, note (label +:+ subnet))
            ["  Isolated:    "; "  Core Proxy:  "; "  DNS:         "; "  Egress:      "; "  IPC:         "] subnets)
  end.

Definition WARNINGS : view := note (NL +:+ "[yellow bold]Warnings[/yellow bold]").

Definition secrets_view (instance_dir : string) (config : InstanceConfig) : res (list view) :=
  let env_path := path_join instance_dir ".sandbox.env" in
  there ← on_host (do (PathExists env_path));
  if negb there then Ok [WARNINGS; Said (Some "yellow") "  ⊘ Missing secrets file: .sandbox.env not found"]
  else
    env ← on_host (do (ReadEnv env_path));
    let missing := check_secrets (db_postgres_enabled config) (mcp_firecrawl config) env in
    Ok (if bool_decide (missing = []) then []
        else WARNINGS :: map (λ s, Said (Some "yellow") ("  ⊘ Missing secret: " +:+ s)) missing).

Definition render_status_detailed (inst : string) (detailed : bool) : res (list view) :=
  instance_dir ← on_host (lookup_instance_or_exit inst);
  config ← on_host (do (LoadConfig instance_dir));
  host_config ← on_host resolve_full_host_config;
  let s := HostConfig.host host_config in
  host_user ← resolve_daemon_owner (vh_env h) host_config;
  containers ← on_host (container_status json_loads instance_dir host_user config (docker_execution_mode s));
  let '(state_label, border) := state_of containers in
  rows ← res_map (workspace_row s detailed) (sorted_items (Cli.workspaces config));
  running ← containers_view inst containers;
  ipam ← ipam_view inst;
  warnings ← secrets_view instance_dir config;
  Ok ([Framed ("Sandbox: " +:+ inst) border
         ["[bold]Name:[/bold]        " +:+ inst; "[bold]Dir:[/bold]         " +:+ instance_dir;
          "[bold]User:[/bold]        " +:+ host_user; "[bold]State:[/bold]       " +:+ state_label];
       Grid "Workspaces" (["Name"; "Mode"; "Path"; "State"] ++ (if detailed then ["Size"] else [])) rows] ++
      running ++ ipam ++ warnings)%list.

Definition status_cmd (inst : option string) (detailed : bool) : res (list view) :=
  _ ← on_host refuse_root_euid;
  _ ← on_host require_per_user_state_initialized;
  match inst with
  | None => if detailed then Err (Exit 1) else render_status_summary
  | Some inst => render_status_detailed inst detailed
  end.

(** ** workspace list *)

(** [int(delta.total_seconds())] *)
Definition format_age (timestamp : string) : string :=
  match vh_strptime h timestamp with
  | None => "unknown"
  | Some ts =>
      let seconds := Z.quot (vh_now h - 1000000 * ts) 1000000 in
      let minutes := (seconds / 60)%Z in
      let hours := (minutes / 60)%Z in
      if (seconds <? 60)%Z then str_of_Z seconds +:+ "s ago"
      else if (minutes <? 60)%Z then str_of_Z minutes +:+ "m ago"
      else if (hours <? 48)%Z then str_of_Z hours +:+ "h ago"
      else str_of_Z (hours / 24) +:+ "d ago"
  end.

Definition backup_id (b : BackupInfo) : string :=
  source_instance b +:+ "/" +:+ source_workspace b +:+ "/" +:+ timestamp b.

Definition workspace_json (w : string * WorkspaceEntry) : JsonValue :=
  JObj {["name" := JStr w.1; "bootstrap_mode" := JStr (Cli.bootstrap_mode w.2); "path" := JStr (Cli.path w.2)]}.

Definition backup_json (b : BackupInfo) : JsonValue :=
  JObj {["id" := JStr (backup_id b); "source_instance" := JStr (source_instance b);
         "source_workspace" := JStr (source_workspace b); "timestamp" := JStr (timestamp b);
         "size_bytes" := JInt (size_bytes b)]}.

Definition size_text (bytes : Z) : string :=
  let kb := (bytes / 1024)%Z in if (kb <? 1024)%Z then str_of_Z kb +:+ " KB" else str_of_Z (kb / 1024) +:+ " MB".

(** The document of [--json], or the tables. *)
Definition workspace_list (inst : string) (no_backups json_out : bool) : res (JsonValue + list view) :=
  _ ← on_host refuse_root_euid;
  _ ← on_host require_per_user_state_initialized;
  instance_dir ← on_host (lookup_instance_or_exit inst);
  config ← on_host (do (LoadConfig instance_dir));
  let backups := if no_backups then [] else list_backups json_loads (vh_outside h) (MkBackupFilter (Some inst) None) (vh_backups h) in
  let live := sorted_items (Cli.workspaces config) in
  if json_out then
    Ok (inl (JObj {["workspaces" := JList (map workspace_json live); "backups" := JList (map backup_json backups)]}))
  else
    Ok (inr ([Grid ("Live workspaces (" +:+ inst +:+ ")") ["NAME"; "MODE"; "PATH"]
                (map (λ w, [w.1; Cli.bootstrap_mode w.2; Cli.path w.2]) live)] ++
             (if no_backups then []
              else [Grid ("Backups (" +:+ str_of_Z (Z.of_nat (List.length backups)) +:+ ")") ["ID"; "SIZE"; "AGE"]
                      (map (λ b, [backup_id b; size_text (size_bytes b); format_age (timestamp b)]) backups)]))%list).
End view.

(** ** The source of the secrets, as a dry run of init reports it *)

Definition list_repr (l : list string) : string := "[" +:+ join ", " (map py_repr l) +:+ "]".

Section secret_source.
Context (exc_str : exn → string) (environ : string → option string) (read : string → option string) (is_tty : bool).

Definition unset_secrets : list string :=
  List.filter (λ name, negb (nonempty (default "" (environ name)))) REQUIRED_INSTANCE_SECRETS.
Definition env_line : string := "  Secrets: from environment variables " +:+ list_repr REQUIRED_INSTANCE_SECRETS.
Definition file_line (path : string) : string :=
  "  Secrets: from file " +:+ py_repr path +:+ " (required keys: " +:+ list_repr REQUIRED_INSTANCE_SECRETS +:+ ")".

Definition dry_run_secret_source_lines (secrets_from_env : bool) (secrets_from_file : option string) : list string :=
  if secrets_from_env then
    [env_line +:+ (if bool_decide (unset_secrets = []) then "" else " (currently unset: " +:+ list_repr unset_secrets +:+ ")")]
  else match secrets_from_file with
  | Some path =>
      [file_line path +:+ match parse_secrets_file (read path) with Ok _ => "" | Err e => " [would fail: " +:+ exc_str e +:+ "]" end]
  | None =>
      [(if is_tty then "  Secrets: interactive prompt for " else "  Secrets: stub `YOUR_<NAME>_HERE` placeholders for ") +:+
       list_repr REQUIRED_INSTANCE_SECRETS]
  end.

(** The dry run reports trouble exactly when the seeding would be refused. *)
Theorem secret_source_exact path :
  (dry_run_secret_source_lines true None = [env_line] ↔ is_ok (resolve_secrets_from_env environ) = true) ∧
  (dry_run_secret_source_lines false (Some path) = [file_line path] ↔ is_ok (parse_secrets_file (read path)) = true).
Proof.
  assert (Happ : ∀ s t, [s +:+ t] = [s] ↔ t = "").
  { intros s t. split; [intros [= H]|intros ->; by rewrite app_nil_r_str]. rewrite <- (app_nil_r_str s) in H at 2. by apply app_inv_l_str in H. }
  unfold dry_run_secret_source_lines. rewrite !Happ. split.
  - unfold resolve_secrets_from_env, unset_secrets.
    assert (Hf : ∀ l, List.filter (λ name, negb (nonempty (default "" (environ name)))) l = [] ↔
      forallb (λ name, nonempty (default "" (environ name))) l = true).
    { induction l as [|x l IH]; [done|]. cbn. destruct (nonempty (default "" (environ x))); done. }
    specialize (Hf REQUIRED_INSTANCE_SECRETS). cbv zeta. case_bool_decide as Hu.
    + split; [intros _|done]. by rewrite (proj1 Hf Hu).
    + split; [done|]. destruct (forallb _ _) eqn:E; [|done]. intros _. destruct Hu. by apply Hf.
  - destruct (parse_secrets_file (read path)); split; done.
Qed.
End secret_source.

(** ** doctor *)

Section doctor.
Context {W : Type} (checks : string → string → option string → eff W CheckResult)
  (checks_in : DockerExecutionMode → string → string → option string → eff W CheckResult)
  (env : host_env) (os_release : option string).

Definition NOT_SET_UP_NOTE : out_line :=
  styled "yellow" "Note: this host isn't set up yet — run `sudo sandbox setup`.".

Definition doctor_exit (results : list CheckResult) : Z :=
  if existsb (λ r, bool_decide (status r = FAILED)) results then 1%Z else 0%Z.

(** The lines and the exit code; [marker] is what the marker gives for the user. *)
Definition doctor (user : option string) (marker : res HostConfig) : option (eff W (list out_line * Z)) :=
  let header := plain_line ("Per-user home: " +:+ sandbox_ai_home env) in
  let distro := detect_distro os_release in
  match marker with
  | Err ModeMarkerMissing =>
      run ← run_unprovisioned_doctor checks checks_in (default (getuser env) user) distro;
      Some (results ← run; mret ((header :: NOT_SET_UP_NOTE :: render_results results)%list, doctor_exit results))
  | Err e => Some (throw e)
  | Ok host_config =>
      let mode := docker_execution_mode (HostConfig.host host_config) in
      match match user with Some u => Ok u | None => resolve_daemon_owner env host_config end with
      | Err e => Some (throw e)
      | Ok resolved_user =>
          run ← run_checks resolved_user distro mode (build_check_registry checks checks_in mode);
          Some (results ← run; mret ((header :: render_results results)%list, doctor_exit results))
      end
  end.
End doctor.

(** ** What is shown *)

Section shown.
Context (h : view_host).

Lemma res_map_Forall2 {A B} (f : A → res B) l k : res_map f l = Ok k ↔ Forall2 (λ x y, f x = Ok y) l k.
Proof.
  revert k; induction l as [|x l IH]; intros k; cbn [res_map].
  - split; [by intros [= <-]|by inversion 1].
  - split.
    + intros (y & Hy & (ys & Hys & [= <-])%res_bind_Ok)%res_bind_Ok. constructor; [done|by apply IH].
    + inversion 1 as [|? y ? ys Hy Hys]; subst. rewrite Hy. cbn. apply IH in Hys. by rewrite Hys.
Qed.

(** The slot that is shown is the one of the ledger, and looking allocates none. *)
Lemma slot_of_spec inst slot : slot_of h inst = Ok slot → slot = load (ledger (vh_ledger h)) !! inst.
Proof.
  unfold slot_of, peek_next_slot, ipam_load, mbind, eff_bind. cbn [fst snd].
  destruct (load (ledger (vh_ledger h)) !! inst) as [i|]; cbn; [by intros [= <-]|].
  destruct (lowest_free _); cbn; by intros [= <-].
Qed.

(** The summary of status has one row for each registered instance, in the order
    of the names, with the slot the ledger holds. *)
Theorem status_summary_exact views : render_status_summary h = Ok views → registry_all (vh_registry h) ≠ ∅ →
  ∃ rows, views = [Grid "Sandbox instances" ["Name"; "State"; "Workspaces"; "IPAM slot"] rows] ∧
    map (head (A:=string)) rows ≡ₚ map (λ x : string * RegistryEntry, Some x.1) (map_to_list (registry_all (vh_registry h))) ∧
    StronglySorted (λ x y, String.compare x y ≠ Gt) (omap head rows) ∧
    ∀ row name, row ∈ rows → head row = Some name →
      last row = Some (from_option str_of_Z "—" (load (ledger (vh_ledger h)) !! name)).
Proof.
  unfold render_status_summary. intros H Hne. case_bool_decide as He; [by apply map_to_list_empty_iff in He|].
  apply res_bind_Ok in H as (rows & Hrows%res_map_Forall2 & [= <-]). exists rows. split; [done|].
  set (entries := sorted_items (map_to_list (registry_all (vh_registry h)))) in *.
  assert (Hrow : ∀ e row, summary_row h e.1 (instance_dir e.2) = Ok row →
    head row = Some (e.1 : string) ∧ last row = Some (from_option str_of_Z "—" (load (ledger (vh_ledger h)) !! (e.1 : string)))).
  { intros e row Hr. unfold summary_row in Hr. apply res_bind_Ok in Hr as (slot & Hs%slot_of_spec & [= <-]). by subst slot. }
  assert (Hheads : map (head (A:=string)) rows = map (λ x : string * RegistryEntry, Some x.1) entries).
  { clear -Hrows Hrow. induction Hrows as [|e row es rows Hr _ IH]; [done|]. cbn. by rewrite IH, (proj1 (Hrow _ _ Hr)). }
  split_and!.
  - rewrite Hheads. unfold entries, sorted_items. by rewrite merge_sort_Permutation.
  - assert (omap head rows = map fst entries) as ->.
    { clear -Hheads. revert rows Hheads. induction entries as [|e es IH]; intros [|row rows]; try done. cbn. intros [= -> H].
      by rewrite (IH rows). }
    unfold entries. pose proof (StronglySorted_merge_sort key_le (map_to_list (registry_all (vh_registry h)))) as Hsort.
    unfold sorted_items. induction Hsort as [|x l Hl IH Hx]; cbn; constructor; [done|].
    apply Forall_map. eapply Forall_impl; [exact Hx|]. by intros y.
  - intros row name Hin Hhead. apply list_elem_of_lookup in Hin as [i Hi].
    destruct (Forall2_lookup_r _ _ _ _ _ Hrows Hi) as (e & _ & He'). destruct (Hrow _ _ He') as [H1 H2]. congruence.
Qed.

(** The label of a workspace. *)
Theorem state_label_exact ws_path s label : workspace_state_label h ws_path s = Ok label →
  (label = "[green]● ok[/green]" ↔ ∃ mode gid, vh_stat h ws_path = Ok (mode, gid) ∧ Z.land mode 1024 ≠ 0%Z ∧
     workspace_bridge_gid (vh_env h) s = Ok gid) ∧
  (label = "[red]✗ missing[/red]" ↔ vh_stat h ws_path = Err FileNotFoundError).
Proof.
  unfold workspace_state_label. destruct (vh_stat h ws_path) as [[mode gid]|e].
  - destruct (workspace_bridge_gid (vh_env h) s) as [expected|e].
    + intros [= <-]. destruct (Z.eqb_spec (Z.land mode 1024) 0) as [Hz|Hz], (Z.eqb_spec gid expected) as [Hg|Hg]; cbn [negb andb];
        (split; [split|by split]); try done; try (intros (m & g & [= <- <-] & Hm & [= He]); congruence).
      intros _. exists mode, gid. by subst expected.
    + destruct e; try done. intros [= <-]. split; [split; [done|by intros (? & ? & _ & _ & ?)]|by split].
  - intros H. destruct e; injection H as <-; (split; [split; [done|by intros (? & ? & ? & _)]|by split]).
Qed.

(** The age that is printed is the number of whole units that have passed. *)
Definition AGE_UNITS : list (string * Z) := [("s ago", 1); ("m ago", 60); ("h ago", 3600); ("d ago", 86400)]%Z.

Theorem age_bounds timestamp ts : vh_strptime h timestamp = Some ts → (1000000 * ts <= vh_now h)%Z →
  ∃ n suffix unit, format_age h timestamp = str_of_Z n +:+ suffix ∧ (suffix, unit) ∈ AGE_UNITS ∧
    (n * unit * 1000000 <= vh_now h - 1000000 * ts < (n + 1) * unit * 1000000)%Z ∧ (unit ≠ 1 → 0 < n)%Z ∧ (unit < 3600 → n < 60)%Z ∧ (unit = 3600 → n < 48)%Z.
Proof.
  intros Hts Hle. unfold format_age. rewrite Hts. rewrite Z.quot_div_nonneg by lia.
  set (u := (vh_now h - 1000000 * ts)%Z). assert (Hu : (0 <= u)%Z) by lia. set (t := (u / 1000000)%Z).
  pose proof (Z.div_mod u 1000000) as H0. pose proof (Z.mod_pos_bound u 1000000) as B0. fold t in H0.
  assert (Ht : (0 <= t)%Z) by (apply Z.div_pos; lia). clearbody t. cbv zeta.
  rewrite !Z.div_div by lia. change (60 * 60)%Z with 3600%Z. change (3600 * 24)%Z with 86400%Z.
  pose proof (Z.div_mod t 60) as H1. pose proof (Z.mod_pos_bound t 60) as B1.
  pose proof (Z.div_mod t 3600) as H2. pose proof (Z.mod_pos_bound t 3600) as B2.
  pose proof (Z.div_mod t 86400) as H3. pose proof (Z.mod_pos_bound t 86400) as B3.
  destruct (Z.ltb_spec t 60); [exists t, "s ago", 1%Z|destruct (Z.ltb_spec (t / 60) 60);
    [exists (t / 60)%Z, "m ago", 60%Z|destruct (Z.ltb_spec (t / 3600) 48);
    [exists (t / 3600)%Z, "h ago", 3600%Z|exists (t / 86400)%Z, "d ago", 86400%Z]]];
  (split; [done|split; [unfold AGE_UNITS; rewrite !elem_of_cons; tauto|lia]]).
Qed.

(** The document of the list has the live workspaces in the order of their names
    and every completed backup of the instance. *)
Theorem workspace_list_exact json_loads inst no_backups doc : workspace_list json_loads h inst no_backups true = Ok (inl doc) →
  ∃ dir config live bs, on_host h (do (LoadConfig dir)) = Ok config ∧ live ≡ₚ Cli.workspaces config ∧
    StronglySorted key_le live ∧
    doc = JObj {["workspaces" := JList (map workspace_json live); "backups" := JList (map backup_json bs)]} ∧
    (no_backups = true → bs = []) ∧
    (no_backups = false → bs = list_backups json_loads (vh_outside h) (MkBackupFilter (Some inst) None) (vh_backups h)).
Proof.
  unfold workspace_list.
  intros (_ & _ & (_ & _ & (dir & _ & (config & Hc & [= <-])%res_bind_Ok)%res_bind_Ok)%res_bind_Ok)%res_bind_Ok.
  exists dir, config, (sorted_items (Cli.workspaces config)). eexists. split_and!; [done|apply merge_sort_Permutation| |done|by intros ->|by intros ->].
  apply (StronglySorted_merge_sort key_le).
Qed.
End shown.

(** The exit code of doctor tells exactly whether a check failed. *)
Lemma doctor_exit_exact results : doctor_exit results = 1%Z ↔ ∃ r, r ∈ results ∧ status r = FAILED.
Proof.
  unfold doctor_exit. destruct (existsb _ results) eqn:E.
  - split; [intros _|done]. apply existsb_exists in E as (r & Hr%list_elem_of_In & Hs%bool_decide_eq_true). by exists r.
  - split; [done|]. intros (r & Hr & Hs). assert (existsb (λ r, bool_decide (status r = FAILED)) results = true) as H; [|congruence].
    apply existsb_exists. exists r. split; [by apply list_elem_of_In|by apply bool_decide_eq_true].
Qed.

(** ** Demonstrations *)

Definition view_env (subgid : string) : host_env :=
  HostEnv (λ u, if String.eqb u "dev" then Some (HostConfig.Passwd 1000 1000 "/home/dev") else None)
    (λ g, if String.eqb g "sb-ws-dev" then Some 101500%Z else None) [101500%Z] None (Some subgid) "dev" "/home/dev/.sandbox-ai".

Definition dev_settings : HostSettings := MkHostSettings None OPERATOR_ROOTLESS "sb-ws-dev".

Definition view_config : InstanceConfig := MkInstanceConfig "web" [("main", MkWorkspace "copy" None "/w")] false false.

Definition demo_answers (c : cli_call) : res (answer c) :=
  match c return res (answer c) with
  | Geteuid => Ok 1000%Z
  | StateInitialized => Ok true
  | RegistryGet _ => Ok (Some "/i/web")
  | PathExists p => Ok (bool_decide (p = "/i/web/docker/compose.yml"))
  | LoadConfig _ => Ok view_config
  | FromMarker => Ok (MkHostConfig dev_settings)
  | Probe _ _ _ => Ok (MkProbe false true "" "" None)
  | _ => Err RuntimeError
  end.

Definition demo_view (subgid : string) : view_host :=
  ViewHost demo_answers (view_env subgid)
    (JDoc (JObj {["web" := JObj {["instance_dir" := JStr "/i/web"; "created_at" := JStr "now"]}]}))
    (IpamState (Ledger {["web" := 3%Z]}) None) (λ _, Ok (1528, 101500)%Z) (λ _, None) (NDir ∅) ∅ 7200000000 (λ _, Some 0%Z).

Definition dev_range : string := "dev:100000:65536" +:+ NL.

Lemma status_summary_exact_witness :
  ∃ views, render_status_summary (demo_view dev_range) = Ok views ∧ ∃ rows, views =
    [Grid "Sandbox instances" ["Name"; "State"; "Workspaces"; "IPAM slot"] rows] ∧ List.length rows = 1.
Proof.
  assert (∃ views, render_status_summary (demo_view dev_range) = Ok views) as [views Hv] by (eexists; vm_compute; reflexivity).
  exists views. split; [exact Hv|]. destruct (status_summary_exact (demo_view dev_range) views Hv) as (rows & Hr & _).
  - vm_compute. discriminate.
  - exists rows. split; [exact Hr|]. vm_compute in Hv. injection Hv as <-. by injection Hr as <-.
Defined.

Lemma state_label_exact_witness :
  ∃ mode gid, vh_stat (demo_view dev_range) "/w" = Ok (mode, gid) ∧ Z.land mode 1024 ≠ 0%Z ∧
    workspace_bridge_gid (view_env dev_range) dev_settings = Ok gid.
Proof.
  refine (proj1 (proj1 (state_label_exact (demo_view dev_range) "/w" dev_settings "[green]● ok[/green]" _)) eq_refl).
  vm_compute. reflexivity.
Defined.

Lemma age_bounds_witness : ∃ n suffix unit, format_age (demo_view dev_range) "t" = str_of_Z n +:+ suffix ∧
  (n * unit * 1000000 <= 7200000000 - 1000000 * 0 < (n + 1) * unit * 1000000)%Z.
Proof.
  destruct (age_bounds (demo_view dev_range) "t" 0 eq_refl) as (n & suffix & unit & H & _ & Hb & _); [vm_compute; discriminate|].
  exists n, suffix, unit. split; [exact H|exact Hb].
Defined.

Lemma workspace_list_exact_witness : ∃ doc, workspace_list (λ _, None) (demo_view dev_range) "web" true true = Ok (inl doc) ∧
  ∃ live, doc = JObj {["workspaces" := JList (map workspace_json live); "backups" := JList []]}.
Proof.
  assert (∃ doc, workspace_list (λ _, None) (demo_view dev_range) "web" true true = Ok (inl doc)) as [doc H] by (eexists; vm_compute; reflexivity).
  exists doc. split; [exact H|].
  destruct (workspace_list_exact (demo_view dev_range) (λ _, None) "web" true doc H) as (dir & config & live & bs & _ & _ & _ & Hd & Hb & _).
  exists live. by rewrite Hd, (Hb eq_refl).
Defined.

(** A daemon that does not answer shows its instance as stopped. *)
Lemma unreachable_shown_stopped :
  ∃ views lines, render_status_detailed (λ _, None) (demo_view dev_range) "web" false = Ok (Framed "Sandbox: web" "red" lines :: views) ∧
    "[bold]State:[/bold]       ○ stopped" ∈ lines.
Proof. eexists _, _. split; [vm_compute; reflexivity|]. rewrite !elem_of_cons. auto. Qed.

(** The label of a workspace is meant never to crash; a group outside the
    range, or no range at all, ends status with the exception. *)
Lemma label_raises :
  render_status_detailed (λ _, None) (demo_view "") "web" false = Err NoSubgidRangeError ∧
  render_status_detailed (λ _, None) (demo_view ("dev:200000:65536" +:+ NL)) "web" false = Err SubgidOutOfRangeError.
Proof. split; vm_compute; reflexivity. Qed.
