(* ===== verification/Integrations.v ===== *)
(** * core.setup.extras.aide and fapolicyd

    The two optional phases, as programs over their calls, and a host with the
    files, the trust database and the tools that those calls act on.  A file is
    written by opening it, which empties it, and writing; either may fail. *)
From S2P Require Import Prelude PyStr HostConfig PhaseRunner Interact OnState HostPhases.
From Stdlib Require Import Ascii String.
Open Scope nat_scope.

Inductive xcall :=
  | XWhich (name : string)
  | XIsDir (path : string)
  | XExists (path : string)
  | XRead (path : string)
  | XSize (path : string)
  | XSha (path : string)
  | XOpen (path : string)
  | XWrite (path text : string)
  | XChmod (path : string) (mode : Z)
  | XChown (path : string)
  | XRun (argv : list string).

Definition xanswer (c : xcall) : Type :=
  match c with
  | XWhich _ | XRead _ => option string
  | XIsDir _ | XExists _ => bool
  | XSize _ => Z
  | XSha _ | XRun _ => string
  | XOpen _ | XWrite _ _ | XChmod _ _ | XChown _ => unit
  end.

Abbreviation xprog := (prog xanswer).
Abbreviation xbody := (PhaseBody xanswer).
Definition xdo (c : xcall) : xprog (xanswer c) := perform c.

Definition DISPATCH_PATH : string := "/usr/local/libexec/sandbox-ai/dispatch".
Definition RUNSC_PATH : string := "/usr/local/libexec/sandbox-ai/runsc".
Definition MANAGED_HEADER : string := "# sandbox-ai managed — do not edit; rerun 'sudo sandbox setup'".

(** [try: Executor().run(argv) ... except SandboxExecutionError: return False] *)
Definition run_or_false (argv : list string) (verdict : string → bool) : xprog bool :=
  catch (out ← xdo (XRun argv); mret (verdict out))
    (λ e, if is_sandbox_execution_error e then mret false else raise e).

(** [with open(path, "w") as fh: fh.write(text)], then 0644 and root. *)
Definition write_drop_in (path text : string) : xprog unit :=
  _ ← xdo (XOpen path);
  _ ← xdo (XWrite path text);
  _ ← xdo (XChmod path 420);
  xdo (XChown path).

(** ** aide *)

Definition CONF_D_DIR : string := "/etc/aide/aide.conf.d".
Definition CONF_DROPIN_PATH : string := "/etc/aide/aide.conf.d/sandbox-ai.conf".
Definition AIDE_DB_PATH : string := "/var/lib/aide/aide.db".

Definition CONF_CONTENT : string :=
  MANAGED_HEADER +:+ NL +:+ DISPATCH_PATH +:+ " NORMAL" +:+ NL +:+ RUNSC_PATH +:+ " NORMAL" +:+ NL.

Definition AIDE_ABSENT_REFUSAL : string :=
  "aide not installed. Run: sudo apt install aide (or sudo dnf install " +:+
  "aide; Arch: sudo pacman -S aide), then re-run.".
Definition CONF_D_ABSENT_REFUSAL : string :=
  "AIDE on this host does not support /etc/aide/aide.conf.d/ drop-ins; " +:+
  "manually integrate per docs/setup-guide.md".
Definition DB_INIT_PROMPT : string :=
  "AIDE conf.d snippet installed. To begin monitoring, run: sudo aide " +:+
  "--init (warning: walks the entire filesystem; can take 10+ minutes), " +:+
  "then schedule periodic checks via cron (e.g., daily aide --check at " +:+ "off-peak hours).".

Definition aide_installed : xprog bool := w ← xdo (XWhich "aide"); mret (bool_decide (w ≠ None)).
Definition aide_read_existing : xprog (option string) := xdo (XRead CONF_DROPIN_PATH).
Definition aide_db_present : xprog bool := xdo (XExists AIDE_DB_PATH).
Definition config_check_supported : xprog bool := run_or_false ["aide"; "--help"] (contains "--config-check").

Definition aide_probe : xprog (PhaseResult * string) :=
  installed ← aide_installed;
  if negb installed then mret (CONFLICT, AIDE_ABSENT_REFUSAL)
  else
    conf_d ← xdo (XIsDir CONF_D_DIR);
    if negb conf_d then mret (CONFLICT, CONF_D_ABSENT_REFUSAL)
    else
      existing ← aide_read_existing;
      mret match (existing : option string) with
      | None => (MISSING, "AIDE conf.d drop-in absent at " +:+ CONF_DROPIN_PATH +:+ "; will write it")
      | Some text =>
          if String.eqb text CONF_CONTENT then
            (ALREADY_CORRECT, "AIDE conf.d drop-in at " +:+ CONF_DROPIN_PATH +:+ " matches the canonical " +:+ "managed-binary snippet")
          else
            (DRIFT, "AIDE conf.d drop-in at " +:+ CONF_DROPIN_PATH +:+ " differs from the " +:+ "canonical managed-binary snippet; will re-render")
      end.

Definition aide_act : xprog string :=
  _ ← write_drop_in CONF_DROPIN_PATH CONF_CONTENT;
  let detail := "wrote " +:+ CONF_DROPIN_PATH +:+ " (0644 root:root)" in
  supported ← config_check_supported;
  detail ← (if (supported : bool) then
              _ ← xdo (XRun ["aide"; "--config-check"]);
              mret (detail +:+ "; validated via aide --config-check")
            else mret detail);
  present ← aide_db_present;
  mret (if (present : bool) then detail else detail +:+ ". " +:+ DB_INIT_PROMPT).

Definition aide_reverify : xprog bool :=
  existing ← aide_read_existing; mret (bool_decide ((existing : option string) = Some CONF_CONTENT)).

Definition aide_body : xbody := MkBody aide_probe aide_act aide_reverify.

(** ** fapolicyd *)

Definition MANAGED_BINARIES : list string := [DISPATCH_PATH; RUNSC_PATH].
Definition TRUST_DROPIN_DIR : string := "/etc/fapolicyd/trust.d".
Definition TRUST_DROPIN_PATH : string := "/etc/fapolicyd/trust.d/sandbox-ai.trust".

Definition FAPOLICYD_ABSENT_REFUSAL : string :=
  "fapolicyd not installed. Run: sudo apt install fapolicyd (or sudo dnf " +:+
  "install fapolicyd; Arch: paru -S fapolicyd), then re-run.".
Definition TRUST_D_ABSENT_REFUSAL : string :=
  "fapolicyd installed but trust.d directory missing; check fapolicyd " +:+ "installation".
Definition FAPOLICYD_INACTIVE_WARNING : string :=
  "fapolicyd installed but not running. Run: sudo systemctl enable --now " +:+ "fapolicyd to start enforcement.".

(** A managed binary with its size and digest, and the text that records some. *)
Definition trust_line (e : string * Z * string) : string := e.1.1 +:+ " " +:+ str_of_Z e.1.2 +:+ " " +:+ e.2.
Definition trust_text (entries : list (string * Z * string)) : string :=
  join NL (MANAGED_HEADER :: map trust_line entries) +:+ NL.

Fixpoint measure (paths : list string) : xprog (list (string * Z * string)) :=
  match paths with
  | [] => mret []
  | path :: paths =>
      size ← xdo (XSize path);
      sha ← xdo (XSha path);
      rest ← measure paths;
      mret ((path, size, sha) :: rest)
  end.

Definition render_trust_content : xprog string := entries ← measure MANAGED_BINARIES; mret (trust_text entries).

Definition fapolicyd_read_existing : xprog (option string) := xdo (XRead TRUST_DROPIN_PATH).
Definition fapolicyd_installed : xprog bool := w ← xdo (XWhich "fapolicyd"); mret (bool_decide (w ≠ None)).
Definition fapolicyd_active : xprog bool := run_or_false ["systemctl"; "is-active"; "fapolicyd"] (λ _, true).

Definition fapolicyd_probe : xprog (PhaseResult * string) :=
  installed ← fapolicyd_installed;
  if negb installed then mret (CONFLICT, FAPOLICYD_ABSENT_REFUSAL)
  else
    trust_d ← xdo (XIsDir TRUST_DROPIN_DIR);
    if negb trust_d then mret (CONFLICT, TRUST_D_ABSENT_REFUSAL)
    else
      expected ← render_trust_content;
      existing ← fapolicyd_read_existing;
      mret match (existing : option string) with
      | None => (MISSING, "fapolicyd trust drop-in absent at " +:+ TRUST_DROPIN_PATH +:+ "; " +:+ "will write it and reload the trust DB")
      | Some text =>
          if String.eqb text expected then
            (ALREADY_CORRECT, "fapolicyd trust drop-in at " +:+ TRUST_DROPIN_PATH +:+ " matches the " +:+ "current managed-binary shas")
          else
            (DRIFT, "fapolicyd trust drop-in at " +:+ TRUST_DROPIN_PATH +:+ " records stale " +:+
                    "size/sha for a managed binary; will re-render and reload")
      end.

Definition fapolicyd_act : xprog string :=
  content ← render_trust_content;
  _ ← write_drop_in TRUST_DROPIN_PATH content;
  _ ← xdo (XRun ["fapolicyd-cli"; "--update"]);
  let detail := "wrote " +:+ TRUST_DROPIN_PATH +:+ " (0644 root:root) and reloaded the " +:+ "fapolicyd trust DB" in
  active ← fapolicyd_active;
  mret (if (active : bool) then detail else detail +:+ "; WARNING: " +:+ FAPOLICYD_INACTIVE_WARNING).

Definition check_trust (path : string) : list string := ["fapolicyd-cli"; "--check-trust"; "file=" +:+ path].
Definition fapolicyd_reverify : xprog bool := run_or_false (check_trust DISPATCH_PATH) (contains "trusted: yes").

Definition fapolicyd_body : xbody := MkBody fapolicyd_probe fapolicyd_act fapolicyd_reverify.

(** ** The host *)

Record xfile := XFile { f_text : string; f_mode : Z; f_root : bool }.
#[export] Instance xfile_eq_dec : EqDecision xfile.
Proof. solve_decision. Defined.

(** [x_db] is the text that the trust database was last loaded from. *)
Record xhost := XHost {
  x_path : list string;
  x_dirs : list string;
  x_files : gmap string xfile;
  x_db : string;
  x_updates : bool;
  x_active : bool;
  x_help : option string
}.

Definition with_files (f : gmap string xfile → gmap string xfile) (s : xhost) : xhost :=
  XHost (x_path s) (x_dirs s) (f (x_files s)) (x_db s) (x_updates s) (x_active s) (x_help s).
Definition with_db (db : string) (s : xhost) : xhost :=
  XHost (x_path s) (x_dirs s) (x_files s) db (x_updates s) (x_active s) (x_help s).

Definition text_at (s : xhost) (p : string) : option string := f_text <$> x_files s !! p.

Section host.
(** The digest; whether a database loaded from a text trusts a binary of that
    size and digest; what the check prints; whether AIDE accepts a drop-in; the
    mode of a new file; the text of a failed run. *)
Context (sha256 : string → string) (trusts : string → string → Z → string → bool) (report : bool → string)
  (config_ok : string → bool) (new_mode : Z) (fault_text : list string → string).

Definition file_size (text : string) : Z := Z.of_nat (String.length text).
Definition trusted (s : xhost) (p : string) : bool :=
  match text_at s p with Some text => trusts (x_db s) p (file_size text) (sha256 text) | None => false end.

Definition failed_run {A} (argv : list string) : res A := Err (SandboxExecutionError (fault_text argv) false).

(** What a command does, where it does not fail for another reason. *)
Definition ran (argv : list string) (s : xhost) : res string * xhost :=
  if bool_decide (argv = ["fapolicyd-cli"; "--update"]) then
    if x_updates s then (Ok "", with_db (default "" (text_at s TRUST_DROPIN_PATH)) s) else (failed_run argv, s)
  else if bool_decide (argv = ["systemctl"; "is-active"; "fapolicyd"]) then
    (if x_active s then Ok "active" else failed_run argv, s)
  else if bool_decide (argv = check_trust DISPATCH_PATH) then (Ok (report (trusted s DISPATCH_PATH)), s)
  else if bool_decide (argv = ["aide"; "--help"]) then (from_option Ok (failed_run argv) (x_help s), s)
  else if bool_decide (argv = ["aide"; "--config-check"]) then
    (if config_ok (default "" (text_at s CONF_DROPIN_PATH)) then Ok "" else failed_run argv, s)
  else (failed_run argv, s).

Definition on_file {A} (s : xhost) (p : string) (f : xfile → res A * xhost) : res A * xhost :=
  match x_files s !! p with Some x => f x | None => (Err FileNotFoundError, s) end.
Definition update (p : string) (f : xfile → xfile) (s : xhost) : res unit * xhost :=
  on_file s p (λ x, (Ok tt, with_files <[p := f x]> s)).

Definition machine (s : xhost) (c : xcall) : res (xanswer c) * xhost :=
  match c with
  | XWhich n => (Ok (if bool_decide (n ∈ x_path s) then Some n else None), s)
  | XIsDir p => (Ok (bool_decide (p ∈ x_dirs s)), s)
  | XExists p => (Ok (bool_decide (x_files s !! p ≠ None)), s)
  | XRead p => (Ok (text_at s p), s)
  | XSize p => on_file s p (λ x, (Ok (file_size (f_text x)), s))
  | XSha p => on_file s p (λ x, (Ok (sha256 (f_text x)), s))
  | XOpen p =>
      match x_files s !! p with
      | Some x => (Ok tt, with_files <[p := XFile "" (f_mode x) (f_root x)]> s)
      | None => if bool_decide (dirname p ∈ x_dirs s) then (Ok tt, with_files <[p := XFile "" new_mode true]> s)
                else (Err FileNotFoundError, s)
      end
  | XWrite p text => update p (λ x, XFile text (f_mode x) (f_root x)) s
  | XChmod p mode => update p (λ x, XFile (f_text x) mode (f_root x)) s
  | XChown p => update p (λ x, XFile (f_text x) (f_mode x) true) s
  | XRun argv => ran argv s
  end.

(** A call that fails for another reason has done nothing, or all of it, or has
    written some other text. *)
Definition spoiled (s : xhost) (c : xcall) (s' : xhost) : Prop :=
  match c with
  | XWrite p _ => ∃ part, s' = (update p (λ x, XFile part (f_mode x) (f_root x)) s).2
  | XRun argv => s' = s ∨ s' = (ran argv s).2
  | _ => s' = s
  end.

Definition xstep (faults : bool) (s : xhost) (c : xcall) (a : res (xanswer c)) (s' : xhost) : Prop :=
  (a, s') = machine s c ∨ faults = true ∧ (∃ e, a = Err e) ∧ spoiled s c s'.

(** ** What the calls do *)

Abbreviation step := (xstep).

Definition is_read (c : xcall) : Prop :=
  match c with
  | XWhich _ | XIsDir _ | XExists _ | XRead _ | XSize _ | XSha _ => True
  | XRun argv => argv ≠ ["fapolicyd-cli"; "--update"]
  | _ => False
  end.

Lemma ran_reads argv s : argv ≠ ["fapolicyd-cli"; "--update"] → (ran argv s).2 = s.
Proof. intros H. unfold ran. rewrite bool_decide_false by done. by repeat case_bool_decide. Qed.

Lemma read_step faults s c a s' : is_read c → xstep faults s c a s' →
  s' = s ∧ ((a, s) = machine s c ∨ faults = true ∧ ∃ e, a = Err e).
Proof.
  intros Hc [H|(-> & He & H)].
  - assert (s' = s) as ->; [|by eauto]. change s' with (a, s').2. rewrite H.
    destruct c; try done; cbn; unfold on_file; try (by destruct (x_files s !! path)). by apply ran_reads.
  - assert (s' = s) as ->; [|by eauto]. destruct c; try done. destruct H as [?| ->]; [done|by apply ran_reads].
Qed.

Section swp.
Context (faults : bool) (I : xhost → Prop).

Lemma swp_answers {A} c (f : xanswer c → xprog A) Q s : is_read c → I s →
  (∀ v, (machine s c).1 = Ok v → swp (xstep faults) I (f v) Q s) →
  (∀ e, faults = true ∨ (machine s c).1 = Err e → Q (Err e) s) → swp (xstep faults) I (xdo c ≫= f) Q s.
Proof.
  intros Hc HI Hf He. apply swp_call; [done|..].
  - intros v s' [-> [H|(_ & ? & [=])]]%read_step; [|done]. apply Hf. by rewrite <- H.
  - intros e s' [-> H]%read_step; [|done]. split; [done|]. apply He. destruct H as [H|[? _]]; [right|by left]. by rewrite <- H.
Qed.

(** A question that the executor is asked. *)
Lemma swp_run_or_false argv verdict (Q : res bool → xhost → Prop) s : argv ≠ ["fapolicyd-cli"; "--update"] → I s →
  (∀ out, (ran argv s).1 = Ok out → Q (Ok (verdict out)) s) →
  (faults = true ∨ (∀ out, (ran argv s).1 ≠ Ok out) → Q (Ok false) s) →
  (∀ e, faults = true ∨ (ran argv s).1 = Err e ∧ is_sandbox_execution_error e = false → Q (Err e) s) →
  swp (xstep faults) I (run_or_false argv verdict) Q s.
Proof.
  intros Hc HI Ht Hf He. apply swp_catch, (swp_answers (XRun argv)); [done|done|..].
  - intros out Ho. apply swp_ret; [done|]. by apply Ht.
  - intros e H. destruct (is_sandbox_execution_error e) eqn:E; apply swp_ret; try done.
    + apply Hf. destruct H as [?|H]; [by left|right]. cbn in H. intros out. by rewrite H.
    + apply He. destruct H as [?|H]; [by left|by right].
Qed.
End swp.

(** Only the drop-in is changed, and it is what was meant when all went well. *)
Definition drop_in_post (p text : string) (s : xhost) (r : res unit) (s' : xhost) : Prop :=
  (s' = s ∨ ∃ x, s' = with_files <[p := x]> s) ∧
  (r = Ok tt → s' = with_files <[p := XFile text 420 true]> s).

Lemma with_files_twice p x y s : with_files <[p := y]> (with_files <[p := x]> s) = with_files <[p := y]> s.
Proof. unfold with_files. cbn. by rewrite insert_insert_eq. Qed.

(** A call on the file, once it is there. *)
Lemma swp_updates {A} c p (g : xfile → xfile) (f : xanswer c → xprog A) Q s x :
  (∀ s a s', xstep true s c a s' → x_files s !! p = Some x →
     ((∃ v, a = Ok v) → s' = with_files <[p := g x]> s) ∧ (s' = s ∨ ∃ y, s' = with_files <[p := y]> s)) →
  x_files s !! p = Some x →
  (∀ v, swp (xstep true) (λ _, True) (f v) Q (with_files <[p := g x]> s)) →
  (∀ e s', s' = s ∨ (∃ y, s' = with_files <[p := y]> s) → Q (Err e) s') →
  swp (xstep true) (λ _, True) (xdo c ≫= f) Q s.
Proof.
  intros Hstep Hx Hf He. apply swp_call; [done|..].
  - intros v s' Hs. destruct (Hstep _ _ _ Hs Hx) as [H _]. rewrite H by eauto. apply Hf.
  - intros e s' Hs. destruct (Hstep _ _ _ Hs Hx) as [_ H]. auto.
Qed.

Ltac update_step :=
  let Hstep := fresh in let Hfile := fresh in intros ? ? ? Hstep Hfile;
  destruct Hstep as [Hstep|(_ & [? ->] & Hstep)]; cbn in Hstep; unfold update, on_file in Hstep; rewrite ?Hfile in Hstep;
  cbn in Hstep; [simplify_eq; split; [done|by eauto]|split; [by intros [? [=]]|naive_solver]].

Lemma swp_write_drop_in p text s : swp (xstep true) (λ _, True) (write_drop_in p text) (drop_in_post p text s) s.
Proof.
  assert (Hfail : ∀ x e s', s' = with_files <[p := x]> s ∨ (∃ y, s' = with_files <[p := y]> (with_files <[p := x]> s)) →
    drop_in_post p text s (Err e) s').
  { intros x e s' H. split; [|done]. right. destruct H as [->|[y ->]]; [|rewrite with_files_twice]; eauto. }
  unfold write_drop_in. apply swp_call; [done| |].
  2: { intros e s' [H|(_ & _ & ->)]; (split; [done|]); (split; [|done]); [|by left]. cbn in H.
       destruct (x_files s !! p); [done|]. case_bool_decide; [done|]. simplify_eq. by left. }
  intros [] s1 Hs. assert (∃ x, s1 = with_files <[p := x]> s) as [x ->].
  { destruct Hs as [H|(_ & [e [=]] & _)]. cbn in H. destruct (x_files s !! p); [by simplify_eq; eauto|].
    case_bool_decide; by simplify_eq; eauto. }
  clear Hs. assert (Hin : ∀ y, x_files (with_files <[p := y]> s) !! p = Some y) by (intros y; apply lookup_insert_eq).
  eapply (swp_updates _ p (λ x, XFile text (f_mode x) (f_root x))); [update_step|apply Hin| |by intros; eapply Hfail].
  intros []. rewrite with_files_twice.
  eapply (swp_updates _ p (λ x, XFile (f_text x) 420 (f_root x))); [update_step|apply Hin| |by intros; eapply Hfail].
  intros []. rewrite with_files_twice. cbn [f_text f_mode f_root].
  apply swp_perform; [done|]. intros a s' Hs. split; [done|]. destruct Hs as [H|(_ & [e ->] & ->)]; [|by eapply Hfail; left].
  cbn in H. unfold update, on_file in H. rewrite Hin in H. cbn in H. simplify_eq. rewrite with_files_twice.
  split; [right; eauto|done].
Qed.

(** ** The binaries *)

Definition measured (s : xhost) (paths : list string) : option (list (string * Z * string)) :=
  mapM (λ p, (λ text, (p, file_size text, sha256 text)) <$> text_at s p) paths.

Lemma measured_ext s s' paths : (∀ p, p ∈ paths → text_at s' p = text_at s p) → measured s' paths = measured s paths.
Proof.
  unfold measured. induction paths as [|p paths IH]; intros H; [done|]. cbn.
  rewrite IH by (intros; apply H; by right). by rewrite H by left.
Qed.

Lemma swp_measure {A} faults I paths (f : _ → xprog A) Q s : I s →
  (∀ entries, measured s paths = Some entries → swp (xstep faults) I (f entries) Q s) →
  (∀ e, faults = true ∨ measured s paths = None → Q (Err e) s) → swp (xstep faults) I (measure paths ≫= f) Q s.
Proof.
  intros HI Hf He. apply swp_bind.
  enough (swp (xstep faults) I (measure paths) (λ r s', s' = s ∧
    match r with Ok entries => measured s paths = Some entries | Err _ => faults = true ∨ measured s paths = None end) s) as H.
  { eapply swp_mono, H. intros [entries|e] s' _ [-> Hr]; auto. }
  clear f Hf He Q. induction paths as [|p paths IH]; [by apply swp_ret|]. cbn [measure].
  assert (Hm : measured s (p :: paths) = match text_at s p with
    | Some text => (λ es, (p, file_size text, sha256 text) :: es) <$> measured s paths | None => None end).
  { unfold measured. cbn. destruct (text_at s p); cbn; [|done]. by destruct (mapM _ paths). }
  assert (Hf : ∀ c v (g : xfile → res (xanswer c)), (machine s c).1 = (on_file s p (λ x, (g x, s))).1 →
    (machine s c).1 = v → v = match x_files s !! p with Some x => g x | None => Err FileNotFoundError end).
  { intros c v g -> <-. unfold on_file. by destruct (x_files s !! p). }
  rewrite Hm. unfold text_at.
  apply swp_answers; [done|done|..].
  - intros size Hsize. apply (Hf (XSize p) _ (λ x, Ok (file_size (f_text x))) eq_refl) in Hsize.
    destruct (x_files s !! p) as [x|] eqn:Hx; [|done]. injection Hsize as ->. apply swp_answers; [done|done|..].
    + intros sha Hsha. apply (Hf (XSha p) _ (λ x, Ok (sha256 (f_text x))) eq_refl) in Hsha. injection Hsha as ->.
      apply swp_bind. eapply swp_mono, IH. intros [es|e] s' HI' [-> H]; [|split; [done|]].
      * apply swp_ret; [done|]. by rewrite H.
      * destruct H as [?|H]; [by left|right; by rewrite H].
    + intros e [?|H]; [by split; [|left]|]. by apply (Hf (XSha p) _ (λ x, Ok (sha256 (f_text x))) eq_refl) in H.
  - intros e [?|H]; [by split; [|left]|]. apply (Hf (XSize p) _ (λ x, Ok (file_size (f_text x))) eq_refl) in H.
    destruct (x_files s !! p); [done|]. split; [done|by right].
Qed.

(** ** aide *)

Definition aide_converged (s : xhost) : Prop := text_at s CONF_DROPIN_PATH = Some CONF_CONTENT.

(** The drop-in is written as meant; the detail says whether it was validated,
    and asks for the first baseline where there is none. *)
Definition aide_wrote : string := "wrote " +:+ CONF_DROPIN_PATH +:+ " (0644 root:root)".
Definition aide_post (s : xhost) (r : res string) (s' : xhost) : Prop :=
  (s' = s ∨ ∃ x, s' = with_files <[CONF_DROPIN_PATH := x]> s) ∧
  match r with
  | Ok detail => s' = with_files <[CONF_DROPIN_PATH := XFile CONF_CONTENT 420 true]> s ∧
      ∃ base, (base = aide_wrote ∨ base = aide_wrote +:+ "; validated via aide --config-check" ∧ config_ok CONF_CONTENT = true) ∧
        detail = if bool_decide (x_files s !! AIDE_DB_PATH = None) then base +:+ ". " +:+ DB_INIT_PROMPT else base
  | Err _ => True
  end.

Lemma swp_aide_act s : swp (xstep true) (λ _, True) aide_act (aide_post s) s.
Proof.
  unfold aide_act. apply swp_bind. eapply swp_mono, swp_write_drop_in. intros [[]|e] s' _ [Hs Hok]; [|done].
  rewrite (Hok eq_refl). clear s' Hs Hok. set (s1 := with_files _ s). unfold config_check_supported.
  assert (Herr : ∀ e : exn, aide_post s (Err e) s1) by (split; [by right; eexists|done]).
  assert (Hend : ∀ base, base = aide_wrote ∨ base = aide_wrote +:+ "; validated via aide --config-check" ∧ config_ok CONF_CONTENT = true →
    swp (xstep true) (λ _, True) (present ← aide_db_present; mret (if (present : bool) then base else base +:+ ". " +:+ DB_INIT_PROMPT))
      (aide_post s) s1).
  { intros base Hb. apply swp_answers; [done|done| |by intros]. intros v [= <-]. apply swp_ret; [done|].
    split; [by right; eexists|]. split; [done|]. exists base. split; [done|]. cbn [s1 with_files x_files].
    rewrite lookup_insert_ne by done. destruct (x_files s !! AIDE_DB_PATH); done. }
  apply swp_bind. eapply (swp_run_or_false true _ ["aide"; "--help"]); [done|done|..].
  - intros out _. apply swp_bind. destruct (contains "--config-check" out).
    + apply swp_answers; [done|done| |by intros]. intros out' Hrun. apply swp_ret; [done|]. apply Hend. right. split; [done|].
      assert (Ht : text_at s1 CONF_DROPIN_PATH = Some CONF_CONTENT) by (unfold text_at; cbn; by rewrite lookup_insert_eq).
      change (machine s1 (XRun ["aide"; "--config-check"])) with
        ((if config_ok (default "" (text_at s1 CONF_DROPIN_PATH)) then Ok "" else failed_run ["aide"; "--config-check"]) : res string, s1) in Hrun.
      rewrite Ht in Hrun. change (default "" (Some CONF_CONTENT)) with CONF_CONTENT in Hrun. by destruct (config_ok CONF_CONTENT).
    + apply swp_ret; [done|]. apply Hend. by left.
  - intros _. apply swp_bind, swp_ret; [done|]. apply Hend. by left.
  - intros e _. apply Herr.
Qed.

#[export] Instance aide_contract : PhaseContract (λ faults, xstep faults) aide_body aide_converged.
Proof.
  split; cbn [aide_body body_probe body_act body_reverify].
  - intros s. unfold aide_probe, aide_installed. apply swp_bind, swp_answers; [done|done| |by intros]. intros w _.
    apply swp_ret; [done|]. destruct (negb _); [by apply swp_ret|]. apply swp_answers; [done|done| |by intros]. intros d _.
    destruct (negb d); [by apply swp_ret|]. apply swp_answers; [done|done| |by intros]. intros existing [= <-].
    apply swp_ret; [done|]. unfold aide_converged. destruct (text_at s CONF_DROPIN_PATH) as [text|]; [|done].
    destruct (String.eqb_spec text CONF_CONTENT) as [->|]; [done|]. by intros d' [= ].
  - intros faults s. unfold aide_reverify. apply swp_answers; [done|done| |by intros]. intros existing [= <-].
    apply swp_ret; [done|]. intros v [= <-]. by rewrite bool_decide_eq_true.
  - intros s. eapply swp_mono, swp_aide_act. intros r s' _ [_ H] [detail ->]. destruct H as [-> _].
    unfold aide_converged, text_at. cbn. by rewrite lookup_insert_eq.
Qed.

(** ** fapolicyd *)

(** The drop-in records the binaries as they are, and the database trusts them. *)
Definition fapolicyd_converged (s : xhost) : Prop := ∃ entries,
  measured s MANAGED_BINARIES = Some entries ∧ text_at s TRUST_DROPIN_PATH = Some (trust_text entries) ∧
  ∀ p, p ∈ MANAGED_BINARIES → trusted s p = true.

Definition same_but (p : string) (s s' : xhost) : Prop := ∀ q, q ≠ p → x_files s' !! q = x_files s !! q.

Lemma same_but_insert p x s : same_but p s (with_files <[p := x]> s).
Proof. intros q Hq. cbn. by rewrite lookup_insert_ne. Qed.

Lemma drop_in_same_but p text s r s' : drop_in_post p text s r s' → same_but p s s'.
Proof. intros [[->|[x ->]] _]; [done|apply same_but_insert]. Qed.

Lemma measured_elem s paths entries p : measured s paths = Some entries → p ∈ paths →
  ∃ text, text_at s p = Some text ∧ (p, file_size text, sha256 text) ∈ entries.
Proof.
  unfold measured. intros H%mapM_Some [i Hi]%list_elem_of_lookup. destruct (Forall2_lookup_l _ _ _ _ _ H Hi) as (e & He & Hp).
  destruct (text_at s p) as [text|]; [|done]. injection Hp as <-. exists text. split; [done|]. by eapply list_elem_of_lookup_2.
Qed.

Lemma measured_paths s paths entries : measured s paths = Some entries → map (λ e : string * Z * string, e.1.1) entries = paths.
Proof.
  unfold measured. intros H%mapM_Some. induction H as [|p e ps es Hp _ IH]; [done|]. cbn. rewrite IH.
  destruct (text_at s p); [|done]. by injection Hp as <-.
Qed.

Section laws.
Context (trusts_recorded : ∀ entries p size sha, map (λ e : string * Z * string, e.1.1) entries = MANAGED_BINARIES →
  (p, size, sha) ∈ entries → trusts (trust_text entries) p size sha = true).
Context (report_says : ∀ b, contains "trusted: yes" (report b) = b).

Lemma ran_update s : ran ["fapolicyd-cli"; "--update"] s =
  if x_updates s then (Ok "", with_db (default "" (text_at s TRUST_DROPIN_PATH)) s)
  else (failed_run ["fapolicyd-cli"; "--update"], s).
Proof. reflexivity. Qed.

Lemma not_managed : TRUST_DROPIN_PATH ∉ MANAGED_BINARIES.
Proof. unfold MANAGED_BINARIES. rewrite !not_elem_of_cons. by split_and!; [..|apply not_elem_of_nil]. Qed.

Lemma swp_fapolicyd_act s : swp (xstep true) (λ _, True) fapolicyd_act
  (λ r s', same_but TRUST_DROPIN_PATH s s' ∧ ∀ detail, r = Ok detail → fapolicyd_converged s' ∧
    ∃ text, x_files s' !! TRUST_DROPIN_PATH = Some (XFile text 420 true)) s.
Proof.
  unfold fapolicyd_act, render_trust_content. apply swp_bind, swp_measure; [done| |by intros]. intros entries Hm.
  apply swp_ret; [done|]. apply swp_bind. eapply swp_mono, swp_write_drop_in.
  intros [[]|e] s' _ Hpost; [|by split; [by eapply drop_in_same_but|]]. rewrite (proj2 Hpost eq_refl). clear s' Hpost.
  set (s1 := with_files _ s). assert (H1 : same_but TRUST_DROPIN_PATH s s1) by apply same_but_insert.
  assert (Ht : text_at s1 TRUST_DROPIN_PATH = Some (trust_text entries)) by (unfold text_at; cbn; by rewrite lookup_insert_eq).
  apply swp_call; [done|..].
  2: { intros e s' Hs. assert (x_files s' = x_files s1) as Hf.
       { destruct Hs as [H|(_ & _ & [->|H])]; [|done|]; cbn [machine] in H; rewrite ran_update in H;
           destruct (x_updates s1); cbn in H; by simplify_eq. }
       split; [done|]. split; [|done]. intros q Hq. rewrite Hf. by apply H1. }
  intros out s' [H|(_ & [e [=]] & _)]. cbn [machine] in H. rewrite ran_update, Ht in H.
  destruct (x_updates s1); [|done]. injection H as -> ->. change (default "" (Some (trust_text entries))) with (trust_text entries).
  set (s2 := with_db _ s1).
  assert (Hend : ∀ r, same_but TRUST_DROPIN_PATH s s2 ∧ ∀ detail : string, r = Ok detail → fapolicyd_converged s2 ∧
    ∃ text, x_files s2 !! TRUST_DROPIN_PATH = Some (XFile text 420 true)).
  { intros r. split; [done|]. intros detail _. split; [|eexists; cbn; by rewrite lookup_insert_eq].
    assert (Hsame : ∀ p, p ∈ MANAGED_BINARIES → text_at s2 p = text_at s p).
    { intros p Hp. unfold text_at. change (x_files s2) with (x_files s1). rewrite H1; [done|]. intros ->. by apply not_managed. }
    exists entries. split_and!; [by rewrite (measured_ext s s2)|done|].
    intros p Hp. unfold trusted. rewrite Hsame by done.
    destruct (measured_elem _ _ _ _ Hm Hp) as (text & -> & He). cbn. eapply trusts_recorded; [|done]. by eapply measured_paths. }
  apply swp_bind. eapply swp_mono; [|apply (swp_run_or_false true (λ _, True) _ _ (λ _ s', s' = s2)); done].
  intros [a|e] s' _ ->; [|apply Hend]. apply swp_ret; [done|]. apply Hend.
Qed.

Lemma swp_fapolicyd_reverify s : trusted s DISPATCH_PATH = true →
  swp (xstep false) (eq s) fapolicyd_reverify (λ r _, r = Ok true) s.
Proof.
  intros Ht. assert (Hrun : (ran (check_trust DISPATCH_PATH) s).1 = Ok (report true)) by (by rewrite <- Ht).
  unfold fapolicyd_reverify. apply swp_run_or_false; [done|done|..]; rewrite Hrun.
  - intros out [= <-]. by rewrite report_says.
  - intros [?|H]; [done|]. by destruct (H (report true)).
  - by intros e [?|[? _]].
Qed.

Lemma swp_fapolicyd_probe s : fapolicyd_converged s →
  swp (xstep false) (eq s) fapolicyd_probe (λ r _, ∃ v d, r = Ok (v, d) ∧ (v = ALREADY_CORRECT ∨ v = CONFLICT)) s.
Proof.
  intros (entries & Hm & Ht & _). unfold fapolicyd_probe, fapolicyd_installed, render_trust_content.
  apply swp_bind, swp_answers; [done|done| |by intros e [?|[=]]]. intros w _. apply swp_ret; [done|].
  destruct (negb _); [apply swp_ret; eauto|]. apply swp_answers; [done|done| |by intros e [?|[=]]]. intros d _.
  destruct (negb d); [apply swp_ret; eauto|]. apply swp_bind, swp_measure; [done| |intros e [?|H]; [done|congruence]].
  intros entries' Hm'. apply swp_ret; [done|]. rewrite Hm in Hm'. injection Hm' as <-.
  apply swp_answers; [done|done| |by intros e [?|[=]]]. intros existing [= <-]. apply swp_ret; [done|]. rewrite Ht.
  rewrite String.eqb_refl. eauto.
Qed.

(** ** Both *)

Inductive integration := Aide | Fapolicyd.

Definition integration_body (p : integration) : xbody := match p with Aide => aide_body | Fapolicyd => fapolicyd_body end.
Definition integration_drop_in (p : integration) : string := match p with Aide => CONF_DROPIN_PATH | Fapolicyd => TRUST_DROPIN_PATH end.
Definition integration_converged (p : integration) : xhost → Prop :=
  match p with Aide => aide_converged | Fapolicyd => fapolicyd_converged end.

Lemma swp_aide_probe s : aide_converged s →
  swp (xstep false) (eq s) aide_probe (λ r _, ∃ v d, r = Ok (v, d) ∧ (v = ALREADY_CORRECT ∨ v = CONFLICT)) s.
Proof.
  unfold aide_converged. intros Ht. unfold aide_probe, aide_installed.
  apply swp_bind, swp_answers; [done|done| |by intros e [?|[=]]]. intros w _. apply swp_ret; [done|].
  destruct (negb _); [apply swp_ret; eauto|]. apply swp_answers; [done|done| |by intros e [?|[=]]]. intros d _.
  destruct (negb d); [apply swp_ret; eauto|]. apply swp_answers; [done|done| |by intros e [?|[=]]]. intros existing [= <-].
  apply swp_ret; [done|]. rewrite Ht, String.eqb_refl. eauto.
Qed.

Lemma swp_aide_reverify s : aide_converged s → swp (xstep false) (eq s) aide_reverify (λ r _, r = Ok true) s.
Proof.
  unfold aide_converged. intros Ht. apply swp_answers; [done|done| |by intros e [?|[=]]]. intros existing [= <-].
  apply swp_ret; [done|]. by rewrite Ht, bool_decide_true.
Qed.

(** An integration changes no file but its own drop-in, also when its act
    fails.  When the act returns, the drop-in has the canonical text for the
    host (for fapolicyd, the size and digest of both managed binaries, and the
    database trusts both), with mode 0644 and owned by root; a reverify then says
    true, and a probe finds nothing to do. *)
Theorem integrations_converge p s t1 r1 s1 :
  runs (body_act (integration_body p)) t1 r1 → path (xstep true) s t1 s1 →
  same_but (integration_drop_in p) s s1 ∧
  ((∃ detail, r1 = Ok detail) → integration_converged p s1 ∧
    (∃ text, x_files s1 !! integration_drop_in p = Some (XFile text 420 true)) ∧
    (∀ t r s2, runs (body_reverify (integration_body p)) t r → path (xstep false) s1 t s2 → s2 = s1 ∧ r = Ok true) ∧
    ∀ t r s2, runs (body_probe (integration_body p)) t r → path (xstep false) s1 t s2 →
      s2 = s1 ∧ ∃ v d, r = Ok (v, d) ∧ (v = ALREADY_CORRECT ∨ v = CONFLICT)).
Proof.
  intros Hr Hp.
  assert (same_but (integration_drop_in p) s s1 ∧ ∀ detail, r1 = Ok detail → integration_converged p s1 ∧
    ∃ text, x_files s1 !! integration_drop_in p = Some (XFile text 420 true)) as [Hsame Hok].
  { destruct p; [|exact (swp_post _ _ _ _ _ _ _ _ Hr Hp (swp_fapolicyd_act s))].
    destruct (swp_post _ _ _ _ _ _ _ _ Hr Hp (swp_aide_act s)) as [Hs H]. split.
    - destruct Hs as [->|[x ->]]; [done|apply same_but_insert].
    - intros detail ->. destruct H as [-> _]. unfold integration_converged, aide_converged, text_at. cbn.
      rewrite lookup_insert_eq. eauto. }
  split; [done|]. intros [detail ->]. destruct (Hok _ eq_refl) as [Hc Hf]. split_and!; [done|done|..].
  - intros t r s2 Hv Hpv. apply (swp_reads _ _ (λ r, r = Ok true) _ _ _ _ Hv Hpv).
    destruct p; [by apply swp_aide_reverify|]. destruct Hc as (entries & _ & _ & Ht). apply swp_fapolicyd_reverify, Ht. by left.
  - intros t r s2 Hv Hpv. apply (swp_reads _ _ (λ r, ∃ v d, r = Ok (v, d) ∧ (v = ALREADY_CORRECT ∨ v = CONFLICT)) _ _ _ _ Hv Hpv).
    destruct p; [by apply swp_aide_probe|by apply swp_fapolicyd_probe].
Qed.
End laws.
End host.

(** ** Demonstrations *)

Definition demo_sha (text : string) : string := "sha-" +:+ text.
Definition demo_trusts (db p : string) (size : Z) (sha : string) : bool := contains (trust_line (p, size, sha)) db.
Definition demo_report (b : bool) : string := if b then "trusted: yes" else "trusted: no".

Definition demo_host (updates : bool) (db : string) : xhost :=
  XHost ["aide"; "fapolicyd"] [CONF_D_DIR; TRUST_DROPIN_DIR]
    {[DISPATCH_PATH := XFile "dispatch" 493 true; RUNSC_PATH := XFile "runsc" 493 true]} db updates true (Some "--config-check").

Definition demo_machine (config_ok : string → bool) := machine demo_sha demo_trusts demo_report config_ok 420 (λ _, "").
Definition demo_act := exec (demo_machine (λ _, true)) fapolicyd_act (demo_host true "").

Lemma demo_step config_ok faults s c : xstep demo_sha demo_trusts demo_report config_ok 420 (λ _, "") faults s c
  (demo_machine config_ok s c).1 (demo_machine config_ok s c).2.
Proof. left. symmetry. apply surjective_pairing. Qed.

Lemma demo_recorded entries p size sha : map (λ e : string * Z * string, e.1.1) entries = MANAGED_BINARIES →
  (p, size, sha) ∈ entries → demo_trusts (trust_text entries) p size sha = true.
Proof.
  destruct entries as [|e1 [|e2 []]]; try done. intros _ H. unfold demo_trusts, trust_text. cbn [map].
  change (join NL [?a; ?b; ?c]) with (a +:+ NL +:+ b +:+ NL +:+ c). apply contains_spec. apply elem_of_cons in H as [<-|<-%list_elem_of_singleton].
  - exists (MANAGED_HEADER +:+ NL), (NL +:+ trust_line e2 +:+ NL). by rewrite !app_assoc_str.
  - exists (MANAGED_HEADER +:+ NL +:+ trust_line e1 +:+ NL), NL. by rewrite !app_assoc_str.
Qed.

Lemma demo_reported b : contains "trusted: yes" (demo_report b) = b.
Proof. by destruct b. Qed.

Lemma integrations_converge_witness :
  trusted demo_sha demo_trusts demo_act.2 RUNSC_PATH = true ∧ f_mode <$> x_files demo_act.2 !! TRUST_DROPIN_PATH = Some 420%Z.
Proof.
  destruct (exec_at (xstep demo_sha demo_trusts demo_report (λ _, true) 420 (λ _, "") true) (demo_machine (λ _, true)) fapolicyd_act
    (demo_host true "") demo_act.1.1 demo_act.1.2 demo_act.2) as [Hr Hp]; [vm_compute; reflexivity|apply demo_step|].
  destruct (integrations_converge demo_sha demo_trusts demo_report (λ _, true) 420 (λ _, "") demo_recorded demo_reported Fapolicyd
    (demo_host true "") demo_act.1.1 demo_act.1.2 demo_act.2 Hr Hp) as (_ & H).
  destruct H as ((entries & _ & _ & Ht) & (text & Hf) & _); [vm_compute; eauto|].
  split; [apply Ht; right; left|]. cbn [integration_drop_in] in Hf. by rewrite Hf.
Defined.

(** A reload that failed is never made up for: the drop-in is there, so that the
    next setup has nothing to do, while nothing is trusted. *)
Lemma failed_reload_stays :
  let run := exec (demo_machine (λ _, true)) fapolicyd_act (demo_host false "") in
  is_ok run.1.2 = false ∧ (∃ d, (exec (demo_machine (λ _, true)) fapolicyd_probe run.2).1.2 = Ok (ALREADY_CORRECT, d)) ∧
  trusted demo_sha demo_trusts run.2 DISPATCH_PATH = false.
Proof. split_and!; [|eexists|]; vm_compute; reflexivity. Qed.

(** The reverify asks for the dispatcher alone. *)
Lemma runsc_not_reverified :
  let s := with_files <[RUNSC_PATH := XFile "other" 493 true]> demo_act.2 in
  (exec (demo_machine (λ _, true)) fapolicyd_reverify s).1.2 = Ok true ∧ trusted demo_sha demo_trusts s RUNSC_PATH = false.
Proof. split; vm_compute; reflexivity. Qed.

(** A drop-in that AIDE rejects fails the phase and stays, and is then correct. *)
Lemma rejected_config_stays :
  let run := exec (demo_machine (λ _, false)) aide_act (demo_host true "") in
  is_ok run.1.2 = false ∧ ∃ d, (exec (demo_machine (λ _, false)) aide_probe run.2).1.2 = Ok (ALREADY_CORRECT, d).
Proof. split; [|eexists]; vm_compute; reflexivity. Qed.
