(* ===== verification/RotatePins.v ===== *)
(** * scripts.rotate_pins: the rotation of the image and binary pins

    Resolve, verify, patch and commit, as a program over its calls: the two
    registries, [docker], [git] and [cosign], the side files on the web, and the
    source file that holds the pins.  What is printed on the way is left out. *)
From S2P Require Import Prelude PyStr Json BinaryInstall Interact Images.
From Stdlib Require Import Ascii String.
Open Scope nat_scope.
Open Scope list_scope.

(** What [subprocess.run] gives, other exceptions apart. *)
Inductive proc_result := Finished (returncode : Z) (stdout : string) | TimedOut | NoProgram.

Inductive rot_call :=
  | Proc (argv : list string)
  | Fetch (url : string)
  | ReadSource
  | WriteSource (text : string).

Definition rot_answer (c : rot_call) : Type :=
  match c with Proc _ => proc_result | Fetch _ | ReadSource => string | WriteSource _ => unit end.

Abbreviation rot := (prog rot_answer).
Definition rdo (c : rot_call) : rot (rot_answer c) := perform c.

Definition SIGNER_REGISTRY : list (string * string) :=
  [("wolfi_base", "cosign-keyless"); ("debian_trixie", "none"); ("squid", "none"); ("coredns", "none");
   ("dnsdist", "none"); ("postgres", "none"); ("busybox_musl", "docker-content-trust")].

Definition signer (key : string) : string := default "none" (assoc key SIGNER_REGISTRY).

Inductive pin_kind := ImageKind | BinaryKind.
#[export] Instance pin_kind_eq_dec : EqDecision pin_kind.
Proof. solve_decision. Defined.

Record DriftEntry := MkDrift { d_kind : pin_kind; d_key : string; d_old : string; d_new : string; verification_method : string }.

(** ** Side files *)

Definition arch_substituted_url (url_template : string) : string := replace ARCH_TOKEN "x86_64" url_template.

(** [except (URLError, OSError, ValueError)] *)
Definition fetch_failed (e : exn) : bool :=
  match e with
  | OSError | FileNotFoundError | BlockingIOError | CrossDeviceError | ValueError | JSONDecodeError => true
  | _ => false
  end.

Definition fetch_sidecar_sha512 (url_template : string) : rot (option string) :=
  catch (body ← rdo (Fetch (arch_substituted_url url_template +:+ ".sha512")); mret (head (split_ws (strip body))))
    (λ e, if fetch_failed e then mret None else raise e).

(** ** Drift *)

Section rotate.
Context (json_loads : string → option JsonValue).

Definition manifest_argv (pin : ImagePin) : list string := ["docker"; "manifest"; "inspect"; tagged pin].

(** The digest in the output of a finished inspection; [None] is skipped. *)
Definition manifest_digest (out : string) : option string :=
  match json_loads (strip out) with
  | Some (JObj m) => Some (match m !! "digest" with Some (JStr d) => d | _ => "" end)
  | _ => None
  end.

Definition image_drift (e : string * ImagePin) : rot (list DriftEntry) :=
  let '(key, pin) := e in
  result ← rdo (Proc (manifest_argv pin));
  match result with
  | NoProgram => raise FileNotFoundError
  | TimedOut => mret []
  | Finished rc out =>
      if negb (Z.eqb rc 0) then mret []
      else match manifest_digest out with
      | None => mret []
      | Some current =>
          mret (if nonempty current && negb (String.eqb current (digest pin))
                then [MkDrift ImageKind key (digest pin) current (signer key)] else [])
      end
  end.

Definition binary_drift (e : string * BinaryPin) : rot (list DriftEntry) :=
  let '(key, pin) := e in
  current ← fetch_sidecar_sha512 (url_template pin);
  mret match (current : option string) with
  | None => []
  | Some current =>
      if nonempty current && negb (String.eqb current (bp_sha512 pin))
      then [MkDrift BinaryKind key (bp_sha512 pin) current "sha512-sidecar"] else []
  end.

(** A loop that collects. *)
Fixpoint collect {A} (f : A → rot (list DriftEntry)) (l : list A) : rot (list DriftEntry) :=
  match l with
  | [] => mret []
  | x :: l => found ← f x; rest ← collect f l; mret (found ++ rest)%list
  end.

(** [BINARY_REGISTRY.items()] *)
Definition BINARY_ITEMS : list (string * BinaryPin) := omap (λ k, pair k <$> BINARY_REGISTRY k) ["runsc"].

Definition resolve_drift (kind : pin_kind) : rot (list DriftEntry) :=
  match kind with ImageKind => collect image_drift IMAGE_REGISTRY | BinaryKind => collect binary_drift BINARY_ITEMS end.

(** ** Guards *)

Definition GIT_STATUS : list string := ["git"; "status"; "--porcelain"].

Definition check_dirty_tree : rot unit :=
  result ← rdo (Proc GIT_STATUS);
  match result with
  | Finished _ out => if nonempty (strip out) then raise (Exit 1) else mret tt
  | _ => raise FileNotFoundError
  end.

Definition cosign_argv (pin : ImagePin) (e : DriftEntry) : list string := ["cosign"; "verify"; ref pin +:+ "@" +:+ d_new e].

Definition verify_signature (e : DriftEntry) : rot bool :=
  match d_kind e with
  | BinaryKind =>
      pin ← lift (registry_pin (d_key e));
      refetched ← fetch_sidecar_sha512 (url_template pin);
      mret (bool_decide ((refetched : option string) = Some (d_new e)))
  | ImageKind =>
      let method := signer (d_key e) in
      if String.eqb method "none" then mret true
      else if String.eqb method "cosign-keyless" then
        pin ← lift (image (d_key e));
        result ← rdo (Proc (cosign_argv pin e));
        mret match result with Finished rc _ => Z.eqb rc 0 | TimedOut | NoProgram => false end
      else mret (String.eqb method "docker-content-trust")
  end.

(** The first entry that is not verified ends it. *)
Fixpoint verify_all (entries : list DriftEntry) : rot bool :=
  match entries with
  | [] => mret true
  | e :: entries => good ← verify_signature e; if (good : bool) then verify_all entries else mret false
  end.

(** ** The patch *)

Definition patched (entries : list DriftEntry) (content : string) : string :=
  foldl (λ content e, replace (d_old e) (d_new e) content) content entries.

Definition patch_hydration (entries : list DriftEntry) : rot unit :=
  content ← rdo ReadSource; rdo (WriteSource (patched entries content)).

(** [check=True] *)
Definition checked (argv : list string) : rot unit :=
  result ← rdo (Proc argv);
  match result with
  | Finished rc _ => if Z.eqb rc 0 then mret tt else raise CalledProcessError
  | _ => raise FileNotFoundError
  end.

Definition GIT_ADD : list string := ["git"; "add"; "core/hydration.py"].
Definition commit_argv (entries : list DriftEntry) : list string :=
  ["git"; "commit"; "-m"; "chore(deps): rotate pins (" +:+ join ", " (map d_key entries) +:+ ")"].

(** ** The command line *)

Record rot_flags := RotFlags { dry_run : bool; auto_commit : bool }.

(** Options may be abbreviated to an unambiguous prefix. *)
Definition names_option (a option : string) : bool := String.prefix a option && (2 <? str_len a).

(** argparse: help ends with 0, an error with 2; what is unknown is reported at
    the end. *)
Fixpoint parse_args (args : list string) (f : rot_flags) (unknown : bool) : res rot_flags :=
  match args with
  | [] => if unknown then Err (Exit 2) else Ok f
  | a :: args =>
      if String.eqb a "-h" || names_option a "--help" then Err (Exit 0)
      else if names_option a "--dry-run" then
        if auto_commit f then Err (Exit 2) else parse_args args (RotFlags true false) unknown
      else if names_option a "--auto-commit" then
        if dry_run f then Err (Exit 2) else parse_args args (RotFlags false true) unknown
      else parse_args args f true
  end.

Definition resolve_all : rot (list DriftEntry) :=
  images ← resolve_drift ImageKind; binaries ← resolve_drift BinaryKind; mret (images ++ binaries)%list.

Definition main (args : option (list string)) : rot Z :=
  f ← lift (parse_args (default [] args) (RotFlags false false) false);
  entries ← resolve_all;
  if bool_decide (entries = []) then mret 0%Z
  else if dry_run f then mret 0%Z
  else
    good ← (if auto_commit f then verify_all entries else mret true);
    if negb good then mret 1%Z
    else
      _ ← check_dirty_tree;
      _ ← patch_hydration entries;
      _ ← when (auto_commit f) (_ ← checked GIT_ADD; checked (commit_argv entries));
      mret 0%Z.

(** ** What a run does *)

Definition is_change (c : rot_call) : bool :=
  match c with WriteSource _ => true | Proc argv => bool_decide (take 2 argv = ["git"; "add"] ∨ take 2 argv = ["git"; "commit"]) | _ => false end.

Abbreviation harmless m := (calls_in (λ c, is_change c = false) m).

Lemma fetch_harmless u : harmless (fetch_sidecar_sha512 u).
Proof. unfold fetch_sidecar_sha512. by calls_tac. Qed.

Lemma collect_harmless {A} (f : A → rot (list DriftEntry)) l : (∀ x, harmless (f x)) → harmless (collect f l).
Proof. intros Hf. induction l as [|x l IH]; cbn [collect]; calls_tac; auto. Qed.

Lemma resolve_harmless : harmless resolve_all.
Proof.
  unfold resolve_all, resolve_drift. calls_tac; apply collect_harmless; intros [key pin]; [unfold image_drift|unfold binary_drift].
  - by calls_tac.
  - apply calls_in_bind; [apply fetch_harmless|]. intros. by calls_tac.
Qed.

Lemma verify_harmless entries : harmless (verify_all entries).
Proof.
  induction entries as [|e entries IH]; cbn [verify_all]; [done|]. apply calls_in_bind; [|by intros []].
  unfold verify_signature. destruct (d_kind e); [by calls_tac|]. apply calls_in_bind; [done|]. intros pin.
  apply calls_in_bind; [apply fetch_harmless|done].
Qed.

Lemma dirty_harmless : harmless check_dirty_tree.
Proof. unfold check_dirty_tree. by calls_tac. Qed.

Lemma runs_proc argv t (a : proc_result) : runs (rdo (Proc argv)) t (Ok a) → t = [@Ev _ rot_answer (Proc argv) (Ok a)].
Proof. exact (runs_perform (answer := rot_answer) (Proc argv) t a). Qed.

Lemma runs_fetch url t (a : string) : runs (rdo (Fetch url)) t (Ok a) → t = [@Ev _ rot_answer (Fetch url) (Ok a)].
Proof. exact (runs_perform (answer := rot_answer) (Fetch url) t a). Qed.

Lemma runs_harmless {A B} (m : rot A) (f : A → rot B) t r : harmless m → runs (m ≫= f) t r →
  Forall (λ e, is_change (ev_call e) = false) t ∨
  ∃ t1 t2 a, t = t1 ++ t2 ∧ Forall (λ e, is_change (ev_call e) = false) t1 ∧ runs m t1 (Ok a) ∧ runs (f a) t2 r.
Proof.
  intros Hm [(e & _ & H)|(t1 & t2 & a & -> & H1 & H2)]%runs_bind.
  - left. by apply (runs_calls_in (λ c, is_change c = false) _ _ _ H).
  - right. exists t1, t2, a. split_and!; [done|by apply (runs_calls_in (λ c, is_change c = false) _ _ _ H1)|done|done].
Qed.

(** *** What is resolved *)

(** Where the new value of an entry comes from. *)
Definition resolved (t : trace rot_answer) (e : DriftEntry) : Prop :=
  d_new e ≠ "" ∧ d_new e ≠ d_old e ∧
  match d_kind e with
  | ImageKind => ∃ pin out, (d_key e, pin) ∈ IMAGE_REGISTRY ∧ d_old e = digest pin ∧
      @Ev _ rot_answer (Proc (manifest_argv pin)) (Ok (Finished 0 out)) ∈ t ∧ manifest_digest out = Some (d_new e)
  | BinaryKind => ∃ pin body, (d_key e, pin) ∈ BINARY_ITEMS ∧ d_old e = bp_sha512 pin ∧
      @Ev _ rot_answer (Fetch (arch_substituted_url (url_template pin) +:+ ".sha512")) (Ok body) ∈ t ∧
      head (split_ws (strip body)) = Some (d_new e)
  end.

Lemma resolved_mono t1 t t2 e : resolved t e → resolved (t1 ++ t ++ t2) e.
Proof.
  intros (H1 & H2 & H). split_and!; [done|done|]. destruct (d_kind e);
    destruct H as (pin & x & Hp & Ho & Ht & Hx); exists pin, x; (split_and!; [done|done| |done]); rewrite !elem_of_app; auto.
Qed.

Lemma collect_resolved {A} (f : A → rot (list DriftEntry)) l t entries :
  (∀ x t es, x ∈ l → runs (f x) t (Ok es) → ∀ e, e ∈ es → resolved t e) →
  runs (collect f l) t (Ok entries) → ∀ e, e ∈ entries → resolved t e.
Proof.
  intros Hf. revert t entries; induction l as [|x l IH]; intros t entries Hr e He; cbn [collect] in Hr.
  - apply runs_Ret in Hr as [_ [= ->]]. by apply elem_of_nil in He.
  - apply runs_bind_Ok in Hr as (t1 & t2 & es & -> & Hx & (t3 & t4 & rest & -> & Hl & [-> [= ->]]%runs_Ret)%runs_bind_Ok).
    rewrite app_nil_r. apply elem_of_app in He as [He|He].
    + apply (resolved_mono [] t1). by eapply Hf; [left|..].
    + rewrite <- (app_nil_r t3). apply resolved_mono. eapply IH; [|exact Hl|done]. intros y t es' Hy. apply Hf. by right.
Qed.

Lemma image_resolved x t es : x ∈ IMAGE_REGISTRY → runs (image_drift x) t (Ok es) → ∀ e, e ∈ es → resolved t e.
Proof.
  destruct x as [key pin]. intros Hin (t1 & t2 & result & -> & ->%runs_proc & Hr)%runs_bind_Ok e He.
  destruct result as [rc out| |]; [|by apply runs_Ret in Hr as [_ [= ->]]; apply elem_of_nil in He|by apply runs_Ret in Hr as [_ ?]].
  destruct (Z.eqb_spec rc 0) as [->|]; cbn [negb] in Hr; [|by apply runs_Ret in Hr as [_ [= ->]]; apply elem_of_nil in He].
  destruct (manifest_digest out) as [current|] eqn:Hm; [|by apply runs_Ret in Hr as [_ [= ->]]; apply elem_of_nil in He].
  apply runs_Ret in Hr as [-> [= ->]]. destruct (nonempty current) eqn:Hn; [|by apply elem_of_nil in He].
  destruct (String.eqb_spec current (digest pin)) as [|Hne]; cbn [negb andb] in He; [by apply elem_of_nil in He|].
  apply list_elem_of_singleton in He as ->. split_and!; cbn; [by destruct current|done|].
  exists pin, out. by split_and!; [..|left|].
Qed.

Lemma binary_resolved x t es : x ∈ BINARY_ITEMS → runs (binary_drift x) t (Ok es) → ∀ e, e ∈ es → resolved t e.
Proof.
  destruct x as [key pin]. intros Hin (t1 & t2 & current & -> & Hc & [-> [= ->]]%runs_Ret)%runs_bind_Ok e He.
  destruct current as [current|]; [|by apply elem_of_nil in He].
  destruct (nonempty current) eqn:Hn; [|by apply elem_of_nil in He].
  destruct (String.eqb_spec current (bp_sha512 pin)) as [|Hne]; cbn [negb andb] in He; [by apply elem_of_nil in He|].
  apply list_elem_of_singleton in He as ->. split_and!; cbn; [by destruct current|done|].
  unfold fetch_sidecar_sha512 in Hc. apply runs_catch in Hc as [(a & [= <-] & Hc)|(t2 & t3 & e & -> & _ & Hc)].
  2: { destruct (fetch_failed e); by apply runs_Ret in Hc as [_ ?]. }
  apply runs_bind_Ok in Hc as (t2 & t3 & body & -> & ->%runs_fetch & [-> [= Hh]]%runs_Ret).
  exists pin, body. by split_and!; [..|left|].
Qed.

Lemma resolve_sound t entries : runs resolve_all t (Ok entries) → ∀ e, e ∈ entries → resolved t e.
Proof.
  unfold resolve_all, resolve_drift.
  intros (t1 & t2 & images & -> & Hi & (t3 & t4 & binaries & -> & Hb & [-> [= ->]]%runs_Ret)%runs_bind_Ok)%runs_bind_Ok e He.
  rewrite app_nil_r. apply elem_of_app in He as [He|He].
  - apply (resolved_mono [] t1). eapply collect_resolved; [|exact Hi|done]. apply image_resolved.
  - rewrite <- (app_nil_r t3). apply resolved_mono. eapply collect_resolved; [|exact Hb|done]. apply binary_resolved.
Qed.

Lemma verify_all_each entries t : runs (verify_all entries) t (Ok true) → ∀ e, e ∈ entries →
  ∃ t1 te t2, t = t1 ++ te ++ t2 ∧ runs (verify_signature e) te (Ok true).
Proof.
  revert t; induction entries as [|x entries IH]; intros t; [by intros _ e ?%elem_of_nil|]. cbn [verify_all].
  intros (t1 & t2 & good & -> & Hx & Hr)%runs_bind_Ok e. destruct good; [|by apply runs_Ret in Hr as [_ ?]].
  intros [->|He]%elem_of_cons; [by exists [], t1, t2|].
  destruct (IH _ Hr e He) as (u1 & te & u2 & -> & H). exists (t1 ++ u1), te, u2. by rewrite <- app_assoc.
Qed.

(** The calls that change something, in their order. *)
Definition change_plan (f : rot_flags) (entries : list DriftEntry) (content : string) : list rot_call :=
  WriteSource (patched entries content) :: (if auto_commit f then [Proc GIT_ADD; Proc (commit_argv entries)] else []).

Lemma checked_made argv t r : runs (checked argv) t r → made t = [Proc argv].
Proof.
  intros (a & t' & -> & Hr)%runs_Do. destruct a as [[rc out| |]|e]; try (apply runs_Ret in Hr as [-> _]; done).
  cbn in Hr. destruct (Z.eqb rc 0); by apply runs_Ret in Hr as [-> _].
Qed.

Lemma commit_made f entries t r :
  runs (when (auto_commit f) (_ ← checked GIT_ADD; checked (commit_argv entries))) t r →
  made t `prefix_of` (if auto_commit f then [Proc GIT_ADD; Proc (commit_argv entries)] else []) ∧
  (r = Ok tt → made t = if auto_commit f then [Proc GIT_ADD; Proc (commit_argv entries)] else []).
Proof.
  destruct (auto_commit f); cbn [when]; [|by intros [-> _]%runs_Ret].
  intros [(e & -> & H)|(t1 & t2 & [] & -> & H1 & H2)]%runs_bind.
  - rewrite (checked_made _ _ _ H). split; [by eexists|done].
  - rewrite made_app, (checked_made _ _ _ H1), (checked_made _ _ _ H2). by split.
Qed.

Lemma dirty_tree_clean t : runs check_dirty_tree t (Ok tt) →
  ∃ rc out, t = [@Ev _ rot_answer (Proc GIT_STATUS) (Ok (Finished rc out))] ∧ strip out = "".
Proof.
  intros (t1 & t2 & result & -> & ->%runs_proc & Hr)%runs_bind_Ok.
  destruct result as [rc out| |]; [|by apply runs_Ret in Hr as [_ ?]..].
  destruct (nonempty (strip out)) eqn:Hn; apply runs_Ret in Hr as [-> ?]; [done|].
  exists rc, out. split; [done|]. by destruct (strip out).
Qed.

(** A rotation changes nothing, or it is no dry run and found drift; every
    new value is the answer that the registry or the side file of its pin gave
    in this run, and differs from the pin; with [--auto-commit] every entry was
    verified; [git status] then printed nothing; and only then is the source
    read and its patched text written, and, with [--auto-commit] alone, added
    and committed.  Such a run that ends with 0 did all of it. *)
Theorem rotation_guarded args t r : runs (main args) t r →
  Forall (λ e, is_change (ev_call e) = false) t ∨
  ∃ f entries content tr tv rc out tail,
    parse_args (default [] args) (RotFlags false false) false = Ok f ∧ dry_run f = false ∧ entries ≠ [] ∧
    t = tr ++ tv ++ @Ev _ rot_answer (Proc GIT_STATUS) (Ok (Finished rc out)) ::
        @Ev _ rot_answer ReadSource (Ok content) :: tail ∧
    (∀ e, e ∈ entries → resolved tr e ∧ (auto_commit f = true →
       ∃ t1 te t2, tv = t1 ++ te ++ t2 ∧ runs (verify_signature e) te (Ok true))) ∧
    strip out = "" ∧ made tail `prefix_of` change_plan f entries content ∧
    (r = Ok 0%Z → made tail = change_plan f entries content).
Proof.
  unfold main. destruct (parse_args _ _ _) as [f|e]; [|intros [-> _]%runs_Ret; by left].
  change (lift (Ok f) ≫= ?k) with (k f). cbv beta.
  intros [?|(tr & t2 & entries & -> & Hc1 & Hr & Hm)]%(runs_harmless _ _ _ _ resolve_harmless); [by left|].
  case_bool_decide as Hne; [apply runs_Ret in Hm as [-> _]; left; by rewrite app_nil_r|].
  destruct (dry_run f) eqn:Hd; [apply runs_Ret in Hm as [-> _]; left; by rewrite app_nil_r|].
  apply runs_harmless in Hm as [?|(tv & t3 & good & -> & Hc2 & Hv & Hm)];
    [by left; apply Forall_app| |destruct (auto_commit f); [apply verify_harmless|done]].
  destruct good; cbn [negb] in Hm; [|apply runs_Ret in Hm as [-> _]; left; rewrite app_nil_r; by apply Forall_app].
  apply (runs_harmless _ _ _ _ dirty_harmless) in Hm as [?|(td & t4 & [] & -> & Hc3 & Hg & Hm)]; [by left; rewrite !Forall_app|].
  apply dirty_tree_clean in Hg as (rc & out & -> & Hs).
  unfold patch_hydration in Hm. apply runs_bind in Hm as [(e & -> & Hm)|(tp & tc & [] & -> & Hp & Hm)].
  - apply runs_Do in Hm as (a & tw & -> & Hm). destruct a as [content|e']; cbn in Hm.
    + right. apply runs_Do in Hm as (a & t5 & -> & Hm). destruct a as [[]|e']; [by apply runs_Ret in Hm as [_ ?]|].
      apply runs_Ret in Hm as [-> _]. exists f, entries, content, tr, tv, rc, out. eexists.
      split_and!; [done|done|done|reflexivity| |done|by eexists|done]. intros x Hx. split; [by eapply resolve_sound|].
      intros Ha. rewrite Ha in Hv. by eapply verify_all_each.
    + apply runs_Ret in Hm as [-> _]. left. rewrite !Forall_app. split_and!; [done..|]. by repeat constructor.
  - right. apply runs_bind_Ok in Hp as (t5 & t6 & content & -> & H5 & H6).
    apply (runs_perform (answer := rot_answer) ReadSource) in H5. subst t5.
    apply (runs_perform (answer := rot_answer) (WriteSource _)) in H6. subst t6.
    exists f, entries, content, tr, tv, rc, out. eexists.
    assert (Hrest : made tc `prefix_of` (if auto_commit f then [Proc GIT_ADD; Proc (commit_argv entries)] else []) ∧
      (r = Ok 0%Z → made tc = if auto_commit f then [Proc GIT_ADD; Proc (commit_argv entries)] else [])).
    { apply runs_bind in Hm as [(e & -> & Hm)|(t7 & t8 & [] & -> & Hm & [-> ->]%runs_Ret)].
      - split; [by eapply commit_made|done].
      - rewrite app_nil_r. apply commit_made in Hm as [? Hm]. split; [done|]. intros _. by apply Hm. }
    split_and!; [done|done|done|reflexivity| |done|exact (prefix_cons _ _ _ (proj1 Hrest))|
      intros H; exact (f_equal (cons _) (proj2 Hrest H))].
    intros x Hx. split; [by eapply resolve_sound|]. intros Ha. rewrite Ha in Hv. by eapply verify_all_each.
Qed.
End rotate.

(** ** Demonstrations *)

(** A host where one side file answers [sidecar], nothing else drifts, and [git
    status] ends with [rc]. *)
Definition rot_host (sidecar : string) (rc : Z) (t : trace rot_answer) (c : rot_call) : res (rot_answer c) :=
  match c with
  | Proc argv => Ok (if bool_decide (argv = GIT_STATUS) then Finished rc "" else
                     if String.eqb (default "" (head argv)) "git" then Finished 0 "" else Finished 1 "")
  | Fetch _ => Ok sidecar
  | ReadSource => Ok ("sha512=" +:+ DQ +:+ runsc_sha512 +:+ DQ)
  | WriteSource _ => Ok tt
  end.

Definition no_json (s : string) : option JsonValue := None.
Definition rot_run (sidecar : string) (rc : Z) (args : option (list string)) := run_env (rot_host sidecar rc) (main no_json args) [].

Definition written (t : trace rot_answer) : list string :=
  omap (λ e, match ev_call e with WriteSource text => Some text | _ => None end) t.

Lemma rotation_guarded_witness : ∃ e, e ∈ (rot_run "abc  runsc" 0 (Some ["--auto-commit"])).1 ∧
  is_change (ev_call e) = true ∧ (rot_run "abc  runsc" 0 (Some ["--auto-commit"])).2 = Ok 0%Z.
Proof.
  destruct (rotation_guarded no_json (Some ["--auto-commit"]) (rot_run "abc  runsc" 0 (Some ["--auto-commit"])).1
    (rot_run "abc  runsc" 0 (Some ["--auto-commit"])).2) as [H|(f & entries & content & tr & tv & rc & out & tail & _ & _ & _ & Ht & _ & _ & _ & Hall)].
  - apply run_env_runs.
  - exfalso. assert (existsb (λ e, is_change (ev_call e)) (rot_run "abc  runsc" 0 (Some ["--auto-commit"])).1 = true) as E by (vm_compute; reflexivity).
    apply existsb_exists in E as (e & He & Hc). rewrite Forall_forall in H. rewrite (H e) in Hc; [done|by apply list_elem_of_In].
  - specialize (Hall ltac:(vm_compute; reflexivity)). destruct tail as [|e tail]; [done|]. exists e. split_and!.
    + rewrite Ht, !elem_of_app, !elem_of_cons. tauto.
    + injection Hall as -> _. done.
    + vm_compute. reflexivity.
Defined.

(** Nothing is read from the command line when the script is run: the pins are
    written whatever the flags were, and nothing has been verified. *)
Lemma script_takes_no_flags :
  parse_args (default [] None) (RotFlags false false) false = Ok (RotFlags false false) ∧
  written (rot_run "abc  runsc" 0 None).1 = ["sha512=" +:+ DQ +:+ "abc" +:+ DQ].
Proof. split; vm_compute; reflexivity. Qed.

(** A side file is not looked at further: its first word is put into the source,
    also after the verification. *)
Lemma sidecar_is_source :
  written (rot_run ("0" +:+ DQ +:+ ",evil()," +:+ DQ) 0 (Some ["--auto-commit"])).1 =
    ["sha512=" +:+ DQ +:+ "0" +:+ DQ +:+ ",evil()," +:+ DQ +:+ DQ].
Proof. vm_compute. reflexivity. Qed.

(** A [git status] that fails counts as a clean tree. *)
Lemma failed_status_is_clean : written (rot_run "abc  runsc" 128 None).1 ≠ [].
Proof. vm_compute. discriminate. Qed.
