(* ===== verification/SetupReport.v ===== *)
(** * core.setup.cli_flow: the lines of the plan and of the apply pass

    What the two passes print: a line for each phase, the refusals that block an
    apply, and the remediation with the final counts. *)
From S2P Require Import Prelude PyStr HostConfig PhaseRunner SetupFlow Images.
From Stdlib Require Import Ascii String.
Open Scope nat_scope.
Open Scope list_scope.

(** [PhaseResult.value] *)
Definition result_value (r : PhaseResult) : string :=
  match r with
  | ALREADY_CORRECT => "already-correct" | MISSING => "missing" | DRIFT => "drift" | CONFLICT => "conflict"
  | FAIL => "fail" | BLOCKED_BY => "blocked-by" | SKIPPED => "skipped"
  end.

Definition PLAN_GLYPH (r : PhaseResult) : string :=
  match r with
  | ALREADY_CORRECT | SKIPPED => "✓" | MISSING | DRIFT => "⊙" | BLOCKED_BY => "⚠" | CONFLICT | FAIL => "✗"
  end.

(** What is not listed was acted on. *)
Definition APPLY_GLYPH (r : PhaseResult) : string :=
  match r with
  | SKIPPED => "SKIP" | CONFLICT => "REFUSED" | FAIL => "FAIL" | BLOCKED_BY => "BLOCKED-BY" | _ => "OK"
  end.

Section report.
Context {W : Type} (phases : list (Phase W)).

(** The dict of names; the last phase of an id counts. *)
Definition name_by_id (id : string) : string :=
  default id (assoc id (reverse (map (λ p, (phase_id p, phase_name p)) phases))).

Definition render_plan (outcomes : list PhasePlanOutcome) : list string :=
  map (λ o, "  " +:+ PLAN_GLYPH (po_result o) +:+ " " +:+ name_by_id (po_id o) +:+ " — " +:+ po_detail o) outcomes.

Definition refusal_lines (outcomes : list PhasePlanOutcome) : list string :=
  map (λ o, "  ✗ " +:+ name_by_id (po_id o) +:+ ": " +:+ po_detail o)
    (List.filter (λ o, plan_refusal (po_result o)) outcomes).

Definition render_apply (outcomes : list PhaseApplyOutcome) : list string :=
  map (λ o, "  [" +:+ APPLY_GLYPH (ao_result o) +:+ "] " +:+ name_by_id (ao_id o) +:+ " — " +:+ ao_detail o) outcomes.

Definition needs_remedy (r : PhaseResult) : bool := match r with FAIL | BLOCKED_BY => true | _ => false end.

Definition is_conflict (r : PhaseResult) : bool := match r with CONFLICT => true | _ => false end.

Definition apply_remediation_lines (outcomes : list PhaseApplyOutcome) : list string :=
  map (λ o, "  ✗ " +:+ name_by_id (ao_id o) +:+ " (" +:+ result_value (ao_result o) +:+ "): " +:+ ao_detail o)
    (List.filter (λ o, needs_remedy (ao_result o)) outcomes).

Definition summarize_apply (outcomes : list PhaseApplyOutcome) : list string :=
  let remediation := apply_remediation_lines outcomes in
  render_apply outcomes ++
  (if bool_decide (remediation = []) then [] else ["" ; "Remediation:"] ++ remediation) ++
  [""; apply_summary_line (tally_apply outcomes)].

(** ** The lines agree with the counts *)

Lemma tally_plan_refused outcomes t :
  pt_refused (foldl tally_plan_one t outcomes) = pt_refused t + List.length (List.filter (λ o, plan_refusal (po_result o)) outcomes).
Proof.
  revert t; induction outcomes as [|o outcomes IH]; intros [c m b r]; cbn [foldl List.filter]; [cbn; lia|].
  rewrite IH. cbn [tally_plan_one]. destruct (po_result o); cbn; lia.
Qed.

Lemma tally_apply_counts outcomes t :
  at_failed (foldl tally_apply_one t outcomes) + at_blocked (foldl tally_apply_one t outcomes) =
    at_failed t + at_blocked t + List.length (List.filter (λ o, needs_remedy (ao_result o)) outcomes) ∧
  at_refused (foldl tally_apply_one t outcomes) = at_refused t + List.length (List.filter (λ o, is_conflict (ao_result o)) outcomes).
Proof.
  revert t; induction outcomes as [|o outcomes IH]; intros [c a b r f]; cbn [foldl List.filter]; [cbn; lia|].
  destruct (IH (tally_apply_one (MkApplyTally c a b r f) o)) as [-> ->]. cbn [tally_apply_one].
  destruct (ao_result o), (ao_reverified o); cbn; lia.
Qed.

Lemma filter_nil_existsb {A} (f : A → bool) l : List.filter f l = [] ↔ existsb f l = false.
Proof. induction l as [|x l IH]; cbn; [done|]. by destruct (f x). Qed.

(** The gate refuses exactly when a refusal is printed, and one is printed for
    each phase that the summary counts as refused; the plan has a line for every
    phase.  After the apply pass every failed or blocked phase of the summary
    has its remediation, and the command fails exactly when the summary counts
    a failed, blocked or refused phase. *)
Theorem report_agrees plan is_tty yes extra outcomes :
  (gate_outcome (decide_gate plan is_tty yes extra) = REFUSED ↔ refusal_lines plan ≠ []) ∧
  List.length (refusal_lines plan) = pt_refused (tally_plan plan) ∧ List.length (render_plan plan) = List.length plan ∧
  List.length (apply_remediation_lines outcomes) = at_failed (tally_apply outcomes) + at_blocked (tally_apply outcomes) ∧
  (apply_pass_failed outcomes = true ↔
    0 < at_failed (tally_apply outcomes) + at_blocked (tally_apply outcomes) + at_refused (tally_apply outcomes)).
Proof.
  assert (Hr : List.length (refusal_lines plan) = pt_refused (tally_plan plan)).
  { unfold refusal_lines, tally_plan. by rewrite length_map, tally_plan_refused. }
  destruct (tally_apply_counts outcomes (MkApplyTally 0 0 0 0 0)) as [H1 H2].
  change (foldl tally_apply_one _ outcomes) with (tally_apply outcomes) in H1, H2. cbn in H1, H2.
  split_and!; [|done|by apply length_map|unfold apply_remediation_lines; by rewrite length_map|].
  - unfold decide_gate. destruct (refusal_lines plan) as [|x l] eqn:E; cbn in Hr; rewrite <- Hr; cbn.
    + split; [|done]. by repeat case_match.
    + done.
  - rewrite H1, H2. unfold apply_pass_failed. clear. induction outcomes as [|o outcomes IH]; cbn; [split; [done|lia]|].
    destruct (ao_result o); cbn in *; rewrite ?IH; (split; [lia || done|lia || done]).
Qed.
End report.

(** A phase that is refused in the apply pass fails the command, with no line of
    remediation. *)
Lemma refused_without_remedy : let outcomes := [MkApply "l6" CONFLICT "operator runtime" false] in
  apply_pass_failed outcomes = true ∧ apply_remediation_lines (W := unit) [] outcomes = [].
Proof. done. Qed.
