(* ===== verification/ActionExec.v ===== *)
(** * core.actions: the execution of an action

    The [execute] methods, their preview lines, and the compose action's two
    faces.  [subprocess.run] of an access-list command, [os.chown] and
    [os.chmod] answer from functions; what was done is logged, beside the audit
    records of the dispatched operations. *)
From S2P Require Import Prelude PyStr HostConfig Executor ShellWords Dispatch Invoke Recipes.
From Stdlib Require Import Ascii String.
Open Scope nat_scope.

Inductive did := Ran (argv : list string) | Chowned (path : string) (gid : Z) | Chmodded (path : string) (mode : Z).

(** A finished command, or one that could not be started. *)
Inductive command_result := Done (returncode : Z) (stderr : option string) | NotStarted (e : exn).

Abbreviation act_log := (list did * list audit_record)%type.

Record ActionContext := MkActionContext {
  ctx_host_user : string;
  ctx_instance_dir : string;
  ctx_host_config : option HostConfig;
  ctx_docker_execution_mode : DockerExecutionMode
}.

(** What the callers leave out. *)
Definition action_context (host_user instance_dir : string) : ActionContext :=
  MkActionContext host_user instance_dir None DEFAULT_PROVISIONING_MODE.

Definition is_os_error (e : exn) : bool :=
  match e with OSError | FileNotFoundError | BlockingIOError | CrossDeviceError => true | _ => false end.

(** ** Preview lines *)

Definition describe_mkdir (parent : string) (leaves : list string) (uid gid : Z) : string :=
  "    helper-mkdir+chown " +:+ parent +:+ "/{" +:+ join ", " leaves +:+ "} → " +:+ str_of_Z uid +:+ ":" +:+ str_of_Z gid.

Definition describe_cp (parent : string) (files : list string) (uid gid mode : Z) : string :=
  "    helper-cp+chown " +:+ parent +:+ "/{" +:+ join ", " files +:+ "} → " +:+ str_of_Z uid +:+ ":" +:+ str_of_Z gid +:+
  " " +:+ fmt_o mode.

Definition describe_line (a : Action) : string :=
  match a with
  | HelperMkdirChownAction parent leaves uid gid => describe_mkdir parent leaves uid gid
  | HelperCpChownAction parent files uid gid mode => describe_cp parent files uid gid mode
  | a => default "" (describe a)
  end.

Section execute.
Context (h : host_env) (e : dispatch_env) (environ_path : option string)
  (spawn : list string → gmap string string → bool → spawn_outcome).
Context (command : list string → command_result) (os_chown : string → Z → res unit) (os_chmod : string → Z → res unit).
Context (exc_str : exn → string) (fresh : string).

Definition render_command (a : Action) (c : HostConfig) : res string :=
  match a with
  | ComposeUpAction inst => argv ← build_invocation h e (op_value COMPOSE_UP) [inst] c; Ok (shlex_join argv)
  | a => Ok (describe_line a)
  end.

Definition log_did (d : did) : eff act_log unit := λ s, (Ok tt, ((s.1 ++ [d])%list, s.2)).
Definition audited {A} (m : eff (list audit_record) A) : eff act_log A := λ s, let '(r, l) := m s.2 in (r, (s.1, l)).

Definition fault (msg : string) : exn := SandboxExecutionError msg false.

(** [exc.stderr.strip() if exc.stderr else f"exit {returncode}"] *)
Definition stderr_detail (rc : Z) (stderr : option string) : string :=
  match stderr with Some s => if nonempty s then strip s else "exit " +:+ str_of_Z rc | None => "exit " +:+ str_of_Z rc end.

(** [subprocess.run(command, check=True)]; only its failure is wrapped. *)
Definition run_acl (argv : list string) (msg : string) : eff act_log unit :=
  match command argv with
  | Done rc stderr =>
      _ ← log_did (Ran argv);
      if Z.eqb rc 0 then mret tt else throw (fault (msg +:+ ": " +:+ stderr_detail rc stderr))
  | NotStarted x => throw x
  end.

(** [try: os...  except OSError as exc: raise SandboxExecutionError] *)
Definition os_call (r : res unit) (d : did) (msg : string) : eff act_log unit :=
  match r with
  | Ok _ => log_did d
  | Err x => throw (if is_os_error x then fault (msg +:+ ": " +:+ exc_str x) else x)
  end.

Definition execute_grant (argv : list string) (description : string) : eff act_log unit :=
  run_acl argv ("ACL grant failed for " +:+ description).

Definition execute_revoke (argv : list string) (description : string) : eff act_log unit :=
  match command argv with
  | NotStarted x => throw (if is_os_error x then fault ("ACL revoke OS error for " +:+ description +:+ ": " +:+ exc_str x) else x)
  | Done _ _ => run_acl argv ("ACL revoke warning for " +:+ description)
  end.

Definition execute_mkdir (parent : string) (leaves : list string) (uid gid : Z) (ctx : ActionContext) : eff act_log unit :=
  audited (helper_mkdir_chown_dirs h e environ_path spawn fresh (ctx_host_user ctx) parent leaves uid gid
             (ctx_docker_execution_mode ctx)).

Definition execute_cp (parent : string) (files : list string) (uid gid mode : Z) (ctx : ActionContext) : eff act_log unit :=
  audited (helper_chown_files h e environ_path spawn fresh (ctx_host_user ctx) parent files uid gid mode
             (ctx_docker_execution_mode ctx)).

Definition execute_workspace (ws : string) (gid : Z) (step : SharedGroupStep) (argv : list string) : eff act_log unit :=
  match step with
  | chgrp => os_call (os_chown ws gid) (Chowned ws gid) ("Workspace chgrp failed for " +:+ ws)
  | chmod_2770 => os_call (os_chmod ws 1528) (Chmodded ws 1528) ("Workspace chmod failed for " +:+ ws)
  | setfacl_effective => run_acl argv ("Workspace shared-group effective ACL failed for " +:+ ws)
  | setfacl_default => run_acl argv ("Workspace shared-group default ACL failed for " +:+ ws)
  end.

Definition execute_compose (inst : string) (ctx : ActionContext) : eff act_log unit :=
  match ctx_host_config ctx with
  | None => throw ValueError
  | Some c => _ ← audited (invoke h e environ_path spawn fresh (op_value COMPOSE_UP) [inst] c); mret tt
  end.

(** The method of the action's class. *)
Definition execute (a : Action) (ctx : ActionContext) : eff act_log unit :=
  match a with
  | NamedAclGrantAction argv description _ _ _ _ => execute_grant argv description
  | NamedAclRevokeAction argv description _ _ _ => execute_revoke argv description
  | HelperMkdirChownAction parent leaves uid gid => execute_mkdir parent leaves uid gid ctx
  | HelperCpChownAction parent files uid gid mode => execute_cp parent files uid gid mode ctx
  | WorkspaceSharedGroupAction ws gid step _ argv => execute_workspace ws gid step argv
  | ComposeUpAction inst => execute_compose inst ctx
  end.

(** ** What an execution does *)

(** The one thing an action does by itself, and the one it dispatches. *)
Definition own_effect (a : Action) : list did :=
  match a with
  | NamedAclGrantAction argv _ _ _ _ _ | NamedAclRevokeAction argv _ _ _ _ => [Ran argv]
  | WorkspaceSharedGroupAction ws gid chgrp _ _ => [Chowned ws gid]
  | WorkspaceSharedGroupAction ws gid chmod_2770 _ _ => [Chmodded ws 1528]
  | WorkspaceSharedGroupAction _ _ _ _ argv => [Ran argv]
  | _ => []
  end.
Definition dispatched (a : Action) : bool :=
  match a with HelperMkdirChownAction _ _ _ _ | HelperCpChownAction _ _ _ _ _ | ComposeUpAction _ => true | _ => false end.

Definition starts (a : Action) : Prop := ∀ argv x, own_effect a = [Ran argv] → command argv ≠ NotStarted x.

Lemma run_acl_cases argv msg s :
  match run_acl argv msg s with
  | (Ok _, s') => s' = ((s.1 ++ [Ran argv])%list, s.2) ∧ ∃ stderr, command argv = Done 0 stderr
  | (Err x, s') => (s' = s ∧ command argv = NotStarted x) ∨
      (s' = ((s.1 ++ [Ran argv])%list, s.2) ∧ is_sandbox_execution_error x = true ∧ ∃ rc stderr, command argv = Done rc stderr ∧ rc ≠ 0%Z)
  end.
Proof.
  unfold run_acl. destruct (command argv) as [rc stderr|x] eqn:Hc; cbn; [|by left].
  destruct (Z.eqb_spec rc 0) as [->|]; cbn; [by split; eauto|]. right. split; [done|]. split; [done|]. by eauto.
Qed.

(** An action that is not dispatched leaves the audit trail alone and does
    exactly its one effect when it succeeds, at most that when it fails; the
    error is a SandboxExecutionError wherever its command can be started, and
    always for a revocation.  A dispatched one does nothing by itself. *)
Theorem execute_exact a ctx s :
  (∀ p g x, os_chown p g = Err x → is_os_error x = true) → (∀ p m x, os_chmod p m = Err x → is_os_error x = true) →
  (∀ argv x, command argv = NotStarted x → is_os_error x = true) →
  let '(r, s') := execute a ctx s in
  (dispatched a = true → s'.1 = s.1) ∧
  (dispatched a = false → s'.2 = s.2 ∧ (r = Ok tt → s'.1 = (s.1 ++ own_effect a)%list) ∧
    ∀ x, r = Err x → (s'.1 = s.1 ∨ s'.1 = (s.1 ++ own_effect a)%list) ∧
      (is_sandbox_execution_error x = true ∨
       ∃ argv, own_effect a = [Ran argv] ∧ command argv = NotStarted x ∧ ∀ c d t en de, a ≠ NamedAclRevokeAction c d t en de)).
Proof.
  intros Hchown Hchmod Hstart.
  assert (Hrun : ∀ argv msg, own_effect a = [Ran argv] → (∀ c d t en de, a ≠ NamedAclRevokeAction c d t en de) ∨ (∃ rc se, command argv = Done rc se) →
    let '(r, s') := run_acl argv msg s in s'.2 = s.2 ∧ (r = Ok tt → s'.1 = (s.1 ++ own_effect a)%list) ∧
      ∀ x, r = Err x → (s'.1 = s.1 ∨ s'.1 = (s.1 ++ own_effect a)%list) ∧
        (is_sandbox_execution_error x = true ∨
         ∃ argv, own_effect a = [Ran argv] ∧ command argv = NotStarted x ∧ ∀ c d t en de, a ≠ NamedAclRevokeAction c d t en de)).
  { intros argv msg -> Hnot. pose proof (run_acl_cases argv msg s) as H. destruct (run_acl argv msg s) as [[u|x] s'].
    - destruct H as [-> _]. by split_and!.
    - destruct H as [[-> Hc]|(-> & Hx & _)]; (split_and!; [done|done|]); intros x' [= <-]; [|by auto].
      split; [by left|]. right. exists argv. split_and!; [done|done|]. by destruct Hnot as [?|(rc & se & ?)]; [|congruence]. }
  assert (Hos : ∀ r d msg, own_effect a = [d] → (∀ x, r = Err x → is_os_error x = true) →
    let '(r, s') := os_call r d msg s in s'.2 = s.2 ∧ (r = Ok tt → s'.1 = (s.1 ++ own_effect a)%list) ∧
      ∀ x, r = Err x → (s'.1 = s.1 ∨ s'.1 = (s.1 ++ own_effect a)%list) ∧
        (is_sandbox_execution_error x = true ∨
         ∃ argv, own_effect a = [Ran argv] ∧ command argv = NotStarted x ∧ ∀ c d t en de, a ≠ NamedAclRevokeAction c d t en de)).
  { intros [u|x] d msg -> Hx; cbn; [by split_and!|]. rewrite (Hx x eq_refl). split_and!; [done|done|]. intros x' [= <-]. by auto. }
  destruct a as [argv d t en de rec|argv d t en de|parent leaves uid gid|parent files uid gid mode|ws gid step op argv|inst]; cbn [execute dispatched];
    unfold execute_grant, execute_revoke, execute_mkdir, execute_cp, execute_workspace, execute_compose.
  - pose proof (Hrun argv ("ACL grant failed for " +:+ d) eq_refl) as H. destruct (run_acl _ _ s). split; [done|]. intros _. apply H. by left.
  - destruct (command argv) as [rc se|x] eqn:Hc.
    + pose proof (Hrun argv ("ACL revoke warning for " +:+ d) eq_refl) as H. destruct (run_acl _ _ s). split; [done|]. intros _. apply H. right. by eauto.
    + cbn. rewrite (Hstart _ _ Hc). split; [done|]. intros _. split_and!; [done|done|]. intros x' [= <-]. by auto.
  - unfold audited. by destruct (helper_mkdir_chown_dirs _ _ _ _ _ _ _ _ _ _ _ s.2).
  - unfold audited. by destruct (helper_chown_files _ _ _ _ _ _ _ _ _ _ _ _ s.2).
  - destruct step.
    + pose proof (Hos (os_chown ws gid) (Chowned ws gid) ("Workspace chgrp failed for " +:+ ws) eq_refl (Hchown ws gid)) as H. by destruct (os_call _ _ _ s).
    + pose proof (Hos (os_chmod ws 1528) (Chmodded ws 1528) ("Workspace chmod failed for " +:+ ws) eq_refl (Hchmod ws 1528%Z)) as H. by destruct (os_call _ _ _ s).
    + pose proof (Hrun argv ("Workspace shared-group effective ACL failed for " +:+ ws) eq_refl) as H. destruct (run_acl _ _ s). split; [done|]. intros _. apply H. by left.
    + pose proof (Hrun argv ("Workspace shared-group default ACL failed for " +:+ ws) eq_refl) as H. destruct (run_acl _ _ s). split; [done|]. intros _. apply H. by left.
  - destruct (ctx_host_config ctx) as [c|]; cbn; [|done]. unfold audited, mbind, eff_bind. by destruct (invoke _ _ _ _ _ _ _ _ s.2) as [[]].
Qed.

(** In the operator-rootless mode the command that compose-up records is the one
    its preview shows. *)
Theorem compose_as_previewed inst c ctx s argv : ctx_host_config ctx = Some c → is_operator_rootless c = true →
  build_invocation h e (op_value COMPOSE_UP) [inst] c = Ok argv →
  render_command (ComposeUpAction inst) c = Ok (shlex_join argv) ∧
  (execute (ComposeUpAction inst) ctx s).2.2 = (s.2 ++ [MkAudit (op_value COMPOSE_UP) [inst] argv inst])%list.
Proof.
  intros Hc Hr Hb. split; [unfold render_command; by rewrite Hb|]. cbn [execute]. unfold execute_compose. rewrite Hc.
  pose proof (audit_exact h e environ_path spawn fresh (op_value COMPOSE_UP) [inst] c s.2) as H. cbv zeta in H.
  rewrite Hb, Hr in H. destruct H as (instance & H & Hi & _).
  assert (Some inst = Some instance) as [= <-] by by eapply (Hi _ COMPOSE_UP).
  unfold mbind, eff_bind, audited. destruct (invoke _ _ _ _ _ _ _ _ s.2) as [[cp|x] l]; by rewrite <- H.
Qed.
End execute.

(** ** Demonstrations *)

(** [setfacl] is there and fails; the file system lets everything through. *)
Definition failing (argv : list string) : command_result := Done 1 (Some "no such file").
Definition lets (p : string) (n : Z) : res unit := Ok tt.
Definition a_revoke : Action := NamedAclRevokeAction ["setfacl"; "-x"; "u:sandbox"; "/i"] "traverse" "/i" "u:sandbox" false.

Definition demo_execute (spawned : spawn_outcome) (a : Action) (ctx : ActionContext) : res unit * act_log :=
  execute demo_host demo_env None (λ _ _ _, spawned) failing lets lets (λ _, "") "f" a ctx ([], []).

(** A revoke that fails raises; its documentation says that the exit code is
    returned for the caller to look at. *)
Lemma revoke_raises spawned : demo_execute spawned a_revoke (action_context "sandbox" "/i") =
  (Err (SandboxExecutionError "ACL revoke warning for traverse: no such file" false), ([Ran ["setfacl"; "-x"; "u:sandbox"; "/i"]], [])).
Proof. vm_compute. reflexivity. Qed.

Lemma execute_exact_witness : ∃ x, (demo_execute (Exited 0 None None) a_revoke (action_context "sandbox" "/i")).1 = Err x ∧
  is_sandbox_execution_error x = true.
Proof.
  pose proof (execute_exact demo_host demo_env None (λ _ _ _, Exited 0 None None) failing lets lets (λ _, "") "f" a_revoke
    (action_context "sandbox" "/i") ([], []) ltac:(done) ltac:(done) ltac:(done)) as [_ H].
  destruct (H eq_refl) as (_ & _ & He). eexists. split; [vm_compute; reflexivity|].
  destruct (He _ eq_refl) as [_ [Hx|(argv & _ & Hn & _)]]; [exact Hx|discriminate Hn].
Defined.

Definition rootless_cfg : HostConfig := MkHostConfig (MkHostSettings None OPERATOR_ROOTLESS "sb-ws-ann").

Lemma compose_as_previewed_witness : ∃ line argv, render_command demo_host demo_env (ComposeUpAction "web") rootless_cfg = Ok line ∧
  (demo_execute (Exited 0 None None) (ComposeUpAction "web") (MkActionContext "ann" "/i" (Some rootless_cfg) OPERATOR_ROOTLESS)).2.2 =
    [MkAudit "compose-up" ["web"] argv "web"] ∧ line = shlex_join argv.
Proof.
  assert (∃ argv, build_invocation demo_host demo_env (op_value COMPOSE_UP) ["web"] rootless_cfg = Ok argv) as [argv Hb] by (eexists; vm_compute; reflexivity).
  exists (shlex_join argv), argv.
  destruct (compose_as_previewed demo_host demo_env None (λ _ _ _, Exited 0 None None) failing lets lets (λ _, "") "f" "web" rootless_cfg
    (MkActionContext "ann" "/i" (Some rootless_cfg) OPERATOR_ROOTLESS) ([], []) argv eq_refl eq_refl Hb) as [H1 H2].
  split; [exact H1|]. split; [exact H2|reflexivity].
Defined.
