(* ===== verification/BackupTools.v ===== *)
(** * core.workspace_backups: the questions to rsync and the group of a copy

    The two cached questions, which the process asks once, and the pass that
    gives a copy to a group, over the file system of [SharedGroup]. *)
From S2P Require Import Prelude PyStr SharedGroup.
From Stdlib Require Import Ascii String.
Open Scope nat_scope.

(** ** The caches *)

Record rsync_caches := RsyncCaches { rsync_version_cache : option string; xattrs_supported_cache : option bool }.
Definition no_cache : rsync_caches := RsyncCaches None None.

Section rsync.
(** What the n-th [rsync --version] of the process gives; the state counts them. *)
Context (rsync_version : nat → res string).

Abbreviation asks A := (eff (rsync_caches * nat) A).

Definition ask_rsync : asks (res string) := λ s, (Ok (rsync_version s.2), (s.1, S s.2)).
Definition put_caches (c : rsync_caches) : asks unit := λ s, (Ok tt, (c, s.2)).

Definition first_line (out : string) : string := default "" (head (splitlines out)).

Definition query_rsync_version : asks string :=
  s ← get_state;
  match rsync_version_cache s.1 with
  | Some v => mret v
  | None =>
      r ← ask_rsync;
      match (r : res string) with
      | Err e => if is_sandbox_execution_error e
                 then _ ← put_caches (RsyncCaches (Some "") (xattrs_supported_cache s.1)); mret ""
                 else throw e
      | Ok out => let v := first_line out in
                  _ ← put_caches (RsyncCaches (Some v) (xattrs_supported_cache s.1)); mret v
      end
  end.

Definition has_xattrs (text : string) : bool := contains " xattrs" text && negb (contains "no xattrs" text).

Definition rsync_supports_xattrs : asks bool :=
  s ← get_state;
  match xattrs_supported_cache s.1 with
  | Some b => mret b
  | None =>
      r ← ask_rsync;
      match (r : res string) with
      | Err e => if is_sandbox_execution_error e
                 then _ ← put_caches (RsyncCaches (rsync_version_cache s.1) (Some false)); mret false
                 else throw e
      | Ok out => let b := has_xattrs out in
                  _ ← put_caches (RsyncCaches (rsync_version_cache s.1) (Some b)); mret b
      end
  end.

(** Each question runs rsync at most once; from then on its answer stays, also
    when that one run failed, and the other question's cache is left alone. *)
Theorem asked_once s v b s1 s2 : query_rsync_version s = (Ok v, s1) → rsync_supports_xattrs s = (Ok b, s2) →
  (s1.2 <= S s.2 ∧ query_rsync_version s1 = (Ok v, s1) ∧ xattrs_supported_cache s1.1 = xattrs_supported_cache s.1) ∧
  (s2.2 <= S s.2 ∧ rsync_supports_xattrs s2 = (Ok b, s2) ∧ rsync_version_cache s2.1 = rsync_version_cache s.1).
Proof.
  destruct s as [[vc xc] n]. intros Hv Hb. split; [clear Hb|clear Hv].
  - unfold query_rsync_version, get_state, ask_rsync, put_caches, mbind, eff_bind in *. cbn in *.
    destruct vc as [v'|]; cbn in *; [injection Hv as <- <-; cbn; split; [lia|by split]|].
    destruct (rsync_version n) as [out|e]; cbn in *; [|destruct (is_sandbox_execution_error e); cbn in *];
      try (injection Hv as <- <-; cbn; split; [lia|by split]). done.
  - unfold rsync_supports_xattrs, get_state, ask_rsync, put_caches, mbind, eff_bind in *. cbn in *.
    destruct xc as [b'|]; cbn in *; [injection Hb as <- <-; cbn; split; [lia|by split]|].
    destruct (rsync_version n) as [out|e]; cbn in *; [|destruct (is_sandbox_execution_error e); cbn in *];
      try (injection Hb as <- <-; cbn; split; [lia|by split]). done.
Qed.
End rsync.

(** ** The group of a copy *)

Definition chown_or_skip (gid : Z) (fs : files) (p : string) : files :=
  match chown p gid fs with Ok fs => fs | Err _ => fs end.

Definition force_group (listable : string → bool) (fs : files) (root : string) (gid : Z) : files :=
  let fs := chown_or_skip gid fs root in
  foldl (chown_or_skip gid) fs
    (flat_map (λ '(dirpath, dirnames, filenames), map (path_join dirpath) (dirnames ++ filenames)%list) (walk listable (walk_fuel fs) fs root)).

Definition regrouped (gid : Z) (i : inode) : inode := if mine i then with_gid gid i else i.

Lemma chown_or_skip_lookup gid fs p q : chown_or_skip gid fs p !! q = (if decide (q = p) then regrouped gid <$> fs !! q else fs !! q).
Proof.
  unfold chown_or_skip, chown, regrouped. destruct (fs !! p) as [i|] eqn:Hp.
  - destruct (mine i) eqn:Hm; destruct (decide (q = p)) as [->|Hne]; rewrite ?lookup_insert_eq, ?lookup_insert_ne, ?Hp by done;
      cbn; rewrite ?Hm; done.
  - destruct (decide (q = p)) as [->|]; [by rewrite Hp|done].
Qed.

Lemma regrouped_twice gid i : regrouped gid (regrouped gid i) = regrouped gid i.
Proof. unfold regrouped. destruct (mine i) eqn:E; cbn; by rewrite E. Qed.

Lemma chown_all gid ps fs q : foldl (chown_or_skip gid) fs ps !! q = (if decide (q ∈ ps) then regrouped gid <$> fs !! q else fs !! q).
Proof.
  revert fs; induction ps as [|p ps IH]; intros fs; cbn [foldl]; [by rewrite decide_False by apply not_elem_of_nil|].
  rewrite IH, chown_or_skip_lookup. destruct (decide (q = p)) as [->|Hne].
  - rewrite (decide_True (P := p ∈ p :: ps)) by left. destruct (decide (p ∈ ps)); [|done].
    destruct (fs !! p); cbn; by rewrite ?regrouped_twice.
  - destruct (decide (q ∈ ps)); [rewrite decide_True by by right|rewrite decide_False by (by intros [?|?]%elem_of_cons)]; done.
Qed.

(** What the pass goes over: the copy and everything below it. *)
Definition copied (listable : string → bool) (fs : files) (root : string) : list string :=
  root :: flat_map (λ '(dirpath, dirnames, filenames), map (path_join dirpath) (dirnames ++ filenames)%list) (walk listable (walk_fuel fs) fs root).


(** The pass gives the copy, and everything the walk finds below it, to the
    group where the caller may, links themselves and not what they lead to; it
    changes no permission, and nothing else. *)
Theorem force_group_exact listable fs root gid q :
  let fs1 := chown_or_skip gid fs root in
  force_group listable fs root gid !! q =
    (if decide (q ∈ copied listable fs1 root) then regrouped gid <$> fs !! q else fs !! q) ∧
  same_kinds fs fs1.
Proof.
  cbv zeta. split.
  - unfold force_group, copied. cbv zeta. rewrite chown_all. set (ps := flat_map _ _). rewrite chown_or_skip_lookup.
    destruct (decide (q = root)) as [->|Hne].
    + rewrite (decide_True (P := root ∈ root :: ps)) by left. destruct (decide (root ∈ ps)); [|done].
      destruct (fs !! root); cbn; by rewrite ?regrouped_twice.
    + destruct (decide (q ∈ ps)); [rewrite decide_True by by right|rewrite decide_False by (by intros [?|?]%elem_of_cons)]; done.
  - intros p. rewrite chown_or_skip_lookup. destruct (decide (p = root)); [|done]. destruct (fs !! p) as [i|]; [|done]. cbn.
    unfold regrouped. by destruct (mine i) eqn:E; cbn; rewrite ?E.
Qed.
